(* ===== verification/_CoqProject ===== *)
-Q . S2P
Prelude.v
Protocol.v
Permissions.v
Pending.v
DaemonPermissions.v
Scheduler.v
SchedulerKahn.v
SchedulerRun.v
SchedulerCorrect.v
Json.v
Ndjson.v
Commands.v
OrchestrationStore.v
SubagentManager.v
SubagentCorrect.v
OrchestrationLoop.v
OrchestrationCorrect.v
OrchestrationLiveness.v
SubagentService.v
Multiplexer.v
MultiplexerCorrect.v
EventBridge.v
SessionStore.v
CryptoSession.v
Fingerprint.v
Encodings.v
RelayStore.v
RelayAuth.v
RelayTunnel.v
RelayTunnelCorrect.v
SessionRelay.v
EventCodec.v
AgentService.v
SessionHistory.v
AgentCorrect.v
AgentProtocol.v
TunnelHandler.v
RelayProxy.v
ClientConnection.v
TunnelCorrect.v
EndToEnd.v
TunnelClients.v
Utf8.v
Completion.v
AppState.v
TuiInput.v
TuiRender.v
TuiCorrect.v
TuiDialogs.v
TuiSafe.v
Headless.v
RepoStore.v
Worktrees.v
RepoService.v
RepoRuns.v
WorktreeCorrect.v
BranchCorrect.v
RepoWitnesses.v
CommandIndex.v
CommandService.v
CommandCorrect.v
JsonFile.v
Settings.v
GitLab.v
GitLabCorrect.v
ClientCalls.v
TunnelReconnect.v
Certificates.v
CertificatesCorrect.v
DaemonMain.v
ClientCommands.v
ClientCorrect.v
Setup.v
ClientConfig.v
ClientConfigCorrect.v
ClientWitnesses.v
Notifications.v
SetupCorrect.v
SetupClient.v
Releases.v
