(* ===== verification/Prelude.v ===== *)
(** * BetCode: a verification library

    BetCode lets several clients (terminals, headless tools) drive coding
    agents that run on a developer's machines.  A _daemon_ on each machine
    runs the agents, decides what tools they may use and fans their events
    out to the clients; a _relay_ on the network connects clients to daemons
    through tunnels, authenticates users, and buffers requests for machines
    that are offline; clients and daemons encrypt end to end, so that the
    relay carries ciphertext.  This library models the parts of that program
    that carry its own logic, operation by operation, and proves what makes
    them correct.

    ** Files, and the code they model (paths under crates/)

    - [Prelude]: results and the [let?] notation for Rust's [?]; byte strings;
      machine integers; the iteration order of a [HashMap] (class [HashIter])
      and the order in which a query returns rows it does not sort
      ([SqlOrder]), so that theorems hold for every order; the hint database
      [betcode]; shared lemmas.
    - [Protocol]: the status codes of tonic, the frames of a tunnel, the
      names of the calls (betcode-proto/src/methods.rs), the errors of
      betcode-core/src/db.rs, and what a statement that violates the schema
      answers.
    - [Permissions]: betcode-core/src/permissions.rs.  Rules, matching on
      tools and paths, the engine as a sorted list of rules.
    - [Pending], [DaemonPermissions]: betcode-daemon/src/permission/
      (pending.rs; engine.rs, types.rs and the grant table of
      storage/queries.rs).  A request is answered from the session's grants,
      the database, then the rules of [Permissions]; an undecided one waits in
      [Pending].
    - [Scheduler]: betcode-daemon/src/orchestration/scheduler.rs.
      Its maps are related to one edge list; [SchedulerKahn] proves the cycle
      check, [SchedulerRun] gives the transition system and its invariant,
      [SchedulerCorrect] the theorems.
    - [Json]: the values of serde_json that the code reads and writes.
    - [Ndjson]: betcode-core/src/ndjson/, the messages that an agent writes,
      one line each.
    - [Commands]: betcode-core/src/commands/ (mod.rs, builtin.rs, mcp.rs) and
      betcode-daemon/src/commands/mod.rs, the registry of commands.
    - [OrchestrationStore]: the tables for subagents and orchestrations,
      betcode-daemon/src/storage/queries_subagents.rs and models.rs, with the
      constraints of the migrations.
    - [SubagentManager]: betcode-daemon/src/orchestration/ pool.rs and
      manager.rs: the pool of processes, the life of a subagent, the task that
      drives an orchestration's [Scheduler].  The tasks are state machines
      whose steps are the sections between two waits; [manager_step]
      interleaves them with the calls of clients.
      [SubagentCorrect] has the invariant of permits, running map and rows;
      [OrchestrationLoop] and [OrchestrationCorrect] the simulation of the
      scheduler; [OrchestrationLiveness] the progress of chains.
    - [SubagentService]: betcode-daemon/src/server/subagent_svc.rs, on
      [SubagentManager].
    - [Multiplexer], [MultiplexerCorrect]: betcode-daemon/src/session/
      (types.rs, state.rs, multiplexer.rs).
    - [EventBridge]: betcode-daemon/src/subprocess/bridge.rs, from the
      messages of [Ndjson] to the numbered events that clients see.
    - [SessionStore]: sessions, messages and clients of the daemon's database,
      betcode-daemon/src/storage/ queries.rs and models.rs.
    - [SessionRelay]: betcode-daemon/src/subprocess/manager.rs, the pool of
      agent processes and their standard inputs, and
      betcode-daemon/src/relay/ (types.rs, pipeline.rs).  The
      task that reads the output of an agent is a state machine whose steps
      are the sections between two waits: a line arrives, an input that waits
      for an answer is handed over, an event is stored and sent to the
      forwarder, the line is finished, the output ends.  [EventCodec] gives
      the codec of events, a parameter, a concrete instance.
    - [AgentService]: betcode-daemon/src/server/ handler.rs and agent.rs, on
      [SessionRelay] and [Multiplexer]; [step] and [run] interleave the calls
      of clients with the tasks.  [SessionHistory] proves what is stored and
      replayed, [AgentCorrect] the rest.
    - [CryptoSession]: betcode-crypto/src/ session.rs, exchange.rs, error.rs.
      The module [NonceRace] is the compare-and-swap loop of next_nonce as a
      step relation between concurrent callers.
    - [Fingerprint]: betcode-crypto/src/ identity.rs,
      fingerprint_store.rs, fingerprint_visual.rs, and the comparison
      functions of exchange.rs.
    - [Encodings]: the base64 codec of betcode-core/src/db.rs, and what the
      code relies on of protobuf messages, as classes.
    - [RelayStore]: betcode-relay/src/storage/ (queries.rs, queries_buffer.rs,
      queries_certs.rs, models.rs) with the constraints of its migrations.
    - [RelayAuth]: betcode-relay/src/auth/ and server/auth_svc.rs,
      server/interceptor.rs, on [RelayStore].
    - [RelayTunnel], [RelayTunnelCorrect]: betcode-relay/src/
      registry/connection.rs, router/forwarder.rs, buffer/manager.rs,
      server/tunnel_svc.rs, on [RelayStore].
    - [AgentProtocol]: the messages of the agent service.
    - [TunnelHandler]: betcode-daemon/src/tunnel/ handler.rs and the task of
      client.rs that takes the frames: requests, key exchange, conversations
      and their forwarders, on [AgentService] and [CryptoSession].
    - [RelayProxy]: the services of betcode-relay/src/server/ that pass calls
      through a tunnel (grpc_util.rs, *_proxy.rs, machine_svc.rs).
    - [ClientConnection]: betcode-cli/src/connection.rs.  [TunnelCorrect],
      [EndToEnd] and [TunnelClients] prove what client, relay and daemon do
      together.
    - [Utf8]: Rust's texts: characters, byte offsets, slices that panic.
    - [Completion]: betcode-cli/src/completion/ and commands/.
    - [AppState]: betcode-cli/src/app/state.rs, the state of the terminal
      client; [TuiInput]: tui/input.rs, permission_input.rs and
      question_input.rs, what keys do; [TuiRender]: ui/, what is drawn, and
      the loop of tui/mod.rs, each branch of its select an operation of
      [tui_step].  [TuiCorrect], [TuiDialogs] and [TuiSafe] prove what the
      client shows, sends and survives.
    - [Headless]: betcode-cli/src/headless.rs, the client without a terminal.
    - [RepoStore]: the tables of repositories and worktrees,
      betcode-daemon/src/storage/ repo_queries.rs and the worktree part of
      queries.rs.  [Worktrees]: betcode-daemon/src/worktree/, on a model of
      the disk; creating a worktree is two steps, before and after git ran.
      [RepoService]: betcode-daemon/src/server/ repo_svc.rs and
      worktree_svc.rs.  [RepoRuns] proves the scan and interleaves the
      calls, [WorktreeCorrect] and [BranchCorrect] have the theorems of
      worktrees and branches, [RepoWitnesses] a concrete git for all of them.
    - [CommandIndex]: what is discovered on the disk: betcode-core/src/
      commands/ discovery.rs and plugins.rs, betcode-daemon/src/ commands/
      cc_discovery.rs and completion/.  [CommandService]: betcode-daemon/src/
      server/command_svc.rs, commands/service_executor.rs and plugin/;
      service commands are tasks that share the lock of the executor;
      [CommandCorrect] has their theorems.
    - [JsonFile]: how serde's derived code reads structs, and integers from
      texts.  [Settings]: betcode-core/src/config.rs, and config_svc.rs,
      version_svc.rs and health.rs of the daemon's server, and health.rs of
      the relay's.
    - [Notifications]: betcode-relay/src/notifications/ and
      storage/queries_notifications.rs.
    - [TunnelReconnect]: betcode-daemon/src/tunnel/ client.rs, config.rs and
      error.rs, with the floating-point arithmetic of the delays.
    - [GitLab], [GitLabCorrect]: betcode-daemon/src/gitlab/ and
      server/gitlab_svc.rs, gitlab_convert.rs: requests to the interface of
      GitLab and what is made of its answers.
    - [Certificates], [CertificatesCorrect]: betcode-crypto/src/certs.rs,
      betcode-setup/src/cert_provisioning.rs, betcode-daemon/src/tunnel/
      cert_rotation.rs, betcode-relay/src/tls/ and the start in main.rs, and
      the command of betcode-cli/src/daemon_cmd.rs, on a disk whose operations
      may fail.
    - [DaemonMain]: betcode-daemon/src/main.rs, server/mod.rs and config.rs:
      what is started, and which services the socket and the tunnel offer.
    - [ClientCalls]: the calls of connection.rs on one service each, answered
      by the daemon's services; [ClientCommands]: session_cmd.rs, repo_cmd.rs,
      worktree_cmd.rs, subagent_cmd.rs, gitlab_cmd.rs and gitlab_fmt.rs of the
      client; [ClientConfig]: config.rs, relay.rs, auth_cmd.rs,
      machine_cmd.rs and main.rs, and the file of known daemons.  [ClientCorrect] and [ClientConfigCorrect]
      have their theorems, [ClientWitnesses] concrete runs.
    - [Setup]: betcode-setup/src/: commands, prompts, privileges, and the
      set-ups of the daemon, the relay, the download server and the client,
      on a host whose files, modes and commands are state.  [SetupCorrect]
      proves what is read back from the files of a set-up, [SetupClient] runs
      the wizard on the model of the client.
    - [Releases]: betcode-releases/src/, the download server.

    ** How code becomes definitions

    A struct is a record, an enum an inductive type, a method a function from
    the state to the new state and the result; [Result] is [result].  A
    [HashMap] is a [gmap]; wherever the code iterates over one, the model goes
    through [hm_iter], of which only that it lists the entries once is known.
    Methods that hold a lock from the first to the last line are single
    steps; where the code can be interleaved in between ([NonceRace],
    [SubagentManager], [RelayTunnel]) the steps are the sections between two waits.  Clock
    readings, random bytes and UUIDs are arguments.  Strings are UTF-8 bytes.
    Third-party code is a class of operations with the laws the code relies
    on: [Primitives] (X25519, HKDF, ChaCha20-Poly1305), [Sha256], [JwtLib],
    [PasswordLib], [MetadataJson], [JsonText] and [JsonWrite] (serde_json),
    [ProtoMessage] and [AgentProtocol] (protobuf), [DebugText], [UnicodeCase]
    and [UnicodeAlphanumeric] (texts of the standard library), [FuzzyScore]
    (the matcher), [JsonPretty], [Terminal] (widths of characters and lines),
    and [SqlText] for the messages of the SQL library.  [LocalServices] is what
    the tunnel handler calls beside the agent service.  [GitTools] and
    [GitRefs] are git and the shell, [HashOrder] the order of a map of the
    standard library, [Semver] version numbers; [WorktreeModeCodes] and
    [PlatformCodes] the numbers of protocol enumerations, as are
    [GitLabCodes].  [GitLabApi] is the server of GitLab, [Relays] a relay as
    the client sees it, [Answering] whoever answers a client, [CliTexts] the
    texts of its libraries, [CertLib] keys and certificates, [Outside] and
    [Programs] what a set-up runs and reaches, [EnvironmentFiles] what
    systemd reads from a file of assignments without quotes: its manual says
    that a backslash keeps the character after it.  Each class that a theorem with a witness
    uses has a concrete instance, on which the witness is evaluated.

    ** What the theorems show

    - Scheduling: the cycle check accepts exactly the acyclic maps over known,
      distinct steps; steps run after their dependencies; a failure blocks
      exactly the descendants; runs are bounded and cannot get stuck.
    - Subagents and orchestrations: the task of an orchestration takes only
      transitions of its scheduler, whatever runs beside it, and its final
      event tells the truth; chains of steps, as sequential requests make
      them, come to their end; running processes never exceed the permits of
      the pool.
    - Permissions: first match by priority; answers never exceed questions;
      remembered answers decide; sessions do not influence each other;
      requests live exactly as long as their tier says.
    - Agents: the bridge computes a stateless reference; the reader of agent
      lines ignores what it does not know; the history of a session is a log
      that resuming replays, but for the prompt that began it; permission requests are answered by a remembered
      decision or by the user, with the tool's own input; a decision for the
      session lasts as long as the process that asked; compaction keeps the recent half.
    - Multiplexing: one lock holder, who is connected, until it lets go;
      bounded sessions; gap-free event numbers; exact stale clean-up.
    - Encryption and identity: no nonce twice, also between racing callers;
      what one side encrypts the other decrypts; fingerprints identify
      digests, stay pinned, and the identity file is stable and private.
    - Relay: tokens rotate, expire and are of two kinds; the database stays
      well formed; tunnels are admitted exactly when they should be, answers
      reach only the request they belong to, and the offline buffer loses
      nothing.
    - Tunnels end to end: a conversation through relay and tunnel has the
      effect of the local one, encrypted or not; only envelopes cross the
      relay; without the key a frame of a conversation changes nothing.
    - The terminal client: it never panics on ASCII; its dialogs edit
      characters; a resumed session looks as it did below its first prompt; every permission request
      is answered at most once.
    - Repositories: the tables stay consistent however calls, creations that
      wait for git and the disk are interleaved; the scan finds the outermost
      repositories; branches are listed as git has them; nothing a client
      sends is read by git as an option.
    - Service commands: short outputs arrive whole; the file index has every
      file when it is not full.
    - The tunnel client reconnects for ever, with bounded delays.
    - Client commands: a registered repository is shown as typed; a call
      reaches the configured machine of the token's owner; a configuration is
      read back as saved, and a client that runs often enough stays logged in.
    - Certificates: a check of the monitor that works keeps the certificate
      valid, until the writing of its metadata is cut off; but a rotated certificate is refused.
    - Set-up: an installed daemon starts with the options of its set-up, as
      systemd reads them, and an installed relay starts; the wizard leaves a
      client that holds the last tokens of its relay and the machine it has
      registered; an update reads the files of the
      installation back.
    - Downloads: what is redirected to is linked on the page.
    - Places where the code does less than it means to, stated as theorems:
      [AgentCorrect.ended_processes_fill_pool],
      [AgentCorrect.joining_client_message_lost],
      [AgentCorrect.old_task_unregisters_new],
      [AgentCorrect.late_answer_empties_input],
      [SessionHistory.racing_message_displaces_event],
      [RelayTunnelCorrect.reconnect_stalls_on_full_buffer],
      [RelayTunnelCorrect.old_tunnel_unregisters_new],
      [Permissions.double_star_covers_siblings],
      [DaemonPermissions.ask_session_asks_again],
      [RelayAuth.reused_token_forks_chain],
      [Fingerprint.randomart_panics_inside_character],
      [SchedulerKahn.foreign_keys_hide_cycle],
      [OrchestrationCorrect.first_wait_is_forever],
      [OrchestrationCorrect.failure_ends_early],
      [OrchestrationCorrect.running_step_not_recorded],
      [OrchestrationCorrect.cancelled_becomes_failed],
      [OrchestrationCorrect.taken_step_id_orphans],
      [TunnelCorrect.messages_overtake],
      [TunnelClients.tunnel_clients_fill_session],
      [EndToEnd.relay_in_the_middle], [EndToEnd.second_client_shuts_out_first],
      [EndToEnd.relay_allows_tools], [TuiCorrect.typing_beyond_ascii_panics],
      [TuiCorrect.tool_result_locks_session],
      [TuiCorrect.permission_preview_panics],
      [TuiDialogs.written_answer_is_lost],
      [TuiDialogs.displaced_request_never_answered],
      [Headless.headless_history_stays_sealed],
      [CommandCorrect.long_output_never_arrives],
      [CommandCorrect.long_output_stops_the_service],
      [WorktreeCorrect.creation_orphaned_by_unregister],
      [RepoRuns.worktrees_count_no_session],
      [BranchCorrect.missing_branch_answered_by_child],
      [RepoRuns.nested_by_listing_order],
      [CommandIndex.watched_changes_not_found],
      [Settings.absent_section_resets],
      [Notifications.devices_are_not_owned],
      [Notifications.unregister_panics],
      [GitLabCorrect.question_mark_cuts_path],
      [GitLabCorrect.month_zero_counts_on],
      [ClientCorrect.worktree_filter_ignored],
      [ClientCorrect.all_subagents_refused],
      [ClientCorrect.unknown_status_lists_all],
      [ClientCorrect.shown_range_exceeds_total],
      [ClientCorrect.gitlab_is_remote_only],
      [ClientCorrect.subagents_are_local_only], [DaemonMain.unused_options],
      [ClientConfigCorrect.one_off_flags_are_saved],
      [ClientConfigCorrect.concurrent_runs_log_out],
      [ClientConfigCorrect.logout_forgets],
      [CertificatesCorrect.rotated_certificate_is_refused],
      [CertificatesCorrect.mtls_without_tls_refuses_all],
      [CertificatesCorrect.dev_tls_replaces_authority],
      [SetupCorrect.relay_update_resets_address],
      [Releases.windows_arm_is_not_listed], [Completion.blank_before_name],
      [ClientConfigCorrect.cut_store_forgets_pins],
      [AgentCorrect.restart_forgets_grants],
      [BranchCorrect.separator_in_subject_misleads],
      [CertificatesCorrect.cut_metadata_ends_renewals],
      [SetupCorrect.as_read_same].  Where docs/architecture says something
      else than the code, the code is modelled: the delays of the tunnel
      client, the order of the offline buffer, the pool of subagents without
      a queue, permission rules that the relay does not look at.

    ** Fuel

    Two loops of the scheduler are not structural: [kahn_loop] takes one unit
    per node and one to stop, [cascade] one per queue entry that can ever be
    pushed ([cascade_fuel]).  [SchedulerKahn] and [SchedulerRun] prove that
    neither runs out.  [chunks_fuel] is given the length of its list.
    Everything else recurses on its data.

    ** Not modelled

    Network transport, TLS, file formats left to a serializer, disk failures
    (except where an operation takes a fault as an argument), logging and
    telemetry, password hashing, code that no program uses (the heartbeat task
    of the daemon, the command line of plugins), the layout and styles of the
    terminal, opening a database, the parsing of command lines beyond those of
    the wizard, and the generated code of the protocol, whose definitions are a
    submodule that is not part of the tree. *)
From stdpp Require Import gmap strings list fin_maps sorting.
From Stdlib Require Import ZArith Lia.

(** * Results, in the style of Rust's [Result] and its [?] operator *)

Inductive result (E A : Type) : Type :=
| Ok (a : A)
| Err (e : E).
Arguments Ok {E A} a.
Arguments Err {E A} e.

Definition result_bind {E A B : Type} (r : result E A) (k : A → result E B) : result E B :=
  match r with
  | Ok a => k a
  | Err e => Err e
  end.

Definition is_ok {E A : Type} (r : result E A) : bool :=
  match r with Ok _ => true | Err _ => false end.

Declare Scope betcode_scope.
Delimit Scope betcode_scope with bc.
Notation "'let?' x := r 'in' k" := (result_bind r (λ x, k))
  (at level 10, x name, r at level 100, k at level 200) : betcode_scope.
Open Scope betcode_scope.

(** * Machine integers *)

Definition u32_max : Z := 4294967295.
Definition wrap_u32 (z : Z) : Z := (z mod 2 ^ 32)%Z.
Definition wrap_u64 (z : Z) : Z := (z mod 2 ^ 64)%Z.

(** [n as i64] of a [u64]. *)
Definition i64_of_u64 (z : Z) : Z := if (z <? 2 ^ 63)%Z then z else (z - 2 ^ 64)%Z.

(** * Byte strings

    A Rust [&str] is a UTF-8 byte sequence; it is a [string] here, one
    character per byte, so lengths and slice offsets are byte counts. *)

Fixpoint starts_with (p s : string) : bool :=
  match p, s with
  | EmptyString, _ => true
  | String a p', String b s' => if decide (a = b) then starts_with p' s' else false
  | String _ _, EmptyString => false
  end.

Fixpoint strip_prefix (p s : string) : option string :=
  match p, s with
  | EmptyString, _ => Some s
  | String a p', String b s' => if decide (a = b) then strip_prefix p' s' else None
  | String _ _, EmptyString => None
  end.

Fixpoint strip_suffix (suf s : string) : option string :=
  if decide (s = suf) then Some EmptyString
  else match s with
       | EmptyString => None
       | String c s' => String c <$> strip_suffix suf s'
       end.

(** [s.split(c)]: the pieces between occurrences of the separator. *)
Fixpoint split_on (c : Ascii.ascii) (s : string) : list string :=
  match s with
  | EmptyString => [EmptyString]
  | String a s' =>
      if decide (a = c) then EmptyString :: split_on c s'
      else match split_on c s' with
           | [] => [String a EmptyString]
           | w :: ws => String a w :: ws
           end
  end.

Fixpoint join (sep : string) (l : list string) : string :=
  match l with
  | [] => EmptyString
  | [w] => w
  | w :: ws => w +:+ sep +:+ join sep ws
  end.

Fixpoint str_drop (n : nat) (s : string) : string :=
  match n, s with
  | 0, _ => s
  | S n', String _ s' => str_drop n' s'
  | S _, EmptyString => EmptyString
  end.

Fixpoint str_take (n : nat) (s : string) : string :=
  match n, s with
  | 0, _ => EmptyString
  | S n', String c s' => String c (str_take n' s')
  | S _, EmptyString => EmptyString
  end.

(** A byte offset is a character boundary of a UTF-8 string when the byte
    there is not a continuation byte. *)
Definition is_char_boundary (n : nat) (s : string) : bool :=
  match String.get n s with
  | Some c => let b := Ascii.nat_of_ascii c in negb ((128 <=? b) && (b <? 192))
  | None => n =? String.length s
  end.

(** [&s[..n]]; [None] is the panic off a character boundary. *)
Definition slice_to (n : nat) (s : string) : option string :=
  if is_char_boundary n s then Some (str_take n s) else None.

(** [slice::chunks(n)] *)
Fixpoint chunks_fuel {A : Type} (fuel n : nat) (l : list A) : list (list A) :=
  match fuel, l with
  | S fuel', _ :: _ => take n l :: chunks_fuel fuel' n (drop n l)
  | _, _ => []
  end.
Definition chunks {A : Type} (n : nat) (l : list A) : list (list A) := chunks_fuel (length l) n l.

(** * Iteration order of a hash map

    The order in which a Rust [HashMap] yields its entries is unspecified.
    Everything that iterates over one is written against this interface, so
    the theorems hold for every order. *)

Class HashIter := {
  hm_iter : ∀ {V : Type}, gmap string V → list (string * V);
  hm_iter_perm : ∀ {V : Type} (m : gmap string V), hm_iter m ≡ₚ map_to_list m
}.

#[export] Instance map_to_list_iter : HashIter := {
  hm_iter V m := map_to_list m;
  hm_iter_perm V m := reflexivity (map_to_list m)
}.

(** * [ORDER BY]

    SQL leaves the order of rows that compare equal unspecified: a query is
    written against this interface, which only promises a sorted permutation
    of the selected rows. *)

Class SqlOrder := {
  order_by : ∀ {A : Type}, (A → A → bool) → list A → list A;
  order_by_perm : ∀ {A : Type} (le : A → A → bool) (l : list A), order_by le l ≡ₚ l;
  order_by_sorted : ∀ {A : Type} (le : A → A → bool) (l : list A),
    (∀ x y z, le x y = true → le y z = true → le x z = true) →
    (∀ x y, le x y = true ∨ le y x = true) →
    StronglySorted (λ x y, le x y = true) (order_by le l)
}.

Fixpoint ordered_insert {A : Type} (le : A → A → bool) (x : A) (l : list A) : list A :=
  match l with
  | [] => [x]
  | y :: ys => if le x y then x :: y :: ys else y :: ordered_insert le x ys
  end.

Lemma ordered_insert_perm {A : Type} (le : A → A → bool) (x : A) (l : list A) :
  ordered_insert le x l ≡ₚ x :: l.
Proof.
  induction l as [|y l IH]; simpl; [done|].
  destruct (le x y); [done|]. rewrite IH. apply Permutation_swap.
Qed.

Lemma insertion_perm {A : Type} (le : A → A → bool) (l : list A) :
  foldr (ordered_insert le) [] l ≡ₚ l.
Proof. induction l as [|x l IH]; simpl; [done|]. by rewrite ordered_insert_perm, IH. Qed.

Lemma insertion_sorted {A : Type} (le : A → A → bool) (l : list A) :
  (∀ x y z, le x y = true → le y z = true → le x z = true) →
  (∀ x y, le x y = true ∨ le y x = true) →
  StronglySorted (λ x y, le x y = true) (foldr (ordered_insert le) [] l).
Proof.
  intros Htr Htot. induction l as [|x l IH]; simpl; [constructor|].
  induction IH as [|y l' Hl' IH' Hy]; simpl; [repeat constructor|].
  destruct (le x y) eqn:E.
  - constructor; [by constructor|]. constructor; [done|].
    eapply Forall_impl; [exact Hy|]. intros z. by apply Htr.
  - constructor; [done|]. rewrite ordered_insert_perm. constructor; [|done].
    by destruct (Htot y x) as [|H]; [|rewrite E in H].
Qed.

#[export] Instance insertion_order : SqlOrder := {
  order_by A le l := foldr (ordered_insert le) [] l;
  order_by_perm A := insertion_perm;
  order_by_sorted A := insertion_sorted
}.

(** * Stable sorting by a key, as [slice::sort_by_key] *)

Section SortByKey.
Context {A : Type} (key : A → Z).

Fixpoint sorted_insert (x : A) (l : list A) : list A :=
  match l with
  | [] => [x]
  | y :: ys => if (key x <=? key y)%Z then x :: y :: ys else y :: sorted_insert x ys
  end.

Fixpoint sort_by_key (l : list A) : list A :=
  match l with
  | [] => []
  | x :: xs => sorted_insert x (sort_by_key xs)
  end.

Definition key_le (x y : A) : Prop := (key x ≤ key y)%Z.

End SortByKey.

(** * Tactics and hints *)

Create HintDb betcode.

(** Split every [match]/[if] of the goal or of a hypothesis, keeping the
    equations, and discard the impossible branches. *)
Ltac split_matches :=
  repeat (case_match; simplify_eq/=).

(** * Lemmas on strings *)

Lemma string_app_nil_r (s : string) : s +:+ EmptyString = s.
Proof. induction s as [|c s IH]; [done|]. unfold String.app in *. simpl. by rewrite IH. Qed.

Lemma string_app_cons (c : Ascii.ascii) (s t : string) : String c s +:+ t = String c (s +:+ t).
Proof. done. Qed.

Lemma string_app_assoc (s t u : string) : s +:+ (t +:+ u) = (s +:+ t) +:+ u.
Proof. induction s as [|c s IH]; [done|]. by rewrite !string_app_cons, IH. Qed.

Lemma string_length_app (s t : string) :
  String.length (s +:+ t) = String.length s + String.length t.
Proof. induction s as [|c s IH]; [done|]. rewrite string_app_cons. simpl. by rewrite IH. Qed.

Lemma starts_with_spec (p s : string) : starts_with p s = true ↔ ∃ t, s = p +:+ t.
Proof.
  revert s. induction p as [|a p IH]; intros s; simpl.
  { split; eauto. }
  destruct s as [|b s].
  { split; [done|]. by intros [t Ht]. }
  case_decide as Hab; [subst b; rewrite IH|].
  - split; intros [t Ht]; exists t; [by subst s|]. rewrite string_app_cons in Ht. by simplify_eq.
  - split; [done|]. intros [t Ht]. rewrite string_app_cons in Ht. by simplify_eq.
Qed.

Lemma strip_prefix_spec (p s t : string) : strip_prefix p s = Some t ↔ s = p +:+ t.
Proof.
  revert s. induction p as [|a p IH]; intros s; simpl.
  { split; intros H; by simplify_eq/=. }
  destruct s as [|b s]; [done|].
  case_decide as Hab; [subst b; rewrite IH|]; rewrite string_app_cons; naive_solver.
Qed.

Lemma strip_suffix_spec (suf s p : string) : strip_suffix suf s = Some p ↔ s = p +:+ suf.
Proof.
  revert p. induction s as [|c s IH]; intros p; simpl.
  - case_decide as Hs; [subst suf|].
    + split; intros H; [by simplify_eq|]. destruct p; [done|]. by rewrite string_app_cons in H.
    + split; [done|]. intros H. destruct p; [|by rewrite string_app_cons in H]. by destruct Hs.
  - case_decide as Hs; [subst suf|].
    + split; intros H; [by simplify_eq|].
      assert (String.length p = 0) as Hp.
      { apply (f_equal String.length) in H. rewrite string_length_app in H. simpl in H. lia. }
      by destruct p.
    + rewrite fmap_Some. split.
      * intros (q & Hq & ->). apply IH in Hq as ->. by rewrite string_app_cons.
      * intros H. destruct p as [|d p]; [by destruct Hs|].
        rewrite string_app_cons in H. simplify_eq. exists p. split; [by apply IH|done].
Qed.

Lemma str_take_drop (n : nat) (s : string) : str_take n s +:+ str_drop n s = s.
Proof.
  revert s. induction n as [|n IH]; intros [|c s]; try done.
  simpl. by rewrite string_app_cons, IH.
Qed.

Lemma str_take_length (n : nat) (s : string) :
  n ≤ String.length s → String.length (str_take n s) = n.
Proof.
  revert s. induction n as [|n IH]; intros [|c s]; simpl; try lia.
  intros H. rewrite IH; lia.
Qed.

(** * Lemmas on chunks *)

Lemma chunks_fuel_spec {A : Type} (fuel n : nat) (l : list A) :
  0 < n → length l ≤ fuel →
  concat (chunks_fuel fuel n l) = l ∧ Forall (λ c, c ≠ [] ∧ length c ≤ n) (chunks_fuel fuel n l).
Proof.
  intros Hn. revert l. induction fuel as [|fuel IH]; intros l Hl.
  { destruct l; [by split|simpl in Hl; lia]. }
  destruct l as [|x l]; [by split|]. cbn [chunks_fuel].
  destruct (IH (drop n (x :: l))) as [H1 H2]; [rewrite length_drop; simpl in *; lia|].
  split; [cbn [concat]; rewrite H1; apply take_drop|].
  constructor; [|done]. split; [destruct n; [lia|done]|]. rewrite length_take. lia.
Qed.

Lemma chunks_spec {A : Type} (n : nat) (l : list A) :
  0 < n → concat (chunks n l) = l ∧ Forall (λ c, c ≠ [] ∧ length c ≤ n) (chunks n l).
Proof. intros Hn. by apply chunks_fuel_spec. Qed.

Lemma chunks_fuel_enough {A : Type} (n f1 f2 : nat) (l : list A) :
  0 < n → length l ≤ f1 → length l ≤ f2 → chunks_fuel f1 n l = chunks_fuel f2 n l.
Proof.
  intros Hn. revert f2 l. induction f1 as [|f1 IH]; intros [|f2] [|x l] H1 H2; simpl in H1, H2; try done; try lia.
  cbn [chunks_fuel]. f_equal. apply IH; rewrite length_drop; simpl; lia.
Qed.

Lemma chunks_app {A : Type} (n : nat) (c l : list A) :
  0 < n → length c = n → chunks n (c ++ l) = c :: chunks n l.
Proof.
  intros Hn Hc. unfold chunks. destruct c as [|x c]; [simpl in Hc; lia|].
  rewrite length_app. change ((x :: c) ++ l) with (x :: (c ++ l)). cbn [length Nat.add chunks_fuel].
  change (x :: (c ++ l)) with ((x :: c) ++ l). rewrite <- Hc, take_app_length, drop_app_length. f_equal.
  apply chunks_fuel_enough; simpl; lia.
Qed.

Lemma chunks_short {A : Type} (n : nat) (c : list A) : c ≠ [] → length c ≤ n → chunks n c = [c].
Proof.
  intros Hne Hc. unfold chunks. destruct c as [|x c]; [done|]. cbn [length chunks_fuel].
  rewrite take_ge, drop_ge by done. f_equal. by destruct (length c).
Qed.

(** * Lemmas on separators *)

(** A separator does not occur in a piece. *)
Fixpoint no_char (c : Ascii.ascii) (s : string) : Prop :=
  match s with
  | EmptyString => True
  | String a s' => a ≠ c ∧ no_char c s'
  end.

Lemma split_on_nonempty (c : Ascii.ascii) (s : string) : split_on c s ≠ [].
Proof. destruct s as [|a s]; simpl; [done|]. case_decide; [done|]. by destruct (split_on c s). Qed.

Lemma join_cons (sep w : string) (ws : list string) :
  ws ≠ [] → join sep (w :: ws) = w +:+ sep +:+ join sep ws.
Proof. by destruct ws. Qed.

Lemma join_cons_char (sep : string) (a : Ascii.ascii) (w : string) (ws : list string) :
  join sep (String a w :: ws) = String a (join sep (w :: ws)).
Proof. by destruct ws. Qed.

Lemma join_split_on (c : Ascii.ascii) (s : string) : join (String c EmptyString) (split_on c s) = s.
Proof.
  induction s as [|a s IH]; [done|]. simpl. pose proof (split_on_nonempty c s) as Hne.
  case_decide as Hac.
  - rewrite join_cons, IH by done. by subst a.
  - destruct (split_on c s) as [|w ws]; [done|]. by rewrite join_cons_char, IH.
Qed.

Lemma split_on_no_char (c : Ascii.ascii) (s : string) : no_char c s → split_on c s = [s].
Proof.
  induction s as [|a s IH]; [done|]. simpl. intros [Ha Hs]. rewrite decide_False by done. by rewrite IH.
Qed.

Lemma no_char_both (c : Ascii.ascii) (s t : string) : no_char c s → no_char c t → no_char c (s +:+ t).
Proof. intros Hs Ht. induction s as [|a s IH]; [done|]. destruct Hs. split; [done|by apply IH]. Qed.

Lemma split_on_app_sep (c : Ascii.ascii) (w s : string) :
  no_char c w → split_on c (w +:+ String c s) = w :: split_on c s.
Proof.
  induction w as [|a w IH]; intros Hw; simpl; [by rewrite decide_True|].
  destruct Hw as [Ha Hw]. rewrite decide_False by done. fold (String.append w (String c s)). by rewrite IH.
Qed.

(** Texts with the separator in them are split too. *)
Lemma split_on_app_any (c : Ascii.ascii) (w s : string) : split_on c (w +:+ String c s) = split_on c w ++ split_on c s.
Proof.
  induction w as [|a w IH]; simpl; [by rewrite decide_True|]. fold (String.append w (String c s)). case_decide; [by rewrite IH|].
  rewrite IH. pose proof (split_on_nonempty c w). by destruct (split_on c w).
Qed.

Lemma split_on_join (c : Ascii.ascii) (ws : list string) :
  ws ≠ [] → Forall (no_char c) ws → split_on c (join (String c EmptyString) ws) = ws.
Proof.
  intros Hne Hws. induction Hws as [|w ws Hw Hws IH]; [done|]. destruct ws as [|v ws].
  { by apply split_on_no_char. }
  rewrite join_cons by done.
  change (split_on c (w +:+ String c (join (String c EmptyString) (v :: ws))) = w :: v :: ws).
  rewrite split_on_app_sep by done. by rewrite IH.
Qed.

Lemma split_on_pieces (c : Ascii.ascii) (s : string) : Forall (no_char c) (split_on c s).
Proof.
  induction s as [|a s IH]; simpl; [by repeat constructor|]. case_decide as Hac; [by constructor|].
  pose proof (split_on_nonempty c s) as Hne. destruct (split_on c s) as [|w ws]; [done|].
  inversion_clear IH. by constructor.
Qed.

Lemma join_length (sep : string) (ws : list string) (n : nat) :
  ws ≠ [] → Forall (λ w, String.length w = n) ws →
  String.length (join sep ws) = length ws * n + (length ws - 1) * String.length sep.
Proof.
  intros Hne Hws. induction Hws as [|w ws Hw Hws IH]; [done|]. destruct ws as [|v ws]; [simpl; lia|].
  rewrite join_cons, !string_length_app, IH by done. simpl. lia.
Qed.

(** * Lemmas on sorting *)

Section SortByKeyLemmas.
Context {A : Type} (key : A → Z).

Lemma sorted_insert_perm (x : A) (l : list A) : sorted_insert key x l ≡ₚ x :: l.
Proof.
  induction l as [|y l IH]; simpl; [done|].
  case_match; [done|]. rewrite IH. apply Permutation_swap.
Qed.

Lemma sort_by_key_perm (l : list A) : sort_by_key key l ≡ₚ l.
Proof. induction l as [|x l IH]; simpl; [done|]. by rewrite sorted_insert_perm, IH. Qed.

Lemma sorted_insert_sorted (x : A) (l : list A) :
  StronglySorted (key_le key) l → StronglySorted (key_le key) (sorted_insert key x l).
Proof.
  unfold key_le. induction 1 as [|y l Hl IH Hy]; simpl.
  { repeat constructor. }
  case_match eqn:E.
  - apply Z.leb_le in E. constructor; [by constructor|]. constructor; [done|].
    eapply Forall_impl; [exact Hy|]. intros z Hz. simpl in *. lia.
  - apply Z.leb_gt in E. constructor; [done|].
    rewrite sorted_insert_perm. constructor; [lia|done].
Qed.

Lemma sort_by_key_sorted (l : list A) : StronglySorted (key_le key) (sort_by_key key l).
Proof.
  induction l as [|x l IH]; simpl; [constructor|]. by apply sorted_insert_sorted.
Qed.

Lemma sorted_insert_filter (k : Z) (x : A) (l : list A) :
  StronglySorted (key_le key) l →
  filter (λ y, key y = k) (sorted_insert key x l) = filter (λ y, key y = k) (x :: l).
Proof.
  unfold key_le. induction 1 as [|y l Hl IH Hy]; simpl; [done|].
  case_match eqn:E; [done|]. apply Z.leb_gt in E.
  rewrite !filter_cons. rewrite IH, filter_cons.
  repeat case_decide; try done. lia.
Qed.

(** Sorting keeps the relative order of the elements with equal keys. *)
Lemma sort_by_key_stable (k : Z) (l : list A) :
  filter (λ y, key y = k) (sort_by_key key l) = filter (λ y, key y = k) l.
Proof.
  induction l as [|x l IH]; simpl; [done|].
  rewrite sorted_insert_filter by apply sort_by_key_sorted.
  by rewrite !filter_cons, IH.
Qed.

Lemma sorted_insert_head (x : A) (l : list A) :
  Forall (key_le key x) l → sorted_insert key x l = x :: l.
Proof.
  destruct 1 as [|y l Hy _]; simpl; [done|].
  unfold key_le in Hy. by rewrite (proj2 (Z.leb_le _ _) Hy).
Qed.

Lemma Forall_sort_by_key (P : A → Prop) (l : list A) :
  Forall P l → Forall P (sort_by_key key l).
Proof. by rewrite sort_by_key_perm. Qed.

(** The head of a sorted list: an element strictly below those before it and
    not above those after it. *)
Lemma sort_by_key_min (b a : list A) (r : A) :
  Forall (λ q, (key r < key q)%Z) b → Forall (key_le key r) a →
  ∃ rest, sort_by_key key (b ++ r :: a) = r :: rest.
Proof.
  intros Hb Ha. induction Hb as [|x b Hx Hb [rest IH]]; simpl.
  { exists (sort_by_key key a). apply sorted_insert_head. by apply Forall_sort_by_key. }
  rewrite IH. simpl. rewrite (proj2 (Z.leb_gt _ _) Hx). eauto.
Qed.

Lemma filter_sorted_insert (P : A → Prop) `{!∀ x, Decision (P x)} (x : A) (l : list A) :
  StronglySorted (key_le key) l →
  filter P (sorted_insert key x l) =
  if decide (P x) then sorted_insert key x (filter P l) else filter P l.
Proof.
  induction 1 as [|y l Hl IH Hy]; simpl; [by rewrite filter_cons|].
  destruct (key x <=? key y)%Z eqn:E.
  - rewrite filter_cons. case_decide; [|done].
    apply Z.leb_le in E. symmetry. apply sorted_insert_head. unfold key_le in *.
    apply Forall_forall. intros z [_ Hz]%list_elem_of_filter.
    apply elem_of_cons in Hz as [->|Hz]; [done|].
    rewrite Forall_forall in Hy. specialize (Hy z Hz). lia.
  - rewrite !filter_cons, IH. do 2 case_decide; simpl; rewrite ?E; done.
Qed.

Lemma filter_sort_by_key (P : A → Prop) `{!∀ x, Decision (P x)} (l : list A) :
  filter P (sort_by_key key l) = sort_by_key key (filter P l).
Proof.
  induction l as [|x l IH]; simpl; [done|].
  rewrite filter_sorted_insert by apply sort_by_key_sorted.
  rewrite filter_cons, IH. by case_decide.
Qed.

(** A sorted list is determined by its sublists of equal keys. *)
Lemma sorted_unique (l1 l2 : list A) :
  StronglySorted (key_le key) l1 → StronglySorted (key_le key) l2 →
  (∀ k, filter (λ y, key y = k) l1 = filter (λ y, key y = k) l2) → l1 = l2.
Proof.
  intros H1. revert l2. induction H1 as [|x l1 Hl1 IH Hx]; intros l2 H2 Hf.
  { destruct l2 as [|y l2]; [done|]. specialize (Hf (key y)).
    rewrite filter_cons in Hf. by case_decide. }
  destruct H2 as [|y l2 Hl2 Hy].
  { specialize (Hf (key x)). rewrite filter_cons in Hf. by case_decide. }
  assert (key_le key y x) as Hyx.
  { assert (x ∈ y :: l2) as Hin.
    { apply (list_elem_of_filter (λ z, key z = key x)). rewrite <- Hf.
      apply list_elem_of_filter. split; [done|by left]. }
    apply elem_of_cons in Hin as [->|Hin]; [unfold key_le; lia|].
    rewrite Forall_forall in Hy. by apply Hy. }
  assert (key_le key x y) as Hxy.
  { assert (y ∈ x :: l1) as Hin.
    { apply (list_elem_of_filter (λ z, key z = key y)). rewrite Hf.
      apply list_elem_of_filter. split; [done|by left]. }
    apply elem_of_cons in Hin as [->|Hin]; [unfold key_le; lia|].
    rewrite Forall_forall in Hx. by apply Hx. }
  unfold key_le in Hyx, Hxy. pose proof (Hf (key x)) as Hk.
  rewrite !filter_cons in Hk. repeat case_decide; try lia. simplify_eq.
  f_equal. apply IH; [done|]. intros k. specialize (Hf k).
  rewrite !filter_cons in Hf. by case_decide; simplify_eq.
Qed.

(** Sorting in two steps is sorting once. *)
Lemma sort_by_key_app_l (l1 l2 : list A) :
  sort_by_key key (sort_by_key key l1 ++ l2) = sort_by_key key (l1 ++ l2).
Proof.
  apply sorted_unique; [apply sort_by_key_sorted..|]. intros k.
  by rewrite !sort_by_key_stable, !filter_app, sort_by_key_stable.
Qed.

Lemma sort_by_key_id (l : list A) :
  StronglySorted (key_le key) l → sort_by_key key l = l.
Proof.
  intros Hl. apply sorted_unique; [apply sort_by_key_sorted|done|].
  intros k. apply sort_by_key_stable.
Qed.

End SortByKeyLemmas.

(** * Lemmas on maps and their iteration *)

Lemma map_size_alter {V : Type} (f : V → V) (k : string) (m : gmap string V) : size (alter f k m) = size m.
Proof. by rewrite <- !(size_dom (D := gset string)), dom_alter_L. Qed.

Lemma lookup_alter_is_Some {V : Type} (f : V → V) (k i : string) (m : gmap string V) :
  is_Some (alter f k m !! i) ↔ is_Some (m !! i).
Proof. by rewrite <- !elem_of_dom, dom_alter_L. Qed.

Lemma lookup_alter_inv {V : Type} (f : V → V) (k i : string) (m : gmap string V) (v' : V) :
  alter f k m !! i = Some v' → ∃ v, m !! i = Some v ∧ v' = if decide (i = k) then f v else v.
Proof.
  rewrite lookup_alter. destruct (decide (k = i)) as [->|Hne].
  - rewrite fmap_Some. intros (v & ? & ->). exists v. by rewrite decide_True.
  - intros Hi. exists v'. by rewrite decide_False.
Qed.

Lemma lookup_foldl_delete {V : Type} (l : list string) (m : gmap string V) (k : string) :
  foldl (λ rs id, delete id rs) m l !! k = if decide (k ∈ l) then None else m !! k.
Proof.
  revert m. induction l as [|x l IH]; intros m; [done|].
  cbn [foldl]. rewrite IH, lookup_delete.
  destruct (decide (k ∈ x :: l)) as [Hk|Hk]; rewrite elem_of_cons in Hk;
    repeat case_decide; naive_solver.
Qed.

Lemma NoDup_fst_filter {V : Type} (P : string * V → Prop) `{!∀ x, Decision (P x)} (l : list (string * V)) :
  NoDup l.*1 → NoDup (filter P l).*1.
Proof.
  intros Hnd. induction l as [|x l IH]; [done|].
  rewrite fmap_cons, NoDup_cons in Hnd. destruct Hnd as [Hx Hl].
  rewrite filter_cons. case_decide; [|auto].
  rewrite fmap_cons. constructor; [|auto].
  intros Hin. apply Hx. apply list_elem_of_fmap in Hin as (y & Hy & [_ ?]%list_elem_of_filter).
  apply list_elem_of_fmap. eauto.
Qed.


Section HashIterLemmas.
Context {HI : HashIter}.

Lemma elem_of_hm_iter {V : Type} (m : gmap string V) (k : string) (v : V) :
  (k, v) ∈ hm_iter m ↔ m !! k = Some v.
Proof. rewrite hm_iter_perm. apply elem_of_map_to_list. Qed.

Lemma NoDup_hm_iter_keys {V : Type} (m : gmap string V) : NoDup (hm_iter m).*1.
Proof. rewrite hm_iter_perm. apply NoDup_fst_map_to_list. Qed.

End HashIterLemmas.

(** * Lists as sets *)

Lemma filter_all {A : Type} (P : A → Prop) `{!∀ x, Decision (P x)} (l : list A) :
  Forall P l → filter P l = l.
Proof. induction 1 as [|x l Hx _ IH]; [done|]. rewrite filter_cons, decide_True by done. by rewrite IH. Qed.

Lemma size_list_to_set_le (l : list string) : size (list_to_set l : gset string) ≤ length l.
Proof.
  induction l as [|x l IH]; [done|].
  cbn [list_to_set foldr]. rewrite size_union_alt, size_singleton. simpl.
  pose proof (subseteq_size (list_to_set l ∖ {[x]}) (list_to_set l : gset string)) as H.
  assert (list_to_set l ∖ {[x]} ⊆ (list_to_set l : gset string)) as Hs by set_solver.
  apply H in Hs. lia.
Qed.

Lemma NoDup_size_list_to_set (l : list string) :
  length l ≤ size (list_to_set l : gset string) → NoDup l.
Proof.
  induction l as [|x l IH]; simpl; intros H; [constructor|].
  destruct (decide (x ∈ l)) as [Hx|Hx].
  - assert ({[x]} ∪ list_to_set l = (list_to_set l : gset string)) as Heq by set_solver.
    rewrite Heq in H. pose proof (size_list_to_set_le l). lia.
  - constructor; [done|]. apply IH. rewrite size_union, size_singleton in H by set_solver. lia.
Qed.

#[export] Hint Resolve sort_by_key_sorted sort_by_key_perm : betcode.

(** * Texts for positive numbers

    For the concrete instances of printers and parsers in the witnesses. *)

Fixpoint bits_of (p : positive) : string :=
  match p with
  | xH => EmptyString
  | xO q => String (Ascii.ascii_of_nat 48) (bits_of q)
  | xI q => String (Ascii.ascii_of_nat 49) (bits_of q)
  end.

Fixpoint of_bits (s : string) : positive :=
  match s with
  | EmptyString => xH
  | String c s' => if decide (c = Ascii.ascii_of_nat 48) then xO (of_bits s') else xI (of_bits s')
  end.

Lemma of_bits_of (p : positive) : of_bits (bits_of p) = p.
Proof. induction p as [p IH|p IH|]; simpl; [by rewrite IH..|done]. Qed.
