(* ===== verification/Protocol.v ===== *)
(** What is shared by the ends of a call: the statuses with which the gRPC
    services refuse it, the codes of [tonic::Code] that the code uses with
    their message; the frames of a tunnel; the names of the methods; and the
    errors of a database. *)
From stdpp Require Import strings gmap list.
From Stdlib Require Import ZArith.
From S2P Require Import Prelude.

Inductive Code :=
| Unauthenticated
| InvalidArgument
| AlreadyExists
| PermissionDenied
| CodeNotFound
| Internal
| ResourceExhausted
| FailedPrecondition
| Unimplemented
| Unavailable
| DeadlineExceeded
| DataLoss
| Cancelled.

#[export] Instance Code_eq_dec : EqDecision Code.
Proof. solve_decision. Defined.

Record Status := mkStatus {
  code : Code;
  message : string
}.

(** The frames that the relay and the daemons exchange through a tunnel.

    The types are generated from the protocol definitions; the fields are
    those that crates/betcode-relay/src and crates/betcode-daemon/src/tunnel
    read and write. *)

(** * Frames *)

Inductive FrameType :=
| FtRequest
| FtResponse
| FtStreamData
| FtStreamEnd
| FtError
| FtControl
| FtOther (n : Z).

#[export] Instance FrameType_eq_dec : EqDecision FrameType.
Proof. solve_decision. Defined.

Record EncryptedPayload := mkEncryptedPayload {
  ep_ciphertext : list Z;
  ep_nonce : list Z;
  ep_ephemeral_pubkey : list Z
}.

Record StreamPayload := mkStreamPayload {
  sp_method : string;
  sp_encrypted : option EncryptedPayload;
  sp_sequence : Z;
  sp_metadata : gmap string string
}.

(** The codes of [TunnelErrorCode] that the code names. *)
Inductive TunnelErrorCode :=
| TunnelInternal
| TunnelNotFound
| TunnelInvalidArgument
| TunnelOther (n : Z).

Inductive Payload :=
| StreamData (p : StreamPayload)
| ErrorPayload (error_code : TunnelErrorCode) (error_message : string)
| Control (params : gmap string string).

Record TunnelFrame := mkFrame {
  request_id : string;
  frame_type : FrameType;
  timestamp : Z;
  payload : option Payload
}.

(** The methods that are called through a tunnel.

    Models crates/betcode-proto/src/methods.rs.  A constructor stands for each
    constant; [method_name] is its text.  Code that matches a text against the
    constants matches on [parse_method] of it, which is sound because the
    texts differ ([parse_method_name]). *)

Inductive Method :=
| METHOD_LIST_SESSIONS
| METHOD_COMPACT_SESSION
| METHOD_CANCEL_TURN
| METHOD_REQUEST_INPUT_LOCK
| METHOD_CONVERSE
| METHOD_RESUME_SESSION
| METHOD_EXCHANGE_KEYS
| METHOD_LIST_SESSION_GRANTS
| METHOD_CLEAR_SESSION_GRANTS
| METHOD_SET_SESSION_GRANT
| METHOD_RENAME_SESSION
| METHOD_DELETE_SESSION
| METHOD_GET_COMMAND_REGISTRY
| METHOD_LIST_AGENTS
| METHOD_LIST_PATH
| METHOD_EXECUTE_SERVICE_COMMAND
| METHOD_LIST_PLUGINS
| METHOD_GET_PLUGIN_STATUS
| METHOD_ADD_PLUGIN
| METHOD_REMOVE_PLUGIN
| METHOD_ENABLE_PLUGIN
| METHOD_DISABLE_PLUGIN
| METHOD_LIST_MERGE_REQUESTS
| METHOD_GET_MERGE_REQUEST
| METHOD_LIST_PIPELINES
| METHOD_GET_PIPELINE
| METHOD_LIST_ISSUES
| METHOD_GET_ISSUE
| METHOD_CREATE_WORKTREE
| METHOD_REMOVE_WORKTREE
| METHOD_LIST_WORKTREES
| METHOD_GET_WORKTREE
| METHOD_REGISTER_REPO
| METHOD_UNREGISTER_REPO
| METHOD_LIST_REPOS
| METHOD_GET_REPO
| METHOD_UPDATE_REPO
| METHOD_SCAN_REPOS
| METHOD_LIST_BRANCHES
| METHOD_CREATE_BRANCH
| METHOD_DELETE_BRANCH
| METHOD_GET_BRANCH
| METHOD_GET_SETTINGS
| METHOD_UPDATE_SETTINGS
| METHOD_LIST_MCP_SERVERS
| METHOD_GET_PERMISSIONS
| METHOD_GET_VERSION
| METHOD_NEGOTIATE_CAPABILITIES
| METHOD_SPAWN_SUBAGENT
| METHOD_WATCH_SUBAGENT
| METHOD_SEND_TO_SUBAGENT
| METHOD_CANCEL_SUBAGENT
| METHOD_LIST_SUBAGENTS
| METHOD_CREATE_ORCHESTRATION
| METHOD_WATCH_ORCHESTRATION
| METHOD_REVOKE_AUTO_APPROVE.

#[export] Instance Method_eq_dec : EqDecision Method.
Proof. solve_decision. Defined.

Definition method_name (m : Method) : string :=
  match m with
  | METHOD_LIST_SESSIONS => "AgentService/ListSessions"
  | METHOD_COMPACT_SESSION => "AgentService/CompactSession"
  | METHOD_CANCEL_TURN => "AgentService/CancelTurn"
  | METHOD_REQUEST_INPUT_LOCK => "AgentService/RequestInputLock"
  | METHOD_CONVERSE => "AgentService/Converse"
  | METHOD_RESUME_SESSION => "AgentService/ResumeSession"
  | METHOD_EXCHANGE_KEYS => "AgentService/ExchangeKeys"
  | METHOD_LIST_SESSION_GRANTS => "AgentService/ListSessionGrants"
  | METHOD_CLEAR_SESSION_GRANTS => "AgentService/ClearSessionGrants"
  | METHOD_SET_SESSION_GRANT => "AgentService/SetSessionGrant"
  | METHOD_RENAME_SESSION => "AgentService/RenameSession"
  | METHOD_DELETE_SESSION => "AgentService/DeleteSession"
  | METHOD_GET_COMMAND_REGISTRY => "CommandService/GetCommandRegistry"
  | METHOD_LIST_AGENTS => "CommandService/ListAgents"
  | METHOD_LIST_PATH => "CommandService/ListPath"
  | METHOD_EXECUTE_SERVICE_COMMAND => "CommandService/ExecuteServiceCommand"
  | METHOD_LIST_PLUGINS => "CommandService/ListPlugins"
  | METHOD_GET_PLUGIN_STATUS => "CommandService/GetPluginStatus"
  | METHOD_ADD_PLUGIN => "CommandService/AddPlugin"
  | METHOD_REMOVE_PLUGIN => "CommandService/RemovePlugin"
  | METHOD_ENABLE_PLUGIN => "CommandService/EnablePlugin"
  | METHOD_DISABLE_PLUGIN => "CommandService/DisablePlugin"
  | METHOD_LIST_MERGE_REQUESTS => "GitLabService/ListMergeRequests"
  | METHOD_GET_MERGE_REQUEST => "GitLabService/GetMergeRequest"
  | METHOD_LIST_PIPELINES => "GitLabService/ListPipelines"
  | METHOD_GET_PIPELINE => "GitLabService/GetPipeline"
  | METHOD_LIST_ISSUES => "GitLabService/ListIssues"
  | METHOD_GET_ISSUE => "GitLabService/GetIssue"
  | METHOD_CREATE_WORKTREE => "WorktreeService/CreateWorktree"
  | METHOD_REMOVE_WORKTREE => "WorktreeService/RemoveWorktree"
  | METHOD_LIST_WORKTREES => "WorktreeService/ListWorktrees"
  | METHOD_GET_WORKTREE => "WorktreeService/GetWorktree"
  | METHOD_REGISTER_REPO => "GitRepoService/RegisterRepo"
  | METHOD_UNREGISTER_REPO => "GitRepoService/UnregisterRepo"
  | METHOD_LIST_REPOS => "GitRepoService/ListRepos"
  | METHOD_GET_REPO => "GitRepoService/GetRepo"
  | METHOD_UPDATE_REPO => "GitRepoService/UpdateRepo"
  | METHOD_SCAN_REPOS => "GitRepoService/ScanRepos"
  | METHOD_LIST_BRANCHES => "GitRepoService/ListBranches"
  | METHOD_CREATE_BRANCH => "GitRepoService/CreateBranch"
  | METHOD_DELETE_BRANCH => "GitRepoService/DeleteBranch"
  | METHOD_GET_BRANCH => "GitRepoService/GetBranch"
  | METHOD_GET_SETTINGS => "ConfigService/GetSettings"
  | METHOD_UPDATE_SETTINGS => "ConfigService/UpdateSettings"
  | METHOD_LIST_MCP_SERVERS => "ConfigService/ListMcpServers"
  | METHOD_GET_PERMISSIONS => "ConfigService/GetPermissions"
  | METHOD_GET_VERSION => "VersionService/GetVersion"
  | METHOD_NEGOTIATE_CAPABILITIES => "VersionService/NegotiateCapabilities"
  | METHOD_SPAWN_SUBAGENT => "SubagentService/SpawnSubagent"
  | METHOD_WATCH_SUBAGENT => "SubagentService/WatchSubagent"
  | METHOD_SEND_TO_SUBAGENT => "SubagentService/SendToSubagent"
  | METHOD_CANCEL_SUBAGENT => "SubagentService/CancelSubagent"
  | METHOD_LIST_SUBAGENTS => "SubagentService/ListSubagents"
  | METHOD_CREATE_ORCHESTRATION => "SubagentService/CreateOrchestration"
  | METHOD_WATCH_ORCHESTRATION => "SubagentService/WatchOrchestration"
  | METHOD_REVOKE_AUTO_APPROVE => "SubagentService/RevokeAutoApprove"
  end.

Definition methods : list Method :=
  [METHOD_LIST_SESSIONS;
   METHOD_COMPACT_SESSION;
   METHOD_CANCEL_TURN;
   METHOD_REQUEST_INPUT_LOCK;
   METHOD_CONVERSE;
   METHOD_RESUME_SESSION;
   METHOD_EXCHANGE_KEYS;
   METHOD_LIST_SESSION_GRANTS;
   METHOD_CLEAR_SESSION_GRANTS;
   METHOD_SET_SESSION_GRANT;
   METHOD_RENAME_SESSION;
   METHOD_DELETE_SESSION;
   METHOD_GET_COMMAND_REGISTRY;
   METHOD_LIST_AGENTS;
   METHOD_LIST_PATH;
   METHOD_EXECUTE_SERVICE_COMMAND;
   METHOD_LIST_PLUGINS;
   METHOD_GET_PLUGIN_STATUS;
   METHOD_ADD_PLUGIN;
   METHOD_REMOVE_PLUGIN;
   METHOD_ENABLE_PLUGIN;
   METHOD_DISABLE_PLUGIN;
   METHOD_LIST_MERGE_REQUESTS;
   METHOD_GET_MERGE_REQUEST;
   METHOD_LIST_PIPELINES;
   METHOD_GET_PIPELINE;
   METHOD_LIST_ISSUES;
   METHOD_GET_ISSUE;
   METHOD_CREATE_WORKTREE;
   METHOD_REMOVE_WORKTREE;
   METHOD_LIST_WORKTREES;
   METHOD_GET_WORKTREE;
   METHOD_REGISTER_REPO;
   METHOD_UNREGISTER_REPO;
   METHOD_LIST_REPOS;
   METHOD_GET_REPO;
   METHOD_UPDATE_REPO;
   METHOD_SCAN_REPOS;
   METHOD_LIST_BRANCHES;
   METHOD_CREATE_BRANCH;
   METHOD_DELETE_BRANCH;
   METHOD_GET_BRANCH;
   METHOD_GET_SETTINGS;
   METHOD_UPDATE_SETTINGS;
   METHOD_LIST_MCP_SERVERS;
   METHOD_GET_PERMISSIONS;
   METHOD_GET_VERSION;
   METHOD_NEGOTIATE_CAPABILITIES;
   METHOD_SPAWN_SUBAGENT;
   METHOD_WATCH_SUBAGENT;
   METHOD_SEND_TO_SUBAGENT;
   METHOD_CANCEL_SUBAGENT;
   METHOD_LIST_SUBAGENTS;
   METHOD_CREATE_ORCHESTRATION;
   METHOD_WATCH_ORCHESTRATION;
   METHOD_REVOKE_AUTO_APPROVE].

Definition parse_method (text : string) : option Method :=
  snd <$> list_find (λ m, method_name m = text) methods.

(** The texts are distinct, so a match on them is a match on the methods. *)
Lemma parse_method_name (m : Method) : parse_method (method_name m) = Some m.
Proof. by destruct m; vm_compute. Qed.

Lemma parse_method_Some (text : string) (m : Method) : parse_method text = Some m → method_name m = text.
Proof.
  unfold parse_method. intros H. destruct (list_find _ methods) as [[i m']|] eqn:E; [|done].
  apply list_find_Some in E as (_ & E & _). simpl in H. by injection H as <-.
Qed.

(** Database errors, shared by the relay's and the daemon's storage.

    Models DatabaseError of crates/betcode-core/src/db.rs.  Of the errors of
    the SQL library the model has those that a statement raises by violating
    the schema; their text is the library's. *)

Inductive SqlFailure :=
| UniqueViolation (column : string)
| ForeignKeyViolation
| CheckViolation (column : string).

Inductive DatabaseError :=
| Io (message : string)
| Connection (message : string)
| Migration (message : string)
| Query (failure : SqlFailure)
| NotFound (what : string).

Class SqlText := {
  sql_failure_text : SqlFailure → string
}.

(** [DatabaseError::to_string] *)
Definition database_error_text {ST : SqlText} (e : DatabaseError) : string :=
  match e with
  | Io m => "I/O error: " +:+ m
  | Connection m => "Connection error: " +:+ m
  | Migration m => "Migration error: " +:+ m
  | Query f => "Query error: " +:+ sql_failure_text f
  | NotFound what => "Not found: " +:+ what
  end.
