(* ===== verification/Permissions.v ===== *)
(** Permission rules: the tool-permission engine of the core crate.

    Models crates/betcode-core/src/permissions.rs: rules, their glob
    matching on tool names and paths, the engine that keeps its rules sorted
    by priority and answers with the first match.  A [Path] is its UTF-8
    string, with Unix separators; [path_parent] is [std::path::Path::parent]. *)
From Stdlib Require Import Ascii.
From stdpp Require Import strings list sorting.
From Stdlib Require Import ZArith Lia.
From S2P Require Import Prelude.

(** * Data *)

Inductive PermissionAction :=
| Allow
| Deny
| Ask
| AskSession.

Inductive RuleSource := Builtin | Global | Project | Session.

#[export] Instance PermissionAction_eq_dec : EqDecision PermissionAction.
Proof. solve_decision. Defined.

#[export] Instance RuleSource_eq_dec : EqDecision RuleSource.
Proof. solve_decision. Defined.

Record PermissionRule := mkRule {
  rule_id : string;
  tool_pattern : string;
  path_pattern : option string;
  action : PermissionAction;
  priority : Z;
  description : option string;
  source : RuleSource
}.

Record PermissionEngine := mkEngine { rules : list PermissionRule }.

Record PermissionDecision := mkDecision {
  decision_action : PermissionAction;
  decision_rule_id : option string;
  reason : option string
}.

(** [PermissionDecision::default()]: the derived default of every field. *)
Definition default_decision : PermissionDecision := mkDecision Ask None None.

(** * Paths *)

(** Path components that [Components] skips: empty ones and [.]. *)
Definition skipped_component (c : string) : bool :=
  bool_decide (c = "") || bool_decide (c = ".").

Fixpoint trim_skipped (l : list string) : list string :=
  match l with
  | [] => []
  | c :: l' => if skipped_component c then trim_skipped l' else l
  end.

(** [Path::parent]: the path without its last component.  [before] is the
    part of the path that precedes the body (the root, or a leading [.]);
    the components of the body are read from the right. *)
Definition path_parent (p : string) : option string :=
  let has_root := starts_with "/" p in
  let has_cur := negb has_root && (bool_decide (p = ".") || starts_with "./" p) in
  let before := if has_root then "/" else if has_cur then "." else "" in
  let segs := split_on "/"%char (str_drop (String.length before) p) in
  match trim_skipped (rev segs) with
  | _ :: rest => Some (before +:+ join "/" (rev (trim_skipped rest)))
  | [] => if has_cur then Some "" else None
  end.

(** * Matching *)

Definition matches_tool (pattern tool_name : string) : bool :=
  if bool_decide (pattern = "*") then true
  else match strip_suffix "*" pattern with
       | Some prefix => starts_with prefix tool_name
       | None => bool_decide (pattern = tool_name)
       end.

Definition matches_path (pattern path_str : string) : bool :=
  if bool_decide (pattern = "*") || bool_decide (pattern = "**") then true
  else match strip_suffix "/**" pattern with
       | Some prefix => starts_with prefix path_str
       | None =>
           match strip_suffix "/*" pattern, path_parent path_str with
           | Some prefix, Some parent => bool_decide (parent = prefix)
           | _, _ => bool_decide (path_str = pattern)
           end
       end.

(** * The engine *)

Definition builtin_rule (id tool desc : string) (a : PermissionAction) (prio : Z) : PermissionRule :=
  mkRule id tool None a prio (Some desc) Builtin.

Definition default_rules : list PermissionRule :=
  [ builtin_rule "builtin-read-allow" "Read" "Allow reading files" Allow 100;
    builtin_rule "builtin-glob-allow" "Glob" "Allow file globbing" Allow 100;
    builtin_rule "builtin-grep-allow" "Grep" "Allow grep search" Allow 100;
    builtin_rule "builtin-bash-ask" "Bash" "Ask for bash commands" Ask 200;
    builtin_rule "builtin-write-ask" "Write" "Ask for file writes" Ask 200;
    builtin_rule "builtin-edit-ask" "Edit" "Ask for file edits" Ask 200 ].

Definition engine_new : PermissionEngine := mkEngine default_rules.

Definition with_rules (rs : list PermissionRule) : PermissionEngine :=
  mkEngine (sort_by_key priority rs).

Definition add_rules (e : PermissionEngine) (rs : list PermissionRule) : PermissionEngine :=
  mkEngine (sort_by_key priority (rules e ++ rs)).

(** The loop of [evaluate]: the rule's tool pattern must match, and its path
    pattern, if it has one, needs a path that matches. *)
Fixpoint evaluate_rules (rs : list PermissionRule) (tool_name : string) (path : option string)
  : PermissionDecision :=
  match rs with
  | [] => default_decision
  | rule :: rs' =>
      if matches_tool (tool_pattern rule) tool_name then
        match path_pattern rule, path with
        | Some pp, Some p =>
            if negb (matches_path pp p) then evaluate_rules rs' tool_name path
            else mkDecision (action rule) (Some (rule_id rule)) (description rule)
        | Some _, None => evaluate_rules rs' tool_name path
        | None, _ => mkDecision (action rule) (Some (rule_id rule)) (description rule)
        end
      else evaluate_rules rs' tool_name path
  end.

Definition evaluate (e : PermissionEngine) (tool_name : string) (path : option string)
  : PermissionDecision :=
  evaluate_rules (rules e) tool_name path.

(** * Specification

    Whether a rule applies to a request, and the rule that decides it: of
    the applicable rules, one with the least priority number; among those,
    the one given first. *)

Definition applies (tool_name : string) (path : option string) (r : PermissionRule) : bool :=
  matches_tool (tool_pattern r) tool_name &&
  match path_pattern r, path with
  | None, _ => true
  | Some pp, Some p => matches_path pp p
  | Some _, None => false
  end.

Definition decides (rs : list PermissionRule) (tool_name : string) (path : option string)
    (r : PermissionRule) : Prop :=
  ∃ before after,
    rs = before ++ r :: after ∧
    applies tool_name path r = true ∧
    (∀ q, q ∈ before → applies tool_name path q = true → (priority r < priority q)%Z) ∧
    (∀ q, q ∈ after → applies tool_name path q = true → (priority r ≤ priority q)%Z).

Definition engine_sorted (e : PermissionEngine) : Prop :=
  StronglySorted (key_le priority) (rules e).

(** * Lemmas *)

Definition decision_of (r : PermissionRule) : PermissionDecision :=
  mkDecision (action r) (Some (rule_id r)) (description r).

Lemma evaluate_rules_cons (r : PermissionRule) (rs : list PermissionRule) (t : string) (p : option string) :
  evaluate_rules (r :: rs) t p = if applies t p r then decision_of r else evaluate_rules rs t p.
Proof.
  unfold applies. simpl. destruct (matches_tool (tool_pattern r) t); [|done].
  destruct (path_pattern r) as [pp|]; [|done]. destruct p as [q|]; [|done].
  simpl. by destruct (matches_path pp q).
Qed.

(** The loop answers with the first applicable rule. *)
Lemma evaluate_rules_first (rs : list PermissionRule) (t : string) (p : option string) :
  evaluate_rules rs t p =
  match filter (λ r, applies t p r = true) rs with
  | [] => default_decision
  | r :: _ => decision_of r
  end.
Proof.
  induction rs as [|r rs IH]; [done|].
  rewrite evaluate_rules_cons, filter_cons. case_decide as H.
  - by rewrite H.
  - by apply not_true_is_false in H as ->.
Qed.

Lemma decides_filter (rs : list PermissionRule) (t : string) (p : option string) (r : PermissionRule) :
  decides rs t p r →
  ∃ rest, sort_by_key priority (filter (λ r, applies t p r = true) rs) = r :: rest.
Proof.
  intros (b & a & -> & Hr & Hb & Ha).
  rewrite filter_app, filter_cons, decide_True by done.
  apply sort_by_key_min; apply Forall_forall; unfold key_le;
    intros q [Hq ?]%list_elem_of_filter; auto.
Qed.

(** Either some rule decides a request or none applies to it. *)
Lemma decides_or_none (rs : list PermissionRule) (t : string) (p : option string) :
  (∃ q, decides rs t p q) ∨ (∀ q, q ∈ rs → applies t p q = false).
Proof.
  induction rs as [|x rs IH]; [right; intros q Hq; by apply elem_of_nil in Hq|].
  destruct (applies t p x) eqn:Hx.
  - left. destruct IH as [(q & b & a & -> & Hq & Hb & Ha)|Hno].
    + destruct (decide (priority q < priority x)%Z) as [Hlt|Hge].
      * exists q, (x :: b), a. split_and!; [done..| |done].
        intros r [->|Hr]%elem_of_cons ?; auto.
      * exists x, [], (b ++ q :: a). split_and!; [done..|by intros r ?%elem_of_nil|].
        intros r [Hr|[->|Hr]%elem_of_cons]%elem_of_app Hap; [specialize (Hb r Hr Hap)| |
          specialize (Ha r Hr Hap)]; lia.
    + exists x, [], rs. split_and!; [done..|by intros r ?%elem_of_nil|].
      intros r Hr Hap. by rewrite Hno in Hap.
  - destruct IH as [(q & b & a & -> & Hq & Hb & Ha)|Hno].
    + left. exists q, (x :: b), a. split_and!; [done..| |done].
      intros r [->|Hr]%elem_of_cons ?; [congruence|auto].
    + right. intros q [->|Hq]%elem_of_cons; auto.
Qed.

Lemma evaluate_sorted (rs : list PermissionRule) (t : string) (p : option string) (e : PermissionEngine) :
  rules e = sort_by_key priority rs →
  evaluate e t p =
  match sort_by_key priority (filter (λ r, applies t p r = true) rs) with
  | [] => default_decision
  | r :: _ => decision_of r
  end.
Proof. intros He. unfold evaluate. by rewrite evaluate_rules_first, He, filter_sort_by_key. Qed.

Lemma no_rule_applies (rs : list PermissionRule) (t : string) (p : option string) :
  (∀ q, q ∈ rs → applies t p q = false) → filter (λ r, applies t p r = true) rs = [].
Proof.
  intros H. induction rs as [|x rs IH]; [done|]. rewrite filter_cons.
  rewrite decide_False by (rewrite H; [done|by left]). apply IH. intros q Hq. apply H. by right.
Qed.

(** * Theorems *)

(** C39: The engine built from a rule list answers with the rule of least
    priority number among those that apply, the earliest on a tie, and asks
    when none applies: the sorted first-match scan implements [decides]. *)
Theorem evaluate_refines_decides (rs : list PermissionRule) (t : string) (p : option string) :
  (∃ r, decides rs t p r ∧ evaluate (with_rules rs) t p = decision_of r) ∨
  ((∀ r, r ∈ rs → applies t p r = false) ∧ evaluate (with_rules rs) t p = default_decision).
Proof.
  destruct (decides_or_none rs t p) as [[r Hr]|Hno].
  - left. exists r. split; [done|].
    rewrite (evaluate_sorted rs) by done. by destruct (decides_filter _ _ _ _ Hr) as [rest ->].
  - right. split; [done|]. rewrite (evaluate_sorted rs) by done. by rewrite no_rule_applies.
Qed.

(** Adding rule lists one after the other is the same engine as building it
    from all of them at once, in the order they were added: rules added later
    lose ties against the rules already there. *)
Theorem add_rules_batch (rs rs' : list PermissionRule) :
  add_rules (with_rules rs) rs' = with_rules (rs ++ rs').
Proof. unfold add_rules, with_rules. simpl. by rewrite sort_by_key_app_l. Qed.

(** Every way of building an engine keeps its rules sorted by priority. *)
Theorem engine_sorted_invariant (e : PermissionEngine) (rs : list PermissionRule) :
  engine_sorted engine_new ∧ engine_sorted (with_rules rs) ∧ engine_sorted (add_rules e rs).
Proof.
  split_and!; [|apply sort_by_key_sorted..].
  unfold engine_sorted, engine_new, key_le. simpl.
  repeat first [progress simpl; lia | constructor].
Qed.

(** A pattern ending in [/**] is matched by a bare string prefix, so it also
    covers sibling paths that only share the directory's name as a prefix. *)
Theorem double_star_covers_siblings :
  matches_path "/home/me/**" "/home/me/notes.txt" = true ∧
  matches_path "/home/me/**" "/home/meredith/secret" = true.
Proof. split; reflexivity. Qed.
