(* ===== verification/Pending.v ===== *)
(** Permission requests that await an answer.

    Models crates/betcode-daemon/src/permission/pending.rs.  An [Instant] and
    a [Duration] are integers (nanoseconds).  Every reading of the clock is an
    argument; the loops that read it once per request take a clock indexed by
    the request's key. *)
From stdpp Require Import gmap strings list fin_maps.
From Stdlib Require Import ZArith Lia.
From S2P Require Import Prelude.

Definition secs (n : Z) : Z := (n * 1000000000)%Z.

Record PendingConfig := mkPendingConfig {
  connected_timeout : Z;
  disconnected_timeout : Z;
  cleanup_interval : Z
}.

Definition default_pending_config : PendingConfig :=
  mkPendingConfig (secs 60) (secs (7 * 24 * 60 * 60)) (secs 60).

Record PendingRequest := mkPendingRequest {
  request_id : string;
  session_id : string;
  tool_name : string;
  description : string;
  input_json : string;
  target_client : option string;
  created_at : Z;
  expires_at : Z;
  client_connected : bool
}.

Record PendingRequestParams := mkPendingRequestParams {
  p_request_id : string;
  p_session_id : string;
  p_tool_name : string;
  p_description : string;
  p_input_json : string;
  p_target_client : option string;
  p_client_connected : bool
}.

Record PendingManager := mkPendingManager {
  requests : gmap string PendingRequest;
  config : PendingConfig
}.

Definition set_requests (m : PendingManager) (rs : gmap string PendingRequest) : PendingManager :=
  mkPendingManager rs (config m).

Definition timeout_for (connected : bool) (c : PendingConfig) : Z :=
  if connected then connected_timeout c else disconnected_timeout c.

(** * Operations *)

Definition is_expired (now : Z) (r : PendingRequest) : bool := (expires_at r <? now)%Z.

Definition refresh_expiry (now : Z) (connected : bool) (c : PendingConfig) (r : PendingRequest)
  : PendingRequest :=
  mkPendingRequest (request_id r) (session_id r) (tool_name r) (description r) (input_json r)
    (target_client r) (created_at r) (now + timeout_for connected c)%Z connected.

Definition new (c : PendingConfig) : PendingManager := mkPendingManager ∅ c.

Definition with_defaults : PendingManager := new default_pending_config.

Definition add (r : PendingRequest) (m : PendingManager) : PendingManager :=
  set_requests m (<[request_id r := r]> (requests m)).

(** [create] reads the clock twice: for [created_at] and for [expires_at]. *)
Definition create (now1 now2 : Z) (p : PendingRequestParams) (m : PendingManager)
  : PendingManager * PendingRequest :=
  let timeout := timeout_for (p_client_connected p) (config m) in
  let r := mkPendingRequest (p_request_id p) (p_session_id p) (p_tool_name p) (p_description p)
             (p_input_json p) (p_target_client p) now1 (now2 + timeout)%Z (p_client_connected p) in
  (add r m, r).

Definition get (id : string) (m : PendingManager) : option PendingRequest := requests m !! id.

Definition take (id : string) (m : PendingManager) : PendingManager * option PendingRequest :=
  (set_requests m (delete id (requests m)), requests m !! id).

Definition contains (id : string) (m : PendingManager) : bool :=
  bool_decide (is_Some (requests m !! id)).

Definition update_client_status (clock : string → Z) (client_id : string) (connected : bool)
    (m : PendingManager) : PendingManager :=
  set_requests m
    (map_imap (λ id r, Some (if decide (target_client r = Some client_id)
                             then refresh_expiry (clock id) connected (config m) r
                             else r)) (requests m)).

Definition count (m : PendingManager) : nat := size (requests m).

Section Iteration.
Context {HI : HashIter}.

Definition get_for_session (sid : string) (m : PendingManager) : list PendingRequest :=
  filter (λ r, session_id r = sid) (hm_iter (requests m)).*2.

Definition expired_ids (clock : string → Z) (m : PendingManager) : list string :=
  (filter (λ kr, is_expired (clock kr.1) kr.2 = true) (hm_iter (requests m))).*1.

Definition cleanup_expired (clock : string → Z) (m : PendingManager)
  : PendingManager * list string :=
  let expired := expired_ids clock m in
  (set_requests m (foldl (λ rs id, delete id rs) (requests m) expired), expired).

End Iteration.

(** * Invariant: a request is stored under its own identifier *)

Definition wf (m : PendingManager) : Prop := ∀ id r, requests m !! id = Some r → request_id r = id.

(** * Lemmas *)

Lemma new_wf (c : PendingConfig) : wf (new c).
Proof. intros id r H. simpl in H. by rewrite lookup_empty in H. Qed.

Lemma add_wf (r : PendingRequest) (m : PendingManager) : wf m → wf (add r m).
Proof.
  intros Hm id q. unfold add. simpl. rewrite lookup_insert. case_decide; naive_solver.
Qed.

Lemma take_wf (id : string) (m : PendingManager) : wf m → wf (take id m).1.
Proof. intros Hm k q. simpl. rewrite lookup_delete. case_decide; naive_solver. Qed.

Lemma lookup_update_client_status clock client connected m id :
  requests (update_client_status clock client connected m) !! id =
  (λ r, if decide (target_client r = Some client)
        then refresh_expiry (clock id) connected (config m) r else r) <$> requests m !! id.
Proof. unfold update_client_status. simpl. rewrite map_lookup_imap. by destruct (requests m !! id). Qed.

Lemma update_client_status_wf clock client connected m :
  wf m → wf (update_client_status clock client connected m).
Proof.
  intros Hm id q. rewrite lookup_update_client_status, fmap_Some.
  intros (r & Hr & ->). case_decide; simpl; eauto.
Qed.

Section IterationLemmas.
Context {HI : HashIter}.

Lemma elem_of_expired_ids clock m id :
  id ∈ expired_ids clock m ↔ ∃ r, requests m !! id = Some r ∧ is_expired (clock id) r = true.
Proof.
  unfold expired_ids. rewrite list_elem_of_fmap. split.
  - intros ([k r] & -> & [He Hin]%list_elem_of_filter). rewrite elem_of_hm_iter in Hin. eauto.
  - intros (r & Hr & He). exists (id, r). split; [done|].
    apply list_elem_of_filter. by rewrite elem_of_hm_iter.
Qed.

Lemma lookup_cleanup_expired clock m id :
  requests (cleanup_expired clock m).1 !! id =
  match requests m !! id with
  | Some r => if is_expired (clock id) r then None else Some r
  | None => None
  end.
Proof.
  unfold cleanup_expired. simpl. rewrite lookup_foldl_delete.
  case_decide as H; rewrite elem_of_expired_ids in H.
  - destruct H as (r & -> & ->). done.
  - destruct (requests m !! id) as [r|]; [|done].
    destruct (is_expired (clock id) r) eqn:E; [|done]. destruct H. eauto.
Qed.

Lemma cleanup_expired_wf clock m : wf m → wf (cleanup_expired clock m).1.
Proof.
  intros Hm id q. rewrite lookup_cleanup_expired. repeat case_match; naive_solver.
Qed.

End IterationLemmas.

#[export] Hint Resolve new_wf add_wf take_wf update_client_status_wf cleanup_expired_wf : betcode.

(** * Theorems *)

(** Cleaning up removes exactly the requests whose expiry lies strictly
    before the clock, reports each of them once, and leaves the others
    untouched, whatever order the map is iterated in. *)
Theorem cleanup_expired_exact {HI : HashIter} (clock : string → Z) (m : PendingManager) :
  let '(m', removed) := cleanup_expired clock m in
  NoDup removed ∧
  (∀ id, id ∈ removed ↔ ∃ r, requests m !! id = Some r ∧ (expires_at r < clock id)%Z) ∧
  (∀ id r, requests m' !! id = Some r ↔ requests m !! id = Some r ∧ (clock id ≤ expires_at r)%Z) ∧
  config m' = config m.
Proof.
  destruct (cleanup_expired clock m) as [m' removed] eqn:E.
  assert (m' = (cleanup_expired clock m).1) as -> by by rewrite E.
  assert (removed = expired_ids clock m) as -> by by injection E.
  split_and!; [| | |done].
  - unfold expired_ids. apply NoDup_fst_filter, NoDup_hm_iter_keys.
  - intros id. rewrite elem_of_expired_ids. unfold is_expired. by setoid_rewrite Z.ltb_lt.
  - intros id r. rewrite lookup_cleanup_expired. unfold is_expired.
    destruct (requests m !! id) as [q|]; [|naive_solver].
    destruct (Z.ltb_spec (expires_at q) (clock id)); naive_solver lia.
Qed.

(** A request is kept for its tier's timeout: created with a connected
    client, or refreshed when its client's status changes, it is not expired
    at any time up to the clock reading plus the timeout of that tier, and
    is expired at every later time. *)
Theorem tiered_expiry (now1 now2 t : Z) (p : PendingRequestParams) (m : PendingManager)
    (clock : string → Z) (client : string) (connected : bool) (id : string) :
  (let r := (create now1 now2 p m).2 in
   is_expired t r = false ↔ (t ≤ now2 + timeout_for (p_client_connected p) (config m))%Z) ∧
  (∀ r, requests m !! id = Some r → target_client r = Some client →
     ∃ r', requests (update_client_status clock client connected m) !! id = Some r' ∧
       client_connected r' = connected ∧
       (is_expired t r' = false ↔ (t ≤ clock id + timeout_for connected (config m))%Z)) ∧
  (∀ r, requests m !! id = Some r → target_client r ≠ Some client →
     requests (update_client_status clock client connected m) !! id = Some r).
Proof.
  unfold is_expired. split_and!.
  - simpl. by rewrite Z.ltb_ge.
  - intros r Hr Ht. rewrite lookup_update_client_status, Hr. simpl.
    rewrite decide_True by done. eexists. split_and!; [done..|]. simpl. by rewrite Z.ltb_ge.
  - intros r Hr Ht. rewrite lookup_update_client_status, Hr. simpl. by rewrite decide_False.
Qed.

(** * Witnesses *)

(** One request that expires at 60 s and one that stays for a week. *)
Definition demo_pending : PendingManager :=
  let add_one (id client : string) (connected : bool) (m : PendingManager) :=
    (create 0 0 (mkPendingRequestParams id "s" "Bash" "" "{}" (Some client) connected) m).1 in
  add_one "q2" "c2" false (add_one "q1" "c1" true (new default_pending_config)).

Lemma cleanup_expired_exact_witness :
  (cleanup_expired (λ _, secs 61) demo_pending).2 = ["q1"] ∧
  ∀ id r, requests (cleanup_expired (λ _, secs 61) demo_pending).1 !! id = Some r ↔
          requests demo_pending !! id = Some r ∧ (secs 61 ≤ expires_at r)%Z.
Proof.
  pose proof (cleanup_expired_exact (λ _, secs 61) demo_pending) as H.
  destruct (cleanup_expired (λ _, secs 61) demo_pending) as [m' removed] eqn:E.
  destruct H as (_ & _ & H & _). split; [|exact H].
  transitivity (cleanup_expired (λ _, secs 61) demo_pending).2; [by rewrite E|reflexivity].
Defined.

Lemma tiered_expiry_witness :
  ∃ r', requests (update_client_status (λ _, secs 30) "c1" false demo_pending) !! "q1" = Some r' ∧
        client_connected r' = false ∧
        (is_expired (secs 100) r' = false ↔ (secs 100 ≤ secs 30 + timeout_for false default_pending_config)%Z).
Proof.
  destruct (tiered_expiry 0 0 (secs 100) (mkPendingRequestParams "q3" "s" "Bash" "" "{}" None true) demo_pending
              (λ _, secs 30) "c1" false "q1") as (_ & H & _).
  apply (H (default (mkPendingRequest "" "" "" "" "" None 0 0 true) (requests demo_pending !! "q1"))); reflexivity.
Defined.
