(* ===== verification/DaemonPermissions.v ===== *)
(** The daemon's permission engine.

    Models crates/betcode-daemon/src/permission/engine.rs and types.rs, and
    the grant table of crates/betcode-daemon/src/storage/queries.rs.  A
    request is answered from the session's remembered grants, then from the
    database, then from the rules; an undecided one becomes a pending request.

    The engine's locks are each held for one access, so an operation is a
    function on the whole state.  Clock readings and database faults are
    arguments: a fault makes the statement return its error and change
    nothing. *)
From stdpp Require Import gmap strings list fin_maps.
From Stdlib Require Import ZArith Lia.
From S2P Require Import Prelude Permissions Pending.

(** * Data *)

Record PermissionResponse := mkResponse {
  resp_request_id : string;
  resp_granted : bool;
  remember_session : bool;
  remember_permanent : bool
}.

Record SessionGrant := mkSessionGrant {
  sg_tool_name : string;
  sg_path_pattern : option string;
  sg_granted : bool
}.

Inductive PermissionEvaluation :=
| Allowed (cached : bool)
| Denied (cached : bool)
| PendingEval (request : PendingRequest).

Record ProcessedResponse := mkProcessed {
  pr_request : PendingRequest;
  pr_granted : bool
}.

Inductive PermissionError :=
| RequestNotFound (id : string)
| DatabaseFault (msg : string).

Record PermissionEvalRequest := mkEvalRequest {
  er_session_id : string;
  er_request_id : string;
  er_tool_name : string;
  er_description : string;
  er_input_json : string;
  er_path : option string;
  er_target_client : option string;
  er_client_connected : bool
}.

(** A row of the table [permission_grants] and the table with its
    [AUTOINCREMENT] counter. *)
Record PermissionGrant := mkGrant {
  g_id : Z;
  g_session_id : string;
  g_tool_name : string;
  g_pattern : option string;
  g_action : string;
  g_created_at : Z
}.

Record GrantTable := mkGrantTable {
  next_rowid : Z;
  grant_rows : list PermissionGrant
}.

Record DaemonPermissionEngine := mkDaemonEngine {
  rule_engine : PermissionEngine;
  pending : PendingManager;
  session_grants : gmap string (list SessionGrant);
  db : option GrantTable
}.

Definition set_pending (e : DaemonPermissionEngine) (p : PendingManager) : DaemonPermissionEngine :=
  mkDaemonEngine (rule_engine e) p (session_grants e) (db e).

Definition set_grants (e : DaemonPermissionEngine) (g : gmap string (list SessionGrant))
  : DaemonPermissionEngine :=
  mkDaemonEngine (rule_engine e) (pending e) g (db e).

Definition set_db (e : DaemonPermissionEngine) (d : option GrantTable) : DaemonPermissionEngine :=
  mkDaemonEngine (rule_engine e) (pending e) (session_grants e) d.

(** * Database *)

Definition insert_permission_grant (fault : option string) (now : Z)
    (sid tool : string) (pattern : option string) (act : string) (t : GrantTable)
  : GrantTable * result string Z :=
  match fault with
  | Some e => (t, Err e)
  | None =>
      (mkGrantTable (next_rowid t + 1)
         (grant_rows t ++ [mkGrant (next_rowid t) sid tool pattern act now]),
       Ok (next_rowid t))
  end.

Definition newest_first (g h : PermissionGrant) : bool := (g_created_at h <=? g_created_at g)%Z.

Section Engine.
Context {HI : HashIter} {SO : SqlOrder}.

(** SELECT ... WHERE session_id = ? AND tool_name = ? ORDER BY created_at DESC LIMIT 1 *)
Definition get_permission_grant (fault : option string) (sid tool : string) (t : GrantTable)
  : result string (option PermissionGrant) :=
  match fault with
  | Some e => Err e
  | None => Ok (head (order_by newest_first
                  (filter (λ g, g_session_id g = sid ∧ g_tool_name g = tool) (grant_rows t))))
  end.

(** * Operations *)

Definition engine_with (r : PermissionEngine) (c : PendingConfig) (d : option GrantTable)
  : DaemonPermissionEngine :=
  mkDaemonEngine r (Pending.new c) ∅ d.

Definition grant_matches (tool : string) (path : option string) (g : SessionGrant) : bool :=
  bool_decide (sg_tool_name g = tool) &&
  match sg_path_pattern g with
  | Some pattern => match path with Some p => starts_with pattern p | None => false end
  | None => true
  end.

(** The loop over the session's grants, newest first. *)
Fixpoint first_grant (tool : string) (path : option string) (gs : list SessionGrant) : option bool :=
  match gs with
  | [] => None
  | g :: gs' => if grant_matches tool path g then Some (sg_granted g) else first_grant tool path gs'
  end.

Definition check_session_grant (sid tool : string) (path : option string)
    (e : DaemonPermissionEngine) : option bool :=
  match session_grants e !! sid with
  | None => None
  | Some gs => first_grant tool path (rev gs)
  end.

Definition add_session_grant (sid tool : string) (pattern : option string) (granted : bool)
    (e : DaemonPermissionEngine) : DaemonPermissionEngine :=
  set_grants e (<[sid := default [] (session_grants e !! sid) ++ [mkSessionGrant tool pattern granted]]>
                  (session_grants e)).

Definition clear_session_grants (sid : string) (e : DaemonPermissionEngine) : DaemonPermissionEngine :=
  set_grants e (delete sid (session_grants e)).

Definition cached_answer (granted : bool) : PermissionEvaluation :=
  if granted then Allowed true else Denied true.

(** The grant found in the database: none without a database, on a fault, or
    when no row matches. *)
Definition db_grant (fault : option string) (sid tool : string) (e : DaemonPermissionEngine)
  : option bool :=
  match db e with
  | Some t =>
      match get_permission_grant fault sid tool t with
      | Ok (Some g) => Some (bool_decide (g_action g = "allow"))
      | _ => None
      end
  | None => None
  end.

Definition evaluate (now1 now2 : Z) (fault : option string) (req : PermissionEvalRequest)
    (e : DaemonPermissionEngine) : DaemonPermissionEngine * PermissionEvaluation :=
  match check_session_grant (er_session_id req) (er_tool_name req) (er_path req) e with
  | Some granted => (e, cached_answer granted)
  | None =>
      match db_grant fault (er_session_id req) (er_tool_name req) e with
      | Some granted => (e, cached_answer granted)
      | None =>
          match decision_action (Permissions.evaluate (rule_engine e) (er_tool_name req) (er_path req)) with
          | Allow => (e, Allowed false)
          | Deny => (e, Denied false)
          | Ask | AskSession =>
              let '(p, r) := Pending.create now1 now2
                (mkPendingRequestParams (er_request_id req) (er_session_id req) (er_tool_name req)
                   (er_description req) (er_input_json req) (er_target_client req)
                   (er_client_connected req)) (pending e) in
              (set_pending e p, PendingEval r)
          end
      end
  end.

Definition process_response (now : Z) (fault : option string) (r : PermissionResponse)
    (e : DaemonPermissionEngine) : DaemonPermissionEngine * result PermissionError ProcessedResponse :=
  let '(p, taken) := Pending.take (resp_request_id r) (pending e) in
  match taken with
  | None => (set_pending e p, Err (RequestNotFound (resp_request_id r)))
  | Some req =>
      let e1 := set_pending e p in
      let e2 := if remember_session r
                then add_session_grant (session_id req) (tool_name req) None (resp_granted r) e1
                else e1 in
      let e3 := if remember_permanent r
                then match db e2 with
                     | Some t =>
                         set_db e2 (Some (insert_permission_grant fault now (session_id req)
                           (tool_name req) None (if resp_granted r then "allow" else "deny") t).1)
                     | None => e2
                     end
                else e2 in
      (e3, Ok (mkProcessed req (resp_granted r)))
  end.

Definition get_pending (id : string) (e : DaemonPermissionEngine) : option PendingRequest :=
  Pending.get id (pending e).

Definition get_pending_for_session (sid : string) (e : DaemonPermissionEngine) : list PendingRequest :=
  Pending.get_for_session sid (pending e).

Definition update_client_status (clock : string → Z) (client : string) (connected : bool)
    (e : DaemonPermissionEngine) : DaemonPermissionEngine :=
  set_pending e (Pending.update_client_status clock client connected (pending e)).

Definition cleanup_expired (clock : string → Z) (e : DaemonPermissionEngine)
  : DaemonPermissionEngine * list string :=
  let '(p, ids) := Pending.cleanup_expired clock (pending e) in (set_pending e p, ids).

End Engine.

(** * Traces of operations *)

Inductive Op :=
| OpEvaluate (now1 now2 : Z) (fault : option string) (req : PermissionEvalRequest)
| OpRespond (now : Z) (fault : option string) (r : PermissionResponse)
| OpAddGrant (sid tool : string) (pattern : option string) (granted : bool)
| OpClear (sid : string)
| OpClientStatus (clock : string → Z) (client : string) (connected : bool)
| OpCleanup (clock : string → Z).

Inductive Out :=
| OutEval (ev : PermissionEvaluation)
| OutResp (id : string) (r : result PermissionError ProcessedResponse)
| OutIds (ids : list string)
| OutNone.

Section Traces.
Context {HI : HashIter} {SO : SqlOrder}.

Definition step (op : Op) (e : DaemonPermissionEngine) : DaemonPermissionEngine * Out :=
  match op with
  | OpEvaluate n1 n2 f req => let '(e', ev) := evaluate n1 n2 f req e in (e', OutEval ev)
  | OpRespond n f r =>
      let '(e', res) := process_response n f r e in (e', OutResp (resp_request_id r) res)
  | OpAddGrant s t p g => (add_session_grant s t p g e, OutNone)
  | OpClear s => (clear_session_grants s e, OutNone)
  | OpClientStatus clock c b => (update_client_status clock c b e, OutNone)
  | OpCleanup clock => let '(e', ids) := cleanup_expired clock e in (e', OutIds ids)
  end.

Fixpoint run (ops : list Op) (e : DaemonPermissionEngine) : DaemonPermissionEngine * list Out :=
  match ops with
  | [] => (e, [])
  | op :: ops' =>
      let '(e1, o) := step op e in
      let '(e2, os) := run ops' e1 in
      (e2, o :: os)
  end.

End Traces.

(** How often an identifier became pending, and how often an answer to it
    was accepted. *)
Definition asked (id : string) (o : Out) : nat :=
  match o with
  | OutEval (PendingEval r) => if decide (request_id r = id) then 1 else 0
  | _ => 0
  end.

Definition answered (id : string) (o : Out) : nat :=
  match o with
  | OutResp i (Ok _) => if decide (i = id) then 1 else 0
  | _ => 0
  end.

Definition waiting (id : string) (e : DaemonPermissionEngine) : nat :=
  if decide (is_Some (requests (pending e) !! id)) then 1 else 0.

(** The session whose grants an operation may change. *)
Definition session_of (op : Op) (e : DaemonPermissionEngine) : option string :=
  match op with
  | OpRespond _ _ r => session_id <$> requests (pending e) !! resp_request_id r
  | OpAddGrant s _ _ _ => Some s
  | OpClear s => Some s
  | _ => None
  end.

(** Whether an operation may change what session [s] remembers of tool [t]. *)
Definition touches (s t : string) (op : Op) (e : DaemonPermissionEngine) : Prop :=
  match op with
  | OpRespond _ _ r =>
      remember_session r = true ∧
      ∃ q, requests (pending e) !! resp_request_id r = Some q ∧ session_id q = s ∧ tool_name q = t
  | OpAddGrant s' t' _ _ => s' = s ∧ t' = t
  | OpClear s' => s' = s
  | _ => False
  end.

Inductive undisturbed {HI : HashIter} {SO : SqlOrder} (s t : string)
  : DaemonPermissionEngine → list Op → Prop :=
| undisturbed_nil e : undisturbed s t e []
| undisturbed_cons e op ops :
    ¬ touches s t op e → undisturbed s t (step op e).1 ops → undisturbed s t e (op :: ops).

(** * Lemmas *)

Lemma first_grant_app (t : string) (p : option string) (l1 l2 : list SessionGrant) :
  first_grant t p (l1 ++ l2) =
  match first_grant t p l1 with Some b => Some b | None => first_grant t p l2 end.
Proof. induction l1 as [|g l1 IH]; simpl; [done|]. by destruct (grant_matches t p g). Qed.

Lemma first_grant_spec (t : string) (p : option string) (l : list SessionGrant) (b : bool) :
  first_grant t p l = Some b ↔
  ∃ l1 g l2, l = l1 ++ g :: l2 ∧ grant_matches t p g = true ∧ sg_granted g = b ∧
             Forall (λ h, grant_matches t p h = false) l1.
Proof.
  induction l as [|g l IH]; simpl.
  { split; [done|]. intros (l1 & ? & ? & H & _). by destruct l1. }
  destruct (grant_matches t p g) eqn:E.
  - split.
    + intros [= <-]. exists [], g, l. auto.
    + intros (l1 & h & l2 & H & Hh & Hb & Hall). destruct l1 as [|x l1]; simplify_eq/=; [done|].
      apply Forall_cons in Hall as [? _]. congruence.
  - rewrite IH. split.
    + intros (l1 & h & l2 & -> & ?). exists (g :: l1), h, l2. naive_solver.
    + intros (l1 & h & l2 & H & Hh & Hb & Hall). destruct l1 as [|x l1]; simplify_eq/=; [congruence|].
      apply Forall_cons in Hall as [_ ?]. eauto 10.
Qed.

Lemma first_grant_other_tool (t t' : string) (p : option string) (pat : option string) (b : bool) :
  t' ≠ t → first_grant t p [mkSessionGrant t' pat b] = None.
Proof. intros H. simpl. unfold grant_matches. simpl. by rewrite bool_decide_false. Qed.

Section Lemmas.
Context {HI : HashIter} {SO : SqlOrder}.

Lemma check_after_add (s t s' t' : string) (p pat : option string) (b : bool) (e : DaemonPermissionEngine) :
  check_session_grant s t p (add_session_grant s' t' pat b e) =
  if decide (s = s') then
    match first_grant t p [mkSessionGrant t' pat b] with
    | Some b' => Some b'
    | None => check_session_grant s t p e
    end
  else check_session_grant s t p e.
Proof.
  unfold check_session_grant, add_session_grant. simpl. rewrite lookup_insert.
  case_decide as H1; case_decide as H2; try congruence.
  subst. rewrite rev_app_distr. simpl.
  destruct (grant_matches t p _); [done|].
  by destruct (session_grants e !! s).
Qed.

Lemma check_after_pending (s t : string) (p : option string) (e : DaemonPermissionEngine) (m : PendingManager) :
  check_session_grant s t p (set_pending e m) = check_session_grant s t p e.
Proof. done. Qed.

Lemma process_response_cases now f r e :
  match requests (pending e) !! resp_request_id r with
  | None =>
      process_response now f r e =
      (set_pending e (Pending.take (resp_request_id r) (pending e)).1,
       Err (RequestNotFound (resp_request_id r)))
  | Some q =>
      ∃ e', process_response now f r e = (e', Ok (mkProcessed q (resp_granted r))) ∧
        pending e' = (Pending.take (resp_request_id r) (pending e)).1 ∧
        rule_engine e' = rule_engine e ∧
        session_grants e' =
          session_grants (if remember_session r
                          then add_session_grant (session_id q) (tool_name q) None (resp_granted r) e
                          else e) ∧
        db e' = if remember_permanent r
                then (λ t, (insert_permission_grant f now (session_id q) (tool_name q) None
                              (if resp_granted r then "allow" else "deny") t).1) <$> db e
                else db e
  end.
Proof.
  unfold process_response. simpl. destruct (requests (pending e) !! resp_request_id r) as [q|]; [|done].
  eexists. split; [done|]. destruct (remember_session r), (remember_permanent r), (db e) eqn:Hdb; simpl; rewrite ?Hdb; done.
Qed.

(** An evaluation answers at once and changes nothing, or adds the pending
    request that it returns. *)
Lemma evaluate_cases n1 n2 f req e :
  (∃ ev, evaluate n1 n2 f req e = (e, ev) ∧ ∀ r, ev ≠ PendingEval r) ∨
  (∃ r, evaluate n1 n2 f req e = (set_pending e (Pending.add r (pending e)), PendingEval r) ∧
        request_id r = er_request_id req).
Proof.
  unfold evaluate, cached_answer, create.
  destruct (check_session_grant _ _ _ e) as [[]|]; [left; eauto..|].
  destruct (db_grant _ _ _ e) as [[]|]; [left; eauto..|].
  destruct (decision_action _); [left; eauto..|right; eauto|right; eauto].
Qed.

(** Evaluating changes at most the pending requests. *)
Lemma evaluate_frame n1 n2 f req e :
  let e' := (evaluate n1 n2 f req e).1 in
  rule_engine e' = rule_engine e ∧ session_grants e' = session_grants e ∧ db e' = db e ∧
  config (pending e') = config (pending e).
Proof. by destruct (evaluate_cases n1 n2 f req e) as [(ev & -> & _)|(r & -> & _)]. Qed.

(** What an evaluation answers depends on the rules, the two kinds of grants
    and the pending configuration only. *)
Lemma evaluate_ext n1 n2 f req e1 e2 :
  rule_engine e1 = rule_engine e2 → config (pending e1) = config (pending e2) →
  check_session_grant (er_session_id req) (er_tool_name req) (er_path req) e1 =
  check_session_grant (er_session_id req) (er_tool_name req) (er_path req) e2 →
  db_grant f (er_session_id req) (er_tool_name req) e1 =
  db_grant f (er_session_id req) (er_tool_name req) e2 →
  (evaluate n1 n2 f req e1).2 = (evaluate n1 n2 f req e2).2.
Proof.
  intros Hr Hc Hs Hd. unfold evaluate, create. rewrite Hs, Hd, Hr, Hc. by repeat case_match.
Qed.

Lemma insert_grant_other f g now s s' t t' act tab :
  s ≠ s' →
  get_permission_grant f s t (insert_permission_grant g now s' t' None act tab).1 =
  get_permission_grant f s t tab.
Proof.
  intros Hne. unfold get_permission_grant, insert_permission_grant.
  destruct f; [done|]. destruct g; [done|]. simpl.
  rewrite filter_app, filter_cons, decide_False by (simpl; naive_solver).
  by rewrite filter_nil, app_nil_r.
Qed.

(** The parts of the state that no operation changes. *)
Lemma step_frame (op : Op) (e : DaemonPermissionEngine) :
  rule_engine (step op e).1 = rule_engine e ∧
  config (pending (step op e).1) = config (pending e).
Proof.
  destruct op as [n1 n2 f req|n f r| | | |clock]; simpl; try done.
  - destruct (evaluate n1 n2 f req e) as [e' ev] eqn:E.
    pose proof (evaluate_frame n1 n2 f req e) as H. rewrite E in H. simpl in *. naive_solver.
  - pose proof (process_response_cases n f r e) as H.
    destruct (requests (pending e) !! resp_request_id r) as [q|].
    + destruct H as (e' & -> & Hp & Hr & _). simpl. by rewrite Hp.
    + by rewrite H.
Qed.

(** An operation on another session leaves this session's grants alone. *)
Lemma step_other_session (op : Op) (e : DaemonPermissionEngine) (s t : string) (p f : option string) :
  session_of op e ≠ Some s →
  check_session_grant s t p (step op e).1 = check_session_grant s t p e ∧
  db_grant f s t (step op e).1 = db_grant f s t e.
Proof.
  intros Hne. destruct op as [n1 n2 f' req|n f' r|s' t' p' b|s'| |clock]; simpl in *; try done.
  - destruct (evaluate n1 n2 f' req e) as [e' ev] eqn:E.
    pose proof (evaluate_frame n1 n2 f' req e) as H. rewrite E in H. simpl in *.
    unfold check_session_grant, db_grant. destruct H as (_ & -> & -> & _). done.
  - pose proof (process_response_cases n f' r e) as H.
    destruct (requests (pending e) !! resp_request_id r) as [q|]; [|by rewrite H].
    destruct H as (e' & -> & _ & _ & Hg & Hd). simpl in *.
    assert (s ≠ session_id q) as Hs by congruence. split.
    + unfold check_session_grant at 1. rewrite Hg.
      destruct (remember_session r); [|done]. fold (check_session_grant s t p
        (add_session_grant (session_id q) (tool_name q) None (resp_granted r) e)).
      rewrite check_after_add. by rewrite decide_False.
    + unfold db_grant. rewrite Hd. destruct (remember_permanent r); [|done].
      destruct (db e) as [tab|]; [|done]. simpl. by rewrite insert_grant_other.
  - split; [|done]. rewrite check_after_add. rewrite decide_False; congruence.
  - split; [|done]. unfold check_session_grant, clear_session_grants. simpl.
    rewrite lookup_delete_ne by congruence. done.
Qed.

(** What a session remembers of a tool survives an operation that does not
    touch it. *)
Lemma step_untouched (op : Op) (e : DaemonPermissionEngine) (s t : string) (p : option string) :
  ¬ touches s t op e →
  check_session_grant s t p (step op e).1 = check_session_grant s t p e.
Proof.
  intros Hnt. destruct (decide (session_of op e = Some s)) as [Hs|Hs];
    [|by apply (step_other_session op e s t p None)].
  destruct op as [n1 n2 f' req|n f' r|s' t' p' b|s'| |clock]; simplify_eq/=; try done.
  - apply fmap_Some in Hs as (q & Hq & ->).
    pose proof (process_response_cases n f' r e) as H. rewrite Hq in H.
    destruct H as (e' & -> & _ & _ & Hg & _). simpl.
    unfold check_session_grant at 1. rewrite Hg.
    destruct (remember_session r) eqn:Hr; [|done].
    fold (check_session_grant (session_id q) t p
      (add_session_grant (session_id q) (tool_name q) None (resp_granted r) e)).
    rewrite check_after_add, decide_True, first_grant_other_tool; [done| |done].
    intros <-. apply Hnt. eauto 10.
  - rewrite check_after_add, decide_True, first_grant_other_tool; [done| |done]. naive_solver.
Qed.

Lemma waiting_step (op : Op) (e : DaemonPermissionEngine) (id : string) :
  answered id (step op e).2 + waiting id (step op e).1 ≤ asked id (step op e).2 + waiting id e.
Proof.
  unfold waiting. destruct op as [n1 n2 f req|n f r|s t p b|s|clock c b|clock].
  - simpl. destruct (evaluate_cases n1 n2 f req e) as [(ev & -> & Hev)|(r & -> & _)]; simpl; [lia|].
    rewrite lookup_insert. repeat case_decide; naive_solver lia.
  - simpl. pose proof (process_response_cases n f r e) as H.
    destruct (requests (pending e) !! resp_request_id r) as [q|] eqn:Hq.
    + destruct H as (e' & -> & Hp & _). simpl. rewrite Hp. simpl. rewrite lookup_delete.
      repeat case_decide; subst; simpl in *; try lia; try (by destruct H); naive_solver.
    + rewrite H. simpl. rewrite lookup_delete.
      repeat case_decide; subst; simpl in *; try lia; naive_solver.
  - simpl. lia.
  - simpl. lia.
  - change (pending (step _ e).1) with (Pending.update_client_status clock c b (pending e)).
    rewrite Pending.lookup_update_client_status. simpl.
    destruct (requests (pending e) !! id); simpl; repeat case_decide; naive_solver lia.
  - change (pending (step _ e).1) with (Pending.cleanup_expired clock (pending e)).1.
    rewrite lookup_cleanup_expired. simpl.
    destruct (requests (pending e) !! id) as [q|]; [destruct (is_expired (clock id) q)|];
      repeat case_decide; naive_solver lia.
Qed.

End Lemmas.

(** * Theorems *)

Section Theorems.
Context {HI : HashIter} {SO : SqlOrder}.

(** Every accepted answer consumes a question: over any sequence of
    operations from a fresh engine, the number of accepted answers to an
    identifier, plus one if it is still pending, is at most the number of
    times the engine asked about it. *)
Theorem answers_bounded_by_questions (r : PermissionEngine) (c : PendingConfig)
    (d : option GrantTable) (ops : list Op) (id : string) :
  let '(e, outs) := run ops (engine_with r c d) in
  sum_list_with (answered id) outs + waiting id e ≤ sum_list_with (asked id) outs.
Proof.
  assert (∀ e0, let '(e, outs) := run ops e0 in
    sum_list_with (answered id) outs + waiting id e ≤ sum_list_with (asked id) outs + waiting id e0) as H.
  { induction ops as [|op ops IH]; intros e0; simpl; [lia|].
    pose proof (waiting_step op e0 id) as Hs.
    destruct (step op e0) as [e1 o]. specialize (IH e1).
    destruct (run ops e1) as [e2 os]. simpl in *. lia. }
  specialize (H (engine_with r c d)).
  assert (waiting id (engine_with r c d) = 0) as H0.
  { unfold waiting. simpl. rewrite lookup_empty. by case_decide as Hd; [destruct Hd|]. }
  destruct (run ops _) as [e outs]. lia.
Qed.

(** The newest matching grant of the session decides before the database
    and the rules are consulted, and nothing changes. *)
Theorem session_grant_decides (n1 n2 : Z) (f : option string) (req : PermissionEvalRequest)
    (e : DaemonPermissionEngine) (older newer : list SessionGrant) (g : SessionGrant)
    (Hgs : session_grants e !! er_session_id req = Some (older ++ g :: newer))
    (Hg : grant_matches (er_tool_name req) (er_path req) g = true)
    (Hnewer : Forall (λ h, grant_matches (er_tool_name req) (er_path req) h = false) newer) :
  evaluate n1 n2 f req e = (e, if sg_granted g then Allowed true else Denied true).
Proof.
  assert (check_session_grant (er_session_id req) (er_tool_name req) (er_path req) e
          = Some (sg_granted g)) as Hc.
  { unfold check_session_grant. rewrite Hgs. apply first_grant_spec.
    exists (rev newer), g, (rev older). split_and!; [|done..|by apply Forall_rev].
    rewrite rev_app_distr. simpl. by rewrite <- app_assoc. }
  unfold evaluate. by rewrite Hc.
Qed.

(** An answer remembered for the session is final: once a pending request is
    answered with [remember_session], every later evaluation of that tool in
    that session returns the remembered answer from the cache and asks
    nothing, across any operations that do not touch that session's grants
    for the tool. *)
Theorem remembered_answer_holds (now : Z) (f : option string) (r : PermissionResponse)
    (q : PendingRequest) (e : DaemonPermissionEngine) (ops : list Op)
    (n1 n2 : Z) (f' : option string) (req : PermissionEvalRequest)
    (Hq : requests (pending e) !! resp_request_id r = Some q)
    (Hrem : remember_session r = true)
    (Hops : undisturbed (session_id q) (tool_name q) (process_response now f r e).1 ops)
    (Hs : er_session_id req = session_id q) (Ht : er_tool_name req = tool_name q) :
  let e' := (run ops (process_response now f r e).1).1 in
  evaluate n1 n2 f' req e' = (e', if resp_granted r then Allowed true else Denied true).
Proof.
  assert (check_session_grant (session_id q) (tool_name q) (er_path req)
            (process_response now f r e).1 = Some (resp_granted r)) as H0.
  { pose proof (process_response_cases now f r e) as H. rewrite Hq in H.
    destruct H as (e1 & -> & _ & _ & Hg & _). simpl. unfold check_session_grant. rewrite Hg, Hrem.
    fold (check_session_grant (session_id q) (tool_name q) (er_path req)
      (add_session_grant (session_id q) (tool_name q) None (resp_granted r) e)).
    rewrite check_after_add, decide_True by done.
    unfold first_grant, grant_matches. simpl. by rewrite bool_decide_true. }
  assert (∀ e1, undisturbed (session_id q) (tool_name q) e1 ops →
    check_session_grant (session_id q) (tool_name q) (er_path req) (run ops e1).1 =
    check_session_grant (session_id q) (tool_name q) (er_path req) e1) as Hrun.
  { clear. induction ops as [|op ops IH]; intros e1 Hu; [done|].
    inversion Hu as [|? ? ? Hnt Hu']; subst. simpl.
    rewrite <- (step_untouched op e1) by done. specialize (IH _ Hu').
    destruct (step op e1) as [e2 o]. simpl in *. by destruct (run ops e2). }
  intros e'. unfold evaluate, cached_answer. subst e'. by rewrite Hs, Ht, (Hrun _ Hops), H0.
Qed.

(** Sessions are isolated: an operation that concerns another session (or
    none) never changes what a session's evaluations answer. *)
Theorem session_isolation (op : Op) (e : DaemonPermissionEngine) (n1 n2 : Z) (f : option string)
    (req : PermissionEvalRequest) (Hother : session_of op e ≠ Some (er_session_id req)) :
  (evaluate n1 n2 f req (step op e).1).2 = (evaluate n1 n2 f req e).2.
Proof.
  destruct (step_frame op e) as [Hr Hc].
  destruct (step_other_session op e (er_session_id req) (er_tool_name req) (er_path req) f Hother).
  by apply evaluate_ext.
Qed.

(** A response to an unknown identifier is an error and changes nothing; a
    response to a pending one returns that request, removes it, and leaves
    every other pending request in place. *)
Theorem process_response_spec (now : Z) (f : option string) (r : PermissionResponse)
    (e : DaemonPermissionEngine) :
  match requests (pending e) !! resp_request_id r with
  | None => process_response now f r e = (e, Err (RequestNotFound (resp_request_id r)))
  | Some q =>
      ∃ e', process_response now f r e = (e', Ok (mkProcessed q (resp_granted r))) ∧
        requests (pending e') = delete (resp_request_id r) (requests (pending e)) ∧
        (remember_session r = false → session_grants e' = session_grants e) ∧
        (remember_permanent r = false ∨ is_Some f → db e' = db e)
  end.
Proof.
  pose proof (process_response_cases now f r e) as H.
  destruct (requests (pending e) !! resp_request_id r) as [q|] eqn:Hq.
  - destruct H as (e' & He & Hp & _ & Hg & Hd). exists e'. split_and!; [done| | |].
    + by rewrite Hp.
    + intros Hr. by rewrite Hg, Hr.
    + rewrite Hd. intros [->|[x ->]]; [done|].
      destruct (remember_permanent r); [|done]. by destruct (db e).
  - rewrite H. simpl. unfold set_pending, set_requests. rewrite delete_id by done.
    by destruct e as [? [] ? ?].
Qed.

(** With the built-in rules and nothing remembered, exactly the read-only
    tools are allowed without asking; everything else asks. *)
Theorem default_engine_fails_closed (n1 n2 : Z) (f : option string) (c : PendingConfig)
    (req : PermissionEvalRequest) :
  let ev := (evaluate n1 n2 f req (engine_with engine_new c None)).2 in
  (ev = Allowed false ↔ er_tool_name req ∈ ["Read"; "Glob"; "Grep"]) ∧
  (er_tool_name req ∉ ["Read"; "Glob"; "Grep"] → ∃ r, ev = PendingEval r).
Proof.
  assert (∀ t, decision_action (Permissions.evaluate engine_new t (er_path req)) =
    if decide (t ∈ ["Read"; "Glob"; "Grep"]) then Allow else Ask) as H.
  { assert (∀ x t, x ∈ ["Read"; "Glob"; "Grep"] → matches_tool x t = bool_decide (x = t)) as Hlit.
    { intros x t. rewrite !elem_of_cons, elem_of_nil. by intros [->|[->|[->|[]]]]. }
    intros t. unfold Permissions.evaluate. simpl.
    rewrite !Hlit by (rewrite !elem_of_cons; auto).
    destruct (decide (t ∈ _)) as [Ht|Ht]; rewrite !elem_of_cons, elem_of_nil in Ht.
    - by destruct Ht as [->|[->|[->|[]]]].
    - rewrite !bool_decide_false by naive_solver. by repeat case_match. }
  unfold evaluate, check_session_grant, db_grant. simpl. rewrite lookup_empty. rewrite H.
  case_decide; simpl; naive_solver.
Qed.

End Theorems.

(** * Examples and witnesses *)

Definition demo_request (sid id tool : string) : PermissionEvalRequest :=
  mkEvalRequest sid id tool "" "{}" None (Some "client-1") true.

Definition demo_engine : DaemonPermissionEngine :=
  (evaluate 0 0 None (demo_request "session-1" "req-1" "Bash")
     (engine_with engine_new default_pending_config (Some (mkGrantTable 1 [])))).1.

Definition demo_yes : PermissionResponse := mkResponse "req-1" true true true.

Lemma session_grant_decides_witness :
  let e := add_session_grant "session-1" "Bash" None false
             (add_session_grant "session-1" "Bash" None true demo_engine) in
  evaluate 5 5 None (demo_request "session-1" "req-2" "Bash") e = (e, Denied true).
Proof.
  apply (session_grant_decides 5 5 None (demo_request "session-1" "req-2" "Bash") _
           [mkSessionGrant "Bash" None true] [] (mkSessionGrant "Bash" None false)).
  - vm_compute. reflexivity.
  - reflexivity.
  - constructor.
Defined.

Lemma remembered_answer_holds_witness :
  let e' := (run [OpClear "session-2"; OpCleanup (λ _, 1%Z)]
               (process_response 7 None demo_yes demo_engine).1).1 in
  evaluate 9 9 None (demo_request "session-1" "req-2" "Bash") e' = (e', Allowed true).
Proof.
  apply (remembered_answer_holds 7 None demo_yes
           (mkPendingRequest "req-1" "session-1" "Bash" "" "{}" (Some "client-1") 0 (secs 60) true)
           demo_engine [OpClear "session-2"; OpCleanup (λ _, 1%Z)] 9 9 None
           (demo_request "session-1" "req-2" "Bash")).
  - vm_compute. reflexivity.
  - reflexivity.
  - apply undisturbed_cons; [discriminate|]. apply undisturbed_cons; [intros []|]. constructor.
  - reflexivity.
  - reflexivity.
Defined.

Lemma session_isolation_witness :
  (evaluate 9 9 None (demo_request "session-2" "req-2" "Bash")
     (step (OpRespond 7 None demo_yes) demo_engine).1).2 =
  (evaluate 9 9 None (demo_request "session-2" "req-2" "Bash") demo_engine).2.
Proof.
  apply (session_isolation (OpRespond 7 None demo_yes) demo_engine 9 9 None
           (demo_request "session-2" "req-2" "Bash")).
  vm_compute. discriminate.
Defined.

(** A rule with the action [AskSession] asks again after it was answered
    once in the session, unless the client set [remember_session]. *)
Theorem ask_session_asks_again :
  let rule := mkRule "r" "Bash" None AskSession 1 None Project in
  let e0 := engine_with (with_rules [rule]) default_pending_config None in
  let e1 := (evaluate 0 0 None (demo_request "s" "req-1" "Bash") e0).1 in
  let e2 := (process_response 1 None (mkResponse "req-1" true false false) e1).1 in
  ∃ r, (evaluate 2 2 None (demo_request "s" "req-2" "Bash") e2).2 = PendingEval r.
Proof. eexists. vm_compute. reflexivity. Qed.
