(* ===== verification/Scheduler.v ===== *)
(** The step scheduler of multi-step orchestrations: definitions.

    Models crates/betcode-daemon/src/orchestration/scheduler.rs, with
    ManagerError of manager.rs beside it.  A [usize]
    counter is a [nat] ([saturating_sub] is its subtraction).  The two
    worklist loops take fuel; [SchedulerKahn] and [SchedulerRun] show that
    the fuel given here is never exhausted. *)
From stdpp Require Import gmap strings list fin_maps relations.
From Stdlib Require Import Lia.
From S2P Require Import Prelude Protocol.

Inductive StepState :=
| Pending
| Ready
| Running
| Completed
| Failed
| Blocked.

#[export] Instance StepState_eq_dec : EqDecision StepState.
Proof. solve_decision. Defined.

Record DagScheduler := mkScheduler {
  steps : list string;
  dependents : gmap string (list string);
  states : gmap string StepState;
  in_degrees : gmap string nat
}.

(** The errors of the subagent manager; the scheduler raises [Validation]. *)
Inductive ManagerError :=
| PoolFull
| SpawnFailed (reason : string)
| SubagentNotFound (id : string)
| AlreadyCompleted (id : string)
| OrchestrationNotFound (id : string)
| DatabaseFailed (e : DatabaseError)
| Validation (message : string).

(** [m.entry(k).or_default().push(v)] *)
Definition push_entry (k v : string) (m : gmap string (list string)) : gmap string (list string) :=
  <[k := default [] (m !! k) ++ [v]]> m.

(** [m.entry(k).or_insert(d)] *)
Definition entry_or {V : Type} (d : V) (k : string) (m : gmap string V) : gmap string V :=
  match m !! k with Some _ => m | None => <[k := d]> m end.

(** [*m.entry(k).or_insert(0) += 1] *)
Definition incr_entry (k : string) (m : gmap string nat) : gmap string nat :=
  <[k := S (default 0 (m !! k))]> m.

(** * Cycle detection (Kahn's algorithm) *)

(** One neighbour of the step taken from the queue. *)
Definition relax (acc : gmap string nat * list string) (neighbor : string)
  : gmap string nat * list string :=
  let '(in_degree, queue) := acc in
  match in_degree !! neighbor with
  | Some deg =>
      (<[neighbor := deg - 1]> in_degree,
       if decide (deg - 1 = 0) then queue ++ [neighbor] else queue)
  | None => acc
  end.

Fixpoint kahn_loop (fuel : nat) (adj : gmap string (list string)) (in_degree : gmap string nat)
    (queue : list string) (processed : nat) : option nat :=
  match fuel with
  | 0 => None
  | S fuel' =>
      match queue with
      | [] => Some processed
      | step :: queue' =>
          let '(in_degree', queue'') :=
            match adj !! step with
            | Some neighbors => foldl relax (in_degree, queue') neighbors
            | None => (in_degree, queue')
            end in
          kahn_loop fuel' adj in_degree' queue'' (S processed)
      end
  end.

(** The checks on the entries of the dependency map, in iteration order:
    every dependency is a known step, and no step depends on itself. *)
Fixpoint unknown_dep (steps : list string) (dep_list : list string) : option string :=
  match dep_list with
  | [] => None
  | dep :: rest => if decide (dep ∈ steps) then unknown_dep steps rest else Some dep
  end.

Fixpoint check_deps (steps : list string) (entries : list (string * list string))
  : result ManagerError unit :=
  match entries with
  | [] => Ok tt
  | (step, dep_list) :: rest =>
      match unknown_dep steps dep_list with
      | Some dep =>
          Err (Validation ("Step '" +:+ step +:+ "' depends on unknown step '" +:+ dep +:+ "'"))
      | None =>
          if decide (step ∈ dep_list)
          then Err (Validation ("Step '" +:+ step +:+ "' depends on itself"))
          else check_deps steps rest
      end
  end.

Section Hashed.
Context {HI : HashIter}.

Definition kahn_adj (steps : list string) (deps : gmap string (list string)) : gmap string (list string) :=
  foldl (λ m entry, foldl (λ m dep, push_entry dep entry.1 m) m entry.2)
    (foldl (λ m s, entry_or [] s m) ∅ steps) (hm_iter deps).

Definition kahn_degrees (steps : list string) (deps : gmap string (list string)) : gmap string nat :=
  foldl (λ m entry, foldl (λ m _, incr_entry entry.1 m) m entry.2)
    (foldl (λ m s, entry_or 0 s m) ∅ steps) (hm_iter deps).

Definition kahn_start (in_degree : gmap string nat) : list string :=
  (filter (λ kv, kv.2 = 0) (hm_iter in_degree)).*1.

Definition validate_dag (steps : list string) (deps : gmap string (list string))
  : result ManagerError unit :=
  let? _ := check_deps steps (hm_iter deps) in
  let in_degree := kahn_degrees steps deps in
  match kahn_loop (S (size in_degree)) (kahn_adj steps deps) in_degree (kahn_start in_degree) 0 with
  | Some processed =>
      if decide (processed = length steps) then Ok tt
      else Err (Validation "Dependency graph contains a cycle")
  | None => Err (Validation "Dependency graph contains a cycle")
  end.

(** * The scheduler *)

Definition build_dependents (steps : list string) (deps : gmap string (list string))
  : gmap string (list string) :=
  foldl (λ m entry, foldl (λ m dep, push_entry dep entry.1 m) m entry.2)
    (foldl (λ m s, entry_or [] s m) ∅ steps) (hm_iter deps).

Definition initial_degrees (steps : list string) (deps : gmap string (list string)) : gmap string nat :=
  foldl (λ m s, <[s := from_option length 0 (deps !! s)]> m) ∅ steps.

Definition initial_states (steps : list string) (in_degrees : gmap string nat) : gmap string StepState :=
  foldl (λ m s, <[s := if decide (default 0 (in_degrees !! s) = 0) then Ready else Pending]> m) ∅ steps.

Definition new (steps : list string) (deps : gmap string (list string))
  : result ManagerError DagScheduler :=
  let in_degrees := initial_degrees steps deps in
  let? _ := validate_dag steps deps in
  Ok (mkScheduler steps (build_dependents steps deps) (initial_states steps in_degrees) in_degrees).

End Hashed.

Definition next_ready (s : DagScheduler) : list string :=
  filter (λ x, states s !! x = Some Ready) (steps s).

Definition running_ids (s : DagScheduler) : list string :=
  filter (λ x, states s !! x = Some Running) (steps s).

Definition set_state (x : string) (st : StepState) (m : gmap string StepState) : gmap string StepState :=
  match m !! x with Some _ => <[x := st]> m | None => m end.

Definition mark_running (x : string) (s : DagScheduler) : DagScheduler :=
  mkScheduler (steps s) (dependents s) (set_state x Running (states s)) (in_degrees s).

(** One downstream step of a completed one. *)
Definition release (acc : gmap string nat * gmap string StepState * list string) (ds : string)
  : gmap string nat * gmap string StepState * list string :=
  let '(degs, sts, newly_ready) := acc in
  match degs !! ds with
  | Some deg =>
      let degs' := <[ds := deg - 1]> degs in
      if decide (deg - 1 = 0 ∧ sts !! ds = Some Pending)
      then (degs', <[ds := Ready]> sts, newly_ready ++ [ds])
      else (degs', sts, newly_ready)
  | None => acc
  end.

Definition mark_completed (x : string) (s : DagScheduler) : DagScheduler * list string :=
  let sts := set_state x Completed (states s) in
  let '(degs, sts', newly_ready) :=
    match dependents s !! x with
    | Some downstream => foldl release (in_degrees s, sts, []) downstream
    | None => (in_degrees s, sts, [])
    end in
  (mkScheduler (steps s) (dependents s) sts' degs, newly_ready).

(** The breadth-first cascade of a failure through the dependents. *)
Fixpoint cascade (fuel : nat) (deps : gmap string (list string)) (queue : list string)
    (visited : gset string) (sts : gmap string StepState) (blocked : list string)
  : option (gmap string StepState * list string) :=
  match fuel with
  | 0 => None
  | S fuel' =>
      match queue with
      | [] => Some (sts, blocked)
      | ds :: queue' =>
          if decide (ds ∈ visited) then cascade fuel' deps queue' visited sts blocked
          else
            let '(sts', blocked') :=
              if decide (sts !! ds = Some Pending ∨ sts !! ds = Some Ready)
              then (<[ds := Blocked]> sts, blocked ++ [ds])
              else (sts, blocked) in
            cascade fuel' deps (queue' ++ default [] (deps !! ds)) ({[ds]} ∪ visited) sts' blocked'
      end
  end.

(** Enough fuel for every queue entry: the first ones and those that each
    visited step adds once. *)
Definition cascade_fuel (deps : gmap string (list string)) (queue : list string) : nat :=
  S (length queue + sum_list_with (λ kv, length kv.2) (map_to_list deps)).

Definition mark_failed (x : string) (s : DagScheduler) : DagScheduler * list string :=
  let sts := set_state x Failed (states s) in
  let queue := default [] (dependents s !! x) in
  match cascade (cascade_fuel (dependents s) queue) (dependents s) queue ∅ sts [] with
  | Some (sts', blocked) => (mkScheduler (steps s) (dependents s) sts' (in_degrees s), blocked)
  | None => (s, [])
  end.

Definition terminal (st : StepState) : Prop := st = Completed ∨ st = Failed ∨ st = Blocked.

#[export] Instance terminal_dec (st : StepState) : Decision (terminal st).
Proof. unfold terminal. apply _. Defined.

Definition is_complete (s : DagScheduler) : bool :=
  bool_decide (map_Forall (λ _ st, terminal st) (states s)).

Definition step_state (x : string) (s : DagScheduler) : option StepState := states s !! x.

Definition total_steps (s : DagScheduler) : nat := length (steps s).

(** * Examples, from the unit tests of the source *)

Definition demo_deps : gmap string (list string) := {[ "b" := ["a"]; "c" := ["a"]; "d" := ["b"; "c"] ]}.

Example diamond_runs :
  match new ["a"; "b"; "c"; "d"] demo_deps with
  | Ok s0 =>
      next_ready s0 = ["a"] ∧
      let s1 := (mark_completed "a" s0).1 in
      next_ready s1 = ["b"; "c"] ∧
      (mark_failed "b" s1).2 = ["d"] ∧
      is_complete (mark_failed "b" s1).1 = false ∧
      next_ready (mark_completed "c" (mark_completed "b" s1).1).1 = ["d"]
  | Err _ => False
  end.
Proof. vm_compute. repeat split. Qed.

Example cycle_rejected :
  new ["a"; "b"; "c"] {[ "a" := ["c"]; "b" := ["a"]; "c" := ["b"] ]} =
  Err (Validation "Dependency graph contains a cycle").
Proof. reflexivity. Qed.

(** The dependency graph behind the scheduler.

    The maps that the scheduler and its cycle check build are related to one
    list of edges (dependency, step), and acyclicity of that list is shown to
    give every non-empty set of steps a member without predecessors in it. *)

Definition edges (entries : list (string * list string)) : list (string * string) :=
  entries ≫= λ entry, (λ dep, (dep, entry.1)) <$> entry.2.

Definition targets (E : list (string * string)) (d : string) : list string :=
  (filter (λ e, e.1 = d) E).*2.

Definition sources (E : list (string * string)) (x : string) : list string :=
  (filter (λ e, e.2 = x) E).*1.

Definition indeg (E : list (string * string)) (x : string) : nat := length (sources E x).

Definition edge (E : list (string * string)) (d x : string) : Prop := (d, x) ∈ E.

Definition acyclic (E : list (string * string)) : Prop := ∀ x, ¬ tc (edge E) x x.

(** * Edges *)

Lemma elem_of_edges (entries : list (string * list string)) (d x : string) :
  (d, x) ∈ edges entries ↔ ∃ l, (x, l) ∈ entries ∧ d ∈ l.
Proof.
  unfold edges. rewrite list_elem_of_bind. split.
  - intros ([y l] & Hin & Hy). simpl in *. apply list_elem_of_fmap in Hin as (z & [= -> ->] & Hz). eauto.
  - intros (l & Hin & Hd). exists (x, l). split; [|done]. simpl. apply list_elem_of_fmap. eauto.
Qed.

Lemma elem_of_targets (E : list (string * string)) (d x : string) : x ∈ targets E d ↔ (d, x) ∈ E.
Proof.
  unfold targets. rewrite list_elem_of_fmap. split.
  - by intros ([a b] & -> & [<- ?]%list_elem_of_filter).
  - intros H. exists (d, x). split; [done|]. by apply list_elem_of_filter.
Qed.

Lemma elem_of_sources (E : list (string * string)) (d x : string) : d ∈ sources E x ↔ (d, x) ∈ E.
Proof.
  unfold sources. rewrite list_elem_of_fmap. split.
  - by intros ([a b] & -> & [<- ?]%list_elem_of_filter).
  - intros H. exists (d, x). split; [done|]. by apply list_elem_of_filter.
Qed.

Lemma targets_cons (d x y : string) (E : list (string * string)) :
  targets ((d, x) :: E) y = if decide (d = y) then x :: targets E y else targets E y.
Proof. unfold targets. rewrite filter_cons. simpl. by case_decide. Qed.

Lemma indeg_cons (d x y : string) (E : list (string * string)) :
  indeg ((d, x) :: E) y = if decide (x = y) then S (indeg E y) else indeg E y.
Proof. unfold indeg, sources. rewrite filter_cons. simpl. by case_decide. Qed.

Lemma indeg_app (E1 E2 : list (string * string)) (x : string) :
  indeg (E1 ++ E2) x = indeg E1 x + indeg E2 x.
Proof. unfold indeg, sources. by rewrite filter_app, fmap_app, length_app. Qed.

Lemma indeg_star (dl : list string) (x y : string) :
  indeg ((λ dep, (dep, x)) <$> dl) y = if decide (x = y) then length dl else 0.
Proof.
  induction dl as [|d dl IH]; [by case_decide|].
  rewrite fmap_cons, indeg_cons, IH. by case_decide.
Qed.

Lemma indeg_edges (entries : list (string * list string)) (x : string) (l : list string) :
  NoDup entries.*1 → (x, l) ∈ entries → indeg (edges entries) x = length l.
Proof.
  induction entries as [|[y dl] entries IH]; intros Hnd Hin; [by apply elem_of_nil in Hin|].
  rewrite fmap_cons, NoDup_cons in Hnd. destruct Hnd as [Hy Hnd].
  change (edges ((y, dl) :: entries)) with (((λ dep, (dep, y)) <$> dl) ++ edges entries).
  rewrite indeg_app, indeg_star. apply elem_of_cons in Hin as [[= -> ->]|Hin].
  - rewrite decide_True by done. enough (indeg (edges entries) y = 0) by lia.
    unfold indeg. destruct (sources (edges entries) y) as [|d ds] eqn:E; [done|].
    assert ((d, y) ∈ edges entries) as (l' & Hl & _)%elem_of_edges.
    { apply elem_of_sources. rewrite E. by left. }
    destruct Hy. apply list_elem_of_fmap. by exists (y, l').
  - rewrite decide_False; [by apply IH|]. intros ->. apply Hy. apply list_elem_of_fmap. by exists (x, l).
Qed.

Lemma indeg_edges_none (entries : list (string * list string)) (x : string) :
  (∀ l, (x, l) ∉ entries) → indeg (edges entries) x = 0.
Proof.
  intros H. unfold indeg. destruct (sources (edges entries) x) as [|d ds] eqn:E; [done|].
  assert ((d, x) ∈ edges entries) as (l & Hl & _)%elem_of_edges.
  { apply elem_of_sources. rewrite E. by left. }
  by destruct (H l).
Qed.

(** * The maps built from the edges *)

Lemma foldl_edges {A : Type} (f : A → string → string → A) (entries : list (string * list string)) (a : A) :
  foldl (λ a entry, foldl (λ a dep, f a dep entry.1) a entry.2) a entries =
  foldl (λ a e, f a e.1 e.2) a (edges entries).
Proof.
  revert a. induction entries as [|[x dl] entries IH]; intros a; [done|].
  change (edges ((x, dl) :: entries)) with (((λ dep, (dep, x)) <$> dl) ++ edges entries).
  rewrite foldl_app. simpl. rewrite IH. f_equal.
  clear. revert a. induction dl as [|d dl IH]; intros a; [done|]. simpl. apply IH.
Qed.

Lemma lookup_entry_or_all {V : Type} (d : V) (l : list string) (m : gmap string V) (k : string) :
  foldl (λ m s, entry_or d s m) m l !! k =
  match m !! k with Some v => Some v | None => if decide (k ∈ l) then Some d else None end.
Proof.
  revert m. induction l as [|x l IH]; intros m.
  { cbn [foldl]. destruct (m !! k); [done|]. by case_decide as H; [apply elem_of_nil in H|]. }
  cbn [foldl]. rewrite IH. unfold entry_or.
  destruct (decide (k ∈ x :: l)) as [Hk|Hk]; rewrite elem_of_cons in Hk;
    destruct (m !! x) eqn:Hx; [|rewrite lookup_insert| |rewrite lookup_insert];
    repeat case_decide; destruct (m !! k) eqn:Hmk; naive_solver.
Qed.

Lemma lookup_insert_all {V : Type} (f : string → V) (l : list string) (m : gmap string V) (k : string) :
  foldl (λ m s, <[s := f s]> m) m l !! k = if decide (k ∈ l) then Some (f k) else m !! k.
Proof.
  revert m. induction l as [|y l IH]; intros m; [done|]. cbn [foldl]. rewrite IH, lookup_insert.
  destruct (decide (k ∈ y :: l)) as [H|H]; rewrite elem_of_cons in H;
    repeat case_decide; naive_solver.
Qed.

Lemma lookup_push_all (E : list (string * string)) (m : gmap string (list string)) (d : string) :
  default [] (foldl (λ m e, push_entry e.1 e.2 m) m E !! d) = default [] (m !! d) ++ targets E d.
Proof.
  revert m. induction E as [|[a b] E IH]; intros m; simpl; [by rewrite app_nil_r|].
  rewrite IH, targets_cons. unfold push_entry. rewrite lookup_insert.
  case_decide; simpl; [subst; by rewrite <- app_assoc|done].
Qed.

Lemma lookup_incr_all (E : list (string * string)) (m : gmap string nat) (x : string) :
  foldl (λ m e, incr_entry e.2 m) m E !! x =
  if decide (indeg E x = 0) then m !! x else Some (default 0 (m !! x) + indeg E x).
Proof.
  revert m. induction E as [|[a b] E IH]; intros m; [done|].
  cbn [foldl]. rewrite IH, indeg_cons. unfold incr_entry. simpl. rewrite lookup_insert.
  repeat case_decide; simplify_eq/=; try done; f_equal; lia.
Qed.

Section Built.
Context {HI : HashIter} (sts : list string) (deps : gmap string (list string)).

Lemma kahn_adj_targets (d : string) :
  default [] (kahn_adj sts deps !! d) = targets (edges (hm_iter deps)) d.
Proof.
  unfold kahn_adj. rewrite (foldl_edges (λ m dep x, push_entry dep x m)), lookup_push_all.
  rewrite lookup_entry_or_all, lookup_empty. by case_decide.
Qed.

Lemma build_dependents_targets (d : string) :
  default [] (build_dependents sts deps !! d) = targets (edges (hm_iter deps)) d.
Proof. apply kahn_adj_targets. Qed.

Lemma kahn_degrees_lookup (x : string) :
  kahn_degrees sts deps !! x =
  if decide (x ∈ sts ∨ indeg (edges (hm_iter deps)) x ≠ 0)
  then Some (indeg (edges (hm_iter deps)) x) else None.
Proof.
  unfold kahn_degrees. rewrite (foldl_edges (λ m _ x, incr_entry x m)), lookup_incr_all.
  rewrite lookup_entry_or_all, lookup_empty.
  destruct (decide (indeg _ x = 0)) as [->|]; repeat case_decide; naive_solver.
Qed.

Lemma initial_degrees_lookup (x : string) :
  x ∈ sts → initial_degrees sts deps !! x = Some (indeg (edges (hm_iter deps)) x).
Proof.
  intros Hx.
  unfold initial_degrees. rewrite (lookup_insert_all (λ s, from_option length 0 (deps !! s))), decide_True by done. f_equal.
  destruct (deps !! x) as [l|] eqn:Hl; simpl.
  - symmetry. apply indeg_edges; [apply NoDup_hm_iter_keys|by apply elem_of_hm_iter].
  - symmetry. apply indeg_edges_none. intros l. rewrite elem_of_hm_iter. congruence.
Qed.

Lemma initial_states_lookup (degs : gmap string nat) (x : string) :
  initial_states sts degs !! x =
  if decide (x ∈ sts)
  then Some (if decide (default 0 (degs !! x) = 0) then Ready else Pending) else None.
Proof.
  unfold initial_states.
  by rewrite (lookup_insert_all (λ s, if decide (default 0 (degs !! s) = 0) then Ready else Pending)).
Qed.

End Built.

(** * Acyclicity *)

(** A chain of steps, each an edge's source for the next one. *)
Inductive chain (E : list (string * string)) : list string → Prop :=
| chain_one x : chain E [x]
| chain_cons y x l : edge E y x → chain E (x :: l) → chain E (y :: x :: l).

Lemma chain_tc (E : list (string * string)) (x y : string) (l : list string) :
  chain E (x :: l) → y ∈ l → tc (edge E) x y.
Proof.
  revert x. induction l as [|z l IH]; intros x Hc Hy; [by apply elem_of_nil in Hy|].
  inversion Hc as [|? ? ? Hxz Hc']; subst.
  apply elem_of_cons in Hy as [->|Hy]; [by apply tc_once|].
  eapply tc_l; [exact Hxz|]. by apply IH.
Qed.

Lemma chain_NoDup (E : list (string * string)) (l : list string) :
  acyclic E → chain E l → NoDup l.
Proof.
  intros Ha. induction l as [|x l IH]; intros Hc; [constructor|].
  constructor.
  - intros Hx. apply (Ha x). by eapply chain_tc.
  - destruct l as [|y l]; [constructor|]. apply IH. by inversion Hc.
Qed.

Lemma long_chain (E : list (string * string)) (X : gset string) (x : string) (n : nat) :
  (∀ y, y ∈ X → ∃ d, d ∈ X ∧ (d, y) ∈ E) → x ∈ X →
  ∃ l, length l = S n ∧ chain E l ∧ ∀ y, y ∈ l → y ∈ X.
Proof.
  intros Hpred Hx. induction n as [|n (l & Hl & Hc & Hin)].
  - exists [x]. split_and!; [done|constructor|]. by intros y ->%list_elem_of_singleton.
  - destruct l as [|z l]; [done|].
    destruct (Hpred z) as (d & Hd & Hdz); [by apply Hin; left|].
    exists (d :: z :: l). split_and!; [simpl in *; lia|by constructor|].
    intros y [->|Hy]%elem_of_cons; auto.
Qed.

(** In an acyclic graph a set in which every member has a predecessor is empty. *)
Lemma acyclic_no_closed_set (E : list (string * string)) (X : gset string) :
  acyclic E → (∀ y, y ∈ X → ∃ d, d ∈ X ∧ (d, y) ∈ E) → X = ∅.
Proof.
  intros Ha Hpred. destruct (decide (X = ∅)) as [|Hne]; [done|].
  apply set_choose_L in Hne as [x Hx].
  destruct (long_chain E X x (size X) Hpred Hx) as (l & Hl & Hc & Hin).
  apply (chain_NoDup _ _ Ha) in Hc.
  assert (length l ≤ size X) as Hle.
  { rewrite <- (size_list_to_set (C := gset string) l) by done.
    apply subseteq_size. intros y. rewrite elem_of_list_to_set. auto. }
  lia.
Qed.

(** An order in which every edge points forward rules out cycles. *)
Lemma ordered_acyclic (E : list (string * string)) (rank : string → nat) :
  (∀ d x, (d, x) ∈ E → rank d < rank x) → acyclic E.
Proof.
  intros H x Hx. assert (∀ a b, tc (edge E) a b → rank a < rank b) as Ht.
  { induction 1 as [a b Hab|a b c Hab _ IH]; [by apply H|]. apply H in Hab. lia. }
  specialize (Ht x x Hx). lia.
Qed.

(** * Counting incoming edges *)

(** How often a step occurs in a list. *)
Definition occ (x : string) (l : list string) : nat := length (filter (λ y, y = x) l).

Lemma occ_cons (x y : string) (l : list string) :
  occ x (y :: l) = if decide (y = x) then S (occ x l) else occ x l.
Proof. unfold occ. rewrite filter_cons. by case_decide. Qed.

Lemma occ_pos (x : string) (l : list string) : x ∈ l ↔ 0 < occ x l.
Proof.
  induction l as [|y l IH]; [split; [by intros ?%elem_of_nil|unfold occ; simpl; lia]|].
  rewrite elem_of_cons, occ_cons, IH. case_decide; split; intros; [lia|by left|naive_solver|by right].
Qed.

(** Removing one source from a set of sources removes its edges from the
    count of incoming edges. *)
Lemma sources_split (E : list (string * string)) (P Q : string → Prop)
    `{!∀ d, Decision (P d)} `{!∀ d, Decision (Q d)} (s x : string) :
  Q s → (∀ d, P d ↔ Q d ∧ d ≠ s) →
  length (filter P (sources E x)) + occ x (targets E s) = length (filter Q (sources E x)).
Proof.
  intros Hs HPQ. unfold occ, targets, sources. induction E as [|[a b] E' IH]; [done|].
  rewrite !filter_cons. simpl. destruct (decide (b = x)) as [->|Hb].
  - rewrite !fmap_cons, !filter_cons. simpl. destruct (decide (a = s)) as [->|Ha].
    + rewrite (decide_False (P := P s)) by (rewrite HPQ; naive_solver).
      rewrite (decide_True (P := Q s)), fmap_cons, filter_cons by done.
      rewrite (decide_True (P := x = x)) by done. simpl. lia.
    + destruct (decide (Q a)) as [HQ|HQ].
      * rewrite (decide_True (P := P a)) by (by apply HPQ). simpl. lia.
      * rewrite (decide_False (P := P a)) by (rewrite HPQ; naive_solver). done.
  - destruct (decide (a = s)) as [->|Ha]; [|done].
    rewrite fmap_cons, filter_cons, decide_False by done. done.
Qed.

Lemma count_sources_zero (E : list (string * string)) (P : string → Prop) `{!∀ d, Decision (P d)} (x : string) :
  length (filter P (sources E x)) = 0 ↔ ∀ d, (d, x) ∈ E → ¬ P d.
Proof.
  rewrite length_zero_iff_nil. split.
  - intros H0 d Hd HP. assert (d ∈ filter P (sources E x)) as Hin.
    { apply list_elem_of_filter. split; [done|]. by apply elem_of_sources. }
    rewrite H0 in Hin. by apply elem_of_nil in Hin.
  - intros Hno. destruct (filter P (sources E x)) as [|d l] eqn:Hf; [done|].
    assert (d ∈ filter P (sources E x)) as [HP Hd]%list_elem_of_filter by (rewrite Hf; by left).
    apply elem_of_sources in Hd. by destruct (Hno d Hd).
Qed.
