(* ===== verification/SchedulerKahn.v ===== *)
(** Correctness of the scheduler's cycle check.

    The worklist loop of [validate_dag] processes every step that is not
    reachable from a cycle exactly once: it terminates within its fuel, and
    it accepts a dependency map over the steps iff the steps are distinct,
    every dependency is a known step and the dependency graph is acyclic. *)
From stdpp Require Import gmap strings list fin_maps relations.
From Stdlib Require Import Lia.
From S2P Require Import Prelude Scheduler.

(** * One round of the loop

    With no more occurrences than the remaining degree, relaxing a list of
    neighbours subtracts the occurrences and enqueues, once each, exactly
    the neighbours whose degree drops to zero. *)
Lemma relax_all (ns : list string) (ind : gmap string nat) (q : list string) :
  (∀ n, n ∈ ns → ∃ d, ind !! n = Some d ∧ occ n ns ≤ d) →
  ∃ ind' new,
    foldl relax (ind, q) ns = (ind', q ++ new) ∧
    (∀ n, ind' !! n = (λ d, d - occ n ns) <$> ind !! n) ∧
    NoDup new ∧
    (∀ n, n ∈ new ↔ n ∈ ns ∧ ind !! n = Some (occ n ns)).
Proof.
  revert ind q. induction ns as [|x ns IH]; intros ind q Hocc.
  { exists ind, []. split_and!; [by rewrite app_nil_r| |constructor|].
    - intros n. destruct (ind !! n); simpl; f_equal. unfold occ. simpl. lia.
    - intros n. split; [by intros ?%elem_of_nil|by intros [?%elem_of_nil _]]. }
  destruct (Hocc x) as (d & Hd & Hle); [by left|].
  rewrite occ_cons, decide_True in Hle by done.
  cbn [foldl]. unfold relax at 2. rewrite Hd.
  destruct (IH (<[x := d - 1]> ind) (if decide (d - 1 = 0) then q ++ [x] else q))
    as (ind' & new & Hf & Hind & Hnd & Hnew).
  { intros n Hn. rewrite lookup_insert. case_decide as Hxn.
    - subst n. exists (d - 1). split; [done|lia].
    - destruct (Hocc n) as (d' & Hd' & Hle'); [by right|]. rewrite occ_cons, decide_False in Hle' by done. eauto. }
  assert (d = S (occ x ns) → x ∉ ns → x ∉ new) as Hx by (intros _ ? [? _]%Hnew; done).
  exists ind', ((if decide (d - 1 = 0) then [x] else []) ++ new). split_and!.
  - rewrite Hf. case_decide; by rewrite <- ?app_assoc.
  - intros n. rewrite Hind, lookup_insert, occ_cons.
    destruct (decide (x = n)) as [->|Hne]; [|done]. rewrite Hd. simpl. f_equal. lia.
  - case_decide as Hd0; [|done]. simpl. constructor; [|done].
    rewrite Hnew. intros [Hin _]. apply occ_pos in Hin. lia.
  - intros n. rewrite elem_of_app, Hnew, elem_of_cons, lookup_insert, occ_cons.
    destruct (decide (x = n)) as [<-|Hne].
    + rewrite Hd. destruct (decide (d - 1 = 0)) as [Hd0|Hd0].
      * rewrite list_elem_of_singleton. split; intros _; [|by left].
        split; [by left|f_equal; lia].
      * rewrite elem_of_nil. split.
        -- intros [[]|[_ [= Heq]]]. split; [by left|f_equal; lia].
        -- intros [_ [= Heq]]. right. split; [apply occ_pos; lia|f_equal; lia].
    + destruct (decide (d - 1 = 0)); rewrite ?list_elem_of_singleton, ?elem_of_nil; naive_solver.
Qed.

(** * The loop invariant *)

Section Kahn.
Context (E : list (string * string)) (D : gmap string nat).

(** Every edge ends in a node of the graph, and starts in one. *)
Hypothesis nodes_closed : ∀ d x, (d, x) ∈ E → is_Some (D !! d) ∧ is_Some (D !! x).

Definition open_edges (P : list string) (x : string) : nat :=
  length (filter (λ d, d ∉ P) (sources E x)).

(** [P] has been processed, in this order; [Q] is the queue. *)
Record kahn_inv (P Q : list string) (ind : gmap string nat) : Prop := {
  inv_nodup : NoDup (P ++ Q);
  inv_degree : ∀ x, ind !! x = if decide (is_Some (D !! x)) then Some (open_edges P x) else None;
  inv_zero : ∀ x, x ∈ P ++ Q ↔ ind !! x = Some 0;
  inv_order : ∀ P1 x P2, P = P1 ++ x :: P2 → ∀ d, (d, x) ∈ E → d ∈ P1
}.

Lemma open_edges_snoc (P : list string) (s x : string) :
  s ∉ P → open_edges (P ++ [s]) x + occ x (targets E s) = open_edges P x.
Proof. intros Hs. apply sources_split; [done|]. set_solver. Qed.

Lemma open_edges_zero (P : list string) (x d : string) :
  open_edges P x = 0 → (d, x) ∈ E → d ∈ P.
Proof.
  intros H0 He. destruct (decide (d ∈ P)) as [|Hd]; [done|].
  unfold open_edges in H0. rewrite count_sources_zero in H0. by destruct (H0 d He).
Qed.

Lemma kahn_step_inv (P Q : list string) (s : string) (ind : gmap string nat) :
  kahn_inv P (s :: Q) ind →
  ∃ ind' new, foldl relax (ind, Q) (targets E s) = (ind', Q ++ new) ∧
              kahn_inv (P ++ [s]) (Q ++ new) ind'.
Proof.
  intros [Hnd Hdeg Hzero Hord].
  assert (s ∉ P) as HsP.
  { apply NoDup_app in Hnd as (_ & Hdis & _). intros Hs. apply (Hdis s Hs). by left. }
  assert (∀ x, open_edges (P ++ [s]) x + occ x (targets E s) = open_edges P x) as Hsnoc
    by (intros; by apply open_edges_snoc).
  destruct (relax_all (targets E s) ind Q) as (ind' & new & Hf & Hind & Hnew & Hin).
  { intros n Hn%elem_of_targets. exists (open_edges P n). split; [|specialize (Hsnoc n); lia].
    rewrite Hdeg, decide_True; [done|]. by apply (nodes_closed s n). }
  assert (∀ x, ind' !! x = if decide (is_Some (D !! x)) then Some (open_edges (P ++ [s]) x) else None) as Hdeg'.
  { intros x. rewrite Hind, Hdeg. case_decide; [|done]. simpl. f_equal. specialize (Hsnoc x). lia. }
  exists ind', new. split; [done|]. split.
  - replace ((P ++ [s]) ++ Q ++ new) with ((P ++ s :: Q) ++ new) by (by rewrite <- !app_assoc).
    apply NoDup_app. split_and!; [done| |done].
    intros x Hx%Hzero [Ht Hx']%Hin. rewrite Hx in Hx'. injection Hx' as Hx'. apply occ_pos in Ht. lia.
  - done.
  - intros x. replace ((P ++ [s]) ++ Q ++ new) with ((P ++ s :: Q) ++ new) by (by rewrite <- !app_assoc).
    rewrite elem_of_app, Hzero, Hin, Hdeg, Hdeg', occ_pos. specialize (Hsnoc x).
    case_decide; [|naive_solver]. split.
    + intros [[= H0]|[_ [= H0]]]; f_equal; lia.
    + intros [= H0]. destruct (decide (occ x (targets E s) = 0)); [left|right; split; [lia|]]; f_equal; lia.
  - intros P1 x P2 HP d Hd. destruct P2 as [|y P2 _] using rev_ind.
    + apply app_inj_tail in HP as [-> ->]. apply (open_edges_zero P1 x d); [|done].
      assert (ind !! x = Some 0) as H0 by (apply Hzero; set_solver).
      rewrite Hdeg in H0. case_decide; congruence.
    + rewrite app_comm_cons, app_assoc in HP. apply app_inj_tail in HP as [-> ->].
      by eapply Hord.
Qed.

Lemma kahn_inv_bound (P Q : list string) (ind : gmap string nat) :
  kahn_inv P Q ind → length (P ++ Q) ≤ size D.
Proof.
  intros [Hnd Hdeg Hzero _]. rewrite <- size_dom.
  rewrite <- (size_list_to_set (C := gset string) (P ++ Q)) by done.
  apply subseteq_size. intros x. rewrite elem_of_list_to_set, Hzero, Hdeg, elem_of_dom.
  by case_decide.
Qed.

(** The loop terminates within its fuel and ends with the processed steps. *)
Lemma kahn_loop_inv (adj : gmap string (list string)) (fuel : nat) (P Q : list string) (ind : gmap string nat) :
  (∀ d, default [] (adj !! d) = targets E d) →
  kahn_inv P Q ind → size D < fuel + length P →
  ∃ P' ind', kahn_inv P' [] ind' ∧ kahn_loop fuel adj ind Q (length P) = Some (length P').
Proof.
  intros Hadj. revert P Q ind. induction fuel as [|fuel IH]; intros P Q ind Hinv Hfuel.
  { apply kahn_inv_bound in Hinv. rewrite length_app in Hinv. simpl in *. lia. }
  destruct Q as [|s Q]; [by exists P, ind|].
  destruct (kahn_step_inv P Q s ind Hinv) as (ind' & new & Hf & Hinv').
  destruct (IH (P ++ [s]) (Q ++ new) ind' Hinv') as (P' & ind'' & Hfin & Hloop).
  { rewrite length_app. simpl. lia. }
  exists P', ind''. split; [done|]. rewrite <- Hloop, length_app, Nat.add_comm. simpl.
  specialize (Hadj s). destruct (adj !! s) as [ns|]; simpl in Hadj; rewrite <- Hadj in Hf; [by rewrite Hf|].
  simpl in Hf. injection Hf as <- Hq. by rewrite <- Hq.
Qed.

(** * What the number of processed steps says about the graph *)

Lemma processed_all_acyclic (P : list string) (ind : gmap string nat) :
  kahn_inv P [] ind → (∀ x, is_Some (D !! x) → x ∈ P) → acyclic E.
Proof.
  intros [Hnd _ _ Hord] Hall x Hx. rewrite app_nil_r in Hnd.
  assert (∀ a b, tc (edge E) a b → ∀ P1 P2, P = P1 ++ b :: P2 → a ∈ P1) as Hbefore.
  { induction 1 as [a b Hab|a b c Hab Hbc IH]; intros P1 P2 HP; [by eapply Hord|].
    apply IH in HP as Hb. apply list_elem_of_split in Hb as (A & B & ->).
    rewrite <- app_assoc in HP. simpl in HP. apply (Hord _ _ _ HP) in Hab. set_solver. }
  assert (∃ d, (d, x) ∈ E) as [d Hd].
  { clear Hbefore. induction Hx; eauto. }
  destruct (nodes_closed d x Hd) as [_ HxD]. apply Hall in HxD.
  apply list_elem_of_split in HxD as (P1 & P2 & HP).
  apply (Hbefore _ _ Hx) in HP as Hin. subst P.
  apply NoDup_app in Hnd as (_ & Hdis & _). apply (Hdis x Hin). by left.
Qed.

Lemma acyclic_processed_all (P : list string) (ind : gmap string nat) :
  kahn_inv P [] ind → acyclic E → ∀ x, is_Some (D !! x) → x ∈ P.
Proof.
  intros [_ Hdeg Hzero _] Ha.
  assert (dom D ∖ list_to_set P = (∅ : gset string)) as Hempty.
  { apply (acyclic_no_closed_set E _ Ha). intros y Hy.
    rewrite elem_of_difference, elem_of_dom, elem_of_list_to_set in Hy. destruct Hy as [HyD HyP].
    destruct (filter (λ d, d ∉ P) (sources E y)) as [|d ds] eqn:Hf.
    - destruct HyP. rewrite <- (app_nil_r P). apply Hzero. rewrite Hdeg, decide_True by done.
      unfold open_edges. by rewrite Hf.
    - assert (d ∈ filter (λ d, d ∉ P) (sources E y)) as [HdP Hd]%list_elem_of_filter by (rewrite Hf; by left).
      apply elem_of_sources in Hd. exists d. split; [|done].
      rewrite elem_of_difference, elem_of_dom, elem_of_list_to_set. split; [|done].
      by apply (nodes_closed d y). }
  intros x HxD. destruct (decide (x ∈ P)) as [|HxP]; [done|].
  assert (x ∈ (∅ : gset string)) as Hx; [|by apply elem_of_empty in Hx].
  rewrite <- Hempty. by rewrite elem_of_difference, elem_of_dom, elem_of_list_to_set.
Qed.

Lemma processed_count (P : list string) (ind : gmap string nat) :
  kahn_inv P [] ind → (length P = size D ↔ acyclic E).
Proof.
  intros Hinv. pose proof Hinv as [Hnd Hdeg Hzero _]. rewrite app_nil_r in Hnd.
  assert (∀ x, x ∈ P → is_Some (D !! x)) as Hsub.
  { intros x Hx. rewrite <- (app_nil_r P) in Hx. apply Hzero in Hx. rewrite Hdeg in Hx. by case_decide. }
  assert (list_to_set P ⊆ dom D) as Hsub'.
  { intros x. rewrite elem_of_list_to_set, elem_of_dom. auto. }
  rewrite <- size_dom, <- (size_list_to_set (C := gset string) P) by done. split.
  - intros Heq. apply (processed_all_acyclic P ind Hinv). intros x Hx.
    apply set_subseteq_size_eq in Hsub'; [|lia]. rewrite <- elem_of_dom in Hx.
    set_solver.
  - intros Ha. f_equal. apply set_eq. intros x. rewrite elem_of_list_to_set, elem_of_dom.
    split; [auto|]. by apply (acyclic_processed_all P ind).
Qed.

End Kahn.

(** * The cycle check *)

(** [depends deps d x]: step [x] lists [d] among its dependencies. *)
Definition depends (deps : gmap string (list string)) (d x : string) : Prop :=
  ∃ l, deps !! x = Some l ∧ d ∈ l.

Definition acyclic_deps (deps : gmap string (list string)) : Prop := ∀ x, ¬ tc (depends deps) x x.

Definition known_deps (sts : list string) (deps : gmap string (list string)) : Prop :=
  ∀ d x, depends deps d x → d ∈ sts.

Lemma unknown_dep_none (sts l : list string) : unknown_dep sts l = None ↔ ∀ d, d ∈ l → d ∈ sts.
Proof.
  induction l as [|d l IH]; simpl; [split; [by intros _ ? ?%elem_of_nil|done]|].
  case_decide as Hd.
  - rewrite IH. setoid_rewrite elem_of_cons. naive_solver.
  - split; [done|]. intros H. destruct Hd. apply H. by left.
Qed.

Lemma check_deps_ok (sts : list string) (entries : list (string * list string)) :
  check_deps sts entries = Ok tt ↔
  ∀ x l, (x, l) ∈ entries → (∀ d, d ∈ l → d ∈ sts) ∧ x ∉ l.
Proof.
  induction entries as [|[y dl] entries IH]; simpl; [split; [by intros _ ? ? ?%elem_of_nil|done]|].
  destruct (unknown_dep sts dl) as [d|] eqn:Hu.
  - split; [done|]. intros H. exfalso. destruct (H y dl) as [H1 _]; [by left|].
    apply unknown_dep_none in H1. congruence.
  - rewrite unknown_dep_none in Hu. case_decide as Hy.
    + split; [done|]. intros H. destruct (H y dl) as [_ ?]; [by left|done].
    + rewrite IH. split.
      * intros H x l [[= -> ->]|Hin]%elem_of_cons; [done|by apply H].
      * intros H x l Hin. apply H. by right.
Qed.

Section Validate.
Context {HI : HashIter} (sts : list string) (deps : gmap string (list string)).

Lemma edge_depends (d x : string) : edge (edges (hm_iter deps)) d x ↔ depends deps d x.
Proof. unfold edge, depends. rewrite elem_of_edges. by setoid_rewrite elem_of_hm_iter. Qed.

Lemma tc_edge_depends (x y : string) : tc (edge (edges (hm_iter deps))) x y ↔ tc (depends deps) x y.
Proof.
  split; induction 1; [apply tc_once|eapply tc_l|apply tc_once|eapply tc_l];
    eauto; by apply edge_depends.
Qed.

Lemma acyclic_edges : acyclic (edges (hm_iter deps)) ↔ acyclic_deps deps.
Proof. unfold acyclic, acyclic_deps. by setoid_rewrite tc_edge_depends. Qed.

(** Every key of the dependency map is a step. *)
Hypothesis keys_known : ∀ x, is_Some (deps !! x) → x ∈ sts.

Lemma kahn_degrees_dom : dom (kahn_degrees sts deps) = list_to_set sts.
Proof.
  apply set_eq. intros x. rewrite elem_of_dom, elem_of_list_to_set, kahn_degrees_lookup.
  case_decide as Hx; [|naive_solver]. split; [|eauto]. intros _.
  destruct Hx as [|Hx]; [done|]. apply keys_known.
  destruct (deps !! x) as [l|] eqn:Hl; [eauto|]. destruct Hx. apply indeg_edges_none.
  intros l. rewrite elem_of_hm_iter. congruence.
Qed.

Lemma kahn_init_inv : kahn_inv (edges (hm_iter deps)) (kahn_degrees sts deps) []
  (kahn_start (kahn_degrees sts deps)) (kahn_degrees sts deps).
Proof.
  assert (∀ x, x ∈ kahn_start (kahn_degrees sts deps) ↔ kahn_degrees sts deps !! x = Some 0) as Hstart.
  { intros x. unfold kahn_start. rewrite list_elem_of_fmap. split.
    - intros ([y v] & -> & [Hv Hin]%list_elem_of_filter). simpl in *. subst v. by apply elem_of_hm_iter.
    - intros Hx. exists (x, 0). split; [done|]. apply list_elem_of_filter. split; [done|]. by apply elem_of_hm_iter. }
  split.
  - simpl. unfold kahn_start. apply NoDup_fst_filter, NoDup_hm_iter_keys.
  - intros x. rewrite kahn_degrees_lookup. unfold open_edges.
    rewrite filter_all by (apply Forall_forall; intros; apply not_elem_of_nil).
    fold (indeg (edges (hm_iter deps)) x). repeat case_decide; naive_solver.
  - done.
  - intros P1 x P2 H. by destruct P1.
Qed.

(** Kahn's loop always returns within the fuel [validate_dag] gives it. *)
Lemma kahn_terminates :
  known_deps sts deps →
  ∃ P ind, kahn_inv (edges (hm_iter deps)) (kahn_degrees sts deps) P [] ind ∧
    kahn_loop (S (size (kahn_degrees sts deps))) (kahn_adj sts deps) (kahn_degrees sts deps)
      (kahn_start (kahn_degrees sts deps)) 0 = Some (length P).
Proof.
  intros Hknown.
  apply (kahn_loop_inv _ _) with (P := []) (Q := kahn_start (kahn_degrees sts deps)).
  - intros d x Hdx%edge_depends. rewrite <- !elem_of_dom, kahn_degrees_dom, !elem_of_list_to_set.
    split; [by eapply Hknown|]. destruct Hdx as (l & Hl & _). eauto.
  - apply kahn_adj_targets.
  - apply kahn_init_inv.
  - simpl. lia.
Qed.

Lemma kahn_count (known : known_deps sts deps) (P : list string) (ind : gmap string nat) :
  kahn_inv (edges (hm_iter deps)) (kahn_degrees sts deps) P [] ind →
  (length P = size (kahn_degrees sts deps) ↔ acyclic_deps deps).
Proof.
  rewrite <- acyclic_edges. apply processed_count.
  intros d x Hdx%edge_depends. rewrite <- !elem_of_dom, kahn_degrees_dom, !elem_of_list_to_set.
  split; [by eapply known|]. destruct Hdx as (l & Hl & _). eauto.
Qed.

End Validate.

(** * Theorem *)

(** What an accepted graph is known to satisfy. *)
Lemma validate_dag_sound {HI : HashIter} (sts : list string) (deps : gmap string (list string)) :
  (∀ x, is_Some (deps !! x) → x ∈ sts) →
  validate_dag sts deps = Ok tt → NoDup sts ∧ known_deps sts deps ∧ acyclic_deps deps.
Proof.
  intros keys_known. unfold validate_dag.
  destruct (check_deps sts (hm_iter deps)) as [[]|err] eqn:Hc; cbn [result_bind]; [|done].
  assert (known_deps sts deps) as Hk.
  { intros d x (l & Hl & Hd). rewrite check_deps_ok in Hc. apply (Hc x l); [by apply elem_of_hm_iter|done]. }
  destruct (kahn_terminates sts deps keys_known Hk) as (P & ind & Hinv & ->).
  rewrite <- (kahn_count sts deps keys_known Hk P ind Hinv).
  apply kahn_inv_bound in Hinv. rewrite app_nil_r in Hinv.
  rewrite <- size_dom, (kahn_degrees_dom sts deps keys_known) in *. case_decide as Hlen; [|done]. intros _.
  assert (NoDup sts) as Hnd by (apply NoDup_size_list_to_set; lia).
  by rewrite size_list_to_set.
Qed.

Lemma validate_dag_complete {HI : HashIter} (sts : list string) (deps : gmap string (list string)) :
  (∀ x, is_Some (deps !! x) → x ∈ sts) →
  NoDup sts → known_deps sts deps → acyclic_deps deps → validate_dag sts deps = Ok tt.
Proof.
  intros keys_known Hnd Hk Ha. unfold validate_dag.
  assert (check_deps sts (hm_iter deps) = Ok tt) as ->.
  { apply check_deps_ok. intros x l Hin%elem_of_hm_iter. split.
    - intros d Hd. apply (Hk d x). by exists l.
    - intros Hx. apply (Ha x). apply tc_once. by exists l. }
  cbn [result_bind]. destruct (kahn_terminates sts deps keys_known Hk) as (P & ind & Hinv & ->).
  rewrite decide_True; [done|]. apply (kahn_count sts deps keys_known Hk P ind Hinv) in Ha.
  by rewrite Ha, <- size_dom, (kahn_degrees_dom sts deps keys_known), size_list_to_set.
Qed.

(** C1: For a dependency map over the given steps, the cycle check accepts iff
    the step identifiers are distinct, every dependency is one of the steps,
    and no step depends on itself through any chain of dependencies,
    whatever order the hash maps are iterated in. *)
Theorem validate_dag_correct {HI : HashIter} (sts : list string) (deps : gmap string (list string))
    (keys_known : ∀ x, is_Some (deps !! x) → x ∈ sts) :
  validate_dag sts deps = Ok tt ↔ NoDup sts ∧ known_deps sts deps ∧ acyclic_deps deps.
Proof.
  split; [by apply validate_dag_sound|]. intros (? & ? & ?). by apply validate_dag_complete.
Qed.

(** * Witness and limits *)

Lemma validate_dag_correct_witness :
  validate_dag ["a"; "b"; "c"; "d"] demo_deps = Ok tt ∧
  (NoDup ["a"; "b"; "c"; "d"] ∧ known_deps ["a"; "b"; "c"; "d"] demo_deps ∧ acyclic_deps demo_deps).
Proof.
  assert (validate_dag ["a"; "b"; "c"; "d"] demo_deps = Ok tt) as H by reflexivity.
  split; [exact H|]. revert H. apply (validate_dag_correct ["a"; "b"; "c"; "d"] demo_deps).
  intros x [l Hl]. unfold demo_deps in Hl. rewrite !lookup_insert, lookup_singleton in Hl.
  rewrite !elem_of_cons. repeat case_decide; subst; auto; discriminate.
Defined.

(** The number of processed steps is compared with the number of listed
    steps only, so a map with keys that are not steps can make up for the
    steps of a cycle. *)
Theorem foreign_keys_hide_cycle :
  let deps := {[ "b" := ["c"]; "c" := ["b"]; "x" := ["a"]; "y" := ["a"] ]} in
  validate_dag ["a"; "b"; "c"] deps = Ok tt ∧ ¬ acyclic_deps deps.
Proof.
  split; [reflexivity|]. intros Ha. apply (Ha "b"). apply tc_l with "c"; [|apply tc_once].
  - exists ["b"]. split; [reflexivity|by left].
  - exists ["c"]. split; [reflexivity|by left].
Qed.
