(* ===== verification/SchedulerRun.v ===== *)
(** Running the scheduler.

    The states that the scheduler reaches when steps are started, completed
    and failed the way the orchestration loop does: only ready steps are
    started, only running steps complete, only ready or running steps fail. *)
From stdpp Require Import gmap strings list fin_maps relations.
From Stdlib Require Import Lia.
From S2P Require Import Prelude Scheduler SchedulerKahn.

(** * The transitions *)

Inductive sched_step : DagScheduler → DagScheduler → Prop :=
| step_start x s : states s !! x = Some Ready → sched_step s (mark_running x s)
| step_complete x s : states s !! x = Some Running → sched_step s (mark_completed x s).1
| step_fail x s :
    states s !! x = Some Ready ∨ states s !! x = Some Running → sched_step s (mark_failed x s).1.

Definition reachable {HI : HashIter} (sts : list string) (deps : gmap string (list string))
    (s : DagScheduler) : Prop :=
  ∃ s0, new sts deps = Ok s0 ∧ rtc sched_step s0 s.

(** * The invariant *)

(** How many edges into [x] come from a step that has not completed. *)
Definition waiting_on (E : list (string * string)) (sts : gmap string StepState) (x : string) : nat :=
  length (filter (λ d, sts !! d ≠ Some Completed) (sources E x)).

Definition active (st : StepState) : Prop :=
  st = Ready ∨ st = Running ∨ st = Completed ∨ st = Failed.

Definition doomed (st : StepState) : Prop := st = Failed ∨ st = Blocked.

Record sched_inv (E : list (string * string)) (s : DagScheduler) : Prop := {
  si_nodup : NoDup (steps s);
  si_states : ∀ x, is_Some (states s !! x) ↔ x ∈ steps s;
  si_edges : ∀ d x, (d, x) ∈ E → d ∈ steps s ∧ x ∈ steps s;
  si_deps : ∀ d, default [] (dependents s !! d) = targets E d;
  si_degree : ∀ x, x ∈ steps s → in_degrees s !! x = Some (waiting_on E (states s) x);
  si_waiting : ∀ x, states s !! x = Some Pending → 0 < waiting_on E (states s) x;
  si_active : ∀ x st, states s !! x = Some st → active st → waiting_on E (states s) x = 0;
  si_poison : ∀ d x st, (d, x) ∈ E → states s !! d = Some st → doomed st → states s !! x = Some Blocked;
  si_blame : ∀ x, states s !! x = Some Blocked → ∃ f, states s !! f = Some Failed ∧ tc (edge E) f x
}.

(** * The loops *)

(** The hypothesis and the result of [release_all], one decrement on. *)
Lemma occ_decrement (x : string) (ns : list string) (degs : gmap string nat) (d : nat) :
  degs !! x = Some d →
  (∀ n, n ∈ x :: ns → ∃ d', degs !! n = Some d' ∧ occ n (x :: ns) ≤ d') →
  (∀ n, n ∈ ns → ∃ d', <[x := d - 1]> degs !! n = Some d' ∧ occ n ns ≤ d') ∧
  (∀ n, (λ d', d' - occ n ns) <$> <[x := d - 1]> degs !! n =
        (λ d', d' - occ n (x :: ns)) <$> degs !! n).
Proof.
  intros Hd Hocc. split; intros n.
  - intros Hn. destruct (Hocc n) as (d' & Hd' & Hle); [by right|]. rewrite occ_cons in Hle.
    rewrite lookup_insert. destruct (decide (x = n)) as [->|Hne]; [|eauto].
    exists (d - 1). split; [done|]. assert (d = d') by congruence. lia.
  - rewrite lookup_insert, occ_cons.
    destruct (decide (x = n)) as [->|Hne]; [|done]. rewrite Hd. simpl. f_equal. lia.
Qed.

(** Releasing the dependents of a completed step, as for [relax_all]: the
    degrees drop by the occurrences, and the pending steps whose degree
    reaches zero become ready, each reported once. *)
Lemma release_all (ns : list string) (degs : gmap string nat) (sts : gmap string StepState) (nr : list string) :
  (∀ n, n ∈ ns → ∃ d, degs !! n = Some d ∧ occ n ns ≤ d) →
  ∃ degs' sts' newly,
    foldl release (degs, sts, nr) ns = (degs', sts', nr ++ newly) ∧
    (∀ n, degs' !! n = (λ d, d - occ n ns) <$> degs !! n) ∧
    (∀ n, sts' !! n = if decide (n ∈ newly) then Some Ready else sts !! n) ∧
    NoDup newly ∧
    (∀ n, n ∈ newly ↔ n ∈ ns ∧ degs !! n = Some (occ n ns) ∧ sts !! n = Some Pending).
Proof.
  revert degs sts nr. induction ns as [|x ns IH]; intros degs sts nr Hocc.
  { exists degs, sts, []. split_and!; [by rewrite app_nil_r| | |constructor|].
    - intros n. destruct (degs !! n); simpl; f_equal. unfold occ. simpl. lia.
    - done.
    - intros n. split; [by intros ?%elem_of_nil|by intros [?%elem_of_nil _]]. }
  destruct (Hocc x) as (d & Hd & Hle); [by left|].
  rewrite occ_cons, decide_True in Hle by done.
  destruct (occ_decrement x ns degs d Hd Hocc) as [Hocc' Hsub].
  cbn [foldl]. unfold release at 2. rewrite Hd.
  destruct (decide (d - 1 = 0 ∧ sts !! x = Some Pending)) as [[Hd0 Hx]|Hno].
  - destruct (IH (<[x := d - 1]> degs) (<[x := Ready]> sts) (nr ++ [x]) Hocc')
      as (degs' & sts' & newly & Hf & Hdeg & Hst & Hnd & Hin).
    assert (x ∉ newly) as Hxn.
    { rewrite Hin, occ_pos. intros [? _]. lia. }
    exists degs', sts', (x :: newly). split_and!.
    + rewrite Hf. by rewrite <- app_assoc.
    + intros n. by rewrite Hdeg, Hsub.
    + intros n. rewrite Hst, lookup_insert. destruct (decide (x = n)) as [->|Hne].
      * rewrite (decide_True (P := n ∈ n :: newly)) by (by left). by case_decide.
      * destruct (decide (n ∈ newly)) as [Hn|Hn].
        -- by rewrite (decide_True (P := n ∈ x :: newly)) by (by right).
        -- by rewrite (decide_False (P := n ∈ x :: newly)) by (rewrite elem_of_cons; naive_solver).
    + by constructor.
    + intros n. rewrite !elem_of_cons, Hin, !lookup_insert, occ_cons.
      destruct (decide (x = n)) as [->|Hne].
      * split; [intros _|by left]. split_and!; [by left|rewrite Hd; f_equal; lia|done].
      * naive_solver.
  - destruct (IH (<[x := d - 1]> degs) sts nr Hocc')
      as (degs' & sts' & newly & Hf & Hdeg & Hst & Hnd & Hin).
    exists degs', sts', newly. split_and!; [done| |done|done|].
    + intros n. by rewrite Hdeg, Hsub.
    + intros n. rewrite Hin, elem_of_cons, lookup_insert, occ_cons.
      destruct (decide (x = n)) as [->|Hne]; [|naive_solver].
      rewrite Hd, occ_pos. split.
      * intros (Hp & [= Heq] & Hs). split_and!; [by left|f_equal; lia|done].
      * intros (_ & [= Heq] & Hs). split_and!; [|f_equal; lia|done].
        destruct (decide (occ n ns = 0)); [|lia]. destruct Hno. split; [lia|done].
Qed.

(** What the unvisited steps may still add to the queue. *)
Definition unvisited_sum (l : list (string * list string)) (visited : gset string) : nat :=
  sum_list_with (λ kv, if decide (kv.1 ∈ visited) then 0 else length kv.2) l.

Lemma unvisited_sum_none (l : list (string * list string)) (visited : gset string) (x : string) :
  x ∉ l.*1 → unvisited_sum l ({[x]} ∪ visited) = unvisited_sum l visited.
Proof.
  unfold unvisited_sum. induction l as [|[k v] l IH]; intros Hx; [done|].
  rewrite fmap_cons, not_elem_of_cons in Hx. destruct Hx as [Hk Hx]. simpl in *.
  rewrite IH by done. f_equal. destruct (decide (k ∈ visited)).
  - by rewrite decide_True by set_solver.
  - by rewrite decide_False by set_solver.
Qed.

Lemma unvisited_sum_visit (l : list (string * list string)) (visited : gset string) (x : string) (v : list string) :
  NoDup l.*1 → (x, v) ∈ l → x ∉ visited →
  unvisited_sum l ({[x]} ∪ visited) + length v = unvisited_sum l visited.
Proof.
  induction l as [|[k w] l IH]; intros Hnd Hin Hx; [by apply elem_of_nil in Hin|].
  rewrite fmap_cons, NoDup_cons in Hnd. destruct Hnd as [Hk Hnd].
  unfold unvisited_sum. simpl. fold (unvisited_sum l ({[x]} ∪ visited)) (unvisited_sum l visited).
  apply elem_of_cons in Hin as [[= -> ->]|Hin].
  - rewrite unvisited_sum_none, decide_True, decide_False by set_solver. lia.
  - rewrite <- (IH Hnd Hin Hx). assert (k ≠ x) as Hkx.
    { intros ->. apply Hk. apply list_elem_of_fmap. by exists (x, v). }
    destruct (decide (k ∈ visited)).
    + rewrite decide_True by set_solver. lia.
    + rewrite decide_False by set_solver. lia.
Qed.

Definition unblocked (st : option StepState) : Prop := st = Some Pending ∨ st = Some Ready.

#[export] Instance unblocked_dec (st : option StepState) : Decision (unblocked st).
Proof. unfold unblocked. apply _. Defined.

Lemma cascade_visit (fuel : nat) (deps : gmap string (list string)) (ds : string) (queue : list string)
    (visited : gset string) (sts : gmap string StepState) (blocked : list string) :
  ds ∉ visited →
  let hit := bool_decide (unblocked (sts !! ds)) in
  cascade (S fuel) deps (ds :: queue) visited sts blocked =
  cascade fuel deps (queue ++ default [] (deps !! ds)) ({[ds]} ∪ visited)
    (if hit then <[ds := Blocked]> sts else sts) (blocked ++ if hit then [ds] else []).
Proof.
  intros Hv hit. subst hit. cbn [cascade]. rewrite decide_False by done.
  case_bool_decide as Hu; unfold unblocked in Hu.
  - by rewrite decide_True.
  - by rewrite decide_False, app_nil_r.
Qed.

(** Visiting a step moves its targets from the steps to visit to the queue. *)
Lemma unvisited_sum_step (E : list (string * string)) (deps : gmap string (list string))
    (visited : gset string) (ds : string) :
  (∀ d, default [] (deps !! d) = targets E d) → ds ∉ visited →
  length (targets E ds) + unvisited_sum (map_to_list deps) ({[ds]} ∪ visited) ≤
    unvisited_sum (map_to_list deps) visited.
Proof.
  intros Hdeps Hv. specialize (Hdeps ds). destruct (deps !! ds) as [v|] eqn:Hds; simpl in Hdeps; rewrite <- Hdeps.
  - rewrite <- (unvisited_sum_visit (map_to_list deps) visited ds v);
      [lia|apply NoDup_fst_map_to_list|by apply elem_of_map_to_list|done].
  - rewrite unvisited_sum_none; [simpl; lia|]. rewrite list_elem_of_fmap. intros ([k v] & Hk & Hkv).
    simpl in Hk. subst k. apply elem_of_map_to_list in Hkv. congruence.
Qed.

Lemma block_hit_lookup (hit : bool) (ds n : string) (sts : gmap string StepState) :
  (if hit then <[ds := Blocked]> sts else sts) !! n =
    if decide (n ∈ if hit then [ds] else []) then Some Blocked else sts !! n.
Proof.
  destruct hit; [|done]. rewrite lookup_insert.
  destruct (decide (ds = n)) as [->|]; [by rewrite decide_True by set_solver|].
  by rewrite decide_False by set_solver.
Qed.

(** The cascade visits, beyond what it visited before, exactly the steps
    reachable from its queue, blocks those that were still to run and
    reports each of them once. *)
Lemma cascade_spec (E : list (string * string)) (deps : gmap string (list string)) (fuel : nat)
    (queue : list string) (visited : gset string) (sts : gmap string StepState) (blocked : list string) :
  (∀ d, default [] (deps !! d) = targets E d) →
  length queue + unvisited_sum (map_to_list deps) visited < fuel →
  ∃ sts' newly (V : gset string),
    cascade fuel deps queue visited sts blocked = Some (sts', blocked ++ newly) ∧
    visited ⊆ V ∧ (∀ n, n ∈ queue → n ∈ V) ∧
    (∀ n m, n ∈ V → n ∉ visited → (n, m) ∈ E → m ∈ V) ∧
    (∀ n, n ∈ V → n ∉ visited → ∃ q, q ∈ queue ∧ rtc (edge E) q n) ∧
    (∀ n, sts' !! n = if decide (n ∈ newly) then Some Blocked else sts !! n) ∧
    NoDup newly ∧
    (∀ n, n ∈ newly ↔ n ∈ V ∧ n ∉ visited ∧ unblocked (sts !! n)).
Proof.
  intros Hdeps. revert queue visited sts blocked.
  induction fuel as [|fuel IH]; intros queue visited sts blocked Hfuel; [lia|].
  destruct queue as [|ds queue].
  { exists sts, [], visited. simpl. split_and!; try done; [by rewrite app_nil_r|by intros n ?%elem_of_nil|constructor|].
    intros n. split; [by intros ?%elem_of_nil|naive_solver]. }
  destruct (decide (ds ∈ visited)) as [Hv|Hv].
  - destruct (IH queue visited sts blocked) as (sts' & newly & V & Hc & Hsub & Hq & Hcl & Hr & Hst & Hnd & Hin).
    { simpl in Hfuel. lia. }
    exists sts', newly, V. split_and!; try done.
    + cbn [cascade]. by rewrite decide_True.
    + intros n [->|Hn]%elem_of_cons; auto.
    + intros n Hn Hnv. destruct (Hr n Hn Hnv) as (q & Hq' & ?). exists q. split; [by right|done].
  - set (hit := bool_decide (unblocked (sts !! ds))).
    set (sts1 := if hit then <[ds := Blocked]> sts else sts).
    destruct (IH (queue ++ targets E ds) ({[ds]} ∪ visited) sts1 (blocked ++ if hit then [ds] else []))
      as (sts' & newly & V & Hc & Hsub & Hq & Hcl & Hr & Hst & Hnd & Hin).
    { pose proof (unvisited_sum_step E deps visited ds Hdeps Hv).
      rewrite length_app. simpl in Hfuel. lia. }
    exists sts', ((if hit then [ds] else []) ++ newly), V.
    assert (ds ∈ V) as HdsV by set_solver.
    assert (∀ n, n ∈ (if hit then [ds] else []) ↔ n = ds ∧ unblocked (sts !! ds)) as Hhit.
    { intros n. subst hit. case_bool_decide; rewrite ?list_elem_of_singleton, ?elem_of_nil; naive_solver. }
    assert (ds ∉ newly) as Hdsn by (rewrite Hin; set_solver).
    split_and!.
    + rewrite cascade_visit by done. fold hit sts1. by rewrite Hdeps, Hc, app_assoc.
    + set_solver.
    + set_solver.
    + intros n m Hn Hnv Hnm. destruct (decide (n = ds)) as [->|Hne].
      * apply Hq. apply elem_of_app. right. by apply elem_of_targets.
      * eapply Hcl; [done|set_solver|done].
    + intros n Hn Hnv. destruct (decide (n = ds)) as [->|Hne]; [exists ds; split; [by left|done]|].
      destruct (Hr n Hn) as (q & [Hq'|Hq']%elem_of_app & Hqn); [set_solver|exists q; split; [by right|done]|].
      exists ds. split; [by left|]. eapply rtc_l; [|done]. by apply elem_of_targets.
    + intros n. rewrite Hst. unfold sts1. rewrite block_hit_lookup.
      destruct (decide (n ∈ newly)); [by rewrite decide_True by set_solver|].
      destruct (decide (n ∈ if hit then [ds] else [])); [by rewrite decide_True by set_solver|].
      by rewrite decide_False by set_solver.
    + apply NoDup_app. split_and!; [destruct hit; repeat constructor; by apply not_elem_of_nil| |done].
      intros n [-> _]%Hhit. done.
    + intros n. rewrite elem_of_app, Hhit, Hin. unfold sts1. rewrite block_hit_lookup.
      destruct (decide (n = ds)) as [->|Hne]; [set_solver|].
      rewrite decide_False by (rewrite Hhit; naive_solver). set_solver.
Qed.

(** * What each operation does to an invariant state *)

Lemma waiting_on_ext (E : list (string * string)) (sts sts' : gmap string StepState) (x : string) :
  (∀ d, sts' !! d = Some Completed ↔ sts !! d = Some Completed) →
  waiting_on E sts' x = waiting_on E sts x.
Proof.
  intros H. unfold waiting_on. f_equal. apply list_filter_iff. intros d. by rewrite H.
Qed.

Lemma waiting_on_zero (E : list (string * string)) (sts : gmap string StepState) (x : string) :
  waiting_on E sts x = 0 ↔ ∀ d, (d, x) ∈ E → sts !! d = Some Completed.
Proof.
  unfold waiting_on. rewrite count_sources_zero. split; intros H d Hd; specialize (H d Hd).
  - destruct (decide (sts !! d = Some Completed)); tauto.
  - tauto.
Qed.

Lemma lookup_set_state (sts : gmap string StepState) (x n : string) (st old : StepState) :
  sts !! x = Some old → set_state x st sts !! n = if decide (n = x) then Some st else sts !! n.
Proof.
  intros Hx. unfold set_state. rewrite Hx, lookup_insert.
  destruct (decide (x = n)); [by rewrite decide_True|by rewrite decide_False].
Qed.

Section Operations.
Context (E : list (string * string)) (s : DagScheduler).
Hypothesis inv : sched_inv E s.

(** Nothing below a step that has not completed has become ready. *)
Lemma below_unfinished (d x : string) (st : StepState) :
  states s !! d = Some st → st ≠ Completed → (d, x) ∈ E →
  states s !! x = Some Pending ∨ states s !! x = Some Blocked.
Proof.
  intros Hd Hst He. destruct (si_edges _ _ inv d x He) as [_ Hx].
  apply (si_states _ _ inv) in Hx as [[] Hx]; rewrite Hx; auto;
    pose proof (si_active _ _ inv x _ Hx) as Ha;
    (rewrite waiting_on_zero in Ha; unfold active in Ha; rewrite (Ha ltac:(auto) d He) in Hd; naive_solver).
Qed.

Lemma descendants_unfinished (x n : string) (st : StepState) :
  states s !! x = Some st → st ≠ Completed → tc (edge E) x n →
  states s !! n = Some Pending ∨ states s !! n = Some Blocked.
Proof.
  intros Hx Hst Htc. revert st Hx Hst. induction Htc as [x y Hxy|x y z Hxy _ IH]; intros st Hx Hst.
  - by eapply below_unfinished.
  - destruct (below_unfinished x y st Hx Hst Hxy) as [Hy|Hy]; by eapply IH.
Qed.

Lemma not_own_descendant (x : string) (st : StepState) :
  states s !! x = Some st → active st → st ≠ Completed → ¬ tc (edge E) x x.
Proof.
  intros Hx Ha Hst Htc. destruct (descendants_unfinished x x st Hx Hst Htc) as [H|H];
    rewrite H in Hx; unfold active in Ha; naive_solver.
Qed.

(** Failing a step blocks exactly its descendants, and reports those that
    were still pending, once each. *)
Lemma mark_failed_effect (x : string) (st : StepState) :
  states s !! x = Some st → active st → st ≠ Completed →
  let s' := (mark_failed x s).1 in
  steps s' = steps s ∧ dependents s' = dependents s ∧ in_degrees s' = in_degrees s ∧
  (∃ V : gset string, (∀ n, n ∈ V ↔ tc (edge E) x n) ∧
     ∀ n, states s' !! n = if decide (n ∈ V) then Some Blocked
                           else if decide (n = x) then Some Failed else states s !! n) ∧
  NoDup (mark_failed x s).2 ∧
  (∀ n, n ∈ (mark_failed x s).2 ↔ tc (edge E) x n ∧ states s !! n = Some Pending).
Proof.
  intros Hx Ha Hst s'. subst s'. unfold mark_failed.
  set (sts0 := set_state x Failed (states s)). set (queue := default [] (dependents s !! x)).
  assert (queue = targets E x) as Hqueue by apply (si_deps _ _ inv).
  destruct (cascade_spec E (dependents s) (cascade_fuel (dependents s) queue) queue ∅ sts0 [])
    as (sts' & newly & V & Hc & _ & Hq & Hcl & Hr & Hst' & Hnd & Hin).
  { apply (si_deps _ _ inv). }
  { unfold cascade_fuel, unvisited_sum. apply Nat.lt_succ_r, Nat.add_le_mono_l.
    apply Nat.eq_le_incl. induction (map_to_list (dependents s)) as [|kv l IH]; [done|].
    simpl. rewrite decide_False by set_solver. by rewrite IH. }
  rewrite Hc. simpl.
  assert (∀ n, n ∈ V ↔ tc (edge E) x n) as HV.
  { intros n. split.
    - intros Hn. destruct (Hr n Hn) as (q & Hq' & Hqn); [set_solver|].
      rewrite Hqueue, elem_of_targets in Hq'. by eapply tc_rtc_r; [apply tc_once|].
    - intros Htc. assert (∀ a b, rtc (edge E) a b → a ∈ V → b ∈ V) as Hclosed.
      { induction 1 as [|a b c Hab _ IH]; [done|]. intros Ha'. apply IH. eapply Hcl; [done|set_solver|done]. }
      assert (∃ q, edge E x q ∧ rtc (edge E) q n) as (q & Hxq & Hqn).
      { destruct Htc as [?|? q ? ? ?]; [by eexists|]. exists q. split; [done|by apply tc_rtc]. }
      apply (Hclosed q n Hqn). apply Hq. rewrite Hqueue. by apply elem_of_targets. }
  assert (∀ n, sts0 !! n = if decide (n = x) then Some Failed else states s !! n) as Hsts0
    by (intros n; by apply lookup_set_state with st).
  assert (∀ n, tc (edge E) x n → sts0 !! n = states s !! n) as Hdesc.
  { intros n Hn. rewrite Hsts0, decide_False; [done|]. intros ->. by apply (not_own_descendant x st). }
  assert (∀ n, n ∈ newly ↔ tc (edge E) x n ∧ states s !! n = Some Pending) as Hnewly.
  { intros n. rewrite Hin, HV. split.
    - intros (Hn & _ & Hu). rewrite Hdesc in Hu by done. split; [done|].
      destruct (descendants_unfinished x n st Hx Hst Hn) as [H|H]; [done|].
      rewrite H in Hu. destruct Hu; congruence.
    - intros [Hn Hp]. split_and!; [done|set_solver|]. left. by rewrite Hdesc. }
  split_and!; try done.
  exists V. split; [done|]. intros n. rewrite Hst'.
  destruct (decide (n ∈ newly)) as [Hn|Hnn], (decide (n ∈ V)) as [Hn'|Hn']; try done.
  - by apply Hin in Hn as [? _].
  - apply HV in Hn'. rewrite Hdesc by done.
    destruct (descendants_unfinished x n st Hx Hst Hn') as [H|H]; [|done].
    destruct Hnn. by apply Hnewly.
Qed.

(** Completing a step makes ready, and reports once each, exactly the
    pending steps whose dependencies are now all completed. *)
Lemma mark_completed_effect (x : string) (st : StepState) :
  states s !! x = Some st → active st → st ≠ Completed →
  let s' := (mark_completed x s).1 in
  let newly := (mark_completed x s).2 in
  steps s' = steps s ∧ dependents s' = dependents s ∧
  (∀ n, n ∈ steps s → in_degrees s' !! n = Some (waiting_on E (states s') n)) ∧
  (∀ n, waiting_on E (states s') n + occ n (targets E x) = waiting_on E (states s) n) ∧
  (∀ n, states s' !! n = if decide (n = x) then Some Completed
                         else if decide (n ∈ newly) then Some Ready else states s !! n) ∧
  NoDup newly ∧
  (∀ n, n ∈ newly ↔ states s !! n = Some Pending ∧ n ∈ targets E x ∧ waiting_on E (states s') n = 0).
Proof.
  intros Hx Ha Hst s' newly. subst s' newly. unfold mark_completed.
  set (sts0 := set_state x Completed (states s)).
  assert (∀ n, sts0 !! n = if decide (n = x) then Some Completed else states s !! n) as Hsts0
    by (intros n; by apply lookup_set_state with st).
  assert (∀ n, waiting_on E sts0 n + occ n (targets E x) = waiting_on E (states s) n) as Hsplit.
  { intros n. unfold waiting_on. apply sources_split.
    - rewrite Hx. congruence.
    - intros d. rewrite Hsts0. case_decide; naive_solver. }
  destruct (release_all (targets E x) (in_degrees s) sts0 [])
    as (degs' & sts' & newly & Hf & Hdeg & Hst' & Hnd & Hin).
  { intros n Hn%elem_of_targets. destruct (si_edges _ _ inv x n Hn) as [_ Hn'].
    exists (waiting_on E (states s) n). split; [by apply (si_degree _ _ inv)|]. specialize (Hsplit n). lia. }
  assert (match dependents s !! x with
          | Some downstream => foldl release (in_degrees s, sts0, []) downstream
          | None => (in_degrees s, sts0, [])
          end = (degs', sts', newly)) as ->.
  { pose proof (si_deps _ _ inv x) as Hd. destruct (dependents s !! x) as [l|]; simpl in Hd; subst; [done|].
    by rewrite <- Hd in Hf. }
  simpl. assert (x ∉ newly) as Hxn.
  { rewrite Hin, Hsts0, decide_True by done. intros (_ & _ & ?). congruence. }
  assert (∀ n, waiting_on E sts' n = waiting_on E sts0 n) as Hw.
  { intros n. apply waiting_on_ext. intros d. rewrite Hst'. destruct (decide (d ∈ newly)) as [Hd|Hd]; [|done].
    apply Hin in Hd as (_ & _ & Hd). rewrite Hd. naive_solver. }
  split_and!; try done.
  - intros n Hn. rewrite Hdeg, (si_degree _ _ inv) by done. simpl. f_equal. specialize (Hsplit n). rewrite Hw. lia.
  - intros n. by rewrite Hw.
  - intros n. rewrite Hst', Hsts0. destruct (decide (n = x)) as [->|]; [by rewrite decide_False|done].
  - intros n. rewrite Hin, Hsts0, Hw. specialize (Hsplit n). destruct (decide (n = x)) as [->|Hne].
    + split; [by intros (_ & _ & ?)|]. intros (Hp & _). unfold active in Ha. naive_solver.
    + split.
      * intros (Ht & Hd & Hp). split_and!; [done|done|]. apply elem_of_targets in Ht as He.
        rewrite (si_degree _ _ inv) in Hd by (by apply (si_edges _ _ inv x n)). injection Hd. lia.
      * intros (Hp & Ht & H0). split_and!; [done| |done]. apply elem_of_targets in Ht as He.
        rewrite (si_degree _ _ inv) by (by apply (si_edges _ _ inv x n)). f_equal. lia.
Qed.

End Operations.

(** * The invariant holds in every reachable state *)

Lemma mark_running_inv (E : list (string * string)) (s : DagScheduler) (x : string) :
  sched_inv E s → states s !! x = Some Ready → sched_inv E (mark_running x s).
Proof.
  intros inv Hx.
  assert (∀ n, states (mark_running x s) !! n = if decide (n = x) then Some Running else states s !! n) as Hst
    by (intros n; by apply lookup_set_state with Ready).
  assert (∀ n, waiting_on E (states (mark_running x s)) n = waiting_on E (states s) n) as Hw.
  { intros n. apply waiting_on_ext. intros d. rewrite Hst. case_decide; [subst; rewrite Hx|]; naive_solver. }
  destruct inv as [Hnd Hdom Hed Hdeps Hdeg Hwait Hact Hpoi Hbl]. split; try done.
  - intros n. rewrite Hst, <- Hdom. case_decide; [subst; rewrite Hx|]; naive_solver.
  - intros n Hn. rewrite Hw. by apply Hdeg.
  - intros n. rewrite Hst, Hw. case_decide; [done|]. apply Hwait.
  - intros n st. rewrite Hst, Hw. case_decide; [|apply Hact]. subst n. intros _ _. eapply Hact; [done|by left].
  - intros d n st He. rewrite !Hst. intros Hd Hdoom. destruct (decide (d = x)) as [->|].
    + destruct Hdoom; congruence.
    + pose proof (Hpoi d n st He Hd Hdoom) as Hn. rewrite decide_False; [done|]. intros ->. congruence.
  - intros n. rewrite Hst. case_decide; [done|]. intros Hn. destruct (Hbl n Hn) as (f & Hf & Hfn).
    exists f. rewrite Hst, decide_False; [done|]. intros ->. congruence.
Qed.

Lemma mark_completed_inv (E : list (string * string)) (s : DagScheduler) (x : string) :
  sched_inv E s → states s !! x = Some Running → sched_inv E (mark_completed x s).1.
Proof.
  intros inv Hx.
  destruct (mark_completed_effect E s inv x Running Hx) as (Hs & Hd & Hdeg' & Hsplit & Hst & _ & Hin);
    [by right; left|done|].
  revert Hs Hd Hdeg' Hsplit Hst Hin. generalize (mark_completed x s).2. generalize (mark_completed x s).1.
  intros s' newly Hs Hd Hdeg' Hsplit Hst Hin.
  assert (∀ n, states s !! n = Some Failed ∨ states s !! n = Some Blocked → states s' !! n = states s !! n) as Hkeep.
  { intros n Hn. rewrite Hst, !decide_False; [done| |].
    - rewrite Hin. intros (? & _). destruct Hn; congruence.
    - intros ->. destruct Hn; congruence. }
  destruct inv as [Hnd Hdom Hed Hdeps Hdeg Hwait Hact Hpoi Hbl]. split; rewrite ?Hs, ?Hd; try done.
  - intros n. rewrite Hst, <- Hdom. destruct (decide (n = x)) as [->|]; [rewrite Hx; naive_solver|].
    destruct (decide (n ∈ newly)) as [Hn|]; [|done]. apply Hin in Hn as [Hn _]. rewrite Hn. naive_solver.
  - intros n. rewrite Hst. destruct (decide (n = x)); [done|]. destruct (decide (n ∈ newly)) as [|Hn]; [done|].
    intros Hp. pose proof (Hwait n Hp) as H0. specialize (Hsplit n).
    destruct (decide (waiting_on E (states s') n = 0)); [|lia].
    destruct Hn. apply Hin. split_and!; [done| |done]. apply occ_pos. lia.
  - intros n st. rewrite Hst. specialize (Hsplit n). destruct (decide (n = x)) as [->|].
    + intros _ _. pose proof (Hact x Running Hx) as H0. unfold active in H0. naive_solver lia.
    + destruct (decide (n ∈ newly)) as [Hn|]; [by intros _ _; apply Hin|].
      intros Hn Ha. specialize (Hact n st Hn Ha). lia.
  - intros d n st He Hd' Hdoom. rewrite Hkeep.
    + eapply Hpoi; [done| |done]. revert Hd'. rewrite Hst. unfold doomed in Hdoom. repeat case_decide; naive_solver.
    + right. eapply Hpoi; [done| |done]. revert Hd'. rewrite Hst. unfold doomed in Hdoom. repeat case_decide; naive_solver.
  - intros n Hn. assert (states s !! n = Some Blocked) as Hb.
    { revert Hn. rewrite Hst. repeat case_decide; done. }
    destruct (Hbl n Hb) as (f & Hf & Hfn). exists f. rewrite Hkeep by (by left). done.
Qed.

Lemma mark_failed_inv (E : list (string * string)) (s : DagScheduler) (x : string) (st : StepState) :
  sched_inv E s → states s !! x = Some st → st = Ready ∨ st = Running → sched_inv E (mark_failed x s).1.
Proof.
  intros inv Hx Hrr. assert (active st) as Ha by (destruct Hrr; [by left|by right; left]).
  assert (st ≠ Completed) as Hnc by naive_solver.
  pose proof (not_own_descendant E s inv x st Hx Ha Hnc) as Hself.
  assert (∀ n, tc (edge E) x n → states s !! n = Some Pending ∨ states s !! n = Some Blocked) as Hdesc
    by (intros n; by eapply descendants_unfinished).
  destruct (mark_failed_effect E s inv x st Hx Ha Hnc) as (Hs & Hd & Hg & (V & HV & Hst) & _).
  revert Hs Hd Hg Hst. generalize (mark_failed x s).1. intros s' Hs Hd Hg Hst.
  assert (∀ n, waiting_on E (states s') n = waiting_on E (states s) n) as Hw.
  { intros n. apply waiting_on_ext. intros d. rewrite Hst. destruct (decide (d ∈ V)) as [Hd'|].
    - apply HV in Hd'. destruct (Hdesc d Hd') as [H|H]; rewrite H; naive_solver.
    - case_decide; [subst; rewrite Hx; naive_solver|done]. }
  destruct inv as [Hnd Hdom Hed Hdeps Hdeg Hwait Hact Hpoi Hbl]. split; rewrite ?Hs, ?Hd, ?Hg; try done.
  - intros n. rewrite Hst, <- Hdom. destruct (decide (n ∈ V)) as [Hn|].
    + apply HV in Hn. destruct (Hdesc n Hn) as [H|H]; rewrite H; naive_solver.
    + case_decide; [subst; rewrite Hx; naive_solver|done].
  - intros n Hn. rewrite Hw. by apply Hdeg.
  - intros n. rewrite Hst, Hw. repeat case_decide; [done..|apply Hwait].
  - intros n st'. rewrite Hst, Hw. destruct (decide (n ∈ V)).
    + intros [= <-] Hact'. unfold active in Hact'. naive_solver.
    + case_decide; [|apply Hact]. subst n. intros _ _. by eapply Hact.
  - intros d n st' He. rewrite Hst. intros Hd' Hdoom.
    destruct (decide (n ∈ V)) as [Hn|Hn]; [by rewrite Hst, decide_True|]. rewrite HV in Hn.
    destruct (decide (d ∈ V)) as [HdV|HdV].
    { destruct Hn. apply HV in HdV. by eapply tc_r. }
    destruct (decide (d = x)) as [->|]; [by destruct Hn; apply tc_once|].
    rewrite Hst, !decide_False; [by eapply Hpoi| |by rewrite HV].
    intros ->. pose proof (Hpoi d x st' He Hd' Hdoom). destruct Hrr; congruence.
  - intros n. rewrite Hst. destruct (decide (n ∈ V)) as [Hn|Hn].
    + intros _. exists x. rewrite Hst, decide_False, decide_True by (rewrite ?HV; done). by rewrite <- HV.
    + case_decide; [done|]. intros Hb. destruct (Hbl n Hb) as (f & Hf & Hfn). exists f.
      rewrite Hst, decide_False; [by case_decide|]. intros HfV%HV. destruct (Hdesc f HfV); congruence.
Qed.

Lemma sched_step_inv (E : list (string * string)) (s s' : DagScheduler) :
  sched_step s s' → sched_inv E s → sched_inv E s'.
Proof.
  destruct 1 as [x s Hx|x s Hx|x s [Hx|Hx]]; intros inv;
    [by apply mark_running_inv|by apply mark_completed_inv|eapply mark_failed_inv; eauto..].
Qed.

Lemma rtc_sched_inv (E : list (string * string)) (s s' : DagScheduler) :
  rtc sched_step s s' → sched_inv E s → sched_inv E s'.
Proof. induction 1; eauto using sched_step_inv. Qed.

Section Reachable.
Context {HI : HashIter} (sts : list string) (deps : gmap string (list string)).
Hypothesis keys_known : ∀ x, is_Some (deps !! x) → x ∈ sts.

Lemma new_inv (s : DagScheduler) :
  new sts deps = Ok s →
  sched_inv (edges (hm_iter deps)) s ∧ steps s = sts ∧ acyclic (edges (hm_iter deps)).
Proof.
  unfold new. destruct (validate_dag sts deps) as [[]|] eqn:Hv; cbn [result_bind]; [|done]. intros [= <-].
  apply (validate_dag_sound _ _ keys_known) in Hv as (Hnd & Hk & Ha). rewrite acyclic_edges.
  split_and!; [|done|done]. set (E := edges (hm_iter deps)).
  set (init := initial_states sts (initial_degrees sts deps)).
  assert (∀ x, x ∈ sts → init !! x = Some (if decide (indeg E x = 0) then Ready else Pending)) as Hst.
  { intros x Hx. subst init. rewrite initial_states_lookup, decide_True by done.
    by rewrite initial_degrees_lookup by done. }
  assert (∀ x, x ∉ sts → init !! x = None) as Hno.
  { intros x Hx. subst init. by rewrite initial_states_lookup, decide_False. }
  assert (∀ x st, init !! x = Some st → x ∈ sts ∧ st = if decide (indeg E x = 0) then Ready else Pending) as Hinv.
  { intros x st Hx. destruct (decide (x ∈ sts)) as [Hin|Hin]; [|by rewrite Hno in Hx].
    rewrite Hst in Hx by done. naive_solver. }
  assert (∀ x, waiting_on E init x = indeg E x) as Hw.
  { intros x. unfold waiting_on, indeg. f_equal. apply filter_all. apply Forall_forall. intros d _ Hd.
    apply Hinv in Hd as [_ Hd]. by case_decide. }
  split; simpl; fold init.
  - done.
  - intros x. split; [by intros [st Hx]; apply Hinv in Hx as [? _]|]. intros Hx. rewrite Hst by done. eauto.
  - intros d x Hdx%edge_depends. split; [by eapply Hk|]. apply keys_known. destruct Hdx as (l & ? & _). eauto.
  - intros d. apply build_dependents_targets.
  - intros x Hx. rewrite Hw. by apply initial_degrees_lookup.
  - intros x Hx. apply Hinv in Hx as [_ Hx]. rewrite Hw. case_decide; [done|lia].
  - intros x st Hx Hact. apply Hinv in Hx as [_ Hx]. rewrite Hw. unfold active in Hact. case_decide; naive_solver.
  - intros d x st _ Hd Hdoom. apply Hinv in Hd as [_ Hd]. unfold doomed in Hdoom. case_decide; naive_solver.
  - intros x Hx. apply Hinv in Hx as [_ Hx]. case_decide; naive_solver.
Qed.

Lemma reachable_inv (s : DagScheduler) :
  reachable sts deps s → sched_inv (edges (hm_iter deps)) s ∧ acyclic (edges (hm_iter deps)).
Proof.
  intros (s0 & H0 & Hrun). destruct (new_inv s0 H0) as (Hi & _ & Ha).
  split; [|done]. by eapply rtc_sched_inv.
Qed.

End Reachable.
