(* ===== verification/SchedulerCorrect.v ===== *)
(** What an orchestration run on the scheduler can rely on: dependency
    order, exact blame of failures, absence of deadlock, bounded runs. *)
From stdpp Require Import gmap strings list fin_maps relations.
From Stdlib Require Import Lia.
From S2P Require Import Prelude Scheduler SchedulerKahn SchedulerRun.

(** * Work left *)

(** Transitions a step can still make before it is terminal. *)
Definition work_left (st : option StepState) : nat :=
  match st with
  | Some Pending | Some Ready => 2
  | Some Running => 1
  | _ => 0
  end.

Definition total_work (s : DagScheduler) : nat :=
  sum_list_with (λ x, work_left (states s !! x)) (steps s).

Lemma sum_list_with_le {A : Type} (f g : A → nat) (l : list A) :
  (∀ x, x ∈ l → f x ≤ g x) → sum_list_with f l ≤ sum_list_with g l.
Proof.
  induction l as [|x l IH]; intros H; [done|]. simpl.
  specialize (IH (λ y Hy, H y (list_elem_of_further y x l Hy))).
  specialize (H x (list_elem_of_here x l)). lia.
Qed.

Lemma sum_list_with_lt {A : Type} (f g : A → nat) (l : list A) (y : A) :
  (∀ x, x ∈ l → f x ≤ g x) → y ∈ l → f y < g y → sum_list_with f l < sum_list_with g l.
Proof.
  intros H Hy Hlt. apply list_elem_of_split in Hy as (l1 & l2 & ->).
  rewrite !sum_list_with_app. simpl.
  pose proof (sum_list_with_le f g l1) as H1. pose proof (sum_list_with_le f g l2) as H2.
  assert (sum_list_with f l1 ≤ sum_list_with g l1) by (apply H1; set_solver).
  assert (sum_list_with f l2 ≤ sum_list_with g l2) by (apply H2; set_solver). lia.
Qed.

Lemma sched_step_effect (E : list (string * string)) (s s' : DagScheduler) :
  sched_inv E s → sched_step s s' →
  steps s' = steps s ∧ (∀ n, work_left (states s' !! n) ≤ work_left (states s !! n)) ∧
  ∃ x, x ∈ steps s ∧ work_left (states s' !! x) < work_left (states s !! x).
Proof.
  intros inv Hstep. destruct Hstep as [x s Hx|x s Hx|x s Hrr].
  - assert (∀ n, states (mark_running x s) !! n = if decide (n = x) then Some Running else states s !! n) as Hst
      by (intros n; by apply lookup_set_state with Ready).
    split_and!; [done| |exists x; split; [by apply (si_states _ _ inv); eauto|]].
    + intros n. rewrite Hst. case_decide; [subst; rewrite Hx; simpl; lia|done].
    + rewrite Hst, decide_True, Hx by done. simpl. lia.
  - destruct (mark_completed_effect E s inv x Running Hx) as (Hs & _ & _ & _ & Hst & _ & Hin); [by right; left|done|].
    split_and!; [done| |exists x; split; [by apply (si_states _ _ inv); eauto|]].
    + intros n. rewrite Hst. case_decide; [simpl; lia|]. case_decide as Hn; [|done].
      apply Hin in Hn as [Hn _]. rewrite Hn. done.
    + rewrite Hst, decide_True, Hx by done. simpl. lia.
  - assert (∃ st, states s !! x = Some st ∧ active st ∧ st ≠ Completed ∧ 0 < work_left (Some st)) as (st & Hx & Ha & Hnc & Hw).
    { destruct Hrr as [H|H]; eexists; (split_and!; [exact H| |done|simpl; lia]); unfold active; auto. }
    destruct (mark_failed_effect E s inv x st Hx Ha Hnc) as (Hs & _ & _ & (V & HV & Hst) & _).
    split_and!; [done| |exists x; split; [by apply (si_states _ _ inv); eauto|]].
    + intros n. rewrite Hst. repeat case_decide; simpl; lia.
    + rewrite Hst, decide_False, decide_True, Hx; [simpl in *; lia|done|].
      rewrite HV. by eapply not_own_descendant.
Qed.

Lemma sched_step_work (E : list (string * string)) (s s' : DagScheduler) :
  sched_inv E s → sched_step s s' → total_work s' < total_work s.
Proof.
  intros inv Hstep. destruct (sched_step_effect E s s' inv Hstep) as (Hs & Hle & x & Hx & Hlt).
  unfold total_work. rewrite Hs. by apply (sum_list_with_lt _ _ _ x).
Qed.

Lemma nsteps_work (E : list (string * string)) (n : nat) (s s' : DagScheduler) :
  sched_inv E s → nsteps sched_step n s s' → n + total_work s' ≤ total_work s.
Proof.
  intros inv Hn. revert inv. induction Hn as [s|n s1 s2 s3 H12 _ IH]; intros inv; [done|].
  pose proof (sched_step_work E s1 s2 inv H12). specialize (IH (sched_step_inv E s1 s2 H12 inv)). lia.
Qed.

Lemma total_work_bound (s : DagScheduler) : total_work s ≤ 2 * total_steps s.
Proof.
  unfold total_work, total_steps. induction (steps s) as [|x l IH]; simpl; [lia|].
  assert (work_left (states s !! x) ≤ 2) by (destruct (states s !! x) as [[]|]; simpl; lia). lia.
Qed.

(** * Completion *)

Lemma is_complete_spec (s : DagScheduler) :
  is_complete s = true ↔ ∀ x st, states s !! x = Some st → terminal st.
Proof. unfold is_complete. by rewrite bool_decide_eq_true. Qed.

Lemma elem_of_next_ready (E : list (string * string)) (s : DagScheduler) (x : string) :
  sched_inv E s → x ∈ next_ready s ↔ states s !! x = Some Ready.
Proof.
  intros inv. unfold next_ready. rewrite list_elem_of_filter, <- (si_states _ _ inv).
  split; [tauto|]. intros H. split; [done|]. by rewrite H.
Qed.

Lemma elem_of_running_ids (E : list (string * string)) (s : DagScheduler) (x : string) :
  sched_inv E s → x ∈ running_ids s ↔ states s !! x = Some Running.
Proof.
  intros inv. unfold running_ids. rewrite list_elem_of_filter, <- (si_states _ _ inv).
  split; [tauto|]. intros H. split; [done|]. by rewrite H.
Qed.

(** Steps cannot all wait for each other. *)
Lemma stuck_complete (E : list (string * string)) (s : DagScheduler) :
  sched_inv E s → acyclic E →
  (∀ x, states s !! x ≠ Some Ready) → (∀ x, states s !! x ≠ Some Running) → is_complete s = true.
Proof.
  intros inv Ha Hr Hg.
  assert (list_to_set (filter (λ x, states s !! x = Some Pending) (steps s)) = (∅ : gset string)) as Hemp.
  { apply (acyclic_no_closed_set E _ Ha). intros y Hy.
    rewrite elem_of_list_to_set, list_elem_of_filter in Hy. destruct Hy as [Hp _].
    pose proof (si_waiting _ _ inv y Hp) as Hw.
    destruct (filter (λ d, states s !! d ≠ Some Completed) (sources E y)) as [|d l] eqn:Hf.
    { unfold waiting_on in Hw. rewrite Hf in Hw. simpl in Hw. lia. }
    assert (d ∈ filter (λ d, states s !! d ≠ Some Completed) (sources E y)) as [Hd He]%list_elem_of_filter
      by (rewrite Hf; by left).
    apply elem_of_sources in He. destruct (si_edges _ _ inv d y He) as [Hds _].
    exists d. split; [|done]. rewrite elem_of_list_to_set, list_elem_of_filter. split; [|done].
    apply (si_states _ _ inv) in Hds as [st Hst]. rewrite Hst.
    pose proof (si_poison _ _ inv d y st He Hst) as Hpo. unfold doomed in Hpo.
    destruct st; try done; [by destruct (Hr d)|by destruct (Hg d)|..]; rewrite Hpo in Hp; auto; done. }
  apply is_complete_spec. intros x st Hx.
  assert (st ≠ Pending) as Hnp.
  { intros ->. assert (x ∈ (∅ : gset string)) as Hx0; [|by apply elem_of_empty in Hx0].
    rewrite <- Hemp, elem_of_list_to_set, list_elem_of_filter. split; [done|]. apply (si_states _ _ inv). eauto. }
  unfold terminal. destruct st; try done; auto; [by destruct (Hr x)|by destruct (Hg x)].
Qed.

Section Correct.
Context {HI : HashIter} (sts : list string) (deps : gmap string (list string)).

(** Every key of the dependency map is a step, as in the maps that the
    orchestration manager builds from the steps themselves. *)
Hypothesis keys_known : ∀ x, is_Some (deps !! x) → x ∈ sts.

(** In every state the scheduler can reach, a step that is offered to run,
    runs, completed or failed had all of its dependencies completed. *)
Theorem dependencies_first (s : DagScheduler) (x d : string) (st : StepState) :
  reachable sts deps s → states s !! x = Some st → active st → depends deps d x →
  states s !! d = Some Completed.
Proof.
  intros Hr Hx Ha Hd. destruct (reachable_inv sts deps keys_known s Hr) as [inv _].
  pose proof (si_active _ _ inv x st Hx Ha) as H0. rewrite waiting_on_zero in H0.
  apply H0. by apply edge_depends.
Qed.

(** C2: In every reachable state a step is blocked iff a step it depends on,
    directly or through others, has failed: the failure cascade blocks
    neither too little nor too much. *)
Theorem blocked_iff_failed_ancestor (s : DagScheduler) (x : string) :
  reachable sts deps s →
  (states s !! x = Some Blocked ↔ ∃ f, states s !! f = Some Failed ∧ tc (depends deps) f x).
Proof.
  intros Hr. destruct (reachable_inv sts deps keys_known s Hr) as [inv _]. split.
  - intros (f & Hf & Htc)%(si_blame _ _ inv). exists f. split; [done|]. by apply tc_edge_depends.
  - intros (f & Hf & Htc). apply tc_edge_depends in Htc.
    assert (∀ a b, tc (edge (edges (hm_iter deps))) a b → ∀ st, states s !! a = Some st → doomed st →
                   states s !! b = Some Blocked) as Hall.
    { induction 1 as [a b Hab|a b c Hab _ IH]; intros st Ha Hd.
      - by eapply (si_poison _ _ inv).
      - eapply IH; [by eapply (si_poison _ _ inv)|by right]. }
    eapply Hall; [exact Htc|exact Hf|by left].
Qed.

(** C38: No deadlock, no livelock: from a fresh scheduler at most two transitions
    per step can happen, and a reachable state in which nothing is ready and
    nothing runs has every step in a terminal state. *)
Theorem runs_end_complete (s0 s : DagScheduler) (n : nat) :
  new sts deps = Ok s0 → nsteps sched_step n s0 s →
  n ≤ 2 * length sts ∧
  (next_ready s = [] → running_ids s = [] → is_complete s = true) ∧
  (is_complete s = true → ∀ s', ¬ sched_step s s').
Proof.
  intros H0 Hn. destruct (new_inv sts deps keys_known s0 H0) as (inv0 & Hs0 & Ha).
  assert (sched_inv (edges (hm_iter deps)) s) as inv.
  { eapply rtc_sched_inv; [|exact inv0]. apply rtc_nsteps. eauto. }
  split_and!.
  - pose proof (nsteps_work _ _ _ _ inv0 Hn). pose proof (total_work_bound s0) as Hb.
    unfold total_steps in Hb. rewrite Hs0 in Hb. lia.
  - intros Hr Hg. apply (stuck_complete (edges (hm_iter deps)) s inv Ha).
    + intros x Hx. apply (elem_of_next_ready _ _ x inv) in Hx. rewrite Hr in Hx. by apply elem_of_nil in Hx.
    + intros x Hx. apply (elem_of_running_ids _ _ x inv) in Hx. rewrite Hg in Hx. by apply elem_of_nil in Hx.
  - rewrite is_complete_spec. intros Ht s' Hstep.
    destruct (sched_step_effect _ _ _ inv Hstep) as (_ & _ & x & _ & Hlt).
    destruct (states s !! x) as [st|] eqn:Hx; simpl in Hlt; [|lia].
    specialize (Ht x st Hx). destruct Ht as [-> | [-> | ->] ]; simpl in Hlt; lia.
Qed.

(** When everything is over, a step has completed iff neither it nor any
    step it transitively depends on failed. *)
Theorem completed_iff_no_failure (s : DagScheduler) (x : string) :
  reachable sts deps s → is_complete s = true → is_Some (states s !! x) →
  (states s !! x = Some Completed ↔ ∀ f, rtc (depends deps) f x → states s !! f ≠ Some Failed).
Proof.
  intros Hr Hc [st Hx]. destruct (reachable_inv sts deps keys_known s Hr) as [inv _].
  rewrite is_complete_spec in Hc. split.
  - intros Hcx f Hf Hff. destruct (rtc_inv_r _ _ Hf) as [->|(y & Hfy & Hyx)]; [congruence|].
    pose proof (si_active _ _ inv x _ Hcx) as H0. rewrite waiting_on_zero in H0.
    assert (states s !! y = Some Completed) as Hy.
    { apply H0; [unfold active; auto|by apply edge_depends]. }
    assert (tc (edge (edges (hm_iter deps))) f x) as Htc.
    { apply tc_edge_depends. eapply tc_rtc_l; [exact Hfy|by apply tc_once]. }
    destruct (descendants_unfinished _ _ inv f x Failed Hff ltac:(done) Htc); congruence.
  - intros Hno. rewrite Hx. specialize (Hc x st Hx). destruct Hc as [-> | [-> | ->] ]; [done|by destruct (Hno x)|].
    apply (si_blame _ _ inv) in Hx as (f & Hf & Htc). destruct (Hno f); [|done].
    apply tc_rtc. by apply tc_edge_depends.
Qed.

(** What completing a running step reports: each step that becomes ready by
    it, once; those are the pending steps that listed it and whose
    dependencies are now all completed. *)
Theorem mark_completed_reports (s : DagScheduler) (x : string) :
  reachable sts deps s → states s !! x = Some Running →
  let s' := (mark_completed x s).1 in
  NoDup (mark_completed x s).2 ∧
  ∀ n, n ∈ (mark_completed x s).2 ↔
       states s !! n = Some Pending ∧ depends deps x n ∧
       ∀ d, depends deps d n → states s' !! d = Some Completed.
Proof.
  intros Hr Hx s'. destruct (reachable_inv sts deps keys_known s Hr) as [inv _].
  destruct (mark_completed_effect _ s inv x Running Hx) as (_ & _ & _ & _ & _ & Hnd & Hin); [by right; left|done|].
  split; [done|]. intros n. rewrite Hin, waiting_on_zero, elem_of_targets.
  by setoid_rewrite <- edge_depends.
Qed.

(** What failing a ready or running step reports: the steps that depend on
    it through any chain and had not been blocked before, once each; all of
    its descendants are blocked afterwards. *)
Theorem mark_failed_reports (s : DagScheduler) (x : string) :
  reachable sts deps s → states s !! x = Some Ready ∨ states s !! x = Some Running →
  let s' := (mark_failed x s).1 in
  states s' !! x = Some Failed ∧
  (∀ n, tc (depends deps) x n → states s' !! n = Some Blocked) ∧
  NoDup (mark_failed x s).2 ∧
  ∀ n, n ∈ (mark_failed x s).2 ↔ tc (depends deps) x n ∧ states s !! n ≠ Some Blocked.
Proof.
  intros Hr Hrr s'. destruct (reachable_inv sts deps keys_known s Hr) as [inv _].
  assert (∃ st, states s !! x = Some st ∧ active st ∧ st ≠ Completed) as (st & Hx & Ha & Hnc).
  { unfold active. destruct Hrr as [H|H]; eexists; split_and!; [exact H| | |exact H| |]; auto. }
  destruct (mark_failed_effect _ s inv x st Hx Ha Hnc) as (_ & _ & _ & (V & HV & Hst) & Hnd & Hin).
  setoid_rewrite <- tc_edge_depends. split_and!; try done.
  - subst s'. rewrite Hst, decide_False, decide_True; [done..|]. rewrite HV. by eapply not_own_descendant.
  - intros n Hn%HV. subst s'. by rewrite Hst, decide_True.
  - intros n. rewrite Hin. split; intros [Htc Hn]; (split; [done|]); [congruence|].
    by destruct (descendants_unfinished _ s inv x n st Hx Hnc Htc).
Qed.

End Correct.

(** * A concrete run

    The diamond of the examples: [a] completes, [b] fails, [c] completes. *)

Definition demo_steps : list string := ["a"; "b"; "c"; "d"].

Definition demo_start : DagScheduler :=
  match new demo_steps demo_deps with Ok s => s | Err _ => mkScheduler [] ∅ ∅ ∅ end.

Definition demo_a_running : DagScheduler := mark_running "a" demo_start.
Definition demo_b_running : DagScheduler := mark_running "b" (mark_completed "a" demo_a_running).1.
Definition demo_b_failed : DagScheduler := (mark_failed "b" demo_b_running).1.
Definition demo_end : DagScheduler := (mark_completed "c" (mark_running "c" demo_b_failed)).1.

Lemma demo_keys (x : string) : is_Some (demo_deps !! x) → x ∈ demo_steps.
Proof.
  intros [l Hl]. unfold demo_deps in Hl. rewrite !lookup_insert, lookup_singleton in Hl.
  unfold demo_steps. rewrite !elem_of_cons. repeat case_decide; subst; auto; discriminate.
Qed.

Lemma demo_new : new demo_steps demo_deps = Ok demo_start.
Proof. reflexivity. Qed.

Lemma demo_reach_a : rtc sched_step demo_start demo_a_running.
Proof. apply rtc_once. apply step_start. reflexivity. Qed.

Lemma demo_reach_b : rtc sched_step demo_start demo_b_running.
Proof.
  eapply rtc_r; [eapply rtc_r; [exact demo_reach_a|]|].
  - apply (step_complete "a"). reflexivity.
  - apply step_start. reflexivity.
Qed.

Lemma demo_reach_failed : rtc sched_step demo_start demo_b_failed.
Proof. eapply rtc_r; [exact demo_reach_b|]. apply step_fail. right. reflexivity. Qed.

Lemma demo_reach_end : rtc sched_step demo_start demo_end.
Proof.
  eapply rtc_r; [eapply rtc_r; [exact demo_reach_failed|]|].
  - apply (step_start "c"). reflexivity.
  - apply (step_complete "c"). reflexivity.
Qed.

Lemma demo_depends_ab : depends demo_deps "a" "b".
Proof. exists ["a"]. split; [reflexivity|by left]. Qed.

Lemma dependencies_first_witness :
  states demo_b_failed !! "b" = Some Failed ∧ states demo_b_failed !! "a" = Some Completed.
Proof.
  split; [reflexivity|].
  apply (dependencies_first demo_steps demo_deps demo_keys demo_b_failed "b" "a" Failed).
  - exists demo_start. split; [exact demo_new|exact demo_reach_failed].
  - reflexivity.
  - by right; right; right.
  - exact demo_depends_ab.
Defined.

Lemma blocked_iff_failed_ancestor_witness :
  states demo_b_failed !! "d" = Some Blocked ∧
  ∃ f, states demo_b_failed !! f = Some Failed ∧ tc (depends demo_deps) f "d".
Proof.
  assert (states demo_b_failed !! "d" = Some Blocked) as H by reflexivity. split; [exact H|].
  apply (blocked_iff_failed_ancestor demo_steps demo_deps demo_keys demo_b_failed "d"); [|exact H].
  exists demo_start. split; [exact demo_new|exact demo_reach_failed].
Defined.

Lemma runs_end_complete_witness :
  6 ≤ 2 * length demo_steps ∧
  (next_ready demo_end = [] → running_ids demo_end = [] → is_complete demo_end = true) ∧
  (is_complete demo_end = true → ∀ s', ¬ sched_step demo_end s').
Proof.
  apply (runs_end_complete demo_steps demo_deps demo_keys demo_start demo_end 6 demo_new).
  econstructor; [apply (step_start "a"); reflexivity|].
  econstructor; [apply (step_complete "a"); reflexivity|].
  econstructor; [apply (step_start "b"); reflexivity|].
  econstructor; [apply (step_fail "b"); right; reflexivity|].
  econstructor; [apply (step_start "c"); reflexivity|].
  econstructor; [apply (step_complete "c"); reflexivity|]. constructor.
Defined.

Lemma completed_iff_no_failure_witness :
  is_complete demo_end = true ∧
  ∀ f, rtc (depends demo_deps) f "c" → states demo_end !! f ≠ Some Failed.
Proof.
  assert (is_complete demo_end = true) as H by reflexivity. split; [exact H|].
  apply (completed_iff_no_failure demo_steps demo_deps demo_keys demo_end "c").
  - exists demo_start. split; [exact demo_new|exact demo_reach_end].
  - exact H.
  - by exists Completed.
  - reflexivity.
Defined.

Lemma mark_completed_reports_witness :
  NoDup (mark_completed "a" demo_a_running).2 ∧
  ∀ n, n ∈ (mark_completed "a" demo_a_running).2 ↔
       states demo_a_running !! n = Some Pending ∧ depends demo_deps "a" n ∧
       ∀ d, depends demo_deps d n → states (mark_completed "a" demo_a_running).1 !! d = Some Completed.
Proof.
  apply (mark_completed_reports demo_steps demo_deps demo_keys demo_a_running "a").
  - exists demo_start. split; [exact demo_new|exact demo_reach_a].
  - reflexivity.
Defined.

Lemma mark_failed_reports_witness :
  states demo_b_failed !! "b" = Some Failed ∧
  (∀ n, tc (depends demo_deps) "b" n → states demo_b_failed !! n = Some Blocked) ∧
  NoDup (mark_failed "b" demo_b_running).2 ∧
  ∀ n, n ∈ (mark_failed "b" demo_b_running).2 ↔
       tc (depends demo_deps) "b" n ∧ states demo_b_running !! n ≠ Some Blocked.
Proof.
  apply (mark_failed_reports demo_steps demo_deps demo_keys demo_b_running "b").
  - exists demo_start. split; [exact demo_new|exact demo_reach_b].
  - right. reflexivity.
Defined.
