(* ===== verification/Json.v ===== *)
(** JSON values, as [serde_json::Value] gives them to the code.

    An object is the list of its entries in the order of their keys, each key
    once; a number is an integer or an IEEE double; [get], [as_str] and the
    like are the accessors of the same names.  Parsing and printing text is
    the serializer's: the classes [JsonText] and [JsonWrite]. *)
From stdpp Require Import strings list.
From Stdlib Require Import ZArith SpecFloat.
From S2P Require Import Prelude.

Inductive Json :=
| JNull
| JBool (b : bool)
| JInt (z : Z)
| JFloat (f : spec_float)
| JStr (s : string)
| JArr (l : list Json)
| JObj (entries : list (string * Json)).

Class JsonText := {
  (** [serde_json::from_str::<Value>], [None] on a syntax error. *)
  json_parse : string → option Json;
  (** [serde_json::to_string] of a list of strings. *)
  json_strings : list string → string
}.

Class JsonWrite := {
  (** [serde_json::to_string] of a value. *)
  json_to_string : Json → string
}.

Fixpoint assoc (k : string) (entries : list (string * Json)) : option Json :=
  match entries with
  | [] => None
  | (k', v) :: rest => if decide (k = k') then Some v else assoc k rest
  end.

Definition get (k : string) (v : Json) : option Json :=
  match v with JObj entries => assoc k entries | _ => None end.

Definition as_str (v : Json) : option string :=
  match v with JStr s => Some s | _ => None end.

Definition as_array (v : Json) : option (list Json) :=
  match v with JArr l => Some l | _ => None end.

Definition as_bool (v : Json) : option bool :=
  match v with JBool b => Some b | _ => None end.

Definition as_object (v : Json) : option (list (string * Json)) :=
  match v with JObj entries => Some entries | _ => None end.

(** Only a number written as a non-negative integer is one. *)
Definition as_u64 (v : Json) : option Z :=
  match v with JInt z => if (0 <=? z)%Z then Some z else None | _ => None end.

(** [z as f64], rounded to nearest. *)
Definition f64_of_Z (z : Z) : spec_float := binary_normalize 53 1024 z 0 false.

Definition f64_zero : spec_float := S754_zero false.

Definition f64_add : spec_float → spec_float → spec_float := SFadd 53 1024.

Definition as_f64 (v : Json) : option spec_float :=
  match v with JInt z => Some (f64_of_Z z) | JFloat f => Some f | _ => None end.

(** [Map::insert]: the entries stay in the order of their keys. *)
Fixpoint obj_insert (k : string) (v : Json) (entries : list (string * Json)) : list (string * Json) :=
  match entries with
  | [] => [(k, v)]
  | (k', v') :: rest =>
      if decide (k = k') then (k, v) :: rest
      else if String.ltb k k' then (k, v) :: entries
      else (k', v') :: obj_insert k v rest
  end.

(** The [json!] macro on an object: its entries are inserted one by one. *)
Definition json_object (entries : list (string * Json)) : Json :=
  JObj (foldl (λ o kv, obj_insert kv.1 kv.2 o) [] entries).

(** [v.get(k).and_then(Value::as_str).unwrap_or("")] *)
Definition str_field (k : string) (v : Json) : string := default EmptyString (get k v ≫= as_str).

Lemma assoc_obj_insert (k k' : string) (v : Json) (entries : list (string * Json)) :
  assoc k' (obj_insert k v entries) = if decide (k' = k) then Some v else assoc k' entries.
Proof.
  induction entries as [|[k1 v1] rest IH]; simpl; [done|].
  destruct (decide (k = k1)) as [<-|Hne]; simpl; [by repeat case_decide|].
  destruct (String.ltb k k1); simpl; [done|]. rewrite IH. repeat case_decide; congruence.
Qed.

Lemma get_json_object (k : string) (entries : list (string * Json)) :
  get k (json_object entries) = assoc k (reverse entries).
Proof.
  unfold json_object. simpl. induction entries as [|[k1 v1] l IH] using rev_ind; [done|].
  rewrite foldl_snoc, reverse_snoc. simpl. rewrite assoc_obj_insert, IH. done.
Qed.
