(* ===== verification/Ndjson.v ===== *)
(** The parser of the agent's output.

    Models crates/betcode-core/src/ndjson/: types.rs and parser.rs, the errors
    of error.rs that it uses, and the derived deserializers of [ToolSchema] and
    [Usage], which take an object or, position by position, an array. *)
From stdpp Require Import strings list.
From Stdlib Require Import ZArith SpecFloat Lia.
From S2P Require Import Prelude Json.

(** * Messages (types.rs) *)

Record ToolSchema := mkToolSchema {
  ts_name : string;
  ts_description : option string;
  ts_input_schema : option Json
}.

Record SystemInit := mkSystemInit {
  si_session_id : string;
  si_model : string;
  si_cwd : string;
  si_tools : list ToolSchema;
  si_api_version : option string
}.

Inductive ContentBlock :=
| BlockText (text : string)
| BlockToolUse (id name : string) (input : Json).

Inductive StopReason :=
| EndTurn
| StopToolUse
| MaxTokens
| StopUnknown (other : string).

Record Usage := mkUsage {
  input_tokens : Z;
  output_tokens : Z;
  cache_read_input_tokens : Z;
  cache_creation_input_tokens : Z
}.

Record AssistantMessage := mkAssistant {
  am_content : list ContentBlock;
  am_stop_reason : StopReason;
  am_usage : Usage
}.

Record ToolResult := mkToolResult {
  tool_use_id : string;
  tr_content : string;
  tr_is_error : bool
}.

Inductive Delta :=
| DeltaText (text : string)
| DeltaInputJson (json : string)
| DeltaUnknown (v : Json).

Inductive StreamEventType :=
| ContentBlockStart (index : Z) (block_type : string)
| ContentBlockDelta (index : Z) (delta : Delta)
| ContentBlockStop (index : Z)
| MessageStart
| MessageDelta (stop_reason : option string)
| MessageStop
| StreamUnknown (v : Json).

Inductive ControlRequestType :=
| CanUseTool (tool_name : string) (input : Json)
| ControlUnknown (v : Json).

Record ControlRequest := mkControlRequest {
  cr_request_id : string;
  cr_request : ControlRequestType
}.

Inductive ResultSubtype :=
| SubtypeSuccess
| SubtypeError
| SubtypeUnknown (other : string).

Record SessionResult := mkSessionResult {
  sr_subtype : ResultSubtype;
  sr_session_id : string;
  sr_duration_ms : Z;
  sr_cost_usd : option spec_float;
  sr_usage : Usage;
  sr_is_error : bool;
  sr_errors : list string
}.

Inductive Message :=
| MsgSystemInit (init : SystemInit)
| MsgAssistant (msg : AssistantMessage)
| MsgUser (content : list ToolResult)
| MsgStreamEvent (event_type : StreamEventType)
| MsgControlRequest (req : ControlRequest)
| MsgResult (result : SessionResult)
| MsgUnknown (msg_type : string) (payload : Json).

(** Of the errors of error.rs, those of the parser. *)
Inductive NdjsonError :=
| NdjsonParse (message : string)
| JsonError.

(** * Derived deserializers *)

Definition deserialize_string (v : Json) : option string := as_str v.

(** [Option<T>]: [null] is [None]. *)
Definition deserialize_option {A : Type} (f : Json → option A) (v : Json) : option (option A) :=
  match v with JNull => Some None | _ => Some <$> f v end.

Definition deserialize_u32 (v : Json) : option Z :=
  z ← as_u64 v; if (z <=? u32_max)%Z then Some z else None.

(** A field with [#[serde(default)]]. *)
Definition default_field {A : Type} (d : A) (f : Json → option A) (v : option Json) : option A :=
  match v with None => Some d | Some v => f v end.

Definition tool_schema_fields (name description input_schema : option Json) : option ToolSchema :=
  n ← name ≫= deserialize_string;
  d ← default_field None (deserialize_option deserialize_string) description;
  s ← default_field None (deserialize_option Some) input_schema;
  Some (mkToolSchema n d s).

Definition deserialize_tool_schema (v : Json) : option ToolSchema :=
  match v with
  | JObj _ => tool_schema_fields (get "name" v) (get "description" v) (get "input_schema" v)
  | JArr l => if decide (length l ≤ 3) then tool_schema_fields (l !! 0) (l !! 1) (l !! 2) else None
  | _ => None
  end.

Definition usage_fields (i o r c : option Json) : option Usage :=
  i ← default_field 0%Z deserialize_u32 i;
  o ← default_field 0%Z deserialize_u32 o;
  r ← default_field 0%Z deserialize_u32 r;
  c ← default_field 0%Z deserialize_u32 c;
  Some (mkUsage i o r c).

Definition deserialize_usage (v : Json) : option Usage :=
  match v with
  | JObj _ => usage_fields (get "input_tokens" v) (get "output_tokens" v)
                (get "cache_read_input_tokens" v) (get "cache_creation_input_tokens" v)
  | JArr l => if decide (length l ≤ 4) then usage_fields (l !! 0) (l !! 1) (l !! 2) (l !! 3) else None
  | _ => None
  end.

Definition default_usage : Usage := mkUsage 0 0 0 0.

(** * The parser (parser.rs) *)

Definition parse_system (raw : Json) : Message :=
  MsgSystemInit (mkSystemInit (str_field "session_id" raw) (str_field "model" raw) (str_field "cwd" raw)
    (default [] ((get "tools" raw ≫= as_array) ≫= mapM deserialize_tool_schema))
    (get "api_version" raw ≫= as_str)).

Definition event_index (event : Json) : Z := wrap_u32 (default 0%Z (get "index" event ≫= as_u64)).

Definition parse_content_block (block : Json) : option ContentBlock :=
  block_type ← get "type" block ≫= as_str;
  if decide (block_type = "text") then
    text ← get "text" block ≫= as_str;
    Some (BlockText text)
  else if decide (block_type = "tool_use") then
    id ← get "id" block ≫= as_str;
    name ← get "name" block ≫= as_str;
    Some (BlockToolUse id name (default JNull (get "input" block)))
  else None.

Definition parse_content_blocks (content : option Json) : list ContentBlock :=
  match content ≫= as_array with
  | Some arr => omap parse_content_block arr
  | None => []
  end.

Definition parse_stop_reason (val : option Json) : StopReason :=
  match val ≫= as_str with
  | None => EndTurn
  | Some s =>
      if decide (s = "end_turn") then EndTurn
      else if decide (s = "tool_use") then StopToolUse
      else if decide (s = "max_tokens") then MaxTokens
      else StopUnknown s
  end.

Definition parse_usage (val : option Json) : Usage := default default_usage (val ≫= deserialize_usage).

Definition parse_assistant (raw : Json) : Message :=
  let msg := default raw (get "message" raw) in
  MsgAssistant (mkAssistant (parse_content_blocks (get "content" msg))
    (parse_stop_reason (get "stop_reason" msg)) (parse_usage (get "usage" msg))).

Definition parse_tool_result (block : Json) : option ToolResult :=
  ty ← get "type" block ≫= as_str;
  if decide (ty = "tool_result") then
    id ← get "tool_use_id" block ≫= as_str;
    Some (mkToolResult id (str_field "content" block) (default false (get "is_error" block ≫= as_bool)))
  else None.

Definition parse_user (raw : Json) : Message :=
  let msg := default raw (get "message" raw) in
  MsgUser (omap parse_tool_result (default [] (get "content" msg ≫= as_array))).

Definition parse_delta (delta : Json) : Delta :=
  let delta_type := str_field "type" delta in
  if decide (delta_type = "text_delta") then DeltaText (str_field "text" delta)
  else if decide (delta_type = "input_json_delta") then DeltaInputJson (str_field "partial_json" delta)
  else DeltaUnknown delta.

Definition parse_stream_event (raw : Json) : Message :=
  let event := default raw (get "event" raw) in
  let event_type := str_field "type" event in
  MsgStreamEvent (
    if decide (event_type = "content_block_start") then
      ContentBlockStart (event_index event)
        (default EmptyString ((get "content_block" event ≫= get "type") ≫= as_str))
    else if decide (event_type = "content_block_delta") then
      ContentBlockDelta (event_index event) (parse_delta (default JNull (get "delta" event)))
    else if decide (event_type = "content_block_stop") then ContentBlockStop (event_index event)
    else if decide (event_type = "message_start") then MessageStart
    else if decide (event_type = "message_delta") then
      MessageDelta ((get "delta" event ≫= get "stop_reason") ≫= as_str)
    else if decide (event_type = "message_stop") then MessageStop
    else StreamUnknown event).

Definition parse_control_request (raw : Json) : result NdjsonError Message :=
  match get "request_id" raw ≫= as_str with
  | None => Err (NdjsonParse "Missing request_id")
  | Some request_id =>
      let request := default JNull (get "request" raw) in
      Ok (MsgControlRequest (mkControlRequest request_id
        (if decide (str_field "subtype" request = "can_use_tool") then
           CanUseTool (str_field "tool_name" request) (default JNull (get "input" request))
         else ControlUnknown request)))
  end.

Definition parse_result (raw : Json) : Message :=
  let subtype := match get "subtype" raw ≫= as_str with
                 | None => SubtypeSuccess
                 | Some s => if decide (s = "success") then SubtypeSuccess
                             else if decide (s = "error") then SubtypeError
                             else SubtypeUnknown s
                 end in
  MsgResult (mkSessionResult subtype (str_field "session_id" raw)
    (default 0%Z (get "duration_ms" raw ≫= as_u64)) (get "total_cost_usd" raw ≫= as_f64)
    (parse_usage (get "usage" raw)) (default false (get "is_error" raw ≫= as_bool))
    (omap as_str (default [] (get "errors" raw ≫= as_array)))).

Definition parse_value (raw : Json) : result NdjsonError Message :=
  match get "type" raw ≫= as_str with
  | None => Err (NdjsonParse "Missing 'type' field")
  | Some msg_type =>
      if decide (msg_type = "system") then Ok (parse_system raw)
      else if decide (msg_type = "assistant") then Ok (parse_assistant raw)
      else if decide (msg_type = "user") then Ok (parse_user raw)
      else if decide (msg_type = "stream_event") then Ok (parse_stream_event raw)
      else if decide (msg_type = "control_request") then parse_control_request raw
      else if decide (msg_type = "result") then Ok (parse_result raw)
      else Ok (MsgUnknown msg_type raw)
  end.

Definition parse_line {JT : JsonText} (line : string) : result NdjsonError Message :=
  match json_parse line with
  | None => Err JsonError
  | Some raw => parse_value raw
  end.

(** * Examples from the tests *)

Definition demo_control : Json :=
  JObj [("request", JObj [("input", JObj [("command", JStr "ls")]); ("subtype", JStr "can_use_tool");
                          ("tool_name", JStr "Bash")]);
        ("request_id", JStr "req_001"); ("type", JStr "control_request")].

Example parse_control_request_works :
  parse_value demo_control =
    Ok (MsgControlRequest (mkControlRequest "req_001" (CanUseTool "Bash" (JObj [("command", JStr "ls")])))).
Proof. reflexivity. Qed.

Example parse_result_error_during_execution :
  parse_value (JObj [("duration_ms", JInt 0); ("errors", JArr [JStr "No conversation"]); ("is_error", JBool true);
                     ("session_id", JStr "s"); ("subtype", JStr "error_during_execution");
                     ("total_cost_usd", JInt 0); ("type", JStr "result");
                     ("usage", JObj [("input_tokens", JInt 0)])]) =
    Ok (MsgResult (mkSessionResult (SubtypeUnknown "error_during_execution") "s" 0 (Some f64_zero)
          default_usage true ["No conversation"])).
Proof. reflexivity. Qed.

(** * Tolerance

    The fields of the top-level object that the parser looks at, and values
    that agree on them. *)

Definition known_fields : list string :=
  ["type"; "session_id"; "model"; "cwd"; "tools"; "api_version"; "message"; "content"; "stop_reason"; "usage";
   "event"; "index"; "content_block"; "delta"; "request_id"; "request"; "subtype"; "duration_ms";
   "total_cost_usd"; "is_error"; "errors"].

Definition same_known (r1 r2 : Json) : Prop := ∀ k, k ∈ known_fields → get k r1 = get k r2.

(** Messages up to the raw values that [Unknown] ones carry along. *)
Definition same_message (m1 m2 : Message) : Prop :=
  match m1, m2 with
  | MsgUnknown t1 _, MsgUnknown t2 _ => t1 = t2
  | MsgStreamEvent (StreamUnknown _), MsgStreamEvent (StreamUnknown _) => True
  | _, _ => m1 = m2
  end.

Definition same_parse (p1 p2 : result NdjsonError Message) : Prop :=
  match p1, p2 with
  | Ok m1, Ok m2 => same_message m1 m2
  | Err e1, Err e2 => e1 = e2
  | _, _ => False
  end.

Lemma same_known_insert (raw : list (string * Json)) (k : string) (v : Json) :
  k ∉ known_fields → same_known (JObj raw) (JObj (obj_insert k v raw)).
Proof.
  intros Hk k' Hk'. simpl. rewrite assoc_obj_insert. case_decide; [|done]. by subst.
Qed.

Lemma elem_of_known (k : string) : bool_decide (k ∈ known_fields) = true → k ∈ known_fields.
Proof. apply bool_decide_eq_true_1. Qed.

(** Rewrites the fields of one value into those of a value that agrees. *)
Ltac known_eq H :=
  unfold str_field, event_index;
  repeat match goal with
  | |- context [get ?k ?r] =>
      match type of H with
      | same_known r _ => rewrite (H k (elem_of_known k eq_refl))
      end
  end.

Lemma parse_stream_event_known (r1 r2 : Json) :
  same_known r1 r2 → same_message (parse_stream_event r1) (parse_stream_event r2).
Proof.
  intros H. unfold parse_stream_event. rewrite (H "event" (elem_of_known "event" eq_refl)).
  destruct (get "event" r2) as [e|]; simpl.
  - unfold same_message. by repeat case_decide.
  - known_eq H. unfold same_message. by repeat case_decide.
Qed.

Lemma parse_content_known (r1 r2 : Json) :
  same_known r1 r2 → parse_assistant r1 = parse_assistant r2 ∧ parse_user r1 = parse_user r2.
Proof.
  intros H. unfold parse_assistant, parse_user. rewrite (H "message" (elem_of_known "message" eq_refl)).
  destruct (get "message" r2) as [m|]; simpl; [done|]. by known_eq H.
Qed.

(** The reader is tolerant: what it makes of a value does not depend on any
    field it does not know, except for the copy of the whole value that it
    hands on when the message itself is unknown. *)
Theorem tolerant_reader (r1 r2 : Json) :
  same_known r1 r2 → same_parse (parse_value r1) (parse_value r2).
Proof.
  intros H. unfold parse_value. rewrite (H "type" (elem_of_known "type" eq_refl)).
  destruct (get "type" r2 ≫= as_str) as [t|]; [|done]. destruct (parse_content_known r1 r2 H) as [Ha Hu].
  repeat case_decide; simpl; rewrite ?Ha, ?Hu; try done.
  - unfold parse_system. by known_eq H.
  - by apply parse_stream_event_known.
  - unfold parse_control_request. known_eq H. by destruct (get "request_id" r2 ≫= as_str).
  - unfold parse_result. by known_eq H.
Qed.

Lemma tolerant_reader_witness :
  same_parse (parse_value demo_control) (parse_value (JObj (obj_insert "uuid" (JStr "x")
    (default [] (as_object demo_control))))).
Proof. apply tolerant_reader, same_known_insert. by apply (bool_decide_unpack _). Defined.

(** The only lines refused: those that are not JSON, those without a type,
    and control requests without an identifier to answer to. *)
Theorem parse_line_refuses {JT : JsonText} (line : string) :
  is_ok (parse_line line) = false ↔
    match json_parse line with
    | None => True
    | Some raw =>
        get "type" raw ≫= as_str = None ∨
        get "type" raw ≫= as_str = Some "control_request" ∧ get "request_id" raw ≫= as_str = None
    end.
Proof.
  unfold parse_line. destruct (json_parse line) as [raw|]; [|by simpl].
  unfold parse_value. destruct (get "type" raw ≫= as_str) as [t|]; [|simpl; tauto].
  repeat case_decide; subst; simpl; try naive_solver.
  unfold parse_control_request. destruct (get "request_id" raw ≫= as_str); simpl; naive_solver.
Qed.

(** A permission request reaches the daemon as the agent sent it. *)
Lemma parse_can_use_tool (raw : Json) (id tool : string) (input request : Json) :
  get "type" raw = Some (JStr "control_request") → get "request_id" raw = Some (JStr id) →
  get "request" raw = Some request → get "subtype" request = Some (JStr "can_use_tool") →
  get "tool_name" request = Some (JStr tool) → get "input" request = Some input →
  parse_value raw = Ok (MsgControlRequest (mkControlRequest id (CanUseTool tool input))).
Proof.
  intros H1 H2 H3 H4 H5 H6. unfold parse_value. rewrite H1. simpl.
  unfold parse_control_request, str_field. rewrite H2, H3. simpl. rewrite H4, H5, H6. done.
Qed.
