(* ===== verification/Commands.v ===== *)
(** Slash commands: the entries of the registry and its layers.

    Models crates/betcode-core/src/commands/ (mod.rs, builtin.rs, mcp.rs) and
    the registry of crates/betcode-daemon/src/commands/mod.rs.  Unicode case
    mapping is the class [UnicodeCase]. *)
From stdpp Require Import gmap strings list.
From S2P Require Import Prelude Json Ndjson.

Class UnicodeCase := {
  to_lowercase : string → string
}.

Inductive CommandCategory := CatService | CatClaudeCode | CatPlugin | CatSkill | CatMcp.

Inductive ExecutionMode := ModeLocal | ModePassthrough | ModePlugin.

#[export] Instance CommandCategory_eq_dec : EqDecision CommandCategory.
Proof. solve_decision. Defined.

Record CommandEntry := mkCommandEntry {
  ce_name : string;
  ce_description : string;
  ce_category : CommandCategory;
  ce_execution_mode : ExecutionMode;
  ce_source : string;
  ce_args_schema : option string;
  ce_group : option string;
  ce_display_name : option string
}.

Definition command_entry_new (name description : string) (category : CommandCategory) (mode : ExecutionMode)
    (source : string) : CommandEntry :=
  mkCommandEntry name description category mode source None None None.

Definition with_group (group : string) (e : CommandEntry) : CommandEntry :=
  mkCommandEntry (ce_name e) (ce_description e) (ce_category e) (ce_execution_mode e) (ce_source e)
    (ce_args_schema e) (Some group) (ce_display_name e).

Definition with_display_name (display_name : string) (e : CommandEntry) : CommandEntry :=
  mkCommandEntry (ce_name e) (ce_description e) (ce_category e) (ce_execution_mode e) (ce_source e)
    (ce_args_schema e) (ce_group e) (Some display_name).

Definition builtin_commands : list CommandEntry :=
  [command_entry_new "cd" "Change working directory" CatService ModeLocal "built-in";
   command_entry_new "pwd" "Print working directory" CatService ModeLocal "built-in";
   command_entry_new "exit" "Exit the betcode session" CatService ModeLocal "built-in";
   command_entry_new "exit-daemon" "Stop the betcode daemon" CatService ModeLocal "built-in";
   command_entry_new "reload-remote" "Reload commands, agents, and file index" CatService ModeLocal "built-in"].

(** [s.split_once(sep)]: around the first occurrence of the separator. *)
Fixpoint split_once (sep s : string) : option (string * string) :=
  match strip_prefix sep s with
  | Some rest => Some (EmptyString, rest)
  | None => match s with
            | EmptyString => None
            | String c s' => (λ '(a, b), (String c a, b)) <$> split_once sep s'
            end
  end.

(** [s.contains(p)] *)
Fixpoint contains (p s : string) : bool :=
  starts_with p s || match s with EmptyString => false | String _ s' => contains p s' end.

Definition mcp_tool_entry (tool : ToolSchema) : option CommandEntry :=
  rest ← strip_prefix "mcp__" (ts_name tool);
  '(server, tool_name) ← split_once "__" rest;
  if decide (server = EmptyString ∨ tool_name = EmptyString) then None
  else
    let display_name := server +:+ ":" +:+ tool_name in
    let description := default ("MCP tool: " +:+ tool_name) (ts_description tool) in
    Some (with_display_name display_name
            (with_group server (command_entry_new display_name description CatMcp ModePassthrough "mcp"))).

Definition mcp_tools_to_entries (tools : list ToolSchema) : list CommandEntry := omap mcp_tool_entry tools.

(** * The registry *)

Record CommandRegistry := mkCommandRegistry {
  base_entries : list CommandEntry;
  session_layers : gmap string (list CommandEntry)
}.

Definition registry_new : CommandRegistry := mkCommandRegistry builtin_commands ∅.

Definition registry_add (entry : CommandEntry) (r : CommandRegistry) : CommandRegistry :=
  mkCommandRegistry (base_entries r ++ [entry]) (session_layers r).

Definition get_for_session (session_id : string) (r : CommandRegistry) : list CommandEntry :=
  base_entries r ++ default [] (session_layers r !! session_id).

Definition get_all (r : CommandRegistry) : list CommandEntry := base_entries r.

Definition name_matches {UC : UnicodeCase} (query : string) (e : CommandEntry) : Prop :=
  contains (to_lowercase query) (to_lowercase (ce_name e)) = true.

#[export] Instance name_matches_dec {UC : UnicodeCase} (query : string) (e : CommandEntry) :
  Decision (name_matches query e) := bool_eq_dec _ _.

Definition search_for_session {UC : UnicodeCase} (session_id query : string) (max_results : nat) (r : CommandRegistry)
  : list CommandEntry :=
  take max_results (filter (name_matches query) (get_for_session session_id r)).

Definition search {UC : UnicodeCase} (query : string) (max_results : nat) (r : CommandRegistry) : list CommandEntry :=
  take max_results (filter (name_matches query) (base_entries r)).

Definition clear_source (source : string) (r : CommandRegistry) : CommandRegistry :=
  mkCommandRegistry (filter (λ e, ce_source e ≠ source) (base_entries r)) (session_layers r).

Definition set_session_entries (session_id : string) (entries : list CommandEntry) (r : CommandRegistry)
  : CommandRegistry :=
  mkCommandRegistry (base_entries r) (<[session_id := entries]> (session_layers r)).

Definition update_session_plugin_entries (session_id : string) (plugin_entries : list CommandEntry)
    (r : CommandRegistry) : CommandRegistry :=
  let kept := filter (λ e, ce_category e = CatMcp) (default [] (session_layers r !! session_id)) in
  mkCommandRegistry (base_entries r) (<[session_id := kept ++ plugin_entries]> (session_layers r)).

Definition remove_session (session_id : string) (r : CommandRegistry) : CommandRegistry :=
  mkCommandRegistry (base_entries r) (delete session_id (session_layers r)).

(** * Names of MCP tools *)

Lemma split_once_spec (sep s a b : string) : split_once sep s = Some (a, b) → s = a +:+ sep +:+ b.
Proof.
  revert a. induction s as [|c s IH]; intros a; simpl; (destruct (strip_prefix sep _) as [t|] eqn:Hp;
    [intros [= <- <-]; by apply strip_prefix_spec in Hp|]); [done|].
  destruct (split_once sep s) as [[a' b']|] eqn:Hs; simpl; [|done].
  intros [= <- <-]. rewrite (IH a' eq_refl), string_app_cons. done.
Qed.

(** An entry is named after the tool it stands for: the tool's name can be
    read off its group and display name, so that distinct tools of distinct
    servers stay distinct. *)
Lemma mcp_entry_names_tool (tool : ToolSchema) (e : CommandEntry) :
  mcp_tool_entry tool = Some e →
  ∃ server name, ce_group e = Some server ∧ ce_name e = server +:+ ":" +:+ name ∧
    ce_display_name e = Some (ce_name e) ∧ ts_name tool = "mcp__" +:+ server +:+ "__" +:+ name ∧
    server ≠ EmptyString ∧ name ≠ EmptyString ∧ ce_category e = CatMcp.
Proof.
  unfold mcp_tool_entry. destruct (strip_prefix "mcp__" (ts_name tool)) as [rest|] eqn:Hp; [|done].
  apply strip_prefix_spec in Hp. cbn [mbind option_bind].
  destruct (split_once "__" rest) as [[server name]|] eqn:Hs; [|done]. apply split_once_spec in Hs.
  cbn [mbind option_bind]. case_decide as Hd; [done|]. intros [= <-]. exists server, name. cbn.
  split_and!; try done; [|tauto..]. by rewrite Hp, Hs.
Qed.

(** * Layers *)

Lemma set_session_isolated (s t : string) (es : list CommandEntry) (r : CommandRegistry) :
  get_for_session t (set_session_entries s es r) =
    if decide (s = t) then base_entries r ++ es else get_for_session t r.
Proof. unfold get_for_session, set_session_entries. simpl. rewrite lookup_insert. by case_decide. Qed.

Lemma remove_session_base (s t : string) (r : CommandRegistry) :
  get_for_session t (remove_session s r) = if decide (s = t) then base_entries r else get_for_session t r.
Proof.
  unfold get_for_session, remove_session. simpl. rewrite lookup_delete.
  case_decide; simpl; [by rewrite app_nil_r|done].
Qed.

(** Reloading plugins keeps the MCP tools of the session, in their order, and
    replaces everything else. *)
Lemma reload_keeps_mcp (s : string) (es : list CommandEntry) (r : CommandRegistry) :
  Forall (λ e, ce_category e ≠ CatMcp) es →
  filter (λ e, ce_category e = CatMcp) (get_for_session s (update_session_plugin_entries s es r)) =
    filter (λ e, ce_category e = CatMcp) (get_for_session s r) ∧
  filter (λ e, ce_category e ≠ CatMcp) (get_for_session s (update_session_plugin_entries s es r)) =
    filter (λ e, ce_category e ≠ CatMcp) (base_entries r) ++ es.
Proof.
  intros Hes. unfold get_for_session, update_session_plugin_entries. simpl. rewrite lookup_insert_eq. simpl.
  rewrite !filter_app. set (l := default [] (session_layers r !! s)).
  assert (filter (λ e, ce_category e = CatMcp) es = []) as ->.
  { induction Hes as [|e es He _ IH]; [done|]. by rewrite filter_cons_False. }
  assert (filter (λ e, ce_category e ≠ CatMcp) es = es) as ->.
  { induction Hes as [|e es He _ IH]; [done|]. rewrite filter_cons_True by done. by f_equal. }
  rewrite app_nil_r. split; f_equal.
  - induction l as [|e l IH]; [done|]. rewrite !filter_cons. case_decide; [|done]. rewrite filter_cons_True by done. by f_equal.
  - induction l as [|e l IH]; [done|]. rewrite !filter_cons. case_decide; [|done]. rewrite filter_cons_False by naive_solver. done.
Qed.
