(* ===== verification/OrchestrationStore.v ===== *)
(** The daemon's tables for subagents and orchestrations.

    Models crates/betcode-daemon/src/storage/queries_subagents.rs and the rows
    of storage/models.rs, with the constraints of
    migrations/: primary keys, foreign keys (which the connection enables) and
    checks.  A table is a map from its primary key to its rows; of the session
    table only the set of identifiers matters here.  [now] is what
    [unix_timestamp] returns. *)
From stdpp Require Import gmap strings list fin_maps.
From Stdlib Require Import ZArith Lia.
From S2P Require Import Prelude Protocol.

Record SubagentRow := mkSubagentRow {
  sa_id : string;
  sa_parent_session_id : string;
  sa_prompt : string;
  sa_model : option string;
  sa_max_turns : Z;
  sa_auto_approve : Z;
  sa_allowed_tools : string;
  sa_working_directory : option string;
  sa_status : string;
  sa_exit_code : option Z;
  sa_result_summary : option string;
  sa_created_at : Z;
  sa_started_at : option Z;
  sa_completed_at : option Z
}.

Record OrchestrationRow := mkOrchestrationRow {
  or_id : string;
  or_parent_session_id : string;
  or_strategy : string;
  or_status : string;
  or_created_at : Z;
  or_completed_at : option Z
}.

Record OrchestrationStepRow := mkStepRow {
  os_id : string;
  os_orchestration_id : string;
  os_subagent_id : option string;
  os_step_index : Z;
  os_prompt : string;
  os_depends_on : string;
  os_status : string;
  os_created_at : Z
}.

Record OrchestrationDb := mkOrchestrationDb {
  sessions : gset string;
  subagents : gmap string SubagentRow;
  orchestrations : gmap string OrchestrationRow;
  orchestration_steps : gmap string OrchestrationStepRow
}.

Definition with_subagents (t : gmap string SubagentRow) (d : OrchestrationDb) : OrchestrationDb :=
  mkOrchestrationDb (sessions d) t (orchestrations d) (orchestration_steps d).

Definition with_orchestrations (t : gmap string OrchestrationRow) (d : OrchestrationDb) : OrchestrationDb :=
  mkOrchestrationDb (sessions d) (subagents d) t (orchestration_steps d).

Definition with_steps (t : gmap string OrchestrationStepRow) (d : OrchestrationDb) : OrchestrationDb :=
  mkOrchestrationDb (sessions d) (subagents d) (orchestrations d) t.

(** * Subagents *)

Definition get_subagent (id : string) (d : OrchestrationDb) : result DatabaseError SubagentRow :=
  match subagents d !! id with
  | Some row => Ok row
  | None => Err (NotFound ("Subagent " +:+ id))
  end.

Definition create_subagent (now : Z) (id parent_session_id prompt : string) (model : option string) (max_turns : Z)
    (auto_approve : bool) (allowed_tools : string) (working_directory : option string) (d : OrchestrationDb)
  : OrchestrationDb * result DatabaseError SubagentRow :=
  match subagents d !! id with
  | Some _ => (d, Err (Query (UniqueViolation "subagents.id")))
  | None =>
      if decide (parent_session_id ∈ sessions d) then
        let d' := with_subagents
          (<[id := mkSubagentRow id parent_session_id prompt model max_turns (if auto_approve then 1 else 0)%Z
                     allowed_tools working_directory "pending" None None now None None]> (subagents d)) d in
        (d', get_subagent id d')
      else (d, Err (Query ForeignKeyViolation))
  end.

Definition matching_subagents (parent_session_id : string) (status_filter : option string) (d : OrchestrationDb)
  : list SubagentRow :=
  filter (λ row, sa_parent_session_id row = parent_session_id ∧ default (sa_status row) status_filter = sa_status row)
    ((map_to_list (subagents d)).*2).

Definition list_subagents_for_session {SO : SqlOrder} (parent_session_id : string) (status_filter : option string)
    (d : OrchestrationDb) : list SubagentRow :=
  order_by (λ a b, (sa_created_at b <=? sa_created_at a)%Z) (matching_subagents parent_session_id status_filter d).

Definition set_started (now : Z) (status : string) (r : SubagentRow) : SubagentRow :=
  mkSubagentRow (sa_id r) (sa_parent_session_id r) (sa_prompt r) (sa_model r) (sa_max_turns r) (sa_auto_approve r)
    (sa_allowed_tools r) (sa_working_directory r) status (sa_exit_code r) (sa_result_summary r)
    (sa_created_at r) (Some now) (sa_completed_at r).

Definition set_finished (now : Z) (status : string) (exit_code : option Z) (result_summary : option string)
    (r : SubagentRow) : SubagentRow :=
  mkSubagentRow (sa_id r) (sa_parent_session_id r) (sa_prompt r) (sa_model r) (sa_max_turns r) (sa_auto_approve r)
    (sa_allowed_tools r) (sa_working_directory r) status exit_code result_summary
    (sa_created_at r) (sa_started_at r) (Some now).

Definition set_status (status : string) (r : SubagentRow) : SubagentRow :=
  mkSubagentRow (sa_id r) (sa_parent_session_id r) (sa_prompt r) (sa_model r) (sa_max_turns r) (sa_auto_approve r)
    (sa_allowed_tools r) (sa_working_directory r) status (sa_exit_code r) (sa_result_summary r)
    (sa_created_at r) (sa_started_at r) (sa_completed_at r).

Definition finished_statuses : list string := ["completed"; "failed"; "cancelled"].

(** An [UPDATE] that sets the status of row [id] with [f], with the check on
    the column. *)
Definition update_subagent (id status : string) (f : SubagentRow → SubagentRow) (d : OrchestrationDb)
  : OrchestrationDb * result DatabaseError unit :=
  match subagents d !! id with
  | None => (d, Ok tt)
  | Some _ =>
      if decide (status ∈ ["pending"; "running"; "completed"; "failed"; "cancelled"])
      then (with_subagents (alter f id (subagents d)) d, Ok tt)
      else (d, Err (Query (CheckViolation "status")))
  end.

Definition update_subagent_status (now : Z) (id status : string) (exit_code : option Z) (result_summary : option string)
    (d : OrchestrationDb) : OrchestrationDb * result DatabaseError unit :=
  if decide (status = "running") then update_subagent id status (set_started now status) d
  else if decide (status ∈ finished_statuses)
  then update_subagent id status (set_finished now status exit_code result_summary) d
  else update_subagent id status (set_status status) d.

(** * Orchestrations *)

Definition get_orchestration (id : string) (d : OrchestrationDb) : result DatabaseError OrchestrationRow :=
  match orchestrations d !! id with
  | Some row => Ok row
  | None => Err (NotFound ("Orchestration " +:+ id))
  end.

Definition create_orchestration (now : Z) (id parent_session_id strategy : string) (d : OrchestrationDb)
  : OrchestrationDb * result DatabaseError OrchestrationRow :=
  match orchestrations d !! id with
  | Some _ => (d, Err (Query (UniqueViolation "orchestrations.id")))
  | None =>
      if decide (strategy ∈ ["parallel"; "sequential"; "dag"]) then
        if decide (parent_session_id ∈ sessions d) then
          let d' := with_orchestrations
            (<[id := mkOrchestrationRow id parent_session_id strategy "pending" now None]> (orchestrations d)) d in
          (d', get_orchestration id d')
        else (d, Err (Query ForeignKeyViolation))
      else (d, Err (Query (CheckViolation "strategy")))
  end.

Definition set_orchestration_status (now : Z) (status : string) (r : OrchestrationRow) : OrchestrationRow :=
  mkOrchestrationRow (or_id r) (or_parent_session_id r) (or_strategy r) status (or_created_at r)
    (if decide (status ∈ ["completed"; "failed"]) then Some now else or_completed_at r).

Definition update_orchestration_status (now : Z) (id status : string) (d : OrchestrationDb)
  : OrchestrationDb * result DatabaseError unit :=
  match orchestrations d !! id with
  | None => (d, Ok tt)
  | Some _ =>
      if decide (status ∈ ["pending"; "running"; "completed"; "failed"])
      then (with_orchestrations (alter (set_orchestration_status now status) id (orchestrations d)) d, Ok tt)
      else (d, Err (Query (CheckViolation "status")))
  end.

(** * Steps *)

Definition get_orchestration_step (id : string) (d : OrchestrationDb) : result DatabaseError OrchestrationStepRow :=
  match orchestration_steps d !! id with
  | Some row => Ok row
  | None => Err (NotFound ("OrchestrationStep " +:+ id))
  end.

(** The primary key is the step's identifier alone. *)
Definition create_orchestration_step (now : Z) (id orchestration_id : string) (step_index : Z) (prompt depends_on : string)
    (d : OrchestrationDb) : OrchestrationDb * result DatabaseError OrchestrationStepRow :=
  match orchestration_steps d !! id with
  | Some _ => (d, Err (Query (UniqueViolation "orchestration_steps.id")))
  | None =>
      match orchestrations d !! orchestration_id with
      | None => (d, Err (Query ForeignKeyViolation))
      | Some _ =>
          let d' := with_steps
            (<[id := mkStepRow id orchestration_id None step_index prompt depends_on "pending" now]>
              (orchestration_steps d)) d in
          (d', get_orchestration_step id d')
      end
  end.

Definition get_steps_for_orchestration {SO : SqlOrder} (orchestration_id : string) (d : OrchestrationDb)
  : list OrchestrationStepRow :=
  order_by (λ a b, (os_step_index a <=? os_step_index b)%Z)
    (filter (λ row, os_orchestration_id row = orchestration_id) ((map_to_list (orchestration_steps d)).*2)).

Definition set_step_status (status : string) (subagent_id : option string) (r : OrchestrationStepRow)
  : OrchestrationStepRow :=
  mkStepRow (os_id r) (os_orchestration_id r)
    (match subagent_id with Some s => Some s | None => os_subagent_id r end)
    (os_step_index r) (os_prompt r) (os_depends_on r) status (os_created_at r).

Definition step_statuses : list string := ["pending"; "running"; "completed"; "failed"; "blocked"].

Definition known_subagent (subagent_id : option string) (d : OrchestrationDb) : bool :=
  match subagent_id with
  | Some s => bool_decide (is_Some (subagents d !! s))
  | None => true
  end.

(** Linking the step to a subagent that has no row violates the foreign key,
    and the whole statement fails. *)
Definition update_step_status (id status : string) (subagent_id : option string) (d : OrchestrationDb)
  : OrchestrationDb * result DatabaseError unit :=
  match orchestration_steps d !! id with
  | None => (d, Ok tt)
  | Some _ =>
      if decide (status ∈ step_statuses) then
        if known_subagent subagent_id d
        then (with_steps (alter (set_step_status status subagent_id) id (orchestration_steps d)) d, Ok tt)
        else (d, Err (Query ForeignKeyViolation))
      else (d, Err (Query (CheckViolation "status")))
  end.
