(* ===== verification/SubagentManager.v ===== *)
(** Subagents and orchestrations: the process pool, the lifecycle of a
    subagent, and the task that drives an orchestration's scheduler.

    Models crates/betcode-daemon/src/orchestration/: pool.rs and manager.rs,
    on [Scheduler] and [OrchestrationStore].

    The monitoring task of a subagent and the task of an orchestration are
    state machines whose steps are the sections between the points where they
    wait; [manager_step] interleaves them with the calls of clients.  What the
    operating system answers (whether a process starts, how it ends, which
    directories exist) and the clock are arguments.  Spawning is one step:
    until it returns nobody else knows the subagent.  The bounded channels to
    the subscribers of a subagent are never full here. *)
From stdpp Require Import gmap strings list fin_maps pretty.
From Stdlib Require Import ZArith Lia.
From S2P Require Import Prelude Protocol Json Scheduler OrchestrationStore.

(** * The pool *)

Definition DEFAULT_MAX_CONCURRENCY : nat := 5.

Record PoolEntry := mkPoolEntry {
  pe_subagent_id : string;
  pe_stdin_tx : nat
}.

Record SubprocessPool := mkPool {
  available_permits : nat;
  max_concurrency : nat;
  entries : gmap string PoolEntry
}.

Definition pool_new (limit : nat) : SubprocessPool :=
  let limit := if decide (limit = 0) then DEFAULT_MAX_CONCURRENCY else limit in
  mkPool limit limit ∅.

(** The permit is accounted for by its holder; [None]: the pool is full. *)
Definition try_acquire (p : SubprocessPool) : option SubprocessPool :=
  match available_permits p with
  | 0 => None
  | S n => Some (mkPool n (max_concurrency p) (entries p))
  end.

(** Dropping a permit. *)
Definition drop_permit (p : SubprocessPool) : SubprocessPool :=
  mkPool (S (available_permits p)) (max_concurrency p) (entries p).

Definition pool_register (e : PoolEntry) (p : SubprocessPool) : SubprocessPool :=
  mkPool (available_permits p) (max_concurrency p) (<[pe_subagent_id e := e]> (entries p)).

Definition pool_unregister (id : string) (p : SubprocessPool) : SubprocessPool :=
  mkPool (available_permits p) (max_concurrency p) (delete id (entries p)).

Definition pool_get (id : string) (p : SubprocessPool) : option PoolEntry := entries p !! id.

Definition active_count (p : SubprocessPool) : nat := size (entries p).

(** * Subagents *)

Definition DEFAULT_TIMEOUT_SECS : Z := 600.

Record SubagentConfig := mkConfig {
  cf_id : string;
  cf_parent_session_id : string;
  cf_prompt : string;
  cf_model : option string;
  cf_working_directory : string;
  cf_allowed_tools : list string;
  cf_max_turns : Z;
  cf_auto_approve : bool;
  cf_timeout_secs : Z
}.

(** The events of a subagent, as the generated protocol types name them. *)
Inductive SubagentEventKind :=
| Started (session_id model : string)
| Output (text : string) (complete : bool)
| ToolUse (tool_id tool_name description : string)
| PermissionRequest (request_id tool_name description : string)
| SubagentCompleted (exit_code : Z) (result_summary : string)
| SubagentFailed (exit_code : Z) (error_message : string)
| SubagentCancelled (reason : string).

Record SubagentEvent := mkSubagentEvent {
  se_subagent_id : string;
  se_timestamp : Z;
  se_event : SubagentEventKind
}.

Record RunningSubagent := mkRunning {
  event_txs : list nat;
  pid : option Z;
  auto_approve : bool
}.

(** Where the monitoring task of a subagent is: before its first event, while
    the process runs, after it wrote the outcome, after it left the pool and
    the running map. *)
Inductive MonitorStage := Starting | Alive | Reported | Unregistered.

Record Monitor := mkMonitor {
  mo_stage : MonitorStage;
  mo_model : string;
  mo_timeout : Z;
  mo_args : list string;
  mo_dir : string
}.

(** * Orchestrations *)

Record OrchestrationStep := mkStep {
  step_id : string;
  step_name : string;
  step_prompt : string;
  step_model : string;
  step_working_directory : string;
  step_depends_on : list string;
  step_allowed_tools : list string;
  step_max_turns : Z;
  step_auto_approve : bool
}.

Inductive OrchestrationStrategy := Unspecified | Parallel | Sequential | Dag.

#[export] Instance OrchestrationStrategy_eq_dec : EqDecision OrchestrationStrategy.
Proof. solve_decision. Defined.

Inductive OrchestrationEventKind :=
| StepStarted (step subagent name : string)
| StepCompleted (step result_summary : string) (completed_count total_count : Z)
| StepFailed (step error_message : string) (blocked_steps : list string)
| OrchestrationFailed (error_message : string) (completed_steps failed_steps : Z)
| OrchestrationCompleted (total_steps succeeded failed : Z).

Record OrchestrationEvent := mkOrchestrationEvent {
  oe_orchestration_id : string;
  oe_timestamp : Z;
  oe_event : OrchestrationEventKind
}.

(** Where the task of an orchestration is: at the head of its loop, waiting
    there for a notification, starting the ready steps, waiting for a
    notification after that, checking the running steps, finished. *)
Inductive LoopPc :=
| LTop
| LWaitFirst
| LSpawn (rest : list string)
| LWaitRunning
| LCheck (rest : list string)
| LDone.

(** The task and its [Notify]: whether a notification is stored for the next
    wait, and whether the present wait has been woken. *)
Record Loop := mkLoop {
  lp_pc : LoopPc;
  lp_parent : string;
  lp_steps : list OrchestrationStep;
  lp_scheduler : DagScheduler;
  lp_completed_count : Z;
  lp_failed_count : Z;
  lp_step_results : gmap string string;
  lp_stored : bool;
  lp_woken : bool;
  lp_events : list OrchestrationEvent
}.

Definition lp_total (lp : Loop) : Z := Z.of_nat (length (lp_steps lp)).

Definition with_pc (pc : LoopPc) (lp : Loop) : Loop :=
  mkLoop pc (lp_parent lp) (lp_steps lp) (lp_scheduler lp) (lp_completed_count lp) (lp_failed_count lp)
    (lp_step_results lp) (lp_stored lp) (lp_woken lp) (lp_events lp).

Definition with_notify (stored woken : bool) (lp : Loop) : Loop :=
  mkLoop (lp_pc lp) (lp_parent lp) (lp_steps lp) (lp_scheduler lp) (lp_completed_count lp) (lp_failed_count lp)
    (lp_step_results lp) stored woken (lp_events lp).

Definition with_scheduler (s : DagScheduler) (completed failed : Z) (results : gmap string string) (lp : Loop) : Loop :=
  mkLoop (lp_pc lp) (lp_parent lp) (lp_steps lp) s completed failed results (lp_stored lp) (lp_woken lp) (lp_events lp).

Definition send_event (now : Z) (o : string) (ev : OrchestrationEventKind) (lp : Loop) : Loop :=
  mkLoop (lp_pc lp) (lp_parent lp) (lp_steps lp) (lp_scheduler lp) (lp_completed_count lp) (lp_failed_count lp)
    (lp_step_results lp) (lp_stored lp) (lp_woken lp) (lp_events lp ++ [mkOrchestrationEvent o now ev]).

(** * The manager *)

Record Manager := mkManager {
  m_pool : SubprocessPool;
  m_db : OrchestrationDb;
  m_running : gmap string RunningSubagent;
  m_orchestrations : gset string;
  m_sub_to_orch : gmap string string;
  m_monitors : gmap string Monitor;
  m_loops : gmap string Loop;
  m_cancelling : gset string;
  m_next_tx : nat;
  m_closed : gset nat;
  m_delivered : list (nat * SubagentEvent);
  m_stdin : list (nat * string)
}.

Definition manager_new (p : SubprocessPool) (d : OrchestrationDb) : Manager :=
  mkManager p d ∅ ∅ ∅ ∅ ∅ ∅ 0 ∅ [] [].

Definition with_pool (p : SubprocessPool) (m : Manager) : Manager :=
  mkManager p (m_db m) (m_running m) (m_orchestrations m) (m_sub_to_orch m) (m_monitors m) (m_loops m)
    (m_cancelling m) (m_next_tx m) (m_closed m) (m_delivered m) (m_stdin m).

Definition with_db (d : OrchestrationDb) (m : Manager) : Manager :=
  mkManager (m_pool m) d (m_running m) (m_orchestrations m) (m_sub_to_orch m) (m_monitors m) (m_loops m)
    (m_cancelling m) (m_next_tx m) (m_closed m) (m_delivered m) (m_stdin m).

Definition with_running (r : gmap string RunningSubagent) (m : Manager) : Manager :=
  mkManager (m_pool m) (m_db m) r (m_orchestrations m) (m_sub_to_orch m) (m_monitors m) (m_loops m)
    (m_cancelling m) (m_next_tx m) (m_closed m) (m_delivered m) (m_stdin m).

Definition with_active (s : gset string) (m : Manager) : Manager :=
  mkManager (m_pool m) (m_db m) (m_running m) s (m_sub_to_orch m) (m_monitors m) (m_loops m)
    (m_cancelling m) (m_next_tx m) (m_closed m) (m_delivered m) (m_stdin m).

Definition with_sub_to_orch (t : gmap string string) (m : Manager) : Manager :=
  mkManager (m_pool m) (m_db m) (m_running m) (m_orchestrations m) t (m_monitors m) (m_loops m)
    (m_cancelling m) (m_next_tx m) (m_closed m) (m_delivered m) (m_stdin m).

Definition with_monitors (t : gmap string Monitor) (m : Manager) : Manager :=
  mkManager (m_pool m) (m_db m) (m_running m) (m_orchestrations m) (m_sub_to_orch m) t (m_loops m)
    (m_cancelling m) (m_next_tx m) (m_closed m) (m_delivered m) (m_stdin m).

Definition with_loops (t : gmap string Loop) (m : Manager) : Manager :=
  mkManager (m_pool m) (m_db m) (m_running m) (m_orchestrations m) (m_sub_to_orch m) (m_monitors m) t
    (m_cancelling m) (m_next_tx m) (m_closed m) (m_delivered m) (m_stdin m).

Definition with_cancelling (s : gset string) (m : Manager) : Manager :=
  mkManager (m_pool m) (m_db m) (m_running m) (m_orchestrations m) (m_sub_to_orch m) (m_monitors m) (m_loops m)
    s (m_next_tx m) (m_closed m) (m_delivered m) (m_stdin m).

Definition with_channels (next : nat) (closed : gset nat) (delivered : list (nat * SubagentEvent))
    (stdin : list (nat * string)) (m : Manager) : Manager :=
  mkManager (m_pool m) (m_db m) (m_running m) (m_orchestrations m) (m_sub_to_orch m) (m_monitors m) (m_loops m)
    (m_cancelling m) next closed delivered stdin.

(** * Errors as text *)

Section Text.
Context {ST : SqlText}.

Definition manager_error_text (e : ManagerError) : string :=
  match e with
  | PoolFull => "Subprocess pool is full"
  | SpawnFailed reason => "Failed to spawn subprocess: " +:+ reason
  | SubagentNotFound id => "Subagent not found: " +:+ id
  | AlreadyCompleted id => "Subagent already completed: " +:+ id
  | OrchestrationNotFound id => "Orchestration not found: " +:+ id
  | DatabaseFailed e => "Database error: " +:+ database_error_text e
  | Validation message => "Validation error: " +:+ message
  end.

End Text.

(** * The life of a subagent *)

(** What the operating system and the clock answer while a subagent is
    started: the time, the current directory, which directories exist, the
    home and the temporary directory, and whether the process starts (with
    the identifier it then has). *)
Record SpawnEnv := mkSpawnEnv {
  env_now : Z;
  env_current_dir : string;
  env_dir_exists : string → bool;
  env_home : option string;
  env_temp : string;
  env_spawn : result string (option Z)
}.

Definition claude_args (c : SubagentConfig) : list string :=
  ["--output-format"; "stream-json"; "--input-format"; "stream-json"; "--verbose"] ++
  (if cf_auto_approve c && negb (bool_decide (cf_allowed_tools c = [])) then "--allowedTools" :: cf_allowed_tools c else []) ++
  ["-p"; cf_prompt c; "--include-partial-messages"] ++
  match cf_model c with Some model => ["--model"; model] | None => [] end ++
  (if (0 <? cf_max_turns c)%Z then ["--max-turns"; pretty (cf_max_turns c)] else []).

Definition spawn_dir (env : SpawnEnv) (c : SubagentConfig) : string :=
  if bool_decide (cf_working_directory c = EmptyString) || negb (env_dir_exists env (cf_working_directory c))
  then default (env_temp env) (env_home env)
  else cf_working_directory c.

(** [broadcast_event]: closed channels are dropped, the others get the event. *)
Definition open_txs (m : Manager) (txs : list nat) : list nat := filter (λ tx, tx ∉ m_closed m) txs.

Definition broadcast_event (id : string) (ev : SubagentEvent) (m : Manager) : Manager :=
  match m_running m !! id with
  | None => m
  | Some sa =>
      let txs := open_txs m (event_txs sa) in
      with_channels (m_next_tx m) (m_closed m) (m_delivered m ++ ((λ tx, (tx, ev)) <$> txs)) (m_stdin m)
        (with_running (<[id := mkRunning txs (pid sa) (auto_approve sa)]> (m_running m)) m)
  end.

Section Operations.
Context {ST : SqlText} {JT : JsonText}.

Definition spawn (env : SpawnEnv) (c : SubagentConfig) (m : Manager) : Manager * result ManagerError string :=
  if decide (cf_prompt c = EmptyString) then (m, Err (Validation "prompt must not be empty"))
  else if cf_auto_approve c && bool_decide (cf_allowed_tools c = [])
  then (m, Err (Validation "auto_approve requires non-empty allowed_tools"))
  else match try_acquire (m_pool m) with
  | None => (m, Err PoolFull)
  | Some p =>
      match create_subagent (env_now env) (cf_id c) (cf_parent_session_id c) (cf_prompt c) (cf_model c) (cf_max_turns c)
              (cf_auto_approve c) (json_strings (cf_allowed_tools c)) (Some (cf_working_directory c)) (m_db m) with
      | (d, Err e) => (with_db d m, Err (DatabaseFailed e))
      | (d, Ok _) =>
          match env_spawn env with
          | Err reason => (with_db d m, Err (SpawnFailed reason))
          | Ok proc =>
              let tx := m_next_tx m in
              let d' := (update_subagent_status (env_now env) (cf_id c) "running" None None d).1 in
              let timeout := if decide (cf_timeout_secs c = 0%Z) then DEFAULT_TIMEOUT_SECS else cf_timeout_secs c in
              let monitor := mkMonitor Starting (default EmptyString (cf_model c)) timeout (claude_args c) (spawn_dir env c) in
              (with_pool (pool_register (mkPoolEntry (cf_id c) tx) p)
                 (with_db d'
                    (with_running (<[cf_id c := mkRunning [] proc (cf_auto_approve c)]> (m_running m))
                       (with_monitors (<[cf_id c := monitor]> (m_monitors m))
                          (with_channels (S tx) (m_closed m) (m_delivered m) (m_stdin m) m)))),
               Ok (cf_id c))
          end
      end
  end.

Definition set_stage (id : string) (stage : MonitorStage) (m : Manager) : Manager :=
  with_monitors (alter (λ mo, mkMonitor stage (mo_model mo) (mo_timeout mo) (mo_args mo) (mo_dir mo)) id (m_monitors m)) m.

(** The monitoring task announces the subagent. *)
Definition monitor_started (now : Z) (id : string) (m : Manager) : Manager :=
  match m_monitors m !! id with
  | Some mo =>
      match mo_stage mo with
      | Starting => set_stage id Alive (broadcast_event id (mkSubagentEvent id now (Started EmptyString (mo_model mo))) m)
      | _ => m
      end
  | None => m
  end.

(** How waiting for the process ends. *)
Inductive ExitResult :=
| Exited (code : option Z)
| WaitError (message : string)
| TimedOut.

Definition exit_outcome (r : ExitResult) : string * option Z * string :=
  match r with
  | Exited code =>
      if decide (code = Some 0%Z) then ("completed", code, "Completed successfully")
      else ("failed", code, "Exited with code " +:+ pretty (default (-1)%Z code))
  | WaitError e => ("failed", None, "Process error: " +:+ e)
  | TimedOut => ("failed", None, "Timed out")
  end.

Definition terminal_event (status : string) (exit_code : option Z) (summary : string) : SubagentEventKind :=
  if decide (status = "completed") then SubagentCompleted (default 0%Z exit_code) summary
  else if decide (status = "cancelled") then SubagentCancelled summary
  else SubagentFailed (default (-1)%Z exit_code) summary.

(** The process has ended: the outcome is stored and announced. *)
Definition monitor_exit (now : Z) (id : string) (r : ExitResult) (m : Manager) : Manager :=
  match m_monitors m !! id with
  | Some mo =>
      match mo_stage mo with
      | Alive =>
          let '(status, exit_code, summary) := exit_outcome r in
          let m := with_db (update_subagent_status now id status exit_code (Some summary) (m_db m)).1 m in
          set_stage id Reported
            (broadcast_event id (mkSubagentEvent id now (terminal_event status exit_code summary)) m)
      | _ => m
      end
  | None => m
  end.

(** The subagent leaves the pool's entries and the running map. *)
Definition monitor_unregister (id : string) (m : Manager) : Manager :=
  match m_monitors m !! id with
  | Some mo =>
      match mo_stage mo with
      | Reported =>
          set_stage id Unregistered (with_running (delete id (m_running m)) (with_pool (pool_unregister id (m_pool m)) m))
      | _ => m
      end
  | None => m
  end.

Definition waiting (pc : LoopPc) : bool :=
  match pc with LWaitFirst | LWaitRunning => true | _ => false end.

(** [Notify::notify_one]: wakes the waiting task, or stores one permit. *)
Definition notify_one (lp : Loop) : Loop :=
  if waiting (lp_pc lp) && negb (lp_woken lp) then with_notify (lp_stored lp) true lp
  else with_notify true (lp_woken lp) lp.

(** The monitoring task notifies the orchestration of the subagent, if it has
    one that still runs, and ends; its permit returns to the pool. *)
Definition monitor_finish (id : string) (m : Manager) : Manager :=
  match m_monitors m !! id with
  | Some mo =>
      match mo_stage mo with
      | Unregistered =>
          let m1 :=
            match m_sub_to_orch m !! id with
            | Some o =>
                with_sub_to_orch (delete id (m_sub_to_orch m))
                  (if decide (o ∈ m_orchestrations m) then with_loops (alter notify_one o (m_loops m)) m else m)
            | None => m
            end in
          with_monitors (delete id (m_monitors m1)) (with_pool (drop_permit (m_pool m1)) m1)
      | _ => m
      end
  | None => m
  end.

(** * Calls on a subagent *)

Definition subscribe (id : string) (m : Manager) : Manager * result ManagerError nat :=
  match m_running m !! id with
  | None => (m, Err (SubagentNotFound id))
  | Some sa =>
      let tx := m_next_tx m in
      (with_channels (S tx) (m_closed m) (m_delivered m) (m_stdin m)
         (with_running (<[id := mkRunning (event_txs sa ++ [tx]) (pid sa) (auto_approve sa)]> (m_running m)) m), Ok tx)
  end.

(** [alive]: whether the task that writes to the process still runs. *)
Definition send_input (id content : string) (alive : bool) (m : Manager) : Manager * result ManagerError bool :=
  match pool_get id (m_pool m) with
  | None => (m, Err (SubagentNotFound id))
  | Some e =>
      (if alive then with_channels (m_next_tx m) (m_closed m) (m_delivered m) (m_stdin m ++ [(pe_stdin_tx e, content)]) m
       else m, Ok alive)
  end.

(** Cancelling looks the subagent up (and signals its process), and writes the
    row only after it released the lock on the running map. *)
Definition cancel_begin (id : string) (m : Manager) : Manager * result ManagerError bool :=
  match m_running m !! id with
  | None => (m, Ok false)
  | Some _ => (with_cancelling ({[id]} ∪ m_cancelling m) m, Ok true)
  end.

Definition cancel_end (now : Z) (id reason : string) (m : Manager) : Manager :=
  if decide (id ∈ m_cancelling m)
  then with_db (update_subagent_status now id "cancelled" None (Some reason) (m_db m)).1 m
  else m.

Definition revoke_auto_approve (id : string) (m : Manager) : Manager * result ManagerError bool :=
  match m_running m !! id with
  | Some sa => (with_running (<[id := mkRunning (event_txs sa) (pid sa) false]> (m_running m)) m, Ok true)
  | None => (m, Ok false)
  end.

Definition is_running (id : string) (m : Manager) : bool := bool_decide (is_Some (m_running m !! id)).

Definition subscribe_orchestration (o : string) (m : Manager) : result ManagerError nat :=
  match m_loops m !! o with
  | Some lp =>
      if decide (o ∈ m_orchestrations m) then Ok (length (lp_events lp)) else Err (OrchestrationNotFound o)
  | None => Err (OrchestrationNotFound o)
  end.

(** * Output lines of a subagent *)

Definition is_block (ty : string) (b : Json) : bool := bool_decide (get "type" b ≫= as_str = Some ty).

Definition text_of_block (b : Json) : option string :=
  if is_block "text" b then get "text" b ≫= as_str else None.

Definition tool_use_event (b : Json) : option SubagentEventKind :=
  if is_block "tool_use" b then Some (ToolUse (str_field "id" b) (str_field "name" b) EmptyString) else None.

Definition message_content (v : Json) : list Json := default [] ((get "message" v ≫= get "content") ≫= as_array).

(** The events of one line, before they are stamped. *)
Definition line_events (v : Json) : list SubagentEventKind :=
  let ty := str_field "type" v in
  if decide (ty = "assistant") then
    let text := foldr String.append EmptyString (omap text_of_block (message_content v)) in
    (if decide (text = EmptyString) then [] else [Output text false]) ++ omap tool_use_event (message_content v)
  else if decide (ty = "content_block_delta") then
    let text := default EmptyString ((get "delta" v ≫= get "text") ≫= as_str) in
    if decide (text = EmptyString) then [] else [Output text false]
  else if decide (ty = "control_request") then
    [PermissionRequest (str_field "request_id" v) (default EmptyString ((get "request" v ≫= get "tool_name") ≫= as_str)) EmptyString]
  else [].

Definition parse_stdout_line (now : Z) (id line : string) : list SubagentEvent :=
  match json_parse line with
  | None => []
  | Some v => mkSubagentEvent id now <$> line_events v
  end.

Definition on_stdout_line (now : Z) (id line : string) (m : Manager) : Manager :=
  foldl (λ m ev, broadcast_event id ev m) m (parse_stdout_line now id line).

(** * Starting an orchestration *)

Definition dep_map (steps : list OrchestrationStep) : gmap string (list string) :=
  foldl (λ m s, <[step_id s := step_depends_on s]> m) ∅ steps.

Definition step_configs (steps : list OrchestrationStep) : gmap string OrchestrationStep :=
  foldl (λ m s, <[step_id s := s]> m) ∅ steps.

Definition strategy_str (s : OrchestrationStrategy) : string :=
  match s with
  | Sequential => "sequential"
  | Dag => "dag"
  | Parallel | Unspecified => "parallel"
  end.

Fixpoint create_steps (now : Z) (o : string) (i : Z) (steps : list OrchestrationStep) (d : OrchestrationDb)
  : OrchestrationDb * result DatabaseError unit :=
  match steps with
  | [] => (d, Ok tt)
  | s :: rest =>
      match create_orchestration_step now (step_id s) o i (step_prompt s) (json_strings (step_depends_on s)) d with
      | (d', Ok _) => create_steps now o (i + 1) rest d'
      | (d', Err e) => (d', Err e)
      end
  end.

Definition run_orchestration {HI : HashIter} (now : Z) (o parent : string) (strategy : OrchestrationStrategy)
    (steps : list OrchestrationStep) (m : Manager) : Manager * result ManagerError unit :=
  match new (step_id <$> steps) (dep_map steps) with
  | Err e => (m, Err e)
  | Ok scheduler =>
      match create_orchestration now o parent (strategy_str strategy) (m_db m) with
      | (d, Err e) => (with_db d m, Err (DatabaseFailed e))
      | (d, Ok _) =>
          match update_orchestration_status now o "running" d with
          | (d, Err e) => (with_db d m, Err (DatabaseFailed e))
          | (d, Ok _) =>
              match create_steps now o 0 steps d with
              | (d, Err e) => (with_db d m, Err (DatabaseFailed e))
              | (d, Ok _) =>
                  (with_active ({[o]} ∪ m_orchestrations m)
                     (with_loops (<[o := mkLoop LTop parent steps scheduler 0 0 ∅ false false []]> (m_loops m))
                        (with_db d m)), Ok tt)
              end
          end
      end
  end.

(** * The task of an orchestration *)

Definition subagent_of (o x : string) : string := o +:+ "-" +:+ x.

(** [notified().await]: a stored permit is taken at once. *)
Definition await_notified (wait next : LoopPc) (lp : Loop) : Loop :=
  if lp_stored lp then with_pc next (with_notify false (lp_woken lp) lp) else with_pc wait lp.

(** The wait is over once it has been woken. *)
Definition resume (next : LoopPc) (lp : Loop) : Loop :=
  if lp_woken lp then with_pc next (with_notify (lp_stored lp) false lp) else lp.

Definition full_prompt (results : gmap string string) (cfg : OrchestrationStep) : string :=
  foldl (λ p dep, match results !! dep with
                  | Some r => p +:+ "[Context from step " +:+ dep +:+ "]: " +:+ r +:+
                              String (Ascii.ascii_of_nat 10) (String (Ascii.ascii_of_nat 10) EmptyString)
                  | None => p
                  end) EmptyString (step_depends_on cfg) +:+ step_prompt cfg.

Definition step_subagent (env : SpawnEnv) (o : string) (lp : Loop) (x : string) (cfg : OrchestrationStep) : SubagentConfig :=
  mkConfig (subagent_of o x) (lp_parent lp) (full_prompt (lp_step_results lp) cfg)
    (if decide (step_model cfg = EmptyString) then None else Some (step_model cfg))
    (if decide (step_working_directory cfg = EmptyString) then env_current_dir env else step_working_directory cfg)
    (step_allowed_tools cfg) (step_max_turns cfg) (step_auto_approve cfg) 0.

(** The rows of the steps that a failure blocked. *)
Definition write_blocked (blocked : list string) (d : OrchestrationDb) : OrchestrationDb :=
  foldl (λ d b, (update_step_status b "blocked" None d).1) d blocked.

(** A step failed: the scheduler cascades, the count and the event follow. *)
Definition step_failed (now : Z) (o x message : string) (lp : Loop) : Loop * list string :=
  let '(s, blocked) := mark_failed x (lp_scheduler lp) in
  (send_event now o (StepFailed x message blocked)
     (with_scheduler s (lp_completed_count lp) (lp_failed_count lp + 1) (lp_step_results lp) lp), blocked).

(** Starting one ready step. *)
Definition spawn_step (env : SpawnEnv) (o x : string) (lp : Loop) (m : Manager) : Manager * Loop :=
  match step_configs (lp_steps lp) !! x with
  | None => (m, lp)
  | Some cfg =>
      let id := subagent_of o x in
      let m1 := with_db (update_step_status x "running" (Some id) (m_db m)).1
                  (with_sub_to_orch (<[id := o]> (m_sub_to_orch m)) m) in
      match spawn env (step_subagent env o lp x cfg) m1 with
      | (m2, Ok _) =>
          (m2, with_scheduler (mark_running x (lp_scheduler lp)) (lp_completed_count lp) (lp_failed_count lp)
                 (lp_step_results lp) (send_event (env_now env) o (StepStarted x id (step_name cfg)) lp))
      | (m2, Err e) =>
          let '(lp', blocked) := step_failed (env_now env) o x (manager_error_text e) lp in
          (with_db (write_blocked blocked (update_step_status x "failed" None (m_db m2)).1)
             (with_sub_to_orch (delete id (m_sub_to_orch m2)) m2), lp')
      end
  end.

(** Checking one step that was running. *)
Definition check_step (now : Z) (o x : string) (lp : Loop) (m : Manager) : Manager * Loop :=
  let id := subagent_of o x in
  if is_running id m then (m, lp)
  else match get_subagent id (m_db m) with
  | Err _ => (m, lp)
  | Ok sa =>
      if decide (sa_status sa = "completed") then
        let summary := default EmptyString (sa_result_summary sa) in
        let s := (mark_completed x (lp_scheduler lp)).1 in
        let completed := (lp_completed_count lp + 1)%Z in
        (with_db (update_step_status x "completed" (Some id) (m_db m)).1 m,
         send_event now o (StepCompleted x summary completed (lp_total lp))
           (with_scheduler s completed (lp_failed_count lp) (<[x := summary]> (lp_step_results lp)) lp))
      else if decide (sa_status sa = "failed" ∨ sa_status sa = "cancelled") then
        let '(lp', blocked) := step_failed now o x (default "Unknown failure" (sa_result_summary sa)) lp in
        (with_db (write_blocked blocked (update_step_status x "failed" (Some id) (m_db m)).1) m, lp')
      else (m, lp)
  end.

(** The end of the loop. *)
Definition final_outcome (lp : Loop) : string * OrchestrationEventKind :=
  if (0 <? lp_failed_count lp)%Z
  then ("failed", OrchestrationFailed (pretty (lp_failed_count lp) +:+ " step(s) failed")
                    (lp_completed_count lp) (lp_failed_count lp))
  else ("completed", OrchestrationCompleted (lp_total lp) (lp_completed_count lp) 0).

Definition finish (now : Z) (o : string) (lp : Loop) (m : Manager) : Manager * Loop :=
  let '(status, ev) := final_outcome lp in
  (with_active (m_orchestrations m ∖ {[o]}) (with_db (update_orchestration_status now o status (m_db m)).1 m),
   with_pc LDone (send_event now o ev lp)).

(** One step of the task, up to its next wait or to the next step id. *)
Definition loop_step (env : SpawnEnv) (o : string) (lp : Loop) (m : Manager) : Manager * Loop :=
  let s := lp_scheduler lp in
  match lp_pc lp with
  | LTop =>
      let ready := next_ready s in
      let none_ready := bool_decide (ready = []) in
      if none_ready && negb (is_complete s) && (lp_failed_count lp =? 0)%Z then (m, await_notified LWaitFirst LTop lp)
      else if none_ready && (is_complete s || (0 <? lp_failed_count lp)%Z) then finish (env_now env) o lp m
      else (m, with_pc (LSpawn ready) lp)
  | LWaitFirst => (m, resume LTop lp)
  | LSpawn (x :: rest) => let '(m', lp') := spawn_step env o x lp m in (m', with_pc (LSpawn rest) lp')
  | LSpawn [] =>
      (m, if decide (running_ids s = []) then with_pc (LCheck []) lp
          else await_notified LWaitRunning (LCheck (running_ids s)) lp)
  | LWaitRunning => (m, resume (LCheck (running_ids s)) lp)
  | LCheck (x :: rest) => let '(m', lp') := check_step (env_now env) o x lp m in (m', with_pc (LCheck rest) lp')
  | LCheck [] => (m, with_pc LTop lp)
  | LDone => (m, lp)
  end.

(** * Executions *)

Inductive Op :=
| ORun (now : Z) (o parent : string) (strategy : OrchestrationStrategy) (steps : list OrchestrationStep)
| OLoop (env : SpawnEnv) (o : string)
| OSpawn (env : SpawnEnv) (c : SubagentConfig)
| OStarted (now : Z) (id : string)
| OStdout (now : Z) (id line : string)
| OExit (now : Z) (id : string) (r : ExitResult)
| OUnregister (id : string)
| OFinish (id : string)
| OSubscribe (id : string)
| OCloseTx (tx : nat)
| OSend (id content : string) (alive : bool)
| OCancelBegin (id : string)
| OCancelEnd (now : Z) (id reason : string)
| ORevoke (id : string).

Definition manager_step {HI : HashIter} (op : Op) (m : Manager) : Manager :=
  match op with
  | ORun now o parent strategy steps => (run_orchestration now o parent strategy steps m).1
  | OLoop env o =>
      match m_loops m !! o with
      | Some lp => let '(m', lp') := loop_step env o lp m in with_loops (<[o := lp']> (m_loops m')) m'
      | None => m
      end
  | OSpawn env c => (spawn env c m).1
  | OStarted now id => monitor_started now id m
  | OStdout now id line => on_stdout_line now id line m
  | OExit now id r => monitor_exit now id r m
  | OUnregister id => monitor_unregister id m
  | OFinish id => monitor_finish id m
  | OSubscribe id => (subscribe id m).1
  | OCloseTx tx => with_channels (m_next_tx m) ({[tx]} ∪ m_closed m) (m_delivered m) (m_stdin m) m
  | OSend id content alive => (send_input id content alive m).1
  | OCancelBegin id => (cancel_begin id m).1
  | OCancelEnd now id reason => cancel_end now id reason m
  | ORevoke id => (revoke_auto_approve id m).1
  end.

Definition manager_run {HI : HashIter} (ops : list Op) (m : Manager) : Manager :=
  foldl (λ m op, manager_step op m) m ops.

End Operations.

(** * Examples *)

Definition plain_text : SqlText := {| sql_failure_text f := "constraint failed" |}.
Definition no_json : JsonText := {| json_parse _ := None; json_strings l := "[" +:+ join "," l +:+ "]" |}.

Section Examples.
#[local] Existing Instance plain_text.
#[local] Existing Instance no_json.

Definition demo_step (id : string) (deps : list string) : OrchestrationStep :=
  mkStep id id "do it" EmptyString EmptyString deps [] 0 false.

Definition demo_env : SpawnEnv := mkSpawnEnv 1 "/" (λ _, true) None "/tmp" (Ok (Some 42%Z)).

Definition demo_manager : Manager := manager_new (pool_new 3) (mkOrchestrationDb {["s"]} ∅ ∅ ∅).

(** The process of a step's subagent ends with exit code 0, and its monitoring
    task runs to its end. *)
Definition demo_exit (o x : string) : list Op :=
  let id := subagent_of o x in [OStarted 2 id; OExit 3 id (Exited (Some 0%Z)); OUnregister id; OFinish id].

Definition demo_loop (o : string) (n : nat) : list Op := replicate n (OLoop demo_env o).

Example chain_runs_through :
  let ops := [ORun 0 "o" "s" Sequential [demo_step "a" []; demo_step "b" ["a"]]] ++
             demo_loop "o" 3 ++ demo_exit "o" "a" ++ demo_loop "o" 6 ++ demo_exit "o" "b" ++ demo_loop "o" 5 in
  let m := manager_run ops demo_manager in
  lp_pc <$> m_loops m !! "o" = Some LDone ∧
  or_status <$> orchestrations (m_db m) !! "o" = Some "completed" ∧
  os_status <$> orchestration_steps (m_db m) !! "b" = Some "completed" ∧
  sa_prompt <$> subagents (m_db m) !! "o-b" =
    Some (full_prompt {[ "a" := "Completed successfully" ]} (demo_step "b" ["a"])).
Proof. vm_compute. repeat split. Qed.

End Examples.
