(* ===== verification/SubagentCorrect.v ===== *)
(** The life of a subagent: permits, the running map, its row.

    In every execution, a subagent that runs holds one permit of the pool, is
    in the pool's entries and in the running map until it is reported, and
    its row holds its outcome from then on. *)
From stdpp Require Import gmap strings list fin_maps pretty.
From Stdlib Require Import ZArith Lia.
From S2P Require Import Prelude Protocol Json Scheduler OrchestrationStore SubagentManager.

(** * Rows of subagents *)

Definition finished (row : SubagentRow) : Prop := sa_status row ∈ finished_statuses.

(** No subagent row disappears, and an outcome is only replaced by another. *)
Definition outcomes_kept (d d' : OrchestrationDb) : Prop :=
  ∀ id row, subagents d !! id = Some row →
    ∃ row', subagents d' !! id = Some row' ∧ (finished row → finished row').

#[export] Instance outcomes_kept_preorder : PreOrder outcomes_kept.
Proof.
  split; [intros d id row H; eauto|]. intros d1 d2 d3 H12 H23 id row H.
  destruct (H12 id row H) as (row2 & H2 & Hf2). destruct (H23 id row2 H2) as (row3 & H3 & Hf3). eauto.
Qed.

Lemma same_subagents_kept (d d' : OrchestrationDb) : subagents d' = subagents d → outcomes_kept d d'.
Proof. intros H id row. rewrite H. eauto. Qed.

Lemma update_finished_kept (now : Z) (id status : string) (code : option Z) (summary : option string) (d : OrchestrationDb) :
  status ∈ finished_statuses → outcomes_kept d (update_subagent_status now id status code summary d).1.
Proof.
  intros Hs. unfold update_subagent_status. rewrite decide_False, decide_True; [|done|set_solver].
  unfold update_subagent. destruct (subagents d !! id) eqn:Hid; [|reflexivity]. case_decide; [|reflexivity].
  intros id' row Hrow. cbn. rewrite lookup_alter. case_decide; [subst; rewrite Hrow; by eexists|eauto].
Qed.

Lemma update_finished_writes (now : Z) (id status : string) (code : option Z) (summary : option string)
    (d : OrchestrationDb) (row : SubagentRow) :
  status ∈ finished_statuses → subagents d !! id = Some row →
  ∃ row', subagents (update_subagent_status now id status code summary d).1 !! id = Some row' ∧ finished row'.
Proof.
  intros Hs Hrow. unfold update_subagent_status. rewrite decide_False, decide_True; [|done|set_solver].
  unfold update_subagent. rewrite Hrow. rewrite decide_True by set_solver.
  cbn. rewrite lookup_alter_eq, Hrow. by eexists.
Qed.

Lemma update_step_subagents (x status : string) (sa : option string) (d : OrchestrationDb) :
  subagents (update_step_status x status sa d).1 = subagents d.
Proof. unfold update_step_status. by repeat case_match. Qed.

Lemma write_blocked_subagents (blocked : list string) (d : OrchestrationDb) :
  subagents (write_blocked blocked d) = subagents d.
Proof.
  unfold write_blocked. revert d. induction blocked as [|b bs IH]; intros d; [done|]. cbn [foldl].
  by rewrite IH, update_step_subagents.
Qed.

Lemma create_orchestration_subagents (now : Z) (o parent strategy : string) (d : OrchestrationDb) :
  subagents (create_orchestration now o parent strategy d).1 = subagents d.
Proof. unfold create_orchestration. by repeat case_match. Qed.

Lemma update_orchestration_subagents (now : Z) (o status : string) (d : OrchestrationDb) :
  subagents (update_orchestration_status now o status d).1 = subagents d.
Proof. unfold update_orchestration_status. by repeat case_match. Qed.

Lemma create_step_subagents (now : Z) (x o : string) (i : Z) (prompt deps : string) (d : OrchestrationDb) :
  subagents (create_orchestration_step now x o i prompt deps d).1 = subagents d.
Proof. unfold create_orchestration_step. by repeat case_match. Qed.

(** * Starting a subagent *)

Section Spawn.
Context {ST : SqlText} {JT : JsonText}.

(** What a successful start changes. *)
Record started (env : SpawnEnv) (c : SubagentConfig) (m m' : Manager) : Prop := {
  sp_fresh : subagents (m_db m) !! cf_id c = None;
  sp_row : ∃ row, subagents (m_db m') = <[cf_id c := row]> (subagents (m_db m));
  sp_permit : available_permits (m_pool m) = S (available_permits (m_pool m'));
  sp_max : max_concurrency (m_pool m') = max_concurrency (m_pool m);
  sp_entries : ∃ e, entries (m_pool m') = <[cf_id c := e]> (entries (m_pool m));
  sp_running : ∃ r, m_running m' = <[cf_id c := r]> (m_running m);
  sp_monitors : ∃ mo, m_monitors m' = <[cf_id c := mo]> (m_monitors m) ∧ mo_stage mo = Starting;
  sp_rest : m_loops m' = m_loops m ∧ m_sub_to_orch m' = m_sub_to_orch m ∧ m_orchestrations m' = m_orchestrations m
}.

Lemma create_subagent_effect (now : Z) (id parent prompt : string) (model : option string) (turns : Z) (auto : bool)
    (tools : string) (dir : option string) (d : OrchestrationDb) :
  match create_subagent now id parent prompt model turns auto tools dir d with
  | (d', Ok _) => subagents d !! id = None ∧ ∃ row, subagents d' = <[id := row]> (subagents d)
  | (d', Err _) => d' = d
  end.
Proof.
  unfold create_subagent. destruct (subagents d !! id) eqn:Hid; [done|]. case_decide; [|done].
  unfold get_subagent. cbn. rewrite lookup_insert_eq. split; [done|]. by eexists.
Qed.

Lemma insert_fresh_kept (d d' : OrchestrationDb) (id : string) (row : SubagentRow) :
  subagents d !! id = None → subagents d' = <[id := row]> (subagents d) → outcomes_kept d d'.
Proof.
  intros Hid H id' row' Hrow. rewrite H. destruct (decide (id = id')) as [->|Hne]; [congruence|].
  rewrite lookup_insert_ne by done. eauto.
Qed.

Lemma spawn_effect (env : SpawnEnv) (c : SubagentConfig) (m : Manager) :
  match spawn env c m with
  | (m', Ok id) => id = cf_id c ∧ started env c m m'
  | (m', Err _) => ∃ d, m' = with_db d m ∧ outcomes_kept (m_db m) d
  end.
Proof.
  assert (∃ d, m = with_db d m ∧ outcomes_kept (m_db m) d) as Hsame.
  { exists (m_db m). split; [by destruct m|reflexivity]. }
  unfold spawn. case_decide; [done|]. destruct (_ && _); [done|].
  unfold try_acquire. destruct (available_permits (m_pool m)) as [|n] eqn:Hn; [done|].
  match goal with |- context [create_subagent ?a ?b ?p ?d ?e ?f ?g ?h ?i ?j] =>
    pose proof (create_subagent_effect a b p d e f g h i j) as Hk; destruct (create_subagent a b p d e f g h i j) as [d' [?|?]] end.
  2:{ subst d'. exists (m_db m). split; [done|reflexivity]. }
  destruct Hk as (Hfresh & row & Hrow).
  destruct (env_spawn env) as [proc|reason].
  2:{ exists d'. split; [done|]. by eapply insert_fresh_kept. }
  split; [done|]. constructor; cbn; try (by eauto).
  unfold update_subagent_status. rewrite decide_True by done. unfold update_subagent.
  rewrite Hrow, lookup_insert_eq, decide_True by set_solver. cbn.
  eexists. by rewrite alter_insert_eq.
Qed.

Lemma started_kept (env : SpawnEnv) (c : SubagentConfig) (m m' : Manager) :
  started env c m m' → outcomes_kept (m_db m) (m_db m').
Proof. intros [Hf [row Hr] _ _ _ _ _ _]. by eapply insert_fresh_kept. Qed.

End Spawn.

(** * The invariant *)

Record agents_ok (limit : nat) (m : Manager) : Prop := {
  ao_permits : available_permits (m_pool m) + size (m_monitors m) = limit;
  ao_max : max_concurrency (m_pool m) = limit;
  ao_running : ∀ id, is_Some (m_running m !! id) ↔ ∃ mo, m_monitors m !! id = Some mo ∧ mo_stage mo ≠ Unregistered;
  ao_entries : ∀ id, is_Some (entries (m_pool m) !! id) ↔ is_Some (m_running m !! id);
  ao_rows : ∀ id mo, m_monitors m !! id = Some mo → is_Some (subagents (m_db m) !! id);
  ao_outcome : ∀ id mo row, m_monitors m !! id = Some mo → mo_stage mo = Reported ∨ mo_stage mo = Unregistered →
    subagents (m_db m) !! id = Some row → finished row
}.

(** Steps that concern no subagent's life. *)
Definition quiet (m m' : Manager) : Prop :=
  m_pool m' = m_pool m ∧ m_monitors m' = m_monitors m ∧
  (∀ id, is_Some (m_running m' !! id) ↔ is_Some (m_running m !! id)) ∧ outcomes_kept (m_db m) (m_db m').

#[export] Instance quiet_preorder : PreOrder quiet.
Proof.
  split; [intros m; by split_and!|]. intros m1 m2 m3 (Hp & Hm & Hr & Hd) (Hp' & Hm' & Hr' & Hd').
  split_and!; [congruence..| |by etransitivity]. intros id. by rewrite Hr', Hr.
Qed.

Lemma quiet_ok (limit : nat) (m m' : Manager) : quiet m m' → agents_ok limit m → agents_ok limit m'.
Proof.
  intros (Hp & Hm & Hr & Hd) [Hpe Hmx Hru He Hro Ho]. constructor; rewrite ?Hp, ?Hm; [done|done|..].
  - intros id. by rewrite Hr.
  - intros id. by rewrite Hr.
  - intros id mo Hmo. destruct (Hro id mo Hmo) as [row Hrow]. destruct (Hd id row Hrow) as (row' & Hrow' & _). by eexists.
  - intros id mo row Hmo Hst Hrow. destruct (Hro id mo Hmo) as [row0 Hrow0].
    destruct (Hd id row0 Hrow0) as (row' & Hrow' & Hf). rewrite Hrow in Hrow'. injection Hrow' as <-. eauto.
Qed.

Section Lives.
Context {ST : SqlText} {JT : JsonText} {HI : HashIter}.

Lemma started_ok (limit : nat) (env : SpawnEnv) (c : SubagentConfig) (m m' : Manager) :
  started env c m m' → agents_ok limit m → agents_ok limit m'.
Proof.
  intros [Hf [row Hrow] Hp Hmax [e He] [r Hr] (mo & Hmo & Hst) _] [Hpe Hmx Hru Hen Hro Ho].
  assert (m_monitors m !! cf_id c = None) as Hno.
  { apply eq_None_not_Some. intros [mo' Hmo']. destruct (Hro _ _ Hmo') as [? ?]. congruence. }
  constructor.
  - rewrite Hmo, map_size_insert_None by done. lia.
  - by rewrite Hmax.
  - intros id. rewrite Hr, Hmo, lookup_insert_is_Some'. destruct (decide (cf_id c = id)) as [<-|Hne].
    + rewrite lookup_insert_eq. split; [|by left]. intros _. exists mo. by rewrite Hst.
    + rewrite lookup_insert_ne by done. rewrite <- Hru. naive_solver.
  - intros id. by rewrite He, Hr, !lookup_insert_is_Some', Hen.
  - intros id mo' Hmo'. rewrite Hrow, lookup_insert_is_Some'. rewrite Hmo in Hmo'.
    apply lookup_insert_Some in Hmo' as [[<- _]|[Hne Hmo']]; [by left|right; by eapply Hro].
  - intros id mo' row' Hmo' Hst' Hrow'. rewrite Hmo in Hmo'. rewrite Hrow in Hrow'.
    apply lookup_insert_Some in Hmo' as [[<- <-]|[Hne Hmo']]; [rewrite Hst in Hst'; naive_solver|].
    rewrite lookup_insert_ne in Hrow' by done. by eapply Ho.
Qed.

Lemma spawn_ok (limit : nat) (env : SpawnEnv) (c : SubagentConfig) (m : Manager) : agents_ok limit m → agents_ok limit (spawn env c m).1.
Proof.
  intros Hm. pose proof (spawn_effect env c m) as H. destruct (spawn env c m) as [m' [?|?]]; cbn [fst].
  - destruct H as [_ H]. by eapply started_ok.
  - destruct H as (d & -> & Hd). by apply (quiet_ok limit m).
Qed.

Lemma quiet_broadcast (id : string) (ev : SubagentEvent) (m : Manager) : quiet m (broadcast_event id ev m).
Proof.
  unfold broadcast_event. destruct (m_running m !! id) eqn:Hid; [|reflexivity].
  split_and!; [done..| |reflexivity]. intros id'. cbn. rewrite lookup_insert_is_Some'.
  split; [intros [<-|?]; [by rewrite Hid|done]|by right].
Qed.

Lemma quiet_stdout (now : Z) (id line : string) (m : Manager) : quiet m (on_stdout_line now id line m).
Proof.
  unfold on_stdout_line. revert m. induction (parse_stdout_line now id line) as [|ev evs IH]; intros m; [reflexivity|].
  cbn [foldl]. etransitivity; [apply quiet_broadcast|apply IH].
Qed.

Lemma quiet_db (d : OrchestrationDb) (m : Manager) : outcomes_kept (m_db m) d → quiet m (with_db d m).
Proof. intros Hd. by split_and!. Qed.

(** A monitoring task that moves on without leaving or entering the running
    map. *)
Lemma set_stage_ok (limit : nat) (id : string) (stage : MonitorStage) (mo : Monitor) (m : Manager) :
  m_monitors m !! id = Some mo → (mo_stage mo = Unregistered ↔ stage = Unregistered) →
  (stage = Reported ∨ stage = Unregistered → ∀ row, subagents (m_db m) !! id = Some row → finished row) →
  agents_ok limit m → agents_ok limit (set_stage id stage m).
Proof.
  intros Hmo Hun Hout [Hpe Hmx Hru Hen Hro Ho]. unfold set_stage. constructor; cbn.
  - by rewrite map_size_alter.
  - done.
  - intros id'. rewrite Hru, lookup_alter. destruct (decide (id = id')) as [->|Hne]; [|done].
    rewrite Hmo. cbn. split.
    + intros (mo' & [= <-] & H). eexists. split; [done|]. cbn. tauto.
    + intros (mo' & [= <-] & H). eexists. split; [done|]. cbn in H. tauto.
  - done.
  - intros id' mo' Hmo'. rewrite lookup_alter in Hmo'. case_decide; [subst; by eapply Hro|by eapply Hro].
  - intros id' mo' row Hmo' Hst Hrow. rewrite lookup_alter in Hmo'. case_decide; [|by eapply Ho].
    subst id'. rewrite Hmo in Hmo'. injection Hmo' as <-. by apply Hout.
Qed.

Lemma monitor_started_ok (limit : nat) (now : Z) (id : string) (m : Manager) : agents_ok limit m → agents_ok limit (monitor_started now id m).
Proof.
  intros Hm. unfold monitor_started. destruct (m_monitors m !! id) as [mo|] eqn:Hmo; [|done].
  destruct (mo_stage mo) eqn:Hst; try done.
  pose proof (quiet_broadcast id (mkSubagentEvent id now (Started EmptyString (mo_model mo))) m) as Hq.
  pose proof Hq as (_ & Hmon & _). apply (set_stage_ok _ _ _ mo); [by rewrite Hmon|by rewrite Hst|naive_solver|by eapply quiet_ok].
Qed.

Lemma exit_outcome_finished (r : ExitResult) : (exit_outcome r).1.1 ∈ finished_statuses.
Proof. unfold exit_outcome, finished_statuses. destruct r; [case_decide|..]; cbn; set_solver. Qed.

Lemma monitor_exit_ok (limit : nat) (now : Z) (id : string) (r : ExitResult) (m : Manager) :
  agents_ok limit m → agents_ok limit (monitor_exit now id r m).
Proof.
  intros Hm. unfold monitor_exit. destruct (m_monitors m !! id) as [mo|] eqn:Hmo; [|done].
  destruct (mo_stage mo) eqn:Hst; try done.
  pose proof (exit_outcome_finished r) as Hfin. destruct (exit_outcome r) as [[status code] summary]. cbn [fst] in Hfin.
  set (d := (update_subagent_status now id status code (Some summary) (m_db m)).1).
  set (ev := mkSubagentEvent _ _ _).
  assert (quiet m (with_db d m)) as Hq1 by by apply quiet_db, update_finished_kept.
  pose proof (quiet_broadcast id ev (with_db d m)) as Hq2.
  apply (set_stage_ok _ _ _ mo).
  - destruct Hq2 as (_ & -> & _). done.
  - by rewrite Hst.
  - intros _ row. destruct (ao_rows limit m Hm id mo Hmo) as [row0 Hrow0].
    destruct (update_finished_writes now id status code (Some summary) (m_db m) row0 Hfin Hrow0) as (row1 & Hrow1 & Hf1).
    fold d in Hrow1. destruct Hq2 as (_ & _ & _ & Hk). destruct (Hk id row1 Hrow1) as (row2 & Hrow2 & Hf2).
    rewrite Hrow2. intros [= <-]. auto.
  - eapply quiet_ok; [|exact Hm]. by etransitivity.
Qed.

Lemma monitor_unregister_ok (limit : nat) (id : string) (m : Manager) : agents_ok limit m → agents_ok limit (monitor_unregister id m).
Proof.
  intros Hm. unfold monitor_unregister. destruct (m_monitors m !! id) as [mo|] eqn:Hmo; [|done].
  destruct (mo_stage mo) eqn:Hst; try done. destruct Hm as [Hpe Hmx Hru Hen Hro Ho]. unfold set_stage. constructor; cbn.
  - by rewrite map_size_alter.
  - done.
  - intros id'. rewrite lookup_delete, lookup_alter. case_decide; [|by rewrite Hru].
    subst id'. rewrite Hmo. cbn. split; [by intros []|]. by intros (mo' & [= <-] & ?).
  - intros id'. rewrite !lookup_delete. case_decide; [done|apply Hen].
  - intros id' mo' Hmo'. rewrite lookup_alter in Hmo'. case_decide; [subst; by eapply Hro|by eapply Hro].
  - intros id' mo' row Hmo' Hst' Hrow. rewrite lookup_alter in Hmo'. case_decide; [|by eapply Ho].
    subst id'. eapply Ho; eauto.
Qed.

Lemma monitor_finish_ok (limit : nat) (id : string) (m : Manager) : agents_ok limit m → agents_ok limit (monitor_finish id m).
Proof.
  intros Hm. unfold monitor_finish. destruct (m_monitors m !! id) as [mo|] eqn:Hmo; [|done].
  destruct (mo_stage mo) eqn:Hst; try done.
  set (m1 := match m_sub_to_orch m !! id with Some _ => _ | None => _ end).
  assert (m_pool m1 = m_pool m ∧ m_monitors m1 = m_monitors m ∧ m_running m1 = m_running m ∧ m_db m1 = m_db m)
    as (Hp1 & Hmo1 & Hr1 & Hd1) by (subst m1; by repeat case_match).
  clearbody m1. destruct Hm as [Hpe Hmx Hru Hen Hro Ho]. constructor; cbn; rewrite ?Hp1, ?Hmo1, ?Hr1, ?Hd1.
  - cbn. assert (size (m_monitors m) = S (size (delete id (m_monitors m)))); [|lia].
    rewrite <- (insert_delete_id (m_monitors m) id mo Hmo) at 1. by rewrite map_size_insert_None by apply lookup_delete_eq.
  - done.
  - intros id'. rewrite Hru, lookup_delete. case_decide; [|done]. subst id'. rewrite Hmo. split.
    + intros (mo' & [= <-] & ?). done.
    + by intros (? & ? & _).
  - done.
  - intros id' mo' Hmo'. apply lookup_delete_Some in Hmo' as [_ Hmo']. by eapply Hro.
  - intros id' mo' row Hmo' Hst' Hrow. apply lookup_delete_Some in Hmo' as [_ Hmo']. by eapply Ho.
Qed.

(** * Orchestrations start subagents and read their rows *)

Lemma create_steps_subagents (now : Z) (o : string) (i : Z) (steps : list OrchestrationStep) (d : OrchestrationDb) :
  subagents (create_steps now o i steps d).1 = subagents d.
Proof.
  revert i d. induction steps as [|s steps IH]; intros i d; [done|]. cbn [create_steps].
  pose proof (create_step_subagents now (step_id s) o i (step_prompt s) (json_strings (step_depends_on s)) d) as H.
  destruct (create_orchestration_step _ _ _ _ _ _ _) as [d' [?|?]]; cbn [fst] in H; [by rewrite IH, H|done].
Qed.

Lemma quiet_run_orchestration (now : Z) (o parent : string) (strategy : OrchestrationStrategy)
    (steps : list OrchestrationStep) (m : Manager) : quiet m (run_orchestration now o parent strategy steps m).1.
Proof.
  unfold run_orchestration. destruct (new _ _) as [s|]; [|reflexivity].
  pose proof (create_orchestration_subagents now o parent (strategy_str strategy) (m_db m)) as H1.
  destruct (create_orchestration _ _ _ _ _) as [d1 [?|?]]; cbn [fst] in *; [|by apply quiet_db, same_subagents_kept].
  pose proof (update_orchestration_subagents now o "running" d1) as H2.
  destruct (update_orchestration_status _ _ _ _) as [d2 [?|?]]; cbn [fst] in *;
    [|apply quiet_db, same_subagents_kept; congruence].
  pose proof (create_steps_subagents now o 0 steps d2) as H3.
  destruct (create_steps _ _ _ _ _) as [d3 [?|?]]; cbn [fst] in *;
    (split_and!; [done..|apply same_subagents_kept; cbn; congruence]).
Qed.

(** The part of starting a step before and after the subagent itself. *)
Lemma spawn_step_effect (env : SpawnEnv) (o x : string) (lp : Loop) (m : Manager) :
  quiet m (spawn_step env o x lp m).1 ∨
  ∃ cfg m1, step_configs (lp_steps lp) !! x = Some cfg ∧ quiet m m1 ∧
    subagents (m_db m1) = subagents (m_db m) ∧ m_loops m1 = m_loops m ∧ m_orchestrations m1 = m_orchestrations m ∧
    m_sub_to_orch m1 = <[subagent_of o x := o]> (m_sub_to_orch m) ∧
    started env (step_subagent env o lp x cfg) m1 (spawn_step env o x lp m).1.
Proof.
  unfold spawn_step. destruct (step_configs _ !! x) as [cfg|]; [|by left].
  set (m1 := with_db _ _).
  assert (subagents (m_db m1) = subagents (m_db m)) as Hsub by apply update_step_subagents.
  assert (quiet m m1) as Hq1 by (by split_and!; try apply same_subagents_kept).
  pose proof (spawn_effect env (step_subagent env o lp x cfg) m1) as H.
  destruct (spawn _ _ m1) as [m2 [id|e]]; cbn [fst].
  - destruct H as [_ H]. right. by exists cfg, m1.
  - destruct H as (d & -> & Hd). left. destruct (step_failed _ _ _ _ _) as [lp' blocked]. cbn [fst].
    etransitivity; [exact Hq1|]. split_and!; [done..|]. cbn. etransitivity; [exact Hd|].
    apply same_subagents_kept. by rewrite write_blocked_subagents, update_step_subagents.
Qed.

Lemma quiet_check_step (now : Z) (o x : string) (lp : Loop) (m : Manager) : quiet m (check_step now o x lp m).1.
Proof.
  unfold check_step. destruct (is_running _ m); [reflexivity|]. destruct (get_subagent _ _) as [sa|]; [|reflexivity].
  case_decide; [by apply quiet_db, same_subagents_kept, update_step_subagents|]. case_decide; [|reflexivity].
  destruct (step_failed _ _ _ _ _) as [lp' blocked]. cbn [fst]. apply quiet_db, same_subagents_kept.
  by rewrite write_blocked_subagents, update_step_subagents.
Qed.

Lemma quiet_finish (now : Z) (o : string) (lp : Loop) (m : Manager) : quiet m (finish now o lp m).1.
Proof.
  unfold finish. destruct (final_outcome lp) as [status ev]. split_and!; [done..|].
  apply same_subagents_kept. cbn. apply update_orchestration_subagents.
Qed.

Lemma loop_step_ok (limit : nat) (env : SpawnEnv) (o : string) (lp : Loop) (m : Manager) :
  agents_ok limit m → agents_ok limit (loop_step env o lp m).1.
Proof.
  intros Hm. unfold loop_step. destruct (lp_pc lp) as [| |[|x rest]| |[|x rest]|]; try done.
  - repeat case_match; try done. eapply quiet_ok; [apply quiet_finish|done].
  - destruct (spawn_step_effect env o x lp m) as [Hq|(cfg & m1 & _ & Hq & _ & _ & _ & _ & Hs)];
      destruct (spawn_step env o x lp m) as [m' lp']; cbn [fst] in *; [by eapply quiet_ok|].
    eapply started_ok; [exact Hs|]. by eapply quiet_ok.
  - pose proof (quiet_check_step (env_now env) o x lp m) as Hq. destruct (check_step (env_now env) o x lp m) as [m' lp'].
    by eapply quiet_ok.
Qed.

Lemma manager_step_ok (limit : nat) (op : Op) (m : Manager) : agents_ok limit m → agents_ok limit (manager_step op m).
Proof.
  intros Hm. destruct op; cbn [manager_step].
  - eapply quiet_ok; [apply quiet_run_orchestration|done].
  - destruct (m_loops m !! o) as [lp|]; [|done].
    pose proof (loop_step_ok limit env o lp m Hm) as H. destruct (loop_step env o lp m) as [m' lp']. by eapply quiet_ok; [|exact H].
  - by apply spawn_ok.
  - by apply monitor_started_ok.
  - eapply quiet_ok; [apply quiet_stdout|done].
  - by apply monitor_exit_ok.
  - by apply monitor_unregister_ok.
  - by apply monitor_finish_ok.
  - eapply quiet_ok; [|done]. unfold subscribe. destruct (m_running m !! id) eqn:Hid; [|reflexivity].
    split_and!; [done..| |reflexivity]. intros id'. cbn. rewrite lookup_insert_is_Some'.
    split; [intros [<-|?]; [by rewrite Hid|done]|by right].
  - by eapply quiet_ok; [|exact Hm].
  - eapply quiet_ok; [|done]. unfold send_input. by repeat case_match.
  - eapply quiet_ok; [|done]. unfold cancel_begin. by case_match.
  - unfold cancel_end. case_decide; [|done]. eapply quiet_ok; [|done]. apply quiet_db, update_finished_kept.
    unfold finished_statuses. set_solver.
  - eapply quiet_ok; [|done]. unfold revoke_auto_approve. destruct (m_running m !! id) eqn:Hid; [|reflexivity].
    split_and!; [done..| |reflexivity]. intros id'. cbn. rewrite lookup_insert_is_Some'.
    split; [intros [<-|?]; [by rewrite Hid|done]|by right].
Qed.

Definition pool_limit (limit : nat) : nat := max_concurrency (pool_new limit).

Lemma manager_run_ok (limit : nat) (ops : list Op) (d : OrchestrationDb) :
  agents_ok (pool_limit limit) (manager_run ops (manager_new (pool_new limit) d)).
Proof.
  induction ops as [|op ops IH] using rev_ind.
  - unfold manager_run. cbn. constructor; cbn; [by rewrite map_size_empty, Nat.add_0_r|done|..]; intros *; rewrite ?lookup_empty; try done.
    split; [by intros []|]. by intros (? & ? & _).
  - unfold manager_run in *. rewrite foldl_app. by apply manager_step_ok.
Qed.

(** C40: In every execution, at most the configured number of subagents (5 when it
    is zero) are monitored at a time, and so at most that many processes run;
    the permits that are left are exactly the others; a subagent can be
    written to iff it is in the running map; and a valid request to start one
    is refused for lack of room iff all permits are in use. *)
Theorem pool_bounds_subagents (limit : nat) (ops : list Op) (d : OrchestrationDb) :
  let m := manager_run ops (manager_new (pool_new limit) d) in
  let max := if decide (limit = 0) then 5 else limit in
  size (m_running m) ≤ size (m_monitors m) ∧
  available_permits (m_pool m) + size (m_monitors m) = max ∧
  (∀ id, is_running id m = true ↔ is_Some (pool_get id (m_pool m))) ∧
  (∀ env c, cf_prompt c ≠ EmptyString → cf_auto_approve c = false ∨ cf_allowed_tools c ≠ [] →
     ((spawn env c m).2 = Err PoolFull ↔ size (m_monitors m) = max)).
Proof.
  intros m max. destruct (manager_run_ok limit ops d) as [Hpe _ Hru Hen _ _]. fold m in Hpe, Hru, Hen.
  assert (pool_limit limit = max) as Hmax by (subst max; unfold pool_limit, pool_new; by case_decide).
  rewrite Hmax in Hpe. split_and!; [|done|..].
  - rewrite <- !size_dom. apply subseteq_size. intros id. rewrite !elem_of_dom, Hru. intros (mo & -> & _). eauto.
  - intros id. unfold is_running, pool_get. by rewrite bool_decide_eq_true, Hen.
  - intros env c Hprompt Htools. unfold spawn. rewrite decide_False by done.
    assert (cf_auto_approve c && bool_decide (cf_allowed_tools c = []) = false) as ->.
    { destruct Htools as [->|Ht]; [done|]. rewrite bool_decide_eq_false_2 by done. apply andb_false_r. }
    unfold try_acquire. destruct (available_permits (m_pool m)) as [|n]; [split; [lia|done]|].
    split; [|lia]. repeat case_match; done.
Qed.

End Lives.

Definition pool_demo : list Op :=
  let c (id : string) := mkConfig id "s" "work" None EmptyString [] 0 false 0 in
  [OSpawn demo_env (c "a"); OSpawn demo_env (c "b"); OSpawn demo_env (c "c"); OSpawn demo_env (c "d");
   OStarted 1 "a"; OExit 2 "a" (Exited None); OUnregister "a"; OSubscribe "b"].

Lemma pool_bounds_subagents_witness :
  let m := manager_run (ST := plain_text) (JT := no_json) pool_demo demo_manager in
  size (m_monitors m) = 3 ∧ size (m_running m) = 2 ∧
  (spawn (JT := no_json) demo_env (mkConfig "e" "s" "work" None EmptyString [] 0 false 0) m).2 = Err PoolFull.
Proof.
  intros m.
  destruct (pool_bounds_subagents (ST := plain_text) (JT := no_json) 3 pool_demo (mkOrchestrationDb {["s"]} ∅ ∅ ∅)) as (_ & _ & _ & H).
  split_and!; [reflexivity|reflexivity|]. apply H; [done|by left|reflexivity].
Defined.
