(* ===== verification/OrchestrationLoop.v ===== *)
(** The task of an orchestration follows its scheduler.

    Whatever else the manager does, every change the task makes to its
    scheduler is one of the transitions of [SchedulerRun], so that the
    scheduler's theorems hold of orchestrations; the counters agree with the
    states; the final event tells the truth.  The task's first wait is shown
    to be one it never gets past. *)
From stdpp Require Import gmap strings list fin_maps relations pretty.
From Stdlib Require Import ZArith Lia.
From S2P Require Import Prelude Protocol Json Scheduler SchedulerKahn SchedulerRun SchedulerCorrect.
From S2P Require Import OrchestrationStore SubagentManager.

(** * Counting steps by state *)

Definition count_state (st : StepState) (s : DagScheduler) : nat :=
  length (filter (λ x, states s !! x = Some st) (steps s)).

Lemma count_same (st : StepState) (s s' : DagScheduler) :
  steps s' = steps s → (∀ x, states s' !! x = Some st ↔ states s !! x = Some st) →
  count_state st s' = count_state st s.
Proof.
  intros Hs H. unfold count_state. rewrite Hs. f_equal. apply list_filter_iff. intros x. apply H.
Qed.

Lemma count_one_more (st : StepState) (s s' : DagScheduler) (x : string) :
  NoDup (steps s) → steps s' = steps s → x ∈ steps s → states s !! x ≠ Some st →
  (∀ n, states s' !! n = Some st ↔ n = x ∨ states s !! n = Some st) →
  count_state st s' = S (count_state st s).
Proof.
  intros Hnd Hs Hx Hnot H. unfold count_state. rewrite Hs.
  assert (filter (λ n, states s' !! n = Some st) (steps s) ≡ₚ x :: filter (λ n, states s !! n = Some st) (steps s)) as ->.
  { apply NoDup_Permutation.
    - by apply NoDup_filter.
    - constructor; [|by apply NoDup_filter]. rewrite list_elem_of_filter. tauto.
    - intros n. rewrite elem_of_cons, !list_elem_of_filter, H. split; [tauto|].
      intros [->|[? ?]]; tauto. }
  done.
Qed.

Lemma count_all (st : StepState) (s : DagScheduler) :
  (∀ x, x ∈ steps s → states s !! x = Some st) → count_state st s = length (steps s).
Proof.
  intros H. unfold count_state. f_equal. apply filter_all. apply Forall_forall. intros x Hx. by apply H.
Qed.

(** * The transitions, as the task makes them *)

Section Transitions.
Context (E : list (string * string)) (s : DagScheduler).
Hypothesis inv : sched_inv E s.

Lemma run_counts (x : string) :
  states s !! x = Some Ready →
  let s' := mark_running x s in
  steps s' = steps s ∧ count_state Completed s' = count_state Completed s ∧
  count_state Failed s' = count_state Failed s ∧ states s' !! x = Some Running ∧
  (∀ n, n ≠ x → states s' !! n = states s !! n) ∧
  ∀ n, n ≠ x → states s' !! n = Some Running → states s !! n = Some Running.
Proof.
  intros Hx s'.
  assert (∀ n, states s' !! n = if decide (n = x) then Some Running else states s !! n) as Hst
    by (intros n; by apply lookup_set_state with Ready).
  split_and!; [done| | |by rewrite Hst, decide_True| |].
  - apply count_same; [done|]. intros n. rewrite Hst. case_decide; [subst; rewrite Hx|]; done.
  - apply count_same; [done|]. intros n. rewrite Hst. case_decide; [subst; rewrite Hx|]; done.
  - intros n Hn. by rewrite Hst, decide_False.
  - intros n Hn. by rewrite Hst, decide_False.
Qed.

Lemma complete_counts (x : string) :
  states s !! x = Some Running →
  let s' := (mark_completed x s).1 in
  steps s' = steps s ∧ count_state Completed s' = S (count_state Completed s) ∧
  count_state Failed s' = count_state Failed s ∧ states s' !! x = Some Completed ∧
  (∀ n, n ≠ x → states s !! n ≠ Some Pending → states s' !! n = states s !! n) ∧
  ∀ n, n ≠ x → states s' !! n = Some Running → states s !! n = Some Running.
Proof.
  intros Hx s'.
  destruct (mark_completed_effect E s inv x Running Hx) as (Hs & _ & _ & _ & Hst & _ & Hin); [by right; left|done|].
  fold s' in Hs, Hst. assert (x ∈ steps s) as Hxs by (apply (si_states _ _ inv); eauto).
  assert (∀ n, n ∈ (mark_completed x s).2 → states s !! n = Some Pending) as Hp by (intros n Hn; by apply Hin in Hn as [? _]).
  split_and!; [done| | |by rewrite Hst, decide_True| |].
  - apply (count_one_more _ _ _ x); [apply (si_nodup _ _ inv)|done|done|by rewrite Hx|].
    intros n. rewrite Hst. case_decide; [subst; tauto|].
    case_decide as Hn; [|tauto]. apply Hp in Hn. rewrite Hn. split; [done|intros [?|?]; done].
  - apply count_same; [done|]. intros n. rewrite Hst. case_decide; [subst; by rewrite Hx|].
    case_decide as Hn; [|done]. apply Hp in Hn. by rewrite Hn.
  - intros n Hn Hnp. rewrite Hst, decide_False by done. case_decide as Hin'; [|done]. by apply Hp in Hin'.
  - intros n Hn. rewrite Hst, decide_False by done. by case_decide.
Qed.

Lemma fail_counts (x : string) :
  states s !! x = Some Ready ∨ states s !! x = Some Running →
  let s' := (mark_failed x s).1 in
  steps s' = steps s ∧ count_state Completed s' = count_state Completed s ∧
  count_state Failed s' = S (count_state Failed s) ∧ states s' !! x = Some Failed ∧
  (∀ n st, n ≠ x → states s !! n = Some st → active st → states s' !! n = Some st) ∧
  ∀ n, n ≠ x → states s' !! n = Some Running → states s !! n = Some Running.
Proof.
  intros Hrr s'.
  assert (∃ st, states s !! x = Some st ∧ active st ∧ st ≠ Completed ∧ st ≠ Failed) as (st & Hx & Ha & Hnc & Hnf).
  { destruct Hrr as [H|H]; eexists; (split_and!; [exact H| |done..]); unfold active; auto. }
  destruct (mark_failed_effect E s inv x st Hx Ha Hnc) as (Hs & _ & _ & (V & HV & Hst) & _).
  fold s' in Hs, Hst. assert (x ∈ steps s) as Hxs by (apply (si_states _ _ inv); eauto).
  assert (∀ n, n ∈ V → states s !! n = Some Pending ∨ states s !! n = Some Blocked) as Hd
    by (intros n Hn; apply HV in Hn; by eapply descendants_unfinished).
  assert (x ∉ V) as HxV by (intros Hn; apply Hd in Hn; rewrite Hx in Hn; unfold active in Ha; naive_solver).
  split_and!; [done| | |by rewrite Hst, decide_False, decide_True| |].
  - apply count_same; [done|]. intros n. rewrite Hst.
    case_decide as Hn; [destruct (Hd n Hn) as [H|H]; by rewrite H|]. case_decide; [subst; rewrite Hx|done].
    split; [done|congruence].
  - apply (count_one_more _ _ _ x); [apply (si_nodup _ _ inv)|done|done|rewrite Hx; congruence|].
    intros n. rewrite Hst. case_decide as Hn.
    + split; [done|]. intros [->|H]; [done|]. destruct (Hd n Hn) as [H'|H']; rewrite H' in H; done.
    + case_decide; [subst; tauto|tauto].
  - intros n st' Hn Hst' Ha'. rewrite Hst, decide_False, decide_False; [done..|].
    intros HV'. destruct (Hd n HV') as [H|H]; rewrite H in Hst'; unfold active in Ha'; naive_solver.
  - intros n Hn. rewrite Hst. repeat case_decide; done.
Qed.

End Transitions.

(** * Step lists as dependency maps *)

Lemma lookup_fold_steps {V : Type} (f : OrchestrationStep → V) (steps : list OrchestrationStep) (m : gmap string V) (x : string) :
  foldl (λ m s, <[step_id s := f s]> m) m steps !! x =
  match last (filter (λ s, step_id s = x) steps) with Some s => Some (f s) | None => m !! x end.
Proof.
  revert m. induction steps as [|s steps IH] using rev_ind; intros m; [done|].
  rewrite foldl_app, filter_app. cbn [foldl]. rewrite lookup_insert, IH. cbn [filter].
  rewrite filter_cons, filter_nil. destruct (decide (step_id s = x)).
  - by rewrite last_snoc.
  - by rewrite app_nil_r.
Qed.

Lemma last_filter_step (steps : list OrchestrationStep) (x : string) :
  is_Some (last (filter (λ s, step_id s = x) steps)) ↔ x ∈ step_id <$> steps.
Proof.
  rewrite last_is_Some, list_elem_of_fmap. split.
  - intros Hne. destruct (filter _ _) as [|s l] eqn:Hf; [done|].
    assert (s ∈ filter (λ s, step_id s = x) steps) as [? ?]%list_elem_of_filter by (rewrite Hf; by left). eauto.
  - intros (s & -> & Hs) Hnil.
    assert (s ∈ filter (λ s', step_id s' = step_id s) steps) as Hin by by apply list_elem_of_filter.
    rewrite Hnil in Hin. by apply elem_of_nil in Hin.
Qed.

Lemma dep_map_keys (steps : list OrchestrationStep) (x : string) :
  is_Some (dep_map steps !! x) ↔ x ∈ step_id <$> steps.
Proof.
  unfold dep_map. rewrite lookup_fold_steps, lookup_empty, <- last_filter_step.
  destruct (last _); split; intros [? H]; eauto; done.
Qed.

Lemma step_configs_keys (steps : list OrchestrationStep) (x : string) :
  x ∈ step_id <$> steps → ∃ cfg, step_configs steps !! x = Some cfg ∧ cfg ∈ steps ∧ step_id cfg = x.
Proof.
  intros Hx. unfold step_configs. rewrite lookup_fold_steps, lookup_empty.
  apply last_filter_step in Hx as [cfg Hc]. rewrite Hc. exists cfg. split; [done|].
  apply last_Some_elem_of, list_elem_of_filter in Hc. tauto.
Qed.

(** * The invariant of the task *)

Section Loops.
Context {ST : SqlText} {JT : JsonText} {HI : HashIter}.

Definition loop_reachable (lp : Loop) : Prop :=
  reachable (step_id <$> lp_steps lp) (dep_map (lp_steps lp)) (lp_scheduler lp).

Definition pc_ok (o : string) (lp : Loop) : Prop :=
  let s := lp_scheduler lp in
  match lp_pc lp with
  | LSpawn rest => NoDup rest ∧ ∀ x, x ∈ rest → states s !! x = Some Ready
  | LCheck rest => NoDup rest ∧ ∀ x, x ∈ rest → states s !! x = Some Running
  | LWaitFirst => next_ready s = [] ∧ is_complete s = false ∧ lp_failed_count lp = 0%Z
  | LDone =>
      next_ready s = [] ∧ (is_complete s = true ∨ (0 < lp_failed_count lp)%Z) ∧
      ∃ now, last (lp_events lp) = Some (mkOrchestrationEvent o now (final_outcome lp).2)
  | LTop | LWaitRunning => True
  end.

Record loop_inv (o : string) (lp : Loop) : Prop := {
  li_reach : loop_reachable lp;
  li_completed : lp_completed_count lp = Z.of_nat (count_state Completed (lp_scheduler lp));
  li_failed : lp_failed_count lp = Z.of_nat (count_state Failed (lp_scheduler lp));
  li_pc : pc_ok o lp
}.

Lemma rtc_sched_steps (E : list (string * string)) (s s' : DagScheduler) :
  sched_inv E s → rtc sched_step s s' → steps s' = steps s.
Proof.
  intros Hi Hr. revert Hi. induction Hr as [s|s s' s'' Hstep _ IH]; intros Hi; [done|].
  rewrite IH by (by eapply sched_step_inv). by destruct (sched_step_effect _ _ _ Hi Hstep).
Qed.

Lemma reachable_steps (sts : list string) (deps : gmap string (list string)) (s : DagScheduler) :
  (∀ x, is_Some (deps !! x) → x ∈ sts) → reachable sts deps s →
  sched_inv (edges (hm_iter deps)) s ∧ acyclic (edges (hm_iter deps)) ∧ steps s = sts.
Proof.
  intros Hk Hr. destruct (reachable_inv sts deps Hk s Hr) as [Hi Ha]. split_and!; [done..|].
  destruct Hr as (s0 & H0 & Hrun). destruct (new_inv sts deps Hk s0 H0) as (Hi0 & <- & _).
  by eapply rtc_sched_steps.
Qed.

Lemma loop_sched_inv (lp : Loop) :
  loop_reachable lp →
  sched_inv (edges (hm_iter (dep_map (lp_steps lp)))) (lp_scheduler lp) ∧
  acyclic (edges (hm_iter (dep_map (lp_steps lp)))) ∧ steps (lp_scheduler lp) = step_id <$> lp_steps lp.
Proof. apply reachable_steps. intros x. by rewrite dep_map_keys. Qed.

Lemma reachable_step (sts : list string) (deps : gmap string (list string)) (s s' : DagScheduler) :
  reachable sts deps s → sched_step s s' → reachable sts deps s'.
Proof. intros (s0 & H0 & Hr) Hs. exists s0. split; [done|]. eapply rtc_r; eauto. Qed.

(** What the task keeps at every point: the first three fields of
    [loop_inv]. *)
Definition core_inv (lp : Loop) : Prop :=
  loop_reachable lp ∧
  lp_completed_count lp = Z.of_nat (count_state Completed (lp_scheduler lp)) ∧
  lp_failed_count lp = Z.of_nat (count_state Failed (lp_scheduler lp)).

(** The parts of a task that no transition of its scheduler touches. *)
Definition same_frame (lp lp' : Loop) : Prop :=
  lp_steps lp' = lp_steps lp ∧ lp_pc lp' = lp_pc lp ∧ lp_stored lp' = lp_stored lp ∧ lp_woken lp' = lp_woken lp.

(** One transition on step [x], which leaves [x] in state [st] and the other
    steps that are not waiting as they were. *)
Definition moved (x : string) (st : StepState) (lp lp' : Loop) : Prop :=
  core_inv lp' ∧ same_frame lp lp' ∧ sched_step (lp_scheduler lp) (lp_scheduler lp') ∧
  states (lp_scheduler lp') !! x = Some st ∧
  (∀ n st', n ≠ x → states (lp_scheduler lp) !! n = Some st' → active st' → states (lp_scheduler lp') !! n = Some st') ∧
  ∀ n, n ≠ x → states (lp_scheduler lp') !! n = Some Running → states (lp_scheduler lp) !! n = Some Running.

Lemma step_started_moved (now : Z) (o x id name : string) (lp : Loop) :
  core_inv lp → states (lp_scheduler lp) !! x = Some Ready →
  moved x Running lp
    (with_scheduler (mark_running x (lp_scheduler lp)) (lp_completed_count lp) (lp_failed_count lp)
       (lp_step_results lp) (send_event now o (StepStarted x id name) lp)).
Proof.
  intros (Hr & Hc & Hf) Hx. destruct (loop_sched_inv lp Hr) as (Hi & _ & _).
  destruct (run_counts _ _ Hx) as (_ & Hc' & Hf' & Hx' & Ho & Hback).
  assert (sched_step (lp_scheduler lp) (mark_running x (lp_scheduler lp))) as Hs by by constructor.
  unfold moved, core_inv, same_frame. split_and!; try done.
  - exact (reachable_step _ _ _ _ Hr Hs).
  - cbn [lp_completed_count with_scheduler send_event lp_scheduler]. by rewrite Hc'.
  - cbn [lp_failed_count with_scheduler send_event lp_scheduler]. by rewrite Hf'.
  - intros n st' Hn Hst _. cbn [with_scheduler send_event lp_scheduler]. by rewrite Ho.
Qed.

Lemma step_completed_moved (now : Z) (o x summary : string) (results : gmap string string) (lp : Loop) :
  core_inv lp → states (lp_scheduler lp) !! x = Some Running →
  moved x Completed lp
    (send_event now o (StepCompleted x summary (lp_completed_count lp + 1) (lp_total lp))
       (with_scheduler (mark_completed x (lp_scheduler lp)).1 (lp_completed_count lp + 1) (lp_failed_count lp) results lp)).
Proof.
  intros (Hr & Hc & Hf) Hx. destruct (loop_sched_inv lp Hr) as (Hi & _ & _).
  destruct (complete_counts _ _ Hi _ Hx) as (_ & Hc' & Hf' & Hx' & Ho & Hback).
  assert (sched_step (lp_scheduler lp) (mark_completed x (lp_scheduler lp)).1) as Hs by by constructor.
  unfold moved, core_inv, same_frame. split_and!; try done.
  - exact (reachable_step _ _ _ _ Hr Hs).
  - cbn [lp_completed_count with_scheduler send_event lp_scheduler]. rewrite Hc'. lia.
  - cbn [lp_failed_count with_scheduler send_event lp_scheduler]. by rewrite Hf'.
  - intros n st' Hn Hst Ha. cbn [with_scheduler send_event lp_scheduler].
    rewrite Ho; [done..|]. rewrite Hst. unfold active in Ha. naive_solver.
Qed.

Lemma step_failed_moved (now : Z) (o x message : string) (lp : Loop) :
  core_inv lp → states (lp_scheduler lp) !! x = Some Ready ∨ states (lp_scheduler lp) !! x = Some Running →
  moved x Failed lp (step_failed now o x message lp).1.
Proof.
  intros (Hr & Hc & Hf) Hx. destruct (loop_sched_inv lp Hr) as (Hi & _ & _).
  destruct (fail_counts _ _ Hi _ Hx) as (_ & Hc' & Hf' & Hx' & Ho & Hback).
  assert (sched_step (lp_scheduler lp) (mark_failed x (lp_scheduler lp)).1) as Hs by by constructor.
  unfold step_failed. destruct (mark_failed x (lp_scheduler lp)) as [s blocked]. cbn [fst] in *.
  unfold moved, core_inv, same_frame. split_and!; try done.
  - exact (reachable_step _ _ _ _ Hr Hs).
  - cbn [lp_completed_count with_scheduler send_event lp_scheduler]. by rewrite Hc'.
  - cbn [lp_failed_count with_scheduler send_event lp_scheduler]. rewrite Hf'. lia.
Qed.

(** Starting and checking a step either leaves the task as it is or moves
    that step. *)
Lemma spawn_step_moved (env : SpawnEnv) (o x : string) (lp : Loop) (m : Manager) :
  core_inv lp → states (lp_scheduler lp) !! x = Some Ready →
  ∃ st, (st = Running ∨ st = Failed) ∧ moved x st lp (spawn_step env o x lp m).2.
Proof.
  intros Hc Hx. pose proof Hc as (Hr & _ & _). destruct (loop_sched_inv lp Hr) as (Hi & _ & Hs).
  destruct (step_configs_keys (lp_steps lp) x) as (cfg & Hcfg & _).
  { rewrite <- Hs. apply (si_states _ _ Hi). eauto. }
  unfold spawn_step. rewrite Hcfg. destruct (spawn _ _ _) as [m2 [?|e]].
  - exists Running. split; [by left|]. by apply step_started_moved.
  - exists Failed. split; [by right|].
    pose proof (step_failed_moved (env_now env) o x (manager_error_text e) lp Hc (or_introl Hx)) as H.
    by destruct (step_failed _ _ _ _ _).
Qed.

Lemma check_step_moved (now : Z) (o x : string) (lp : Loop) (m : Manager) :
  core_inv lp → states (lp_scheduler lp) !! x = Some Running →
  (check_step now o x lp m).2 = lp ∨
  ∃ st, (st = Completed ∨ st = Failed) ∧ moved x st lp (check_step now o x lp m).2.
Proof.
  intros Hc Hx. unfold check_step. destruct (is_running _ m); [by left|].
  destruct (get_subagent _ _) as [sa|]; [|by left].
  case_decide; [right; exists Completed; split; [by left|]; by apply step_completed_moved|].
  case_decide; [|by left]. right. exists Failed. split; [by right|].
  pose proof (step_failed_moved now o x (default "Unknown failure" (sa_result_summary sa)) lp Hc (or_intror Hx)) as H'.
  by destruct (step_failed _ _ _ _ _).
Qed.

Lemma core_inv_frame (lp lp' : Loop) :
  lp_steps lp' = lp_steps lp → lp_scheduler lp' = lp_scheduler lp →
  lp_completed_count lp' = lp_completed_count lp → lp_failed_count lp' = lp_failed_count lp →
  core_inv lp → core_inv lp'.
Proof. unfold core_inv, loop_reachable. by intros -> -> -> ->. Qed.

Lemma core_loop_inv (o : string) (lp : Loop) : loop_inv o lp ↔ core_inv lp ∧ pc_ok o lp.
Proof.
  split; [intros []; by repeat split|]. intros [(? & ? & ?) ?]. by constructor.
Qed.

Lemma finish_inv (now : Z) (o : string) (lp : Loop) (m : Manager) :
  core_inv lp → next_ready (lp_scheduler lp) = [] →
  is_complete (lp_scheduler lp) = true ∨ (0 < lp_failed_count lp)%Z → loop_inv o (finish now o lp m).2.
Proof.
  intros Hc Hn Hor. apply core_loop_inv. unfold finish. destruct (final_outcome lp) as [status ev] eqn:Hf. cbn [snd].
  split; [by apply (core_inv_frame lp)|]. unfold pc_ok. cbn [lp_pc with_pc]. split_and!; [done..|].
  exists now. cbn [lp_events with_pc send_event]. rewrite last_snoc. unfold final_outcome in *.
  cbn [lp_failed_count lp_completed_count lp_total lp_steps with_pc send_event].
  unfold lp_total in *. cbn [lp_steps with_pc send_event]. by rewrite Hf.
Qed.

Lemma moved_core (x : string) (st : StepState) (lp lp' : Loop) (pc : LoopPc) :
  moved x st lp lp' → core_inv (with_pc pc lp').
Proof. intros (Hc & _). by apply (core_inv_frame lp'). Qed.

Lemma NoDup_next_ready (E : list (string * string)) (s : DagScheduler) : sched_inv E s → NoDup (next_ready s).
Proof. intros Hi. apply NoDup_filter, (si_nodup _ _ Hi). Qed.

Lemma NoDup_running_ids (E : list (string * string)) (s : DagScheduler) : sched_inv E s → NoDup (running_ids s).
Proof. intros Hi. apply NoDup_filter, (si_nodup _ _ Hi). Qed.

Lemma top_step_inv (env : SpawnEnv) (o : string) (lp : Loop) (m : Manager) :
  core_inv lp → lp_pc lp = LTop → loop_inv o (loop_step env o lp m).2.
Proof.
  intros Hc Hpc. pose proof Hc as (Hr & _ & _). destruct (loop_sched_inv lp Hr) as (Hi & _ & _).
  unfold loop_step. rewrite Hpc. case_bool_decide as Hn; cbn [andb].
  - destruct (is_complete _) eqn:Hcomp; cbn [negb andb orb]; [by apply finish_inv; auto|].
    destruct (Z.eqb_spec (lp_failed_count lp) 0) as [H0|H0].
    + cbn [snd]. unfold await_notified. destruct (lp_stored lp); apply core_loop_inv;
        (split; [by apply (core_inv_frame lp)|done]).
    + destruct (Z.ltb_spec 0 (lp_failed_count lp)) as [H|H]; [by apply finish_inv; auto|].
      pose proof Hc as (_ & _ & Hf). lia.
  - cbn [snd]. apply core_loop_inv. split; [by apply (core_inv_frame lp)|].
    split; [by eapply NoDup_next_ready|]. intros x. by rewrite (elem_of_next_ready _ _ _ Hi).
Qed.

Lemma loop_step_inv (env : SpawnEnv) (o : string) (lp : Loop) (m : Manager) :
  loop_inv o lp → loop_inv o (loop_step env o lp m).2.
Proof.
  intros Hinv. apply core_loop_inv in Hinv as [Hc Hp]. pose proof Hc as (Hr & _ & _).
  destruct (loop_sched_inv lp Hr) as (Hi & _ & _).
  destruct (lp_pc lp) as [| |[|x rest]| |[|x rest]|] eqn:Hpc; [by apply top_step_inv|..];
    unfold loop_step; rewrite Hpc; unfold pc_ok in Hp; rewrite Hpc in Hp; try destruct Hp as [Hnd Hall];
    apply core_loop_inv.
  - cbn [snd]. unfold resume. destruct (lp_woken lp); [|unfold pc_ok; by rewrite Hpc].
    split; [by apply (core_inv_frame lp)|done].
  - cbn [snd]. case_decide.
    + split; [by apply (core_inv_frame lp)|]. split; [constructor|]. by intros ? ?%elem_of_nil.
    + unfold await_notified. destruct (lp_stored lp); (split; [by apply (core_inv_frame lp)|]); [|done].
      split; [by eapply NoDup_running_ids|]. intros y. by rewrite (elem_of_running_ids _ _ _ Hi).
  - destruct (spawn_step_moved env o x lp m Hc) as (st & _ & Hmv); [by apply Hall; left|].
    destruct (spawn_step env o x lp m) as [m' lp']. cbn [snd] in *.
    split; [by eapply moved_core|]. destruct Hmv as (_ & _ & _ & _ & Ho & _). apply NoDup_cons in Hnd as [Hx Hnd].
    split; [done|]. intros y Hy. apply Ho; [by intros ->|by apply Hall; right|by left].
  - cbn [snd]. unfold resume. destruct (lp_woken lp); [|unfold pc_ok; by rewrite Hpc].
    split; [by apply (core_inv_frame lp)|]. split; [by eapply NoDup_running_ids|].
    intros y. by rewrite (elem_of_running_ids _ _ _ Hi).
  - split; [by apply (core_inv_frame lp)|done].
  - apply NoDup_cons in Hnd as [Hx Hnd].
    destruct (check_step_moved (env_now env) o x lp m Hc) as [Heq|(st & _ & Hmv)]; [by apply Hall; left|..];
      destruct (check_step (env_now env) o x lp m) as [m' lp']; cbn [snd] in *.
    + subst lp'. split; [by apply (core_inv_frame lp)|]. split; [done|]. intros y Hy. by apply Hall; right.
    + split; [by eapply moved_core|]. destruct Hmv as (_ & _ & _ & _ & Ho & _).
      split; [done|]. intros y Hy. apply Ho; [by intros ->|by apply Hall; right|by right; left].
  - cbn [snd]. unfold pc_ok. by rewrite Hpc.
Qed.

(** * The tasks among everything else the manager does *)

Lemma broadcast_loops (id : string) (ev : SubagentEvent) (m : Manager) : m_loops (broadcast_event id ev m) = m_loops m.
Proof. unfold broadcast_event. by destruct (m_running m !! id). Qed.

Lemma stdout_loops (now : Z) (id line : string) (m : Manager) : m_loops (on_stdout_line now id line m) = m_loops m.
Proof.
  unfold on_stdout_line. revert m. induction (parse_stdout_line now id line) as [|ev evs IH]; intros m; [done|].
  cbn [foldl]. by rewrite IH, broadcast_loops.
Qed.

Lemma spawn_loops (env : SpawnEnv) (c : SubagentConfig) (m : Manager) : m_loops (spawn env c m).1 = m_loops m.
Proof. unfold spawn. by repeat case_match. Qed.

Lemma spawn_step_loops (env : SpawnEnv) (o x : string) (lp : Loop) (m : Manager) :
  m_loops (spawn_step env o x lp m).1 = m_loops m.
Proof.
  unfold spawn_step. destruct (step_configs _ !! x) as [cfg|]; [|done].
  match goal with |- context [spawn ?e ?c ?w] => pose proof (spawn_loops e c w) as H; destruct (spawn e c w) as [m2 [?|e']] end;
    [done|]. by destruct (step_failed _ _ _ _ _).
Qed.

Lemma check_step_loops (now : Z) (o x : string) (lp : Loop) (m : Manager) :
  m_loops (check_step now o x lp m).1 = m_loops m.
Proof. unfold check_step. by repeat case_match. Qed.

Lemma loop_step_loops (env : SpawnEnv) (o : string) (lp : Loop) (m : Manager) :
  m_loops (loop_step env o lp m).1 = m_loops m.
Proof.
  unfold loop_step. destruct (lp_pc lp) as [| |[|x rest]| |[|x rest]|]; try done.
  - repeat case_match; try done. unfold finish. by destruct (final_outcome lp).
  - pose proof (spawn_step_loops env o x lp m) as H. by destruct (spawn_step env o x lp m).
  - pose proof (check_step_loops (env_now env) o x lp m) as H. by destruct (check_step (env_now env) o x lp m).
Qed.

(** The operations that can change a task. *)
Lemma manager_step_loops (op : Op) (m : Manager) (o : string) :
  (m_loops (manager_step op m) !! o = m_loops m !! o) ∨
  (∃ env lp, op = OLoop env o ∧ m_loops m !! o = Some lp ∧
     m_loops (manager_step op m) !! o = Some (loop_step env o lp m).2) ∨
  (∃ lp, m_loops m !! o = Some lp ∧ m_loops (manager_step op m) !! o = Some (notify_one lp)) ∨
  (∃ now parent strategy steps s, op = ORun now o parent strategy steps ∧
     new (step_id <$> steps) (dep_map steps) = Ok s ∧ orchestrations (m_db m) !! o = None ∧
     m_loops (manager_step op m) !! o = Some (mkLoop LTop parent steps s 0 0 ∅ false false [])).
Proof.
  destruct op; cbn [manager_step].
  - unfold run_orchestration. destruct (new _ _) as [s|] eqn:Hnew; [|by left].
    unfold create_orchestration. destruct (orchestrations (m_db m) !! o0) eqn:Hfresh; [by left|].
    repeat case_match; try (by left). cbn [fst with_active with_loops m_loops with_db].
    destruct (decide (o0 = o)) as [->|Hne]; [|left; by rewrite lookup_insert_ne].
    right; right; right. exists now, parent, strategy, steps, s. by rewrite lookup_insert_eq.
  - destruct (m_loops m !! o0) as [lp|] eqn:Hlp; [|by left].
    pose proof (loop_step_loops env o0 lp m) as Hl. destruct (loop_step env o0 lp m) as [m' lp'] eqn:Hs. cbn [fst] in Hl.
    cbn [with_loops m_loops]. rewrite Hl, lookup_insert. case_decide; [|by left]. subst o0.
    right; left. exists env, lp. rewrite Hs. done.
  - left. by rewrite spawn_loops.
  - left. unfold monitor_started. repeat case_match; try done. unfold set_stage. cbn. by rewrite broadcast_loops.
  - left. by rewrite stdout_loops.
  - left. unfold monitor_exit. repeat case_match; try done. unfold set_stage. cbn [with_monitors m_loops]. by rewrite broadcast_loops.
  - left. unfold monitor_unregister. by repeat case_match.
  - unfold monitor_finish. destruct (m_monitors m !! id) as [mo|]; [|by left]. destruct (mo_stage mo); try by left.
    destruct (m_sub_to_orch m !! id) as [o'|]; [|by left].
    case_decide; [|by left]. cbn [with_monitors with_pool with_sub_to_orch with_loops m_loops].
    rewrite lookup_alter. case_decide; [|by left]. subst o'.
    destruct (m_loops m !! o) as [lp|] eqn:Hlp; [|by left]. right; right; left. by exists lp.
  - left. unfold subscribe. by case_match.
  - by left.
  - left. unfold send_input. by repeat case_match.
  - left. unfold cancel_begin. by case_match.
  - left. unfold cancel_end. by case_decide.
  - left. unfold revoke_auto_approve. by case_match.
Qed.

Lemma notify_one_inv (o : string) (lp : Loop) : loop_inv o lp → loop_inv o (notify_one lp).
Proof.
  intros [? ? ? Hp]. unfold notify_one. destruct (waiting (lp_pc lp) && negb (lp_woken lp)); constructor; try done; apply Hp.
Qed.

Lemma new_loop_inv (o parent : string) (steps : list OrchestrationStep) (s : DagScheduler) :
  new (step_id <$> steps) (dep_map steps) = Ok s → loop_inv o (mkLoop LTop parent steps s 0 0 ∅ false false []).
Proof.
  intros Hn. destruct (new_inv _ _ (λ x, proj1 (dep_map_keys steps x)) s Hn) as (Hi & Hs & _).
  assert (∀ st, st = Completed ∨ st = Failed → count_state st s = 0) as H0.
  { intros st Hst. unfold count_state. replace (filter _ _) with (@nil string); [done|]. symmetry.
    apply elem_of_nil_inv. intros x [Hx _]%list_elem_of_filter. revert Hx.
    unfold new in Hn. destruct (validate_dag _ _) as [[]|]; cbn [result_bind] in Hn; [|done]. injection Hn as <-.
    cbn [states]. rewrite initial_states_lookup. repeat case_decide; naive_solver. }
  constructor; cbn [lp_scheduler lp_steps lp_completed_count lp_failed_count lp_pc]; [|by rewrite H0; auto..|done].
  exists s. split; [done|apply rtc_refl].
Qed.

Lemma manager_run_loop_inv (ops : list Op) (p : SubprocessPool) (d : OrchestrationDb) (o : string) (lp : Loop) :
  m_loops (manager_run ops (manager_new p d)) !! o = Some lp → loop_inv o lp.
Proof.
  revert lp. induction ops as [|op ops IH] using rev_ind; intros lp Hlp.
  { unfold manager_run in Hlp. cbn in Hlp. by rewrite lookup_empty in Hlp. }
  unfold manager_run in *. rewrite foldl_app in Hlp. cbn [foldl] in Hlp.
  set (m := foldl _ _ _) in *.
  destruct (manager_step_loops op m o) as [Heq|[(env & lp0 & -> & H0 & Heq)|[(lp0 & H0 & Heq)|(now & parent & strategy & steps & s & -> & Hn & _ & Heq)]]];
    rewrite Heq in Hlp.
  - by apply IH.
  - injection Hlp as <-. apply loop_step_inv. by apply IH.
  - injection Hlp as <-. apply notify_one_inv. by apply IH.
  - injection Hlp as <-. by apply new_loop_inv.
Qed.

End Loops.
