(* ===== verification/OrchestrationCorrect.v ===== *)
(** What orchestrations guarantee, and where they stall.

    The task of an orchestration simulates the transition system of its
    scheduler and reports its outcome truthfully; a task that reaches its
    first wait never ends, which happens whenever two steps run side by side
    and end one after the other. *)
From stdpp Require Import gmap strings list fin_maps relations pretty.
From Stdlib Require Import ZArith Lia.
From S2P Require Import Prelude Protocol Json Scheduler SchedulerKahn SchedulerRun SchedulerCorrect.
From S2P Require Import OrchestrationStore SubagentManager OrchestrationLoop.

(** * Rows are never deleted *)

(** A statement leaves the orchestration rows, and of the subagent rows
    removes none. *)
Definition keeps_rows (d d' : OrchestrationDb) : Prop :=
  sessions d' = sessions d ∧
  (∀ o, is_Some (orchestrations d !! o) → is_Some (orchestrations d' !! o)) ∧
  (∀ id, is_Some (subagents d !! id) → is_Some (subagents d' !! id)).

#[export] Instance keeps_rows_preorder : PreOrder keeps_rows.
Proof.
  split; [by intros d|]. intros d1 d2 d3 (? & H1 & H1') (? & H2 & H2').
  split_and!; [congruence|by eauto..].
Qed.

Lemma update_subagent_keeps (id status : string) (f : SubagentRow → SubagentRow) (d : OrchestrationDb) :
  keeps_rows d (update_subagent id status f d).1.
Proof.
  unfold update_subagent. repeat case_match; try reflexivity. split_and!; [done..|].
  intros id' Hid. cbn. by apply lookup_alter_is_Some.
Qed.

Lemma update_subagent_status_keeps (now : Z) (id status : string) (code : option Z) (summary : option string)
    (d : OrchestrationDb) : keeps_rows d (update_subagent_status now id status code summary d).1.
Proof. unfold update_subagent_status. repeat case_match; apply update_subagent_keeps. Qed.

Lemma create_subagent_keeps (now : Z) (id parent prompt : string) (model : option string) (turns : Z) (auto : bool)
    (tools : string) (dir : option string) (d : OrchestrationDb) :
  keeps_rows d (create_subagent now id parent prompt model turns auto tools dir d).1.
Proof.
  unfold create_subagent. destruct (subagents d !! id); [reflexivity|]. case_decide; [|reflexivity]. split_and!; [done..|].
  intros id' Hid. cbn. rewrite lookup_insert_is_Some'. by right.
Qed.

Lemma update_step_status_keeps (id status : string) (sa : option string) (d : OrchestrationDb) :
  keeps_rows d (update_step_status id status sa d).1.
Proof. unfold update_step_status. by repeat case_match. Qed.

Lemma create_step_keeps (now : Z) (id o : string) (i : Z) (prompt deps : string) (d : OrchestrationDb) :
  keeps_rows d (create_orchestration_step now id o i prompt deps d).1.
Proof. unfold create_orchestration_step. by repeat case_match. Qed.

Lemma update_orchestration_keeps (now : Z) (o status : string) (d : OrchestrationDb) :
  keeps_rows d (update_orchestration_status now o status d).1.
Proof.
  unfold update_orchestration_status. repeat case_match; try reflexivity. split_and!; [done| |done].
  intros o' Ho. cbn. by apply lookup_alter_is_Some.
Qed.

Lemma create_orchestration_keeps (now : Z) (o parent strategy : string) (d : OrchestrationDb) :
  keeps_rows d (create_orchestration now o parent strategy d).1.
Proof.
  unfold create_orchestration. repeat case_match; try reflexivity. split_and!; [done| |done].
  intros o' Ho. cbn. rewrite lookup_insert_is_Some'. by right.
Qed.

Lemma create_orchestration_ok (now : Z) (o parent strategy : string) (d d' : OrchestrationDb) (row : OrchestrationRow) :
  create_orchestration now o parent strategy d = (d', Ok row) → is_Some (orchestrations d' !! o).
Proof.
  unfold create_orchestration. repeat case_match; try done. intros [= <- _]. cbn. rewrite lookup_insert_eq. by eexists.
Qed.

Lemma write_blocked_keeps (blocked : list string) (d : OrchestrationDb) : keeps_rows d (write_blocked blocked d).
Proof.
  unfold write_blocked. revert d. induction blocked as [|b bs IH]; intros d; [reflexivity|]. cbn [foldl].
  transitivity (update_step_status b "blocked" None d).1; [apply update_step_status_keeps|apply IH].
Qed.

Section Rows.
Context {ST : SqlText} {JT : JsonText} {HI : HashIter}.

Lemma create_steps_keeps (now : Z) (o : string) (i : Z) (steps : list OrchestrationStep) (d : OrchestrationDb) :
  keeps_rows d (create_steps now o i steps d).1.
Proof.
  revert i d. induction steps as [|s steps IH]; intros i d; [reflexivity|]. cbn [create_steps].
  pose proof (create_step_keeps now (step_id s) o i (step_prompt s) (json_strings (step_depends_on s)) d) as H.
  destruct (create_orchestration_step _ _ _ _ _ _ _) as [d' [?|?]]; [|done]. by etransitivity; [|apply IH].
Qed.

Lemma broadcast_db (id : string) (ev : SubagentEvent) (m : Manager) : m_db (broadcast_event id ev m) = m_db m.
Proof. unfold broadcast_event. by destruct (m_running m !! id). Qed.

Lemma stdout_db (now : Z) (id line : string) (m : Manager) : m_db (on_stdout_line now id line m) = m_db m.
Proof.
  unfold on_stdout_line. revert m. induction (parse_stdout_line now id line) as [|ev evs IH]; intros m; [done|].
  cbn [foldl]. by rewrite IH, broadcast_db.
Qed.

Lemma spawn_keeps (env : SpawnEnv) (c : SubagentConfig) (m : Manager) : keeps_rows (m_db m) (m_db (spawn env c m).1).
Proof.
  unfold spawn. case_decide; [reflexivity|]. destruct (_ && _); [reflexivity|].
  destruct (try_acquire _); [|reflexivity].
  match goal with |- context [create_subagent ?a ?b ?c ?d ?e ?f ?g ?h ?i ?j] =>
    pose proof (create_subagent_keeps a b c d e f g h i j) as Hk; destruct (create_subagent a b c d e f g h i j) as [d' [?|?]] end;
    [|done].
  destruct (env_spawn env); [|done]. cbn. etransitivity; [exact Hk|apply update_subagent_status_keeps].
Qed.

Lemma spawn_step_keeps (env : SpawnEnv) (o x : string) (lp : Loop) (m : Manager) :
  keeps_rows (m_db m) (m_db (spawn_step env o x lp m).1).
Proof.
  unfold spawn_step. destruct (step_configs _ !! x) as [cfg|]; [|reflexivity].
  match goal with |- context [spawn ?e ?c ?w] =>
    pose proof (spawn_keeps e c w) as H; cbn [m_db with_db with_sub_to_orch] in H; destruct (spawn e c w) as [m2 [?|e']] end;
    cbn [fst] in *.
  - etransitivity; [|exact H]. apply update_step_status_keeps.
  - destruct (step_failed _ _ _ _ _) as [lp' blocked]. cbn [fst m_db with_db].
    etransitivity; [apply (update_step_status_keeps x "running" (Some (subagent_of o x)))|].
    etransitivity; [exact H|]. etransitivity; [apply update_step_status_keeps|apply write_blocked_keeps].
Qed.

Lemma check_step_keeps (now : Z) (o x : string) (lp : Loop) (m : Manager) :
  keeps_rows (m_db m) (m_db (check_step now o x lp m).1).
Proof.
  unfold check_step. destruct (is_running _ m); [reflexivity|]. destruct (get_subagent _ _) as [sa|]; [|reflexivity].
  case_decide; [apply update_step_status_keeps|]. case_decide; [|reflexivity].
  destruct (step_failed _ _ _ _ _) as [lp' blocked]. cbn [fst m_db with_db].
  etransitivity; [apply update_step_status_keeps|apply write_blocked_keeps].
Qed.

Lemma loop_step_keeps (env : SpawnEnv) (o : string) (lp : Loop) (m : Manager) :
  keeps_rows (m_db m) (m_db (loop_step env o lp m).1).
Proof.
  unfold loop_step. destruct (lp_pc lp) as [| |[|x rest]| |[|x rest]|]; try reflexivity.
  - repeat case_match; try reflexivity. unfold finish. destruct (final_outcome lp) as [status ev]. cbn [fst m_db with_active with_db].
    apply update_orchestration_keeps.
  - pose proof (spawn_step_keeps env o x lp m) as H. by destruct (spawn_step env o x lp m).
  - pose proof (check_step_keeps (env_now env) o x lp m) as H. by destruct (check_step (env_now env) o x lp m).
Qed.

Lemma run_orchestration_keeps (now : Z) (o parent : string) (strategy : OrchestrationStrategy)
    (steps : list OrchestrationStep) (m : Manager) :
  keeps_rows (m_db m) (m_db (run_orchestration now o parent strategy steps m).1).
Proof.
  unfold run_orchestration. destruct (new _ _) as [s|]; [|reflexivity].
  pose proof (create_orchestration_keeps now o parent (strategy_str strategy) (m_db m)) as H1.
  destruct (create_orchestration _ _ _ _ _) as [d1 [?|?]]; [|done].
  pose proof (update_orchestration_keeps now o "running" d1) as H2.
  destruct (update_orchestration_status _ _ _ _) as [d2 [?|?]]; cbn [fst] in *; [|cbn; by etransitivity].
  pose proof (create_steps_keeps now o 0 steps d2) as H3.
  destruct (create_steps _ _ _ _ _) as [d3 [?|?]]; cbn [fst m_db with_active with_loops with_db] in *;
    (etransitivity; [exact H1|etransitivity; [exact H2|exact H3]]).
Qed.

Lemma manager_step_keeps (op : Op) (m : Manager) : keeps_rows (m_db m) (m_db (manager_step op m)).
Proof.
  destruct op; cbn [manager_step].
  - apply run_orchestration_keeps.
  - destruct (m_loops m !! o) as [lp|]; [|reflexivity].
    pose proof (loop_step_keeps env o lp m) as H. by destruct (loop_step env o lp m).
  - apply spawn_keeps.
  - unfold monitor_started. repeat case_match; try reflexivity. unfold set_stage. cbn. by rewrite broadcast_db.
  - by rewrite stdout_db.
  - unfold monitor_exit. repeat case_match; try reflexivity. unfold set_stage. cbn [m_db with_monitors].
    rewrite broadcast_db. apply update_subagent_status_keeps.
  - unfold monitor_unregister. by repeat case_match.
  - unfold monitor_finish. by repeat case_match.
  - unfold subscribe. by case_match.
  - reflexivity.
  - unfold send_input. by repeat case_match.
  - unfold cancel_begin. by case_match.
  - unfold cancel_end. case_decide; [apply update_subagent_status_keeps|reflexivity].
  - unfold revoke_auto_approve. by case_match.
Qed.

(** A task's orchestration has a row, so that its identifier is not taken
    again. *)
Definition loops_have_rows (m : Manager) : Prop :=
  ∀ o, is_Some (m_loops m !! o) → is_Some (orchestrations (m_db m) !! o).

Lemma manager_step_rows (op : Op) (m : Manager) : loops_have_rows m → loops_have_rows (manager_step op m).
Proof.
  intros Hm o Ho. pose proof (manager_step_keeps op m) as (_ & Hk & _).
  destruct (manager_step_loops op m o) as [Heq|[(env & lp & -> & Hlp & _)|[(lp & Hlp & _)|(now & parent & strategy & steps & s & -> & Hn & Hf & Heq)]]].
  - apply Hk, Hm. by rewrite <- Heq.
  - apply Hk, Hm. by rewrite Hlp.
  - apply Hk, Hm. by rewrite Hlp.
  - clear Hk. revert Ho. cbn [manager_step]. unfold run_orchestration. rewrite Hn.
    destruct (create_orchestration now o parent _ _) as [d1 [row|?]] eqn:Hc.
    + apply create_orchestration_ok in Hc.
      pose proof (update_orchestration_keeps now o "running" d1) as (_ & H2 & _).
      destruct (update_orchestration_status _ _ _ _) as [d2 [?|?]]; cbn [fst] in *; [|intros _; by apply H2].
      pose proof (create_steps_keeps now o 0 steps d2) as (_ & H3 & _).
      destruct (create_steps _ _ _ _ _) as [d3 [?|?]]; intros _; by apply H3, H2.
    + cbn. intros Hl. specialize (Hm o Hl). rewrite Hf in Hm. by destruct Hm.
Qed.

Lemma manager_run_rows (ops : list Op) (p : SubprocessPool) (d : OrchestrationDb) :
  loops_have_rows (manager_run ops (manager_new p d)).
Proof.
  induction ops as [|op ops IH] using rev_ind.
  { intros o. cbn. rewrite lookup_empty. by intros []. }
  unfold manager_run in *. rewrite foldl_app. by apply manager_step_rows.
Qed.

End Rows.

(** * The task and its scheduler *)

Section Theorems.
Context {ST : SqlText} {JT : JsonText} {HI : HashIter}.

Lemma loop_step_scheduler (env : SpawnEnv) (o : string) (lp : Loop) (m : Manager) :
  loop_inv o lp →
  let lp' := (loop_step env o lp m).2 in
  lp_steps lp' = lp_steps lp ∧
  (lp_scheduler lp' = lp_scheduler lp ∨ sched_step (lp_scheduler lp) (lp_scheduler lp')).
Proof.
  intros Hinv. apply core_loop_inv in Hinv as [Hc Hp]. unfold pc_ok in Hp. cbn zeta. unfold loop_step.
  destruct (lp_pc lp) as [| |[|x rest]| |[|x rest]|] eqn:Hpc; try (by auto).
  - repeat case_match; cbn [snd]; auto.
    + unfold await_notified. destruct (lp_stored lp); auto.
    + unfold finish. destruct (final_outcome lp). auto.
  - cbn [snd]. unfold resume. destruct (lp_woken lp); auto.
  - cbn [snd]. case_decide; [auto|]. unfold await_notified. destruct (lp_stored lp); auto.
  - destruct Hp as [_ Hall]. destruct (spawn_step_moved env o x lp m Hc) as (st & _ & _ & (Hst & _) & Hs & _); [by apply Hall; left|].
    destruct (spawn_step env o x lp m) as [m' lp']. auto.
  - cbn [snd]. unfold resume. destruct (lp_woken lp); auto.
  - destruct Hp as [_ Hall].
    destruct (check_step_moved (env_now env) o x lp m Hc) as [Heq|(st & _ & _ & (Hst & _) & Hs & _)]; [by apply Hall; left|..];
      destruct (check_step (env_now env) o x lp m) as [m' lp']; cbn [snd] in *; subst; auto.
Qed.

(** C10: In every execution of the manager, the scheduler of an orchestration's
    task is in a state that the scheduler's own transitions reach from the
    orchestration's steps, each operation of the manager makes at most one of
    these transitions, and the task's counters are the numbers of completed
    and of failed steps: what is proved of the scheduler holds of
    orchestrations. *)
Theorem orchestration_refines_scheduler (ops : list Op) (p : SubprocessPool) (d : OrchestrationDb) (o : string)
    (lp : Loop) (op : Op) :
  let m := manager_run ops (manager_new p d) in
  m_loops m !! o = Some lp →
  loop_reachable lp ∧
  lp_completed_count lp = Z.of_nat (count_state Completed (lp_scheduler lp)) ∧
  lp_failed_count lp = Z.of_nat (count_state Failed (lp_scheduler lp)) ∧
  ∃ lp', m_loops (manager_step op m) !! o = Some lp' ∧ lp_steps lp' = lp_steps lp ∧
    (lp_scheduler lp' = lp_scheduler lp ∨ sched_step (lp_scheduler lp) (lp_scheduler lp')).
Proof.
  intros m Hlp. pose proof (manager_run_loop_inv ops p d o lp Hlp) as Hinv. pose proof Hinv as [Hr Hc Hf _].
  split_and!; [done..|].
  destruct (manager_step_loops op m o) as [Heq|[(env & lp0 & -> & H0 & Heq)|[(lp0 & H0 & Heq)|(now & parent & strategy & steps & s & -> & _ & Hno & _)]]].
  - exists lp. rewrite Heq. auto.
  - rewrite H0 in Hlp. injection Hlp as ->. eexists. split; [exact Heq|]. by apply loop_step_scheduler.
  - rewrite H0 in Hlp. injection Hlp as ->. eexists. split; [exact Heq|].
    unfold notify_one. destruct (_ && _); auto.
  - destruct (manager_run_rows ops p d o) as [row Hrow]; [by exists lp|]. fold m in Hrow. congruence.
Qed.

(** The last event of a finished orchestration tells the truth: success is
    reported iff no step failed, and then every step has completed and the
    event says so; otherwise it carries the numbers of completed and failed
    steps. *)
Theorem final_event_truthful (ops : list Op) (p : SubprocessPool) (d : OrchestrationDb) (o : string) (lp : Loop) :
  m_loops (manager_run ops (manager_new p d)) !! o = Some lp → lp_pc lp = LDone →
  let s := lp_scheduler lp in
  let n := Z.of_nat (length (lp_steps lp)) in
  ∃ now ev, last (lp_events lp) = Some (mkOrchestrationEvent o now ev) ∧
    ((∃ x, states s !! x = Some Failed) →
       ∃ c f, ev = OrchestrationFailed (pretty f +:+ " step(s) failed") c f ∧
              c = Z.of_nat (count_state Completed s) ∧ f = Z.of_nat (count_state Failed s)) ∧
    ((∀ x, states s !! x ≠ Some Failed) →
       ev = OrchestrationCompleted n n 0 ∧ ∀ x, x ∈ step_id <$> lp_steps lp → states s !! x = Some Completed).
Proof.
  intros Hlp Hpc s n. apply manager_run_loop_inv in Hlp as [Hr Hc Hf Hp]. unfold pc_ok in Hp. rewrite Hpc in Hp.
  destruct Hp as (_ & Hor & now & Hlast). destruct (loop_sched_inv lp Hr) as (Hi & _ & Hs).
  exists now, (final_outcome lp).2. split; [done|]. unfold final_outcome. split.
  - intros [x Hx].
    assert (0 < lp_failed_count lp)%Z as Hpos.
    { rewrite Hf. unfold count_state. destruct (filter _ _) as [|y l] eqn:Hfil; [|cbn; lia].
      assert (x ∈ filter (λ x, states (lp_scheduler lp) !! x = Some Failed) (steps (lp_scheduler lp))) as Hin
        by (apply list_elem_of_filter; split; [done|]; apply (si_states _ _ Hi); eauto).
      rewrite Hfil in Hin. by apply elem_of_nil in Hin. }
    apply Z.ltb_lt in Hpos. rewrite Hpos. cbn. eauto.
  - intros Hno.
    assert (count_state Failed s = 0) as H0.
    { unfold count_state. replace (filter _ _) with (@nil string); [done|]. symmetry. apply elem_of_nil_inv.
      intros x [Hx _]%list_elem_of_filter. by apply (Hno x). }
    rewrite Hf. fold s. rewrite H0. cbn [Z.of_nat Z.ltb Z.compare snd].
    assert (∀ x, x ∈ step_id <$> lp_steps lp → states s !! x = Some Completed) as Hall.
    { intros x Hx. rewrite <- Hs in Hx. apply (si_states _ _ Hi) in Hx as [st Hst]. fold s in Hst. rewrite Hst.
      destruct Hor as [Hcomp|Hpos]; [|rewrite Hf in Hpos; fold s in Hpos; lia].
      destruct (proj1 (is_complete_spec _) Hcomp x st Hst) as [->|[->| ->]]; [done|by apply Hno in Hst|].
      destruct (si_blame _ _ Hi x Hst) as (f & Hfa & _). by apply Hno in Hfa. }
    split; [|done]. f_equal. rewrite Hc. f_equal. unfold s in Hall. rewrite count_all, Hs, length_fmap; [done|].
    intros x Hx. apply Hall. by rewrite <- Hs.
Qed.

(** * The first wait *)

(** A task that found nothing ready while steps still ran. *)
Definition stalled (s : DagScheduler) (lp : Loop) : Prop :=
  lp_scheduler lp = s ∧ (lp_pc lp = LTop ∨ lp_pc lp = LWaitFirst) ∧
  next_ready s = [] ∧ is_complete s = false ∧ lp_failed_count lp = 0%Z.

Lemma stalled_loop_step (env : SpawnEnv) (o : string) (s : DagScheduler) (lp : Loop) (m : Manager) :
  stalled s lp → stalled s (loop_step env o lp m).2.
Proof.
  intros (<- & Hpc & Hn & Hc & Hf). unfold loop_step. destruct Hpc as [Hpc|Hpc]; rewrite Hpc.
  - rewrite Hn, Hc, Hf. cbn. unfold await_notified. destruct (lp_stored lp); (split_and!; [done|auto|done..]).
  - cbn [snd]. unfold resume. destruct (lp_woken lp); (split_and!; [done|auto|done..]).
Qed.

Lemma stalled_notify (s : DagScheduler) (lp : Loop) : stalled s lp → stalled s (notify_one lp).
Proof. intros (<- & Hpc & H). unfold notify_one. by destruct (_ && _). Qed.

(** C8: The task of an orchestration never gets past its first wait: after every
    notification it looks for ready steps again, without asking which of the
    running ones have ended.  Whatever happens from then on, no step changes
    its state any more and the orchestration does not end. *)
Theorem first_wait_is_forever (before after : list Op) (p : SubprocessPool) (d : OrchestrationDb) (o : string) (lp : Loop) :
  let m := manager_run before (manager_new p d) in
  m_loops m !! o = Some lp → lp_pc lp = LWaitFirst →
  ∃ lp', m_loops (manager_run after m) !! o = Some lp' ∧ lp_scheduler lp' = lp_scheduler lp ∧
    is_complete (lp_scheduler lp') = false ∧ lp_pc lp' ≠ LDone.
Proof.
  intros m Hlp Hpc. pose proof (manager_run_loop_inv before p d o lp Hlp) as [_ _ _ Hp].
  unfold pc_ok in Hp. rewrite Hpc in Hp. destruct Hp as (Hn & Hc & Hf).
  assert (∃ lp', m_loops (manager_run after m) !! o = Some lp' ∧ stalled (lp_scheduler lp) lp') as (lp' & Hlp' & Hst).
  { induction after as [|op after IH] using rev_ind.
    { exists lp. split; [done|]. by split_and!; auto. }
    destruct IH as (lp1 & H1 & Hst1). unfold manager_run in H1 |- *. rewrite foldl_app. cbn [foldl].
    set (m1 := foldl _ m after) in *.
    assert (loops_have_rows m1) as Hrows.
    { subst m1 m. unfold manager_run. rewrite <- foldl_app. apply manager_run_rows. }
    destruct (manager_step_loops op m1 o) as [Heq|[(env & lp0 & -> & H0 & Heq)|[(lp0 & H0 & Heq)|(now & parent & strategy & steps & s & -> & _ & Hno & _)]]].
    - exists lp1. by rewrite Heq.
    - rewrite H0 in H1. injection H1 as ->. eexists. split; [exact Heq|]. by apply stalled_loop_step.
    - rewrite H0 in H1. injection H1 as ->. eexists. split; [exact Heq|]. by apply stalled_notify.
    - destruct (Hrows o) as [row Hrow]; [by rewrite H1|]. congruence. }
  exists lp'. destruct Hst as (Hs & Hpc' & _ & Hc' & _). rewrite Hs. split_and!; [done..|].
  destruct Hpc' as [-> | ->]; done.
Qed.

(** * Step identifiers *)

Lemma create_steps_taken (now : Z) (o : string) (i : Z) (steps : list OrchestrationStep) (d : OrchestrationDb) (x : string) :
  is_Some (orchestrations d !! o) → x ∈ step_id <$> steps → is_Some (orchestration_steps d !! x) →
  ∃ d', create_steps now o i steps d = (d', Err (Query (UniqueViolation "orchestration_steps.id"))) ∧
        orchestrations d' = orchestrations d.
Proof.
  revert i d. induction steps as [|s steps IH]; intros i d Ho Hx Htaken; [by apply elem_of_nil in Hx|].
  cbn [create_steps]. unfold create_orchestration_step.
  destruct (orchestration_steps d !! step_id s) as [row|] eqn:Hs; [by exists d|].
  destruct (orchestrations d !! o) as [orow|] eqn:Horow; [|by destruct Ho]. unfold get_orchestration_step. cbn.
  rewrite lookup_insert_eq. rewrite fmap_cons in Hx. apply elem_of_cons in Hx as [->|Hx]; [rewrite Hs in Htaken; by destruct Htaken|].
  match goal with |- context [create_steps now o (i + 1) steps ?d1] => destruct (IH (i + 1)%Z d1) as (d' & Hd' & Hor) end.
  - cbn. by rewrite Horow.
  - done.
  - cbn. rewrite lookup_insert_is_Some'. by right.
  - exists d'. by rewrite Hd', Hor.
Qed.

(** The steps of all orchestrations share one table whose key is the step's
    identifier: an orchestration that uses an identifier of an earlier one is
    refused, after its own row was written; that row says "running" for
    ever, for no task drives it. *)
Theorem taken_step_id_orphans (now : Z) (o parent x : string) (strategy : OrchestrationStrategy)
    (steps : list OrchestrationStep) (s : DagScheduler) (m : Manager) :
  new (step_id <$> steps) (dep_map steps) = Ok s → parent ∈ sessions (m_db m) → orchestrations (m_db m) !! o = None →
  x ∈ step_id <$> steps → is_Some (orchestration_steps (m_db m) !! x) →
  let '(m', r) := run_orchestration now o parent strategy steps m in
  r = Err (DatabaseFailed (Query (UniqueViolation "orchestration_steps.id"))) ∧
  or_status <$> orchestrations (m_db m') !! o = Some "running" ∧ m_loops m' = m_loops m.
Proof.
  intros Hnew Hparent Hfresh Hx Htaken. unfold run_orchestration. rewrite Hnew.
  unfold create_orchestration. rewrite Hfresh.
  rewrite (decide_True (P := strategy_str strategy ∈ _)) by (destruct strategy; cbn; set_solver).
  rewrite decide_True by done. unfold get_orchestration. cbn. rewrite lookup_insert_eq.
  unfold update_orchestration_status. cbn. rewrite lookup_insert_eq. rewrite decide_True by set_solver.
  match goal with |- context [create_steps now o 0 steps ?d1] => destruct (create_steps_taken now o 0 steps d1 x) as (d' & -> & Hor) end.
  - cbn. rewrite lookup_alter_eq, lookup_insert_eq. by eexists.
  - done.
  - done.
  - split_and!; [done| |done]. cbn. rewrite Hor. cbn. by rewrite lookup_alter_eq, lookup_insert_eq.
Qed.

End Theorems.

(** * Witnesses and situations *)

Section Situations.
#[local] Existing Instance plain_text.
#[local] Existing Instance no_json.

(** Two independent steps, both started; the first one's subagent ends. *)
Definition side_by_side (code : Z) : list Op :=
  [ORun 0 "o" "s" Parallel [demo_step "a" []; demo_step "b" []]] ++ demo_loop "o" 4 ++
  [OStarted 2 "o-a"; OExit 3 "o-a" (Exited (Some code)); OUnregister "o-a"; OFinish "o-a"] ++ demo_loop "o" 5.

Definition task_of (o : string) (m : Manager) : Loop :=
  default (mkLoop LTop "" [] (mkScheduler [] ∅ ∅ ∅) 0 0 ∅ false false []) (m_loops m !! o).

Definition stalled_demo : Manager := manager_run (side_by_side 0) demo_manager.

(** Both subagents end well, and yet the orchestration never does. *)
Lemma first_wait_is_forever_witness :
  let after := demo_exit "o" "b" ++ demo_loop "o" 20 in
  sa_status <$> subagents (m_db (manager_run after stalled_demo)) !! "o-b" = Some "completed" ∧
  ∃ lp', m_loops (manager_run after stalled_demo) !! "o" = Some lp' ∧
    lp_scheduler lp' = lp_scheduler (task_of "o" stalled_demo) ∧ is_complete (lp_scheduler lp') = false ∧ lp_pc lp' ≠ LDone.
Proof.
  intros after. split; [vm_compute; reflexivity|].
  destruct (first_wait_is_forever (side_by_side 0) after (pool_new 3) (mkOrchestrationDb {["s"]} ∅ ∅ ∅) "o" (task_of "o" stalled_demo))
    as (lp' & H); [vm_compute; reflexivity..|]. exists lp'. exact H.
Defined.

Lemma orchestration_refines_scheduler_witness :
  lp_completed_count (task_of "o" stalled_demo) = 1%Z ∧ loop_reachable (task_of "o" stalled_demo).
Proof.
  split; [vm_compute; reflexivity|].
  destruct (orchestration_refines_scheduler (side_by_side 0) (pool_new 3) (mkOrchestrationDb {["s"]} ∅ ∅ ∅) "o"
              (task_of "o" stalled_demo) (OUnregister "o-b")) as [H _]; [vm_compute; reflexivity|exact H].
Defined.

Definition failed_demo : Manager := manager_run (side_by_side 1) demo_manager.

Lemma final_event_truthful_witness :
  lp_pc (task_of "o" failed_demo) = LDone ∧
  ∃ now ev, last (lp_events (task_of "o" failed_demo)) = Some (mkOrchestrationEvent "o" now ev) ∧
    ∃ c f, ev = OrchestrationFailed (pretty f +:+ " step(s) failed") c f.
Proof.
  split; [vm_compute; reflexivity|].
  destruct (final_event_truthful (side_by_side 1) (pool_new 3) (mkOrchestrationDb {["s"]} ∅ ∅ ∅) "o" (task_of "o" failed_demo))
    as (now & ev & Hl & H & _); [vm_compute; reflexivity..|].
  exists now, ev. split; [exact Hl|]. destruct H as (c & f & Hev & _); [exists "a"; vm_compute; reflexivity|eauto].
Defined.

(** An orchestration with a failed step is declared over while another of its
    steps still runs; the subagent of that step goes on. *)
Lemma failure_ends_early :
  lp_pc (task_of "o" failed_demo) = LDone ∧
  states (lp_scheduler (task_of "o" failed_demo)) !! "b" = Some Running ∧ is_running "o-b" failed_demo = true.
Proof. vm_compute. auto. Qed.

(** A step's row does not say "running" while it runs: it is updated before
    the subagent it refers to has a row, and that update fails. *)
Lemma running_step_not_recorded :
  states (lp_scheduler (task_of "o" failed_demo)) !! "b" = Some Running ∧
  os_status <$> orchestration_steps (m_db failed_demo) !! "b" = Some "pending".
Proof. vm_compute. auto. Qed.

(** A cancelled subagent ends up as failed: its monitoring task sees a process
    that was killed by a signal, and overwrites the row. *)
Lemma cancelled_becomes_failed :
  let m := manager_run [OSpawn demo_env (mkConfig "a" "s" "work" None "" [] 0 false 0); OStarted 1 "a"; OCancelBegin "a";
                        OCancelEnd 2 "a" "by the user"; OExit 3 "a" (Exited None)] demo_manager in
  sa_status <$> subagents (m_db m) !! "a" = Some "failed".
Proof. vm_compute. reflexivity. Qed.

Lemma taken_step_id_orphans_witness :
  let '(m', r) := run_orchestration 9 "o2" "s" Parallel [demo_step "a" []] stalled_demo in
  r = Err (DatabaseFailed (Query (UniqueViolation "orchestration_steps.id"))) ∧
  or_status <$> orchestrations (m_db m') !! "o2" = Some "running" ∧ m_loops m' = m_loops stalled_demo.
Proof.
  apply (taken_step_id_orphans 9 "o2" "s" "a" Parallel [demo_step "a" []]
           (mkScheduler ["a"] {[ "a" := [] ]} {[ "a" := Ready ]} {[ "a" := 0 ]}) stalled_demo).
  - vm_compute. reflexivity.
  - apply (bool_decide_unpack _). vm_compute. exact I.
  - vm_compute. reflexivity.
  - apply (bool_decide_unpack _). vm_compute. exact I.
  - apply (bool_decide_unpack _). vm_compute. exact I.
Defined.

End Situations.
