(* ===== verification/OrchestrationLiveness.v ===== *)
(** Orchestrations whose steps form a chain, as sequential ones do, make
    progress to their end.

    The wake-ups of such a task are accounted for: the task of the one running
    subagent either still has its notification to give, or has given exactly
    the one that the orchestration's task has not taken yet. *)
From stdpp Require Import gmap strings list fin_maps relations.
From Stdlib Require Import ZArith Lia.
From S2P Require Import Prelude Protocol Json Scheduler SchedulerKahn SchedulerRun SchedulerCorrect.
From S2P Require Import OrchestrationStore SubagentManager SubagentCorrect OrchestrationLoop OrchestrationCorrect.

(** * Identifiers *)

Lemma string_app_inj (a b s t : string) :
  String.length a = String.length b → a +:+ s = b +:+ t → a = b ∧ s = t.
Proof.
  revert b. induction a as [|c a IH]; intros [|c' b] Hl H; try done.
  cbn in Hl. rewrite !string_app_cons in H. injection H as -> H.
  destruct (IH b (eq_add_S _ _ Hl) H) as [-> ->]. done.
Qed.

(** Orchestrations and subagents that clients start are named by UUIDs. *)
Definition uuid_length : nat := 36.

Definition op_uuids (op : Op) : Prop :=
  match op with
  | ORun _ o _ _ _ => String.length o = uuid_length
  | OSpawn _ c => String.length (cf_id c) = uuid_length
  | _ => True
  end.

Lemma subagent_of_inj (o o' x x' : string) :
  String.length o = uuid_length → String.length o' = uuid_length →
  subagent_of o x = subagent_of o' x' → o = o' ∧ x = x'.
Proof.
  intros Ho Ho' H. apply string_app_inj in H as [-> H]; [|congruence].
  split; [done|]. by apply string_app_inj in H as [_ ->].
Qed.

Lemma subagent_of_length (o x : string) : String.length o = uuid_length → String.length (subagent_of o x) ≠ uuid_length.
Proof. intros Ho. unfold subagent_of. rewrite !string_length_app, Ho. change (String.length "-") with 1. lia. Qed.

(** * Chains *)

(** Any two steps depend on each other one way or the other. *)
Definition chained (lp : Loop) : Prop :=
  ∀ x y, x ∈ step_id <$> lp_steps lp → y ∈ step_id <$> lp_steps lp →
    x = y ∨ tc (depends (dep_map (lp_steps lp))) x y ∨ tc (depends (dep_map (lp_steps lp))) y x.

Definition unsettled (s : DagScheduler) (x : string) : Prop :=
  states s !! x = Some Ready ∨ states s !! x = Some Running.

Section Chains.
Context {ST : SqlText} {JT : JsonText} {HI : HashIter}.

Lemma chain_one (lp : Loop) (x y : string) :
  loop_reachable lp → chained lp → unsettled (lp_scheduler lp) x → unsettled (lp_scheduler lp) y → x = y.
Proof.
  intros Hr Hch. destruct (loop_sched_inv lp Hr) as (Hi & _ & Hs).
  assert (∀ x, unsettled (lp_scheduler lp) x → x ∈ step_id <$> lp_steps lp) as Hin.
  { intros z Hz. rewrite <- Hs. apply (si_states _ _ Hi). destruct Hz as [Hz|Hz]; rewrite Hz; eauto. }
  assert (∀ x y, unsettled (lp_scheduler lp) x → unsettled (lp_scheduler lp) y →
            ¬ tc (depends (dep_map (lp_steps lp))) x y) as Hno.
  { intros a b Ha Hb Htc. apply tc_edge_depends in Htc.
    assert (∃ st, states (lp_scheduler lp) !! a = Some st ∧ st ≠ Completed) as (st & Hst & Hnc)
      by (destruct Ha as [Ha|Ha]; eauto).
    destruct (descendants_unfinished _ _ Hi a b st Hst Hnc Htc) as [H|H]; destruct Hb as [Hb|Hb]; congruence. }
  intros Hx Hy. destruct (Hch x y (Hin x Hx) (Hin y Hy)) as [|[H|H]]; [done|by apply Hno in H..].
Qed.

Lemma chain_running_ids (lp : Loop) (x : string) :
  loop_reachable lp → chained lp → states (lp_scheduler lp) !! x = Some Running → running_ids (lp_scheduler lp) = [x].
Proof.
  intros Hr Hch Hx. destruct (loop_sched_inv lp Hr) as (Hi & _ & _).
  pose proof (NoDup_running_ids _ _ Hi) as Hnd. pose proof (λ y, elem_of_running_ids _ _ y Hi) as Hin.
  assert (∀ y, y ∈ running_ids (lp_scheduler lp) → y = x) as Hone.
  { intros y Hy. apply (chain_one lp); [done|done|right; by apply Hin|by right]. }
  apply Hin in Hx. destruct (running_ids (lp_scheduler lp)) as [|y [|z l]].
  - by apply elem_of_nil in Hx.
  - f_equal. apply Hone. by left.
  - exfalso. apply NoDup_cons in Hnd as [Hyz _]. apply Hyz.
    rewrite (Hone y), (Hone z); [by left|by right; left|by left].
Qed.

(** * The account of a chain's wake-ups *)

(** A running step's subagent is monitored and will notify the task, or it has
    ended and its row holds the outcome. *)
Definition run_live (m : Manager) (o x : string) : Prop :=
  (is_Some (m_monitors m !! subagent_of o x) ∧ m_sub_to_orch m !! subagent_of o x = Some o) ∨
  (m_monitors m !! subagent_of o x = None ∧ m_sub_to_orch m !! subagent_of o x = None ∧
   ∃ row, subagents (m_db m) !! subagent_of o x = Some row ∧ finished row).

Definition idle (lp : Loop) : Prop :=
  (∀ x, states (lp_scheduler lp) !! x ≠ Some Running) ∧ lp_stored lp = false ∧ lp_woken lp = false.

Definition chain_pc (m : Manager) (o : string) (lp : Loop) : Prop :=
  let over (x : string) := m_monitors m !! subagent_of o x = None in
  match lp_pc lp with
  | LTop | LCheck [] | LSpawn (_ :: _) => idle lp
  | LSpawn [] =>
      lp_woken lp = false ∧
      (∀ x, states (lp_scheduler lp) !! x = Some Running → lp_stored lp = true ↔ over x) ∧
      ((∀ x, states (lp_scheduler lp) !! x ≠ Some Running) → lp_stored lp = false)
  | LWaitRunning =>
      lp_stored lp = false ∧ (∃ x, states (lp_scheduler lp) !! x = Some Running) ∧
      ∀ x, states (lp_scheduler lp) !! x = Some Running → lp_woken lp = true ↔ over x
  | LCheck (x :: rest) =>
      rest = [] ∧ states (lp_scheduler lp) !! x = Some Running ∧ over x ∧ lp_stored lp = false ∧ lp_woken lp = false
  | LWaitFirst => False
  | LDone => True
  end.

Record chain_live (m : Manager) (o : string) (lp : Loop) : Prop := {
  cl_run : ∀ x, states (lp_scheduler lp) !! x = Some Running → run_live m o x;
  cl_map : ∀ x, is_Some (m_sub_to_orch m !! subagent_of o x) → states (lp_scheduler lp) !! x = Some Running;
  cl_active : o ∈ m_orchestrations m ↔ lp_pc lp ≠ LDone;
  cl_pc : chain_pc m o lp
}.

(** Only the parts of the manager that concern the task's own running
    subagents matter. *)
Definition same_view (o : string) (lp : Loop) (m m' : Manager) : Prop :=
  (∀ x, states (lp_scheduler lp) !! x = Some Running → is_Some (m_monitors m' !! subagent_of o x) ↔ is_Some (m_monitors m !! subagent_of o x)) ∧
  (∀ x, m_sub_to_orch m' !! subagent_of o x = m_sub_to_orch m !! subagent_of o x) ∧
  (o ∈ m_orchestrations m' ↔ o ∈ m_orchestrations m) ∧ outcomes_kept (m_db m) (m_db m').

Lemma same_view_none (o x : string) (lp : Loop) (m m' : Manager) :
  same_view o lp m m' → states (lp_scheduler lp) !! x = Some Running → (m_monitors m' !! subagent_of o x = None ↔ m_monitors m !! subagent_of o x = None).
Proof. intros (H & _) Hx. by rewrite !eq_None_not_Some, H. Qed.

Lemma same_view_run (o x : string) (lp : Loop) (m m' : Manager) :
  same_view o lp m m' → states (lp_scheduler lp) !! x = Some Running → run_live m o x → run_live m' o x.
Proof.
  intros Hv Hx. pose proof (same_view_none o x lp m m' Hv Hx) as Hn. destruct Hv as (Hmo & Hma & _ & Hd).
  unfold run_live. rewrite (Hmo x Hx), Hma, Hn. intros [H|(H1 & H2 & row & Hrow & Hf)]; [by left|right].
  split_and!; [done..|]. destruct (Hd _ row Hrow) as (row' & ? & ?). eauto.
Qed.

Lemma same_view_live (o : string) (m m' : Manager) (lp : Loop) :
  same_view o lp m m' → chain_live m o lp → chain_live m' o lp.
Proof.
  intros Hv [Hr Hm Ha Hp]. pose proof (λ x, same_view_none o x lp m m' Hv) as Hn.
  constructor.
  - intros x Hx. eapply same_view_run; eauto.
  - intros x. destruct Hv as (_ & -> & _). apply Hm.
  - destruct Hv as (_ & _ & -> & _). done.
  - unfold chain_pc in *. destruct (lp_pc lp) as [| |[|y rest]| |[|y rest]|]; try done.
    + destruct Hp as (? & H & ?). split_and!; [done| |done]. intros x Hx. rewrite (Hn x Hx). by apply H.
    + destruct Hp as (? & ? & H). split_and!; [done..|]. intros x Hx. rewrite (Hn x Hx). by apply H.
    + destruct Hp as (? & Hy & ? & ? & ?). by rewrite (Hn y Hy).
Qed.

(** * Steps of the task *)

Lemma spawn_step_cases (env : SpawnEnv) (o x : string) (lp : Loop) (m : Manager) :
  core_inv lp → states (lp_scheduler lp) !! x = Some Ready →
  let m' := (spawn_step env o x lp m).1 in
  let lp' := (spawn_step env o x lp m).2 in
  m_orchestrations m' = m_orchestrations m ∧ outcomes_kept (m_db m) (m_db m') ∧
  (∀ id, id ≠ subagent_of o x →
     m_sub_to_orch m' !! id = m_sub_to_orch m !! id ∧ m_monitors m' !! id = m_monitors m !! id) ∧
  ((moved x Running lp lp' ∧ m_sub_to_orch m' !! subagent_of o x = Some o ∧ is_Some (m_monitors m' !! subagent_of o x)) ∨
   (moved x Failed lp lp' ∧ m_sub_to_orch m' !! subagent_of o x = None ∧ m_monitors m' = m_monitors m)).
Proof.
  intros Hc Hx. pose proof Hc as (Hr & _ & _). destruct (loop_sched_inv lp Hr) as (Hi & _ & Hs).
  destruct (step_configs_keys (lp_steps lp) x) as (cfg & Hcfg & _).
  { rewrite <- Hs. apply (si_states _ _ Hi). eauto. }
  unfold spawn_step. rewrite Hcfg. set (m1 := with_db _ _).
  assert (subagents (m_db m1) = subagents (m_db m)) as Hsub by apply update_step_subagents.
  pose proof (spawn_effect env (step_subagent env o lp x cfg) m1) as H.
  destruct (spawn _ _ m1) as [m2 [id|e]]; cbn [fst snd].
  - destruct H as [_ H]. pose proof (started_kept _ _ _ _ H) as Hk.
    destruct H as [_ _ _ _ _ _ (mo & Hmo & _) (_ & Hma & Hor)]. split_and!.
    + by rewrite Hor.
    + etransitivity; [|exact Hk]. by apply same_subagents_kept.
    + intros id' Hne. rewrite Hma, Hmo. cbn. by rewrite !lookup_insert_ne by done.
    + left. split_and!; [by apply step_started_moved| |].
      * rewrite Hma. cbn. by rewrite lookup_insert_eq.
      * rewrite Hmo. cbn. rewrite lookup_insert_eq. eauto.
  - destruct H as (d & -> & Hd).
    pose proof (step_failed_moved (env_now env) o x (manager_error_text e) lp Hc (or_introl Hx)) as Hmv.
    destruct (step_failed _ _ _ _ _) as [lp' blocked]. cbn [fst snd] in *. split_and!.
    + done.
    + cbn. etransitivity; [|apply same_subagents_kept; by rewrite write_blocked_subagents, update_step_subagents].
      etransitivity; [|exact Hd]. by apply same_subagents_kept.
    + intros id' Hne. cbn. rewrite lookup_delete_ne, lookup_insert_ne by done. done.
    + right. split_and!; [done| |done]. cbn. by rewrite lookup_delete_eq.
Qed.

Lemma view_other (o o' x : string) (lp : Loop) (m m' : Manager) :
  String.length o = uuid_length → String.length o' = uuid_length → o' ≠ o →
  m_orchestrations m' = m_orchestrations m → outcomes_kept (m_db m) (m_db m') →
  (∀ id, id ≠ subagent_of o x →
     m_sub_to_orch m' !! id = m_sub_to_orch m !! id ∧ m_monitors m' !! id = m_monitors m !! id) →
  same_view o' lp m m'.
Proof.
  intros Ho Ho' Hne Hor Hk H. split_and!; [..|by rewrite Hor|done]; intros y;
    (destruct (H (subagent_of o' y)) as [H1 H2]; [intros Heq; apply subagent_of_inj in Heq as [? _]; congruence|]);
    [by rewrite H2|done].
Qed.

(** Starting the step of a chain. *)
Lemma chain_spawn (env : SpawnEnv) (o x : string) (rest : list string) (lp : Loop) (m : Manager) :
  String.length o = uuid_length → core_inv lp → chained lp → lp_pc lp = LSpawn (x :: rest) →
  NoDup (x :: rest) → (∀ y, y ∈ x :: rest → states (lp_scheduler lp) !! y = Some Ready) → chain_live m o lp →
  chain_live (spawn_step env o x lp m).1 o (with_pc (LSpawn rest) (spawn_step env o x lp m).2).
Proof.
  intros Ho Hc Hch Hpc Hnd Hall [Hr Hm Ha Hp]. assert (states (lp_scheduler lp) !! x = Some Ready) as Hx by (apply Hall; by left).
  assert (rest = []) as ->.
  { destruct rest as [|y rest]; [done|]. exfalso. apply NoDup_cons in Hnd as [Hxy _]. apply Hxy.
    rewrite (chain_one lp x y); [by left|apply Hc|done|by left|left; apply Hall; by right; left]. }
  unfold chain_pc in Hp. rewrite Hpc in Hp. destruct Hp as (Hno & Hs & Hw).
  destruct (spawn_step_cases env o x lp m Hc Hx) as (Hor & Hk & Hother & Hcase).
  assert (∀ y, y ≠ x → m_sub_to_orch (spawn_step env o x lp m).1 !! subagent_of o y = None) as Hnomap.
  { intros y Hy. destruct (Hother (subagent_of o y)) as [-> _].
    - intros Heq. apply subagent_of_inj in Heq as [_ ?]; done.
    - apply eq_None_not_Some. intros H. by apply Hm, Hno in H. }
  destruct (spawn_step env o x lp m) as [m' lp']. cbn [fst snd] in *.
  destruct Hcase as [((_ & (_ & _ & Hs' & Hw') & _ & Hx' & _ & Hback) & Hmap & Hmon)|((_ & (_ & _ & Hs' & Hw') & _ & Hx' & _ & Hback) & Hmap & _)];
    constructor; cbn [lp_scheduler with_pc].
  - intros y Hy. destruct (decide (y = x)) as [->|Hne]; [by left|]. by destruct (Hno y); apply Hback.
  - intros y Hy. destruct (decide (y = x)) as [->|Hne]; [done|]. rewrite Hnomap in Hy by done. by destruct Hy.
  - rewrite Hor, Ha. cbn. by rewrite Hpc.
  - unfold chain_pc. cbn [lp_pc with_pc lp_woken lp_stored lp_scheduler]. rewrite Hs', Hw', Hs. split_and!; [done| |done].
    intros y Hy. destruct (decide (y = x)) as [->|Hne]; [|by destruct (Hno y); apply Hback].
    split; [done|]. intros Hnone. rewrite Hnone in Hmon. by destruct Hmon.
  - intros y Hy. destruct (decide (y = x)) as [->|Hne]; [congruence|]. by destruct (Hno y); apply Hback.
  - intros y Hy. destruct (decide (y = x)) as [->|Hne]; [rewrite Hmap in Hy|rewrite Hnomap in Hy by done]; by destruct Hy.
  - rewrite Hor, Ha. cbn. by rewrite Hpc.
  - unfold chain_pc. cbn [lp_pc with_pc lp_woken lp_stored lp_scheduler]. rewrite Hs', Hw', Hs. split_and!; [done| |done].
    intros y Hy. destruct (decide (y = x)) as [->|Hne]; [congruence|by destruct (Hno y); apply Hback].
Qed.

(** Checking the step of a chain: its subagent has ended, so that it moves. *)
Lemma chain_check_moves (limit : nat) (now : Z) (o x : string) (lp : Loop) (m : Manager) :
  agents_ok limit m → core_inv lp → states (lp_scheduler lp) !! x = Some Running → run_live m o x →
  m_monitors m !! subagent_of o x = None →
  ∃ st, (st = Completed ∨ st = Failed) ∧ moved x st lp (check_step now o x lp m).2.
Proof.
  intros Hag Hc Hx Hrun Hnone.
  destruct Hrun as [[[mo Hmo] _]|(_ & _ & row & Hrow & Hfin)]; [congruence|].
  unfold check_step.
  assert (is_running (subagent_of o x) m = false) as ->.
  { apply bool_decide_eq_false. rewrite (ao_running _ _ Hag). intros (mo & Hmo & _). congruence. }
  unfold get_subagent. rewrite Hrow.
  case_decide as H1; [exists Completed; split; [by left|]; by apply step_completed_moved|].
  rewrite decide_True.
  - exists Failed. split; [by right|].
    pose proof (step_failed_moved now o x (default "Unknown failure" (sa_result_summary row)) lp Hc (or_intror Hx)) as Hmv.
    by destruct (step_failed _ _ _ _ _).
  - unfold finished, finished_statuses in Hfin. set_solver.
Qed.

Lemma check_step_view (now : Z) (o x o' : string) (lp lp' : Loop) (m : Manager) :
  same_view o' lp' m (check_step now o x lp m).1.
Proof.
  pose proof (quiet_check_step now o x lp m) as (_ & Hmo & _ & Hk).
  assert (m_sub_to_orch (check_step now o x lp m).1 = m_sub_to_orch m ∧
          m_orchestrations (check_step now o x lp m).1 = m_orchestrations m) as [Hma Hor]
    by (unfold check_step; by repeat case_match).
  split_and!; [intros y _; by rewrite Hmo|intros y; by rewrite Hma|by rewrite Hor|done].
Qed.

Lemma chain_check (limit : nat) (now : Z) (o x : string) (rest : list string) (lp : Loop) (m : Manager) :
  agents_ok limit m → core_inv lp → chained lp → lp_pc lp = LCheck (x :: rest) →
  states (lp_scheduler lp) !! x = Some Running → chain_live m o lp →
  chain_live (check_step now o x lp m).1 o (with_pc (LCheck rest) (check_step now o x lp m).2).
Proof.
  intros Hag Hc Hch Hpc Hx [Hr Hm Ha Hp]. unfold chain_pc in Hp. rewrite Hpc in Hp. destruct Hp as (-> & _ & Hover & Hs & Hw).
  destruct (chain_check_moves limit now o x lp m Hag Hc Hx (Hr x Hx) Hover)
    as (st & Hst & (_ & (_ & _ & Hs' & Hw') & _ & Hx' & _ & Hback)).
  pose proof (check_step_view now o x o lp lp m) as Hv.
  assert (∀ y, states (lp_scheduler (check_step now o x lp m).2) !! y ≠ Some Running) as Hno.
  { intros y Hy. destruct (decide (y = x)) as [->|Hne]; [rewrite Hx' in Hy; destruct Hst; congruence|].
    apply Hne. apply (chain_one lp); [apply Hc|done|right; by apply Hback|by right]. }
  constructor; cbn [lp_scheduler with_pc].
  - intros y Hy. by apply Hno in Hy.
  - intros y Hy. destruct Hv as (_ & Hma & _). rewrite Hma in Hy. exfalso.
    assert (y = x) as -> by (apply (chain_one lp); [apply Hc|done|right; by apply Hm|by right]).
    destruct (Hr x Hx) as [[[mo Hmo] _]|(_ & Hnone & _)]; [congruence|]. rewrite Hnone in Hy. by destruct Hy.
  - destruct Hv as (_ & _ & -> & _). rewrite Ha. cbn. by rewrite Hpc.
  - unfold chain_pc. cbn [lp_pc with_pc]. split_and!; [done|cbn; congruence..].
Qed.

(** At the head of the loop a chain has nothing running: it starts a step or
    has come to its end. *)
Lemma chain_top (env : SpawnEnv) (o : string) (lp : Loop) (m : Manager) :
  loop_reachable lp → lp_pc lp = LTop → idle lp →
  (loop_step env o lp m = (m, with_pc (LSpawn (next_ready (lp_scheduler lp))) lp) ∧ next_ready (lp_scheduler lp) ≠ []) ∨
  loop_step env o lp m = finish (env_now env) o lp m.
Proof.
  intros Hr Hpc (Hno & _ & _). destruct (loop_sched_inv lp Hr) as (Hi & Hac & _).
  unfold loop_step. rewrite Hpc. case_bool_decide as Hn; cbn [andb]; [|by left]. right.
  rewrite (stuck_complete _ _ Hi Hac); [done| |done].
  intros x Hx. apply (elem_of_next_ready _ _ _ Hi) in Hx. rewrite Hn in Hx. by apply elem_of_nil in Hx.
Qed.

Lemma finish_view (now : Z) (o o' : string) (lp lp' : Loop) (m : Manager) :
  o' ≠ o → same_view o' lp' m (finish now o lp m).1.
Proof.
  intros Hne. unfold finish. destruct (final_outcome lp) as [status ev].
  split_and!; [done..|cbn; set_solver|]. apply same_subagents_kept, update_orchestration_subagents.
Qed.

Lemma chain_finish (now : Z) (o : string) (lp : Loop) (m : Manager) :
  idle lp → chain_live m o lp → chain_live (finish now o lp m).1 o (finish now o lp m).2.
Proof.
  intros (Hno & _ & _) [Hr Hm Ha Hp]. unfold finish. destruct (final_outcome lp) as [status ev].
  constructor; cbn; [intros x Hx; by apply Hno in Hx|done|set_solver|done].
Qed.

Lemma chain_loop_step (limit : nat) (env : SpawnEnv) (o : string) (lp : Loop) (m : Manager) :
  agents_ok limit m → String.length o = uuid_length → loop_inv o lp → chained lp → chain_live m o lp →
  chain_live (loop_step env o lp m).1 o (loop_step env o lp m).2.
Proof.
  intros Hag Ho Hinv Hch Hl. apply core_loop_inv in Hinv as [Hc Hp]. pose proof Hl as [Hr Hm Ha Hcp].
  pose proof Hc as (Hre & _ & _). destruct (loop_sched_inv lp Hre) as (Hi & _ & _).
  unfold pc_ok in Hp. unfold chain_pc in Hcp.
  destruct (lp_pc lp) as [| |[|x rest]| |[|x rest]|] eqn:Hpc.
  - destruct (chain_top env o lp m Hre Hpc Hcp) as [[-> Hne]| ->]; [|by apply chain_finish].
    constructor; cbn; [done|done|by rewrite Ha|]. unfold chain_pc. cbn [lp_pc with_pc].
    by destruct (next_ready (lp_scheduler lp)).
  - done.
  - unfold loop_step. rewrite Hpc. cbn [fst snd]. destruct Hcp as (Hw & Hiff & Hnone). case_decide as Hrun.
    + assert (∀ x, states (lp_scheduler lp) !! x ≠ Some Running) as Hno.
      { intros x Hx. apply (elem_of_running_ids _ _ _ Hi) in Hx. rewrite Hrun in Hx. by apply elem_of_nil in Hx. }
      constructor; cbn; [done|done|by rewrite Ha|]. by split_and!; [|apply Hnone|].
    + destruct (running_ids (lp_scheduler lp)) as [|x l] eqn:Hids; [done|].
      assert (states (lp_scheduler lp) !! x = Some Running) as Hx
        by (apply (elem_of_running_ids _ _ _ Hi); rewrite Hids; by left).
      rewrite (chain_running_ids lp x Hre Hch Hx) in Hids. injection Hids as <-.
      unfold await_notified. destruct (lp_stored lp) eqn:Hs; constructor; cbn; try done; try (by rewrite Ha).
      * unfold chain_pc. cbn [lp_pc with_pc]. split_and!; [done|done|by apply Hiff|done|done].
      * unfold chain_pc. cbn [lp_pc with_pc lp_stored lp_woken lp_scheduler]. split_and!; [done|by exists x|].
        intros y Hy. rewrite <- Hiff by done. rewrite Hw. done.
  - unfold loop_step. rewrite Hpc. destruct Hp as [Hnd Hall].
    pose proof (chain_spawn env o x rest lp m Ho Hc Hch Hpc Hnd Hall Hl) as H. by destruct (spawn_step env o x lp m).
  - unfold loop_step. rewrite Hpc. cbn [fst snd]. unfold resume. destruct (lp_woken lp) eqn:Hw; [|done].
    destruct Hcp as (Hs & (x & Hx) & Hiff). constructor; cbn; [done|done|by rewrite Ha|].
    unfold chain_pc. cbn [lp_pc with_pc]. rewrite (chain_running_ids lp x Hre Hch Hx). split_and!; [done|done|by apply Hiff|done|done].
  - unfold loop_step. rewrite Hpc. by constructor; cbn; [..|rewrite Ha|].
  - unfold loop_step. rewrite Hpc. destruct Hp as [_ Hall].
    pose proof (chain_check limit (env_now env) o x rest lp m Hag Hc Hch Hpc (Hall x (list_elem_of_here _ _)) Hl) as H.
    by destruct (check_step (env_now env) o x lp m).
  - unfold loop_step. rewrite Hpc. exact Hl.
Qed.

(** * All tasks together *)

Record net (m : Manager) : Prop := {
  ne_len : ∀ o, is_Some (m_loops m !! o) → String.length o = uuid_length;
  ne_map : ∀ id o, m_sub_to_orch m !! id = Some o → ∃ x, id = subagent_of o x ∧ is_Some (m_loops m !! o);
  ne_chain : ∀ o lp, m_loops m !! o = Some lp → chained lp → chain_live m o lp
}.

(** Operations that touch no task and no subagent of an orchestration. *)
Definition calm (m m' : Manager) : Prop :=
  m_loops m' = m_loops m ∧ m_sub_to_orch m' = m_sub_to_orch m ∧ m_orchestrations m' = m_orchestrations m ∧
  (∀ id, String.length id ≠ uuid_length → (is_Some (m_monitors m' !! id) ↔ is_Some (m_monitors m !! id))) ∧
  outcomes_kept (m_db m) (m_db m').

Lemma calm_view (o : string) (lp : Loop) (m m' : Manager) :
  String.length o = uuid_length → calm m m' → same_view o lp m m'.
Proof.
  intros Ho (_ & Hma & Hor & Hmo & Hk). split_and!; [|by rewrite Hma|by rewrite Hor|done].
  intros x _. by apply Hmo, subagent_of_length.
Qed.

Lemma calm_net (m m' : Manager) : calm m m' → net m → net m'.
Proof.
  intros Hc [Hl Hm Hch]. pose proof Hc as (Hlo & Hma & _). constructor; rewrite ?Hlo, ?Hma; [done|done|].
  intros o lp Hlp Hcd. eapply same_view_live; [|by apply Hch]. apply calm_view; [|done]. apply Hl. by rewrite Hlp.
Qed.

Lemma quiet_calm (m m' : Manager) :
  quiet m m' → m_loops m' = m_loops m → m_sub_to_orch m' = m_sub_to_orch m →
  m_orchestrations m' = m_orchestrations m → calm m m'.
Proof. intros (_ & Hmo & _ & Hk) ? ? ?. split_and!; try done. intros id _. by rewrite Hmo. Qed.

Lemma spawn_calm (env : SpawnEnv) (c : SubagentConfig) (m : Manager) :
  String.length (cf_id c) = uuid_length → calm m (spawn env c m).1.
Proof.
  intros Hid. pose proof (spawn_effect env c m) as H. destruct (spawn env c m) as [m' [?|?]]; cbn [fst].
  - destruct H as [_ H]. pose proof (started_kept _ _ _ _ H) as Hk.
    destruct H as [_ _ _ _ _ _ (mo & Hmo & _) (Hlo & Hma & Hor)]. split_and!; try done.
    intros id Hne. rewrite Hmo, lookup_insert_ne; [done|]. intros <-. done.
  - destruct H as (d & -> & Hk). by split_and!.
Qed.

Lemma set_stage_calm (id : string) (stage : MonitorStage) (m m' : Manager) : calm m m' → calm m (set_stage id stage m').
Proof.
  intros (? & ? & ? & Hmo & ?). split_and!; try done. intros id' Hne. unfold set_stage. cbn.
  rewrite lookup_alter_is_Some. by apply Hmo.
Qed.

Lemma broadcast_calm (id : string) (ev : SubagentEvent) (m : Manager) : calm m (broadcast_event id ev m).
Proof. apply quiet_calm; [apply quiet_broadcast|..]; unfold broadcast_event; by destruct (m_running m !! id). Qed.

Lemma calm_trans (m1 m2 m3 : Manager) : calm m1 m2 → calm m2 m3 → calm m1 m3.
Proof.
  intros (? & ? & ? & Hm1 & ?) (? & ? & ? & Hm2 & ?). split_and!; [congruence..| |by etransitivity].
  intros id Hne. by rewrite Hm2, Hm1.
Qed.

Lemma stdout_calm (now : Z) (id line : string) (m : Manager) : calm m (on_stdout_line now id line m).
Proof.
  unfold on_stdout_line. revert m. induction (parse_stdout_line now id line) as [|ev evs IH]; intros m; [by split_and!|].
  cbn [foldl]. eapply calm_trans; [apply broadcast_calm|apply IH].
Qed.

Lemma monitor_exit_calm (now : Z) (id : string) (r : ExitResult) (m : Manager) : calm m (monitor_exit now id r m).
Proof.
  unfold monitor_exit. destruct (m_monitors m !! id) as [mo|]; [|by split_and!]. destruct (mo_stage mo); try by split_and!.
  pose proof (exit_outcome_finished r) as Hfin. destruct (exit_outcome r) as [[status code] summary]. cbn [fst] in Hfin.
  apply set_stage_calm. eapply calm_trans; [|apply broadcast_calm]. split_and!; try done.
  cbn. by apply update_finished_kept.
Qed.

(** The operations that are not the task's own, the end of a monitoring task
    or the start of an orchestration. *)
Lemma other_ops_calm (op : Op) (m : Manager) :
  op_uuids op →
  match op with ORun _ _ _ _ _ | OLoop _ _ | OFinish _ => True | _ => calm m (manager_step op m) end.
Proof.
  intros Hop. destruct op; cbn [manager_step]; try done.
  - by apply spawn_calm.
  - unfold monitor_started. destruct (m_monitors m !! id) as [mo|]; [|by split_and!].
    destruct (mo_stage mo); try by split_and!. apply set_stage_calm, broadcast_calm.
  - apply stdout_calm.
  - apply monitor_exit_calm.
  - unfold monitor_unregister. destruct (m_monitors m !! id) as [mo|]; [|by split_and!].
    destruct (mo_stage mo); try by split_and!. apply set_stage_calm. by split_and!.
  - unfold subscribe. case_match; by split_and!.
  - unfold send_input. repeat case_match; by split_and!.
  - unfold cancel_begin. case_match; by split_and!.
  - unfold cancel_end. case_decide; [|by split_and!]. split_and!; try done. cbn. apply update_finished_kept.
    unfold finished_statuses. set_solver.
  - unfold revoke_auto_approve. case_match; by split_and!.
Qed.

(** * Starting an orchestration *)

Lemma new_loop_chain (o parent : string) (steps : list OrchestrationStep) (s : DagScheduler) (m m' : Manager) :
  new (step_id <$> steps) (dep_map steps) = Ok s → String.length o = uuid_length → net m → m_loops m !! o = None →
  m_sub_to_orch m' = m_sub_to_orch m → o ∈ m_orchestrations m' →
  chain_live m' o (mkLoop LTop parent steps s 0 0 ∅ false false []).
Proof.
  intros Hn Ho Hnet Hfresh Hma Hor.
  assert (∀ x, states s !! x ≠ Some Running) as Hno.
  { intros x. unfold new in Hn. destruct (validate_dag _ _) as [[]|]; cbn [result_bind] in Hn; [|done]. injection Hn as <-.
    cbn [states]. rewrite initial_states_lookup. repeat case_decide; done. }
  constructor; cbn; [intros x Hx; by apply Hno in Hx| |done|done].
  intros x [o' Ho']. exfalso. rewrite Hma in Ho'. destruct (ne_map _ Hnet _ _ Ho') as (x' & Heq & Hlp).
  apply subagent_of_inj in Heq as [-> _]; [|done|by apply (ne_len _ Hnet)]. rewrite Hfresh in Hlp. by destruct Hlp.
Qed.

Lemma run_net (now : Z) (o parent : string) (strategy : OrchestrationStrategy) (steps : list OrchestrationStep) (m : Manager) :
  loops_have_rows m → String.length o = uuid_length → net m → net (run_orchestration now o parent strategy steps m).1.
Proof.
  intros Hrows Ho Hnet. pose proof (quiet_run_orchestration now o parent strategy steps m) as Hq. revert Hq.
  unfold run_orchestration. destruct (new _ _) as [s|] eqn:Hn; [|done].
  destruct (create_orchestration _ _ _ _ _) as [d1 [row|?]] eqn:Hc; [|intros Hq; by apply (calm_net m); [apply quiet_calm|]].
  assert (m_loops m !! o = None) as Hfresh.
  { apply eq_None_not_Some. intros Hlp%Hrows. unfold create_orchestration in Hc. destruct Hlp as [row' Hrow'].
    by rewrite Hrow' in Hc. }
  destruct (update_orchestration_status _ _ _ _) as [d2 [?|?]]; [|intros Hq; by apply (calm_net m); [apply quiet_calm|]].
  destruct (create_steps _ _ _ _ _) as [d3 [?|?]]; [|intros Hq; by apply (calm_net m); [apply quiet_calm|]].
  intros (_ & _ & _ & Hk). cbn [fst] in *. constructor; cbn [m_loops with_active with_loops with_db m_sub_to_orch].
  - intros o'. rewrite lookup_insert_is_Some'. intros [<-|H]; [done|by apply (ne_len _ Hnet)].
  - intros id o' Hid. destruct (ne_map _ Hnet id o' Hid) as (x & -> & H). exists x. split; [done|].
    rewrite lookup_insert_is_Some'. by right.
  - intros o' lp Hlp Hch. apply lookup_insert_Some in Hlp as [[<- <-]|[Hne Hlp]].
    + eapply (new_loop_chain _ _ _ _ m); eauto. cbn. set_solver.
    + eapply same_view_live; [|by apply (ne_chain _ Hnet)]. split_and!; [done..|cbn; set_solver|exact Hk].
Qed.

(** * The end of a monitoring task *)

Lemma finish_map (m : Manager) (id o : string) (lp : Loop) :
  net m → m_sub_to_orch m !! id = Some o → m_loops m !! o = Some lp → chained lp →
  ∃ x, id = subagent_of o x ∧ states (lp_scheduler lp) !! x = Some Running.
Proof.
  intros Hnet Hid Hlp Hch. destruct (ne_map _ Hnet id o Hid) as (x & -> & _). exists x. split; [done|].
  apply (cl_map _ _ _ (ne_chain _ Hnet o lp Hlp Hch)). by eexists.
Qed.

(** The monitoring task of the chain's own running step: the notification it
    gives is the one the task is waiting for. *)
Lemma chain_notified (m m' : Manager) (o x : string) (lp : Loop) (row : SubagentRow) :
  chain_live m o lp → loop_reachable lp → chained lp →
  states (lp_scheduler lp) !! x = Some Running → is_Some (m_monitors m !! subagent_of o x) →
  subagents (m_db m) !! subagent_of o x = Some row → finished row →
  m_monitors m' = delete (subagent_of o x) (m_monitors m) → m_sub_to_orch m' = delete (subagent_of o x) (m_sub_to_orch m) →
  m_orchestrations m' = m_orchestrations m → m_db m' = m_db m →
  chain_live m' o (if decide (o ∈ m_orchestrations m) then notify_one lp else lp).
Proof.
  intros [Hr Hm Ha Hp] Hre Hch Hx [mo Hmo] Hrow Hfin Hmo' Hma' Hor' Hdb'.
  assert (∀ y, states (lp_scheduler lp) !! y = Some Running → y = x) as Hone
    by (intros y Hy; apply (chain_one lp); [done|done|by right..]).
  set (lp' := if decide _ then _ else _).
  assert (lp_scheduler lp' = lp_scheduler lp ∧ lp_pc lp' = lp_pc lp) as [Hsch Hpc']
    by (subst lp'; case_decide; [|done]; unfold notify_one; by destruct (_ && _)).
  constructor.
  - intros y Hy. rewrite Hsch in Hy. rewrite (Hone y Hy). right. rewrite Hmo', Hma', Hdb', !lookup_delete_eq. eauto.
  - intros y Hy. rewrite Hma' in Hy. rewrite Hsch. apply Hm. destruct Hy as [o' Hy].
    apply lookup_delete_Some in Hy as [_ Hy]. eauto.
  - by rewrite Hor', Hpc'.
  - assert (∀ y, states (lp_scheduler lp) !! y = Some Running → m_monitors m' !! subagent_of o y = None) as Hover
      by (intros y Hy; rewrite (Hone y Hy), Hmo'; apply lookup_delete_eq).
    unfold chain_pc in *. rewrite Hpc', Hsch. subst lp'.
    destruct (lp_pc lp) as [| |[|y rest]| |[|y rest]|] eqn:Hpc.
    + destruct Hp as [Hno _]. by apply Hno in Hx.
    + done.
    + rewrite decide_True by by apply Ha. unfold notify_one. rewrite Hpc. cbn. destruct Hp as (Hw & _ & _).
      split_and!; [done| |intros Hno; by apply Hno in Hx]. intros y Hy. split; [intros _; by apply Hover|done].
    + destruct Hp as [Hno _]. by apply Hno in Hx.
    + rewrite decide_True by by apply Ha. unfold notify_one. rewrite Hpc. destruct Hp as (Hs & Hex & Hiff).
      assert (lp_woken lp = false) as Hw.
      { destruct (lp_woken lp); [|done]. rewrite (proj1 (Hiff x Hx) eq_refl) in Hmo. done. }
      rewrite Hw. cbn. split_and!; [done..|]. intros y Hy. split; [intros _; by apply Hover|done].
    + destruct Hp as [Hno _]. by apply Hno in Hx.
    + destruct Hp as (-> & Hy & Hyo & Hs & Hw). rewrite (Hone y Hy) in Hyo. congruence.
    + done.
Qed.

Lemma finish_net (limit : nat) (id : string) (m : Manager) :
  agents_ok limit m → (∀ o lp, m_loops m !! o = Some lp → loop_inv o lp) → net m → net (monitor_finish id m).
Proof.
  intros Hag Hinv Hnet. unfold monitor_finish. destruct (m_monitors m !! id) as [mo|] eqn:Hmo; [|done].
  destruct (mo_stage mo) eqn:Hst; try done.
  destruct (ao_rows _ _ Hag id mo Hmo) as [row Hrow].
  assert (finished row) as Hfin by (eapply (ao_outcome _ _ Hag); eauto).
  assert (∀ o x, String.length o = uuid_length → id ≠ subagent_of o x →
    (is_Some (delete id (m_monitors m) !! subagent_of o x) ↔ is_Some (m_monitors m !! subagent_of o x)) ∧
    delete id (m_sub_to_orch m) !! subagent_of o x = m_sub_to_orch m !! subagent_of o x) as Hother
    by (intros o x _ Hne; by rewrite !lookup_delete_ne).
  destruct (m_sub_to_orch m !! id) as [o|] eqn:Hid.
  - destruct (ne_map _ Hnet id o Hid) as (x & -> & [lp Hlp]). pose proof (ne_len _ Hnet o (mk_is_Some _ _ Hlp)) as Ho.
    set (loops := if decide (o ∈ m_orchestrations m) then alter notify_one o (m_loops m) else m_loops m).
    match goal with |- net ?m' => assert (m_loops m' = loops ∧ m_orchestrations m' = m_orchestrations m ∧ m_db m' = m_db m ∧
      m_monitors m' = delete (subagent_of o x) (m_monitors m) ∧ m_sub_to_orch m' = delete (subagent_of o x) (m_sub_to_orch m))
      as (Hlo & Hor & Hdb & Hmo' & Hma) by (subst loops; by case_decide); set (m1 := m') in *; clearbody m1 end.
    assert (∀ o', is_Some (loops !! o') ↔ is_Some (m_loops m !! o')) as Hdom
      by (intros o'; subst loops; case_decide; [apply lookup_alter_is_Some|done]).
    constructor; rewrite ?Hlo.
    + intros o' Ho'%Hdom. by apply (ne_len _ Hnet).
    + intros id' o'. rewrite Hma. intros [_ H]%lookup_delete_Some. destruct (ne_map _ Hnet id' o' H) as (x' & ? & ?).
      exists x'. split; [done|]. by apply Hdom.
    + intros o' lp' Hlp' Hch. destruct (decide (o' = o)) as [->|Hne].
      * assert (lp' = if decide (o ∈ m_orchestrations m) then notify_one lp else lp) as ->.
        { subst loops. case_decide; [|congruence]. rewrite lookup_alter_eq, Hlp in Hlp'. by injection Hlp'. }
        assert (chained lp) as Hch'.
        { revert Hch. case_decide; [|done]. unfold notify_one, chained. by destruct (_ && _). }
        pose proof (ne_chain _ Hnet o lp Hlp Hch') as Hl.
        eapply (chain_notified m); eauto; [by apply (Hinv o)|]. apply (cl_map _ _ _ Hl). by eexists.
      * assert (m_loops m !! o' = Some lp') as Hlp''.
        { subst loops. case_decide; [|done]. by rewrite lookup_alter_ne in Hlp'. }
        eapply same_view_live; [|by apply (ne_chain _ Hnet)].
        pose proof (ne_len _ Hnet o' (mk_is_Some _ _ Hlp'')) as Ho'.
        assert (∀ y, subagent_of o x ≠ subagent_of o' y) as Hsep
          by (intros y Heq; apply subagent_of_inj in Heq as [? _]; congruence).
        split_and!; [intros y _; rewrite Hmo'; by apply Hother|intros y; rewrite Hma; by apply Hother|by rewrite Hor|by rewrite Hdb].
  - cbn. constructor; cbn.
    + apply (ne_len _ Hnet).
    + apply (ne_map _ Hnet).
    + intros o lp Hlp Hch. pose proof (ne_chain _ Hnet o lp Hlp Hch) as Hl.
      eapply same_view_live; [|exact Hl]. split_and!; [|done..]. intros x Hx. cbn.
      rewrite lookup_delete_ne; [done|]. intros ->.
      destruct (cl_run _ _ _ Hl x Hx) as [[_ H]|[H _]]; congruence.
Qed.

(** * One operation *)

Lemma loop_net (limit : nat) (env : SpawnEnv) (o : string) (lp : Loop) (m : Manager) :
  agents_ok limit m → (∀ o lp, m_loops m !! o = Some lp → loop_inv o lp) → net m → m_loops m !! o = Some lp →
  net (manager_step (OLoop env o) m).
Proof.
  intros Hag Hinv Hnet Hlp. cbn [manager_step]. rewrite Hlp.
  pose proof (ne_len _ Hnet o (mk_is_Some _ _ Hlp)) as Ho.
  pose proof (loop_step_loops env o lp m) as Hlo.
  pose proof (λ Hch, chain_loop_step limit env o lp m Hag Ho (Hinv o lp Hlp) Hch (ne_chain _ Hnet o lp Hlp Hch)) as Hown.
  pose proof (loop_step_scheduler env o lp m (Hinv o lp Hlp)) as [Hsteps _].
  assert ((∀ id o', m_sub_to_orch (loop_step env o lp m).1 !! id = Some o' →
             m_sub_to_orch m !! id = Some o' ∨ ∃ x, id = subagent_of o x ∧ o' = o) ∧
          ∀ o' lp', String.length o' = uuid_length → o' ≠ o → same_view o' lp' m (loop_step env o lp m).1) as [Hma Hview].
  { clear Hown. pose proof (proj1 (core_loop_inv o lp) (Hinv o lp Hlp)) as [Hc Hp]. unfold loop_step. unfold pc_ok in Hp.
    assert ((∀ id o', m_sub_to_orch m !! id = Some o' → m_sub_to_orch m !! id = Some o' ∨ ∃ x, id = subagent_of o x ∧ o' = o) ∧
            ∀ o' lp', String.length o' = uuid_length → o' ≠ o → same_view o' lp' m m) as Hsame by (by split; [auto|]).
    destruct (lp_pc lp) as [| |[|x rest]| |[|x rest]|] eqn:Hpc; try exact Hsame.
    - repeat case_match; try exact Hsame. split; [|intros o' lp' _ Hne; by apply finish_view].
      unfold finish. destruct (final_outcome lp). by auto.
    - destruct Hp as [_ Hall]. destruct (spawn_step_cases env o x lp m Hc) as (Hor & Hk & Hother & Hcase); [by apply Hall; left|].
      destruct (spawn_step env o x lp m) as [m' lp']. cbn [fst snd] in *. split.
      + intros id o' Hid. destruct (decide (id = subagent_of o x)) as [->|Hne].
        * right. exists x. split; [done|]. destruct Hcase as [(_ & H & _)|(_ & H & _)]; congruence.
        * left. by destruct (Hother id Hne) as [<- _].
      + intros o' lp'' Ho' Hne. by apply (view_other o o' x).
    - pose proof (check_step_view (env_now env) o x) as Hv.
      assert (m_sub_to_orch (check_step (env_now env) o x lp m).1 = m_sub_to_orch m) as Hm by (unfold check_step; by repeat case_match).
      specialize (λ o' lp', Hv o' lp lp' m). destruct (check_step (env_now env) o x lp m) as [m' lp']. cbn [fst] in *.
      split; [rewrite Hm; auto|auto]. }
  destruct (loop_step env o lp m) as [m' lp']. cbn [fst snd] in *.
  constructor; cbn [with_loops m_loops m_sub_to_orch]; rewrite ?Hlo.
  - intros o'. rewrite lookup_insert_is_Some'. intros [<-|H]; [done|by apply (ne_len _ Hnet)].
  - intros id o' Hid. setoid_rewrite lookup_insert_is_Some'. destruct (Hma id o' Hid) as [H|(x & -> & ->)]; [|by eauto].
    destruct (ne_map _ Hnet id o' H) as (x & -> & ?). eauto.
  - intros o' lp1 Hlp1 Hch. apply lookup_insert_Some in Hlp1 as [[<- <-]|[Hne Hlp1]].
    + assert (chained lp) as Hch' by (unfold chained in *; by rewrite Hsteps in Hch). by destruct (Hown Hch').
    + destruct (same_view_live o' m m' lp1) as [? ? ? ?]; [|by apply (ne_chain _ Hnet)|by constructor].
      apply Hview; [|done]. apply (ne_len _ Hnet). by rewrite Hlp1.
Qed.

Lemma manager_run_net (limit : nat) (ops : list Op) (d : OrchestrationDb) :
  Forall op_uuids ops → net (manager_run ops (manager_new (pool_new limit) d)).
Proof.
  induction ops as [|op ops IH] using rev_ind; intros Hops.
  { unfold manager_run. cbn. constructor; cbn; intros *; by rewrite lookup_empty. }
  apply Forall_app in Hops as [Hops Hop]. apply (proj1 (Forall_singleton _ _)) in Hop. specialize (IH Hops).
  pose proof (manager_run_ok limit ops d) as Hag. pose proof (manager_run_rows ops (pool_new limit) d) as Hrows.
  pose proof (manager_run_loop_inv ops (pool_new limit) d) as Hinv.
  unfold manager_run in *. rewrite foldl_app. cbn [foldl]. set (m := foldl _ _ ops) in *. clearbody m.
  pose proof (other_ops_calm op m Hop) as Hcalm.
  destruct op; try (by eapply calm_net).
  - by apply run_net.
  - destruct (m_loops m !! o) as [lp|] eqn:Hlp; [by eapply loop_net|]. cbn [manager_step]. by rewrite Hlp.
  - by eapply finish_net.
Qed.

(** * Progress *)

(** How far a chain's task is from its end: the transitions its steps still
    have before them, and its position between two of them. *)
Definition pc_rank (pc : LoopPc) : nat :=
  match pc with
  | LSpawn [] => 6
  | LWaitRunning => 5
  | LCheck (_ :: _) => 4
  | LCheck [] => 3
  | LTop => 2
  | LSpawn (_ :: _) | LWaitFirst => 1
  | LDone => 0
  end.

Definition loop_measure (lp : Loop) : nat := 8 * total_work (lp_scheduler lp) + pc_rank (lp_pc lp).

Lemma moved_work (x : string) (st : StepState) (lp lp' : Loop) :
  loop_reachable lp → moved x st lp lp' → total_work (lp_scheduler lp') < total_work (lp_scheduler lp).
Proof.
  intros Hr (_ & _ & Hs & _). destruct (loop_sched_inv lp Hr) as (Hi & _ & _). by eapply sched_step_work.
Qed.

Lemma chain_decreases (limit : nat) (env : SpawnEnv) (o : string) (lp : Loop) (m : Manager) :
  agents_ok limit m → loop_inv o lp → chained lp → chain_live m o lp →
  (loop_step env o lp m).2 = lp ∧ (lp_pc lp = LDone ∨ lp_pc lp = LWaitRunning ∧ lp_woken lp = false) ∨
  loop_measure (loop_step env o lp m).2 < loop_measure lp.
Proof.
  intros Hag Hinv Hch [Hr Hm Ha Hcp]. apply core_loop_inv in Hinv as [Hc Hp]. pose proof Hc as (Hre & _ & _).
  unfold loop_measure. unfold chain_pc in Hcp. unfold pc_ok in Hp.
  destruct (lp_pc lp) as [| |[|x rest]| |[|x rest]|] eqn:Hpc.
  - right. destruct (chain_top env o lp m Hre Hpc Hcp) as [[-> Hne]| ->].
    + cbn. destruct (next_ready (lp_scheduler lp)); [done|]. cbn. lia.
    + unfold finish. destruct (final_outcome lp). cbn. lia.
  - done.
  - right. unfold loop_step. rewrite Hpc. cbn [snd]. case_decide; [cbn; lia|].
    unfold await_notified. destruct (lp_stored lp); cbn; [|lia].
    destruct (running_ids (lp_scheduler lp)); [done|]. cbn. lia.
  - right. unfold loop_step. rewrite Hpc. destruct Hp as [_ Hall].
    destruct (spawn_step_cases env o x lp m Hc) as (_ & _ & _ & Hcase); [by apply Hall; left|].
    destruct (spawn_step env o x lp m) as [m' lp']. cbn [snd fst] in *.
    assert (total_work (lp_scheduler lp') < total_work (lp_scheduler lp)) by (destruct Hcase as [[H _]|[H _]]; by eapply moved_work).
    cbn [lp_scheduler with_pc lp_pc]. destruct rest; cbn [pc_rank]; lia.
  - unfold loop_step. rewrite Hpc. cbn [snd]. unfold resume. destruct (lp_woken lp) eqn:Hw; [|left; auto].
    right. cbn [lp_scheduler with_pc lp_pc with_notify]. destruct Hcp as (_ & (x & Hx) & _).
    rewrite (chain_running_ids lp x Hre Hch Hx). cbn [pc_rank]. lia.
  - right. unfold loop_step. rewrite Hpc. cbn. lia.
  - right. unfold loop_step. rewrite Hpc. destruct Hcp as (-> & Hx & Hover & _).
    destruct (chain_check_moves limit (env_now env) o x lp m Hag Hc Hx (Hr x Hx) Hover) as (st & _ & Hmv).
    destruct (check_step (env_now env) o x lp m) as [m' lp']. cbn [snd] in *.
    pose proof (moved_work _ _ _ _ Hre Hmv). cbn [lp_scheduler with_pc lp_pc pc_rank]. lia.
  - left. unfold loop_step. rewrite Hpc. auto.
Qed.

(** C31: Orchestrations whose steps form a chain run to their end.  In every
    execution, a step of the task brings it nearer to its end, by a measure
    that is at most 16 times the number of steps plus 6; the task is stopped
    only when it has ended, or while the subagent of its one running step is
    still monitored, whose last act is to wake it.  It never reaches the wait
    that it would not get past. *)
Theorem chain_makes_progress (limit : nat) (ops : list Op) (d : OrchestrationDb) (o : string) (lp : Loop) (env : SpawnEnv) :
  Forall op_uuids ops →
  let m := manager_run ops (manager_new (pool_new limit) d) in
  let lp' := (loop_step env o lp m).2 in
  m_loops m !! o = Some lp → chained lp →
  lp_pc lp ≠ LWaitFirst ∧
  loop_measure lp ≤ 16 * length (lp_steps lp) + 6 ∧
  (loop_measure lp' < loop_measure lp ∨
   lp' = lp ∧ (lp_pc lp = LDone ∨
     ∃ x mo, lp_pc lp = LWaitRunning ∧ running_ids (lp_scheduler lp) = [x] ∧
             m_monitors m !! subagent_of o x = Some mo ∧ m_sub_to_orch m !! subagent_of o x = Some o)).
Proof.
  intros Hops m lp' Hlp Hch. pose proof (ne_chain _ (manager_run_net limit ops d Hops) o lp Hlp Hch) as Hl.
  pose proof (manager_run_loop_inv ops _ d o lp Hlp) as Hinv. pose proof Hinv as [Hre _ _ _].
  split_and!.
  - intros Hpc. pose proof (cl_pc _ _ _ Hl) as Hp. unfold chain_pc in Hp. by rewrite Hpc in Hp.
  - destruct (loop_sched_inv lp Hre) as (_ & _ & Hs). pose proof (total_work_bound (lp_scheduler lp)) as Hb.
    unfold total_steps in Hb. rewrite Hs, length_fmap in Hb. unfold loop_measure.
    assert (pc_rank (lp_pc lp) ≤ 6) by (destruct (lp_pc lp) as [| |[]| |[]|]; cbn; lia). lia.
  - destruct (chain_decreases _ env o lp m (manager_run_ok limit ops d) Hinv Hch Hl) as [[Heq Hpc]|Hlt]; [right|by left].
    split; [done|]. destruct Hpc as [Hpc|[Hpc Hw]]; [by left|right].
    pose proof (cl_pc _ _ _ Hl) as Hp. unfold chain_pc in Hp. rewrite Hpc in Hp. destruct Hp as (_ & (x & Hx) & Hiff).
    destruct (cl_run _ _ _ Hl x Hx) as [[[mo Hmo] Hma]|[Hnone _]].
    + exists x, mo. split_and!; [done|by apply chain_running_ids|done..].
    + apply Hiff in Hnone; [|done]. congruence.
Qed.

End Chains.

(** * Witness *)

Section Situations.
#[local] Existing Instance plain_text.
#[local] Existing Instance no_json.

Definition demo_uuid : string := "6f9619ff-8b86-4011-b42d-00c04fc964ff".

Definition demo_chain : list Op :=
  ORun 0 demo_uuid "s" Sequential [demo_step "a" []; demo_step "b" ["a"]] :: demo_loop demo_uuid 3.

Definition chain_demo : Manager := manager_run demo_chain demo_manager.

Lemma chain_makes_progress_witness :
  lp_pc (task_of demo_uuid chain_demo) = LWaitRunning ∧
  ∃ mo, m_monitors chain_demo !! subagent_of demo_uuid "a" = Some mo.
Proof.
  split; [vm_compute; reflexivity|].
  destruct (chain_makes_progress 3 demo_chain (mkOrchestrationDb {["s"]} ∅ ∅ ∅) demo_uuid (task_of demo_uuid chain_demo) demo_env)
    as (_ & _ & [Hlt|(_ & [Hpc|(x & mo & _ & Hrun & Hmo & _)])]).
  - repeat constructor.
  - vm_compute. reflexivity.
  - assert (depends (dep_map [demo_step "a" []; demo_step "b" ["a"]]) "a" "b") as Hab
      by (exists ["a"]; split; [reflexivity|by left]).
    intros x y Hx Hy. change (lp_steps _) with [demo_step "a" []; demo_step "b" ["a"]] in *. cbn in Hx, Hy.
    apply elem_of_cons in Hx as [->|[->|[]%elem_of_nil]%elem_of_cons];
      apply elem_of_cons in Hy as [->|[->|[]%elem_of_nil]%elem_of_cons]; auto using tc_once.
  - exfalso. revert Hlt. vm_compute. lia.
  - exfalso. revert Hpc. vm_compute. discriminate.
  - exists mo. assert (x = "a") as -> by (revert Hrun; vm_compute; congruence). exact Hmo.
Defined.

End Situations.
