(* ===== verification/SubagentService.v ===== *)
(** The subagent service: requests of clients to start subagents and
    orchestrations.

    Models crates/betcode-daemon/src/server/subagent_svc.rs on
    [SubagentManager].  A fresh UUID is an argument.  Streams to watchers are
    the channels of the manager. *)
From stdpp Require Import gmap strings list fin_maps relations pretty.
From Stdlib Require Import ZArith Lia.
From S2P Require Import Prelude Protocol Json Scheduler SchedulerKahn SchedulerRun SchedulerCorrect.
From S2P Require Import OrchestrationStore SubagentManager SubagentCorrect OrchestrationLoop OrchestrationCorrect OrchestrationLiveness.

(** * Statuses *)

Definition manager_err_to_status {ST : SqlText} (e : ManagerError) : Status :=
  mkStatus
    match e with
    | PoolFull => ResourceExhausted
    | SpawnFailed _ => Internal
    | SubagentNotFound _ | OrchestrationNotFound _ => CodeNotFound
    | AlreadyCompleted _ => FailedPrecondition
    | DatabaseFailed (NotFound _) => CodeNotFound
    | DatabaseFailed _ => Internal
    | Validation _ => InvalidArgument
    end (manager_error_text e).

Inductive SubagentStatus := StatusUnspecified | StatusPending | StatusRunning | StatusCompleted | StatusFailed | StatusCancelled.

Definition status_str_to_proto (s : string) : SubagentStatus :=
  if decide (s = "pending") then StatusPending
  else if decide (s = "running") then StatusRunning
  else if decide (s = "completed") then StatusCompleted
  else if decide (s = "failed") then StatusFailed
  else if decide (s = "cancelled") then StatusCancelled
  else StatusUnspecified.

(** Unknown values become [Parallel]. *)
Definition strategy_from_i32 (v : Z) : OrchestrationStrategy :=
  if decide (v = 0)%Z then Unspecified
  else if decide (v = 1)%Z then Parallel
  else if decide (v = 2)%Z then Sequential
  else if decide (v = 3)%Z then Dag
  else Parallel.

(** * Requests *)

Record SpawnSubagentRequest := mkSpawnRequest {
  rq_parent_session_id : string;
  rq_prompt : string;
  rq_model : string;
  rq_working_directory : string;
  rq_allowed_tools : list string;
  rq_max_turns : Z;
  rq_auto_approve : bool
}.

Record CreateOrchestrationRequest := mkOrchestrationRequest {
  co_parent_session_id : string;
  co_strategy : Z;
  co_steps : list OrchestrationStep
}.

Definition with_step_id (id : string) (s : OrchestrationStep) : OrchestrationStep :=
  mkStep id (step_name s) (step_prompt s) (step_model s) (step_working_directory s) (step_depends_on s)
    (step_allowed_tools s) (step_max_turns s) (step_auto_approve s).

Definition with_depends_on (deps : list string) (s : OrchestrationStep) : OrchestrationStep :=
  mkStep (step_id s) (step_name s) (step_prompt s) (step_model s) (step_working_directory s) deps
    (step_allowed_tools s) (step_max_turns s) (step_auto_approve s).

(** Steps without an identifier are numbered. *)
Definition assign_ids (steps : list OrchestrationStep) : list OrchestrationStep :=
  imap (λ i s, if decide (step_id s = EmptyString) then with_step_id ("step-" +:+ pretty i) s else s) steps.

(** Every step after the first depends on the one before it. *)
Fixpoint chain_after (prev_id : string) (steps : list OrchestrationStep) : list OrchestrationStep :=
  match steps with
  | [] => []
  | s :: rest =>
      (if decide (prev_id ∈ step_depends_on s) then s else with_depends_on (step_depends_on s ++ [prev_id]) s) ::
      chain_after (step_id s) rest
  end.

Definition chain_sequential (steps : list OrchestrationStep) : list OrchestrationStep :=
  match steps with
  | [] => []
  | s :: rest => s :: chain_after (step_id s) rest
  end.

Definition prepare_steps (strategy : OrchestrationStrategy) (steps : list OrchestrationStep) : list OrchestrationStep :=
  let steps := assign_ids steps in
  if decide (strategy = Sequential) then chain_sequential steps else steps.

Section Service.
Context {ST : SqlText} {JT : JsonText} {HI : HashIter} {SO : SqlOrder}.

Definition to_status {A : Type} (r : result ManagerError A) : result Status A :=
  match r with Ok a => Ok a | Err e => Err (manager_err_to_status e) end.

Definition invalid (message : string) : Status := mkStatus InvalidArgument message.

Definition spawn_subagent (env : SpawnEnv) (uuid : string) (req : SpawnSubagentRequest) (m : Manager)
  : Manager * result Status string :=
  if decide (rq_parent_session_id req = EmptyString) then (m, Err (invalid "parent_session_id must not be empty"))
  else if decide (rq_prompt req = EmptyString) then (m, Err (invalid "prompt must not be empty"))
  else if rq_auto_approve req && bool_decide (rq_allowed_tools req = [])
  then (m, Err (invalid "auto_approve requires non-empty allowed_tools"))
  else
    let dir := if decide (rq_working_directory req = EmptyString) then env_current_dir env else rq_working_directory req in
    let model := if decide (rq_model req = EmptyString) then None else Some (rq_model req) in
    let '(m', r) := spawn env (mkConfig uuid (rq_parent_session_id req) (rq_prompt req) model dir (rq_allowed_tools req)
                                 (rq_max_turns req) (rq_auto_approve req) 0) m in
    (m', to_status r).

Definition watch_subagent (id : string) (m : Manager) : Manager * result Status nat :=
  if decide (id = EmptyString) then (m, Err (invalid "subagent_id must not be empty"))
  else let '(m', r) := subscribe id m in (m', to_status r).

Definition send_to_subagent (id content : string) (alive : bool) (m : Manager) : Manager * result Status bool :=
  if decide (id = EmptyString) then (m, Err (invalid "subagent_id must not be empty"))
  else let '(m', r) := send_input id content alive m in (m', to_status r).

(** The answer names the final status before the subagent has one. *)
Definition cancel_subagent (id : string) (m : Manager) : Manager * result Status (bool * string) :=
  if decide (id = EmptyString) then (m, Err (invalid "subagent_id must not be empty"))
  else let '(m', r) := cancel_begin id m in
       (m', match r with
            | Ok cancelled => Ok (cancelled, if cancelled then "cancelled" else "not_found")
            | Err e => Err (manager_err_to_status e)
            end).

Definition list_subagents (parent_session_id status_filter : string) (m : Manager) : result Status (list SubagentRow) :=
  if decide (parent_session_id = EmptyString) then Err (invalid "parent_session_id must not be empty")
  else Ok (list_subagents_for_session parent_session_id
             (if decide (status_filter = EmptyString) then None else Some status_filter) (m_db m)).

Definition create_orchestration_rpc (now : Z) (uuid : string) (req : CreateOrchestrationRequest) (m : Manager)
  : Manager * result Status (string * Z) :=
  if decide (co_parent_session_id req = EmptyString) then (m, Err (invalid "parent_session_id must not be empty"))
  else if decide (co_steps req = []) then (m, Err (invalid "steps must not be empty"))
  else
    let strategy := strategy_from_i32 (co_strategy req) in
    let steps := prepare_steps strategy (co_steps req) in
    let '(m', r) := run_orchestration now uuid (co_parent_session_id req) strategy steps m in
    (m', match r with
         | Ok _ => Ok (uuid, Z.of_nat (length steps))
         | Err e => Err (manager_err_to_status e)
         end).

Definition watch_orchestration (o : string) (m : Manager) : result Status nat :=
  if decide (o = EmptyString) then Err (invalid "orchestration_id must not be empty")
  else to_status (subscribe_orchestration o m).

Definition revoke_auto_approve_rpc (id : string) (m : Manager) : Manager * result Status (bool * string) :=
  if decide (id = EmptyString) then (m, Err (invalid "subagent_id must not be empty"))
  else let '(m', r) := revoke_auto_approve id m in
       (m', match r with
            | Ok revoked =>
                Ok (revoked, match get_subagent id (m_db m') with Ok sa => sa_status sa | Err _ => "unknown" end)
            | Err e => Err (manager_err_to_status e)
            end).

(** * Sequential orchestrations are chains *)

Lemma chain_after_ids (prev : string) (steps : list OrchestrationStep) : step_id <$> chain_after prev steps = step_id <$> steps.
Proof.
  revert prev. induction steps as [|s steps IH]; intros prev; [done|]. cbn [chain_after fmap list_fmap].
  rewrite IH. by case_decide.
Qed.

(** Neighbours in the list depend on each other. *)
Lemma chain_after_adjacent (prev : OrchestrationStep) (steps : list OrchestrationStep) (i : nat) (a b : OrchestrationStep) :
  (prev :: chain_after (step_id prev) steps) !! i = Some a →
  (prev :: chain_after (step_id prev) steps) !! S i = Some b → step_id a ∈ step_depends_on b.
Proof.
  revert prev i. induction steps as [|s steps IH]; intros prev i Ha Hb; [destruct i; done|].
  cbn [chain_after] in *. set (s' := if decide (step_id prev ∈ step_depends_on s) then s else _) in *.
  assert (step_id s' = step_id s ∧ step_id prev ∈ step_depends_on s') as [Hid Hdep].
  { subst s'. case_decide; [done|]. cbn. set_solver. }
  destruct i as [|i].
  - cbn in Ha, Hb. by injection Ha as <-; injection Hb as <-.
  - rewrite <- Hid in Hb, Ha. cbn in Ha. eapply (IH s' i); done.
Qed.

Lemma dep_map_nodup (steps : list OrchestrationStep) (s : OrchestrationStep) :
  NoDup (step_id <$> steps) → s ∈ steps → dep_map steps !! step_id s = Some (step_depends_on s).
Proof.
  intros Hnd Hs. unfold dep_map. rewrite lookup_fold_steps.
  destruct (last (filter (λ s', step_id s' = step_id s) steps)) as [s'|] eqn:Hl.
  - apply last_Some_elem_of, list_elem_of_filter in Hl as [Hid Hin]. f_equal.
    apply list_elem_of_lookup in Hs as [i Hi]. apply list_elem_of_lookup in Hin as [j Hj].
    enough (i = j) by congruence. apply (NoDup_lookup (step_id <$> steps) i j (step_id s)); [done|..];
      rewrite list_lookup_fmap; [by rewrite Hi|rewrite Hj; cbn; congruence].
  - exfalso. assert (step_id s ∈ step_id <$> steps) as Hin by (apply list_elem_of_fmap; eauto).
    apply last_filter_step in Hin. rewrite Hl in Hin. by destruct Hin.
Qed.

Lemma sequential_steps_ordered (steps : list OrchestrationStep) (i j : nat) (a b : OrchestrationStep) :
  NoDup (step_id <$> chain_sequential steps) → i < j →
  chain_sequential steps !! i = Some a → chain_sequential steps !! j = Some b →
  tc (depends (dep_map (chain_sequential steps))) (step_id a) (step_id b).
Proof.
  intros Hnd Hij Ha. revert b. induction Hij as [|j Hij IH]; intros b Hb.
  - apply tc_once. exists (step_depends_on b). split; [apply dep_map_nodup; [done|]; by eapply list_elem_of_lookup_2|].
    destruct steps as [|s steps]; [done|]. by eapply chain_after_adjacent.
  - destruct (lookup_lt_is_Some_2 (chain_sequential steps) j) as [c Hc]; [apply lookup_lt_Some in Hb; lia|].
    eapply tc_r; [by apply (IH c)|]. exists (step_depends_on b).
    split; [apply dep_map_nodup; [done|]; by eapply list_elem_of_lookup_2|].
    destruct steps as [|s steps]; [done|]. by eapply chain_after_adjacent.
Qed.

(** A request for a sequential orchestration that is accepted gives a task
    whose steps form a chain in the order of the request, each one named: it
    runs to its end. *)
Theorem sequential_request_chains (now : Z) (uuid : string) (req : CreateOrchestrationRequest) (m m' : Manager)
    (resp : string * Z) :
  strategy_from_i32 (co_strategy req) = Sequential → create_orchestration_rpc now uuid req m = (m', Ok resp) →
  resp = (uuid, Z.of_nat (length (co_steps req))) ∧
  ∃ lp, m_loops m' !! uuid = Some lp ∧ chained lp ∧ lp_pc lp = LTop ∧
    step_id <$> lp_steps lp =
      imap (λ i s, if decide (step_id s = EmptyString) then "step-" +:+ pretty i else step_id s) (co_steps req).
Proof.
  unfold create_orchestration_rpc. intros Hseq. case_decide; [done|]. case_decide as Hne; [done|]. rewrite Hseq.
  destruct (run_orchestration _ _ _ _ _ _) as [m1 [[]|e]] eqn:Hrun; [|done]. intros [= -> <-].
  assert (step_id <$> prepare_steps Sequential (co_steps req) =
    imap (λ i s, if decide (step_id s = EmptyString) then "step-" +:+ pretty i else step_id s) (co_steps req)) as Hids.
  { unfold prepare_steps. rewrite decide_True by done. transitivity (step_id <$> assign_ids (co_steps req)).
    - unfold chain_sequential. destruct (assign_ids (co_steps req)) as [|s l]; [done|]. cbn. by rewrite chain_after_ids.
    - unfold assign_ids. rewrite fmap_imap. apply imap_ext. intros i s _. cbn. by case_decide. }
  split.
  { f_equal. f_equal. apply (f_equal length) in Hids. by rewrite length_fmap, length_imap in Hids. }
  unfold run_orchestration in Hrun. destruct (new _ _) as [s|] eqn:Hnew; [|done].
  destruct (create_orchestration _ _ _ _ _) as [d1 [?|?]]; [|done].
  destruct (update_orchestration_status _ _ _ _) as [d2 [?|?]]; [|done].
  destruct (create_steps _ _ _ _ _) as [d3 [?|?]]; [|done]. injection Hrun as <-. cbn [m_loops with_active with_loops].
  eexists. split; [by rewrite lookup_insert_eq|]. cbn [lp_pc lp_steps]. split_and!; [|done|done].
  destruct (new_inv _ _ (λ x, proj1 (dep_map_keys _ x)) s Hnew) as (Hi & Hs & _).
  pose proof (si_nodup _ _ Hi) as Hnd. rewrite Hs in Hnd. unfold chained. cbn [lp_steps].
  unfold prepare_steps in *. rewrite decide_True in * by done.
  intros x y Hx Hy. apply list_elem_of_fmap in Hx as (sa & -> & [i Ha]%list_elem_of_lookup_1).
  apply list_elem_of_fmap in Hy as (sb & -> & [j Hb]%list_elem_of_lookup_1).
  destruct (lt_eq_lt_dec i j) as [[Hlt| ->]|Hlt].
  - right; left. by eapply sequential_steps_ordered.
  - left. congruence.
  - right; right. by eapply sequential_steps_ordered.
Qed.

End Service.

(** * Witness *)

Section Situations.
#[local] Existing Instance plain_text.
#[local] Existing Instance no_json.

Definition demo_request : CreateOrchestrationRequest :=
  mkOrchestrationRequest "s" 2 [demo_step "" []; demo_step "b" []; demo_step "" []].

Lemma sequential_request_chains_witness :
  let r := create_orchestration_rpc 0 demo_uuid demo_request demo_manager in
  r.2 = Ok (demo_uuid, 3%Z) ∧
  ∃ lp, m_loops r.1 !! demo_uuid = Some lp ∧ chained lp ∧ lp_pc lp = LTop ∧
    step_id <$> lp_steps lp = ["step-0"; "b"; "step-2"].
Proof.
  intros r. split; [vm_compute; reflexivity|].
  destruct (sequential_request_chains 0 demo_uuid demo_request demo_manager r.1 (demo_uuid, 3%Z)) as (_ & lp & H).
  - vm_compute. reflexivity.
  - vm_compute. reflexivity.
  - exists lp. exact H.
Defined.

End Situations.
