(* ===== verification/Multiplexer.v ===== *)
(** The session multiplexer: several clients on one session, one input lock,
    numbered event fan-out.

    Models crates/betcode-daemon/src/session/: types.rs, state.rs and
    multiplexer.rs.  Every method of the multiplexer holds the write lock on
    the session table from its first to its last line, so an execution is a
    sequence of whole calls; each call takes the time [now] at which it runs
    (an [Instant]).

    Of the broadcast channels of the runtime the model keeps what the
    multiplexer itself does with them: creating one gives a fresh identity,
    sending appends to the log of what was sent, subscribing gives a handle on
    the identity that sees what is sent from that point of the log on.  An
    event's payload is abstract; its [sequence] is the field that the
    multiplexer writes. *)
From stdpp Require Import gmap strings list fin_maps list_numbers.
From Stdlib Require Import ZArith Lia.
From S2P Require Import Prelude.

(** * Data *)

Record MultiplexerConfig := mkMuxConfig {
  max_clients : nat;
  broadcast_capacity : nat;
  heartbeat_timeout : Z   (* milliseconds *)
}.

Definition default_mux_config : MultiplexerConfig := mkMuxConfig 5 256 30000.

Record ClientState := mkClient {
  client_id : string;
  client_type : string;
  last_heartbeat : Z;
  client_lock : bool
}.

Record SessionState := mkSession {
  session_id : string;
  event_tx : nat;
  clients : gmap string ClientState;
  input_lock_holder : option string;
  sequence : Z
}.

Record AgentEvent (Payload : Type) := mkEvent {
  ev_sequence : Z;
  ev_payload : Payload
}.
Arguments mkEvent {Payload} _ _.
Arguments ev_sequence {Payload} _.
Arguments ev_payload {Payload} _.

Record ClientHandle := mkHandle {
  h_client_id : string;
  h_session_id : string;
  h_event_rx : nat * nat;   (* channel, position in the log *)
  h_has_input_lock : bool
}.

Record InputLockResult := mkLockResult {
  granted : bool;
  previous_holder : option string
}.

Record MultiplexerStats := mkStats {
  session_count : nat;
  total_clients : nat
}.

Inductive MultiplexerError :=
| SessionNotFound (sid : string)
| TooManyClients (sid : string) (max : nat)
| ClientAlreadyConnected (cid : string)
| ClientNotConnected (cid : string).

(** * Session state (state.rs) *)

Definition session_new (sid : string) (chan : nat) : SessionState := mkSession sid chan ∅ None 0.

Definition next_sequence (s : SessionState) : SessionState * Z :=
  let n := wrap_u64 (sequence s + 1) in
  (mkSession (session_id s) (event_tx s) (clients s) (input_lock_holder s) n, n).

Definition with_clients (cs : gmap string ClientState) (s : SessionState) : SessionState :=
  mkSession (session_id s) (event_tx s) cs (input_lock_holder s) (sequence s).

Definition with_holder (h : option string) (s : SessionState) : SessionState :=
  mkSession (session_id s) (event_tx s) (clients s) h (sequence s).

Definition add_client (now : Z) (cid ty : string) (s : SessionState) : SessionState :=
  with_clients (<[cid := mkClient cid ty now false]> (clients s)) s.

Definition remove_client (cid : string) (s : SessionState) : SessionState * bool :=
  match clients s !! cid with
  | Some _ =>
      let s' := with_clients (delete cid (clients s)) s in
      (if decide (input_lock_holder s' = Some cid) then with_holder None s' else s', true)
  | None => (s, false)
  end.

Definition is_empty (s : SessionState) : bool := bool_decide (clients s = ∅).

Definition client_count (s : SessionState) : nat := size (clients s).

(** [clients.get_mut(cid)] and a write to the fields of the entry. *)
Definition update_client (cid : string) (f : ClientState → ClientState) (s : SessionState) : SessionState :=
  with_clients (alter f cid (clients s)) s.

Definition set_client_lock (b : bool) (c : ClientState) : ClientState :=
  mkClient (client_id c) (client_type c) (last_heartbeat c) b.

Definition set_heartbeat (now : Z) (c : ClientState) : ClientState :=
  mkClient (client_id c) (client_type c) now (client_lock c).

(** * The multiplexer (multiplexer.rs) *)

Section Mux.
Context {Payload : Type}.

Record SessionMultiplexer := mkMux {
  sessions : gmap string SessionState;
  config : MultiplexerConfig;
  next_chan : nat;
  sent : list (nat * AgentEvent Payload)
}.

Definition mux_new (cfg : MultiplexerConfig) : SessionMultiplexer := mkMux ∅ cfg 0 [].

Definition with_sessions (ss : gmap string SessionState) (m : SessionMultiplexer) : SessionMultiplexer :=
  mkMux ss (config m) (next_chan m) (sent m).

(** [sessions.entry(sid).or_insert_with(SessionState::new)] *)
Definition entry_session (sid : string) (m : SessionMultiplexer) : SessionMultiplexer * SessionState :=
  match sessions m !! sid with
  | Some s => (m, s)
  | None =>
      let s := session_new sid (next_chan m) in
      (mkMux (<[sid := s]> (sessions m)) (config m) (S (next_chan m)) (sent m), s)
  end.

Definition get_or_create_session (sid : string) (m : SessionMultiplexer) : SessionMultiplexer * nat :=
  let '(m', s) := entry_session sid m in (m', event_tx s).

Definition subscribe (now : Z) (sid cid ty : string) (m : SessionMultiplexer)
  : SessionMultiplexer * result MultiplexerError ClientHandle :=
  let '(m', s) := entry_session sid m in
  if decide (max_clients (config m') ≤ client_count s) then
    (m', Err (TooManyClients sid (max_clients (config m'))))
  else match clients s !! cid with
  | Some _ => (m', Err (ClientAlreadyConnected cid))
  | None =>
      (with_sessions (<[sid := add_client now cid ty s]> (sessions m')) m',
       Ok (mkHandle cid sid (event_tx s, length (sent m')) false))
  end.

Definition unsubscribe (sid cid : string) (m : SessionMultiplexer) : SessionMultiplexer :=
  match sessions m !! sid with
  | Some s =>
      let '(s', removed) := remove_client cid s in
      if removed then
        if is_empty s' then with_sessions (delete sid (sessions m)) m
        else with_sessions (<[sid := s']> (sessions m)) m
      else m
  | None => m
  end.

Definition request_input_lock (sid cid : string) (m : SessionMultiplexer)
  : SessionMultiplexer * result MultiplexerError InputLockResult :=
  match sessions m !! sid with
  | None => (m, Err (SessionNotFound sid))
  | Some s =>
      match clients s !! cid with
      | None => (m, Err (ClientNotConnected cid))
      | Some _ =>
          match input_lock_holder s with
          | Some holder =>
              if decide (holder = cid) then (m, Ok (mkLockResult true None))
              else (m, Ok (mkLockResult false (Some holder)))
          | None =>
              let s' := update_client cid (set_client_lock true) (with_holder (Some cid) s) in
              (with_sessions (<[sid := s']> (sessions m)) m, Ok (mkLockResult true None))
          end
      end
  end.

Definition release_input_lock (sid cid : string) (m : SessionMultiplexer) : SessionMultiplexer :=
  match sessions m !! sid with
  | Some s =>
      if decide (input_lock_holder s = Some cid) then
        let s' := update_client cid (set_client_lock false) (with_holder None s) in
        with_sessions (<[sid := s']> (sessions m)) m
      else m
  | None => m
  end.

Definition broadcast (sid : string) (event : AgentEvent Payload) (m : SessionMultiplexer) : SessionMultiplexer :=
  match sessions m !! sid with
  | Some s =>
      let '(s', n) := next_sequence s in
      mkMux (<[sid := s']> (sessions m)) (config m) (next_chan m)
        (sent m ++ [(event_tx s', mkEvent n (ev_payload event))])
  | None => m
  end.

Definition heartbeat (now : Z) (sid cid : string) (m : SessionMultiplexer) : SessionMultiplexer :=
  match sessions m !! sid with
  | Some s => with_sessions (<[sid := update_client cid (set_heartbeat now) s]> (sessions m)) m
  | None => m
  end.

(** [elapsed() > timeout]; the elapsed time of an instant that is not in the
    past is zero. *)
Definition stale (cfg : MultiplexerConfig) (now : Z) (c : ClientState) : bool :=
  (heartbeat_timeout cfg <? Z.max 0 (now - last_heartbeat c))%Z.

Section Iteration.
Context {HI : HashIter}.

Definition stale_ids (cfg : MultiplexerConfig) (now : Z) (s : SessionState) : list string :=
  (λ kv, client_id kv.2) <$> filter (λ kv, stale cfg now kv.2 = true) (hm_iter (clients s)).

Definition remove_all (ids : list string) (s : SessionState) : SessionState :=
  foldl (λ s cid, (remove_client cid s).1) s ids.

(** One iteration over the session table, with the clients it removed. *)
Definition cleanup_session (cfg : MultiplexerConfig) (now : Z)
    (acc : gmap string SessionState * list (string * string)) (entry : string * SessionState)
  : gmap string SessionState * list (string * string) :=
  let ids := stale_ids cfg now entry.2 in
  (<[entry.1 := remove_all ids entry.2]> acc.1, acc.2 ++ (pair entry.1 <$> ids)).

Definition cleanup_stale_clients (now : Z) (m : SessionMultiplexer)
  : SessionMultiplexer * list (string * string) :=
  let '(ss, removed) :=
    foldl (cleanup_session (config m) now) (sessions m, []) (hm_iter (sessions m)) in
  (with_sessions (filter (λ kv, is_empty kv.2 = false) ss) m, removed).

Definition stats (m : SessionMultiplexer) : MultiplexerStats :=
  mkStats (size (sessions m)) (sum_list_with (λ kv, client_count kv.2) (hm_iter (sessions m))).

End Iteration.

Definition has_input_lock (sid cid : string) (m : SessionMultiplexer) : bool :=
  match sessions m !! sid with
  | Some s => bool_decide (input_lock_holder s = Some cid)
  | None => false
  end.

(** The task behind [create_event_forwarder], on the events it receives. *)
Definition forward_event (sid : string) (event : AgentEvent Payload) (m : SessionMultiplexer)
  : SessionMultiplexer :=
  match sessions m !! sid with
  | Some s =>
      let '(s', n) := next_sequence s in
      mkMux (<[sid := s']> (sessions m)) (config m) (next_chan m)
        (sent m ++ [(event_tx s', mkEvent n (ev_payload event))])
  | None => m
  end.

(** * Executions *)

Inductive Op :=
| OpGetOrCreate (sid : string)
| OpSubscribe (sid cid ty : string)
| OpUnsubscribe (sid cid : string)
| OpRequest (sid cid : string)
| OpRelease (sid cid : string)
| OpBroadcast (sid : string) (event : AgentEvent Payload)
| OpForward (sid : string) (event : AgentEvent Payload)
| OpHeartbeat (sid cid : string)
| OpCleanup.

Definition step {HI : HashIter} (now : Z) (op : Op) (m : SessionMultiplexer) : SessionMultiplexer :=
  match op with
  | OpGetOrCreate sid => (get_or_create_session sid m).1
  | OpSubscribe sid cid ty => (subscribe now sid cid ty m).1
  | OpUnsubscribe sid cid => unsubscribe sid cid m
  | OpRequest sid cid => (request_input_lock sid cid m).1
  | OpRelease sid cid => release_input_lock sid cid m
  | OpBroadcast sid event => broadcast sid event m
  | OpForward sid event => forward_event sid event m
  | OpHeartbeat sid cid => heartbeat now sid cid m
  | OpCleanup => (cleanup_stale_clients now m).1
  end.

Definition run {HI : HashIter} (trace : list (Z * Op)) (m : SessionMultiplexer) : SessionMultiplexer :=
  foldl (λ m call, step call.1 call.2 m) m trace.

End Mux.
Arguments SessionMultiplexer : clear implicits.
Arguments Op : clear implicits.

Example two_clients :
  let m0 := mux_new (Payload := string) default_mux_config in
  let m1 := (subscribe 0 "s" "c1" "tui" m0).1 in
  let m2 := (subscribe 0 "s" "c2" "tui" m1).1 in
  let m3 := (request_input_lock "s" "c1" m2).1 in
  (request_input_lock "s" "c2" m3).2 = Ok (mkLockResult false (Some "c1")) ∧
  has_input_lock "s" "c2" (request_input_lock "s" "c2" (unsubscribe "s" "c1" m3)).1 = true ∧
  sent (broadcast "s" (mkEvent 99 "y") (broadcast "s" (mkEvent 99 "x") m3)) =
    [(0, mkEvent 1 "x"); (0, mkEvent 2 "y")] ∧
  (cleanup_stale_clients 30001 (heartbeat 10 "s" "c2" m3)).2 = [("s", "c1")].
Proof. vm_compute. repeat split. Qed.
