(* ===== verification/MultiplexerCorrect.v ===== *)
(** The multiplexer's invariant and what it gives: one lock holder, who is a
    connected client; a bounded number of clients; gap-free numbering of the
    events on every channel; exact removal of stale clients. *)
From stdpp Require Import gmap strings list fin_maps list_numbers.
From Stdlib Require Import ZArith Lia.
From S2P Require Import Prelude Multiplexer.

(** * Sessions *)

Record session_ok (cfg : MultiplexerConfig) (sid : string) (s : SessionState) : Prop := {
  so_id : session_id s = sid;
  so_client : ∀ cid c, clients s !! cid = Some c →
    client_id c = cid ∧ (client_lock c = true ↔ input_lock_holder s = Some cid);
  so_holder : ∀ h, input_lock_holder s = Some h → is_Some (clients s !! h);
  so_bound : client_count s ≤ max_clients cfg
}.

(** The part of a session that only sending changes. *)
Definition same_stream (s s' : SessionState) : Prop :=
  event_tx s' = event_tx s ∧ sequence s' = sequence s.

Lemma remove_client_lookup (cid k : string) (s : SessionState) :
  clients (remove_client cid s).1 !! k = if decide (k = cid) then None else clients s !! k.
Proof.
  unfold remove_client. destruct (clients s !! cid) as [c|] eqn:Hc; simpl.
  - assert (delete cid (clients s) !! k = if decide (k = cid) then None else clients s !! k) as Hk.
    { rewrite lookup_delete. repeat case_decide; naive_solver. }
    by destruct (decide (input_lock_holder s = Some cid)).
  - case_decide; [by subst|done].
Qed.

Lemma remove_client_holder (cid : string) (s : SessionState) :
  (∀ h, input_lock_holder s = Some h → is_Some (clients s !! h)) →
  input_lock_holder (remove_client cid s).1 =
  if decide (input_lock_holder s = Some cid) then None else input_lock_holder s.
Proof.
  intros Hh. unfold remove_client. destruct (clients s !! cid) as [c|] eqn:Hc; simpl.
  - by destruct (decide (input_lock_holder s = Some cid)).
  - case_decide as Heq; [|done]. apply Hh in Heq. rewrite Hc in Heq. by destruct Heq.
Qed.

Lemma remove_client_stream (cid : string) (s : SessionState) : same_stream s (remove_client cid s).1.
Proof. unfold remove_client, same_stream. split_matches; done. Qed.

Lemma remove_client_ok (cfg : MultiplexerConfig) (sid cid : string) (s : SessionState) :
  session_ok cfg sid s → session_ok cfg sid (remove_client cid s).1.
Proof.
  intros [Hid Hc Hh Hb]. split.
  - unfold remove_client. split_matches; done.
  - intros k c. rewrite remove_client_lookup, remove_client_holder by done. case_decide; [done|].
    intros Hk. destruct (Hc k c Hk) as [? Hl]. split; [done|]. rewrite Hl. case_decide; naive_solver.
  - intros h. rewrite remove_client_lookup, remove_client_holder by done.
    case_decide; [done|]. intros Hh'. rewrite decide_False by naive_solver. auto.
  - etransitivity; [|exact Hb]. unfold client_count, remove_client. split_matches; try done;
      apply map_subseteq_size; apply delete_subseteq.
Qed.

Lemma update_client_ok (cfg : MultiplexerConfig) (sid cid : string) (now : Z) (s : SessionState) :
  session_ok cfg sid s → session_ok cfg sid (update_client cid (set_heartbeat now) s).
Proof.
  intros [Hid Hc Hh Hb]. split; simpl; [done| | |].
  - intros k c (c' & Hk & ->)%lookup_alter_inv. destruct (Hc k c' Hk). by case_decide.
  - intros h Hh'. rewrite lookup_alter_is_Some. by apply Hh.
  - unfold client_count in *. simpl. by rewrite map_size_alter.
Qed.

Lemma set_lock_ok (cfg : MultiplexerConfig) (sid cid : string) (s : SessionState) :
  session_ok cfg sid s → is_Some (clients s !! cid) → input_lock_holder s = None →
  session_ok cfg sid (update_client cid (set_client_lock true) (with_holder (Some cid) s)).
Proof.
  intros [Hid Hc Hh Hb] [c0 Hc0] Hnone. split; simpl; [done| | |].
  - intros k c (c' & Hk & ->)%lookup_alter_inv. destruct (Hc k c' Hk) as [? Hl]. rewrite Hnone in Hl.
    case_decide; naive_solver.
  - intros h [= <-]. rewrite lookup_alter_is_Some. eauto.
  - unfold client_count in *. simpl. by rewrite map_size_alter.
Qed.

Lemma clear_lock_ok (cfg : MultiplexerConfig) (sid cid : string) (s : SessionState) :
  session_ok cfg sid s → input_lock_holder s = Some cid →
  session_ok cfg sid (update_client cid (set_client_lock false) (with_holder None s)).
Proof.
  intros [Hid Hc Hh Hb] Hsome. split; simpl; [done| |done|].
  - intros k c (c' & Hk & ->)%lookup_alter_inv. destruct (Hc k c' Hk) as [? Hl]. rewrite Hsome in Hl.
    case_decide; naive_solver.
  - unfold client_count in *. simpl. by rewrite map_size_alter.
Qed.

Lemma add_client_ok (cfg : MultiplexerConfig) (now : Z) (sid cid ty : string) (s : SessionState) :
  session_ok cfg sid s → clients s !! cid = None → client_count s < max_clients cfg →
  session_ok cfg sid (add_client now cid ty s).
Proof.
  intros [Hid Hc Hh Hb] Hnew Hlt. split; simpl; [done| | |].
  - intros k c. rewrite lookup_insert. case_decide; [|apply Hc]. subst k. intros [= <-]. split; [done|].
    split; [done|]. simpl. intros Hhold. apply Hh in Hhold. rewrite Hnew in Hhold. by destruct Hhold.
  - intros h Hh'. rewrite lookup_insert. case_decide; eauto.
  - unfold client_count in *. simpl. rewrite map_size_insert_None by done. lia.
Qed.

Lemma session_new_ok (cfg : MultiplexerConfig) (sid : string) (chan : nat) :
  session_ok cfg sid (session_new sid chan).
Proof.
  split; simpl; [done|by intros ? ? ?%lookup_empty_Some|done|].
  unfold client_count. simpl. rewrite map_size_empty. lia.
Qed.

Lemma next_sequence_ok (cfg : MultiplexerConfig) (sid : string) (s : SessionState) :
  session_ok cfg sid s → session_ok cfg sid (next_sequence s).1.
Proof. by intros [Hid Hc Hh Hb]. Qed.

#[export] Hint Resolve remove_client_ok update_client_ok next_sequence_ok session_new_ok : betcode.

(** * Removing the stale clients *)

Section Cleanup.
Context {HI : HashIter}.

Lemma remove_all_lookup (ids : list string) (s : SessionState) (k : string) :
  clients (remove_all ids s) !! k = if decide (k ∈ ids) then None else clients s !! k.
Proof.
  unfold remove_all. revert s. induction ids as [|cid ids IH]; intros s; [done|].
  cbn [foldl]. rewrite IH, remove_client_lookup.
  destruct (decide (k ∈ cid :: ids)) as [Hk|Hk]; rewrite elem_of_cons in Hk; repeat case_decide; naive_solver.
Qed.

Lemma remove_all_ok (cfg : MultiplexerConfig) (sid : string) (ids : list string) (s : SessionState) :
  session_ok cfg sid s → session_ok cfg sid (remove_all ids s).
Proof. unfold remove_all. revert s. induction ids; simpl; eauto with betcode. Qed.

Lemma remove_all_stream (ids : list string) (s : SessionState) : same_stream s (remove_all ids s).
Proof.
  unfold remove_all. revert s. induction ids as [|cid ids IH]; intros s; [done|]. cbn [foldl].
  destruct (IH (remove_client cid s).1) as [H1 H2], (remove_client_stream cid s) as [H3 H4].
  split; congruence.
Qed.

Lemma remove_all_holder (cfg : MultiplexerConfig) (sid : string) (ids : list string) (s : SessionState) (h : string) :
  session_ok cfg sid s →
  input_lock_holder (remove_all ids s) = Some h ↔ input_lock_holder s = Some h ∧ h ∉ ids.
Proof.
  unfold remove_all. revert s. induction ids as [|cid ids IH]; intros s Hok.
  { simpl. split; [|tauto]. intros H. split; [done|apply not_elem_of_nil]. }
  cbn [foldl]. rewrite IH by eauto with betcode.
  rewrite remove_client_holder by apply (so_holder _ _ _ Hok). rewrite not_elem_of_cons.
  case_decide; naive_solver.
Qed.

Lemma elem_of_stale_ids (cfg : MultiplexerConfig) (now : Z) (sid : string) (s : SessionState) (k : string) :
  session_ok cfg sid s →
  k ∈ stale_ids cfg now s ↔ ∃ c, clients s !! k = Some c ∧ stale cfg now c = true.
Proof.
  intros Hok. unfold stale_ids. rewrite list_elem_of_fmap. split.
  - intros ([k' c] & -> & [Hs Hin]%list_elem_of_filter). simpl in *. apply elem_of_hm_iter in Hin.
    destruct (so_client _ _ _ Hok k' c Hin) as [-> _]. eauto.
  - intros (c & Hc & Hs). exists (k, c). simpl. destruct (so_client _ _ _ Hok k c Hc) as [-> _].
    split; [done|]. apply list_elem_of_filter. split; [done|]. by apply elem_of_hm_iter.
Qed.

Lemma NoDup_stale_ids (cfg : MultiplexerConfig) (now : Z) (sid : string) (s : SessionState) :
  session_ok cfg sid s → NoDup (stale_ids cfg now s).
Proof.
  intros Hok. unfold stale_ids.
  assert ((λ kv, client_id kv.2) <$> filter (λ kv, stale cfg now kv.2 = true) (hm_iter (clients s)) =
          (filter (λ kv, stale cfg now kv.2 = true) (hm_iter (clients s))).*1) as ->.
  { apply list_fmap_ext. intros i [k c] Hi. apply list_elem_of_lookup_2 in Hi.
    apply list_elem_of_filter in Hi as [_ Hi]. apply elem_of_hm_iter in Hi. simpl.
    by destruct (so_client _ _ _ Hok k c Hi). }
  apply NoDup_fst_filter, NoDup_hm_iter_keys.
Qed.

Lemma cleanup_fold (cfg : MultiplexerConfig) (now : Z) (l : list (string * SessionState))
    (ss : gmap string SessionState) (removed : list (string * string)) :
  NoDup l.*1 →
  let r := foldl (cleanup_session cfg now) (ss, removed) l in
  (∀ k s, (k, s) ∈ l → r.1 !! k = Some (remove_all (stale_ids cfg now s) s)) ∧
  (∀ k, k ∉ l.*1 → r.1 !! k = ss !! k) ∧
  r.2 = removed ++ l ≫= λ kv, pair kv.1 <$> stale_ids cfg now kv.2.
Proof.
  revert ss removed. induction l as [|[k0 s0] l IH]; intros ss removed Hnd.
  { simpl. split_and!; [by intros ? ? ?%elem_of_nil|done|by rewrite app_nil_r]. }
  rewrite fmap_cons, NoDup_cons in Hnd. destruct Hnd as [Hk0 Hnd]. cbn [foldl].
  unfold cleanup_session at 2 4 6. cbn [fst snd].
  destruct (IH (<[k0 := remove_all (stale_ids cfg now s0) s0]> ss) (removed ++ (pair k0 <$> stale_ids cfg now s0)) Hnd)
    as (H1 & H2 & H3).
  split_and!.
  - intros k s [[= -> ->]|Hin]%elem_of_cons; [|by apply H1]. rewrite H2 by done. by rewrite lookup_insert_eq.
  - intros k Hk. rewrite fmap_cons, not_elem_of_cons in Hk. destruct Hk as [Hne Hk].
    rewrite H2 by done. by rewrite lookup_insert_ne.
  - rewrite H3. simpl. by rewrite <- app_assoc.
Qed.

End Cleanup.

(** * The invariant of the multiplexer *)

Section Invariant.
Context {Payload : Type}.

(** The sequence numbers of what was sent on a channel, in order. *)
Definition numbers (m : SessionMultiplexer Payload) (c : nat) : list Z :=
  (λ e, ev_sequence e.2) <$> filter (λ e, e.1 = c) (sent m).

(** The first [k] sequence numbers: 1, 2, 3, ... at 64 bits. *)
Definition consecutive (k : nat) : list Z := wrap_u64 <$> seqZ 1 (Z.of_nat k).

Record mux_inv (m : SessionMultiplexer Payload) : Prop := {
  mi_session : ∀ sid s, sessions m !! sid = Some s → session_ok (config m) sid s;
  mi_chan : ∀ sid s, sessions m !! sid = Some s → event_tx s < next_chan m;
  mi_own : ∀ sid1 sid2 s1 s2, sessions m !! sid1 = Some s1 → sessions m !! sid2 = Some s2 →
    event_tx s1 = event_tx s2 → sid1 = sid2;
  mi_count : ∀ sid s, sessions m !! sid = Some s →
    ∃ k, sequence s = wrap_u64 (Z.of_nat k) ∧ numbers m (event_tx s) = consecutive k;
  mi_numbers : ∀ c, ∃ k, numbers m c = consecutive k;
  mi_unused : ∀ c, next_chan m ≤ c → numbers m c = []
}.

Lemma consecutive_S (k : nat) : consecutive (S k) = consecutive k ++ [wrap_u64 (wrap_u64 (Z.of_nat k) + 1)].
Proof.
  unfold consecutive. replace (Z.of_nat (S k)) with (Z.of_nat k + 1)%Z by lia.
  rewrite seqZ_app, fmap_app by lia. f_equal. simpl. f_equal.
  unfold wrap_u64. rewrite Zplus_mod_idemp_l. f_equal. lia.
Qed.

(** Sessions may be dropped or changed apart from their stream. *)
Lemma mux_inv_shrink (m : SessionMultiplexer Payload) (ss : gmap string SessionState) :
  mux_inv m →
  (∀ sid s', ss !! sid = Some s' →
     session_ok (config m) sid s' ∧ ∃ s, sessions m !! sid = Some s ∧ same_stream s s') →
  mux_inv (with_sessions ss m).
Proof.
  intros [Hs Hc Ho Hk Hn Hu] Hss. split; simpl; [..|done|done].
  - intros sid s' Hs'. by apply Hss.
  - intros sid s' (_ & s & Hs' & -> & _)%Hss. by eapply Hc.
  - intros sid1 sid2 s1 s2 (_ & s1' & H1 & -> & _)%Hss (_ & s2' & H2 & -> & _)%Hss. by apply Ho.
  - intros sid s' (_ & s & Hs' & -> & ->)%Hss. by apply (Hk sid).
Qed.

Lemma mux_inv_update (m : SessionMultiplexer Payload) (sid : string) (s s' : SessionState) :
  mux_inv m → sessions m !! sid = Some s → session_ok (config m) sid s' → same_stream s s' →
  mux_inv (with_sessions (<[sid := s']> (sessions m)) m).
Proof.
  intros Hm Hs Hok Hst. apply mux_inv_shrink; [done|]. intros k s0. rewrite lookup_insert. case_decide.
  - subst k. intros [= <-]. eauto.
  - intros Hk. split; [by apply (mi_session _ Hm)|by exists s0].
Qed.

Lemma entry_session_inv (m : SessionMultiplexer Payload) (sid : string) :
  mux_inv m →
  let r := entry_session sid m in
  mux_inv r.1 ∧ config r.1 = config m ∧ sessions r.1 !! sid = Some r.2 ∧ sent r.1 = sent m.
Proof.
  intros Hm. unfold entry_session. destruct (sessions m !! sid) as [s|] eqn:Hs; [by simpl|]. simpl.
  split_and!; [|done|by rewrite lookup_insert_eq|done].
  destruct Hm as [Hok Hc Ho Hk Hn Hu]. split; simpl.
  - intros k s. rewrite lookup_insert. case_decide; [|apply Hok]. subst k. intros [= <-]. apply session_new_ok.
  - intros k s. rewrite lookup_insert. case_decide; [intros [= <-]; simpl; lia|]. intros Hlt%Hc. lia.
  - intros k1 k2 s1 s2. rewrite !lookup_insert. intros H1 H2 He.
    destruct (decide (sid = k1)) as [<-|], (decide (sid = k2)) as [<-|]; [done| | |by eapply Ho].
    + injection H1 as <-. apply Hc in H2. simpl in He. lia.
    + injection H2 as <-. apply Hc in H1. simpl in He. lia.
  - intros k s. rewrite lookup_insert. case_decide; [|apply Hk]. intros [= <-]. exists 0.
    split; [done|]. by apply Hu.
  - done.
  - intros c Hc'. apply Hu. lia.
Qed.

Lemma send_inv (m : SessionMultiplexer Payload) (sid : string) (s : SessionState) (e : Payload) :
  mux_inv m → sessions m !! sid = Some s →
  mux_inv (mkMux (<[sid := (next_sequence s).1]> (sessions m)) (config m) (next_chan m)
             (sent m ++ [(event_tx s, mkEvent (next_sequence s).2 e)])).
Proof.
  intros Hm Hs. pose proof Hm as [Hok Hc Ho Hk Hn Hu].
  set (m' := mkMux _ _ _ _).
  assert (∀ c, numbers m' c = numbers m c ++ if decide (c = event_tx s) then [(next_sequence s).2] else []) as Hnum.
  { intros c. unfold numbers. simpl. rewrite filter_app, fmap_app, filter_cons. simpl.
    repeat case_decide; naive_solver. }
  assert (∃ k, (next_sequence s).2 = wrap_u64 (Z.of_nat k) ∧ numbers m' (event_tx s) = consecutive k) as Hnext.
  { destruct (Hk sid s Hs) as (k & Hseq & Hnk). exists (S k).
    rewrite Hnum, decide_True, Hnk, consecutive_S by done. simpl. rewrite Hseq. split; [|done].
    unfold wrap_u64. rewrite Zplus_mod_idemp_l. f_equal. lia. }
  split; simpl.
  - intros k s'. rewrite lookup_insert. case_decide; [|apply Hok]. subst k. intros [= <-].
    apply next_sequence_ok. by apply Hok.
  - intros k s'. rewrite lookup_insert. case_decide; [|apply Hc]. subst k. intros [= <-]. exact (Hc sid s Hs).
  - intros k1 k2 s1 s2. rewrite !lookup_insert. repeat case_decide; intros; simplify_eq/=; eauto.
  - intros k s'. rewrite lookup_insert. case_decide as Hk'.
    + subst k. intros [= <-]. destruct Hnext as (n & ? & ?). by exists n.
    + intros Hs'. rewrite Hnum, decide_False, app_nil_r; [by apply (Hk k)|].
      intros He. apply Hk'. by apply (Ho sid k s s').
  - intros c. destruct (decide (c = event_tx s)) as [->|].
    + destruct Hnext as (n & _ & ?). by exists n.
    + rewrite Hnum, decide_False, app_nil_r by done. apply Hn.
  - intros c Hc'. rewrite Hnum, decide_False, app_nil_r; [by apply Hu|]. apply Hc in Hs. lia.
Qed.

Context {HI : HashIter}.

(** The session table after a cleanup. *)
Lemma cleanup_lookup (now : Z) (m : SessionMultiplexer Payload) (sid : string) (s' : SessionState) :
  sessions (cleanup_stale_clients now m).1 !! sid = Some s' ↔
  is_empty s' = false ∧
  ∃ s, sessions m !! sid = Some s ∧ s' = remove_all (stale_ids (config m) now s) s.
Proof.
  unfold cleanup_stale_clients.
  destruct (cleanup_fold (config m) now (hm_iter (sessions m)) (sessions m) [] (NoDup_hm_iter_keys _))
    as (H1 & H2 & _).
  destruct (foldl _ _ _) as [ss removed]. simpl in *. rewrite map_lookup_filter_Some. simpl.
  split.
  - intros [Hss He]. split; [done|]. destruct (sessions m !! sid) as [s|] eqn:Hs.
    + exists s. split; [done|]. specialize (H1 sid s). rewrite elem_of_hm_iter, Hss in H1. specialize (H1 Hs). congruence.
    + rewrite H2, Hs in Hss; [done|]. rewrite list_elem_of_fmap. intros ([k s] & -> & Hin).
      apply elem_of_hm_iter in Hin. simpl in Hs. congruence.
  - intros (He & s & Hs & ->). split; [|done]. apply H1. by apply elem_of_hm_iter.
Qed.

Lemma step_inv (now : Z) (op : Op Payload) (m : SessionMultiplexer Payload) :
  mux_inv m → mux_inv (step now op m) ∧ config (step now op m) = config m.
Proof.
  intros Hm. destruct op as [sid|sid cid ty|sid cid|sid cid|sid cid|sid e|sid e|sid cid|]; simpl.
  - pose proof (entry_session_inv m sid Hm) as He. unfold get_or_create_session.
    destruct (entry_session sid m) as [m' s]. by destruct He as (? & ? & _).
  - pose proof (entry_session_inv m sid Hm) as He. unfold subscribe.
    destruct (entry_session sid m) as [m' s]. simpl in He. destruct He as (Hm' & Hcfg & Hs & _).
    case_decide as Hmax; [by simpl|]. destruct (clients s !! cid) as [c|] eqn:Hc; [by simpl|]. simpl.
    split; [|done]. eapply mux_inv_update; [done|exact Hs| |done].
    apply add_client_ok; [by apply (mi_session _ Hm')|done|lia].
  - unfold unsubscribe. destruct (sessions m !! sid) as [s|] eqn:Hs; [|done].
    pose proof (remove_client_ok (config m) sid cid s (mi_session _ Hm sid s Hs)) as Hok.
    pose proof (remove_client_stream cid s) as Hst.
    destruct (remove_client cid s) as [s' []]; [|done]. destruct (is_empty s'); (split; [|done]).
    + apply mux_inv_shrink; [done|]. intros k s0 [_ Hk]%lookup_delete_Some.
      split; [by apply (mi_session _ Hm)|by exists s0].
    + by eapply mux_inv_update.
  - unfold request_input_lock. destruct (sessions m !! sid) as [s|] eqn:Hs; [|done].
    destruct (clients s !! cid) as [c|] eqn:Hc; [|done].
    destruct (input_lock_holder s) as [h|] eqn:Hh; [by case_decide|]. simpl. split; [|done].
    eapply mux_inv_update; [done|exact Hs| |done]. apply set_lock_ok; [by apply (mi_session _ Hm)|by eexists|done].
  - unfold release_input_lock. destruct (sessions m !! sid) as [s|] eqn:Hs; [|done].
    case_decide; [|done]. split; [|done].
    eapply mux_inv_update; [done|exact Hs| |done]. apply clear_lock_ok; [by apply (mi_session _ Hm)|done].
  - unfold broadcast. destruct (sessions m !! sid) as [s|] eqn:Hs; [|done]. split; [|done].
    exact (send_inv m sid s (ev_payload e) Hm Hs).
  - unfold forward_event. destruct (sessions m !! sid) as [s|] eqn:Hs; [|done]. split; [|done].
    exact (send_inv m sid s (ev_payload e) Hm Hs).
  - unfold heartbeat. destruct (sessions m !! sid) as [s|] eqn:Hs; [|done]. split; [|done].
    eapply mux_inv_update; [done|exact Hs| |done]. apply update_client_ok. by apply (mi_session _ Hm).
  - pose proof (cleanup_lookup now m) as Hl. unfold cleanup_stale_clients in *.
    destruct (foldl _ _ _) as [ss removed]. simpl in *. split; [|done].
    apply mux_inv_shrink; [done|]. intros k s' (_ & s & Hs & ->)%Hl. split.
    + apply remove_all_ok. by apply (mi_session _ Hm).
    + exists s. split; [done|]. apply remove_all_stream.
Qed.

Lemma mux_new_inv (cfg : MultiplexerConfig) : mux_inv (mux_new cfg).
Proof.
  split; simpl; try (intros *; rewrite lookup_empty; done).
  - intros c. by exists 0.
  - done.
Qed.

Lemma run_inv (trace : list (Z * Op Payload)) (m : SessionMultiplexer Payload) :
  mux_inv m → mux_inv (run trace m) ∧ config (run trace m) = config m.
Proof.
  revert m. induction trace as [|[now op] trace IH]; intros m Hm; [done|]. simpl.
  destruct (step_inv now op m Hm) as [Hm' <-]. by apply IH.
Qed.

End Invariant.

(** * Theorems *)

Section Theorems.
Context {Payload : Type} {HI : HashIter}.

(** C35: In every state of the multiplexer, whatever calls led to it: the holder
    of a session's input lock is one of its connected clients, the flag kept
    with each client agrees with it, at most one client holds it, and no
    session has more than the configured number of clients. *)
Theorem lock_and_capacity (cfg : MultiplexerConfig) (trace : list (Z * Op Payload)) (sid : string) (s : SessionState) :
  sessions (run trace (mux_new cfg)) !! sid = Some s →
  (∀ h, input_lock_holder s = Some h → is_Some (clients s !! h)) ∧
  (∀ cid c, clients s !! cid = Some c →
     client_id c = cid ∧ (client_lock c = true ↔ has_input_lock sid cid (run trace (mux_new cfg)) = true)) ∧
  (∀ c1 c2 s1 s2, clients s !! c1 = Some s1 → clients s !! c2 = Some s2 →
     client_lock s1 = true → client_lock s2 = true → c1 = c2) ∧
  client_count s ≤ max_clients cfg.
Proof.
  intros Hs. destruct (run_inv trace (mux_new cfg) (mux_new_inv cfg)) as [Hm Hcfg]. simpl in Hcfg.
  destruct (mi_session _ Hm sid s Hs) as [Hid Hc Hh Hb]. rewrite Hcfg in Hb. split_and!; [done| | |done].
  - intros cid c Hcid. unfold has_input_lock. rewrite Hs, bool_decide_eq_true. by apply Hc.
  - intros c1 c2 s1 s2 H1 H2 L1 L2. destruct (Hc c1 s1 H1) as [_ E1], (Hc c2 s2 H2) as [_ E2].
    apply E1 in L1. apply E2 in L2. congruence.
Qed.

Lemma step_sent (now : Z) (op : Op Payload) (m : SessionMultiplexer Payload) :
  ∃ more, sent (step now op m) = sent m ++ more.
Proof.
  assert (∃ more, sent m = sent m ++ more) as Hsame by (exists []; by rewrite app_nil_r).
  destruct op; simpl;
    unfold get_or_create_session, subscribe, entry_session, unsubscribe, request_input_lock,
      release_input_lock, broadcast, forward_event, heartbeat, cleanup_stale_clients, with_sessions;
    repeat (case_match; simpl); simplify_eq/=; eauto.
Qed.

Lemma run_sent (trace : list (Z * Op Payload)) (m : SessionMultiplexer Payload) :
  ∃ more, sent (run trace m) = sent m ++ more.
Proof.
  revert m. induction trace as [|[now op] trace IH]; intros m; [exists []; by rewrite app_nil_r|]. simpl.
  destruct (IH (step now op m)) as [more ->], (step_sent now op m) as [first ->].
  exists (first ++ more). by rewrite app_assoc.
Qed.

(** What a client that subscribed receives: the events sent on its channel
    from then on, whose sequence numbers continue those sent before without
    a gap, a repetition or a number of another session, for every later
    interleaving of calls. *)
Theorem subscriber_sees_no_gap (cfg : MultiplexerConfig) (before after : list (Z * Op Payload))
    (now : Z) (sid cid ty : string) (m : SessionMultiplexer Payload) (h : ClientHandle) :
  subscribe now sid cid ty (run before (mux_new cfg)) = (m, Ok h) →
  let received := (λ e, ev_sequence e.2) <$>
    filter (λ e, e.1 = (h_event_rx h).1) (drop (h_event_rx h).2 (sent (run after m))) in
  ∃ i k, numbers m (h_event_rx h).1 = consecutive i ∧
         received = wrap_u64 <$> seqZ (Z.of_nat i + 1) (Z.of_nat k).
Proof.
  intros Hsub received.
  destruct (run_inv before (mux_new cfg) (mux_new_inv cfg)) as [H0 _].
  assert (mux_inv m) as Hm.
  { destruct (step_inv now (OpSubscribe sid cid ty) _ H0) as [H1 _]. simpl in H1. by rewrite Hsub in H1. }
  assert ((h_event_rx h).2 = length (sent m)) as Hpos.
  { revert Hsub. unfold subscribe. destruct (entry_session sid _) as [m1 s].
    case_decide; [done|]. destruct (clients s !! cid); [done|]. intros [= <- <-]. done. }
  destruct (run_inv after m Hm) as [Hm' _]. destruct (run_sent after m) as [more Hmore].
  subst received. rewrite Hpos, Hmore, drop_app_length.
  destruct (mi_numbers _ Hm (h_event_rx h).1) as [i Hi].
  destruct (mi_numbers _ Hm' (h_event_rx h).1) as [n Hn].
  assert (numbers (run after m) (h_event_rx h).1 =
          numbers m (h_event_rx h).1 ++
          ((λ e, ev_sequence e.2) <$> filter (λ e, e.1 = (h_event_rx h).1) more)) as Happ.
  { unfold numbers. by rewrite Hmore, filter_app, fmap_app. }
  rewrite Hi, Hn in Happ. exists i, (n - i). split; [done|].
  assert (i ≤ n) as Hle.
  { apply (f_equal length) in Happ. unfold consecutive in Happ.
    rewrite length_app, !length_fmap, !length_seqZ in Happ. lia. }
  unfold consecutive in Happ.
  replace (Z.of_nat n) with (Z.of_nat i + Z.of_nat (n - i))%Z in Happ by lia.
  rewrite seqZ_app, fmap_app in Happ by lia. apply app_inv_head in Happ. rewrite <- Happ.
  do 2 f_equal. lia.
Qed.

(** Sending to a session adds one event, to the channel of that session; the
    channels of the other sessions carry what they carried. *)
Theorem broadcast_reaches_one_session (cfg : MultiplexerConfig) (trace : list (Z * Op Payload))
    (sid other : string) (s so : SessionState) (e : AgentEvent Payload) :
  let m := run trace (mux_new cfg) in
  sessions m !! sid = Some s → sessions m !! other = Some so → other ≠ sid →
  sent (broadcast sid e m) =
    sent m ++ [(event_tx s, mkEvent (wrap_u64 (sequence s + 1)) (ev_payload e))] ∧
  numbers (broadcast sid e m) (event_tx so) = numbers m (event_tx so).
Proof.
  intros m Hs Hso Hne. destruct (run_inv trace (mux_new cfg) (mux_new_inv cfg)) as [Hm _].
  assert (sent (broadcast sid e m) =
    sent m ++ [(event_tx s, mkEvent (wrap_u64 (sequence s + 1)) (ev_payload e))]) as Hsent.
  { unfold broadcast. by rewrite Hs. }
  split; [done|]. unfold numbers. rewrite Hsent, filter_app, fmap_app, filter_cons, decide_False.
  - by rewrite app_nil_r.
  - simpl. intros He. apply Hne. by apply (mi_own _ Hm other sid so s).
Qed.

(** ** The lock *)

(** The client neither gives up the lock nor leaves nor is found stale. *)
Fixpoint undisturbed (sid cid : string) (trace : list (Z * Op Payload)) (m : SessionMultiplexer Payload) : Prop :=
  match trace with
  | [] => True
  | (now, op) :: rest =>
      match op with
      | OpRelease s c | OpUnsubscribe s c => ¬ (s = sid ∧ c = cid)
      | OpCleanup => ∀ s c, sessions m !! sid = Some s → clients s !! cid = Some c → stale (config m) now c = false
      | _ => True
      end ∧ undisturbed sid cid rest (step now op m)
  end.

Definition holds (sid cid : string) (m : SessionMultiplexer Payload) : Prop :=
  ∃ s, sessions m !! sid = Some s ∧ input_lock_holder s = Some cid.

Lemma has_input_lock_holds (sid cid : string) (m : SessionMultiplexer Payload) :
  has_input_lock sid cid m = true ↔ holds sid cid m.
Proof.
  unfold has_input_lock, holds. destruct (sessions m !! sid) as [s|]; [|naive_solver].
  rewrite bool_decide_eq_true. naive_solver.
Qed.

Lemma holds_update (sid cid k : string) (m : SessionMultiplexer Payload) (s s' : SessionState) :
  holds sid cid m → sessions m !! k = Some s →
  (k = sid → input_lock_holder s = Some cid → input_lock_holder s' = Some cid) →
  holds sid cid (with_sessions (<[k := s']> (sessions m)) m).
Proof.
  intros (s0 & Hs0 & Hh) Hs Hk. unfold holds. simpl.
  destruct (decide (k = sid)) as [->|Hne].
  - exists s'. rewrite lookup_insert_eq. split; [done|]. apply Hk; [done|]. congruence.
  - exists s0. by rewrite lookup_insert_ne.
Qed.

Lemma holds_entry (sid cid k : string) (m : SessionMultiplexer Payload) :
  holds sid cid m → holds sid cid (entry_session k m).1.
Proof.
  intros (s & Hs & Hh). unfold entry_session. destruct (sessions m !! k) eqn:Hk; [by exists s|].
  exists s. simpl. rewrite lookup_insert_ne; [done|congruence].
Qed.

Lemma step_keeps_lock (sid cid : string) (now : Z) (op : Op Payload) (m : SessionMultiplexer Payload) :
  mux_inv m → holds sid cid m → undisturbed sid cid [(now, op)] m → holds sid cid (step now op m).
Proof.
  intros Hm Hh [Hop _]. destruct op as [k|k c ty|k c|k c|k c|k e|k e|k c|]; simpl.
  - pose proof (holds_entry sid cid k m Hh) as He. unfold get_or_create_session.
    by destruct (entry_session k m).
  - pose proof (holds_entry sid cid k m Hh) as He.
    destruct (entry_session_inv m k Hm) as (_ & _ & Hk & _).
    unfold subscribe. destruct (entry_session k m) as [m' s]. simpl in *.
    case_decide; [done|]. destruct (clients s !! c); [done|]. by eapply holds_update.
  - unfold unsubscribe. destruct (sessions m !! k) as [s|] eqn:Hk; [|done].
    pose proof (mi_session _ Hm k s Hk) as Hok.
    pose proof (remove_client_holder c s (so_holder _ _ _ Hok)) as Hr.
    pose proof (so_holder _ _ _ (remove_client_ok _ _ c _ Hok)) as Hc.
    destruct (remove_client c s) as [s' []]; [|done]. simpl in *.
    assert (k = sid → input_lock_holder s = Some cid → input_lock_holder s' = Some cid) as Hkeep.
    { intros -> Hc'. rewrite Hr, decide_False; [done|]. intros Heq. apply Hop. split; [done|]. congruence. }
    destruct (is_empty s') eqn:He; [|by eapply holds_update].
    destruct Hh as (s0 & Hs0 & Hh0). exists s0. simpl. rewrite lookup_delete_ne; [done|]. intros ->.
    rewrite Hk in Hs0. injection Hs0 as <-. specialize (Hc cid (Hkeep eq_refl Hh0)).
    unfold is_empty in He. apply bool_decide_eq_true in He. rewrite He, lookup_empty in Hc. by destruct Hc.
  - unfold request_input_lock. destruct (sessions m !! k) as [s|] eqn:Hk; [|done].
    destruct (clients s !! c) eqn:Hc; [|done].
    destruct (input_lock_holder s) as [h|] eqn:Hs; [by case_decide|].
    eapply holds_update; [done|done|]. intros _ ?. congruence.
  - unfold release_input_lock. destruct (sessions m !! k) as [s|] eqn:Hk; [|done].
    case_decide as Hs; [|done]. eapply holds_update; [done|done|]. intros -> Hs'. destruct Hop. split; [done|congruence].
  - unfold broadcast. destruct (sessions m !! k) as [s|] eqn:Hk; [|done]. simpl.
    exact (holds_update sid cid k m s (next_sequence s).1 Hh Hk (λ _ H, H)).
  - unfold forward_event. destruct (sessions m !! k) as [s|] eqn:Hk; [|done]. simpl.
    exact (holds_update sid cid k m s (next_sequence s).1 Hh Hk (λ _ H, H)).
  - unfold heartbeat. destruct (sessions m !! k) as [s|] eqn:Hk; [|done]. by eapply holds_update.
  - destruct Hh as (s & Hs & Hh). pose proof (mi_session _ Hm sid s Hs) as Hok.
    assert (input_lock_holder (remove_all (stale_ids (config m) now s) s) = Some cid) as Hkeep.
    { rewrite (remove_all_holder (config m) sid) by done. split; [done|].
      rewrite (elem_of_stale_ids _ _ sid) by done. intros (c & Hc & Hst). rewrite (Hop s c) in Hst; done. }
    exists (remove_all (stale_ids (config m) now s) s). split; [|done]. apply cleanup_lookup. split; [|eauto].
    pose proof (so_holder _ _ _ (remove_all_ok _ _ (stale_ids (config m) now s) _ Hok) cid Hkeep) as Hc.
    apply bool_decide_eq_false. intros He. rewrite He, lookup_empty in Hc. by destruct Hc.
Qed.

(** Once granted, the lock stays with its client through any calls, of this
    and of other clients, until it releases it, unsubscribes or misses its
    heartbeats; meanwhile every other connected client is refused and told
    who holds it. *)
Theorem lock_held_until_released (cfg : MultiplexerConfig) (before after : list (Z * Op Payload))
    (sid cid : string) :
  let m := run before (mux_new cfg) in
  has_input_lock sid cid m = true → undisturbed sid cid after m →
  has_input_lock sid cid (run after m) = true ∧
  ∀ other s, other ≠ cid → sessions (run after m) !! sid = Some s → is_Some (clients s !! other) →
    request_input_lock sid other (run after m) = (run after m, Ok (mkLockResult false (Some cid))).
Proof.
  intros m Hl Hu. destruct (run_inv before (mux_new cfg) (mux_new_inv cfg)) as [Hm _]. fold m in Hm.
  assert (holds sid cid (run after m)) as Hh.
  { apply has_input_lock_holds in Hl. clearbody m. revert m Hm Hl Hu.
    induction after as [|[now op] after IH]; intros m Hm Hl Hu; [done|]. simpl. destruct Hu as [Hop Hu].
    apply IH; [by apply step_inv| |done]. by apply step_keeps_lock. }
  split; [by apply has_input_lock_holds|]. intros other s Hne Hs [c Hc].
  destruct Hh as (s' & Hs' & Hh). rewrite Hs in Hs'. injection Hs' as <-.
  unfold request_input_lock. rewrite Hs, Hc, Hh. by rewrite decide_False by congruence.
Qed.

Lemma cleanup_removed (now : Z) (m : SessionMultiplexer Payload) :
  (cleanup_stale_clients now m).2 =
    hm_iter (sessions m) ≫= λ kv, pair kv.1 <$> stale_ids (config m) now kv.2.
Proof.
  unfold cleanup_stale_clients.
  destruct (cleanup_fold (config m) now (hm_iter (sessions m)) (sessions m) [] (NoDup_hm_iter_keys _)) as (_ & _ & H3).
  destruct (foldl _ _ _). by simpl in *.
Qed.

Lemma elem_of_cleanup_removed (now : Z) (m : SessionMultiplexer Payload) sid cid :
  (sid, cid) ∈ (cleanup_stale_clients now m).2 ↔
    ∃ s, sessions m !! sid = Some s ∧ cid ∈ stale_ids (config m) now s.
Proof.
  rewrite cleanup_removed, list_elem_of_bind. split.
  - intros ([k s] & (id & [= -> ->] & Hid)%list_elem_of_fmap & Hks). apply elem_of_hm_iter in Hks. by exists s.
  - intros (s & Hs & Hc). exists (sid, s). rewrite elem_of_hm_iter. split; [by apply list_elem_of_fmap_2|done].
Qed.

Lemma NoDup_cleanup_removed (now : Z) (m : SessionMultiplexer Payload) :
  mux_inv m → NoDup (cleanup_stale_clients now m).2.
Proof.
  intros Hm. rewrite cleanup_removed. apply NoDup_bind.
  - intros [k1 s1] [k2 s2] [k c] H1%elem_of_hm_iter H2%elem_of_hm_iter
      (? & [= -> ->] & _)%list_elem_of_fmap (? & [= <- <-] & _)%list_elem_of_fmap. simpl in *. congruence.
  - intros [k s] Hks%elem_of_hm_iter. apply NoDup_fmap_2; [apply _|].
    by apply (NoDup_stale_ids (config m) now k), (mi_session _ Hm).
  - apply (NoDup_fmap_1 fst). apply NoDup_hm_iter_keys.
Qed.

Lemma remove_stale_lookup cfg (now : Z) sid s cid c :
  session_ok cfg sid s →
  clients (remove_all (stale_ids cfg now s) s) !! cid = Some c ↔
    clients s !! cid = Some c ∧ stale cfg now c = false.
Proof.
  intros Hok. rewrite remove_all_lookup.
  pose proof (elem_of_stale_ids cfg now sid s cid Hok) as He.
  destruct (decide (cid ∈ stale_ids cfg now s)) as [Hi|Hi]; rewrite He in Hi.
  - destruct Hi as (c' & Hc' & Hst). split; [done|]. intros [Hc Hst']. congruence.
  - split; [|by intros [? _]]. intros Hc. split; [done|]. destruct (stale cfg now c) eqn:Hst; [|done].
    destruct Hi. eauto.
Qed.

(** Cleaning up removes and reports, once each, exactly the clients whose
    last heartbeat is older than the timeout; it releases the locks they
    held and no others, and keeps exactly the sessions that still have a
    client. *)
Theorem cleanup_stale_exact (cfg : MultiplexerConfig) (trace : list (Z * Op Payload)) (now : Z) :
  let m := run trace (mux_new cfg) in
  let m' := (cleanup_stale_clients now m).1 in
  let removed := (cleanup_stale_clients now m).2 in
  NoDup removed ∧
  (∀ sid cid, (sid, cid) ∈ removed ↔
     ∃ s c, sessions m !! sid = Some s ∧ clients s !! cid = Some c ∧ stale cfg now c = true) ∧
  (∀ sid cid c, (∃ s', sessions m' !! sid = Some s' ∧ clients s' !! cid = Some c) ↔
     ∃ s, sessions m !! sid = Some s ∧ clients s !! cid = Some c ∧ stale cfg now c = false) ∧
  (∀ sid cid, has_input_lock sid cid m' = true ↔
     has_input_lock sid cid m = true ∧ (sid, cid) ∉ removed) ∧
  (∀ sid s', sessions m' !! sid = Some s' → clients s' ≠ ∅).
Proof.
  intros m m' removed. destruct (run_inv trace (mux_new cfg) (mux_new_inv cfg)) as [Hm Hcfg].
  fold m in Hm, Hcfg. simpl in Hcfg.
  pose proof (cleanup_lookup now m) as Hl. fold m' in Hl. rewrite Hcfg in Hl.
  assert (∀ sid s, sessions m !! sid = Some s → session_ok cfg sid s) as Hok
    by (intros; rewrite <- Hcfg; by apply (mi_session _ Hm)).
  pose proof (elem_of_cleanup_removed now m) as Hin. fold removed in Hin. rewrite Hcfg in Hin.
  assert (∀ sid cid, (sid, cid) ∈ removed ↔
     ∃ s c, sessions m !! sid = Some s ∧ clients s !! cid = Some c ∧ stale cfg now c = true) as Hin'.
  { intros sid cid. rewrite Hin. split.
    - intros (s & Hs & Hc). apply (elem_of_stale_ids cfg now sid) in Hc as (c & ? & ?); eauto.
    - intros (s & c & Hs & Hc & Hst). exists s. rewrite (elem_of_stale_ids cfg now sid); eauto. }
  split_and!; [|done| | |].
  - by apply NoDup_cleanup_removed.
  - intros sid cid c. split.
    + intros (s' & (_ & s & Hs & ->)%Hl & Hc). exists s. split; [done|]. apply (remove_stale_lookup cfg now sid) in Hc; eauto.
    + intros (s & Hs & Hc). apply (remove_stale_lookup cfg now sid) in Hc; [|by apply Hok].
      exists (remove_all (stale_ids cfg now s) s). split; [|done]. apply Hl. split; [|eauto].
      apply bool_decide_eq_false. intros He. by rewrite He, lookup_empty in Hc.
  - intros sid cid. rewrite !has_input_lock_holds, Hin. unfold holds. split.
    + intros (s' & (_ & s & Hs & ->)%Hl & Hh).
      apply (remove_all_holder cfg sid) in Hh as [Hh Hn]; [|by apply Hok].
      split; [eauto|]. intros (s2 & Hs2 & Hc). congruence.
    + intros ((s & Hs & Hh) & Hn).
      assert (input_lock_holder (remove_all (stale_ids cfg now s) s) = Some cid) as Hk.
      { apply (remove_all_holder cfg sid); [by apply Hok|]. split; [done|]. intros Hc. apply Hn. eauto. }
      exists (remove_all (stale_ids cfg now s) s). split; [|done]. apply Hl. split; [|eauto].
      apply bool_decide_eq_false. intros He.
      destruct (so_holder _ _ _ (remove_all_ok cfg sid _ _ (Hok sid s Hs)) cid Hk) as [c Hc].
      by rewrite He, lookup_empty in Hc.
  - intros sid s' (He & _)%Hl. by apply bool_decide_eq_false in He.
Qed.

End Theorems.

(** * Witnesses *)

(** Two clients of one session, one of another; the first takes the lock. *)
Definition demo_trace : list (Z * Op string) :=
  [(0%Z, OpSubscribe "s" "c1" "tui"); (1%Z, OpSubscribe "s" "c2" "tui");
   (2%Z, OpSubscribe "t" "c3" "tui"); (3%Z, OpRequest "s" "c1");
   (4%Z, OpBroadcast "s" (mkEvent 0 "hello"))].

Definition demo_mux : SessionMultiplexer string := run demo_trace (mux_new default_mux_config).

Definition demo_session (sid : string) : SessionState :=
  default (session_new "" 0) (sessions demo_mux !! sid).

Lemma lock_and_capacity_witness :
  input_lock_holder (demo_session "s") = Some "c1" ∧ client_count (demo_session "s") ≤ 5.
Proof.
  split; [reflexivity|].
  destruct (lock_and_capacity default_mux_config demo_trace "s" (demo_session "s")) as (_ & _ & _ & H).
  - reflexivity.
  - exact H.
Defined.

Lemma subscriber_sees_no_gap_witness :
  let r := subscribe 5 "s" "c4" "tui" demo_mux in
  let m := run [(6%Z, OpBroadcast "s" (mkEvent 0 "x")); (7%Z, OpBroadcast "t" (mkEvent 0 "y"));
                (8%Z, OpForward "s" (mkEvent 0 "z"))] r.1 in
  ∃ i k, numbers r.1 0 = consecutive i ∧
    (λ e, ev_sequence e.2) <$> filter (λ e, e.1 = 0) (drop 1 (sent m)) =
      wrap_u64 <$> seqZ (Z.of_nat i + 1) (Z.of_nat k).
Proof.
  apply (subscriber_sees_no_gap default_mux_config demo_trace _ 5 "s" "c4" "tui"
           (subscribe 5 "s" "c4" "tui" demo_mux).1 (mkHandle "c4" "s" (0, 1) false)).
  reflexivity.
Defined.

Lemma broadcast_reaches_one_session_witness :
  sent (broadcast "t" (mkEvent 0 "x") demo_mux) = sent demo_mux ++ [(1, mkEvent 1 "x")] ∧
  numbers (broadcast "t" (mkEvent 0 "x") demo_mux) 0 = numbers demo_mux 0.
Proof.
  apply (broadcast_reaches_one_session default_mux_config demo_trace "t" "s"
           (demo_session "t") (demo_session "s") (mkEvent 0 "x")); [reflexivity..|done].
Defined.

Lemma lock_held_until_released_witness :
  let after := [(5%Z, OpUnsubscribe "t" "c3"); (6%Z, OpRelease "s" "c2"); (30000%Z, OpCleanup)] in
  has_input_lock "s" "c1" (run after demo_mux) = true.
Proof.
  intros after.
  destruct (lock_held_until_released default_mux_config demo_trace after "s" "c1") as [H _].
  - reflexivity.
  - split; [by intros [? ?]|]. split; [by intros [? ?]|]. split; [|done].
    intros s c Hs Hc. vm_compute in Hs. injection Hs as <-. vm_compute in Hc. injection Hc as <-. reflexivity.
  - exact H.
Defined.

Lemma cleanup_stale_exact_witness :
  let now := (heartbeat_timeout default_mux_config + 2)%Z in
  NoDup (cleanup_stale_clients now demo_mux).2 ∧ length (cleanup_stale_clients now demo_mux).2 = 2.
Proof.
  intros now. split; [|reflexivity].
  destruct (cleanup_stale_exact default_mux_config demo_trace now) as [H _]. exact H.
Defined.
