(* ===== verification/EventBridge.v ===== *)
(** From the agent's messages to the events of a session.

    Models crates/betcode-daemon/src/subprocess/bridge.rs.  An event is the
    multiplexer's [AgentEvent] with the body of the protocol's message.  The
    clock is a function of the event's number: what [now_timestamp] reads when
    that event is made.  How Rust quotes a string in debug output, which goes
    into one error text, is the class [DebugText]. *)
From stdpp Require Import gmap strings list sorting.
From Stdlib Require Import ZArith SpecFloat Lia.
From S2P Require Import Prelude Json Ndjson Commands Multiplexer.

Class DebugText := {
  debug_string : string → string
}.

(** * Events *)

(** [prost_types::Value] *)
Inductive ProstValue :=
| PNull
| PNumber (f : spec_float)
| PString (s : string)
| PBool (b : bool)
| PStruct (fields : list (string * ProstValue))
| PList (values : list ProstValue).

Record SessionInfo := mkSessionInfo {
  info_session_id : string;
  info_model : string;
  info_working_directory : string;
  info_worktree_id : string;
  info_message_count : Z;
  info_is_resumed : bool;
  info_is_compacted : bool;
  info_context_usage_percent : spec_float
}.

Record ErrorEvent := mkErrorEvent {
  err_code : string;
  err_message : string;
  err_is_fatal : bool
}.

Record UsageReport := mkUsageReport {
  ur_input_tokens : Z;
  ur_output_tokens : Z;
  ur_cache_read_tokens : Z;
  ur_cache_creation_tokens : Z;
  ur_model : string;
  ur_cost_usd : spec_float;
  ur_duration_ms : Z
}.

Record QuestionOption := mkQuestionOption {
  qo_value : string;
  qo_label : string;
  qo_description : string
}.

Inductive AgentStatus := StatusThinking | StatusIdle.

(** The variants of the protocol's event; no code looks into to-do updates and
    plan mode. *)
Inductive Event :=
| EvTextDelta (text : string) (is_complete : bool)
| EvToolCallStart (tool_id tool_name : string) (input : option (list (string * ProstValue))) (description : string)
| EvToolCallResult (tool_id output : string) (is_error : bool) (duration_ms : Z)
| EvPermissionRequest (request_id tool_name description : string) (input : option (list (string * ProstValue)))
| EvUserQuestion (question_id question : string) (options : list QuestionOption) (multi_select : bool)
| EvStatusChange (status : AgentStatus) (message : string)
| EvSessionInfo (info : SessionInfo)
| EvUsage (usage : UsageReport)
| EvTurnComplete (stop_reason : string)
| EvError (err : ErrorEvent)
| EvUserInput (content : string)
| EvTodoUpdate
| EvPlanMode
| EvEncrypted (ciphertext nonce : list Z).

Definition Timestamp : Type := Z * Z.

Record EventBody := mkBody {
  eb_timestamp : option Timestamp;
  eb_parent_tool_use_id : string;
  eb_event : option Event
}.

(** * Text *)

(** The offsets at which the characters of a UTF-8 string start. *)
Definition char_starts (s : string) : list nat :=
  filter (λ i, i < String.length s ∧ is_char_boundary i s = true) (seq 0 (String.length s)).

Fixpoint take_while {A : Type} (p : A → bool) (l : list A) : list A :=
  match l with
  | [] => []
  | x :: rest => if p x then x :: take_while p rest else []
  end.

Definition truncate_str (s : string) (max : nat) : string :=
  if decide (String.length s ≤ max) then s
  else
    let boundary := default 0 (list.last (take_while (λ i, i <=? max) (char_starts s))) in
    str_take boundary s +:+ "...".

Fixpoint find_map {A B : Type} (f : A → option B) (l : list A) : option B :=
  match l with
  | [] => None
  | x :: rest => match f x with Some y => Some y | None => find_map f rest end
  end.

Definition obj_str (k : string) (obj : list (string * Json)) : string := default EmptyString (assoc k obj ≫= as_str).

Definition tool_description (name : string) (input : Json) : string :=
  match as_object input with
  | None => EmptyString
  | Some obj =>
      if decide (name = "Bash") then
        default EmptyString ((λ c, truncate_str c 120) <$> (assoc "command" obj ≫= as_str))
      else if decide (name = "Read" ∨ name = "Write") then obj_str "file_path" obj
      else if decide (name = "Edit") then obj_str "file_path" obj
      else if decide (name = "Grep") then
        truncate_str (obj_str "pattern" obj) 60 +:+ " in " +:+ default "." (assoc "path" obj ≫= as_str)
      else if decide (name = "Glob") then obj_str "pattern" obj
      else if decide (name = "WebFetch" ∨ name = "WebSearch") then
        let url := match assoc "url" obj with Some v => Some v | None => assoc "query" obj end in
        default EmptyString ((λ s, truncate_str s 120) <$> (url ≫= as_str))
      else if decide (name = "ToolSearch") then obj_str "query" obj
      else default EmptyString ((λ s, truncate_str s 80) <$> find_map as_str (snd <$> obj))
  end.

Fixpoint json_value_to_prost (v : Json) : ProstValue :=
  match v with
  | JNull => PNull
  | JBool b => PBool b
  | JInt z => PNumber (f64_of_Z z)
  | JFloat f => PNumber f
  | JStr s => PString s
  | JArr l => PList (List.map json_value_to_prost l)
  | JObj entries => PStruct (List.map (λ kv, match kv with (k, v) => (k, json_value_to_prost v) end) entries)
  end.

Definition json_to_struct (v : Json) : list (string * ProstValue) :=
  match v with
  | JObj entries => (λ kv, (kv.1, json_value_to_prost kv.2)) <$> entries
  | _ => []
  end.

(** * The bridge *)

Record EventBridge := mkBridge {
  br_sequence : Z;
  pending_tools : gmap string string;
  session_info : option SessionInfo;
  pending_question_inputs : gmap string Json;
  pending_permission_inputs : gmap string Json;
  mcp_entries : list CommandEntry
}.

Definition with_start_sequence (start_sequence : Z) : EventBridge := mkBridge start_sequence ∅ None ∅ ∅ [].

Definition bridge_new : EventBridge := with_start_sequence 0.

Section Convert.
Context {DT : DebugText} (clock : Z → Timestamp).

Definition next_event (event : Event) (b : EventBridge) : EventBridge * AgentEvent EventBody :=
  let n := wrap_u64 (br_sequence b + 1) in
  (mkBridge n (pending_tools b) (session_info b) (pending_question_inputs b) (pending_permission_inputs b)
     (mcp_entries b),
   mkEvent n (mkBody (Some (clock n)) EmptyString (Some event))).

(** The events of one message, numbered in order. *)
Fixpoint next_events (events : list Event) (b : EventBridge) : EventBridge * list (AgentEvent EventBody) :=
  match events with
  | [] => (b, [])
  | e :: rest =>
      let '(b1, ev) := next_event e b in
      let '(b2, evs) := next_events rest b1 in
      (b2, ev :: evs)
  end.

Definition handle_system_init (init : SystemInit) (b : EventBridge) : EventBridge * list (AgentEvent EventBody) :=
  let info := mkSessionInfo (si_session_id init) (si_model init) (si_cwd init) EmptyString 0 false false f64_zero in
  let b1 := mkBridge (br_sequence b) (pending_tools b) (Some info) (pending_question_inputs b)
              (pending_permission_inputs b) (mcp_tools_to_entries (si_tools init)) in
  next_events [EvSessionInfo info] b1.

Definition insert_tool (id name : string) (b : EventBridge) : EventBridge :=
  mkBridge (br_sequence b) (<[id := name]> (pending_tools b)) (session_info b) (pending_question_inputs b)
    (pending_permission_inputs b) (mcp_entries b).

Fixpoint tool_calls (content : list ContentBlock) (b : EventBridge) : EventBridge * list (AgentEvent EventBody) :=
  match content with
  | [] => (b, [])
  | BlockToolUse id name input :: rest =>
      let '(b1, ev) := next_event (EvToolCallStart id name (Some (json_to_struct input)) (tool_description name input))
                         (insert_tool id name b) in
      let '(b2, evs) := tool_calls rest b1 in
      (b2, ev :: evs)
  | BlockText _ :: rest => tool_calls rest b
  end.

Definition handle_assistant (msg : AssistantMessage) (b : EventBridge) : EventBridge * list (AgentEvent EventBody) :=
  let '(b1, calls) := tool_calls (am_content msg) b in
  match am_stop_reason msg with
  | EndTurn =>
      let '(b2, done) := next_events [EvTurnComplete "end_turn"] b1 in
      (b2, calls ++ done)
  | _ => (b1, calls)
  end.

Definition handle_stream_event (ty : StreamEventType) (b : EventBridge) : EventBridge * list (AgentEvent EventBody) :=
  match ty with
  | ContentBlockDelta _ (DeltaText text) =>
      if decide (text = EmptyString) then (b, []) else next_events [EvTextDelta text false] b
  | MessageStart => next_events [EvStatusChange StatusThinking EmptyString] b
  | MessageStop => next_events [EvStatusChange StatusIdle EmptyString] b
  | _ => (b, [])
  end.

Definition question_option (opt : Json) : QuestionOption :=
  mkQuestionOption (str_field "label" opt) (str_field "label" opt) (str_field "description" opt).

Definition handle_ask_user_question (request_id : string) (input : Json) (b : EventBridge)
  : EventBridge * list (AgentEvent EventBody) :=
  let b1 := mkBridge (br_sequence b) (pending_tools b) (session_info b)
              (<[request_id := input]> (pending_question_inputs b)) (pending_permission_inputs b) (mcp_entries b) in
  let questions := default [] (get "questions" input ≫= as_array) in
  let first := default JNull (head questions) in
  let multi := match get "multi_select" first with Some v => Some v | None => get "multiSelect" first end in
  let options := question_option <$> default [] (get "options" first ≫= as_array) in
  next_events [EvUserQuestion request_id (str_field "question" first) options (default false (multi ≫= as_bool))] b1.

Definition handle_control_request (req : ControlRequest) (b : EventBridge)
  : EventBridge * list (AgentEvent EventBody) :=
  match cr_request req with
  | CanUseTool tool_name input =>
      if decide (tool_name = "AskUserQuestion") then handle_ask_user_question (cr_request_id req) input b
      else
        let b1 := mkBridge (br_sequence b) (pending_tools b) (session_info b) (pending_question_inputs b)
                    (<[cr_request_id req := input]> (pending_permission_inputs b)) (mcp_entries b) in
        next_events [EvPermissionRequest (cr_request_id req) tool_name (tool_description tool_name input)
                       (Some (json_to_struct input))] b1
  | ControlUnknown _ => (b, [])
  end.

Definition take_question_input (request_id : string) (b : EventBridge) : EventBridge * option Json :=
  (mkBridge (br_sequence b) (pending_tools b) (session_info b) (delete request_id (pending_question_inputs b))
     (pending_permission_inputs b) (mcp_entries b),
   pending_question_inputs b !! request_id).

Definition take_permission_input (request_id : string) (b : EventBridge) : EventBridge * option Json :=
  (mkBridge (br_sequence b) (pending_tools b) (session_info b) (pending_question_inputs b)
     (delete request_id (pending_permission_inputs b)) (mcp_entries b),
   pending_permission_inputs b !! request_id).

Definition handle_user (content : list ToolResult) (b : EventBridge) : EventBridge * list (AgentEvent EventBody) :=
  next_events ((λ tr, EvToolCallResult (tool_use_id tr) (tr_content tr) (tr_is_error tr) 0) <$> content) b.

Definition debug_subtype (s : ResultSubtype) : string :=
  match s with
  | SubtypeSuccess => "Success"
  | SubtypeError => "Error"
  | SubtypeUnknown other => "Unknown(" +:+ debug_string other +:+ ")"
  end.

Definition has_real_error (r : SessionResult) : bool :=
  sr_is_error r &&
    (match sr_subtype r with SubtypeSuccess => false | _ => true end || negb (bool_decide (sr_errors r = []))).

Definition result_error (r : SessionResult) : list Event :=
  if has_real_error r then
    let message := match sr_errors r with
                   | [] => "Claude exited with error (subtype: " +:+ debug_subtype (sr_subtype r) +:+ ")"
                   | errors => join "; " errors
                   end in
    [EvError (mkErrorEvent "session_error" message true)]
  else [].

Definition result_usage (r : SessionResult) : UsageReport :=
  let u := sr_usage r in
  mkUsageReport (input_tokens u) (output_tokens u) (cache_read_input_tokens u) (cache_creation_input_tokens u)
    EmptyString (default f64_zero (sr_cost_usd r)) (wrap_u32 (sr_duration_ms r)).

Definition handle_result (r : SessionResult) (b : EventBridge) : EventBridge * list (AgentEvent EventBody) :=
  next_events (result_error r ++ [EvUsage (result_usage r); EvStatusChange StatusIdle EmptyString]) b.

Definition convert (msg : Message) (b : EventBridge) : EventBridge * list (AgentEvent EventBody) :=
  match msg with
  | MsgSystemInit init => handle_system_init init b
  | MsgAssistant m => handle_assistant m b
  | MsgStreamEvent ty => handle_stream_event ty b
  | MsgControlRequest req => handle_control_request req b
  | MsgResult r => handle_result r b
  | MsgUser content => handle_user content b
  | MsgUnknown _ _ => (b, [])
  end.

End Convert.

(** * Reference: the events of a message

    Which events a message stands for does not depend on the bridge; the
    bridge numbers them. *)

Definition block_event (block : ContentBlock) : option Event :=
  match block with
  | BlockToolUse id name input => Some (EvToolCallStart id name (Some (json_to_struct input)) (tool_description name input))
  | BlockText _ => None
  end.

Definition question_event (request_id : string) (input : Json) : Event :=
  let first := default JNull (head (default [] (get "questions" input ≫= as_array))) in
  let multi := match get "multi_select" first with Some v => Some v | None => get "multiSelect" first end in
  EvUserQuestion request_id (str_field "question" first)
    (question_option <$> default [] (get "options" first ≫= as_array)) (default false (multi ≫= as_bool)).

Definition events_of {DT : DebugText} (msg : Message) : list Event :=
  match msg with
  | MsgSystemInit init =>
      [EvSessionInfo (mkSessionInfo (si_session_id init) (si_model init) (si_cwd init) EmptyString 0 false false f64_zero)]
  | MsgAssistant m =>
      omap block_event (am_content m) ++ match am_stop_reason m with EndTurn => [EvTurnComplete "end_turn"] | _ => [] end
  | MsgStreamEvent (ContentBlockDelta _ (DeltaText text)) =>
      if decide (text = EmptyString) then [] else [EvTextDelta text false]
  | MsgStreamEvent MessageStart => [EvStatusChange StatusThinking EmptyString]
  | MsgStreamEvent MessageStop => [EvStatusChange StatusIdle EmptyString]
  | MsgControlRequest (mkControlRequest id (CanUseTool tool input)) =>
      if decide (tool = "AskUserQuestion") then [question_event id input]
      else [EvPermissionRequest id tool (tool_description tool input) (Some (json_to_struct input))]
  | MsgResult r => result_error r ++ [EvUsage (result_usage r); EvStatusChange StatusIdle EmptyString]
  | MsgUser content => (λ tr, EvToolCallResult (tool_use_id tr) (tr_content tr) (tr_is_error tr) 0) <$> content
  | _ => []
  end.

Fixpoint number (clock : Z → Timestamp) (n : Z) (events : list Event) : list (AgentEvent EventBody) :=
  match events with
  | [] => []
  | e :: rest =>
      mkEvent (wrap_u64 (n + 1)) (mkBody (Some (clock (wrap_u64 (n + 1)))) EmptyString (Some e))
        :: number clock (wrap_u64 (n + 1)) rest
  end.

Fixpoint advance (n : Z) (count : nat) : Z :=
  match count with 0 => n | S c => advance (wrap_u64 (n + 1)) c end.

Section Numbering.
Context {DT : DebugText} (clock : Z → Timestamp).

Lemma next_events_number (events : list Event) (b : EventBridge) :
  (next_events clock events b).2 = number clock (br_sequence b) events ∧
  br_sequence (next_events clock events b).1 = advance (br_sequence b) (length events).
Proof.
  revert b. induction events as [|e events IH]; intros b; [done|]. cbn [next_events next_event].
  set (b1 := mkBridge _ _ _ _ _ _). specialize (IH b1). destruct (next_events clock events b1) as [b2 evs].
  simpl in *. destruct IH as [-> ->]. done.
Qed.

Lemma number_app (n : Z) (es1 es2 : list Event) :
  number clock n (es1 ++ es2) = number clock n es1 ++ number clock (advance n (length es1)) es2.
Proof. revert n. induction es1 as [|e es1 IH]; intros n; simpl; [done|]. by rewrite IH. Qed.

Lemma advance_add (n : Z) (c1 c2 : nat) : advance n (c1 + c2) = advance (advance n c1) c2.
Proof. revert n. induction c1 as [|c1 IH]; intros n; simpl; [done|]. by rewrite IH. Qed.

Lemma advance_small (n : Z) (c : nat) : (0 ≤ n)%Z → (n + Z.of_nat c < 2 ^ 64)%Z → advance n c = (n + Z.of_nat c)%Z.
Proof.
  revert n. induction c as [|c IH]; intros n H0 Hlt; simpl; [lia|].
  unfold wrap_u64. rewrite Z.mod_small by lia. rewrite IH; lia.
Qed.

Lemma tool_calls_number (content : list ContentBlock) (b : EventBridge) :
  (tool_calls clock content b).2 = number clock (br_sequence b) (omap block_event content) ∧
  br_sequence (tool_calls clock content b).1 = advance (br_sequence b) (length (omap block_event content)).
Proof.
  revert b. induction content as [|[text|id name input] content IH]; intros b; [done|apply IH|].
  cbn [tool_calls next_event insert_tool br_sequence].
  set (b1 := mkBridge _ _ _ _ _ _). specialize (IH b1). destruct (tool_calls clock content b1) as [b2 evs].
  simpl in *. destruct IH as [-> ->]. done.
Qed.

Lemma convert_reference (msg : Message) (b : EventBridge) :
  (convert clock msg b).2 = number clock (br_sequence b) (events_of msg) ∧
  br_sequence (convert clock msg b).1 = advance (br_sequence b) (length (events_of msg)).
Proof.
  destruct msg as [init|m|content|ty|[id req]|r|t v]; cbn [convert events_of].
  - unfold handle_system_init. by rewrite (proj1 (next_events_number _ _)).
  - unfold handle_assistant. destruct (tool_calls_number (am_content m) b) as [H1 H2].
    destruct (tool_calls clock (am_content m) b) as [b1 calls]. simpl in H1, H2. subst calls.
    destruct (am_stop_reason m); rewrite ?app_nil_r; try done.
    cbn. rewrite number_app, length_app, advance_add, H2. done.
  - apply next_events_number.
  - destruct ty as [| ? []| | | | |]; try done. simpl. case_decide; done.
  - destruct req as [tool input|v]; [|done]. unfold handle_control_request. cbn [cr_request cr_request_id].
    case_decide; [|done]. unfold handle_ask_user_question. done.
  - apply next_events_number.
  - done.
Qed.

(** The bridge computes the reference: the events of a message, whatever
    came before it, under the numbers that follow the last one. *)
Theorem convert_equals_reference (msg : Message) (b : EventBridge) :
  (convert clock msg b).2 = number clock (br_sequence b) (events_of msg) ∧
  br_sequence (convert clock msg b).1 = advance (br_sequence b) (length (events_of msg)).
Proof. apply convert_reference. Qed.

Lemma length_number (n : Z) (es : list Event) : length (number clock n es) = length es.
Proof. revert n. induction es as [|e es IH]; intros n; simpl; [done|]. by rewrite IH. Qed.

(** Below the end of the 64-bit numbers, the numbers are consecutive. *)
Lemma number_sequences (n : Z) (es : list Event) :
  (0 ≤ n)%Z → (n + Z.of_nat (length es) < 2 ^ 64)%Z →
  ev_sequence <$> number clock n es = (λ i, (n + 1 + Z.of_nat i)%Z) <$> seq 0 (length es).
Proof.
  revert n. induction es as [|e es IH]; intros n H0 Hlt; simpl in *; [done|].
  assert (wrap_u64 (n + 1) = (n + 1)%Z) as -> by (unfold wrap_u64; rewrite Z.mod_small; lia).
  f_equal; [simpl; lia|]. rewrite IH by lia. rewrite <- fmap_S_seq, <- list_fmap_compose.
  apply list_fmap_ext. intros i x _. simpl. lia.
Qed.

(** * What waits for an answer *)

(** The input of a permission request is kept for the answer, and handed out
    once. *)
Lemma permission_input_kept (id tool : string) (input : Json) (b : EventBridge) :
  tool ≠ "AskUserQuestion" →
  let b1 := (convert clock (MsgControlRequest (mkControlRequest id (CanUseTool tool input))) b).1 in
  (take_permission_input id b1).2 = Some input ∧
  (take_permission_input id (take_permission_input id b1).1).2 = None.
Proof.
  intros Ht. cbn. unfold handle_control_request. cbn [cr_request cr_request_id]. rewrite decide_False by done. simpl.
  by rewrite lookup_insert_eq, lookup_delete_eq.
Qed.

Lemma question_input_kept (id : string) (input : Json) (b : EventBridge) :
  let b1 := (convert clock (MsgControlRequest (mkControlRequest id (CanUseTool "AskUserQuestion" input))) b).1 in
  (take_question_input id b1).2 = Some input.
Proof. simpl. by rewrite lookup_insert_eq. Qed.

End Numbering.

(** * Truncation *)

Lemma take_while_all {A : Type} (p : A → bool) (l : list A) (x : A) :
  x ∈ take_while p l → p x = true ∧ x ∈ l.
Proof.
  induction l as [|y l IH]; simpl; [by intros ?%elem_of_nil|]. destruct (p y) eqn:Hp; [|by intros ?%elem_of_nil].
  rewrite !elem_of_cons. intros [->|H]; [by auto|]. destruct (IH H). auto.
Qed.

Lemma elem_of_char_starts (i : nat) (s : string) :
  i ∈ char_starts s ↔ i < String.length s ∧ is_char_boundary i s = true.
Proof. unfold char_starts. rewrite list_elem_of_filter, elem_of_seq. naive_solver lia. Qed.

(** On an ascending list, what [take_while] leaves out is above the bound. *)
Lemma take_while_ascending (max : nat) (l : list nat) (x : nat) :
  StronglySorted lt l → x ∈ l → x ≤ max → x ∈ take_while (λ i, i <=? max) l.
Proof.
  induction 1 as [|y l Hl IH Hy]; [by intros ?%elem_of_nil|]. intros Hx Hle. simpl.
  rewrite elem_of_cons in Hx. destruct Hx as [->|Hx].
  - rewrite (proj2 (Nat.leb_le _ _) Hle). by left.
  - rewrite Forall_forall in Hy. specialize (Hy x Hx). rewrite (proj2 (Nat.leb_le y max)) by lia. right. by apply IH.
Qed.

Lemma filter_seq_ascending (P : nat → Prop) `{∀ i, Decision (P i)} (i n : nat) :
  StronglySorted lt (filter P (seq i n)).
Proof.
  revert i. induction n as [|n IH]; intros i; [constructor|]. cbn [seq]. rewrite filter_cons. case_decide; [|apply IH].
  constructor; [apply IH|]. apply Forall_forall. intros x Hx. apply list_elem_of_filter in Hx as [_ Hx].
  apply elem_of_seq in Hx. lia.
Qed.

Lemma char_starts_ascending (s : string) : StronglySorted lt (char_starts s).
Proof. apply filter_seq_ascending. Qed.

Lemma last_sorted_max (l : list nat) (x m : nat) :
  StronglySorted lt l → x ∈ l → list.last l = Some m → x ≤ m.
Proof.
  intros Hs. revert x. induction Hs as [|y l Hl IH Hy]; intros x; [by intros ?%elem_of_nil|].
  destruct l as [|z l]; [intros Hx%list_elem_of_singleton [= ->]; lia|].
  rewrite last_cons_cons, elem_of_cons. intros [->|Hx] Hm; [|by apply IH].
  rewrite Forall_forall in Hy. specialize (Hy z ltac:(by left)). specialize (IH z ltac:(by left) Hm). lia.
Qed.

Lemma take_while_sorted (p : nat → bool) (l : list nat) : StronglySorted lt l → StronglySorted lt (take_while p l).
Proof.
  induction 1 as [|y l Hl IH Hy]; simpl; [constructor|]. destruct (p y); [|constructor]. constructor; [done|].
  rewrite Forall_forall in *. intros x [_ Hx]%take_while_all. by apply Hy.
Qed.

(** The text of a description: unchanged when it fits, otherwise the longest
    whole-character prefix within the bound and three dots. *)
Theorem truncate_str_spec (s : string) (max : nat) :
  (String.length s ≤ max → truncate_str s max = s) ∧
  (max < String.length s → is_char_boundary 0 s = true →
   ∃ n, truncate_str s max = str_take n s +:+ "..." ∧ n ≤ max ∧ is_char_boundary n s = true ∧
        ∀ i, i ≤ max → is_char_boundary i s = true → i ≤ n).
Proof.
  unfold truncate_str. split; [intros H; by rewrite decide_True|]. intros H H0. rewrite decide_False by lia.
  set (l := take_while (λ i, i <=? max) (char_starts s)).
  assert (0 ∈ l) as Hl0.
  { apply take_while_ascending; [apply char_starts_ascending| |lia]. apply elem_of_char_starts. split; [lia|done]. }
  destruct (list.last l) as [n|] eqn:Hn; [|apply last_None in Hn; rewrite Hn in Hl0; by apply elem_of_nil in Hl0].
  apply last_Some_elem_of in Hn as Hin. apply take_while_all in Hin as [Hle Hin]. apply Nat.leb_le in Hle.
  apply elem_of_char_starts in Hin as [_ Hb]. exists n. split_and!; try done. intros i Hi Hbi.
  eapply last_sorted_max; [apply take_while_sorted, char_starts_ascending| |exact Hn].
  apply take_while_ascending; [apply char_starts_ascending|apply elem_of_char_starts; split; [lia|done]|done].
Qed.
