(* ===== verification/SessionStore.v ===== *)
(** The daemon's tables for sessions, their messages and connected clients.

    Models crates/betcode-daemon/src/storage/: the session, message,
    compaction, lock and client queries of queries.rs and the rows of
    models.rs, with the constraints of migrations/ (checks, unique index,
    foreign keys with their actions).  The record also holds the tables of
    [RepoStore].  A statement that violates a constraint changes nothing; of a
    statement that violates several, SQLite reports the check, then the unique
    index, then the foreign key.  [now] is what [unix_timestamp] returns.
    Token totals are unbounded integers: SQLite's overflow at 2^63 is out of
    reach of sums of 32-bit counts. *)
From stdpp Require Import gmap strings list sorting fin_maps.
From Stdlib Require Import ZArith SpecFloat Lia.
From S2P Require Import Prelude Protocol Json.

(** * Rows *)

Inductive SessionStatus := SessIdle | SessActive | SessCompleted | SessError.

Definition session_status_str (s : SessionStatus) : string :=
  match s with
  | SessIdle => "idle"
  | SessActive => "active"
  | SessCompleted => "completed"
  | SessError => "error"
  end.

Record Session := mkSessionRow {
  s_id : string;
  s_claude_session_id : option string;
  s_worktree_id : option string;
  s_status : string;
  s_model : string;
  s_working_directory : string;
  s_input_lock_client : option string;
  s_created_at : Z;
  s_updated_at : Z;
  s_total_input_tokens : Z;
  s_total_output_tokens : Z;
  s_total_cost_usd : spec_float;
  s_last_message_preview : option string;
  s_compaction_sequence : Z;
  s_name : string
}.

Record MessageRow := mkMessageRow {
  msg_id : Z;
  msg_session_id : string;
  msg_sequence : Z;
  msg_message_type : string;
  msg_payload : list Z;
  msg_created_at : Z
}.

Record ConnectedClient := mkConnectedClient {
  cc_client_id : string;
  cc_session_id : option string;
  cc_client_type : string;
  cc_has_input_lock : bool;
  cc_connected_at : Z;
  cc_last_heartbeat : Z
}.

Record Worktree := mkWorktree {
  wt_id : string;
  wt_name : string;
  wt_path : string;
  wt_branch : string;
  wt_repo_id : string;
  wt_setup_script : option string;
  wt_created_at : Z;
  wt_last_active : Z
}.

Record GitRepoRow := mkGitRepo {
  gr_id : string;
  gr_name : string;
  gr_repo_path : string;
  gr_worktree_mode : string;
  gr_local_subfolder : string;
  gr_custom_path : option string;
  gr_setup_script : option string;
  gr_auto_gitignore : bool;
  gr_created_at : Z;
  gr_last_active : Z
}.

(** The tables; messages are indexed by the columns of their unique index. *)
Record DaemonDb := mkDaemonDb {
  db_sessions : gmap string Session;
  db_messages : gmap (string * Z) MessageRow;
  db_next_message : Z;
  db_clients : gmap string ConnectedClient;
  db_worktrees : gmap string Worktree;
  db_repos : gmap string GitRepoRow
}.

Definition empty_db : DaemonDb := mkDaemonDb ∅ ∅ 1 ∅ ∅ ∅.

Definition set_sessions (t : gmap string Session) (d : DaemonDb) : DaemonDb :=
  mkDaemonDb t (db_messages d) (db_next_message d) (db_clients d) (db_worktrees d) (db_repos d).

Definition set_messages (t : gmap (string * Z) MessageRow) (d : DaemonDb) : DaemonDb :=
  mkDaemonDb (db_sessions d) t (db_next_message d) (db_clients d) (db_worktrees d) (db_repos d).

Definition set_clients (t : gmap string ConnectedClient) (d : DaemonDb) : DaemonDb :=
  mkDaemonDb (db_sessions d) (db_messages d) (db_next_message d) t (db_worktrees d) (db_repos d).

(** * Sessions *)

Definition get_session (id : string) (d : DaemonDb) : result DatabaseError Session :=
  match db_sessions d !! id with
  | Some s => Ok s
  | None => Err (NotFound ("Session " +:+ id))
  end.

Definition create_session (now : Z) (id model working_directory : string) (d : DaemonDb)
  : DaemonDb * result DatabaseError Session :=
  match db_sessions d !! id with
  | Some _ => (d, Err (Query (UniqueViolation "sessions.id")))
  | None =>
      let row := mkSessionRow id None None "idle" model working_directory None now now 0 0 f64_zero None 0 EmptyString in
      let d' := set_sessions (<[id := row]> (db_sessions d)) d in
      (d', get_session id d')
  end.

(** [UPDATE sessions SET ... WHERE id = ?] *)
Definition update_session (id : string) (f : Session → Session) (d : DaemonDb) : DaemonDb :=
  set_sessions (alter f id (db_sessions d)) d.

Definition update_session_status (now : Z) (id : string) (status : SessionStatus) : DaemonDb → DaemonDb :=
  update_session id (λ s, mkSessionRow (s_id s) (s_claude_session_id s) (s_worktree_id s) (session_status_str status)
    (s_model s) (s_working_directory s) (s_input_lock_client s) (s_created_at s) now (s_total_input_tokens s)
    (s_total_output_tokens s) (s_total_cost_usd s) (s_last_message_preview s) (s_compaction_sequence s) (s_name s)).

Definition update_claude_session_id (now : Z) (id claude_session_id : string) : DaemonDb → DaemonDb :=
  update_session id (λ s, mkSessionRow (s_id s) (Some claude_session_id) (s_worktree_id s) (s_status s)
    (s_model s) (s_working_directory s) (s_input_lock_client s) (s_created_at s) now (s_total_input_tokens s)
    (s_total_output_tokens s) (s_total_cost_usd s) (s_last_message_preview s) (s_compaction_sequence s) (s_name s)).

Definition update_session_usage (now : Z) (id : string) (input output : Z) (cost : spec_float) : DaemonDb → DaemonDb :=
  update_session id (λ s, mkSessionRow (s_id s) (s_claude_session_id s) (s_worktree_id s) (s_status s)
    (s_model s) (s_working_directory s) (s_input_lock_client s) (s_created_at s) now (s_total_input_tokens s + input)
    (s_total_output_tokens s + output) (f64_add (s_total_cost_usd s) cost) (s_last_message_preview s)
    (s_compaction_sequence s) (s_name s)).

Definition set_session_name (now : Z) (name : string) (s : Session) : Session :=
  mkSessionRow (s_id s) (s_claude_session_id s) (s_worktree_id s) (s_status s)
    (s_model s) (s_working_directory s) (s_input_lock_client s) (s_created_at s) now (s_total_input_tokens s)
    (s_total_output_tokens s) (s_total_cost_usd s) (s_last_message_preview s) (s_compaction_sequence s) name.

Definition update_session_name (now : Z) (id name : string) (d : DaemonDb) : DaemonDb * result DatabaseError unit :=
  match db_sessions d !! id with
  | Some _ => (update_session id (set_session_name now name) d, Ok tt)
  | None => (d, Err (NotFound ("Session " +:+ id +:+ " not found")))
  end.

(** Deleting a session deletes its messages and detaches its clients. *)
Definition delete_session (id : string) (d : DaemonDb) : DaemonDb * bool :=
  match db_sessions d !! id with
  | None => (d, false)
  | Some _ =>
      (mkDaemonDb (delete id (db_sessions d)) (filter (λ kv, kv.1.1 ≠ id) (db_messages d)) (db_next_message d)
         ((λ c, if decide (cc_session_id c = Some id)
                then mkConnectedClient (cc_client_id c) None (cc_client_type c) (cc_has_input_lock c)
                       (cc_connected_at c) (cc_last_heartbeat c)
                else c) <$> db_clients d)
         (db_worktrees d) (db_repos d), true)
  end.

Definition newest_session (s t : Session) : bool := (s_updated_at t <=? s_updated_at s)%Z.

Definition list_sessions {SO : SqlOrder} (working_directory : option string) (limit offset : nat) (d : DaemonDb)
  : list Session :=
  let rows := (map_to_list (db_sessions d)).*2 in
  let selected := match working_directory with
                  | Some wd => filter (λ s, s_working_directory s = wd) rows
                  | None => rows
                  end in
  take limit (drop offset (order_by newest_session selected)).

(** * Messages *)

Definition message_types : list string :=
  ["system"; "assistant"; "user"; "result"; "stream_event"; "control_request"; "control_response"].

Definition insert_message (now : Z) (session_id : string) (sequence : Z) (message_type : string) (payload : list Z)
    (d : DaemonDb) : DaemonDb * result DatabaseError Z :=
  if decide (message_type ∉ message_types) then (d, Err (Query (CheckViolation "message_type")))
  else match db_messages d !! (session_id, sequence), db_sessions d !! session_id with
  | Some _, _ => (d, Err (Query (UniqueViolation "messages.session_id, messages.sequence")))
  | None, None => (d, Err (Query ForeignKeyViolation))
  | None, Some _ =>
      let id := db_next_message d in
      (mkDaemonDb (db_sessions d)
         (<[(session_id, sequence) := mkMessageRow id session_id sequence message_type payload now]> (db_messages d))
         (id + 1) (db_clients d) (db_worktrees d) (db_repos d), Ok id)
  end.

(** The messages of a session. *)
Definition session_messages (session_id : string) (d : DaemonDb) : list MessageRow :=
  (map_to_list (filter (λ kv, kv.1.1 = session_id) (db_messages d))).*2.

Definition by_sequence (m1 m2 : MessageRow) : bool := (msg_sequence m1 <=? msg_sequence m2)%Z.

Definition get_messages_from_sequence {SO : SqlOrder} (session_id : string) (from_sequence : Z) (d : DaemonDb)
  : list MessageRow :=
  order_by by_sequence (filter (λ m, (from_sequence < msg_sequence m)%Z) (session_messages session_id d)).

Definition count_messages (session_id : string) (d : DaemonDb) : Z := Z.of_nat (length (session_messages session_id d)).

(** [MAX(sequence)], 0 when there is none. *)
Definition max_message_sequence (session_id : string) (d : DaemonDb) : Z :=
  match msg_sequence <$> session_messages session_id d with
  | [] => 0
  | n :: ns => foldr Z.max n ns
  end.

Definition delete_messages_before_sequence (session_id : string) (sequence : Z) (d : DaemonDb) : DaemonDb * Z :=
  let kept := filter (λ kv, ¬ (kv.1.1 = session_id ∧ (kv.1.2 ≤ sequence)%Z)) (db_messages d) in
  (set_messages kept d, (Z.of_nat (size (db_messages d)) - Z.of_nat (size kept))%Z).

Definition update_compaction_sequence (now : Z) (session_id : string) (sequence : Z) : DaemonDb → DaemonDb :=
  update_session session_id (λ s, mkSessionRow (s_id s) (s_claude_session_id s) (s_worktree_id s) (s_status s)
    (s_model s) (s_working_directory s) (s_input_lock_client s) (s_created_at s) now (s_total_input_tokens s)
    (s_total_output_tokens s) (s_total_cost_usd s) (s_last_message_preview s) sequence (s_name s)).

(** * The input lock *)

Definition set_session_lock (now : Z) (holder : option string) (s : Session) : Session :=
  mkSessionRow (s_id s) (s_claude_session_id s) (s_worktree_id s) (s_status s)
    (s_model s) (s_working_directory s) holder (s_created_at s) now (s_total_input_tokens s)
    (s_total_output_tokens s) (s_total_cost_usd s) (s_last_message_preview s) (s_compaction_sequence s) (s_name s).

Definition set_lock_flag (b : bool) (c : ConnectedClient) : ConnectedClient :=
  mkConnectedClient (cc_client_id c) (cc_session_id c) (cc_client_type c) b (cc_connected_at c) (cc_last_heartbeat c).

Definition flag_client (b : bool) (holder : option string) (d : DaemonDb) : DaemonDb :=
  match holder with
  | Some c => set_clients (alter (set_lock_flag b) c (db_clients d)) d
  | None => d
  end.

Definition acquire_input_lock (now : Z) (session_id client_id : string) (d : DaemonDb) : DaemonDb * option string :=
  let previous := db_sessions d !! session_id ≫= s_input_lock_client in
  let d1 := update_session session_id (set_session_lock now (Some client_id)) d in
  (flag_client true (Some client_id) (flag_client false previous d1), previous).

Definition release_input_lock_row (now : Z) (session_id : string) (d : DaemonDb) : DaemonDb * result DatabaseError unit :=
  match get_session session_id d with
  | Err e => (d, Err e)
  | Ok s => (update_session session_id (set_session_lock now None) (flag_client false (s_input_lock_client s) d), Ok tt)
  end.

(** * Clients *)

Definition client_types : list string := ["cli"; "flutter"; "headless"].

Definition register_client (now : Z) (client_id client_type : string) (d : DaemonDb) : DaemonDb * result DatabaseError unit :=
  if decide (client_type ∉ client_types) then (d, Err (Query (CheckViolation "client_type")))
  else (set_clients (<[client_id := mkConnectedClient client_id None client_type false now now]> (db_clients d)) d, Ok tt).

Definition update_client_heartbeat (now : Z) (client_id : string) (d : DaemonDb) : DaemonDb :=
  set_clients (alter (λ c, mkConnectedClient (cc_client_id c) (cc_session_id c) (cc_client_type c)
    (cc_has_input_lock c) (cc_connected_at c) now) client_id (db_clients d)) d.

Definition remove_stale_clients (now max_age_secs : Z) (d : DaemonDb) : DaemonDb * Z :=
  let kept := filter (λ kv, ¬ (cc_last_heartbeat kv.2 < now - max_age_secs)%Z) (db_clients d) in
  (set_clients kept d, (Z.of_nat (size (db_clients d)) - Z.of_nat (size kept))%Z).

Definition unregister_client (client_id : string) (d : DaemonDb) : DaemonDb :=
  set_clients (delete client_id (db_clients d)) d.

(** * Messages in order

    A row is stored under its own columns. *)
Definition messages_keyed (d : DaemonDb) : Prop :=
  ∀ k m, db_messages d !! k = Some m → msg_session_id m = k.1 ∧ msg_sequence m = k.2.

Lemma elem_of_session_messages (sid : string) (m : MessageRow) (d : DaemonDb) :
  m ∈ session_messages sid d ↔ ∃ n, db_messages d !! (sid, n) = Some m.
Proof.
  unfold session_messages. rewrite list_elem_of_fmap. split.
  - intros ([[s n] m'] & -> & Hm%elem_of_map_to_list). apply map_lookup_filter_Some in Hm as [Hm Hs].
    simpl in Hs. subst s. by exists n.
  - intros [n Hn]. exists ((sid, n), m). split; [done|]. apply elem_of_map_to_list, map_lookup_filter_Some. done.
Qed.

Lemma session_messages_sequences (sid : string) (d : DaemonDb) :
  messages_keyed d → NoDup (msg_sequence <$> session_messages sid d).
Proof.
  intros Hk. unfold session_messages. rewrite <- list_fmap_compose.
  assert ((msg_sequence ∘ snd) <$> map_to_list (filter (λ kv, kv.1.1 = sid) (db_messages d)) =
          (snd ∘ fst) <$> map_to_list (filter (λ kv, kv.1.1 = sid) (db_messages d))) as ->.
  { apply list_fmap_ext. intros i [[s n] m] Hi%list_elem_of_lookup_2%elem_of_map_to_list.
    apply map_lookup_filter_Some in Hi as [Hi _]. simpl. by apply (Hk _ _ Hi). }
  rewrite list_fmap_compose. apply NoDup_fmap_2_strong; [|apply NoDup_fst_map_to_list].
  intros k1 k2 [[p1 m1] [-> H1%elem_of_map_to_list]]%list_elem_of_fmap
    [[p2 m2] [-> H2%elem_of_map_to_list]]%list_elem_of_fmap Heq.
  apply map_lookup_filter_Some in H1 as [_ H1], H2 as [_ H2]. destruct p1, p2. simpl in *. congruence.
Qed.

Lemma by_sequence_order (x y z : MessageRow) :
  (by_sequence x y = true → by_sequence y z = true → by_sequence x z = true) ∧
  (by_sequence x y = true ∨ by_sequence y x = true).
Proof. unfold by_sequence. rewrite !Z.leb_le. lia. Qed.

Section Replay.
Context {SO : SqlOrder}.

Lemma elem_of_get_messages (sid : string) (from : Z) (m : MessageRow) (d : DaemonDb) :
  m ∈ get_messages_from_sequence sid from d ↔ m ∈ session_messages sid d ∧ (from < msg_sequence m)%Z.
Proof. unfold get_messages_from_sequence. rewrite order_by_perm, list_elem_of_filter. tauto. Qed.

Lemma get_messages_sorted (sid : string) (from : Z) (d : DaemonDb) :
  StronglySorted (λ x y, by_sequence x y = true) (get_messages_from_sequence sid from d).
Proof.
  apply order_by_sorted; [intros x y z; apply (by_sequence_order x y z)|].
  intros x y. apply (by_sequence_order x y y).
Qed.

(** The reply to a query is determined: it lists the selected rows in the
    order of their numbers. *)
Lemma get_messages_unique (sid : string) (from : Z) (d : DaemonDb) (l : list MessageRow) :
  messages_keyed d → StronglySorted (λ x y, by_sequence x y = true) l →
  l ≡ₚ filter (λ m, (from < msg_sequence m)%Z) (session_messages sid d) →
  get_messages_from_sequence sid from d = l.
Proof.
  intros Hk Hl Hp. apply (StronglySorted_unique_strong (λ x y, by_sequence x y = true)); [|apply get_messages_sorted|done|].
  - intros x y Hx Hy H1 H2. unfold by_sequence in *. rewrite !Z.leb_le in *.
    apply elem_of_get_messages in Hx as [Hx _]. rewrite Hp in Hy. apply list_elem_of_filter in Hy as [_ Hy].
    apply elem_of_session_messages in Hx as [n1 Hx], Hy as [n2 Hy].
    destruct (Hk _ _ Hx) as [_ E1], (Hk _ _ Hy) as [_ E2]. simpl in *.
    assert (n1 = n2) as -> by lia. congruence.
  - unfold get_messages_from_sequence. by rewrite order_by_perm, Hp.
Qed.

End Replay.

Lemma session_messages_insert (sid sid' : string) (n : Z) (m : MessageRow) (d : DaemonDb) t k c w g :
  db_messages d !! (sid, n) = None →
  session_messages sid' (mkDaemonDb t (<[(sid, n) := m]> (db_messages d)) k c w g) ≡ₚ
    (if decide (sid = sid') then [m] else []) ++ session_messages sid' d.
Proof.
  intros Hn. unfold session_messages. simpl. case_decide as Hs.
  - subst sid'. rewrite map_filter_insert_True by done. rewrite map_to_list_insert; [done|].
    apply map_lookup_filter_None. by left.
  - rewrite map_filter_insert_False by (simpl; congruence). rewrite delete_id by done. done.
Qed.

(** Storing a message with a number above all others of its session appends
    it to every reply. *)
Lemma insert_message_appends {SO : SqlOrder} (now : Z) (sid : string) (n from : Z) (ty : string) (payload : list Z) (d : DaemonDb) :
  messages_keyed d → is_Some (db_sessions d !! sid) → ty ∈ message_types →
  (∀ k m, db_messages d !! (sid, k) = Some m → (k < n)%Z) → (from < n)%Z →
  let d' := (insert_message now sid n ty payload d).1 in
  get_messages_from_sequence sid from d' =
    get_messages_from_sequence sid from d ++ [mkMessageRow (db_next_message d) sid n ty payload now] ∧
  messages_keyed d' ∧ (insert_message now sid n ty payload d).2 = Ok (db_next_message d) ∧
  db_sessions d' = db_sessions d ∧
  (∀ k m, db_messages d' !! k = Some m → db_messages d !! k = Some m ∨ k = (sid, n)).
Proof.
  intros Hk [s Hs] Hty Hmax Hfrom. unfold insert_message. rewrite decide_False by tauto.
  assert (db_messages d !! (sid, n) = None) as Hn.
  { destruct (db_messages d !! (sid, n)) as [m|] eqn:E; [|done]. apply Hmax in E. lia. }
  rewrite Hn, Hs. cbn [fst snd]. set (row := mkMessageRow _ _ _ _ _ _).
  assert (messages_keyed (mkDaemonDb (db_sessions d) (<[(sid, n):=row]> (db_messages d)) (db_next_message d + 1)
    (db_clients d) (db_worktrees d) (db_repos d))) as Hk'.
  { intros k m. simpl. rewrite lookup_insert. case_decide as Hkn; [|apply Hk]. intros [= <-]. by subst k. }
  split_and!; try done.
  - apply get_messages_unique; [done| |].
    + apply StronglySorted_app_2; [|apply get_messages_sorted|repeat constructor].
      intros x y Hx ->%list_elem_of_singleton. apply elem_of_get_messages in Hx as [Hx _].
      apply elem_of_session_messages in Hx as [k Hx]. destruct (Hk _ _ Hx) as [_ E]. apply Hmax in Hx.
      unfold by_sequence. apply Z.leb_le. simpl in *. lia.
    + rewrite (session_messages_insert sid sid n row d) by done. rewrite decide_True by done.
      simpl. rewrite filter_cons_True by done. unfold get_messages_from_sequence. rewrite order_by_perm.
      by rewrite Permutation_app_comm.
  - intros k m. simpl. rewrite lookup_insert. case_decide; [|by left]. intros _. right. done.
Qed.
