(* ===== verification/CryptoSession.v ===== *)
(** End-to-end encryption between the CLI and the daemon: key exchange,
    sessions, nonces, and the concurrent counter behind them.

    Models crates/betcode-crypto/src/: session.rs, exchange.rs, error.rs.
    A byte is a [Z] in [0, 255].  The primitives (X25519, HKDF-SHA256,
    ChaCha20-Poly1305) are third-party code: they are the operations of the
    class [Primitives], with the laws the crate relies on.  Random bytes are
    arguments of the functions that draw them. *)
From stdpp Require Import gmap strings list list_numbers relations.
From Stdlib Require Import ZArith Lia.
From S2P Require Import Prelude.

(** * Data *)

Inductive CryptoError :=
| EncryptionFailed (message : string)
| DecryptionFailed (message : string)
| InvalidKeyLength (expected actual : nat)
| InvalidNonceLength (expected actual : nat)
| KeyDerivationFailed (message : string)
| SerializationError (message : string)
| NonceExhausted
| IoError (message : string).

Notation bytes := (list Z).

Definition NONCE_SIZE : nat := 12.

Record EncryptedData := mkEncrypted {
  ciphertext : bytes;
  enc_nonce : bytes
}.

(** The primitives.  [dh_comm] is the agreement property of Diffie-Hellman,
    [open_seal] the correctness of the AEAD. *)
Class Primitives := {
  public_of : bytes → bytes;
  diffie_hellman : bytes → bytes → bytes;
  hkdf_sha256 : bytes → bytes → bytes → result string bytes;   (* salt, secret, info *)
  aead_encrypt : bytes → bytes → bytes → result string bytes;  (* key, nonce, plaintext *)
  aead_decrypt : bytes → bytes → bytes → result string bytes;  (* key, nonce, ciphertext *)
  public_of_length : ∀ sk, length (public_of sk) = 32;
  dh_comm : ∀ a b, diffie_hellman a (public_of b) = diffie_hellman b (public_of a);
  open_seal : ∀ key nonce p c, aead_encrypt key nonce p = Ok c → aead_decrypt key nonce c = Ok p
}.

Record CryptoSession := mkCryptoSession {
  cipher : bytes;          (* the key the cipher was made from *)
  nonce_prefix : bytes;
  nonce_counter : Z
}.

Definition map_err {E F A : Type} (f : E → F) (r : result E A) : result F A :=
  match r with Ok a => Ok a | Err e => Err (f e) end.

Fixpoint string_bytes (s : string) : bytes :=
  match s with
  | EmptyString => []
  | String c s' => Z.of_nat (Ascii.nat_of_ascii c) :: string_bytes s'
  end.

Definition HKDF_INFO : bytes := string_bytes "betcode-e2e-session-v1".
Definition HKDF_SALT : bytes := string_bytes "betcode-e2e-hkdf-salt-v1".

(** [u32::to_be_bytes] *)
Definition to_be_bytes (n : Z) : bytes :=
  [Z.land (Z.shiftr n 24) 255; Z.land (Z.shiftr n 16) 255; Z.land (Z.shiftr n 8) 255; Z.land n 255].

(** The twelve bytes made of a counter value and the session's prefix. *)
Definition nonce_bytes (prefix : bytes) (prev : Z) : bytes := to_be_bytes prev ++ prefix.
Arguments nonce_bytes : simpl never.

(** * Sessions *)

Section Session.
Context {PR : Primitives}.

Definition hkdf_derive (shared_secret : bytes) : result CryptoError bytes :=
  map_err KeyDerivationFailed (hkdf_sha256 HKDF_SALT shared_secret HKDF_INFO).

(** [rand] is what the system generator puts into the nonce prefix. *)
Definition from_shared_secret (rand shared_secret : bytes) : result CryptoError CryptoSession :=
  let? key := hkdf_derive shared_secret in
  Ok (mkCryptoSession key rand 0).

Definition from_keypairs (rand local_secret remote_public : bytes) : result CryptoError CryptoSession :=
  from_shared_secret rand (diffie_hellman local_secret remote_public).

(** The nonce a call gets when no other call interferes: the loop's only
    iteration.  [NonceRace] below is the loop among other callers. *)
Definition next_nonce (s : CryptoSession) : CryptoSession * result CryptoError bytes :=
  let current := nonce_counter s in
  if decide (current = u32_max) then (s, Err NonceExhausted)
  else (mkCryptoSession (cipher s) (nonce_prefix s) (current + 1),
        Ok (nonce_bytes (nonce_prefix s) current)).

Definition encrypt (plaintext : bytes) (s : CryptoSession) : CryptoSession * result CryptoError EncryptedData :=
  let '(s', r) := next_nonce s in
  (s', let? nonce := r in
       let? c := map_err EncryptionFailed (aead_encrypt (cipher s) nonce plaintext) in
       Ok (mkEncrypted c nonce)).

Definition decrypt (s : CryptoSession) (c nonce : bytes) : result CryptoError bytes :=
  if decide (length nonce = NONCE_SIZE) then map_err DecryptionFailed (aead_decrypt (cipher s) nonce c)
  else Err (InvalidNonceLength NONCE_SIZE (length nonce)).

(** Messages sent one after the other; what each attempt returned. *)
Fixpoint encrypt_all (msgs : list bytes) (s : CryptoSession) : CryptoSession * list (result CryptoError EncryptedData) :=
  match msgs with
  | [] => (s, [])
  | p :: rest =>
      let '(s', r) := encrypt p s in
      let '(s'', rs) := encrypt_all rest s' in
      (s'', r :: rs)
  end.

(** * Key exchange (exchange.rs) *)

Record KeyExchangeState := mkExchange {
  ephemeral_secret : bytes;
  ephemeral_public : bytes;
  identity : option (bytes * bytes)   (* secret, public *)
}.

Definition with_identity_opt (rand : bytes) (id : option (bytes * bytes)) : KeyExchangeState :=
  mkExchange rand (public_of rand) id.

Definition exchange_new (rand : bytes) : KeyExchangeState := with_identity_opt rand None.

Definition with_identity (rand : bytes) (id : bytes * bytes) : KeyExchangeState :=
  with_identity_opt rand (Some id).

Definition public_bytes (st : KeyExchangeState) : bytes := ephemeral_public st.

Definition complete (rand : bytes) (st : KeyExchangeState) (peer_public_bytes : bytes)
  : result CryptoError CryptoSession :=
  if decide (length peer_public_bytes = 32)
  then from_keypairs rand (ephemeral_secret st) peer_public_bytes
  else Err (InvalidKeyLength 32 (length peer_public_bytes)).

End Session.

(** * The counter under concurrent callers

    [next_nonce] is a loop of a relaxed load and a weak compare-exchange on
    one atomic counter, run by any number of callers at once.  A relaxed load
    may return any value the counter has had; a compare-exchange acts on the
    current value and may fail without reason. *)

Module NonceRace.

(** Where a caller is in the loop of [next_nonce]. *)
Inductive Pc :=
| Looping
| Loaded (current : Z)
| Returned (r : option Z).   (* the previous counter value, or exhaustion *)

Record Config := mkConfig {
  counter : Z;
  callers : gmap nat Pc;
  issued : list (nat * Z)     (* successful exchanges, in order *)
}.

Inductive step : Config → Config → Prop :=
| step_call t c :
    callers c !! t = None →
    step c (mkConfig (counter c) (<[t := Looping]> (callers c)) (issued c))
| step_load t c current :
    callers c !! t = Some Looping → (0 ≤ current ≤ counter c)%Z → current ≠ u32_max →
    step c (mkConfig (counter c) (<[t := Loaded current]> (callers c)) (issued c))
| step_exhausted t c current :
    callers c !! t = Some Looping → (0 ≤ current ≤ counter c)%Z → current = u32_max →
    step c (mkConfig (counter c) (<[t := Returned None]> (callers c)) (issued c))
| step_exchange t c current :
    callers c !! t = Some (Loaded current) → counter c = current →
    step c (mkConfig (wrap_u32 (current + 1)) (<[t := Returned (Some current)]> (callers c)) (issued c ++ [(t, current)]))
| step_retry t c current :
    callers c !! t = Some (Loaded current) →
    step c (mkConfig (counter c) (<[t := Looping]> (callers c)) (issued c)).

Definition start : Config := mkConfig 0 ∅ [].

End NonceRace.

(** * A toy instance of the primitives, for examples *)

Program Definition toy_primitives : Primitives := {|
  public_of sk := (default 0 (head sk) * 9)%Z :: replicate 31 0%Z;
  diffie_hellman a b := [(default 0 (head a) * default 0 (head b))%Z];
  hkdf_sha256 salt secret info := Ok (salt ++ secret ++ info);
  aead_encrypt key nonce p := Ok (key ++ nonce ++ p);
  aead_decrypt key nonce c :=
    if decide (take (length key + length nonce) c = key ++ nonce)
    then Ok (drop (length key + length nonce) c) else Err "aead::Error"
|}.
Next Obligation. done. Qed.
Next Obligation. intros a b. simpl. f_equal. lia. Qed.
Next Obligation.
  intros key nonce p c [= <-]. rewrite app_assoc, <- length_app, take_app_length, drop_app_length.
  by rewrite decide_True.
Qed.

(** * Nonces *)

Definition is_u32 (n : Z) : Prop := (0 ≤ n ≤ u32_max)%Z.

Lemma to_be_bytes_inj (a b : Z) : is_u32 a → is_u32 b → to_be_bytes a = to_be_bytes b → a = b.
Proof.
  unfold is_u32, u32_max, to_be_bytes. intros Ha Hb [= H1 H2 H3 H4].
  change 255%Z with (Z.ones 8) in *. rewrite !Z.land_ones, !Z.shiftr_div_pow2 in * by lia.
  change (2 ^ 24)%Z with 16777216%Z in *. change (2 ^ 16)%Z with 65536%Z in *. change (2 ^ 8)%Z with 256%Z in *.
  Z.div_mod_to_equations. lia.
Qed.

Lemma nonce_bytes_inj (p q : bytes) (a b : Z) :
  is_u32 a → is_u32 b → nonce_bytes p a = nonce_bytes q b → a = b ∧ p = q.
Proof.
  intros Ha Hb H. unfold nonce_bytes in H. apply app_inj_1 in H as [H ->]; [|done].
  split; [|done]. by apply to_be_bytes_inj.
Qed.

Lemma nonce_bytes_length (p : bytes) (a : Z) : length p = 8 → length (nonce_bytes p a) = NONCE_SIZE.
Proof. intros Hp. unfold nonce_bytes. rewrite length_app, Hp. done. Qed.

(** * The invariant of the race *)

Section Race.
Import NonceRace.

Record race_inv (c : Config) : Prop := {
  ri_range : is_u32 (counter c);
  ri_issued : (issued c).*2 = seqZ 0 (counter c);
  ri_loaded : ∀ t v, callers c !! t = Some (Loaded v) → (0 ≤ v)%Z ∧ v ≠ u32_max;
  ri_returned : ∀ t v, callers c !! t = Some (Returned (Some v)) ↔ (t, v) ∈ issued c;
  ri_exhausted : ∀ t, callers c !! t = Some (Returned None) → counter c = u32_max
}.

(** A caller that has not returned moves to another place in the loop. *)
Lemma race_inv_move (c : Config) (t : nat) (pc : Pc) :
  race_inv c → (∀ r, callers c !! t ≠ Some (Returned r)) →
  (∀ v, pc = Loaded v → (0 ≤ v)%Z ∧ v ≠ u32_max) →
  (∀ v, pc ≠ Returned (Some v)) → (pc = Returned None → counter c = u32_max) →
  race_inv (mkConfig (counter c) (<[t := pc]> (callers c)) (issued c)).
Proof.
  intros [Hr Hi Hl Hret He] Ht Hpc Hns Hex. split; simpl; [done|done|..].
  - intros k v. rewrite lookup_insert. case_decide; [|apply Hl]. intros [= Hv]. by apply Hpc.
  - intros k v. rewrite lookup_insert. case_decide; [|apply Hret]. subst k. rewrite <- Hret. split.
    + intros [= Hv]. by destruct (Hns v).
    + intros Hv. by destruct (Ht (Some v)).
  - intros k. rewrite lookup_insert. case_decide; [|apply He]. intros [= Hv]. by apply Hex.
Qed.

Lemma race_step_inv (c c' : Config) : step c c' → race_inv c → race_inv c'.
Proof.
  intros Hstep Hinv. destruct Hstep as [t c Ht|t c v Ht Hv Hm|t c v Ht Hv Hm|t c v Ht Hc|t c v Ht].
  - apply race_inv_move; try done. rewrite Ht. done.
  - apply race_inv_move; try done; [rewrite Ht; done|]. intros ? [= <-]. lia.
  - apply race_inv_move; try done; [rewrite Ht; done|]. intros _.
    destruct Hinv as [[_ Hr] _ _ _ _]. lia.
  - destruct Hinv as [Hr Hi Hl Hret He]. destruct (Hl t v Ht) as [_ Hm]. subst v. unfold is_u32 in *.
    assert (wrap_u32 (counter c + 1) = (counter c + 1)%Z) as Hw.
    { unfold wrap_u32. apply Z.mod_small. unfold u32_max in *. lia. }
    rewrite Hw. split; simpl.
    + unfold is_u32. lia.
    + rewrite fmap_app, Hi, seqZ_app by lia. done.
    + intros k v. rewrite lookup_insert. case_decide; [done|apply Hl].
    + intros k v. rewrite lookup_insert, elem_of_app, list_elem_of_singleton. case_decide as Hk.
      * subst k. rewrite <- Hret, Ht. naive_solver.
      * rewrite <- Hret. naive_solver.
    + intros k. rewrite lookup_insert. case_decide; [done|]. intros Hk. apply He in Hk. lia.
  - apply race_inv_move; try done. rewrite Ht. done.
Qed.

Lemma race_inv_reachable (c : Config) : rtc step start c → race_inv c.
Proof.
  revert c. apply rtc_ind_r; [|eauto using race_step_inv].
  split; simpl; [unfold is_u32, u32_max; lia|done|by intros ? ?; rewrite lookup_empty| |by intros ?; rewrite lookup_empty].
  intros t v. rewrite lookup_empty. split; [done|]. by intros ?%elem_of_nil.
Qed.

(** C6: Nonces of concurrent callers, under every interleaving, every stale
    relaxed load and every spurious failure of the exchange: the successful
    calls get the counter values 0, 1, 2, ... in the order of their
    exchanges, so that two calls never return the same twelve bytes; the
    counter never wraps; a call fails only when every 32-bit value but the
    last has been used; and a caller that is left alone returns. *)
Theorem concurrent_nonces_unique (c : Config) :
  rtc step start c →
  (issued c).*2 = seqZ 0 (counter c) ∧ is_u32 (counter c) ∧
  (∀ t1 t2 v1 v2 prefix, t1 ≠ t2 →
     callers c !! t1 = Some (Returned (Some v1)) → callers c !! t2 = Some (Returned (Some v2)) →
     nonce_bytes prefix v1 ≠ nonce_bytes prefix v2) ∧
  (∀ t, callers c !! t = Some (Returned None) → counter c = u32_max) ∧
  (∀ t, callers c !! t = Some Looping →
     ∃ c' r, rtc step c c' ∧ callers c' !! t = Some (Returned r)).
Proof.
  intros Hc. destruct (race_inv_reachable c Hc) as [Hr Hi Hl Hret He]. split_and!; try done.
  - intros t1 t2 v1 v2 prefix Hne H1%Hret H2%Hret Heq.
    assert (∀ t v, (t, v) ∈ issued c → is_u32 v) as Hu.
    { intros t v Hin. assert (v ∈ (issued c).*2) as Hv by (apply list_elem_of_fmap; by exists (t, v)).
      rewrite Hi, elem_of_seqZ in Hv. unfold is_u32 in *. lia. }
    apply nonce_bytes_inj in Heq as [-> _]; [|by eapply Hu..].
    apply Hne. apply list_elem_of_lookup in H1 as [i H1]. apply list_elem_of_lookup in H2 as [j H2].
    assert (i = j) as <-; [|congruence].
    apply (NoDup_lookup ((issued c).*2) i j v2); [rewrite Hi; apply NoDup_seqZ|..];
      rewrite list_lookup_fmap; [by rewrite H1|by rewrite H2].
  - intros t Ht. destruct (decide (counter c = u32_max)) as [Hm|Hm].
    + eexists _, None. split; [apply rtc_once; eapply (step_exhausted t c (counter c)); [done| |done]|].
      * unfold is_u32 in Hr. lia.
      * simpl. by rewrite lookup_insert_eq.
    + eexists _, (Some (counter c)). split.
      * eapply rtc_l; [eapply (step_load t c (counter c)); [done| |done]; unfold is_u32 in Hr; lia|].
        apply rtc_once. eapply (step_exchange t _ (counter c)); [simpl; by rewrite lookup_insert_eq|done].
      * simpl. by rewrite lookup_insert_eq.
Qed.

(** Two callers that load the same value: the exchange of the second fails
    and it gets the next value. *)
Lemma concurrent_nonces_unique_witness :
  let c := mkConfig 2 {[0 := Returned (Some 0%Z); 1 := Returned (Some 1%Z)]} [(0, 0%Z); (1, 1%Z)] in
  nonce_bytes [1; 2; 3; 4; 5; 6; 7; 8]%Z 0 ≠ nonce_bytes [1; 2; 3; 4; 5; 6; 7; 8]%Z 1 ∧
  (issued c).*2 = seqZ 0 2.
Proof.
  intros c. destruct (concurrent_nonces_unique c) as (Hi & _ & Hd & _).
  - eapply rtc_l; [apply (step_call 0); reflexivity|].
    eapply rtc_l; [apply (step_call 1); reflexivity|].
    eapply rtc_l; [apply (step_load 0 _ 0%Z); [reflexivity|vm_compute; split; congruence|done]|].
    eapply rtc_l; [apply (step_load 1 _ 0%Z); [reflexivity|vm_compute; split; congruence|done]|].
    eapply rtc_l; [apply (step_exchange 0 _ 0%Z); reflexivity|].
    eapply rtc_l; [apply (step_retry 1 _ 0%Z); reflexivity|].
    eapply rtc_l; [apply (step_load 1 _ 1%Z); [reflexivity|vm_compute; split; congruence|done]|].
    eapply rtc_l; [apply (step_exchange 1 _ 1%Z); reflexivity|].
    lazymatch goal with |- rtc _ ?a ?b => assert (a = b) as -> by reflexivity end. apply rtc_refl.
  - split; [|exact Hi]. apply (Hd 0 1 0%Z 1%Z); [done|reflexivity..].
Defined.

End Race.

(** * Messages between two sessions *)

Section Messages.
Context {PR : Primitives}.

(** The nonces of the messages that were encrypted. *)
Definition used_nonces (rs : list (result CryptoError EncryptedData)) : list bytes :=
  omap (λ r, match r with Ok d => Some (enc_nonce d) | Err _ => None end) rs.

Lemma next_nonce_spec (s : CryptoSession) :
  next_nonce s = (s, Err NonceExhausted) ∧ nonce_counter s = u32_max ∨
  nonce_counter s ≠ u32_max ∧
  next_nonce s = (mkCryptoSession (cipher s) (nonce_prefix s) (nonce_counter s + 1),
                  Ok (nonce_bytes (nonce_prefix s) (nonce_counter s))).
Proof. unfold next_nonce. case_decide; auto. Qed.

(** What a run of encryptions leaves unchanged, and which nonces it uses:
    counter values from where it started, each at most once. *)
Lemma encrypt_all_nonces (msgs : list bytes) (s : CryptoSession) :
  is_u32 (nonce_counter s) →
  let '(s', rs) := encrypt_all msgs s in
  cipher s' = cipher s ∧ nonce_prefix s' = nonce_prefix s ∧
  (nonce_counter s ≤ nonce_counter s')%Z ∧ is_u32 (nonce_counter s') ∧
  NoDup (used_nonces rs) ∧
  (∀ n, n ∈ used_nonces rs →
     ∃ v, (nonce_counter s ≤ v < nonce_counter s')%Z ∧ n = nonce_bytes (nonce_prefix s) v).
Proof.
  unfold is_u32. revert s. induction msgs as [|p msgs IH]; intros s Hr; simpl.
  { split_and!; try done; try lia; [constructor|]. by intros n ?%elem_of_nil. }
  unfold encrypt. destruct (next_nonce_spec s) as [[-> _]|[Hm ->]]; cbn [result_bind].
  - specialize (IH s Hr). destruct (encrypt_all msgs s) as [s' rs]. done.
  - set (s1 := mkCryptoSession _ _ _) in *. specialize (IH s1 ltac:(simpl in *; lia)).
    destruct (encrypt_all msgs s1) as [s' rs]. destruct IH as (H1 & H2 & H3 & H4 & H5 & H6). simpl in *.
    destruct (aead_encrypt _ _ p) as [c|e]; simpl; (split_and!; [done|done|lia|lia|lia| |]).
    + constructor; [|done]. intros (v & Hv & Heq)%H6.
      apply nonce_bytes_inj in Heq as [? _]; unfold is_u32; lia.
    + intros n [->|Hn]%elem_of_cons; [exists (nonce_counter s); split; [lia|done]|].
      destruct (H6 n Hn) as (v & ? & ->). exists v. split; [lia|done].
    + done.
    + intros n Hn. destruct (H6 n Hn) as (v & ? & ->). exists v. split; [lia|done].
Qed.

(** One message: what a success does to the session, and that it opens. *)
Lemma encrypt_opens (s s' s2 : CryptoSession) (p : bytes) (d : EncryptedData) :
  encrypt p s = (s', Ok d) → cipher s2 = cipher s → length (nonce_prefix s) = 8 →
  decrypt s2 (ciphertext d) (enc_nonce d) = Ok p ∧ enc_nonce d ≠ [] ∧
  s' = mkCryptoSession (cipher s) (nonce_prefix s) (nonce_counter s + 1).
Proof.
  unfold encrypt. destruct (next_nonce_spec s) as [[-> _]|[Hm ->]]; cbn [result_bind]; [done|].
  destruct (aead_encrypt _ _ p) as [c|e] eqn:He; [|done]. intros [= <- <-] Hc Hp. cbn [ciphertext enc_nonce].
  pose proof (nonce_bytes_length (nonce_prefix s) (nonce_counter s) Hp) as Hl.
  split_and!; [|by intros Hn; rewrite Hn in Hl|done].
  unfold decrypt. rewrite decide_True by done. rewrite Hc. by rewrite (open_seal _ _ _ _ He).
Qed.

Lemma encrypt_all_open (s s2 : CryptoSession) (msgs : list bytes) (i : nat) (p : bytes) (d : EncryptedData) :
  cipher s2 = cipher s → length (nonce_prefix s) = 8 →
  msgs !! i = Some p → (encrypt_all msgs s).2 !! i = Some (Ok d) →
  decrypt s2 (ciphertext d) (enc_nonce d) = Ok p.
Proof.
  revert s i. induction msgs as [|q msgs IH]; intros s i Hc Hp Hi; [done|]. simpl.
  unfold encrypt. destruct (next_nonce_spec s) as [[-> _]|[Hm ->]]; cbn [result_bind].
  - specialize (IH s). destruct (encrypt_all msgs s) as [s' rs]. destruct i as [|i]; simpl in *; [done|].
    by apply IH.
  - set (s1 := mkCryptoSession _ _ _). specialize (IH s1).
    destruct (encrypt_all msgs s1) as [s' rs]. destruct i as [|i]; simpl in *; [|by apply IH].
    injection Hi as ->. destruct (aead_encrypt _ _ p) as [c|e] eqn:He; [|done].
    intros [= <-]. unfold decrypt. cbn [ciphertext enc_nonce]. rewrite decide_True by (by apply nonce_bytes_length).
    rewrite Hc. by rewrite (open_seal _ _ _ _ He).
Qed.

Lemma complete_key (rand : bytes) (st : KeyExchangeState) (peer : bytes) (s : CryptoSession) :
  complete rand st peer = Ok s →
  hkdf_sha256 HKDF_SALT (diffie_hellman (ephemeral_secret st) peer) HKDF_INFO = Ok (cipher s) ∧
  nonce_prefix s = rand ∧ nonce_counter s = 0%Z.
Proof.
  unfold complete, from_keypairs, from_shared_secret, hkdf_derive. case_decide; [|done].
  destruct (hkdf_sha256 _ _ _) as [key|e]; [|done]. simpl. by intros [= <-].
Qed.

(** Two parties that exchanged ephemeral public keys: everything one of them
    encrypts, the other decrypts to the same bytes, in any order; no nonce is
    used twice by a session, nor by both sessions when their random prefixes
    differ. *)
Theorem exchanged_sessions_communicate (ra rb : bytes) (a b : KeyExchangeState) (sa sb : CryptoSession)
    (msgs_a msgs_b : list bytes) :
  ephemeral_public a = public_of (ephemeral_secret a) →
  ephemeral_public b = public_of (ephemeral_secret b) →
  length ra = 8 → length rb = 8 → ra ≠ rb →
  complete ra a (public_bytes b) = Ok sa → complete rb b (public_bytes a) = Ok sb →
  (∀ i p d, msgs_a !! i = Some p → (encrypt_all msgs_a sa).2 !! i = Some (Ok d) →
     decrypt sb (ciphertext d) (enc_nonce d) = Ok p) ∧
  (∀ i p d, msgs_b !! i = Some p → (encrypt_all msgs_b sb).2 !! i = Some (Ok d) →
     decrypt sa (ciphertext d) (enc_nonce d) = Ok p) ∧
  NoDup (used_nonces (encrypt_all msgs_a sa).2 ++ used_nonces (encrypt_all msgs_b sb).2).
Proof.
  unfold public_bytes. intros Ha Hb Hla Hlb Hne (Hka & Hpa & Hna)%complete_key (Hkb & Hpb & Hnb)%complete_key.
  rewrite Hb in Hka. rewrite Ha, dh_comm in Hkb.
  assert (cipher sb = cipher sa) as Hkey by congruence.
  assert (is_u32 (nonce_counter sa)) as Hua by (rewrite Hna; unfold is_u32, u32_max; lia).
  assert (is_u32 (nonce_counter sb)) as Hub by (rewrite Hnb; unfold is_u32, u32_max; lia).
  split_and!.
  - intros i p d. apply encrypt_all_open; congruence.
  - intros i p d. apply encrypt_all_open; congruence.
  - pose proof (encrypt_all_nonces msgs_a sa Hua) as HA. pose proof (encrypt_all_nonces msgs_b sb Hub) as HB.
    destruct (encrypt_all msgs_a sa) as [sa' rsa], (encrypt_all msgs_b sb) as [sb' rsb].
    destruct HA as (_ & _ & _ & Ha4 & Ha5 & Ha6), HB as (_ & _ & _ & Hb4 & Hb5 & Hb6). simpl.
    unfold is_u32 in *. apply NoDup_app. split_and!; [done| |done].
    intros n (v & Hv & Hn)%Ha6 (w & Hw & Hn')%Hb6. rewrite Hn in Hn'.
    apply nonce_bytes_inj in Hn' as [_ ?]; [congruence|unfold is_u32; lia..].
Qed.

(** The last nonce: once the counter has reached the largest 32-bit value,
    every attempt is refused and the session does not change; before that, a
    nonce is always available. *)
Theorem nonces_run_out (s : CryptoSession) (msgs : list bytes) :
  is_u32 (nonce_counter s) →
  (nonce_counter s = u32_max → encrypt_all msgs s = (s, replicate (length msgs) (Err NonceExhausted))) ∧
  (nonce_counter s ≠ u32_max → ∀ p, (encrypt p s).2 ≠ Err NonceExhausted ∧
     nonce_counter (encrypt p s).1 = (nonce_counter s + 1)%Z).
Proof.
  intros Hr. split.
  - intros Hm. induction msgs as [|p msgs IH]; [done|]. simpl. unfold encrypt, next_nonce.
    rewrite Hm, decide_True by done. simpl. by rewrite IH.
  - intros Hm p. unfold encrypt, next_nonce. rewrite decide_False by done. simpl.
    by destruct (aead_encrypt _ _ p).
Qed.

(** The length checks at the boundary: peer keys of 32 bytes, nonces of 12. *)
Theorem lengths_checked (rand : bytes) (st : KeyExchangeState) (peer : bytes) (s : CryptoSession) (c nonce : bytes) :
  (length peer ≠ 32 → complete rand st peer = Err (InvalidKeyLength 32 (length peer))) ∧
  (length nonce ≠ 12 → decrypt s c nonce = Err (InvalidNonceLength 12 (length nonce))).
Proof.
  split; intros H; [unfold complete|unfold decrypt, NONCE_SIZE]; by rewrite decide_False.
Qed.

End Messages.

(** * Witnesses, with the toy primitives *)

Definition toy_exchange (secret : Z) : KeyExchangeState := exchange_new (PR := toy_primitives) [secret].

Definition toy_session (rand secret peer : Z) : CryptoSession :=
  match complete (PR := toy_primitives) (replicate 8 rand) (toy_exchange secret)
          (public_bytes (toy_exchange peer)) with
  | Ok s => s
  | Err _ => mkCryptoSession [] [] 0
  end.

Lemma exchanged_sessions_communicate_witness :
  decrypt (PR := toy_primitives) (toy_session 2 5 3) (cipher (toy_session 1 3 5) ++ nonce_bytes (replicate 8 1%Z) 0 ++ [7%Z])
    (nonce_bytes (replicate 8 1%Z) 0) = Ok [7%Z].
Proof.
  destruct (exchanged_sessions_communicate (PR := toy_primitives) (replicate 8 1%Z) (replicate 8 2%Z)
              (toy_exchange 3) (toy_exchange 5) (toy_session 1 3 5) (toy_session 2 5 3) [[7%Z]] []) as [H _];
    [reflexivity..| |reflexivity|reflexivity|].
  - done.
  - apply (H 0 [7%Z] (mkEncrypted (cipher (toy_session 1 3 5) ++ nonce_bytes (replicate 8 1%Z) 0 ++ [7%Z])
                        (nonce_bytes (replicate 8 1%Z) 0))); reflexivity.
Defined.

Lemma nonces_run_out_witness :
  encrypt_all (PR := toy_primitives) [[1%Z]; [2%Z]] (mkCryptoSession [9%Z] (replicate 8 1%Z) u32_max) =
  (mkCryptoSession [9%Z] (replicate 8 1%Z) u32_max, [Err NonceExhausted; Err NonceExhausted]).
Proof.
  apply (nonces_run_out (PR := toy_primitives) (mkCryptoSession [9%Z] (replicate 8 1%Z) u32_max) [[1%Z]; [2%Z]]).
  - unfold is_u32, u32_max. simpl. lia.
  - reflexivity.
Defined.
