(* ===== verification/Fingerprint.v ===== *)
(** Identity keys, their fingerprints, the trust-on-first-use store and the
    visual fingerprint.

    Models crates/betcode-crypto/src/: identity.rs, fingerprint_store.rs,
    fingerprint_visual.rs and verify_fingerprint/constant_time_str_eq of
    exchange.rs.  SHA-256 is third-party code: an operation of the class
    [Sha256] that returns 32 bytes.  The file of the store is in
    [ClientConfig]. *)
From stdpp Require Import gmap strings list.
From Stdlib Require Import ZArith Lia.
From S2P Require Import Prelude CryptoSession.

Class Sha256 := {
  sha256 : bytes → bytes;
  sha256_length : ∀ b, length (sha256 b) = 32;
  sha256_bytes : ∀ b, Forall (λ x, 0 ≤ x < 256)%Z (sha256 b)
}.

(** * Fingerprints (identity.rs, exchange.rs) *)

Definition hex_digit (n : Z) : Ascii.ascii :=
  Ascii.ascii_of_nat (Z.to_nat (if (n <? 10)%Z then 48 + n else 87 + n)).

(** [format!("{b:02x}")] *)
Definition hex_byte (b : Z) : string :=
  String (hex_digit (b / 16)) (String (hex_digit (b mod 16)) EmptyString).

Definition fingerprint_of {SH : Sha256} (pubkey : bytes) : string :=
  join ":" (hex_byte <$> sha256 pubkey).

Definition constant_time_str_eq (a b : string) : bool :=
  if decide (String.length a = String.length b)
  then bool_decide (string_bytes a = string_bytes b)
  else false.

Definition verify_fingerprint {SH : Sha256} (pubkey : bytes) (expected : string) : bool :=
  constant_time_str_eq (fingerprint_of pubkey) expected.

(** * Identity key pairs and their file (identity.rs) *)

Record IdentityKeyPair := mkIdentity {
  id_secret : bytes;
  id_public : bytes
}.

(** A file: its content and its permission bits. *)
Record File := mkFile {
  content : bytes;
  mode : Z
}.

Notation FileSystem := (gmap string File).

Section Identity.
Context {PR : Primitives}.

Definition generate (rand : bytes) : IdentityKeyPair := mkIdentity rand (public_of rand).

Definition from_secret_bytes (b : bytes) : result CryptoError IdentityKeyPair :=
  if decide (length b = 32) then Ok (mkIdentity b (public_of b))
  else Err (InvalidKeyLength 32 (length b)).

(** [fs::write]: a file that exists keeps its mode, a new one gets the
    process's default; [set_permissions] follows. *)
Definition save_to_file (umask_mode : Z) (has_parent : bool) (path : string) (kp : IdentityKeyPair) (fs : FileSystem)
  : FileSystem * result CryptoError unit :=
  if has_parent then
    let fs1 := <[path := mkFile (id_secret kp) (from_option mode umask_mode (fs !! path))]> fs in
    (alter (λ f, mkFile (content f) 384) path fs1, Ok tt)
  else (fs, Err (IoError "path has no parent directory")).

(** [format!("{mode:o}")] of permission bits. *)
Definition octal_digit (n : Z) : string := String (hex_digit n) EmptyString.
Definition octal (m : Z) : string :=
  if (m <? 8)%Z then octal_digit m
  else if (m <? 64)%Z then octal_digit (m / 8) +:+ octal_digit (m mod 8)
  else octal_digit (m / 64) +:+ octal_digit (m / 8 mod 8) +:+ octal_digit (m mod 8).

(** [read_exact] of 32 bytes from a file of mode 0600 (384). *)
Definition load_from_file (path : string) (fs : FileSystem) : result CryptoError IdentityKeyPair :=
  match fs !! path with
  | None => Err (IoError "entity not found")
  | Some f =>
      if decide (Z.land (mode f) 511 = 384%Z) then
        if decide (32 ≤ length (content f)) then from_secret_bytes (take 32 (content f))
        else Err (IoError "failed to fill whole buffer")
      else Err (IoError ("Identity key file has insecure permissions: " +:+ octal (Z.land (mode f) 511) +:+ " (expected 600)"))
  end.

Definition load_or_generate (umask_mode : Z) (has_parent : bool) (rand : bytes) (path : string) (fs : FileSystem)
  : FileSystem * result CryptoError IdentityKeyPair :=
  match fs !! path with
  | Some _ => (fs, load_from_file path fs)
  | None =>
      let kp := generate rand in
      let '(fs', r) := save_to_file umask_mode has_parent path kp fs in
      (fs', let? _ := r in Ok kp)
  end.

End Identity.

(** * The trust-on-first-use store (fingerprint_store.rs) *)

Record KnownDaemon := mkKnown {
  kd_machine_id : string;
  kd_fingerprint : string;
  first_seen : Z;
  last_seen : Z;
  verified : bool
}.

Notation FingerprintStore := (gmap string KnownDaemon).

Inductive FingerprintCheck :=
| TrustOnFirstUse
| Matched
| Mismatch (expected actual : string).

Definition check (machine_id fingerprint : string) (st : FingerprintStore) : FingerprintCheck :=
  match st !! machine_id with
  | None => TrustOnFirstUse
  | Some known =>
      if constant_time_str_eq (kd_fingerprint known) fingerprint then Matched
      else Mismatch (kd_fingerprint known) fingerprint
  end.

Definition record (machine_id fingerprint : string) (now : Z) (st : FingerprintStore) : FingerprintStore :=
  let entry := default (mkKnown machine_id fingerprint now now false) (st !! machine_id) in
  <[machine_id := mkKnown (kd_machine_id entry) (kd_fingerprint entry) (first_seen entry) now (verified entry)]> st.

Definition mark_verified (machine_id : string) (st : FingerprintStore) : FingerprintStore * bool :=
  match st !! machine_id with
  | Some e =>
      (<[machine_id := mkKnown (kd_machine_id e) (kd_fingerprint e) (first_seen e) (last_seen e) true]> st, true)
  | None => (st, false)
  end.

Definition update_fingerprint (machine_id new_fingerprint : string) (now : Z) (st : FingerprintStore)
  : FingerprintStore * bool :=
  match st !! machine_id with
  | Some e => (<[machine_id := mkKnown (kd_machine_id e) new_fingerprint now now false]> st, true)
  | None => (st, false)
  end.

Definition remove (machine_id : string) (st : FingerprintStore) : FingerprintStore * bool :=
  match st !! machine_id with
  | Some _ => (delete machine_id st, true)
  | None => (st, false)
  end.

(** Calls on a store. *)
Inductive StoreOp :=
| OpCheck (machine_id fingerprint : string)
| OpRecord (machine_id fingerprint : string) (now : Z)
| OpVerify (machine_id : string)
| OpUpdate (machine_id fingerprint : string) (now : Z)
| OpRemove (machine_id : string).

Definition store_step (st : FingerprintStore) (op : StoreOp) : FingerprintStore :=
  match op with
  | OpCheck _ _ => st
  | OpRecord m f now => record m f now st
  | OpVerify m => (mark_verified m st).1
  | OpUpdate m f now => (update_fingerprint m f now st).1
  | OpRemove m => (remove m st).1
  end.

(** * The visual fingerprint (fingerprint_visual.rs) *)

Definition WIDTH : nat := 17.
Definition HEIGHT : nat := 9.

Definition CHARS : list Ascii.ascii := String.list_ascii_of_string " .o+=*BOX@%&#/^SE".
Definition START_MARKER_IDX : nat := length CHARS - 2.
Definition END_MARKER_IDX : nat := length CHARS - 1.
Definition MAX_VISIT_IDX : nat := START_MARKER_IDX - 1.

Notation Field := (list (list nat)).

Definition field_get (field : Field) (y x : nat) : nat := default 0 (default [] (field !! y) !! x).
Definition field_set (field : Field) (y x v : nat) : Field := alter (λ row, <[x := v]> row) y field.

(** One coordinate: [(x + d).clamp(0, max)]. *)
Definition clamp_move (x : nat) (forward : bool) (limit : nat) : nat :=
  if forward then min (x + 1) (limit - 1) else x - 1.

Definition bishop_move (acc : Field * nat * nat) (bits : Z) : Field * nat * nat :=
  let '(field, x, y) := acc in
  let x' := clamp_move x (negb (Z.land bits 1 =? 0)%Z) WIDTH in
  let y' := clamp_move y (negb (Z.land bits 2 =? 0)%Z) HEIGHT in
  let v := field_get field y' x' in
  (if decide (v < MAX_VISIT_IDX) then field_set field y' x' (S v) else field, x', y').

Definition byte_moves (byte : Z) : list Z :=
  (λ shift, Z.land (Z.shiftr byte shift) 3) <$> [0; 2; 4; 6]%Z.

Definition bishop_walk (hash : bytes) : Field * nat * nat :=
  foldl bishop_move (replicate HEIGHT (replicate WIDTH 0), WIDTH / 2, HEIGHT / 2) (hash ≫= byte_moves).

Fixpoint repeat_char (c : Ascii.ascii) (n : nat) : string :=
  match n with 0 => EmptyString | S n' => String c (repeat_char c n') end.

Definition dash : Ascii.ascii := Ascii.ascii_of_nat 45.
Definition newline : string := String (Ascii.ascii_of_nat 10) EmptyString.

Definition render_row (row : list nat) : string :=
  "|" +:+ String.string_of_list_ascii ((λ cell, default dash (CHARS !! min cell (length CHARS - 1))) <$> row) +:+ "|".

Definition title_line (title_display : string) : string :=
  let pad_left := (WIDTH - String.length title_display) / 2 in
  let pad_right := WIDTH - String.length title_display - pad_left in
  "+" +:+ repeat_char dash pad_left +:+ title_display +:+ repeat_char dash pad_right +:+ "+".

Definition mark_ends (walk : Field * nat * nat) : Field :=
  let '(field, x, y) := walk in
  field_set (field_set field (HEIGHT / 2) (WIDTH / 2) START_MARKER_IDX) y x END_MARKER_IDX.

Definition randomart_lines {SH : Sha256} (fingerprint title : string) : option (list string) :=
  let field := mark_ends (bishop_walk (sha256 (string_bytes fingerprint))) in
  title_display ← (if decide (WIDTH < String.length title) then slice_to WIDTH title else Some title);
  Some (title_line title_display :: (render_row <$> field) ++ ["+" +:+ repeat_char dash WIDTH +:+ "+"]).

Definition fingerprint_randomart {SH : Sha256} (fingerprint title : string) : option string :=
  join newline <$> randomart_lines fingerprint title.

Definition colon : Ascii.ascii := Ascii.ascii_of_nat 58.

Definition format_fingerprint_display (fingerprint : string) : string :=
  join newline (join ":" <$> chunks 8 (split_on colon fingerprint)).

(** [str::lines]: the pieces between newlines, each without a final carriage
    return, and without the empty piece after a final newline. *)
Definition strip_cr (s : string) : string :=
  default s (strip_suffix (String (Ascii.ascii_of_nat 13) EmptyString) s).

Definition str_lines (s : string) : list string :=
  let pieces := split_on (Ascii.ascii_of_nat 10) s in
  let pieces' := match last pieces with Some EmptyString => take (length pieces - 1) pieces | _ => pieces end in
  strip_cr <$> pieces'.

Definition compare_fingerprints {SH : Sha256} (local_fp local_label remote_fp remote_label : string)
  : option (string * bool) :=
  let matches := bool_decide (local_fp = remote_fp) in
  local_art ← fingerprint_randomart local_fp local_label;
  remote_art ← fingerprint_randomart remote_fp remote_label;
  let local_lines := str_lines local_art in
  let remote_lines := str_lines remote_art in
  let row i := default EmptyString (local_lines !! i) +:+ "  " +:+ default EmptyString (remote_lines !! i) +:+ newline in
  let rows := row <$> seq 0 (max (length local_lines) (length remote_lines)) in
  let verdict := if matches then "Fingerprints MATCH"
                 else "Fingerprints DO NOT MATCH — possible MITM attack!" in
  Some (foldr String.append EmptyString rows +:+ newline +:+ verdict, matches).

(** A fixed digest, for examples. *)
Program Definition toy_sha256 : Sha256 := {| sha256 b := replicate 32 (Z.of_nat (length b) mod 256)%Z |}.
Next Obligation. done. Qed.
Next Obligation. intros b. apply (Forall_replicate (λ x, 0 ≤ x < 256)%Z 32). apply Z.mod_pos_bound. lia. Qed.

Example fingerprint_example :
  String.length (fingerprint_of (SH := toy_sha256) []) = 95 ∧
  format_fingerprint_display "00:01:02:03:04:05:06:07:08:09" =
    "00:01:02:03:04:05:06:07" +:+ newline +:+ "08:09" ∧
  check "m" "bb" (record "m" "bb" 20 (record "m" "aa" 10 ∅)) = Mismatch "aa" "bb" ∧
  length (str_lines (default "" (fingerprint_randomart (SH := toy_sha256) "ab" "[betcode]"))) = 11.
Proof. vm_compute. repeat split. Qed.

(** Correctness of fingerprints, of the trust-on-first-use store, of the
    identity key file and of the visual fingerprint. *)

(** * Reading a fingerprint back *)

Definition unhex_digit (c : Ascii.ascii) : option Z :=
  let n := Z.of_nat (Ascii.nat_of_ascii c) in
  if ((48 <=? n) && (n <? 58))%Z then Some (n - 48)%Z
  else if ((97 <=? n) && (n <? 103))%Z then Some (n - 87)%Z
  else None.

Definition unhex_byte (s : string) : option Z :=
  match s with
  | String a (String b EmptyString) =>
      x ← unhex_digit a; y ← unhex_digit b; Some (16 * x + y)%Z
  | _ => None
  end.

Definition parse_fingerprint (s : string) : option bytes := mapM unhex_byte (split_on colon s).

Lemma unhex_hex_digit (n : Z) : (0 ≤ n < 16)%Z → unhex_digit (hex_digit n) = Some n ∧ hex_digit n ≠ colon ∧ hex_digit n ≠ Ascii.ascii_of_nat 10.
Proof.
  intros Hn.
  assert (n ∈ (Z.of_nat <$> seq 0 16)) as Hin.
  { apply list_elem_of_fmap. exists (Z.to_nat n). split; [lia|]. apply elem_of_seq. lia. }
  clear Hn. revert n Hin. apply Forall_forall. apply (bool_decide_unpack _). vm_compute. exact I.
Qed.

Lemma hex_byte_spec (b : Z) :
  (0 ≤ b < 256)%Z → unhex_byte (hex_byte b) = Some b ∧ no_char colon (hex_byte b).
Proof.
  intros Hb. destruct (unhex_hex_digit (b / 16)) as (H1 & H2 & _); [Z.div_mod_to_equations; lia|].
  destruct (unhex_hex_digit (b mod 16)) as (H3 & H4 & _); [apply Z.mod_pos_bound; lia|].
  unfold hex_byte, unhex_byte. rewrite H1, H3. simpl. split; [|done]. f_equal. pose proof (Z.div_mod b 16). lia.
Qed.

Lemma parse_hex_bytes (l : bytes) :
  l ≠ [] → Forall (λ x, 0 ≤ x < 256)%Z l → parse_fingerprint (join ":" (hex_byte <$> l)) = Some l.
Proof.
  intros Hne Hl. unfold parse_fingerprint.
  rewrite (split_on_join colon); [|by destruct l|].
  - clear Hne. induction Hl as [|b l Hb Hl IH]; [done|]. rewrite fmap_cons. cbn [mapM].
    destruct (hex_byte_spec b Hb) as [-> _]. cbn [mbind option_bind]. by rewrite IH.
  - apply Forall_fmap. eapply Forall_impl; [exact Hl|]. intros b Hb. by apply hex_byte_spec.
Qed.

Lemma string_bytes_inj (a b : string) : string_bytes a = string_bytes b → a = b.
Proof.
  revert b. induction a as [|c a IH]; intros [|d b]; try done. simpl. intros [= H1 H2].
  f_equal; [|by apply IH]. apply Nat2Z.inj in H1.
  by rewrite <- (Ascii.ascii_nat_embedding c), <- (Ascii.ascii_nat_embedding d), H1.
Qed.

Lemma constant_time_str_eq_spec (a b : string) : constant_time_str_eq a b = bool_decide (a = b).
Proof.
  unfold constant_time_str_eq. case_decide as Hl.
  - apply bool_decide_ext. split; [apply string_bytes_inj|by intros ->].
  - symmetry. apply bool_decide_eq_false. by intros ->.
Qed.

(** A fingerprint is 95 characters from which the digest of the key can be
    read back, and the verification accepts it for exactly the keys with that
    digest: it accepts no other text. *)
Theorem fingerprint_identifies_digest {SH : Sha256} (pubkey : bytes) :
  String.length (fingerprint_of pubkey) = 95 ∧
  parse_fingerprint (fingerprint_of pubkey) = Some (sha256 pubkey) ∧
  (∀ text, verify_fingerprint pubkey text = true ↔ text = fingerprint_of pubkey) ∧
  (∀ other, verify_fingerprint pubkey (fingerprint_of other) = true ↔ sha256 pubkey = sha256 other).
Proof.
  assert (∀ k, sha256 k ≠ []) as Hne.
  { intros k Hk. pose proof (sha256_length k) as Hl. by rewrite Hk in Hl. }
  assert (∀ k, parse_fingerprint (fingerprint_of k) = Some (sha256 k)) as Hparse.
  { intros k. apply parse_hex_bytes; [done|apply sha256_bytes]. }
  assert (∀ k text, verify_fingerprint k text = true ↔ text = fingerprint_of k) as Hv.
  { intros k text. unfold verify_fingerprint. rewrite constant_time_str_eq_spec, bool_decide_eq_true. naive_solver. }
  split_and!; [|done|done|].
  - unfold fingerprint_of. rewrite (join_length _ _ 2).
    + rewrite length_fmap, sha256_length. done.
    + intros Hk%fmap_nil_inv. by apply (Hne pubkey).
    + apply Forall_fmap, Forall_true. done.
  - intros other. rewrite Hv. split; intros Heq.
    + apply (f_equal parse_fingerprint) in Heq. rewrite !Hparse in Heq. by simplify_eq.
    + unfold fingerprint_of. by rewrite Heq.
Qed.

(** * Trust on first use *)

(** The user replaces or forgets the entry of a machine. *)
Definition overrides (m : string) (op : StoreOp) : Prop :=
  match op with OpUpdate m' _ _ | OpRemove m' => m' = m | _ => False end.

Lemma store_step_pin (m : string) (op : StoreOp) (st : FingerprintStore) (e : KnownDaemon) :
  st !! m = Some e → ¬ overrides m op →
  ∃ e', store_step st op !! m = Some e' ∧ kd_fingerprint e' = kd_fingerprint e ∧
        first_seen e' = first_seen e ∧ (verified e = true → verified e' = true).
Proof.
  intros He Hop. destruct op as [m' f|m' f now|m'|m' f now|m']; simpl in *.
  - eauto.
  - unfold record. destruct (decide (m' = m)) as [->|Hne].
    + rewrite lookup_insert_eq, He. simpl. eauto.
    + rewrite lookup_insert_ne by done. eauto.
  - unfold mark_verified. destruct (st !! m') as [e'|] eqn:He'; simpl; [|eauto].
    destruct (decide (m' = m)) as [->|Hne]; [|rewrite lookup_insert_ne by done; eauto].
    rewrite lookup_insert_eq. simplify_eq. eauto.
  - unfold update_fingerprint. destruct (st !! m'); simpl; [|eauto]. rewrite lookup_insert_ne by done. eauto.
  - unfold remove. destruct (st !! m'); simpl; [|eauto]. rewrite lookup_delete_ne by done. eauto.
Qed.

(** Once a machine is known, its fingerprint stays pinned whatever is checked
    or recorded for it or for others (a recorded mismatch included), until
    the user updates or removes that machine: exactly the pinned fingerprint
    matches, every other one is reported as a mismatch with both values, and
    an explicit verification is not lost. *)
Theorem pinned_until_overridden (st : FingerprintStore) (ops : list StoreOp) (m : string) (e : KnownDaemon) :
  st !! m = Some e → Forall (λ op, ¬ overrides m op) ops →
  let st' := foldl store_step st ops in
  (∀ fp, check m fp st' =
     if decide (fp = kd_fingerprint e) then Matched else Mismatch (kd_fingerprint e) fp) ∧
  (verified e = true → ∃ e', st' !! m = Some e' ∧ verified e' = true).
Proof.
  intros He Hops st'.
  assert (∃ e', st' !! m = Some e' ∧ kd_fingerprint e' = kd_fingerprint e ∧ (verified e = true → verified e' = true))
    as (e' & He' & Hf & Hv).
  { subst st'. revert st e He. induction Hops as [|op ops Hop _ IH]; intros st e He; [by exists e|]. simpl.
    destruct (store_step_pin m op st e He Hop) as (e1 & He1 & Hf1 & _ & Hv1).
    destruct (IH _ _ He1) as (e2 & He2 & Hf2 & Hv2). exists e2. split_and!; [done|congruence|auto]. }
  split; [|eauto]. intros fp. unfold check. rewrite He', constant_time_str_eq_spec, Hf.
  case_bool_decide; case_decide; naive_solver.
Qed.

Lemma pinned_until_overridden_witness :
  check "m" "bb" (record "m" "bb" 20 (record "m" "aa" 10 ∅)) = Mismatch "aa" "bb".
Proof.
  destruct (pinned_until_overridden (record "m" "aa" 10 ∅) [OpRecord "m" "bb" 20] "m" (mkKnown "m" "aa" 10 10 false))
    as [H _].
  - reflexivity.
  - repeat constructor. by intros ?.
  - apply (H "bb").
Defined.

(** * The identity key file *)

(** Whatever is at the path, the first call that succeeds decides the
    machine's identity: a later call returns the same key pair and changes no
    file.  A key that had to be generated is in a file that only its owner
    can access. *)
Theorem identity_is_stable {PR : Primitives} (umask umask' : Z) (rand rand' : bytes) (path : string)
    (fs fs' : FileSystem) (kp : IdentityKeyPair) :
  length rand = 32 → load_or_generate umask true rand path fs = (fs', Ok kp) →
  load_or_generate umask' true rand' path fs' = (fs', Ok kp) ∧
  (fs !! path = None → kp = generate rand ∧ mode <$> fs' !! path = Some 384%Z).
Proof.
  intros Hr. unfold load_or_generate. destruct (fs !! path) as [f|] eqn:Hf.
  - intros [= <- Hl]. rewrite Hf, Hl. done.
  - simpl. rewrite Hf. simpl. intros [= <- <-].
    assert (alter (λ f, mkFile (content f) 384) path (<[path := mkFile rand umask]> fs) !! path =
            Some (mkFile rand 384)) as Hp.
    { by rewrite lookup_alter, decide_True, lookup_insert_eq by done. }
    rewrite Hp. split; [|done]. f_equal. unfold load_from_file. rewrite Hp. cbn [mode content].
    rewrite decide_True by done. rewrite decide_True by lia. unfold from_secret_bytes.
    rewrite take_ge by lia. by rewrite decide_True.
Qed.

Lemma identity_is_stable_witness :
  (load_or_generate (PR := toy_primitives) 420 true (replicate 32 8%Z) "/etc/key"
    (load_or_generate (PR := toy_primitives) 420 true (replicate 32 7%Z) "/etc/key" ∅).1).2 =
  Ok (generate (PR := toy_primitives) (replicate 32 7%Z)).
Proof.
  destruct (identity_is_stable (PR := toy_primitives) 420 420 (replicate 32 7%Z) (replicate 32 8%Z) "/etc/key" ∅
              (load_or_generate (PR := toy_primitives) 420 true (replicate 32 7%Z) "/etc/key" ∅).1
              (generate (PR := toy_primitives) (replicate 32 7%Z))) as [H _].
  - reflexivity.
  - reflexivity.
  - exact (f_equal snd H).
Defined.

(** * The displayed fingerprint *)

Lemma join_app (sep : string) (l1 l2 : list string) :
  l1 ≠ [] → l2 ≠ [] → join sep (l1 ++ l2) = join sep l1 +:+ sep +:+ join sep l2.
Proof.
  intros H1 H2. induction l1 as [|w l1 IH]; [done|]. destruct l1 as [|v l1].
  - simpl app. by rewrite join_cons.
  - change ((w :: v :: l1) ++ l2) with (w :: ((v :: l1) ++ l2)).
    rewrite !join_cons by done. rewrite IH by done. by rewrite !string_app_assoc.
Qed.

Lemma concat_nonempty {A : Type} (ls : list (list A)) : ls ≠ [] → Forall (λ c, c ≠ []) ls → concat ls ≠ [].
Proof. destruct 2 as [|c ls Hc _]; [done|]. simpl. by destruct c. Qed.

Lemma join_concat (sep : string) (ls : list (list string)) :
  Forall (λ c, c ≠ []) ls → join sep (join sep <$> ls) = join sep (concat ls).
Proof.
  induction 1 as [|c ls Hc Hls IH]; [done|]. destruct ls as [|d ls].
  { simpl. by rewrite app_nil_r. }
  rewrite fmap_cons, join_cons, IH by done. cbn [concat]. rewrite (join_app sep c); [done|done|].
  by apply (concat_nonempty (d :: ls)).
Qed.

Lemma no_char_app (c : Ascii.ascii) (s t : string) : no_char c (s +:+ t) ↔ no_char c s ∧ no_char c t.
Proof. induction s as [|a s IH]; [naive_solver|]. rewrite string_app_cons. simpl. rewrite IH. tauto. Qed.

Lemma no_char_join (c : Ascii.ascii) (sep : string) (ws : list string) :
  no_char c sep → Forall (no_char c) ws → no_char c (join sep ws).
Proof.
  intros Hsep. induction 1 as [|w ws Hw Hws IH]; [done|]. destruct ws as [|v ws]; [done|].
  rewrite join_cons, !no_char_app by done. done.
Qed.

Lemma no_char_split (c d : Ascii.ascii) (s : string) : no_char c s → Forall (no_char c) (split_on d s).
Proof.
  induction s as [|a s IH]; intros Hs; simpl; [by repeat constructor|]. destruct Hs as [Ha Hs].
  specialize (IH Hs). case_decide; [by constructor|].
  destruct (split_on d s) as [|w ws]; [by repeat constructor|]. inversion_clear IH. by constructor.
Qed.

(** Grouping a fingerprint into lines loses nothing: joining the lines with
    the colon they were broken at gives the fingerprint back, and no line has
    more than eight pairs. *)
Theorem display_groups_pairs (fingerprint : string) :
  no_char (Ascii.ascii_of_nat 10) fingerprint →
  let lines := split_on (Ascii.ascii_of_nat 10) (format_fingerprint_display fingerprint) in
  join ":" lines = fingerprint ∧
  Forall (λ line, length (split_on colon line) ≤ 8) lines.
Proof.
  intros Hfp lines. destruct (chunks_spec 8 (split_on colon fingerprint)) as [Hcat Hch]; [lia|].
  assert (Forall (Forall (no_char (Ascii.ascii_of_nat 10))) (chunks 8 (split_on colon fingerprint)) ∧
          Forall (Forall (no_char colon)) (chunks 8 (split_on colon fingerprint))) as [Hnl Hnc].
  { rewrite <- !Forall_concat, Hcat. split; [by apply no_char_split|apply split_on_pieces]. }
  assert (lines = join ":" <$> chunks 8 (split_on colon fingerprint)) as ->.
  { subst lines. unfold format_fingerprint_display. apply split_on_join.
    - intros Hnil%fmap_nil_inv. rewrite Hnil in Hcat. symmetry in Hcat. by apply split_on_nonempty in Hcat.
    - apply Forall_fmap. eapply Forall_impl; [exact Hnl|]. intros c Hc. by apply no_char_join. }
  split.
  - rewrite join_concat, Hcat; [apply (join_split_on colon)|]. eapply Forall_impl; [exact Hch|]. by intros c [? _].
  - apply Forall_fmap. rewrite Forall_forall in *. intros c Hc. destruct (Hch c Hc) as [Hne Hle]. simpl.
    rewrite (split_on_join colon); [done|done|]. by apply Hnc.
Qed.

Lemma display_groups_pairs_witness :
  join ":" (split_on (Ascii.ascii_of_nat 10) (format_fingerprint_display "00:01:02:03:04:05:06:07:08:09")) =
  "00:01:02:03:04:05:06:07:08:09".
Proof. apply (display_groups_pairs "00:01:02:03:04:05:06:07:08:09"). vm_compute. repeat split; discriminate. Defined.

(** * The visual fingerprint *)

Definition field_ok (limit : nat) (field : Field) : Prop :=
  length field = HEIGHT ∧ Forall (λ row, length row = WIDTH ∧ Forall (λ v, v ≤ limit) row) field.

Lemma field_set_ok (limit : nat) (field : Field) (y x v : nat) :
  field_ok limit field → v ≤ limit → field_ok limit (field_set field y x v).
Proof.
  intros [Hl Hf] Hv. unfold field_set. split; [by rewrite length_alter|].
  apply Forall_alter; [done|]. intros row Hrow. rewrite Forall_forall in Hf.
  apply list_elem_of_lookup_2 in Hrow. destruct (Hf row Hrow) as [Hw Hr].
  split; [by rewrite length_insert|]. by apply Forall_insert.
Qed.

Lemma field_ok_weaken (a b : nat) (field : Field) : a ≤ b → field_ok a field → field_ok b field.
Proof.
  intros Hab [Hl Hf]. split; [done|]. eapply Forall_impl; [exact Hf|]. intros row [Hw Hr]. split; [done|].
  eapply Forall_impl; [exact Hr|]. intros v Hv. simpl in *. lia.
Qed.

Definition walk_ok (w : Field * nat * nat) : Prop :=
  field_ok MAX_VISIT_IDX w.1.1 ∧ w.1.2 < WIDTH ∧ w.2 < HEIGHT.

Lemma clamp_move_bound (x limit : nat) (forward : bool) : x < limit → clamp_move x forward limit < limit.
Proof. unfold clamp_move. destruct forward; lia. Qed.

Lemma bishop_move_ok (w : Field * nat * nat) (bits : Z) : walk_ok w → walk_ok (bishop_move w bits).
Proof.
  destruct w as [[field x] y]. intros (Hf & Hx & Hy). cbn [fst snd] in *. unfold bishop_move, walk_ok. cbn [fst snd].
  split_and!; [|by apply clamp_move_bound..]. case_decide; [|done]. by apply field_set_ok.
Qed.

Lemma bishop_walk_ok (hash : bytes) : walk_ok (bishop_walk hash).
Proof.
  unfold bishop_walk. assert (walk_ok (replicate HEIGHT (replicate WIDTH 0), WIDTH / 2, HEIGHT / 2)) as H.
  { split_and!; [|vm_compute; lia..]. split; [done|]. simpl. apply (Forall_replicate _ HEIGHT). split; [done|].
    apply (Forall_replicate _ WIDTH). lia. }
  revert H. generalize (replicate HEIGHT (replicate WIDTH 0), WIDTH / 2, HEIGHT / 2).
  induction (hash ≫= byte_moves) as [|b l IH]; intros w Hw; [done|]. apply IH. by apply bishop_move_ok.
Qed.

Lemma mark_ends_ok (w : Field * nat * nat) : walk_ok w → field_ok END_MARKER_IDX (mark_ends w).
Proof.
  destruct w as [[field x] y]. intros (Hf & _). simpl in *.
  apply field_set_ok; [|done]. apply field_set_ok; [|vm_compute; lia].
  eapply field_ok_weaken; [|exact Hf]. vm_compute. lia.
Qed.

Lemma string_of_list_length (l : list Ascii.ascii) : String.length (String.string_of_list_ascii l) = length l.
Proof. induction l as [|c l IH]; [done|]. simpl. by rewrite IH. Qed.

Lemma repeat_char_length (c : Ascii.ascii) (n : nat) : String.length (repeat_char c n) = n.
Proof. induction n as [|n IH]; [done|]. simpl. by rewrite IH. Qed.

Lemma render_row_length (row : list nat) : length row = WIDTH → String.length (render_row row) = 19.
Proof.
  intros Hr. unfold render_row. rewrite !string_length_app, string_of_list_length, length_fmap, Hr. done.
Qed.

Lemma title_line_length (t : string) : String.length t ≤ WIDTH → String.length (title_line t) = 19.
Proof.
  intros Ht. unfold title_line. rewrite !string_length_app, !repeat_char_length. cbn [String.length].
  pose proof (Nat.Div0.div_le_upper_bound (WIDTH - String.length t) 2 (WIDTH - String.length t)).
  unfold WIDTH in *. lia.
Qed.

(** The picture of a fingerprint is a box of 11 lines of 19 bytes for every
    title that fits or that can be cut at 17 bytes; a longer title whose
    17th byte is inside a character makes the function panic ([None]). *)
Theorem randomart_box {SH : Sha256} (fingerprint title : string) :
  (String.length title ≤ 17 ∨ is_char_boundary 17 title = true →
   ∃ lines, randomart_lines fingerprint title = Some lines ∧ length lines = 11 ∧
            Forall (λ line, String.length line = 19) lines) ∧
  (17 < String.length title → is_char_boundary 17 title = false → fingerprint_randomart fingerprint title = None).
Proof.
  destruct (mark_ends_ok _ (bishop_walk_ok (sha256 (string_bytes fingerprint)))) as [Hl Hf].
  split.
  - intros Ht. unfold randomart_lines.
    assert (∃ t, (if decide (WIDTH < String.length title) then slice_to WIDTH title else Some title) = Some t ∧
                 String.length t ≤ WIDTH) as (t & -> & Hlen).
    { case_decide as Hw; [|exists title; split; [done|lia]].
      unfold slice_to. change (is_char_boundary WIDTH title) with (is_char_boundary 17 title). destruct Ht as [Ht|Ht]; [unfold WIDTH in Hw; lia|]. rewrite Ht.
      eexists. split; [done|]. rewrite str_take_length; lia. }
    eexists. split; [done|]. split.
    + rewrite length_cons, length_app, length_fmap, Hl. done.
    + constructor; [by apply title_line_length|]. apply Forall_app. split; [|by repeat constructor].
      apply Forall_fmap. eapply Forall_impl; [exact Hf|]. intros row [Hr _]. by apply render_row_length.
  - intros Hlen Hb. unfold fingerprint_randomart, randomart_lines. rewrite decide_True by (unfold WIDTH; lia).
    unfold slice_to. change (is_char_boundary WIDTH title) with (is_char_boundary 17 title). by rewrite Hb.
Qed.

(** Titles with a two-byte character across the cut. *)
Lemma randomart_panics_inside_character :
  fingerprint_randomart (SH := toy_sha256) "ab" "0123456789abcdefé" = None.
Proof. reflexivity. Qed.

Lemma fingerprint_identifies_digest_witness :
  verify_fingerprint (SH := toy_sha256) [1]%Z (fingerprint_of (SH := toy_sha256) [2]%Z) = true ∧
  verify_fingerprint (SH := toy_sha256) [1]%Z (fingerprint_of (SH := toy_sha256) []) = false.
Proof.
  destruct (fingerprint_identifies_digest (SH := toy_sha256) [1]%Z) as (_ & _ & _ & H).
  split; [by apply H|reflexivity].
Defined.

Lemma randomart_box_witness :
  (∃ lines, randomart_lines (SH := toy_sha256) "ab" "[betcode]" = Some lines ∧ length lines = 11 ∧
            Forall (λ line, String.length line = 19) lines) ∧
  fingerprint_randomart (SH := toy_sha256) "ab" "0123456789abcdefé" = None.
Proof.
  split.
  - apply (randomart_box (SH := toy_sha256) "ab" "[betcode]"). left. vm_compute. lia.
  - apply (randomart_box (SH := toy_sha256) "ab" "0123456789abcdefé"); [vm_compute; lia|reflexivity].
Defined.
