(* ===== verification/Encodings.v ===== *)
(** The base64 codec for stored event payloads, and below what the code relies
    on of protobuf messages.

    Models base64_encode and base64_decode of crates/betcode-core/src/db.rs.
    A [u32] is a [Z]: every value here is below 2^24.  Text is the list of
    its bytes. *)
From stdpp Require Import countable strings list list_numbers.
From Stdlib Require Import ZArith Lia.
From S2P Require Import Prelude CryptoSession.

Definition CHARS : list Z :=
  string_bytes "ABCDEFGHIJKLMNOPQRSTUVWXYZabcdefghijklmnopqrstuvwxyz0123456789+/".

Definition char_at (i : Z) : Z := default 0%Z (CHARS !! Z.to_nat i).

Definition padding : Z := 61.   (* '=' *)

Definition encode_chunk (chunk : list Z) : list Z :=
  let b0 := default 0%Z (chunk !! 0) in
  let b1 := default 0%Z (chunk !! 1) in
  let b2 := default 0%Z (chunk !! 2) in
  let n := Z.lor (Z.lor (Z.shiftl b0 16) (Z.shiftl b1 8)) b2 in
  [char_at (Z.land (Z.shiftr n 18) 63); char_at (Z.land (Z.shiftr n 12) 63);
   if decide (1 < length chunk) then char_at (Z.land (Z.shiftr n 6) 63) else padding;
   if decide (2 < length chunk) then char_at (Z.land n 63) else padding].

Definition base64_encode (data : list Z) : list Z := chunks 3 data ≫= encode_chunk.

(** The decoding table: 255 marks what is not a base64 character. *)
Definition DECODE : list Z :=
  foldl (λ table i, <[Z.to_nat (char_at i) := i]> table) (replicate 128 255%Z) (seqZ 0 64).

Definition decode_char (b : Z) : option Z :=
  if (128 <=? b)%Z then None
  else match DECODE !! Z.to_nat b with
       | Some v => if (v =? 255)%Z then None else Some v
       | None => None
       end.

(** The bits of one chunk; [i] is the position in it.  The error is the
    first byte that is not a base64 character. *)
Fixpoint decode_bits (i : Z) (n : Z) (chunk : list Z) : result Z Z :=
  match chunk with
  | [] => Ok n
  | b :: rest =>
      match decode_char b with
      | Some v => decode_bits (i + 1) (Z.lor n (Z.shiftl v (18 - i * 6))) rest
      | None => Err b
      end
  end.

Definition decode_chunk (chunk : list Z) : result Z (list Z) :=
  let? n := decode_bits 0 0 chunk in
  Ok ([Z.land (Z.shiftr n 16) 255] ++
      (if decide (2 < length chunk) then [Z.land (Z.shiftr n 8) 255] else []) ++
      (if decide (3 < length chunk) then [Z.land n 255] else [])).

Fixpoint decode_chunks (cs : list (list Z)) : result Z (list Z) :=
  match cs with
  | [] => Ok []
  | c :: rest =>
      let? b := decode_chunk c in
      let? bs := decode_chunks rest in
      Ok (b ++ bs)
  end.

(** [trim_end_matches('=')] *)
Fixpoint trim_end (c : Z) (l : list Z) : list Z :=
  match l with
  | [] => []
  | x :: rest => match trim_end c rest with
                 | [] => if decide (x = c) then [] else [x]
                 | rest' => x :: rest'
                 end
  end.

Inductive Base64Error :=
| InvalidLength
| InvalidCharacter (b : Z).

Definition base64_decode (input : list Z) : result Base64Error (list Z) :=
  let input := trim_end padding input in
  if decide (length input mod 4 = 1) then Err InvalidLength
  else match decode_chunks (chunks 4 input) with
       | Ok bs => Ok bs
       | Err b => Err (InvalidCharacter b)
       end.

Example base64_examples :
  base64_encode (string_bytes "Hello, World!") = string_bytes "SGVsbG8sIFdvcmxkIQ==" ∧
  base64_decode (string_bytes "SGVsbG8sIFdvcmxkIQ==") = Ok (string_bytes "Hello, World!") ∧
  base64_decode (string_bytes "SGVs!") = Err InvalidLength ∧
  base64_decode (string_bytes "SGV!") = Err (InvalidCharacter 33).
Proof. vm_compute. repeat split. Qed.

(** * Bits *)

Lemma land_shift (a b k : Z) : (0 ≤ k → 0 ≤ b < 2 ^ k → Z.land (Z.shiftl a k) b = 0)%Z.
Proof.
  intros Hk Hb. apply Z.bits_inj'. intros i Hi. rewrite Z.land_spec, Z.bits_0.
  destruct (Z.lt_ge_cases i k); [by rewrite Z.shiftl_spec_low|].
  destruct (Z.eq_dec b 0) as [->|]; [by rewrite Z.bits_0, andb_false_r|].
  rewrite (Z.bits_above_log2 b); [by rewrite andb_false_r|lia|]. apply Z.log2_lt_pow2; [lia|].
  apply Z.lt_le_trans with (2 ^ k)%Z; [lia|]. apply Z.pow_le_mono_r; lia.
Qed.

Lemma lor_shift (a b k : Z) : (0 ≤ k → 0 ≤ b < 2 ^ k → Z.lor (Z.shiftl a k) b = a * 2 ^ k + b)%Z.
Proof.
  intros Hk Hb. rewrite <- Z.shiftl_mul_pow2 by done. pose proof (land_shift a b k Hk Hb) as H0.
  by rewrite <- Z.lxor_lor, Z.add_nocarry_lxor.
Qed.

Definition is_byte (b : Z) : Prop := (0 ≤ b < 256)%Z.
Definition is_sextet (v : Z) : Prop := (0 ≤ v < 64)%Z.

(** Three bytes as one number, and its four groups of six bits. *)
Lemma pack_bytes (b0 b1 b2 : Z) :
  is_byte b0 → is_byte b1 → is_byte b2 →
  Z.lor (Z.lor (Z.shiftl b0 16) (Z.shiftl b1 8)) b2 = (b0 * 65536 + b1 * 256 + b2)%Z.
Proof.
  unfold is_byte. intros H0 H1 H2. set (rhs := (b0 * 65536 + b1 * 256 + b2)%Z).
  rewrite (lor_shift b0 _ 16) by (rewrite ?Z.shiftl_mul_pow2; lia).
  rewrite Z.shiftl_mul_pow2 by lia. change (2 ^ 8)%Z with 256%Z. change (2 ^ 16)%Z with 65536%Z.
  replace (b0 * 65536 + b1 * 256)%Z with ((b0 * 256 + b1) * 2 ^ 8)%Z by lia.
  rewrite <- Z.shiftl_mul_pow2 by lia. rewrite lor_shift by lia. subst rhs. lia.
Qed.

Lemma pack_sextets (v0 v1 v2 v3 : Z) :
  is_sextet v0 → is_sextet v1 → is_sextet v2 → is_sextet v3 →
  Z.lor (Z.lor (Z.lor (Z.shiftl v0 18) (Z.shiftl v1 12)) (Z.shiftl v2 6)) v3 =
  (v0 * 262144 + v1 * 4096 + v2 * 64 + v3)%Z.
Proof.
  unfold is_sextet. intros H0 H1 H2 H3. set (rhs := (v0 * 262144 + v1 * 4096 + v2 * 64 + v3)%Z).
  rewrite (lor_shift v0 _ 18) by (rewrite ?Z.shiftl_mul_pow2; lia).
  rewrite Z.shiftl_mul_pow2 by lia. change (2 ^ 12)%Z with 4096%Z. change (2 ^ 18)%Z with 262144%Z.
  replace (v0 * 262144 + v1 * 4096)%Z with ((v0 * 64 + v1) * 2 ^ 12)%Z by lia.
  rewrite <- Z.shiftl_mul_pow2 by lia.
  rewrite (lor_shift _ _ 12) by (rewrite ?Z.shiftl_mul_pow2; lia).
  rewrite Z.shiftl_mul_pow2 by lia. change (2 ^ 6)%Z with 64%Z. change (2 ^ 12)%Z with 4096%Z.
  replace ((v0 * 64 + v1) * 4096 + v2 * 64)%Z with ((v0 * 4096 + v1 * 64 + v2) * 2 ^ 6)%Z by lia.
  rewrite <- Z.shiftl_mul_pow2 by lia. rewrite lor_shift by lia. subst rhs. lia.
Qed.

Lemma sextet_of (n k : Z) : (0 ≤ k)%Z → Z.land (Z.shiftr n k) 63 = (n / 2 ^ k mod 64)%Z.
Proof. intros Hk. change 63%Z with (Z.ones 6). by rewrite Z.land_ones, Z.shiftr_div_pow2. Qed.

Lemma byte_of (n k : Z) : (0 ≤ k)%Z → Z.land (Z.shiftr n k) 255 = (n / 2 ^ k mod 256)%Z.
Proof. intros Hk. change 255%Z with (Z.ones 8). by rewrite Z.land_ones, Z.shiftr_div_pow2. Qed.

Lemma char_at_spec (v : Z) :
  is_sextet v → decode_char (char_at v) = Some v ∧ char_at v ≠ padding.
Proof.
  intros Hv. assert (v ∈ seqZ 0 64) as Hin by (apply elem_of_seqZ; unfold is_sextet in Hv; lia).
  clear Hv. revert v Hin. apply Forall_forall. apply (bool_decide_unpack _). vm_compute. exact I.
Qed.

(** * One chunk *)

Definition packed (b0 b1 b2 : Z) : Z := (b0 * 65536 + b1 * 256 + b2)%Z.

Lemma packed_range (b0 b1 b2 : Z) : is_byte b0 → is_byte b1 → is_byte b2 → (0 ≤ packed b0 b1 b2 < 16777216)%Z.
Proof. unfold is_byte, packed. lia. Qed.

Lemma sextets_recompose (n : Z) :
  (0 ≤ n < 16777216)%Z →
  (n / 262144 mod 64 * 262144 + n / 4096 mod 64 * 4096 + n / 64 mod 64 * 64 + n mod 64 = n)%Z.
Proof.
  intros Hn. rewrite (Z.mod_small (n / 262144)) by (split; [apply Z.div_pos; lia|apply Z.div_lt_upper_bound; lia]).
  pose proof (Z.div_mod n 64). pose proof (Z.div_mod (n / 64) 64). pose proof (Z.div_mod (n / 4096) 64).
  rewrite !Z.div_div in * by lia. change (64 * 64)%Z with 4096%Z in *. change (4096 * 64)%Z with 262144%Z in *. lia.
Qed.

Lemma bytes_recover (b0 b1 b2 : Z) :
  is_byte b0 → is_byte b1 → is_byte b2 →
  (packed b0 b1 b2 / 65536 mod 256 = b0 ∧ packed b0 b1 b2 / 256 mod 256 = b1 ∧ packed b0 b1 b2 mod 256 = b2)%Z.
Proof.
  unfold is_byte. intros H0 H1 H2. set (n := packed b0 b1 b2).
  assert (n / 256 = b0 * 256 + b1)%Z as E1.
  { symmetry. apply (Z.div_unique n 256 _ b2); unfold n, packed; lia. }
  assert (n / 65536 = b0)%Z as E2.
  { symmetry. apply (Z.div_unique n 65536 _ (b1 * 256 + b2)); unfold n, packed; lia. }
  rewrite E1, E2. split_and!.
  - apply Z.mod_small. lia.
  - symmetry. apply (Z.mod_unique _ 256 b0); lia.
  - symmetry. apply (Z.mod_unique _ 256 (b0 * 256 + b1)); unfold n, packed; lia.
Qed.

Lemma sextet_mod (x : Z) : is_sextet (x mod 64).
Proof. apply Z.mod_pos_bound. lia. Qed.

(** The characters of a chunk without its padding. *)
Definition core (chunk : list Z) : list Z := take (S (length chunk)) (encode_chunk chunk).

Lemma core_eq (chunk : list Z) (b0 b1 b2 : Z) (n : Z) :
  default 0%Z (chunk !! 0) = b0 → default 0%Z (chunk !! 1) = b1 → default 0%Z (chunk !! 2) = b2 →
  is_byte b0 → is_byte b1 → is_byte b2 → n = packed b0 b1 b2 →
  1 ≤ length chunk ≤ 3 →
  encode_chunk chunk = core chunk ++ replicate (3 - length chunk) padding ∧
  core chunk = take (S (length chunk))
    [char_at (n / 262144 mod 64); char_at (n / 4096 mod 64); char_at (n / 64 mod 64); char_at (n mod 64)].
Proof.
  intros E0 E1 E2 H0 H1 H2 -> Hl. unfold core, encode_chunk. rewrite E0, E1, E2, pack_bytes by done.
  rewrite !sextet_of by lia. change (2 ^ 18)%Z with 262144%Z. change (2 ^ 12)%Z with 4096%Z. change (2 ^ 6)%Z with 64%Z.
  change 63%Z with (Z.ones 6). rewrite Z.land_ones by lia. change (2 ^ 6)%Z with 64%Z.
  fold (packed b0 b1 b2). destruct chunk as [|x [|y [|z [|? ?]]]]; simpl in Hl; try lia; done.
Qed.

Lemma decode_bits_cons (i n v : Z) (rest : list Z) :
  is_sextet v → decode_bits i n (char_at v :: rest) = decode_bits (i + 1) (Z.lor n (Z.shiftl v (18 - i * 6))) rest.
Proof. intros Hv. cbn [decode_bits]. by destruct (char_at_spec v Hv) as [-> _]. Qed.

Lemma decode_core (chunk : list Z) :
  Forall is_byte chunk → 1 ≤ length chunk ≤ 3 → decode_chunk (core chunk) = Ok chunk.
Proof.
  intros Hb Hl. assert (is_byte 0) as Hzero by (unfold is_byte; lia).
  destruct chunk as [|b0 [|b1 [|b2 [|? ?]]]]; simpl in Hl; try lia; rewrite ?Forall_cons in Hb.
  - destruct Hb as [H0 _]. destruct (core_eq [b0] b0 0 0 _ eq_refl eq_refl eq_refl H0 Hzero Hzero eq_refl Hl) as [_ ->].
    pose proof (sextets_recompose _ (packed_range b0 0 0 H0 Hzero Hzero)) as Hn.
    destruct (bytes_recover b0 0 0 H0 Hzero Hzero) as (R0 & _).
    set (n := packed b0 0 0) in *.
    assert (n = (b0 * 16) * 4096)%Z as Hk by (unfold n, packed; lia).
    assert (n / 64 mod 64 = 0)%Z as Z2.
    { rewrite Hk. replace (b0 * 16 * 4096)%Z with (b0 * 16 * 64 * 64)%Z by lia. rewrite Z.div_mul by lia. by apply Z.mod_mul. }
    assert (n mod 64 = 0)%Z as Z3.
    { rewrite Hk. replace (b0 * 16 * 4096)%Z with (b0 * 16 * 64 * 64)%Z by lia. by apply Z.mod_mul. }
    cbn [take length]. unfold decode_chunk. rewrite !decode_bits_cons by apply sextet_mod. cbn [decode_bits result_bind].
    rewrite Z.lor_0_l. change (18 - 0 * 6)%Z with 18%Z. change (18 - (0 + 1) * 6)%Z with 12%Z.
    pose proof (pack_sextets (n / 262144 mod 64) (n / 4096 mod 64) 0 0 (sextet_mod _) (sextet_mod _) (sextet_mod 0) (sextet_mod 0)) as Hp.
    rewrite Z.shiftl_0_l, !Z.lor_0_r in Hp. rewrite Hp, byte_of by lia. change (2 ^ 16)%Z with 65536%Z.
    replace (n / 262144 mod 64 * 262144 + n / 4096 mod 64 * 4096 + 0 * 64 + 0)%Z with n by lia. by rewrite R0.
  - destruct Hb as (H0 & H1 & _).
    destruct (core_eq [b0; b1] b0 b1 0 _ eq_refl eq_refl eq_refl H0 H1 Hzero eq_refl Hl) as [_ ->].
    pose proof (sextets_recompose _ (packed_range b0 b1 0 H0 H1 Hzero)) as Hn.
    destruct (bytes_recover b0 b1 0 H0 H1 Hzero) as (R0 & R1 & _).
    set (n := packed b0 b1 0) in *.
    assert (n mod 64 = 0)%Z as Z3.
    { unfold n, packed. replace (b0 * 65536 + b1 * 256 + 0)%Z with ((b0 * 1024 + b1 * 4) * 64)%Z by lia. by apply Z.mod_mul. }
    cbn [take length]. unfold decode_chunk. rewrite !decode_bits_cons by apply sextet_mod. cbn [decode_bits result_bind].
    rewrite Z.lor_0_l. change (18 - 0 * 6)%Z with 18%Z. change (18 - (0 + 1) * 6)%Z with 12%Z. change (18 - (0 + 1 + 1) * 6)%Z with 6%Z.
    pose proof (pack_sextets (n / 262144 mod 64) (n / 4096 mod 64) (n / 64 mod 64) 0 (sextet_mod _) (sextet_mod _) (sextet_mod _) (sextet_mod 0)) as Hp.
    rewrite Z.lor_0_r in Hp. rewrite Hp, !byte_of by lia. change (2 ^ 16)%Z with 65536%Z. change (2 ^ 8)%Z with 256%Z.
    replace (n / 262144 mod 64 * 262144 + n / 4096 mod 64 * 4096 + n / 64 mod 64 * 64 + 0)%Z with n by lia. by rewrite R0, R1.
  - destruct Hb as (H0 & H1 & H2 & _).
    destruct (core_eq [b0; b1; b2] b0 b1 b2 _ eq_refl eq_refl eq_refl H0 H1 H2 eq_refl Hl) as [_ ->].
    pose proof (sextets_recompose _ (packed_range b0 b1 b2 H0 H1 H2)) as Hn.
    destruct (bytes_recover b0 b1 b2 H0 H1 H2) as (R0 & R1 & R2).
    set (n := packed b0 b1 b2) in *.
    cbn [take length]. unfold decode_chunk. rewrite !decode_bits_cons by apply sextet_mod. cbn [decode_bits result_bind].
    rewrite Z.lor_0_l. change (18 - 0 * 6)%Z with 18%Z. change (18 - (0 + 1) * 6)%Z with 12%Z. change (18 - (0 + 1 + 1) * 6)%Z with 6%Z.
    change (18 - (0 + 1 + 1 + 1) * 6)%Z with 0%Z. rewrite Z.shiftl_0_r.
    rewrite pack_sextets by apply sextet_mod. rewrite Hn, !byte_of by lia. change 255%Z with (Z.ones 8).
    rewrite Z.land_ones by lia. change (2 ^ 16)%Z with 65536%Z. change (2 ^ 8)%Z with 256%Z. by rewrite R0, R1, R2.
Qed.

(** * The whole text *)

Definition body (data : list Z) : list Z := chunks 3 data ≫= core.

Lemma core_chars (chunk : list Z) :
  Forall is_byte chunk → 1 ≤ length chunk ≤ 3 →
  encode_chunk chunk = core chunk ++ replicate (3 - length chunk) padding ∧
  length (core chunk) = S (length chunk) ∧ Forall (λ c, c ≠ padding) (core chunk).
Proof.
  intros Hb Hl. assert (is_byte 0) as Hz by (unfold is_byte; lia).
  assert (∀ i, is_byte (default 0%Z (chunk !! i))) as Hd.
  { intros i. destruct (chunk !! i) as [b|] eqn:Hi; [|done]. by eapply Forall_lookup_1 in Hb. }
  destruct (core_eq chunk _ _ _ _ eq_refl eq_refl eq_refl (Hd 0) (Hd 1) (Hd 2) eq_refl Hl) as [H1 H2].
  split_and!; [done| |].
  - rewrite H2, length_take. simpl. lia.
  - rewrite H2. apply Forall_take. repeat constructor; by apply char_at_spec, sextet_mod.
Qed.

(** Data as full chunks of three bytes and a shorter last one. *)
Lemma chunk3_ind (P : list Z → Prop) :
  P [] → (∀ c, 1 ≤ length c ≤ 3 → P c) → (∀ c l, length c = 3 → P l → P (c ++ l)) → ∀ l, P l.
Proof.
  intros H0 Hs Hc l. remember (length l) as n eqn:Hn. revert l Hn.
  induction (lt_wf n) as [n _ IH]. intros l ->.
  destruct (decide (length l = 0)) as [Hl|Hl]; [by apply nil_length_inv in Hl as ->|].
  destruct (decide (length l ≤ 3)); [apply Hs; lia|].
  rewrite <- (take_drop 3 l). apply Hc; [rewrite length_take; lia|].
  eapply IH; [|reflexivity]. rewrite length_drop. lia.
Qed.

Lemma body_spec (data : list Z) :
  Forall is_byte data →
  (∃ k, base64_encode data = body data ++ replicate k padding) ∧
  Forall (λ c, c ≠ padding) (body data) ∧
  decode_chunks (chunks 4 (body data)) = Ok data ∧ length (body data) mod 4 ≠ 1.
Proof.
  unfold base64_encode, body. induction data as [|c Hc|c l Hc IH] using chunk3_ind; intros Hb.
  - split_and!; [by exists 0|constructor|done|done].
  - destruct (core_chars c Hb Hc) as (He & Hlen & Hne).
    rewrite (chunks_short 3 c) by first [lia|intros ->; simpl in *; lia]. cbn [mbind list_bind].
    rewrite !app_nil_r. split_and!; [by eexists|done| |].
    + rewrite (chunks_short 4) by first [lia|intros Hnil; rewrite Hnil in Hlen; simpl in Hlen; lia]. cbn [decode_chunks].
      rewrite decode_core by done. cbn [result_bind]. by rewrite app_nil_r.
    + rewrite Hlen. destruct c as [|? [|? [|? [|? ?]]]]; simpl in Hc; try lia; done.
  - apply Forall_app in Hb as [Hbc Hbl]. destruct (IH Hbl) as ((k & Hk) & Hne & Hdec & Hmod).
    destruct (core_chars c Hbc) as (He & Hlen & Hnec); [lia|].
    rewrite chunks_app by lia. cbn [mbind list_bind]. rewrite Hc in He. rewrite app_nil_r in He. rewrite He.
    split_and!.
    + exists k. rewrite <- app_assoc. f_equal. exact Hk.
    + by apply Forall_app.
    + rewrite chunks_app by lia. cbn [decode_chunks]. rewrite decode_core by (try done; lia). cbn [result_bind].
      change (decode_chunks (chunks 4 (mbind core (chunks 3 l))) = Ok l) in Hdec. by rewrite Hdec.
    + rewrite length_app, Hlen, Hc. change (4 + length (chunks 3 l ≫= core)) with (1 * 4 + length (chunks 3 l ≫= core)).
      by rewrite Nat.add_comm, Nat.Div0.mod_add.
Qed.

Lemma trim_end_padding (l : list Z) (k : nat) :
  Forall (λ c, c ≠ padding) l → trim_end padding (l ++ replicate k padding) = l.
Proof.
  induction 1 as [|c l Hc Hl IH].
  - induction k as [|k IH]; [done|]. simpl in *. by rewrite IH.
  - simpl. rewrite IH. destruct l; [by rewrite decide_False|done].
Qed.

Lemma base64_decode_encode (data : list Z) :
  Forall is_byte data → base64_decode (base64_encode data) = Ok data.
Proof.
  intros Hb. destruct (body_spec data Hb) as ((k & Hk) & Hne & Hdec & Hmod).
  unfold base64_decode. rewrite Hk, trim_end_padding by done. by rewrite decide_False, Hdec.
Qed.

(** Decoding gives back what was encoded, for every sequence of bytes. *)
Theorem base64_roundtrip (data : list Z) :
  Forall is_byte data → base64_decode (base64_encode data) = Ok data.
Proof. apply base64_decode_encode. Qed.

Lemma base64_roundtrip_witness : base64_decode (base64_encode [0; 255; 128; 7]%Z) = Ok [0; 255; 128; 7]%Z.
Proof.
  apply (base64_roundtrip [0; 255; 128; 7]%Z). repeat constructor; unfold is_byte; lia.
Defined.

(** Messages of the protocol, as bytes.

    The types and codecs of the messages are generated from protocol
    definitions outside the tree.  Of the codec of a type the code relies on
    this: an encoding is made of bytes, and decoding gives back what was
    encoded.  Every countable type has such a codec; theorems about encoded
    messages are evaluated on it. *)

Class ProtoMessage (M : Type) := {
  m_encode : M → list Z;
  m_decode : list Z → result string M;
  m_encode_bytes : ∀ m, Forall is_byte (m_encode m);
  m_decode_encode : ∀ m, m_decode (m_encode m) = Ok m
}.
#[export] Hint Mode ProtoMessage ! : typeclass_instances.

(** * A codec for countable types *)

Fixpoint positive_bytes (p : positive) : list Z :=
  match p with
  | xH => []
  | xO p => 0%Z :: positive_bytes p
  | xI p => 1%Z :: positive_bytes p
  end.

Fixpoint bytes_positive (l : list Z) : positive :=
  match l with
  | [] => xH
  | b :: rest => if decide (b = 0%Z) then xO (bytes_positive rest) else xI (bytes_positive rest)
  end.

Lemma bytes_positive_bytes (p : positive) : bytes_positive (positive_bytes p) = p.
Proof. induction p as [p IH|p IH|]; simpl; by rewrite ?IH. Qed.

Lemma positive_bytes_bytes (p : positive) : Forall is_byte (positive_bytes p).
Proof. induction p; simpl; constructor; try done; unfold is_byte; lia. Qed.

Program Definition countable_message (M : Type) `{Countable M} : ProtoMessage M := {|
  m_encode m := positive_bytes (encode m);
  m_decode l := match decode (bytes_positive l) with Some m => Ok m | None => Err "malformed" end
|}.
Next Obligation. intros. apply positive_bytes_bytes. Qed.
Next Obligation. intros. simpl. by rewrite bytes_positive_bytes, decode_encode. Qed.
