(* ===== verification/RelayStore.v ===== *)
(** The relay's database: users, refresh tokens, machines, the buffer of
    messages for offline machines, certificates.

    Models crates/betcode-relay/src/storage/: models.rs, queries.rs,
    queries_buffer.rs, queries_certs.rs.  A table is a map from its primary key to
    its rows.  A statement fails when it violates a constraint of the schema
    (migrations/): unique columns, foreign keys (which the connection
    enables), checks, and deletes cascade as declared; a failing disk is not
    modelled.  [now] is what [unix_timestamp] returns. *)
From stdpp Require Import gmap strings list fin_maps.
From Stdlib Require Import ZArith Lia.
From S2P Require Import Prelude Protocol.

(** * Rows *)

Record User := mkUser {
  u_id : string;
  u_username : string;
  u_email : string;
  u_password_hash : string;
  u_created_at : Z;
  u_updated_at : Z
}.

Record Token := mkToken {
  t_id : string;
  t_user_id : string;
  t_token_hash : string;
  t_expires_at : Z;
  t_revoked : bool;
  t_created_at : Z;
  t_rotated_at : option Z;
  t_successor_id : option string
}.

Record Machine := mkMachine {
  m_id : string;
  m_name : string;
  m_owner_id : string;
  m_status : string;
  m_registered_at : Z;
  m_last_seen : Z;
  m_metadata : string;
  m_identity_pubkey : option (list Z)
}.

Record BufferedMessage := mkBuffered {
  b_id : Z;
  b_machine_id : string;
  b_request_id : string;
  b_method : string;
  b_payload : list Z;
  b_metadata : string;
  b_priority : Z;
  b_expires_at : Z;
  b_created_at : Z
}.

Record Certificate := mkCertificate {
  c_id : string;
  c_machine_id : option string;
  c_subject_cn : string;
  c_serial_number : string;
  c_not_before : Z;
  c_not_after : Z;
  c_pem_cert : string;
  c_revoked : bool;
  c_created_at : Z
}.

Record RelayDatabase := mkRelayDb {
  users : gmap string User;
  tokens : gmap string Token;
  machines : gmap string Machine;
  buffer : gmap Z BufferedMessage;
  buffer_seq : Z;                    (* AUTOINCREMENT: largest id ever used *)
  certificates : gmap string Certificate
}.

Definition empty_db : RelayDatabase := mkRelayDb ∅ ∅ ∅ ∅ 0 ∅.

Definition with_users (x : gmap string User) (db : RelayDatabase) : RelayDatabase :=
  mkRelayDb x (tokens db) (machines db) (buffer db) (buffer_seq db) (certificates db).
Definition with_tokens (x : gmap string Token) (db : RelayDatabase) : RelayDatabase :=
  mkRelayDb (users db) x (machines db) (buffer db) (buffer_seq db) (certificates db).
Definition with_machines (x : gmap string Machine) (db : RelayDatabase) : RelayDatabase :=
  mkRelayDb (users db) (tokens db) x (buffer db) (buffer_seq db) (certificates db).
Definition with_buffer (x : gmap Z BufferedMessage) (db : RelayDatabase) : RelayDatabase :=
  mkRelayDb (users db) (tokens db) (machines db) x (buffer_seq db) (certificates db).
Definition with_certificates (x : gmap string Certificate) (db : RelayDatabase) : RelayDatabase :=
  mkRelayDb (users db) (tokens db) (machines db) (buffer db) (buffer_seq db) x.

(** * Users *)

Definition get_user (id : string) (db : RelayDatabase) : result DatabaseError User :=
  match users db !! id with
  | Some u => Ok u
  | None => Err (NotFound ("User " +:+ id))
  end.

Definition find_username (username : string) (db : RelayDatabase) : option User :=
  head (filter (λ u, u_username u = username) ((map_to_list (users db)).*2)).

Definition get_user_by_username (username : string) (db : RelayDatabase) : result DatabaseError User :=
  match find_username username db with
  | Some u => Ok u
  | None => Err (NotFound ("User with username " +:+ username))
  end.

Definition create_user (now : Z) (id username email password_hash : string) (db : RelayDatabase)
  : RelayDatabase * result DatabaseError User :=
  match users db !! id, find_username username db with
  | Some _, _ => (db, Err (Query (UniqueViolation "users.id")))
  | None, Some _ => (db, Err (Query (UniqueViolation "users.username")))
  | None, None =>
      let db' := with_users (<[id := mkUser id username email password_hash now now]> (users db)) db in
      (db', get_user id db')
  end.

(** * Refresh tokens *)

Definition get_token (id : string) (db : RelayDatabase) : result DatabaseError Token :=
  match tokens db !! id with
  | Some t => Ok t
  | None => Err (NotFound ("Token " +:+ id))
  end.

Definition create_token (now : Z) (id user_id token_hash : string) (expires_at : Z) (db : RelayDatabase)
  : RelayDatabase * result DatabaseError Token :=
  match tokens db !! id, users db !! user_id with
  | Some _, _ => (db, Err (Query (UniqueViolation "tokens.id")))
  | None, None => (db, Err (Query ForeignKeyViolation))
  | None, Some _ =>
      let db' := with_tokens
        (<[id := mkToken id user_id token_hash expires_at false now None None]> (tokens db)) db in
      (db', get_token id db')
  end.

(** The [WHERE] clause of [get_token_by_hash]. *)
Definition token_usable (now grace_cutoff : Z) (token_hash : string) (t : Token) : bool :=
  bool_decide (t_token_hash t = token_hash) && (now <? t_expires_at t)%Z && negb (t_revoked t) &&
  match t_rotated_at t with None => true | Some r => (grace_cutoff <? r)%Z end.

Definition rotate_token (now : Z) (id successor_id : string) (db : RelayDatabase)
  : RelayDatabase * result DatabaseError bool :=
  match tokens db !! id with
  | Some t =>
      if t_revoked t then (db, Ok false)
      else match tokens db !! successor_id with
      | None => (db, Err (Query ForeignKeyViolation))
      | Some _ =>
          (with_tokens (<[id := mkToken (t_id t) (t_user_id t) (t_token_hash t) (t_expires_at t) (t_revoked t)
                                  (t_created_at t) (Some (default now (t_rotated_at t))) (Some successor_id)]> (tokens db)) db,
           Ok true)
      end
  | None => (db, Ok false)
  end.

Definition set_revoked (t : Token) : Token :=
  mkToken (t_id t) (t_user_id t) (t_token_hash t) (t_expires_at t) true
    (t_created_at t) (t_rotated_at t) (t_successor_id t).

Definition revoke_token (id : string) (db : RelayDatabase) : RelayDatabase * result DatabaseError bool :=
  match tokens db !! id with
  | Some t => (with_tokens (<[id := set_revoked t]> (tokens db)) db, Ok true)
  | None => (db, Ok false)
  end.

Definition revoke_user_tokens (user_id : string) (db : RelayDatabase) : RelayDatabase * result DatabaseError nat :=
  (with_tokens ((λ t, if decide (t_user_id t = user_id) then set_revoked t else t) <$> tokens db) db,
   Ok (length (filter (λ t, t_user_id t = user_id) ((map_to_list (tokens db)).*2)))).

(** * Machines *)

Definition get_machine (id : string) (db : RelayDatabase) : result DatabaseError Machine :=
  match machines db !! id with
  | Some m => Ok m
  | None => Err (NotFound ("Machine " +:+ id))
  end.

Definition create_machine (now : Z) (id name owner_id metadata : string) (db : RelayDatabase)
  : RelayDatabase * result DatabaseError Machine :=
  match machines db !! id, users db !! owner_id with
  | Some _, _ => (db, Err (Query (UniqueViolation "machines.id")))
  | None, None => (db, Err (Query ForeignKeyViolation))
  | None, Some _ =>
      let db' := with_machines
        (<[id := mkMachine id name owner_id "offline" now now metadata None]> (machines db)) db in
      (db', get_machine id db')
  end.

Definition update_machine (id : string) (f : Machine → Machine) (db : RelayDatabase) : RelayDatabase :=
  with_machines (alter f id (machines db)) db.

Definition update_machine_status (now : Z) (id status : string) (db : RelayDatabase)
  : RelayDatabase * result DatabaseError unit :=
  if decide (is_Some (machines db !! id) ∧ status ≠ "online" ∧ status ≠ "offline")
  then (db, Err (Query (CheckViolation "machines.status")))
  else (update_machine id (λ m, mkMachine (m_id m) (m_name m) (m_owner_id m) status (m_registered_at m) now
                                  (m_metadata m) (m_identity_pubkey m)) db, Ok tt).

Definition touch_machine (now : Z) (id : string) (db : RelayDatabase) : RelayDatabase * result DatabaseError unit :=
  (update_machine id (λ m, mkMachine (m_id m) (m_name m) (m_owner_id m) (m_status m) (m_registered_at m) now
                             (m_metadata m) (m_identity_pubkey m)) db, Ok tt).

Definition update_machine_identity_pubkey (id : string) (pubkey : list Z) (db : RelayDatabase)
  : RelayDatabase * result DatabaseError unit :=
  (update_machine id (λ m, mkMachine (m_id m) (m_name m) (m_owner_id m) (m_status m) (m_registered_at m)
                             (m_last_seen m) (m_metadata m) (Some pubkey)) db, Ok tt).

Definition get_machine_identity_pubkey (id : string) (db : RelayDatabase) : result DatabaseError (option (list Z)) :=
  let? m := get_machine id db in Ok (m_identity_pubkey m).

(** Deleting a machine deletes its buffered messages and certificates. *)
Definition remove_machine (id : string) (db : RelayDatabase) : RelayDatabase * result DatabaseError bool :=
  match machines db !! id with
  | Some _ =>
      (mkRelayDb (users db) (tokens db) (delete id (machines db))
         (filter (λ kv, b_machine_id kv.2 ≠ id) (buffer db)) (buffer_seq db)
         (filter (λ kv, c_machine_id kv.2 ≠ Some id) (certificates db)), Ok true)
  | None => (db, Ok false)
  end.

Definition status_matches (status_filter : option string) (m : Machine) : Prop :=
  match status_filter with None => True | Some s => m_status m = s end.

#[export] Instance status_matches_dec (status_filter : option string) (m : Machine) :
  Decision (status_matches status_filter m).
Proof. unfold status_matches. destruct status_filter; apply _. Defined.

Definition owned_machines (owner_id : string) (status_filter : option string) (db : RelayDatabase) : list Machine :=
  filter (λ m, m_owner_id m = owner_id ∧ status_matches status_filter m) ((map_to_list (machines db)).*2).

Definition count_machines (owner_id : string) (status_filter : option string) (db : RelayDatabase) : nat :=
  length (owned_machines owner_id status_filter db).

(** * The message buffer *)

Record BufferMessageParams := mkParams {
  p_machine_id : string;
  p_request_id : string;
  p_method : string;
  p_payload : list Z;
  p_metadata : string;
  p_priority : Z;
  p_ttl_secs : Z
}.

Definition buffer_message (now : Z) (p : BufferMessageParams) (db : RelayDatabase)
  : RelayDatabase * result DatabaseError Z :=
  match machines db !! p_machine_id p with
  | None => (db, Err (Query ForeignKeyViolation))
  | Some _ =>
      let id := (buffer_seq db + 1)%Z in
      let row := mkBuffered id (p_machine_id p) (p_request_id p) (p_method p) (p_payload p) (p_metadata p)
                   (p_priority p) (now + p_ttl_secs p) now in
      (mkRelayDb (users db) (tokens db) (machines db) (<[id := row]> (buffer db)) id (certificates db), Ok id)
  end.

(** [ORDER BY priority DESC, created_at ASC] *)
Definition drain_le (a b : BufferedMessage) : bool :=
  (b_priority b <? b_priority a)%Z ||
  ((b_priority a =? b_priority b)%Z && (b_created_at a <=? b_created_at b)%Z).

Definition live_messages (now : Z) (machine_id : string) (db : RelayDatabase) : list BufferedMessage :=
  filter (λ b, b_machine_id b = machine_id ∧ (now < b_expires_at b)%Z) ((map_to_list (buffer db)).*2).

Definition delete_buffered_message (id : Z) (db : RelayDatabase) : RelayDatabase * result DatabaseError bool :=
  (with_buffer (delete id (buffer db)) db, Ok (bool_decide (is_Some (buffer db !! id)))).

Definition cleanup_expired_buffer (now : Z) (db : RelayDatabase) : RelayDatabase * result DatabaseError nat :=
  (with_buffer (filter (λ kv, (now < b_expires_at kv.2)%Z) (buffer db)) db,
   Ok (length (filter (λ b, (b_expires_at b ≤ now)%Z) ((map_to_list (buffer db)).*2)))).

Definition count_buffered_messages (machine_id : string) (db : RelayDatabase) : nat :=
  length (filter (λ b, b_machine_id b = machine_id) ((map_to_list (buffer db)).*2)).

(** * Certificates *)

Definition get_certificate (id : string) (db : RelayDatabase) : result DatabaseError Certificate :=
  match certificates db !! id with
  | Some c => Ok c
  | None => Err (NotFound ("Certificate " +:+ id))
  end.

Definition create_certificate (now : Z) (id : string) (machine_id : option string) (subject_cn serial : string)
    (not_before not_after : Z) (pem : string) (db : RelayDatabase) : RelayDatabase * result DatabaseError Certificate :=
  match certificates db !! id with
  | Some _ => (db, Err (Query (UniqueViolation "certificates.id")))
  | None =>
      if match machine_id with None => true | Some m => bool_decide (is_Some (machines db !! m)) end then
        let db' := with_certificates
          (<[id := mkCertificate id machine_id subject_cn serial not_before not_after pem false now]> (certificates db)) db in
        (db', get_certificate id db')
      else (db, Err (Query ForeignKeyViolation))
  end.

Definition set_cert_revoked (c : Certificate) : Certificate :=
  mkCertificate (c_id c) (c_machine_id c) (c_subject_cn c) (c_serial_number c) (c_not_before c) (c_not_after c)
    (c_pem_cert c) true (c_created_at c).

Definition revoke_certificate (id : string) (db : RelayDatabase) : RelayDatabase * result DatabaseError bool :=
  (with_certificates (alter set_cert_revoked id (certificates db)) db,
   Ok (bool_decide (is_Some (certificates db !! id)))).

Definition certs_of_serial (serial : string) (db : RelayDatabase) : list Certificate :=
  filter (λ c, c_serial_number c = serial) ((map_to_list (certificates db)).*2).

Definition revoke_certificate_by_serial (serial : string) (db : RelayDatabase)
  : RelayDatabase * result DatabaseError bool :=
  (with_certificates
     ((λ c, if decide (c_serial_number c = serial) then set_cert_revoked c else c) <$> certificates db) db,
   Ok (bool_decide (certs_of_serial serial db ≠ []))).

Section Ordered.
Context {SO : SqlOrder}.

(** Without [ORDER BY] the rows come in any order. *)
Definition any_order {A : Type} (l : list A) : list A := order_by (λ _ _, true) l.

Definition get_token_by_hash (now : Z) (token_hash : string) (grace_window_secs : Z) (db : RelayDatabase)
  : option Token :=
  head (any_order (filter (λ t, token_usable now (now - grace_window_secs) token_hash t = true)
                     ((map_to_list (tokens db)).*2))).

Definition list_machines (owner_id : string) (status_filter : option string) (limit offset : nat) (db : RelayDatabase)
  : list Machine :=
  take limit (drop offset (order_by (λ a b, (m_last_seen b <=? m_last_seen a)%Z) (owned_machines owner_id status_filter db))).

Definition drain_query (now : Z) (machine_id : string) (db : RelayDatabase) : list BufferedMessage :=
  order_by drain_le (live_messages now machine_id db).

Definition get_machine_certificates (machine_id : string) (db : RelayDatabase) : list Certificate :=
  order_by (λ a b, (c_created_at b <=? c_created_at a)%Z)
    (filter (λ c, c_machine_id c = Some machine_id ∧ c_revoked c = false) ((map_to_list (certificates db)).*2)).

Definition get_certificate_by_serial (serial : string) (db : RelayDatabase) : option Certificate :=
  head (any_order (certs_of_serial serial db)).

Definition is_certificate_revoked (serial : string) (db : RelayDatabase) : bool :=
  from_option c_revoked false (head (any_order (certs_of_serial serial db))).

End Ordered.

(** * Well-formed databases *)

(** Keys are the rows' own ids, foreign keys point to rows, user names are
    unique, and buffer ids are at most the largest id used. *)
Record db_ok (db : RelayDatabase) : Prop := {
  ok_users : ∀ id u, users db !! id = Some u → u_id u = id;
  ok_names : ∀ i j u v, users db !! i = Some u → users db !! j = Some v → u_username u = u_username v → i = j;
  ok_tokens : ∀ id t, tokens db !! id = Some t →
    t_id t = id ∧ is_Some (users db !! t_user_id t) ∧
    (∀ s, t_successor_id t = Some s → is_Some (tokens db !! s));
  ok_machines : ∀ id m, machines db !! id = Some m →
    m_id m = id ∧ is_Some (users db !! m_owner_id m) ∧ (m_status m = "online" ∨ m_status m = "offline");
  ok_buffer : ∀ id b, buffer db !! id = Some b →
    b_id b = id ∧ is_Some (machines db !! b_machine_id b) ∧ (id ≤ buffer_seq db)%Z;
  ok_certs : ∀ id c, certificates db !! id = Some c →
    c_id c = id ∧ (∀ m, c_machine_id c = Some m → is_Some (machines db !! m))
}.

(** The statements that write. *)
Inductive Write :=
| WCreateUser (id username email hash : string)
| WCreateToken (id user_id hash : string) (expires_at : Z)
| WRotate (id successor : string)
| WRevoke (id : string)
| WRevokeUser (user_id : string)
| WCreateMachine (id name owner metadata : string)
| WStatus (id status : string)
| WTouch (id : string)
| WPubkey (id : string) (pubkey : list Z)
| WRemoveMachine (id : string)
| WBuffer (p : BufferMessageParams)
| WDeleteBuffered (id : Z)
| WCleanup
| WCreateCert (id : string) (machine_id : option string) (cn serial : string) (not_before not_after : Z) (pem : string)
| WRevokeCert (id : string)
| WRevokeSerial (serial : string).

Definition write (now : Z) (w : Write) (db : RelayDatabase) : RelayDatabase :=
  match w with
  | WCreateUser id username email hash => (create_user now id username email hash db).1
  | WCreateToken id user_id hash expires_at => (create_token now id user_id hash expires_at db).1
  | WRotate id successor => (rotate_token now id successor db).1
  | WRevoke id => (revoke_token id db).1
  | WRevokeUser user_id => (revoke_user_tokens user_id db).1
  | WCreateMachine id name owner metadata => (create_machine now id name owner metadata db).1
  | WStatus id status => (update_machine_status now id status db).1
  | WTouch id => (touch_machine now id db).1
  | WPubkey id pubkey => (update_machine_identity_pubkey id pubkey db).1
  | WRemoveMachine id => (remove_machine id db).1
  | WBuffer p => (buffer_message now p db).1
  | WDeleteBuffered id => (delete_buffered_message id db).1
  | WCleanup => (cleanup_expired_buffer now db).1
  | WCreateCert id m cn serial nb na pem => (create_certificate now id m cn serial nb na pem db).1
  | WRevokeCert id => (revoke_certificate id db).1
  | WRevokeSerial serial => (revoke_certificate_by_serial serial db).1
  end.

(** * Lemmas *)

Lemma find_username_none (username : string) (db : RelayDatabase) :
  find_username username db = None ↔ ∀ id u, users db !! id = Some u → u_username u ≠ username.
Proof.
  unfold find_username. rewrite head_None. split.
  - intros Hf id u Hu Hn. assert (u ∈ filter (λ u, u_username u = username) ((map_to_list (users db)).*2)) as Hin.
    { apply list_elem_of_filter. split; [done|]. apply list_elem_of_fmap. exists (id, u). by rewrite elem_of_map_to_list. }
    rewrite Hf in Hin. by apply elem_of_nil in Hin.
  - intros Hall. destruct (filter _ _) as [|u l] eqn:Hf; [done|].
    assert (u ∈ filter (λ u, u_username u = username) ((map_to_list (users db)).*2)) as [Hn Hu]%list_elem_of_filter
      by (rewrite Hf; by left).
    apply list_elem_of_fmap in Hu as ([id u'] & -> & Hin). apply elem_of_map_to_list in Hin. by destruct (Hall id u').
Qed.

Lemma is_Some_insert {K V : Type} `{Countable K} (m : gmap K V) (k i : K) (v : V) :
  is_Some (m !! i) → is_Some (<[k := v]> m !! i).
Proof. rewrite lookup_insert. case_decide; eauto. Qed.

#[export] Hint Resolve is_Some_insert : betcode.

Section Preserved.
Context (db : RelayDatabase).
Hypothesis Hdb : db_ok db.

Lemma create_user_ok (now : Z) (id username email hash : string) : db_ok (create_user now id username email hash db).1.
Proof.
  unfold create_user. destruct Hdb as [Hu Hn Ht Hm Hb Hc].
  destruct (users db !! id) eqn:Hid; [done|]. destruct (find_username username db) eqn:Hf; [done|].
  rewrite find_username_none in Hf. simpl. split; simpl; [| |..|done|done].
  - intros i u. rewrite lookup_insert. case_decide; [|apply Hu]. subst i. by intros [= <-].
  - intros i j u v. rewrite !lookup_insert. intros Hi Hj Heq.
    destruct (decide (id = i)) as [<-|], (decide (id = j)) as [<-|]; simplify_eq/=; [done| | |eauto].
    + by destruct (Hf j v).
    + by destruct (Hf i u).
  - intros i t Hi. destruct (Ht i t Hi) as (? & ? & ?). eauto with betcode.
  - intros i m Hi. destruct (Hm i m Hi) as (? & ? & ?). eauto with betcode.
Qed.

Lemma with_tokens_ok (ts : gmap string Token) :
  (∀ id t, ts !! id = Some t → t_id t = id ∧ is_Some (users db !! t_user_id t) ∧
     (∀ s, t_successor_id t = Some s → is_Some (ts !! s))) → db_ok (with_tokens ts db).
Proof. intros Hts. destruct Hdb. by split. Qed.

Lemma insert_token_ok (id : string) (t : Token) :
  t_id t = id → is_Some (users db !! t_user_id t) →
  (∀ s, t_successor_id t = Some s → is_Some (tokens db !! s)) →
  db_ok (with_tokens (<[id := t]> (tokens db)) db).
Proof.
  intros H1 H2 H3. apply with_tokens_ok. intros i t'. rewrite lookup_insert. case_decide as Hi.
  - intros [= <-]. subst i. eauto with betcode.
  - intros Ht'. destruct (ok_tokens _ Hdb i t' Ht') as (? & ? & ?). eauto with betcode.
Qed.

Lemma update_machine_ok (id : string) (f : Machine → Machine) :
  (∀ m, m_id (f m) = m_id m ∧ m_owner_id (f m) = m_owner_id m ∧
        (m_status m = "online" ∨ m_status m = "offline" → m_status (f m) = "online" ∨ m_status (f m) = "offline")) →
  db_ok (update_machine id f db).
Proof.
  intros Hf. destruct Hdb as [Hu Hn Ht Hm Hb Hc]. split; simpl; [done..| | |].
  - intros i m (m' & Hi & ->)%lookup_alter_inv. destruct (Hm i m' Hi) as (? & ? & ?).
    destruct (Hf m') as (? & ? & ?). case_decide; [|done]. split_and!; [congruence|congruence|auto].
  - intros i b Hi. destruct (Hb i b Hi) as (? & ? & ?). by rewrite lookup_alter_is_Some.
  - intros i c Hi. destruct (Hc i c Hi) as (? & Hmc). split; [done|]. intros m Hm'. rewrite lookup_alter_is_Some. auto.
Qed.

Lemma with_certificates_ok (cs : gmap string Certificate) :
  (∀ id c, cs !! id = Some c → c_id c = id ∧ (∀ m, c_machine_id c = Some m → is_Some (machines db !! m))) →
  db_ok (with_certificates cs db).
Proof. intros Hcs. destruct Hdb. by split. Qed.

Lemma remove_machine_ok (id : string) : db_ok (remove_machine id db).1.
Proof.
  unfold remove_machine. destruct (machines db !! id) eqn:Hid; [|done]. destruct Hdb as [Hu Hn Ht Hm Hb Hc].
  split; simpl; [done..| | |].
  - intros i m' [_ Hi]%lookup_delete_Some. by apply Hm.
  - intros i b [Hi Hne]%map_lookup_filter_Some. simpl in Hne. destruct (Hb i b Hi) as (? & ? & ?).
    by rewrite lookup_delete_ne.
  - intros i c [Hi Hne]%map_lookup_filter_Some. simpl in Hne. destruct (Hc i c Hi) as (? & Hmc).
    split; [done|]. intros m' Hm'. rewrite lookup_delete_ne by congruence. auto.
Qed.

Lemma with_buffer_ok (bs : gmap Z BufferedMessage) : bs ⊆ buffer db → db_ok (with_buffer bs db).
Proof.
  intros Hsub. destruct Hdb as [Hu Hn Ht Hm Hb Hc]. split; simpl; try done.
  intros i b Hi. apply Hb. by eapply lookup_weaken.
Qed.

Lemma buffer_message_ok (now : Z) (p : BufferMessageParams) : db_ok (buffer_message now p db).1.
Proof.
  unfold buffer_message. destruct (machines db !! p_machine_id p) eqn:Hp; [|done].
  destruct Hdb as [Hu Hn Ht Hm Hb Hc]. split; simpl; try done.
  intros i b. rewrite lookup_insert. case_decide as Hi.
  - intros [= <-]. subst i. simpl. split_and!; [done|by rewrite Hp|lia].
  - intros Hi'. destruct (Hb i b Hi') as (? & ? & ?). split_and!; [done|done|lia].
Qed.

End Preserved.

Lemma write_ok (now : Z) (w : Write) (db : RelayDatabase) : db_ok db → db_ok (write now w db).
Proof.
  intros Hdb. destruct w; simpl.
  - by apply create_user_ok.
  - unfold create_token. destruct (tokens db !! id), (users db !! user_id) eqn:Hu; try done.
    apply insert_token_ok; simpl; [done|done|by rewrite Hu|done].
  - unfold rotate_token. destruct (tokens db !! id) as [t|] eqn:Ht; [|done].
    destruct (t_revoked t); [done|]. destruct (tokens db !! successor) eqn:Hs; [|done].
    destruct (ok_tokens _ Hdb id t Ht) as (? & ? & ?).
    apply insert_token_ok; simpl; [done|done|done|]. intros s [= <-]. by rewrite Hs.
  - unfold revoke_token. destruct (tokens db !! id) as [t|] eqn:Ht; [|done].
    destruct (ok_tokens _ Hdb id t Ht) as (? & ? & ?). by apply insert_token_ok.
  - apply with_tokens_ok; [done|]. intros i t. rewrite lookup_fmap, fmap_Some. intros (t' & Ht & ->).
    destruct (ok_tokens _ Hdb i t' Ht) as (? & ? & Hs). setoid_rewrite lookup_fmap. setoid_rewrite fmap_is_Some.
    by case_decide.
  - unfold create_machine. destruct (machines db !! id) eqn:Hm, (users db !! owner) eqn:Hu; try done.
    destruct Hdb as [Hu' Hn Ht Hm' Hb Hc]. split; simpl; [done..| | |].
    + intros i m. rewrite lookup_insert. case_decide as Hi; [|apply Hm']. intros [= <-]. subst i. simpl.
      rewrite Hu. split_and!; [done|by eexists|by right].
    + intros i b Hi. destruct (Hb i b Hi) as (? & ? & ?). eauto with betcode.
    + intros i c Hi. destruct (Hc i c Hi) as (? & ?). eauto with betcode.
  - unfold update_machine_status. case_decide as Hd; [done|]. cbn [fst].
    destruct (machines db !! id) as [m|] eqn:Hm.
    + apply update_machine_ok; [done|]. intros m'. simpl. split_and!; [done|done|]. intros _.
      destruct (decide (status = "online")), (decide (status = "offline")); auto. destruct Hd. split_and!; [by eexists|done|done].
    + unfold update_machine. replace (alter _ id (machines db)) with (machines db); [by destruct db|].
      apply map_eq. intros i. rewrite lookup_alter. case_decide as Hi; [|done]. subst i. by rewrite Hm.
  - by apply update_machine_ok.
  - by apply update_machine_ok.
  - by apply remove_machine_ok.
  - by apply buffer_message_ok.
  - apply with_buffer_ok; [done|]. apply delete_subseteq.
  - apply with_buffer_ok; [done|]. apply map_filter_subseteq.
  - unfold create_certificate. destruct (certificates db !! id) eqn:Hc; [done|].
    destruct (match machine_id with None => true | Some m => bool_decide (is_Some (machines db !! m)) end) eqn:Hm; [|done].
    apply with_certificates_ok; [done|]. intros i c. rewrite lookup_insert. case_decide as Hi; [|apply (ok_certs _ Hdb)].
    intros [= <-]. subst i. simpl. split; [done|]. intros m ->. by apply bool_decide_eq_true in Hm.
  - apply with_certificates_ok; [done|]. intros i c (c' & Hi & ->)%lookup_alter_inv.
    destruct (ok_certs _ Hdb i c' Hi). by case_decide.
  - apply with_certificates_ok; [done|]. intros i c. rewrite lookup_fmap, fmap_Some. intros (c' & Hi & ->).
    destruct (ok_certs _ Hdb i c' Hi). by case_decide.
Qed.

(** Every sequence of statements, failing ones included, keeps the database
    well formed: unique user names, no dangling references, statuses within
    the declared ones, fresh buffer ids. *)
Theorem database_stays_well_formed (ws : list (Z * Write)) :
  db_ok (foldl (λ db w, write w.1 w.2 db) empty_db ws).
Proof.
  assert (db_ok empty_db) as H0 by (split; simpl; intros *; rewrite lookup_empty; done).
  revert H0. generalize empty_db. induction ws as [|[now w] ws IH]; intros db Hdb; [done|].
  apply IH. by apply write_ok.
Qed.
