(* ===== verification/RelayAuth.v ===== *)
(** Accounts and tokens of the relay: registration, login, refresh-token
    rotation with a grace window, revocation, and the check of access tokens
    on every request.

    Models crates/betcode-relay/src/: auth/claims.rs, auth/jwt.rs,
    server/interceptor.rs and server/auth_svc.rs, on [RelayStore].  Signing
    and checking of JWTs and password hashing are third-party code: the
    classes [JwtLib] and [PasswordLib].  Fresh UUIDs are arguments; a request
    reads the clock once. *)
From stdpp Require Import gmap strings list fin_maps.
From Stdlib Require Import ZArith Lia.
From S2P Require Import Prelude Protocol CryptoSession Fingerprint RelayStore.

(** * Claims and JWTs *)

Record Claims := mkClaims {
  jti : string;
  sub : string;
  username : string;
  iat : Z;
  exp : Z;
  token_type : string
}.

Definition is_access (c : Claims) : bool := bool_decide (token_type c = "access").
Definition is_refresh (c : Claims) : bool := bool_decide (token_type c = "refresh").

(** Signed tokens: encoding, and decoding at a given time, which rejects
    expired tokens (with the library's leeway of a minute). *)
Class JwtLib := {
  jwt_encode : Claims → result string string;
  jwt_decode : Z → string → result string Claims;
  jwt_decode_encode : ∀ c tok now, jwt_encode c = Ok tok → (now ≤ exp c)%Z → jwt_decode now tok = Ok c;
  jwt_decode_only : ∀ c c' tok now, jwt_encode c = Ok tok → jwt_decode now tok = Ok c' → c' = c;
  jwt_decode_expired : ∀ c tok now, jwt_decode now tok = Ok c → (now ≤ exp c + 60)%Z
}.

Class PasswordLib := {
  hash_password : string → result string string;
  verify_password : string → string → result string bool   (* password, hash *)
}.

Inductive JwtSecretError :=
| InsecureDefault
| TooShort (len : nat).

Definition MIN_SECRET_LENGTH : nat := 32.

Definition validate_jwt_secret (secret : string) : result JwtSecretError unit :=
  if decide (secret = "dev-secret-change-me") then Err InsecureDefault
  else if decide (String.length secret < MIN_SECRET_LENGTH) then Err (TooShort (String.length secret))
  else Ok tt.

Record JwtManager := mkJwt {
  access_ttl_secs : Z;
  refresh_ttl_secs : Z
}.

Section Auth.
Context {JL : JwtLib} {PL : PasswordLib} {SH : Sha256} {SO : SqlOrder}.

Definition issue_access_token (now : Z) (uuid user_id user_name : string) (j : JwtManager)
  : result string (string * Z) :=
  let? tok := jwt_encode (mkClaims uuid user_id user_name now (now + access_ttl_secs j) "access") in
  Ok (tok, access_ttl_secs j).

Definition issue_refresh_token (now : Z) (uuid user_id user_name : string) (j : JwtManager)
  : result string (string * Z) :=
  let? tok := jwt_encode (mkClaims uuid user_id user_name now (now + refresh_ttl_secs j) "refresh") in
  Ok (tok, (now + refresh_ttl_secs j)%Z).

Definition validate (now : Z) (tok : string) : result string Claims := jwt_decode now tok.

Definition hash_token (tok : string) : string :=
  foldr String.append EmptyString (hex_byte <$> sha256 (string_bytes tok)).

(** * The interceptor *)

Definition jwt_interceptor (now : Z) (authorization : option string) : result Status Claims :=
  match authorization ≫= strip_prefix "Bearer " with
  | None => Err (mkStatus Unauthenticated "Missing authorization header")
  | Some tok =>
      match validate now tok with
      | Err _ => Err (mkStatus Unauthenticated "Invalid token")
      | Ok claims =>
          if is_access claims then Ok claims
          else Err (mkStatus Unauthenticated "Not an access token")
      end
  end.

(** * The service *)

Record AuthServiceImpl := mkAuth {
  jwt : JwtManager;
  grace_period_secs : Z
}.

Record TokenPair := mkPair {
  token_id : string;
  access_token : string;
  refresh_token_text : string;
  expires_in : Z
}.

(** The fresh UUIDs of one request. *)
Record Uuids := mkUuids {
  access_jti : string;
  refresh_jti : string;
  new_token_id : string;
  new_user_id : string
}.

(** [map_err(|e| Status::internal(format!("...: {e}")))]; the text of the
    underlying error is left out. *)
Definition internal {E A : Type} (prefix : string) (r : result E A) : result Status A :=
  match r with Ok a => Ok a | Err _ => Err (mkStatus Internal prefix) end.

Definition issue_token_pair (now : Z) (ids : Uuids) (user_id user_name : string) (svc : AuthServiceImpl)
    (db : RelayDatabase) : RelayDatabase * result Status TokenPair :=
  match internal "Token creation failed" (issue_access_token now (access_jti ids) user_id user_name (jwt svc)),
        internal "Token creation failed" (issue_refresh_token now (refresh_jti ids) user_id user_name (jwt svc)) with
  | Err s, _ => (db, Err s)
  | Ok _, Err s => (db, Err s)
  | Ok (access, ttl), Ok (refresh, refresh_exp) =>
      let '(db', r) := create_token now (new_token_id ids) user_id (hash_token refresh) refresh_exp db in
      (db', let? _ := internal "Token storage failed" r in
            Ok (mkPair (new_token_id ids) access refresh ttl))
  end.

Definition login (now : Z) (ids : Uuids) (svc : AuthServiceImpl) (user_name password : string) (db : RelayDatabase)
  : RelayDatabase * result Status (TokenPair * string) :=
  match get_user_by_username user_name db with
  | Err _ => (db, Err (mkStatus Unauthenticated "Invalid credentials"))
  | Ok user =>
      match verify_password password (u_password_hash user) with
      | Err _ => (db, Err (mkStatus Internal "Password verification failed"))
      | Ok false => (db, Err (mkStatus Unauthenticated "Invalid credentials"))
      | Ok true =>
          let '(db', r) := issue_token_pair now ids (u_id user) (u_username user) svc db in
          (db', let? toks := r in Ok (toks, u_id user))
      end
  end.

Definition register (now : Z) (ids : Uuids) (svc : AuthServiceImpl) (user_name password email : string)
    (db : RelayDatabase) : RelayDatabase * result Status (TokenPair * string) :=
  if decide (String.length user_name < 3)
  then (db, Err (mkStatus InvalidArgument "Username must be at least 3 characters"))
  else if decide (String.length password < 8)
  then (db, Err (mkStatus InvalidArgument "Password must be at least 8 characters"))
  else if is_ok (get_user_by_username user_name db)
  then (db, Err (mkStatus AlreadyExists "Username already taken"))
  else match hash_password password with
  | Err _ => (db, Err (mkStatus Internal "Password hashing failed"))
  | Ok hash =>
      let '(db1, r1) := create_user now (new_user_id ids) user_name email hash db in
      match r1 with
      | Err _ => (db1, Err (mkStatus Internal "User creation failed"))
      | Ok _ =>
          let '(db2, r2) := issue_token_pair now ids (new_user_id ids) user_name svc db1 in
          (db2, let? toks := r2 in Ok (toks, new_user_id ids))
      end
  end.

Definition refresh_token (now : Z) (ids : Uuids) (svc : AuthServiceImpl) (tok : string) (db : RelayDatabase)
  : RelayDatabase * result Status TokenPair :=
  match validate now tok with
  | Err _ => (db, Err (mkStatus Unauthenticated "Invalid refresh token"))
  | Ok claims =>
      if is_refresh claims then
        match get_token_by_hash now (hash_token tok) (grace_period_secs svc) db with
        | None => (db, Err (mkStatus Unauthenticated "Refresh token revoked or expired"))
        | Some stored =>
            let db1 := match t_successor_id stored with
                       | Some s => (revoke_token s db).1
                       | None => db
                       end in
            let '(db2, r) := issue_token_pair now ids (sub claims) (username claims) svc db1 in
            match r with
            | Err s => (db2, Err s)
            | Ok toks =>
                let '(db3, r3) := rotate_token now (t_id stored) (token_id toks) db2 in
                (db3, let? _ := internal "Token rotation failed" r3 in Ok toks)
            end
        end
      else (db, Err (mkStatus InvalidArgument "Not a refresh token"))
  end.

Definition revoke (now : Z) (svc : AuthServiceImpl) (tok : string) (db : RelayDatabase)
  : RelayDatabase * result Status bool :=
  match get_token_by_hash now (hash_token tok) (grace_period_secs svc) db with
  | Some t => let '(db', r) := revoke_token (t_id t) db in (db', internal "Revocation failed" r)
  | None => (db, Ok false)
  end.

(** Requests of the service, and their effect on the database. *)
Inductive AuthOp :=
| OpLogin (ids : Uuids) (user_name password : string)
| OpRegister (ids : Uuids) (user_name password email : string)
| OpRefresh (ids : Uuids) (tok : string)
| OpRevoke (tok : string).

Definition auth_step (svc : AuthServiceImpl) (now : Z) (op : AuthOp) (db : RelayDatabase) : RelayDatabase :=
  match op with
  | OpLogin ids u p => (login now ids svc u p db).1
  | OpRegister ids u p e => (register now ids svc u p e db).1
  | OpRefresh ids tok => (refresh_token now ids svc tok db).1
  | OpRevoke tok => (revoke now svc tok db).1
  end.

End Auth.

(** * Rows are never lost *)

(** What later statements leave of a token: its text's hash, its expiry, a
    revocation, and the time of its first rotation. *)
Definition token_kept (t t' : Token) : Prop :=
  t_id t' = t_id t ∧ t_token_hash t' = t_token_hash t ∧ t_expires_at t' = t_expires_at t ∧
  (t_revoked t = true → t_revoked t' = true) ∧
  (∀ r, t_rotated_at t = Some r → t_rotated_at t' = Some r).

#[export] Instance token_kept_preorder : PreOrder token_kept.
Proof.
  split.
  - intros t. by split_and!.
  - intros t1 t2 t3 (? & ? & ? & ? & ?) (? & ? & ? & ? & ?). split_and!; try congruence; auto.
Qed.

Lemma token_kept_refl (db : RelayDatabase) (id : string) (t : Token) :
  tokens db !! id = Some t → ∃ t', tokens db !! id = Some t' ∧ token_kept t t'.
Proof. intros Ht. by exists t. Qed.

#[export] Hint Resolve token_kept_refl : betcode.

Lemma write_keeps_token (now : Z) (w : Write) (db : RelayDatabase) (id : string) (t : Token) :
  tokens db !! id = Some t → ∃ t', tokens (write now w db) !! id = Some t' ∧ token_kept t t'.
Proof.
  intros Ht. destruct w; simpl;
    unfold create_user, create_machine, update_machine_status, touch_machine, update_machine_identity_pubkey,
      remove_machine, buffer_message, delete_buffered_message, cleanup_expired_buffer, create_certificate,
      revoke_certificate, revoke_certificate_by_serial; try (split_matches; by eauto with betcode).
  - unfold create_token. destruct (tokens db !! id0) eqn:H0, (users db !! user_id); simpl; try by eauto with betcode.
    exists t. rewrite lookup_insert_ne by congruence. done.
  - unfold rotate_token. destruct (tokens db !! id0) as [t0|] eqn:H0; [|by eauto with betcode].
    destruct (t_revoked t0) eqn:Hr; [by eauto with betcode|].
    destruct (tokens db !! successor); [|by eauto with betcode]. simpl.
    destruct (decide (id0 = id)) as [->|Hne].
    + rewrite lookup_insert_eq. simplify_eq. eexists. split; [done|]. split_and!; simpl; try done.
      * congruence.
      * by intros r ->.
    + rewrite lookup_insert_ne by done. eauto with betcode.
  - unfold revoke_token. destruct (tokens db !! id0) as [t0|] eqn:H0; [|by eauto with betcode]. simpl.
    destruct (decide (id0 = id)) as [->|Hne].
    + rewrite lookup_insert_eq. simplify_eq. by eexists.
    + rewrite lookup_insert_ne by done. eauto with betcode.
  - rewrite lookup_fmap, Ht. simpl. eexists. split; [done|]. by case_decide.
Qed.

Definition writes (now : Z) (ws : list Write) (db : RelayDatabase) : RelayDatabase :=
  foldl (λ db w, write now w db) db ws.

Lemma writes_keep_token (now : Z) (ws : list Write) (db : RelayDatabase) (id : string) (t : Token) :
  tokens db !! id = Some t → ∃ t', tokens (writes now ws db) !! id = Some t' ∧ token_kept t t'.
Proof.
  revert db t. induction ws as [|w ws IH]; intros db t Ht; [by eauto with betcode|]. simpl.
  destruct (write_keeps_token now w db id t Ht) as (t1 & H1 & K1).
  destruct (IH _ _ H1) as (t2 & H2 & K2). exists t2. split; [done|]. by transitivity t1.
Qed.

Section Theorems.
Context {JL : JwtLib} {PL : PasswordLib} {SH : Sha256} {SO : SqlOrder}.

Lemma issue_token_pair_writes (now : Z) (ids : Uuids) (uid uname : string) (svc : AuthServiceImpl) (db : RelayDatabase) :
  ∃ ws, (issue_token_pair now ids uid uname svc db).1 = writes now ws db.
Proof.
  unfold issue_token_pair.
  destruct (internal _ (issue_access_token _ _ _ _ _)) as [[a ttl]|s]; [|by exists []].
  destruct (internal _ (issue_refresh_token _ _ _ _ _)) as [[r re]|s]; [|by exists []].
  exists [WCreateToken (new_token_id ids) uid (hash_token r) re]. simpl.
  by destruct (create_token _ _ _ _ _ _).
Qed.

(** A request only runs statements of the store. *)
Lemma auth_step_writes (svc : AuthServiceImpl) (now : Z) (op : AuthOp) (db : RelayDatabase) :
  ∃ ws, auth_step svc now op db = writes now ws db.
Proof.
  destruct op as [ids u p|ids u p e|ids tok|tok]; simpl.
  - unfold login. destruct (get_user_by_username u db) as [user|]; [|by exists []].
    destruct (verify_password _ _) as [[]|]; [|by exists []..].
    destruct (issue_token_pair_writes now ids (u_id user) (u_username user) svc db) as [ws Hws]. exists ws.
    by destruct (issue_token_pair _ _ _ _ _ _).
  - unfold register. repeat (case_decide; [by exists []|]). destruct (is_ok _); [by exists []|].
    destruct (hash_password p) as [h|]; [|by exists []].
    pose proof (eq_refl (create_user now (new_user_id ids) u e h db).1) as Hdb.
    destruct (create_user now (new_user_id ids) u e h db) as [db1 [user|]] eqn:Hc;
      [|exists [WCreateUser (new_user_id ids) u e h]; simpl; by rewrite Hc].
    destruct (issue_token_pair_writes now ids (new_user_id ids) u svc db1) as [ws Hws].
    exists (WCreateUser (new_user_id ids) u e h :: ws). simpl. rewrite Hc. simpl.
    by destruct (issue_token_pair _ _ _ _ _ _).
  - unfold refresh_token. destruct (validate now tok) as [c|]; [|by exists []].
    destruct (is_refresh c); [|by exists []].
    destruct (get_token_by_hash _ _ _ _) as [st|]; [|by exists []].
    assert (∃ ws, match t_successor_id st with Some s => (revoke_token s db).1 | None => db end = writes now ws db) as [ws1 ->].
    { destruct (t_successor_id st) as [s|]; [by exists [WRevoke s]|by exists []]. }
    destruct (issue_token_pair_writes now ids (sub c) (username c) svc (writes now ws1 db)) as [ws2 Hws2].
    destruct (issue_token_pair _ _ _ _ _ _) as [db2 [toks|s]]; simpl in Hws2; subst db2.
    + exists (ws1 ++ ws2 ++ [WRotate (t_id st) (token_id toks)]). unfold writes. rewrite !foldl_app. simpl.
      by destruct (rotate_token _ _ _ _).
    + exists (ws1 ++ ws2). unfold writes. by rewrite foldl_app.
  - unfold revoke. destruct (get_token_by_hash _ _ _ _) as [t|]; [|by exists []].
    exists [WRevoke (t_id t)]. simpl. by destruct (revoke_token _ _).
Qed.

Definition auth_run (svc : AuthServiceImpl) (trace : list (Z * AuthOp)) (db : RelayDatabase) : RelayDatabase :=
  foldl (λ db call, auth_step svc call.1 call.2 db) db trace.

Lemma auth_run_keeps_token (svc : AuthServiceImpl) (trace : list (Z * AuthOp)) (db : RelayDatabase) (id : string) (t : Token) :
  tokens db !! id = Some t → ∃ t', tokens (auth_run svc trace db) !! id = Some t' ∧ token_kept t t'.
Proof.
  revert db t. induction trace as [|[now op] trace IH]; intros db t Ht; [by eauto with betcode|]. simpl.
  destruct (auth_step_writes svc now op db) as [ws ->].
  destruct (writes_keep_token now ws db id t Ht) as (t1 & H1 & K1).
  destruct (IH _ _ H1) as (t2 & H2 & K2). exists t2. split; [done|]. by transitivity t1.
Qed.

Lemma get_token_by_hash_some (now : Z) (h : string) (grace : Z) (db : RelayDatabase) (t : Token) :
  get_token_by_hash now h grace db = Some t →
  ∃ id, tokens db !! id = Some t ∧ token_usable now (now - grace) h t = true.
Proof.
  unfold get_token_by_hash, any_order. intros Hh. apply head_Some_elem_of in Hh. rewrite order_by_perm in Hh.
  apply list_elem_of_filter in Hh as [Hu Hin]. apply list_elem_of_fmap in Hin as ([id t'] & -> & Hin).
  apply elem_of_map_to_list in Hin. eauto.
Qed.

(** C32: The grace window of a rotated refresh token cannot be stretched: whatever
    requests follow (retries with the same token included), once the grace
    period after its first rotation is over, or once it has been revoked, the
    token is refused and the database is left as it is. *)
Theorem rotated_token_expires (svc : AuthServiceImpl) (trace : list (Z * AuthOp)) (db : RelayDatabase)
    (now : Z) (ids : Uuids) (tok id : string) (t : Token) :
  tokens db !! id = Some t →
  (t_revoked t = true ∨ ∃ r, t_rotated_at t = Some r ∧ (r + grace_period_secs svc ≤ now)%Z) →
  let db' := auth_run svc trace db in
  (∀ i t', tokens db' !! i = Some t' → t_token_hash t' = hash_token tok → i = id) →
  (refresh_token now ids svc tok db').1 = db' ∧
  ∃ s, (refresh_token now ids svc tok db').2 = Err s ∧ (code s = Unauthenticated ∨ code s = InvalidArgument).
Proof.
  intros Ht Hend db' Huniq. destruct (auth_run_keeps_token svc trace db id t Ht) as (t1 & H1 & _ & _ & _ & Hrev & Hrot).
  unfold refresh_token. destruct (validate now tok) as [c|]; [|eauto].
  destruct (is_refresh c); [|eauto].
  destruct (get_token_by_hash now (hash_token tok) (grace_period_secs svc) db') as [st|] eqn:Hg; [|eauto].
  exfalso. apply get_token_by_hash_some in Hg as (i & Hi & Hu). unfold token_usable in Hu.
  rewrite !andb_true_iff, bool_decide_eq_true in Hu. destruct Hu as [[[Hh _] Hnr] Hw].
  assert (i = id) as -> by eauto. fold db' in H1. rewrite H1 in Hi. injection Hi as ->.
  destruct Hend as [Hr|(r & Hr & Hle)].
  - rewrite Hrev in Hnr by done. done.
  - rewrite (Hrot r Hr) in Hw. apply Z.ltb_lt in Hw. lia.
Qed.

(** A successful refresh: the presented token is linked to its successor and
    keeps the time of its first rotation, the new token is live until its
    expiry, a successor that an earlier attempt produced is revoked, and no
    other token changes. *)
Theorem refresh_rotates (svc : AuthServiceImpl) (now : Z) (ids : Uuids) (tok : string) (db db' : RelayDatabase)
    (toks : TokenPair) :
  db_ok db → refresh_token now ids svc tok db = (db', Ok toks) →
  ∃ old claims,
    get_token_by_hash now (hash_token tok) (grace_period_secs svc) db = Some old ∧
    validate now tok = Ok claims ∧ is_refresh claims = true ∧
    token_id toks = new_token_id ids ∧ tokens db !! new_token_id ids = None ∧
    tokens db' !! new_token_id ids =
      Some (mkToken (new_token_id ids) (sub claims) (hash_token (refresh_token_text toks))
              (now + refresh_ttl_secs (jwt svc)) false now None None) ∧
    (t_successor_id old ≠ Some (t_id old) →
     tokens db' !! t_id old =
       Some (mkToken (t_id old) (t_user_id old) (t_token_hash old) (t_expires_at old) false (t_created_at old)
               (Some (default now (t_rotated_at old))) (Some (new_token_id ids)))) ∧
    (∀ i, i ≠ t_id old → i ≠ new_token_id ids →
       tokens db' !! i = (if decide (t_successor_id old = Some i) then set_revoked <$> tokens db !! i else tokens db !! i)).
Proof.
  intros Hok. unfold refresh_token. destruct (validate now tok) as [c|] eqn:Hv; [|done].
  destruct (is_refresh c) eqn:Hc; [|done].
  destruct (get_token_by_hash now (hash_token tok) (grace_period_secs svc) db) as [old|] eqn:Hg; [|done].
  pose proof (get_token_by_hash_some _ _ _ _ _ Hg) as (i0 & Hold & Hu).
  destruct (ok_tokens _ Hok i0 old Hold) as (Hid & _ & _). subst i0.
  set (db1 := match t_successor_id old with Some s => (revoke_token s db).1 | None => db end).
  assert (∀ i, tokens db1 !! i =
            if decide (t_successor_id old = Some i) then set_revoked <$> tokens db !! i else tokens db !! i) as Hdb1.
  { intros i. subst db1. destruct (t_successor_id old) as [s|]; [|by rewrite decide_False].
    unfold revoke_token. destruct (tokens db !! s) as [ts|] eqn:Hs; simpl.
    - rewrite lookup_insert. repeat case_decide; simplify_eq; [by rewrite Hs|done].
    - case_decide; simplify_eq; by rewrite ?Hs. }
  unfold issue_token_pair, issue_access_token, issue_refresh_token.
  destruct (jwt_encode (mkClaims (access_jti ids) _ _ _ _ _)) as [a|]; simpl; [|done].
  destruct (jwt_encode (mkClaims (refresh_jti ids) _ _ _ _ _)) as [rf|]; simpl; [|done].
  unfold create_token. destruct (tokens db1 !! new_token_id ids) as [tn|] eqn:Hnew;
    [by destruct (users db1 !! sub c)|].
  destruct (users db1 !! sub c) as [u|]; [|done]. simpl.
  unfold get_token at 1. cbn [tokens with_tokens]. rewrite lookup_insert_eq. simpl. unfold rotate_token. cbn [tokens with_tokens].
  assert (tokens db !! new_token_id ids = None) as Hfresh.
  { rewrite Hdb1 in Hnew. case_decide; [by apply fmap_None in Hnew|done]. }
  assert (t_id old ≠ new_token_id ids) as Hne by congruence.
  rewrite lookup_insert_ne, Hdb1, lookup_insert_eq by done.
  unfold token_usable in Hu. rewrite !andb_true_iff, negb_true_iff in Hu. destruct Hu as [[_ Hnr] _].
  destruct (decide (t_successor_id old = Some (t_id old))) as [Hself|Hself].
  - rewrite Hold. simpl. intros [= <- <-]. exists old, c. split_and!; try done.
    + cbn [tokens with_tokens]. by rewrite lookup_insert_eq.
    + intros i Hi1 Hi2. simpl. by rewrite lookup_insert_ne.
  - rewrite Hold, Hnr. simpl. intros [= <- <-]. exists old, c. split_and!; try done; simpl.
    + by rewrite lookup_insert_ne, lookup_insert_eq by done.
    + intros _. by rewrite lookup_insert_eq.
    + intros i Hi1 Hi2. rewrite !lookup_insert_ne by done. apply Hdb1.
Qed.

(** Access and refresh tokens are not interchangeable: the interceptor lets
    through only unexpired signed tokens of type access, and the refresh
    endpoint refuses an access token without touching the database. *)
Theorem token_kinds_separate (svc : AuthServiceImpl) (now t0 : Z) (uuid uid uname tok : string) (ttl : Z)
    (ids : Uuids) (db : RelayDatabase) :
  (issue_refresh_token t0 uuid uid uname (jwt svc) = Ok (tok, ttl) →
   ∃ s, jwt_interceptor now (Some ("Bearer " +:+ tok)) = Err s ∧ code s = Unauthenticated) ∧
  (issue_access_token t0 uuid uid uname (jwt svc) = Ok (tok, ttl) →
   ∃ s, refresh_token now ids svc tok db = (db, Err s)) ∧
  (∀ header claims, jwt_interceptor now header = Ok claims →
     ∃ text, header = Some ("Bearer " +:+ text) ∧ jwt_decode now text = Ok claims ∧
             token_type claims = "access" ∧ (now ≤ exp claims + 60)%Z).
Proof.
  split_and!.
  - unfold issue_refresh_token. destruct (jwt_encode _) as [tk|] eqn:He; [|done]. intros [= -> _].
    unfold jwt_interceptor. cbn [mbind option_bind].
    rewrite (proj2 (strip_prefix_spec "Bearer " ("Bearer " +:+ tok) tok) eq_refl).
    unfold validate. destruct (jwt_decode now tok) as [c|] eqn:Hd; [|eauto].
    rewrite (jwt_decode_only _ _ _ _ He Hd). eauto.
  - unfold issue_access_token. destruct (jwt_encode _) as [tk|] eqn:He; [|done]. intros [= -> _].
    unfold refresh_token, validate. destruct (jwt_decode now tok) as [c|] eqn:Hd; [|eauto].
    rewrite (jwt_decode_only _ _ _ _ He Hd). eauto.
  - intros [header|] claims; unfold jwt_interceptor; cbn [mbind option_bind]; [|done].
    destruct (strip_prefix "Bearer " header) as [text|] eqn:Hs; [|done]. apply strip_prefix_spec in Hs as ->.
    unfold validate. destruct (jwt_decode now text) as [c|] eqn:Hd; [|done].
    destruct (is_access c) eqn:Ha; [|done]. intros [= <-]. exists text.
    apply bool_decide_eq_true in Ha. split_and!; try done. by eapply jwt_decode_expired.
Qed.

End Theorems.

(** * Witnesses *)

#[export] Instance Claims_eq_dec : EqDecision Claims.
Proof. solve_decision. Defined.

(** A signer that knows the claims of finitely many tokens; a token's text is
    its [jti]. *)
Program Definition toy_jwt (known : gmap string Claims) : JwtLib := {|
  jwt_encode c := if decide (known !! jti c = Some c) then Ok (jti c) else Err "unknown";
  jwt_decode now tok :=
    match known !! tok with
    | Some c => if decide (now ≤ exp c + 60)%Z then Ok c else Err "ExpiredSignature"
    | None => Err "InvalidToken"
    end
|}.
Next Obligation. intros known c tok now. simpl. case_decide as Hk; [|done]. intros [= <-] Hn. rewrite Hk. rewrite decide_True by lia. done. Qed.
Next Obligation.
  intros known c c' tok now. simpl. case_decide as Hk; [|done]. intros [= <-]. rewrite Hk. case_decide; [|done]. by intros [= <-].
Qed.
Next Obligation. intros known c tok now. simpl. case_match; [|done]. case_decide; [|done]. by intros [= <-]. Qed.

Definition toy_passwords : PasswordLib := {|
  hash_password p := Ok p;
  verify_password p h := Ok (bool_decide (p = h))
|}.

Definition toy_svc : AuthServiceImpl := mkAuth (mkJwt 10 1000) 30.

(** Refresh tokens of one user: [r1], its successors, and access tokens. *)
Definition toy_known : gmap string Claims := {[
  "r1" := mkClaims "r1" "u" "alice" 0 1000 "refresh";
  "r22" := mkClaims "r22" "u" "alice" 10 1010 "refresh";
  "r333" := mkClaims "r333" "u" "alice" 12 1012 "refresh";
  "r4444" := mkClaims "r4444" "u" "alice" 14 1014 "refresh";
  "a2" := mkClaims "a2" "u" "alice" 10 20 "access";
  "a3" := mkClaims "a3" "u" "alice" 12 22 "access";
  "a4" := mkClaims "a4" "u" "alice" 14 24 "access" ]}.

#[local] Existing Instance toy_passwords.
#[local] Existing Instance toy_sha256.

Definition toy_db : RelayDatabase :=
  writes 0 [WCreateUser "u" "alice" "alice@example.com" "pw"; WCreateToken "t1" "u" (hash_token "r1") 1000] empty_db.

Lemma toy_db_ok : db_ok toy_db.
Proof.
  do 2 apply write_ok. split; simpl; intros *; rewrite lookup_empty; done.
Qed.

Definition toy_refresh (now : Z) (ids : Uuids) (tok : string) (db : RelayDatabase) :=
  refresh_token (JL := toy_jwt toy_known) now ids toy_svc tok db.

Lemma rotated_token_expires_witness :
  let db := (toy_refresh 10 (mkUuids "a2" "r22" "t2" "") "r1" toy_db).1 in
  (toy_refresh 40 (mkUuids "a4" "r4444" "t4" "") "r1" db).1 = db.
Proof.
  intros db.
  destruct (rotated_token_expires (JL := toy_jwt toy_known) toy_svc [] db 40 (mkUuids "a4" "r4444" "t4" "") "r1" "t1"
              (mkToken "t1" "u" (hash_token "r1") 1000 false 0 (Some 10%Z) (Some "t2"))) as [H _].
  - reflexivity.
  - right. exists 10%Z. split; [reflexivity|vm_compute; congruence].
  - intros i t' Hi Hh. revert i t' Hi Hh.
    apply (bool_decide_unpack (map_Forall (λ i t', t_token_hash t' = hash_token "r1" → i = "t1") (tokens db))).
    vm_compute. exact I.
  - exact H.
Defined.

Lemma refresh_rotates_witness :
  let r := toy_refresh 10 (mkUuids "a2" "r22" "t2" "") "r1" toy_db in
  tokens r.1 !! "t2" = Some (mkToken "t2" "u" (hash_token "r22") 1010 false 10 None None) ∧
  t_successor_id <$> tokens r.1 !! "t1" = Some (Some "t2").
Proof.
  destruct (refresh_rotates (JL := toy_jwt toy_known) toy_svc 10 (mkUuids "a2" "r22" "t2" "") "r1" toy_db
              (toy_refresh 10 (mkUuids "a2" "r22" "t2" "") "r1" toy_db).1 (mkPair "t2" "a2" "r22" 10))
    as (old & c & Hg & Hv & _ & _ & _ & Hnew & Hold & _).
  - exact toy_db_ok.
  - reflexivity.
  - vm_compute in Hv. injection Hv as <-. vm_compute in Hg. injection Hg as <-. split; [exact Hnew|].
    cbn [t_id t_successor_id] in Hold. rewrite Hold by discriminate. reflexivity.
Defined.

(** A refresh with the first token after its successor has itself been used:
    the successor is revoked, but the token that replaced the successor stays
    usable next to the newly issued one. *)
Theorem reused_token_forks_chain :
  let db1 := (toy_refresh 10 (mkUuids "a2" "r22" "t2" "") "r1" toy_db).1 in
  let db2 := (toy_refresh 12 (mkUuids "a3" "r333" "t3" "") "r22" db1).1 in
  let db3 := (toy_refresh 14 (mkUuids "a4" "r4444" "t4" "") "r1" db2).1 in
  t_revoked <$> tokens db3 !! "t2" = Some true ∧
  is_Some (get_token_by_hash 15 (hash_token "r333") 30 db3) ∧
  is_Some (get_token_by_hash 15 (hash_token "r4444") 30 db3).
Proof. vm_compute. split_and!; [reflexivity|by eexists|by eexists]. Qed.

Lemma token_kinds_separate_witness :
  ∃ s, jwt_interceptor (JL := toy_jwt toy_known) 20 (Some ("Bearer " +:+ "r22")) = Err s ∧ code s = Unauthenticated.
Proof.
  destruct (token_kinds_separate (JL := toy_jwt toy_known) toy_svc 20 10 "r22" "u" "alice" "r22" 1010
              (mkUuids "a4" "r4444" "t4" "") toy_db) as [H _].
  apply H. reflexivity.
Defined.
