(* ===== verification/RelayTunnel.v ===== *)
(** Tunnels between the relay and the daemons: connections and their pending
    requests, the registry, request forwarding, the offline buffer, and the
    tunnel service.

    Models crates/betcode-relay/src/: registry/connection.rs,
    router/forwarder.rs, buffer/manager.rs and server/tunnel_svc.rs, with
    verify_machine_ownership of server/grpc_util.rs, on [RelayStore].

    Connections live in a heap of shared objects, as the [Arc]s of the code
    do: the registry and the task that serves a tunnel hold the same object.
    Every waiter (the receiving end of a oneshot or of a stream channel) has
    an identity; [dropped] are the waiters whose receiver is gone, [log] is
    what was delivered: waiter, connection it came from, frame.  [registered]
    records for what each waiter was created.  The channel to a daemon is a
    bounded queue.  JSON of the metadata is third-party: the class
    [MetadataJson]. *)
From stdpp Require Import gmap strings list fin_maps.
From Stdlib Require Import ZArith Lia.
From S2P Require Import Prelude Protocol RelayStore RelayAuth.

(** * Frames *)

Definition build_request_frame (now : Z) (rid method : string) (data : list Z) (metadata : gmap string string) : TunnelFrame :=
  mkFrame rid FtRequest now
    (Some (StreamData (mkStreamPayload method (Some (mkEncryptedPayload data [] [])) 0 metadata))).

Definition error_frame (now : Z) (rid : string) (error_code : TunnelErrorCode) (text : string) : TunnelFrame :=
  mkFrame rid FtError now (Some (ErrorPayload error_code text)).

(** * Bounded channels *)

Record Chan := mkChan {
  queue : list TunnelFrame;
  capacity : nat;
  rx_alive : bool
}.

Inductive SendResult :=
| Sent (c : Chan)
| SendError     (* the receiver is gone *)
| Blocked.      (* no room: the sender waits *)

Definition chan_send (f : TunnelFrame) (c : Chan) : SendResult :=
  if rx_alive c then
    if decide (length (queue c) < capacity c) then Sent (mkChan (queue c ++ [f]) (capacity c) true)
    else Blocked
  else SendError.

(** * Connections (registry/connection.rs) *)

Record TunnelConnection := mkConn {
  conn_machine : string;
  conn_owner : string;
  frame_tx : Chan;
  pending : gmap string nat;
  stream_pending : gmap string nat;
  cancelled_streams : gset string
}.

Definition conn_new (machine owner : string) (tx : Chan) : TunnelConnection := mkConn machine owner tx ∅ ∅ ∅.

Definition with_tx (tx : Chan) (c : TunnelConnection) : TunnelConnection :=
  mkConn (conn_machine c) (conn_owner c) tx (pending c) (stream_pending c) (cancelled_streams c).
Definition with_pending (p : gmap string nat) (c : TunnelConnection) : TunnelConnection :=
  mkConn (conn_machine c) (conn_owner c) (frame_tx c) p (stream_pending c) (cancelled_streams c).
Definition with_streams (p : gmap string nat) (c : TunnelConnection) : TunnelConnection :=
  mkConn (conn_machine c) (conn_owner c) (frame_tx c) (pending c) p (cancelled_streams c).
Definition with_cancelled (s : gset string) (c : TunnelConnection) : TunnelConnection :=
  mkConn (conn_machine c) (conn_owner c) (frame_tx c) (pending c) (stream_pending c) s.

Inductive WaiterKind := Unary | Stream.

Record Relay := mkRelay {
  db : RelayDatabase;
  conns : gmap nat TunnelConnection;
  registry : gmap string nat;
  next_id : nat;
  dropped : gset nat;
  registered : gmap nat (WaiterKind * nat * string);
  log : list (nat * nat * TunnelFrame)
}.

Definition with_db (d : RelayDatabase) (r : Relay) : Relay :=
  mkRelay d (conns r) (registry r) (next_id r) (dropped r) (registered r) (log r).
Definition with_conns (cs : gmap nat TunnelConnection) (r : Relay) : Relay :=
  mkRelay (db r) cs (registry r) (next_id r) (dropped r) (registered r) (log r).
Definition with_registry (g : gmap string nat) (r : Relay) : Relay :=
  mkRelay (db r) (conns r) g (next_id r) (dropped r) (registered r) (log r).

Definition update_conn (c : nat) (f : TunnelConnection → TunnelConnection) (r : Relay) : Relay :=
  with_conns (alter f c (conns r)) r.

Definition deliver (w c : nat) (f : TunnelFrame) (r : Relay) : Relay :=
  mkRelay (db r) (conns r) (registry r) (next_id r) (dropped r) (registered r) (log r ++ [(w, c, f)]).

(** A fresh waiter of connection [c] for a request. *)
Definition new_waiter (k : WaiterKind) (c : nat) (rid : string) (r : Relay) : Relay * nat :=
  (mkRelay (db r) (conns r) (registry r) (S (next_id r)) (dropped r)
     (<[next_id r := (k, c, rid)]> (registered r)) (log r), next_id r).

Definition register_pending (c : nat) (rid : string) (r : Relay) : Relay * nat :=
  let '(r', w) := new_waiter Unary c rid r in
  (update_conn c (λ cn, with_pending (<[rid := w]> (pending cn)) cn) r', w).

Definition complete_pending (c : nat) (rid : string) (f : TunnelFrame) (r : Relay) : Relay * bool :=
  match conns r !! c with
  | None => (r, false)
  | Some cn =>
      let r' := update_conn c (λ cn, with_pending (delete rid (pending cn)) cn) r in
      match pending cn !! rid with
      | Some w => if decide (w ∈ dropped r) then (r', false) else (deliver w c f r', true)
      | None => (r', false)
      end
  end.

Definition register_stream_pending (c : nat) (rid : string) (r : Relay) : Relay * nat :=
  let '(r', w) := new_waiter Stream c rid r in
  (update_conn c (λ cn, with_streams (<[rid := w]> (stream_pending cn)) cn) r', w).

Definition send_stream_frame (c : nat) (rid : string) (f : TunnelFrame) (r : Relay) : Relay * bool :=
  match conns r !! c ≫= λ cn, stream_pending cn !! rid with
  | Some w =>
      if decide (w ∈ dropped r) then
        (update_conn c (λ cn, with_cancelled ({[rid]} ∪ cancelled_streams cn)
                                (with_streams (delete rid (stream_pending cn)) cn)) r, false)
      else (deliver w c f r, true)
  | None => (r, false)
  end.

Definition complete_stream (c : nat) (rid : string) (r : Relay) : Relay :=
  update_conn c (λ cn, with_streams (delete rid (stream_pending cn)) cn) r.

Definition has_stream_pending (c : nat) (rid : string) (r : Relay) : bool :=
  match conns r !! c with
  | Some cn => bool_decide (is_Some (stream_pending cn !! rid))
  | None => false
  end.

Definition is_cancelled_stream (c : nat) (rid : string) (r : Relay) : bool :=
  match conns r !! c with
  | Some cn => bool_decide (rid ∈ cancelled_streams cn)
  | None => false
  end.

Definition clear_cancelled_stream (c : nat) (rid : string) (r : Relay) : Relay :=
  update_conn c (λ cn, with_cancelled (cancelled_streams cn ∖ {[rid]}) cn) r.

Definition cancel_all_pending (c : nat) (r : Relay) : Relay :=
  update_conn c (λ cn, with_cancelled ∅ (with_streams ∅ (with_pending ∅ cn))) r.

(** [conn.send_frame(frame).await] *)
Definition send_frame (c : nat) (f : TunnelFrame) (r : Relay) : option (Relay * bool) :=
  match conns r !! c with
  | None => Some (r, false)
  | Some cn =>
      match chan_send f (frame_tx cn) with
      | Sent tx => Some (update_conn c (with_tx tx) r, true)
      | SendError => Some (r, false)
      | Blocked => None
      end
  end.

(** * The registry *)

Definition register_conn (machine owner : string) (tx : Chan) (r : Relay) : Relay * nat :=
  let c := next_id r in
  (mkRelay (db r) (<[c := conn_new machine owner tx]> (conns r)) (<[machine := c]> (registry r))
     (S c) (dropped r) (registered r) (log r), c).

Definition unregister (machine : string) (r : Relay) : Relay * option nat :=
  (with_registry (delete machine (registry r)) r, registry r !! machine).

Definition get_conn (machine : string) (r : Relay) : option nat := registry r !! machine.
Definition is_connected (machine : string) (r : Relay) : bool := bool_decide (is_Some (registry r !! machine)).

(** * The buffer (buffer/manager.rs) *)

Inductive BufferError :=
| Storage (e : DatabaseError)
| BufferMachineOffline (machine : string)
| CapExceeded (machine : string) (cap : nat).

Record BufferManager := mkBufferManager {
  default_ttl_secs : Z;
  max_per_machine : nat
}.

Definition buffer_request (now : Z) (bm : BufferManager) (machine rid method : string) (data : list Z)
    (metadata_json : string) (d : RelayDatabase) : RelayDatabase * result BufferError Z :=
  if decide (max_per_machine bm ≤ count_buffered_messages machine d)
  then (d, Err (CapExceeded machine (max_per_machine bm)))
  else
    let '(d', r) := buffer_message now (mkParams machine rid method data metadata_json 0 (default_ttl_secs bm)) d in
    (d', match r with Ok id => Ok id | Err e => Err (Storage e) end).

Class MetadataJson := {
  render_metadata : gmap string string → string;
  parse_metadata : string → result string (gmap string string);
  parse_render : ∀ m, parse_metadata (render_metadata m) = Ok m
}.

(** What else happens to the channel before the i-th send: how many frames
    its reader takes, and whether the reader goes away. *)
Record Tick := mkTick {
  taken : nat;
  reader_gone : bool
}.

Definition tick_chan (t : Tick) (c : Chan) : Chan :=
  mkChan (drop (taken t) (queue c)) (capacity c) (rx_alive c && negb (reader_gone t)).

Inductive DrainOutcome :=
| Drained (sent : nat)
| Waiting (sent : nat).   (* blocked in a send that never gets room *)

Section Routing.
Context {MJ : MetadataJson} {SO : SqlOrder}.

Definition buffered_frame (now : Z) (msg : BufferedMessage) : TunnelFrame :=
  build_request_frame now (b_request_id msg) (b_method msg) (b_payload msg)
    (match parse_metadata (b_metadata msg) with Ok m => m | Err _ => ∅ end).

Fixpoint drain_loop (now : Z) (c : nat) (env : nat → Tick) (msgs : list BufferedMessage) (sent : nat) (r : Relay)
  : Relay * DrainOutcome :=
  match msgs with
  | [] => (r, Drained sent)
  | msg :: rest =>
      let r := update_conn c (λ cn, with_tx (tick_chan (env sent) (frame_tx cn)) cn) r in
      match send_frame c (buffered_frame now msg) r with
      | None => (r, Waiting sent)
      | Some (r', false) => (r', Drained sent)
      | Some (r', true) =>
          drain_loop now c env rest (S sent) (with_db (delete_buffered_message (b_id msg) (db r')).1 r')
      end
  end.

Definition drain_buffer (now : Z) (machine : string) (env : nat → Tick) (r : Relay)
  : Relay * result BufferError DrainOutcome :=
  match drain_query now machine (db r) with
  | [] => (r, Ok (Drained 0))
  | msgs =>
      match get_conn machine r with
      | None => (r, Err (BufferMachineOffline machine))
      | Some c => let '(r', o) := drain_loop now c env msgs 0 r in (r', Ok o)
      end
  end.

Definition buffer_cleanup_expired (now : Z) (r : Relay) : Relay := with_db (cleanup_expired_buffer now (db r)).1 r.

(** * Forwarding (router/forwarder.rs) *)

Inductive RouterError :=
| MachineOffline (machine : string)
| Buffered (machine : string)
| SendFailed (machine : string)
| Timeout (rid : string)
| ResponseDropped (rid : string).

(** The part of [forward_request] up to waiting for the response: the
    connection and the waiter, or the error.  The outer [option] is [None]
    when the send finds no room: the task then has registered its waiter and
    waits, which [RelayTunnelCorrect.tunnel_step] has as steps of their
    own. *)
Definition forward_begin (now : Z) (bm : BufferManager) (machine rid method : string) (data : list Z)
    (metadata : gmap string string) (r : Relay) : option (Relay * result RouterError (nat * nat)) :=
  match get_conn machine r with
  | None =>
      let '(d, res) := buffer_request now bm machine rid method data (render_metadata metadata) (db r) in
      Some (with_db d r, match res with
                         | Ok _ => Err (Buffered machine)
                         | Err _ => Err (MachineOffline machine)
                         end)
  | Some c =>
      let '(r1, w) := register_pending c rid r in
      match send_frame c (build_request_frame now rid method data metadata) r1 with
      | None => None
      | Some (r2, true) => Some (r2, Ok (c, w))
      | Some (r2, false) => Some (r2, Err (SendFailed machine))
      end
  end.

(** How the wait ends: with the response, with the sender dropped, or with
    the time-out; the last two withdraw the request. *)
Inductive WaitOutcome := Responded (f : TunnelFrame) | SenderDropped | TimedOut.

Definition forward_end (c : nat) (rid : string) (o : WaitOutcome) (r : Relay) : Relay * result RouterError TunnelFrame :=
  let withdraw := update_conn c (λ cn, with_pending (delete rid (pending cn)) cn) r in
  match o with
  | Responded f => (r, Ok f)
  | SenderDropped => (withdraw, Err (ResponseDropped rid))
  | TimedOut => (withdraw, Err (Timeout rid))
  end.

Definition setup_stream_forward (now : Z) (machine rid method : string) (data : list Z)
    (metadata : gmap string string) (r : Relay) : option (Relay * result RouterError (nat * nat)) :=
  match get_conn machine r with
  | None => Some (r, Err (MachineOffline machine))
  | Some c =>
      let '(r1, w) := register_stream_pending c rid r in
      match send_frame c (build_request_frame now rid method data metadata) r1 with
      | None => None
      | Some (r2, true) => Some (r2, Ok (c, w))
      | Some (r2, false) => Some (r2, Err (SendFailed machine))
      end
  end.

(** * The tunnel service (server/tunnel_svc.rs) *)

Definition verify_machine_ownership (machine user : string) (d : RelayDatabase) : result Status unit :=
  match get_machine machine d with
  | Err (NotFound _) => Err (mkStatus CodeNotFound "Machine not found")
  | Err _ => Err (mkStatus Internal "Internal error")
  | Ok m => if decide (m_owner_id m = user) then Ok tt else Err (mkStatus PermissionDenied "Not your machine")
  end.

(** The certificate check of [open_tunnel]: the peer's common name and
    serial, when mutual TLS is on. *)
Definition check_peer_cert (mtls_enabled : bool) (peer : option (string * string)) (d : RelayDatabase)
  : result Status (option string) :=
  if mtls_enabled then
    match peer with
    | None => Err (mkStatus Unauthenticated "Client certificate required for tunnel connections")
    | Some (cn, serial) =>
        if is_certificate_revoked serial d
        then Err (mkStatus Unauthenticated "Client certificate has been revoked")
        else Ok (Some cn)
    end
  else Ok None.

Definition identify_machine (first : option TunnelFrame) : string :=
  match first with
  | Some f =>
      if decide (frame_type f = FtControl) then
        match payload f with
        | Some (Control params) => default EmptyString (params !! "machine_id")
        | _ => EmptyString
        end
      else EmptyString
  | None => EmptyString
  end.

(** Everything a tunnel is checked for before it is registered. *)
Definition admit_tunnel (mtls_enabled : bool) (peer : option (string * string)) (user : string)
    (first : option TunnelFrame) (d : RelayDatabase) : result Status string :=
  let? cert := check_peer_cert mtls_enabled peer d in
  let machine := identify_machine first in
  if decide (machine = EmptyString) then Err (mkStatus InvalidArgument "First frame must identify machine")
  else
    let? _ := match cert with
              | Some cn =>
                  if decide (cn = machine) then Ok tt
                  else Err (mkStatus PermissionDenied
                         ("Certificate CN '" +:+ cn +:+ "' does not match machine_id '" +:+ machine +:+ "'"))
              | None => Ok tt
              end in
    let? _ := verify_machine_ownership machine user d in
    Ok machine.

(** Registration of an admitted tunnel: the connection enters the registry,
    the machine is marked online, the buffer is drained.  The task that reads
    the channel is spawned only after that. *)
Definition tunnel_capacity : nat := 128.

Definition open_tunnel (now : Z) (machine user : string) (r : Relay)
  : Relay * nat * result BufferError DrainOutcome :=
  let '(r1, c) := register_conn machine user (mkChan [] tunnel_capacity true) r in
  let r2 := with_db (update_machine_status now machine "online" (db r1)).1 r1 in
  let '(r3, o) := drain_buffer now machine (λ _, mkTick 0 false) r2 in
  (r3, c, o).

(** A frame from the daemon of connection [c]. *)
Definition stream_or_unary (c : nat) (f : TunnelFrame) (r : Relay) : Relay :=
  let '(r1, ok) := send_stream_frame c (request_id f) f r in
  if ok then r1 else (complete_pending c (request_id f) f r1).1.

Definition on_frame (c : nat) (f : TunnelFrame) (r : Relay) : Relay :=
  let rid := request_id f in
  if decide (frame_type f = FtStreamEnd) then
    if has_stream_pending c rid r then complete_stream c rid (send_stream_frame c rid f r).1
    else if is_cancelled_stream c rid r then clear_cancelled_stream c rid r
    else (complete_pending c rid f r).1
  else if decide (frame_type f = FtStreamData) then stream_or_unary c f r
  else if decide (frame_type f = FtError) then stream_or_unary c f r
  else if decide (frame_type f = FtResponse) then (complete_pending c rid f r).1
  else r.

(** The end of the task of connection [c]. *)
Definition close_tunnel (now : Z) (c : nat) (machine : string) (r : Relay) : Relay :=
  let r1 := cancel_all_pending c r in
  let r2 := (unregister machine r1).1 in
  with_db (update_machine_status now machine "offline" (db r2)).1 r2.

Definition tunnel_register (now : Z) (machine name user capabilities : string) (pubkey : list Z) (d : RelayDatabase)
  : RelayDatabase * result Status bool :=
  let '(d1, r1) :=
    match get_machine machine d with
    | Ok m => if decide (m_owner_id m = user) then (d, Ok tt)
              else (d, Err (mkStatus PermissionDenied "Not your machine"))
    | Err _ =>
        let '(d', r) := create_machine now machine name user capabilities d in
        (d', let? _ := internal "Failed to auto-register machine" r in Ok tt)
    end in
  match r1 with
  | Err s => (d1, Err s)
  | Ok _ => (if decide (pubkey = []) then d1 else (update_machine_identity_pubkey machine pubkey d1).1, Ok true)
  end.

Definition tunnel_heartbeat (now : Z) (machine user : string) (d : RelayDatabase) : RelayDatabase * result Status unit :=
  match verify_machine_ownership machine user d with
  | Err s => (d, Err s)
  | Ok _ => ((touch_machine now machine d).1, Ok tt)
  end.

End Routing.
