(* ===== verification/RelayTunnelCorrect.v ===== *)
(** What the relay guarantees about tunnels: who may open one, that answers
    reach the request they belong to, what the offline buffer delivers, and
    two situations in which it does not. *)
From stdpp Require Import gmap strings list fin_maps sorting.
From Stdlib Require Import ZArith Lia.
From S2P Require Import Prelude Protocol RelayStore RelayAuth RelayTunnel.

(** * Executions *)

Section Executions.
Context {MJ : MetadataJson} {SO : SqlOrder}.

Inductive TunnelOp :=
| TOpen (machine user : string)
| TFrame (c : nat) (f : TunnelFrame)
| TClose (c : nat) (machine : string)
| TForward (bm : BufferManager) (machine rid method : string) (data : list Z) (metadata : gmap string string)
| TForwardStream (machine rid method : string) (data : list Z) (metadata : gmap string string)
| TRegister (k : WaiterKind) (c : nat) (rid : string)
| TSend (c : nat) (f : TunnelFrame)
| TReader (c : nat) (t : Tick)
| TForwardEnd (c : nat) (rid : string) (o : WaitOutcome)
| TDropReceiver (w : nat).

Definition drop_receiver (w : nat) (r : Relay) : Relay :=
  mkRelay (db r) (conns r) (registry r) (next_id r) ({[w]} ∪ dropped r) (registered r) (log r).

(** A request whose send finds no room is two steps, [TRegister] before it
    waits and [TSend] when the reader of the channel has made room; one that
    finds room is a single step. *)
Definition tunnel_step (now : Z) (op : TunnelOp) (r : Relay) : Relay :=
  match op with
  | TOpen machine user => (open_tunnel now machine user r).1.1
  | TFrame c f => on_frame c f r
  | TClose c machine => close_tunnel now c machine r
  | TForward bm machine rid method data metadata =>
      from_option fst r (forward_begin now bm machine rid method data metadata r)
  | TForwardStream machine rid method data metadata =>
      from_option fst r (setup_stream_forward now machine rid method data metadata r)
  | TRegister Unary c rid => (register_pending c rid r).1
  | TRegister Stream c rid => (register_stream_pending c rid r).1
  | TSend c f => from_option fst r (send_frame c f r)
  | TReader c t => update_conn c (λ cn, with_tx (tick_chan t (frame_tx cn)) cn) r
  | TForwardEnd c rid o => (forward_end c rid o r).1
  | TDropReceiver w => drop_receiver w r
  end.

Definition tunnel_run (trace : list (Z * TunnelOp)) (r : Relay) : Relay :=
  foldl (λ r call, tunnel_step call.1 call.2 r) r trace.

Definition relay_start (d : RelayDatabase) : Relay := mkRelay d ∅ ∅ 0 ∅ ∅ [].

(** * The invariant *)

Record tunnel_inv (r : Relay) : Prop := {
  ti_fresh : ∀ w e, registered r !! w = Some e → w < next_id r;
  ti_conn : ∀ c cn, conns r !! c = Some cn → c < next_id r;
  ti_unary : ∀ c cn rid w, conns r !! c = Some cn → pending cn !! rid = Some w →
    registered r !! w = Some (Unary, c, rid) ∧ ∀ c' f, (w, c', f) ∉ log r;
  ti_stream : ∀ c cn rid w, conns r !! c = Some cn → stream_pending cn !! rid = Some w →
    registered r !! w = Some (Stream, c, rid) ∧ ∀ c' f, (w, c', f) ∈ log r → frame_type f ≠ FtStreamEnd;
  ti_log : ∀ w c f, (w, c, f) ∈ log r → ∃ k, registered r !! w = Some (k, c, request_id f);
  ti_once : ∀ l1 l2 w c f, log r = l1 ++ (w, c, f) :: l2 →
    (∃ c' rid, registered r !! w = Some (Unary, c', rid)) ∨ frame_type f = FtStreamEnd →
    ∀ c' f', (w, c', f') ∉ l2
}.

(** Withdrawing waiters, and anything else about the connections. *)
Lemma tunnel_inv_shrink (r r' : Relay) :
  tunnel_inv r → next_id r ≤ next_id r' → registered r' = registered r → log r' = log r →
  (∀ c cn', conns r' !! c = Some cn' →
     c < next_id r' ∧
     (∀ rid w, pending cn' !! rid = Some w → ∃ cn, conns r !! c = Some cn ∧ pending cn !! rid = Some w) ∧
     (∀ rid w, stream_pending cn' !! rid = Some w → ∃ cn, conns r !! c = Some cn ∧ stream_pending cn !! rid = Some w)) →
  tunnel_inv r'.
Proof.
  intros [Hf Hc Hu Hs Hl Ho] Hn Hreg Hlog Hcs. split; rewrite ?Hreg, ?Hlog; try done.
  - intros w e Hw. specialize (Hf w e Hw). lia.
  - intros c cn' Hc'. by apply Hcs in Hc' as [? _].
  - intros c cn' rid w Hc' Hp. destruct (Hcs c cn' Hc') as (_ & H1 & _).
    destruct (H1 rid w Hp) as (cn & ? & ?). by eapply Hu.
  - intros c cn' rid w Hc' Hp. destruct (Hcs c cn' Hc') as (_ & _ & H2).
    destruct (H2 rid w Hp) as (cn & ? & ?). by eapply Hs.
Qed.

Lemma update_conn_inv (c : nat) (f : TunnelConnection → TunnelConnection) (r : Relay) :
  (∀ cn, pending (f cn) ⊆ pending cn ∧ stream_pending (f cn) ⊆ stream_pending cn) →
  tunnel_inv r → tunnel_inv (update_conn c f r).
Proof.
  intros Hsub Hinv. apply (tunnel_inv_shrink r); try done. simpl. intros c0 cn'.
  rewrite lookup_alter. destruct (decide (c = c0)) as [->|Hne].
  - rewrite fmap_Some. intros (cn & Hcn & ->). destruct (Hsub cn) as [H1 H2].
    split_and!; [by eapply (ti_conn _ Hinv)|intros ? ? ?..]; exists cn; (split; [done|]); by eapply lookup_weaken.
  - intros Hcn. split_and!; [by eapply (ti_conn _ Hinv)|eauto..].
Qed.

Lemma with_db_inv (d : RelayDatabase) (r : Relay) : tunnel_inv r → tunnel_inv (with_db d r).
Proof. by intros []. Qed.

Lemma with_registry_inv (g : gmap string nat) (r : Relay) : tunnel_inv r → tunnel_inv (with_registry g r).
Proof. by intros []. Qed.

Lemma drop_receiver_inv (w : nat) (r : Relay) : tunnel_inv r → tunnel_inv (drop_receiver w r).
Proof. by intros []. Qed.

Lemma register_conn_inv (machine owner : string) (tx : Chan) (r : Relay) :
  tunnel_inv r → tunnel_inv (register_conn machine owner tx r).1.
Proof.
  intros Hinv. apply (tunnel_inv_shrink r); simpl; try done; [lia|]. intros c cn'. rewrite lookup_insert.
  case_decide as Hc.
  - intros [= <-]. subst c. simpl. split_and!; [lia|intros ? ?; by rewrite lookup_empty..].
  - intros Hcn. apply (ti_conn _ Hinv) in Hcn as Hlt. split_and!; [lia|eauto..].
Qed.

Lemma send_frame_inv (c : nat) (f : TunnelFrame) (r r' : Relay) (b : bool) :
  tunnel_inv r → send_frame c f r = Some (r', b) → tunnel_inv r'.
Proof.
  intros Hinv. unfold send_frame. destruct (conns r !! c) as [cn|]; [|by intros [= <- _]].
  destruct (chan_send f (frame_tx cn)); intros; simplify_eq; [|done]. by apply update_conn_inv.
Qed.

(** A fresh waiter. *)
Lemma register_inv (k : WaiterKind) (c : nat) (rid : string) (r : Relay) :
  tunnel_inv r →
  tunnel_inv (update_conn c (λ cn, match k with
                                   | Unary => with_pending (<[rid := next_id r]> (pending cn)) cn
                                   | Stream => with_streams (<[rid := next_id r]> (stream_pending cn)) cn
                                   end) (new_waiter k c rid r).1).
Proof.
  intros [Hf Hc Hu Hs Hl Ho]. set (w0 := next_id r).
  assert (registered r !! w0 = None) as Hnew.
  { destruct (registered r !! w0) as [e|] eqn:He; [|done]. apply Hf in He. subst w0. lia. }
  assert (∀ w e, registered r !! w = Some e → <[w0 := (k, c, rid)]> (registered r) !! w = Some e) as Hkeep.
  { intros w e Hw. rewrite lookup_insert_ne by congruence. done. }
  assert (∀ c' f, (w0, c', f) ∉ log r) as Hnolog.
  { intros c' f (k' & Hk)%Hl. congruence. }
  split; simpl; fold w0.
  - intros w e. rewrite lookup_insert. case_decide; [subst; lia|]. intros Hw. apply Hf in Hw. lia.
  - intros c' cn'. rewrite lookup_alter. destruct (decide (c = c')) as [->|].
    + rewrite fmap_Some. intros (cn & Hcn & _). apply Hc in Hcn. lia.
    + intros Hcn. apply Hc in Hcn. lia.
  - intros c' cn' rid' w Hcn Hp.
    assert ((∃ cn, conns r !! c' = Some cn ∧ pending cn !! rid' = Some w) ∨ (k = Unary ∧ c' = c ∧ rid' = rid ∧ w = w0))
      as [(cn & H1 & H2)|(-> & -> & -> & ->)].
    { rewrite lookup_alter in Hcn. destruct (decide (c = c')) as [->|]; [|by eauto].
      apply fmap_Some in Hcn as (cn & Hcn & ->). destruct k; simpl in Hp; [|by eauto].
      rewrite lookup_insert in Hp. case_decide; simplify_eq; [by right|by eauto]. }
    + destruct (Hu c' cn rid' w H1 H2). auto.
    + rewrite lookup_insert_eq. auto.
  - intros c' cn' rid' w Hcn Hp.
    assert ((∃ cn, conns r !! c' = Some cn ∧ stream_pending cn !! rid' = Some w) ∨ (k = Stream ∧ c' = c ∧ rid' = rid ∧ w = w0))
      as [(cn & H1 & H2)|(-> & -> & -> & ->)].
    { rewrite lookup_alter in Hcn. destruct (decide (c = c')) as [->|]; [|by eauto].
      apply fmap_Some in Hcn as (cn & Hcn & ->). destruct k; simpl in Hp; [by eauto|].
      rewrite lookup_insert in Hp. case_decide; simplify_eq; [by right|by eauto]. }
    + destruct (Hs c' cn rid' w H1 H2). auto.
    + rewrite lookup_insert_eq. split; [done|]. intros c'' f Hin. by destruct (Hnolog c'' f).
  - intros w c' f Hin. destruct (Hl w c' f Hin) as (k' & Hk'). eauto.
  - intros l1 l2 w c' f Heq Hend. apply (Ho l1 l2 w c' f Heq).
    destruct Hend as [(c'' & rid' & Hw)|He]; [left|by right].
    rewrite lookup_insert in Hw. case_decide as Hww; [|by eauto]. subst w.
    destruct (Hnolog c' f). rewrite Heq. set_solver.
Qed.

(** Delivering to a waiter that is then withdrawn, or to a stream. *)
Lemma deliver_inv (w c : nat) (k : WaiterKind) (f : TunnelFrame) (r r' : Relay) :
  tunnel_inv r → registered r !! w = Some (k, c, request_id f) →
  (∀ c' f', (w, c', f') ∈ log r → k = Stream ∧ frame_type f' ≠ FtStreamEnd) →
  next_id r' = next_id r → registered r' = registered r → log r' = log r ++ [(w, c, f)] →
  (∀ c0 cn', conns r' !! c0 = Some cn' → ∃ cn, conns r !! c0 = Some cn ∧
     pending cn' ⊆ pending cn ∧ stream_pending cn' ⊆ stream_pending cn ∧
     (∀ rid, k = Unary → pending cn' !! rid ≠ Some w) ∧
     (∀ rid, frame_type f = FtStreamEnd → stream_pending cn' !! rid ≠ Some w)) →
  tunnel_inv r'.
Proof.
  intros [Hf Hc Hu Hs Hl Ho] Hw Hbefore Hn Hreg Hlog Hcs. split; rewrite ?Hn, ?Hreg, ?Hlog; try done.
  - intros c0 cn' (cn & Hcn & _)%Hcs. by eapply Hc.
  - intros c0 cn' rid w' Hc0 Hp. destruct (Hcs c0 cn' Hc0) as (cn & Hcn & H1 & _ & H3 & _).
    destruct (Hu c0 cn rid w' Hcn) as [Hr Hno]; [by eapply lookup_weaken|]. split; [done|].
    intros c' f' [Hin|Heq%list_elem_of_singleton]%elem_of_app; [by eapply Hno|].
    injection Heq as -> -> ->. apply (H3 rid); [|done]. congruence.
  - intros c0 cn' rid w' Hc0 Hp. destruct (Hcs c0 cn' Hc0) as (cn & Hcn & _ & H2 & _ & H4).
    destruct (Hs c0 cn rid w' Hcn) as [Hr Hno]; [by eapply lookup_weaken|]. split; [done|].
    intros c' f' [Hin|Heq%list_elem_of_singleton]%elem_of_app; [by eapply Hno|].
    injection Heq as -> -> ->. intros He. by apply (H4 rid He).
  - intros w' c' f' [Hin|Heq%list_elem_of_singleton]%elem_of_app; [by eapply Hl|].
    injection Heq as -> -> ->. eauto.
  - intros l1 l2 w' c' f' Heq Hend c'' f'' Hin.
    destruct l2 as [|e l2 _] using rev_ind; [by apply elem_of_nil in Hin|].
    rewrite app_comm_cons, app_assoc in Heq. apply app_inj_tail in Heq as [Heq <-].
    apply elem_of_app in Hin as [Hin|Hin%list_elem_of_singleton]; [by eapply Ho|].
    injection Hin as -> -> ->.
    destruct (Hbefore c' f') as [Hk Hne]; [rewrite Heq; set_solver|].
    destruct Hend as [(c1 & rid1 & Hu1)|He]; [congruence|done].
Qed.

Lemma complete_pending_inv (c : nat) (f : TunnelFrame) (r : Relay) :
  tunnel_inv r → tunnel_inv (complete_pending c (request_id f) f r).1.
Proof.
  intros Hinv. unfold complete_pending. destruct (conns r !! c) as [cn|] eqn:Hcn; [|done].
  assert (∀ cn0, pending (with_pending (delete (request_id f) (pending cn0)) cn0) ⊆ pending cn0 ∧
            stream_pending (with_pending (delete (request_id f) (pending cn0)) cn0) ⊆ stream_pending cn0) as Hsub
    by (intros cn0; split; [apply delete_subseteq|done]).
  destruct (pending cn !! request_id f) as [w|] eqn:Hp; [|by apply update_conn_inv].
  case_decide; [by apply update_conn_inv|].
  destruct (ti_unary _ Hinv c cn _ w Hcn Hp) as [Hw Hno].
  apply (deliver_inv w c Unary f r); simpl; try done.
  - intros c' f' Hin. by destruct (Hno c' f').
  - intros c0 cn'. rewrite lookup_alter. destruct (decide (c = c0)) as [->|Hne].
    + rewrite Hcn. intros [= <-]. exists cn. destruct (Hsub cn). split_and!; try done.
      * intros rid _. simpl. rewrite lookup_delete_Some. intros [Hrid Hp'].
        destruct (ti_unary _ Hinv c0 cn rid w Hcn Hp') as [Hw' _]. congruence.
      * intros rid _ Hs. simpl in Hs. destruct (ti_stream _ Hinv c0 cn rid w Hcn Hs). congruence.
    + intros Hcn'. exists cn'. split_and!; try done.
      * intros rid _ Hp'. destruct (ti_unary _ Hinv c0 cn' rid w Hcn' Hp') as [Hw' _]. congruence.
      * intros rid _ Hs. destruct (ti_stream _ Hinv c0 cn' rid w Hcn' Hs). congruence.
Qed.

(** A stream frame: a final one closes the stream. *)
Lemma send_stream_frame_inv (c : nat) (f : TunnelFrame) (r : Relay) :
  tunnel_inv r → frame_type f ≠ FtStreamEnd → tunnel_inv (send_stream_frame c (request_id f) f r).1.
Proof.
  intros Hinv Hf. unfold send_stream_frame.
  destruct (conns r !! c) as [cn|] eqn:Hcn; simpl; [|done].
  destruct (stream_pending cn !! request_id f) as [w|] eqn:Hp; [|done].
  destruct (ti_stream _ Hinv c cn _ w Hcn Hp) as [Hw Hno].
  case_decide.
  - apply update_conn_inv; [|done]. intros cn0. split; [done|apply delete_subseteq].
  - apply (deliver_inv w c Stream f r); simpl; try done.
    + intros c' f' Hin. split; [done|]. by eapply Hno.
    + intros c0 cn' Hcn'. by exists cn'.
Qed.

Lemma stream_end_inv (c : nat) (f : TunnelFrame) (r : Relay) :
  tunnel_inv r → tunnel_inv (complete_stream c (request_id f) (send_stream_frame c (request_id f) f r).1).
Proof.
  intros Hinv.
  assert (∀ r', tunnel_inv r' → tunnel_inv (complete_stream c (request_id f) r')) as Hclose.
  { intros r' Hr'. apply update_conn_inv; [|done]. intros cn0. split; [done|apply delete_subseteq]. }
  unfold send_stream_frame. destruct (conns r !! c) as [cn|] eqn:Hcn; simpl; [|by apply Hclose].
  destruct (stream_pending cn !! request_id f) as [w|] eqn:Hp; [|by apply Hclose].
  destruct (ti_stream _ Hinv c cn _ w Hcn Hp) as [Hw Hno].
  case_decide.
  - apply Hclose, update_conn_inv; [|done]. intros cn0. split; [done|apply delete_subseteq].
  - apply (deliver_inv w c Stream f r); simpl; try done.
    + intros c' f' Hin. split; [done|]. by eapply Hno.
    + intros c0 cn'. rewrite lookup_alter. destruct (decide (c = c0)) as [->|Hne].
      * rewrite Hcn. intros [= <-]. exists cn. split_and!; simpl; try done; [apply delete_subseteq|].
        intros rid _. rewrite lookup_delete_Some. intros [Hrid Hp'].
        destruct (ti_stream _ Hinv c0 cn rid w Hcn Hp') as [Hw' _]. congruence.
      * intros Hcn'. exists cn'. split_and!; try done.
        intros rid _ Hs. destruct (ti_stream _ Hinv c0 cn' rid w Hcn' Hs). congruence.
Qed.

Lemma on_frame_inv (c : nat) (f : TunnelFrame) (r : Relay) : tunnel_inv r → tunnel_inv (on_frame c f r).
Proof.
  intros Hinv. unfold on_frame.
  assert (frame_type f ≠ FtStreamEnd → tunnel_inv (stream_or_unary c f r)) as Hsu.
  { intros Hne. unfold stream_or_unary. pose proof (send_stream_frame_inv c f r Hinv Hne) as H1.
    destruct (send_stream_frame c (request_id f) f r) as [r1 []]; [done|]. by apply complete_pending_inv. }
  repeat case_decide; auto; [|by apply complete_pending_inv].
  destruct (has_stream_pending c (request_id f) r); [by apply stream_end_inv|].
  destruct (is_cancelled_stream c (request_id f) r); [by apply update_conn_inv|by apply complete_pending_inv].
Qed.

Lemma drain_loop_inv (now : Z) (c : nat) (env : nat → Tick) (msgs : list BufferedMessage) (n : nat) (r : Relay) :
  tunnel_inv r → tunnel_inv (drain_loop now c env msgs n r).1.
Proof.
  revert n r. induction msgs as [|m msgs IH]; intros n r Hinv; [done|]. cbn [drain_loop].
  set (r1 := update_conn c _ r). assert (tunnel_inv r1) as H1 by (by apply update_conn_inv).
  destruct (send_frame c (buffered_frame now m) r1) as [[r2 []]|] eqn:Hs; [| |done].
  - apply IH, with_db_inv. by eapply send_frame_inv.
  - simpl. by eapply send_frame_inv.
Qed.

Lemma tunnel_step_inv (now : Z) (op : TunnelOp) (r : Relay) : tunnel_inv r → tunnel_inv (tunnel_step now op r).
Proof.
  intros Hinv. destruct op as [machine user|c f|c machine|bm machine rid method data md|machine rid method data md|k c rid|c f|c t|c rid o|w];
    cbn [tunnel_step].
  - unfold open_tunnel. pose proof (register_conn_inv machine user (mkChan [] tunnel_capacity true) r Hinv) as H1.
    destruct (register_conn _ _ _ r) as [r1 c]. simpl in H1.
    pose proof (with_db_inv (update_machine_status now machine "online" (db r1)).1 r1 H1) as H2.
    unfold drain_buffer. destruct (drain_query _ _ _) as [|m ms]; [done|].
    destruct (get_conn _ _) as [c'|]; [|done].
    pose proof (drain_loop_inv now c' (λ _, mkTick 0 false) (m :: ms) 0 _ H2) as H3.
    by destruct (drain_loop _ _ _ _ _ _).
  - by apply on_frame_inv.
  - unfold close_tunnel. apply with_db_inv, with_registry_inv. apply update_conn_inv; [|done].
    intros cn. split; apply map_empty_subseteq.
  - unfold forward_begin. destruct (get_conn machine r) as [c|].
    + unfold register_pending, new_waiter.
      pose proof (register_inv Unary c rid r Hinv) as H1. simpl in H1.
      destruct (send_frame _ _ _) as [[r2 []]|] eqn:Hs; simpl; [by eapply send_frame_inv..|done].
    + destruct (buffer_request _ _ _ _ _ _ _ _). simpl. by apply with_db_inv.
  - unfold setup_stream_forward. destruct (get_conn machine r) as [c|]; [|done].
    unfold register_stream_pending, new_waiter.
    pose proof (register_inv Stream c rid r Hinv) as H1. simpl in H1.
    destruct (send_frame _ _ _) as [[r2 []]|] eqn:Hs; simpl; [by eapply send_frame_inv..|done].
  - pose proof (register_inv k c rid r Hinv) as H1. by destruct k.
  - destruct (send_frame c f r) as [[r' b]|] eqn:Hs; [by eapply send_frame_inv|done].
  - by apply update_conn_inv.
  - unfold forward_end. destruct o; [done|..]; apply update_conn_inv; try done;
      intros cn; (split; [apply delete_subseteq|done]).
  - by apply drop_receiver_inv.
Qed.

Lemma tunnel_run_inv (trace : list (Z * TunnelOp)) (d : RelayDatabase) : tunnel_inv (tunnel_run trace (relay_start d)).
Proof.
  assert (tunnel_inv (relay_start d)) as H0.
  { split; simpl; try (intros *; rewrite lookup_empty; done).
    - intros w c f Hin. by apply elem_of_nil in Hin.
    - intros l1 l2 w c f Heq. by destruct l1. }
  revert H0. generalize (relay_start d). induction trace as [|[now op] trace IH]; intros r Hr; [done|].
  apply IH. by apply tunnel_step_inv.
Qed.

(** * Answers reach the request they belong to *)

(** C3: In every execution, with any number of daemons, requests, time-outs and
    disconnects: a frame is only ever delivered to a waiter that was created
    for that frame's request id on the connection the frame came in on, so
    no answer goes to another request or is taken from another machine; a
    unary request gets at most one frame, and a stream gets nothing after
    its final frame. *)
Theorem answers_reach_their_request (trace : list (Z * TunnelOp)) (d : RelayDatabase) :
  let r := tunnel_run trace (relay_start d) in
  (∀ w c f, (w, c, f) ∈ log r → ∃ k, registered r !! w = Some (k, c, request_id f)) ∧
  (∀ l1 l2 w c f, log r = l1 ++ (w, c, f) :: l2 →
     (∃ c' rid, registered r !! w = Some (Unary, c', rid)) ∨ frame_type f = FtStreamEnd →
     ∀ c' f', (w, c', f') ∉ l2).
Proof.
  intros r. pose proof (tunnel_run_inv trace d) as Hinv. split; [apply (ti_log _ Hinv)|apply (ti_once _ Hinv)].
Qed.

End Executions.

(** * Admission *)

Section Theorems.
Context {MJ : MetadataJson} {SO : SqlOrder}.

(** A tunnel is registered for a machine iff the first frame names that
    machine, the authenticated user owns it, and, with mutual TLS, the peer
    presented an unrevoked certificate whose common name is that machine. *)
Theorem tunnel_admission (mtls : bool) (peer : option (string * string)) (user : string)
    (first : option TunnelFrame) (d : RelayDatabase) (machine : string) :
  admit_tunnel mtls peer user first d = Ok machine ↔
  identify_machine first = machine ∧ machine ≠ EmptyString ∧
  (∃ m, machines d !! machine = Some m ∧ m_owner_id m = user) ∧
  (mtls = true → ∃ serial, peer = Some (machine, serial) ∧ is_certificate_revoked serial d = false).
Proof.
  unfold admit_tunnel, check_peer_cert, verify_machine_ownership, get_machine.
  set (name := identify_machine first).
  assert (∀ A (r : result Status A) (x y : string), (let? _ := r in Ok x) = Ok y ↔ (∃ a, r = Ok a) ∧ x = y) as Hbind.
  { intros A [a|e] x y; cbn [result_bind]; split; [intros [= ->]; eauto|by intros [_ ->]|done|by intros [[? ?] _]]. }
  assert (∀ u, match match machines d !! name with Some m => Ok m | None => Err (NotFound ("Machine " +:+ name)) end with
               | Ok m => if decide (m_owner_id m = user) then Ok tt else Err (mkStatus PermissionDenied "Not your machine")
               | Err (NotFound _) => Err (mkStatus CodeNotFound "Machine not found")
               | Err _ => Err (mkStatus Internal "Internal error")
               end = Ok u ↔ ∃ m, machines d !! name = Some m ∧ m_owner_id m = user) as Hown.
  { intros []. destruct (machines d !! name) as [m|]; [|split; [done|by intros (? & ? & _)]].
    case_decide as Hm; split; [eauto|done|done|intros (m' & [= <-] & ?); done]. }
  set (own := match match machines d !! name with Some m => _ | None => _ end with Ok m => _ | Err e => _ end) in *.
  assert (∀ P : Prop, ((let? _ := own in Ok name) = Ok machine ∧ P ↔
    name = machine ∧ (∃ m, machines d !! machine = Some m ∧ m_owner_id m = user) ∧ P)) as Hlast.
  { intros P. rewrite Hbind. split.
    - intros [[[u Hu] <-] HP]. apply Hown in Hu. done.
    - intros (<- & Hm & HP). split; [|done]. split; [|done]. exists tt. by apply Hown. }
  clearbody own. clear Hown Hbind.
  destruct (decide (name = EmptyString)) as [Hn|Hn].
  { split; [|intros (Hname & Hne & _); congruence].
    destruct mtls; [destruct peer as [[cn serial]|]; [destruct (is_certificate_revoked serial d)|]|]; done. }
  destruct mtls.
  - destruct peer as [[cn serial]|]; [|split; [done|by intros (_ & _ & _ & (? & ? & _)); [done|]]].
    destruct (is_certificate_revoked serial d) eqn:Hr; cbn [result_bind].
    { split; [done|]. intros (_ & _ & _ & Hc). destruct (Hc eq_refl) as (? & [= _ <-] & ?). congruence. }
    destruct (decide (cn = name)) as [->|Hcn]; cbn [result_bind].
    + split.
      * intros Ho. destruct (proj1 (Hlast True)) as (<- & Hm & _); [done|]. split_and!; [done|done|done|]. eauto.
      * intros (Hname & _ & Hm & _). by destruct (proj2 (Hlast True)).
    + split; [done|]. intros (Hname & _ & _ & Hc). destruct (Hc eq_refl) as (? & [= -> _] & _). congruence.
  - cbn [result_bind]. split.
    + intros Ho. destruct (proj1 (Hlast True)) as (<- & Hm & _); [done|]. by split_and!.
    + intros (Hname & _ & Hm & _). by destruct (proj2 (Hlast True)).
Qed.

(** * Draining the buffer *)

Lemma elem_of_live_messages (now : Z) (machine : string) (d : RelayDatabase) (b : BufferedMessage) :
  b ∈ live_messages now machine d ↔
  ∃ id, buffer d !! id = Some b ∧ b_machine_id b = machine ∧ (now < b_expires_at b)%Z.
Proof.
  unfold live_messages. rewrite list_elem_of_filter, list_elem_of_fmap. split.
  - intros [[? ?] ([id b'] & -> & Hin)]. apply elem_of_map_to_list in Hin. eauto.
  - intros (id & Hid & ? & ?). split; [done|]. exists (id, b). by rewrite elem_of_map_to_list.
Qed.

(** The frames handed to the channel of [c] are those of a prefix of the
    messages, and exactly this prefix is deleted. *)
Lemma drain_loop_spec (now : Z) (c : nat) (env : nat → Tick) (msgs : list BufferedMessage) (n : nat) (r : Relay)
    (cn : TunnelConnection) :
  conns r !! c = Some cn →
  ∃ r' k cn' skip,
    (drain_loop now c env msgs n r = (r', Drained (n + k)) ∧
       (k < length msgs → rx_alive (frame_tx cn') = false) ∨
     drain_loop now c env msgs n r = (r', Waiting (n + k)) ∧
       k < length msgs ∧ capacity (frame_tx cn') ≤ length (queue (frame_tx cn'))) ∧
    k ≤ length msgs ∧ conns r' !! c = Some cn' ∧ ((∀ i, taken (env i) = 0) → skip = 0) ∧
    queue (frame_tx cn') = drop skip (queue (frame_tx cn) ++ (buffered_frame now <$> take k msgs)) ∧
    buffer (db r') = foldl (λ bs m, delete (b_id m) bs) (buffer (db r)) (take k msgs) ∧
    machines (db r') = machines (db r).
Proof.
  revert n r cn. induction msgs as [|m msgs IH]; intros n r cn Hcn.
  { exists r, 0, cn, 0. split_and!; try done; simpl; [left; rewrite Nat.add_0_r; split; [done|lia]|by rewrite app_nil_r]. }
  cbn [drain_loop]. set (r1 := update_conn c (λ cn, with_tx (tick_chan (env n) (frame_tx cn)) cn) r).
  set (tx1 := tick_chan (env n) (frame_tx cn)).
  assert (conns r1 !! c = Some (with_tx tx1 cn)) as Hcn1.
  { simpl. by rewrite lookup_alter, decide_True, Hcn. }
  unfold send_frame. rewrite Hcn1. cbn [frame_tx with_tx]. unfold chan_send.
  destruct (rx_alive tx1) eqn:Ha; [case_decide as Hroom|].
  - set (f := buffered_frame now m). set (tx2 := mkChan (queue tx1 ++ [f]) (capacity tx1) true).
    set (r2 := with_db _ _).
    destruct (IH (S n) r2 (with_tx tx2 (with_tx tx1 cn))) as (r' & k & cn' & skip & Ho & Hk & Hc' & H0 & Hq & Hb & Hm).
    { simpl. rewrite lookup_alter, decide_True by done. rewrite lookup_alter, decide_True, Hcn by done. done. }
    exists r', (S k), cn'. cbn [queue frame_tx with_tx] in Hq.
    exists (min (taken (env n)) (length (queue (frame_tx cn))) + skip).
    rewrite Nat.add_succ_r. split_and!; simpl; try done; try lia.
    + destruct Ho as [[Ho Hd]|[Ho [Hd1 Hd2]]]; [left|right]; (split; [done|]); [|split; [lia|done]].
      intros Hlt. apply Hd. lia.
    + intros Hz. rewrite (H0 Hz), Hz. lia.
    + rewrite Hq, <- drop_drop. f_equal. fold f. subst tx2 tx1. unfold tick_chan. cbn [queue]. rewrite <- app_assoc.
      destruct (decide (taken (env n) ≤ length (queue (frame_tx cn)))) as [Hle|Hgt].
      * rewrite Nat.min_l by done. by rewrite drop_app_le by done.
      * rewrite Nat.min_r by lia. rewrite drop_app_length, drop_ge by lia. done.
  - exists r1, 0, (with_tx tx1 cn), (taken (env n)). rewrite Nat.add_0_r. split_and!; simpl; try done; try lia.
    + right. split_and!; [done|lia|]. apply Nat.nlt_ge in Hroom. exact Hroom.
    + by rewrite app_nil_r.
  - exists r1, 0, (with_tx tx1 cn), (taken (env n)). rewrite Nat.add_0_r. split_and!; simpl; try done; try lia.
    + left. done.
    + by rewrite app_nil_r.
Qed.

(** ** Finding: draining before the reader runs *)

Lemma drain_le_trans (a b c : BufferedMessage) : drain_le a b = true → drain_le b c = true → drain_le a c = true.
Proof.
  unfold drain_le. rewrite !orb_true_iff, !andb_true_iff, !Z.ltb_lt, !Z.eqb_eq, !Z.leb_le. lia.
Qed.

Lemma drain_le_total (a b : BufferedMessage) : drain_le a b = true ∨ drain_le b a = true.
Proof. unfold drain_le. rewrite !orb_true_iff, !andb_true_iff, !Z.ltb_lt, !Z.eqb_eq, !Z.leb_le. lia. Qed.

(** In the drain that opens a tunnel, nothing is read from the channel. *)
Lemma drain_unread (now : Z) (c : nat) (msgs : list BufferedMessage) (n : nat) (r : Relay) (cn : TunnelConnection) :
  conns r !! c = Some cn → rx_alive (frame_tx cn) = true → length (queue (frame_tx cn)) ≤ capacity (frame_tx cn) →
  let room := capacity (frame_tx cn) - length (queue (frame_tx cn)) in
  (drain_loop now c (λ _, mkTick 0 false) msgs n r).2 =
  if decide (length msgs ≤ room) then Drained (n + length msgs) else Waiting (n + room).
Proof.
  revert n r cn. induction msgs as [|m msgs IH]; intros n r cn Hcn Ha Hle room.
  { simpl. by rewrite Nat.add_0_r. }
  cbn [drain_loop]. set (r1 := update_conn c _ r). set (tx1 := tick_chan (mkTick 0 false) (frame_tx cn)).
  assert (conns r1 !! c = Some (with_tx tx1 cn)) as Hcn1.
  { simpl. by rewrite lookup_alter, decide_True, Hcn. }
  unfold send_frame. rewrite Hcn1. cbn [frame_tx with_tx]. unfold chan_send.
  assert (rx_alive tx1 = true) as -> by (simpl; by rewrite Ha).
  assert (queue tx1 = queue (frame_tx cn)) as Hq by (simpl; apply drop_0).
  rewrite Hq. change (capacity tx1) with (capacity (frame_tx cn)). case_decide as Hroom.
  - set (tx2 := mkChan _ _ true). set (r2 := with_db _ _).
    rewrite (IH (S n) r2 (with_tx tx2 (with_tx tx1 cn))).
    + cbn [frame_tx with_tx queue capacity tx2]. rewrite length_app. simpl. subst room.
      repeat case_decide; try lia; f_equal; lia.
    + simpl. rewrite lookup_alter, decide_True by done. rewrite lookup_alter, decide_True, Hcn by done. done.
    + done.
    + cbn [frame_tx with_tx queue capacity tx2]. rewrite length_app. simpl. lia.
  - simpl. rewrite decide_False by (subst room; lia). f_equal. subst room. lia.
Qed.

Lemma update_status_buffer (now : Z) (machine status : string) (d : RelayDatabase) :
  buffer (update_machine_status now machine status d).1 = buffer d.
Proof. unfold update_machine_status. by case_decide. Qed.

(** A machine that comes back to more than 128 waiting messages is never
    served: the task drains the buffer into the channel before it starts the
    reader of that channel, so it waits forever for room after the 128th. *)
Theorem reconnect_stalls_on_full_buffer (now : Z) (machine user : string) (r : Relay) :
  (open_tunnel now machine user r).2 =
  Ok (if decide (length (live_messages now machine (db r)) ≤ 128)
      then Drained (length (live_messages now machine (db r))) else Waiting 128).
Proof.
  unfold open_tunnel, register_conn. cbn [db with_db].
  set (r1 := mkRelay _ _ _ _ _ _ _). set (r2 := with_db _ r1).
  assert (live_messages now machine (db r2) = live_messages now machine (db r)) as Hlive.
  { unfold live_messages. subst r2. cbn [db with_db]. by rewrite update_status_buffer. }
  assert (length (drain_query now machine (db r2)) = length (live_messages now machine (db r))) as Hlen.
  { unfold drain_query. by rewrite order_by_perm, Hlive. }
  unfold drain_buffer. destruct (drain_query now machine (db r2)) as [|m ms] eqn:Hq.
  { rewrite <- Hlen. simpl. done. }
  assert (get_conn machine r2 = Some (next_id r)) as -> by (unfold get_conn; simpl; by rewrite lookup_insert_eq).
  pose proof (drain_unread now (next_id r) (m :: ms) 0 r2 (conn_new machine user (mkChan [] tunnel_capacity true))) as Hd.
  rewrite <- Hlen. destruct (drain_loop _ _ _ _ _ _) as [r' o]. simpl in *. f_equal.
  rewrite Hd; [done|by rewrite lookup_insert_eq|done|lia].
Qed.

Lemma drain_buffer_registry (now : Z) (machine : string) (env : nat → Tick) (r : Relay) :
  (∀ c, get_conn machine r = Some c → is_Some (conns r !! c)) →
  registry (drain_buffer now machine env r).1 = registry r ∧
  next_id (drain_buffer now machine env r).1 = next_id r.
Proof.
  intros Hc. unfold drain_buffer. destruct (drain_query _ _ _) as [|m ms]; [done|].
  destruct (get_conn machine r) as [c|]; [|done].
  assert (∀ msgs n r0, registry (drain_loop now c env msgs n r0).1 = registry r0 ∧
                       next_id (drain_loop now c env msgs n r0).1 = next_id r0) as Hl.
  { induction msgs as [|m0 msgs IH]; intros n r0; [done|]. cbn [drain_loop]. unfold send_frame.
    destruct (conns _ !! c) as [cn|]; [|done]. destruct (chan_send _ _); [|done..].
    destruct (IH (S n) (with_db (delete_buffered_message (b_id m0) (db (update_conn c (with_tx c0) (update_conn c (λ cn, with_tx (tick_chan (env n) (frame_tx cn)) cn) r0)))).1
       (update_conn c (with_tx c0) (update_conn c (λ cn, with_tx (tick_chan (env n) (frame_tx cn)) cn) r0)))) as [-> ->]. done. }
  specialize (Hl (m :: ms) 0 r). by destruct (drain_loop _ _ _ _ _ _).
Qed.

(** A daemon that reconnects before the relay noticed that its old tunnel is
    gone: when the old tunnel's task ends, it removes the machine from the
    registry, where the new connection is; requests are then buffered
    although the machine has an open tunnel. *)
Theorem old_tunnel_unregisters_new (now : Z) (machine user : string) (r : Relay) :
  let '(r1, c1, _) := open_tunnel now machine user r in
  let '(r2, c2, _) := open_tunnel now machine user r1 in
  c1 ≠ c2 ∧ get_conn machine r2 = Some c2 ∧ get_conn machine (close_tunnel now c1 machine r2) = None.
Proof.
  assert (∀ r0, let '(r1, c1, _) := open_tunnel now machine user r0 in
                c1 = next_id r0 ∧ get_conn machine r1 = Some c1 ∧ next_id r1 = S (next_id r0)) as Hopen.
  { intros r0. unfold open_tunnel, register_conn. cbn [db with_db].
    set (r2 := with_db _ _).
    destruct (drain_buffer_registry now machine (λ _, mkTick 0 false) r2) as [Hg Hn].
    { intros c. unfold get_conn. simpl. rewrite lookup_insert_eq. intros [= <-]. rewrite lookup_insert_eq. eauto. }
    destruct (drain_buffer _ _ _ r2) as [r3 o]. simpl in *. unfold get_conn. rewrite Hg, Hn. simpl.
    by rewrite lookup_insert_eq. }
  pose proof (Hopen r) as H1. destruct (open_tunnel now machine user r) as [[r1 c1] o1].
  pose proof (Hopen r1) as H2. destruct (open_tunnel now machine user r1) as [[r2 c2] o2].
  destruct H1 as (-> & _ & Hn1), H2 as (-> & Hg2 & _). split_and!; [lia|done|].
  unfold close_tunnel, get_conn. simpl. apply lookup_delete_eq.
Qed.

(** ** What the buffer delivers *)

Lemma elem_of_drain_query (now : Z) (machine : string) (d : RelayDatabase) (b : BufferedMessage) :
  b ∈ drain_query now machine d ↔ b ∈ live_messages now machine d.
Proof. unfold drain_query. by rewrite order_by_perm. Qed.

Lemma lookup_delete_all (l : list BufferedMessage) (m : gmap Z BufferedMessage) (i : Z) :
  foldl (λ bs b, delete (b_id b) bs) m l !! i = if decide (i ∈ b_id <$> l) then None else m !! i.
Proof.
  revert m. induction l as [|b l IH]; intros m; [done|]. cbn [foldl]. rewrite IH, lookup_delete, fmap_cons.
  destruct (decide (i ∈ b_id b :: (b_id <$> l))) as [Hi|Hi]; rewrite elem_of_cons in Hi; repeat case_decide; naive_solver.
Qed.

Definition drained_count (o : DrainOutcome) : nat := match o with Drained k | Waiting k => k end.

(** C36: Draining sends a prefix of the unexpired messages of the machine, highest
    priority first and oldest first among equals, through its connection in
    that order, and deletes exactly these: whatever the reader of the channel
    does meanwhile, a message is either handed over or still stored.  When
    the drain ends early, the receiver is gone. *)
Theorem drain_loses_nothing (now : Z) (machine : string) (env : nat → Tick) (r : Relay) (c : nat) (cn : TunnelConnection) :
  db_ok (db r) → get_conn machine r = Some c → conns r !! c = Some cn →
  let msgs := drain_query now machine (db r) in
  ∃ r' o cn' skip,
    drain_buffer now machine env r = (r', Ok o) ∧
    let sent := take (drained_count o) msgs in
    msgs ≡ₚ live_messages now machine (db r) ∧ StronglySorted (λ a b, drain_le a b = true) msgs ∧
    conns r' !! c = Some cn' ∧
    queue (frame_tx cn') = drop skip (queue (frame_tx cn) ++ (buffered_frame now <$> sent)) ∧
    (∀ id b, buffer (db r') !! id = Some b ↔ buffer (db r) !! id = Some b ∧ b ∉ sent) ∧
    (o = Drained (drained_count o) → drained_count o < length msgs → rx_alive (frame_tx cn') = false).
Proof.
  intros Hok Hg Hcn msgs.
  assert (msgs ≡ₚ live_messages now machine (db r)) as Hperm by apply order_by_perm.
  assert (StronglySorted (λ a b, drain_le a b = true) msgs) as Hsorted
    by (apply order_by_sorted; [exact drain_le_trans|exact drain_le_total]).
  assert (∀ b, b ∈ msgs → buffer (db r) !! b_id b = Some b) as Hrow.
  { intros b Hb. rewrite Hperm, elem_of_live_messages in Hb. destruct Hb as (id & Hid & _).
    destruct (ok_buffer _ Hok id b Hid) as (<- & _). done. }
  unfold drain_buffer. fold msgs. destruct msgs as [|m ms] eqn:Hmsgs.
  { exists r, (Drained 0), cn, 0. split_and!; try done; simpl; [by rewrite app_nil_r| |lia].
    intros id b. split; [|tauto]. intros ?. split; [done|]. apply not_elem_of_nil. }
  rewrite Hg. rewrite <- Hmsgs in *. clear Hmsgs m ms.
  destruct (drain_loop_spec now c env msgs 0 r cn Hcn) as (r' & k & cn' & skip & Ho & Hk & Hc' & _ & Hq & Hb & _).
  assert (∀ id b, buffer (db r') !! id = Some b ↔ buffer (db r) !! id = Some b ∧ b ∉ take k msgs) as Hbuf.
  { intros id b. rewrite Hb, lookup_delete_all. destruct (decide (id ∈ b_id <$> take k msgs)) as [Hin|Hin].
    - split; [done|]. intros [Hid Hnot]. destruct Hnot.
      apply list_elem_of_fmap in Hin as (b' & -> & Hb'). assert (b' ∈ msgs) as Hb''.
      { apply elem_of_take in Hb' as (i & Hi & _). by eapply list_elem_of_lookup_2. }
      specialize (Hrow b' Hb''). congruence.
    - split; [|tauto]. intros Hid. split; [done|]. intros Hbt. apply Hin. apply list_elem_of_fmap. exists b.
      split; [|done]. by destruct (ok_buffer _ Hok id b Hid) as (<- & _). }
  destruct Ho as [[Ho Hend]|[Ho [Hlt Hfull]]]; rewrite Ho; eexists r', _, cn', skip; (split; [done|]); simpl;
    split_and!; done.
Qed.

Lemma forward_begin_buffered (now : Z) (bm : BufferManager) (machine rid method : string) (data : list Z)
    (md : gmap string string) (r r1 : Relay) :
  forward_begin now bm machine rid method data md r = Some (r1, Err (Buffered machine)) →
  let id := (buffer_seq (db r) + 1)%Z in
  get_conn machine r = None ∧ is_Some (machines (db r) !! machine) ∧
  count_buffered_messages machine (db r) < max_per_machine bm ∧
  r1 = with_db (write now (WBuffer (mkParams machine rid method data (render_metadata md) 0 (default_ttl_secs bm))) (db r)) r ∧
  buffer (db r1) !! id =
    Some (mkBuffered id machine rid method data (render_metadata md) 0 (now + default_ttl_secs bm) now).
Proof.
  unfold forward_begin. destruct (get_conn machine r) as [c|].
  { destruct (register_pending c rid r) as [r0 w]. destruct (send_frame _ _ _) as [[? []]|]; done. }
  unfold buffer_request. case_decide as Hcap; [done|]. simpl. unfold buffer_message. cbn [p_machine_id].
  destruct (machines (db r) !! machine) as [m|] eqn:Hm; [|done]. simpl. intros [= <-].
  split_and!; [done|by eexists|lia|done|]. simpl. by rewrite lookup_insert_eq.
Qed.

(** A request to an offline machine is not lost: when the machine opens a
    tunnel before the message expires (and the buffer fits the channel), the
    daemon is sent the same request, with the same id, method, data and
    metadata as if it had been online, and no message of the machine is left
    in the buffer. *)
Theorem buffered_request_delivered (now0 now1 : Z) (bm : BufferManager) (machine user rid method : string)
    (data : list Z) (md : gmap string string) (r r1 : Relay) :
  db_ok (db r) → forward_begin now0 bm machine rid method data md r = Some (r1, Err (Buffered machine)) →
  (now1 < now0 + default_ttl_secs bm)%Z → length (live_messages now1 machine (db r1)) ≤ 128 →
  let '(r2, c, _) := open_tunnel now1 machine user r1 in
  ∃ cn, conns r2 !! c = Some cn ∧
    build_request_frame now1 rid method data md ∈ queue (frame_tx cn) ∧
    live_messages now1 machine (db r2) = [].
Proof.
  intros Hok Hf Hnow Hfit. apply forward_begin_buffered in Hf as (Hg & _ & _ & Hr1 & Hrow).
  assert (db_ok (db r1)) as Hok1.
  { rewrite Hr1. cbn [db with_db]. by apply write_ok. }
  unfold open_tunnel, register_conn. cbn [db with_db].
  set (r2 := with_db _ _). set (cn0 := conn_new machine user (mkChan [] tunnel_capacity true)).
  assert (buffer (db r2) = buffer (db r1)) as Hbuf by apply update_status_buffer.
  assert (live_messages now1 machine (db r2) = live_messages now1 machine (db r1)) as Hlive
    by (unfold live_messages; by rewrite Hbuf).
  assert (db_ok (db r2)) as Hok2 by (by apply (write_ok now1 (WStatus machine "online"))).
  assert (conns r2 !! next_id r1 = Some cn0) as Hcn by (simpl; by rewrite lookup_insert_eq).
  set (b := mkBuffered _ _ _ _ _ _ _ _ _) in Hrow.
  assert (b ∈ drain_query now1 machine (db r2)) as Hb.
  { rewrite elem_of_drain_query, elem_of_live_messages. exists (buffer_seq (db r) + 1)%Z. by rewrite Hbuf. }
  set (msgs := drain_query now1 machine (db r2)) in *.
  assert (msgs ≡ₚ live_messages now1 machine (db r1)) as Hperm by (rewrite <- Hlive; apply order_by_perm).
  assert (length msgs ≤ 128) as Hlen by (by rewrite Hperm).
  pose proof (drain_unread now1 (next_id r1) msgs 0 r2 cn0 Hcn eq_refl (Nat.le_0_l _)) as Hd.
  cbn [frame_tx cn0 conn_new queue capacity length] in Hd.
  rewrite decide_True in Hd by (rewrite Nat.sub_0_r; exact Hlen).
  destruct (drain_loop_spec now1 (next_id r1) (λ _, mkTick 0 false) msgs 0 r2 cn0 Hcn)
    as (r' & k & cn' & skip & Ho & Hk & Hc' & H0 & Hq & Hbuf' & _).
  unfold drain_buffer. fold msgs. destruct msgs as [|m ms] eqn:Hmsgs; [by apply elem_of_nil in Hb|].
  assert (get_conn machine r2 = Some (next_id r1)) as -> by (unfold get_conn; simpl; by rewrite lookup_insert_eq).
  rewrite <- Hmsgs in *. clear Hmsgs m ms.
  assert (k = length msgs) as ->.
  { destruct Ho as [[Ho _]|[Ho _]]; rewrite Ho in Hd; simpl in Hd; congruence. }
  assert (drain_loop now1 (next_id r1) (λ _, mkTick 0 false) msgs 0 r2 = (r', Drained (length msgs))) as ->.
  { destruct Ho as [[Ho _]|[_ [Hlt _]]]; [done|lia]. }
  simpl. exists cn'. split; [done|].
  rewrite (H0 (λ _, eq_refl)), take_ge in Hq by done. rewrite take_ge in Hbuf' by done. split.
  - rewrite Hq. simpl. apply list_elem_of_fmap. exists b. split; [|done]. unfold buffered_frame, b. simpl.
    by rewrite parse_render.
  - apply elem_of_nil_inv. intros b'. rewrite elem_of_live_messages. intros (id & Hid & Hm & Hx).
    rewrite Hbuf', lookup_delete_all in Hid. case_decide as Hin; [done|]. apply Hin.
    destruct (ok_buffer _ Hok2 id b' Hid) as (<- & _). apply list_elem_of_fmap. exists b'. split; [done|].
    rewrite Hperm, <- Hlive, elem_of_live_messages. eauto.
Qed.

End Theorems.

(** * Witnesses *)

(** Metadata as the bits of its encoding, for examples. *)
Program Definition toy_json : MetadataJson := {|
  render_metadata m := bits_of (encode m);
  parse_metadata s := match decode (of_bits s) with Some m => Ok m | None => Err "invalid" end
|}.
Next Obligation. intros m. simpl. by rewrite of_bits_of, decode_encode. Qed.

#[local] Existing Instance toy_json.

Definition demo_relay : Relay :=
  relay_start (foldl (λ d w, write 0 w d) empty_db
    [WCreateUser "u" "alice" "alice@example.com" "pw"; WCreateMachine "m" "laptop" "u" "{}"]).

Lemma demo_relay_ok : db_ok (db demo_relay).
Proof. do 2 apply write_ok. split; simpl; intros *; rewrite lookup_empty; done. Qed.

Definition demo_bm : BufferManager := mkBufferManager 100 5.

Definition demo_offline : Relay :=
  from_option fst demo_relay (forward_begin 10 demo_bm "m" "q1" "Agent/Converse" [1; 2]%Z {[ "k" := "v" ]} demo_relay).

Lemma buffered_request_delivered_witness :
  let '(r2, c, _) := open_tunnel 50 "m" "u" demo_offline in
  ∃ cn, conns r2 !! c = Some cn ∧
    build_request_frame 50 "q1" "Agent/Converse" [1; 2]%Z {[ "k" := "v" ]} ∈ queue (frame_tx cn) ∧
    live_messages 50 "m" (db r2) = [].
Proof.
  apply (buffered_request_delivered 10 50 demo_bm "m" "u" "q1" "Agent/Converse" [1; 2]%Z {[ "k" := "v" ]} demo_relay demo_offline).
  - exact demo_relay_ok.
  - reflexivity.
  - vm_compute. reflexivity.
  - vm_compute. lia.
Defined.

Lemma drain_loses_nothing_witness :
  let r := (register_conn "m" "u" (mkChan [] 2 true) demo_offline).1 in
  let msgs := drain_query 50 "m" (db r) in
  ∃ r' o cn' skip,
    drain_buffer 50 "m" (λ _, mkTick 0 true) r = (r', Ok o) ∧
    let sent := take (drained_count o) msgs in
    msgs ≡ₚ live_messages 50 "m" (db r) ∧ StronglySorted (λ a b, drain_le a b = true) msgs ∧
    conns r' !! 0 = Some cn' ∧ queue (frame_tx cn') = drop skip ([] ++ (buffered_frame 50 <$> sent)) ∧
    (∀ id b, buffer (db r') !! id = Some b ↔ buffer (db r) !! id = Some b ∧ b ∉ sent) ∧
    (o = Drained (drained_count o) → drained_count o < length msgs → rx_alive (frame_tx cn') = false).
Proof.
  apply (drain_loses_nothing 50 "m" (λ _, mkTick 0 true) (register_conn "m" "u" (mkChan [] 2 true) demo_offline).1
           0 (conn_new "m" "u" (mkChan [] 2 true))).
  - exact (write_ok 10 (WBuffer (mkParams "m" "q1" "Agent/Converse" [1; 2]%Z (render_metadata {[ "k" := "v" ]}) 0 100))
             (db demo_relay) demo_relay_ok).
  - reflexivity.
  - reflexivity.
Defined.

(** Two requests to one machine, answered in the other order. *)
Definition demo_requests : list (Z * TunnelOp) :=
  [(1%Z, TOpen "m" "u"); (2%Z, TForward demo_bm "m" "q1" "Agent/A" [] ∅); (3%Z, TForward demo_bm "m" "q2" "Agent/B" [] ∅);
   (4%Z, TFrame 0 (mkFrame "q2" FtResponse 4 None)); (5%Z, TFrame 0 (mkFrame "q1" FtResponse 5 None))].

Lemma answers_reach_their_request_witness :
  let r := tunnel_run demo_requests (relay_start (db demo_relay)) in
  length (log r) = 2 ∧ ∀ w c f, (w, c, f) ∈ log r → ∃ k, registered r !! w = Some (k, c, request_id f).
Proof.
  intros r. split; [reflexivity|].
  destruct (answers_reach_their_request demo_requests (db demo_relay)) as [H _]. exact H.
Defined.

Definition demo_hello : TunnelFrame := mkFrame "hello" FtControl 0 (Some (Control {[ "machine_id" := "m" ]})).

Lemma tunnel_admission_witness :
  admit_tunnel true (Some ("m", "01")) "u" (Some demo_hello) (db demo_relay) = Ok "m" ∧
  admit_tunnel true (Some ("other", "01")) "u" (Some demo_hello) (db demo_relay) ≠ Ok "m".
Proof.
  split; [reflexivity|]. intros H%tunnel_admission. destruct H as (_ & _ & _ & H).
  destruct (H eq_refl) as (serial & Hs & _). discriminate Hs.
Defined.

Lemma reconnect_stalls_on_full_buffer_witness :
  (open_tunnel 50 "m" "u" demo_offline).2 = Ok (Drained 1).
Proof. exact (reconnect_stalls_on_full_buffer 50 "m" "u" demo_offline). Defined.
