(* ===== verification/SessionRelay.v ===== *)
(** The agent processes of the daemon, and below the relay of their output.

    Models crates/betcode-daemon/src/subprocess/manager.rs, and in its second
    part relay/ (types.rs, pipeline.rs).  A process is known
    by the UUID under which it was spawned (an argument).  Its standard input
    is a queue that outlives the manager's entry, since handles to it are
    shared; [open] is false once the writer task has stopped.  The queue is
    never full.  What the operating system answers is the record [SpawnOs]. *)
From stdpp Require Import gmap strings list.
From Stdlib Require Import ZArith SpecFloat Lia.
From S2P Require Import Prelude Protocol Json Ndjson Commands Multiplexer EventBridge SessionStore Encodings.

Inductive PermissionStrategy :=
| PromptToolStdio
| AllowedTools (tools : list string)
| SkipPermissions.

Record SpawnConfig := mkSpawnConfig {
  sc_working_directory : string;
  sc_prompt : option string;
  sc_resume_session : option string;
  sc_model : option string;
  sc_permission_strategy : PermissionStrategy
}.

Record SpawnOs := mkSpawnOs {
  path_exists : string → bool;
  home_dir : option string;
  temp_dir : string;
  exec_failure : option string   (** why the program cannot be started *)
}.

Inductive SubprocessError :=
| PoolExhausted (current max : nat)
| SpawnFailed (reason : string)
| ProcessNotFound (id : string)
| ProcessExited (id : string).

Record ProcessState := mkProcess {
  ps_session_id : option string;
  ps_working_directory : string;
  ps_args : list string;
  ps_current_dir : string
}.

Record Stdin := mkStdin {
  lines : list string;
  open : bool
}.

Record SubprocessManager := mkSubprocesses {
  processes : gmap string ProcessState;
  max_processes : nat;
  stdins : gmap string Stdin
}.

Definition subprocess_new (max : nat) : SubprocessManager := mkSubprocesses ∅ max ∅.

(** The directory in which the process starts. *)
Definition spawn_dir (os : SpawnOs) (requested : string) : string :=
  if decide (requested = EmptyString ∨ path_exists os requested = false) then default (temp_dir os) (home_dir os)
  else requested.

Definition strategy_args (s : PermissionStrategy) : list string :=
  match s with
  | PromptToolStdio => ["--permission-prompt-tool"; "stdio"]
  | AllowedTools tools => if decide (tools = []) then [] else "--allowedTools" :: tools
  | SkipPermissions => ["--dangerously-skip-permissions"]
  end.

Definition option_args (flag : string) (v : option string) : list string :=
  match v with Some s => [flag; s] | None => [] end.

(** The command line, after the name of the program. *)
Definition spawn_args (c : SpawnConfig) : list string :=
  ["--output-format"; "stream-json"; "--input-format"; "stream-json"; "--verbose"] ++
  strategy_args (sc_permission_strategy c) ++
  match sc_prompt c with Some p => ["-p"; p; "--include-partial-messages"] | None => [] end ++
  option_args "--resume" (sc_resume_session c) ++
  option_args "--model" (sc_model c).

Definition spawn (os : SpawnOs) (uuid : string) (c : SpawnConfig) (m : SubprocessManager)
  : SubprocessManager * result SubprocessError string :=
  if decide (max_processes m ≤ size (processes m)) then
    (m, Err (PoolExhausted (size (processes m)) (max_processes m)))
  else match exec_failure os with
  | Some reason => (m, Err (SpawnFailed reason))
  | None =>
      let state := mkProcess None (sc_working_directory c) (spawn_args c) (spawn_dir os (sc_working_directory c)) in
      (mkSubprocesses (<[uuid := state]> (processes m)) (max_processes m) (<[uuid := mkStdin [] true]> (stdins m)), Ok uuid)
  end.

(** [stdin_tx.send(line)]: refused once the receiver is gone. *)
Definition stdin_send (id line : string) (m : SubprocessManager) : SubprocessManager * bool :=
  match stdins m !! id with
  | Some (mkStdin ls true) =>
      (mkSubprocesses (processes m) (max_processes m) (<[id := mkStdin (ls ++ [line]) true]> (stdins m)), true)
  | _ => (m, false)
  end.

Definition send (id line : string) (m : SubprocessManager) : SubprocessManager * result SubprocessError unit :=
  match processes m !! id with
  | None => (m, Err (ProcessNotFound id))
  | Some _ => let '(m', sent) := stdin_send id line m in (m', if sent then Ok tt else Err (ProcessExited id))
  end.

(** However the process ends (by the signal, by an error while waiting, or
    killed after the timeout), the entry is gone and the call succeeds. *)
Definition terminate (id : string) (m : SubprocessManager) : SubprocessManager * result SubprocessError unit :=
  match processes m !! id with
  | None => (m, Err (ProcessNotFound id))
  | Some _ => (mkSubprocesses (delete id (processes m)) (max_processes m) (stdins m), Ok tt)
  end.

Definition active_count (m : SubprocessManager) : nat := size (processes m).

Definition capacity (m : SubprocessManager) : nat := max_processes m.

Definition set_session_id (id session_id : string) (m : SubprocessManager)
  : SubprocessManager * result SubprocessError unit :=
  match processes m !! id with
  | None => (m, Err (ProcessNotFound id))
  | Some p =>
      (mkSubprocesses (<[id := mkProcess (Some session_id) (ps_working_directory p) (ps_args p) (ps_current_dir p)]>
         (processes m)) (max_processes m) (stdins m), Ok tt)
  end.

(** The writer task of a process stops: a write failed, the process is gone. *)
Definition stdin_closed (id : string) (m : SubprocessManager) : SubprocessManager :=
  mkSubprocesses (processes m) (max_processes m) (alter (λ s, mkStdin (lines s) false) id (stdins m)).

(** The flags that make the agent skip its permission checks are passed only
    when the configuration says so, whatever the user's texts are: every text
    of a client follows a flag of its own. *)
Lemma spawn_args_shape (c : SpawnConfig) :
  ∃ texts, spawn_args c = ["--output-format"; "stream-json"; "--input-format"; "stream-json"; "--verbose"] ++
             strategy_args (sc_permission_strategy c) ++ texts ∧
    length texts = (if sc_prompt c then 3 else 0) + (if sc_resume_session c then 2 else 0) + (if sc_model c then 2 else 0).
Proof.
  eexists. split; [reflexivity|]. destruct (sc_prompt c), (sc_resume_session c), (sc_model c); reflexivity.
Qed.

(** The session relay: from the agent's process to the clients and back.

    Models crates/betcode-daemon/src/relay/ (types.rs, pipeline.rs) on
    the processes above, [Ndjson], [EventBridge], [Multiplexer],
    [SessionStore], [Commands] and [Encodings].

    The values that handles and pipelines share behind an [Arc] are in a store
    of cells, indexed by the process they belong to.  The task that reads a
    process's output is a state machine whose steps are the sections between
    two waits, so that the calls of clients come in between; a call of a client
    is one step.  The task behind an event forwarder takes one event of its
    queue per step.  Clock readings, UUIDs, what the operating system answers
    and which plugins a directory holds are arguments.  The queues between
    tasks are never full.  The protobuf codec is the class [ProstCodec]. *)

(** [AgentEvent::encode] and [AgentEvent::decode]. *)
Notation ProstCodec := (ProtoMessage (AgentEvent EventBody)).
Notation encode_event := (m_encode (M := AgentEvent EventBody)).
Notation decode_event := (m_decode (M := AgentEvent EventBody)).
Notation encode_event_bytes := (m_encode_bytes (M := AgentEvent EventBody)).
Notation decode_encode_event := (m_decode_encode (M := AgentEvent EventBody)).

(** * Handles (types.rs) *)

Record RelaySessionConfig := mkRelayConfig {
  rc_session_id : string;
  rc_working_directory : string;
  rc_model : option string;
  rc_resume_session : option string;
  rc_worktree_id : string
}.

Record PendingPermission := mkPendingPermission {
  pp_input : Json;
  pp_tool_name : string
}.

(** A handle names the process whose queue and cells it shares. *)
Record RelayHandle := mkRelayHandle {
  rh_process_id : string;
  rh_session_id : string
}.

Record Cells := mkCells {
  sequence_counter : Z;
  c_questions : gmap string Json;
  c_permissions : gmap string PendingPermission;
  c_grants : gmap string bool
}.

Inductive PermissionDecision :=
| AllowOnce | AllowSession | AllowWithEdit | Deny | DenyNoInterrupt | DenyWithInterrupt | Unspecified.

#[export] Instance PermissionDecision_eq_dec : EqDecision PermissionDecision.
Proof. solve_decision. Defined.

Definition is_granted (d : PermissionDecision) : bool :=
  match d with
  | AllowOnce | AllowSession | AllowWithEdit => true
  | Deny | DenyNoInterrupt | DenyWithInterrupt | Unspecified => false
  end.

Inductive RelayError :=
| SubprocessFailed (e : SubprocessError)
| SessionNotFound (session_id : string)
| StdinClosed (session_id : string).

Definition set_counter (n : Z) (c : Cells) : Cells := mkCells n (c_questions c) (c_permissions c) (c_grants c).
Definition set_questions (q : gmap string Json) (c : Cells) : Cells :=
  mkCells (sequence_counter c) q (c_permissions c) (c_grants c).
Definition set_permissions (p : gmap string PendingPermission) (c : Cells) : Cells :=
  mkCells (sequence_counter c) (c_questions c) p (c_grants c).
Definition set_cell_grants (g : gmap string bool) (c : Cells) : Cells :=
  mkCells (sequence_counter c) (c_questions c) (c_permissions c) g.

(** The pending entry is removed; [AllowSession] is remembered for its tool. *)
Definition process_permission_response (request_id : string) (decision : PermissionDecision) (c : Cells)
  : Cells * (bool * Json) :=
  let c1 := set_permissions (delete request_id (c_permissions c)) c in
  match c_permissions c !! request_id with
  | Some p =>
      (if decide (decision = AllowSession) then set_cell_grants (<[pp_tool_name p := true]> (c_grants c1)) c1 else c1,
       (is_granted decision, pp_input p))
  | None => (c1, (is_granted decision, JObj []))
  end.

Definition list_grants {HI : HashIter} (c : Cells) : list (string * bool) := hm_iter (c_grants c).

Definition clear_grants (tool_name : string) (c : Cells) : Cells :=
  set_cell_grants (if decide (tool_name = EmptyString) then ∅ else delete tool_name (c_grants c)) c.

Definition set_grant (tool_name : string) (granted : bool) (c : Cells) : Cells :=
  set_cell_grants (<[tool_name := granted]> (c_grants c)) c.

(** * Lines for the process *)

Definition control_response (request_id : string) (response : Json) : Json :=
  json_object [("type", JStr "control_response");
               ("response", json_object [("subtype", JStr "success"); ("request_id", JStr request_id);
                                         ("response", response)])].

Definition permission_response (granted : bool) (original_input : Json) : Json :=
  if granted then json_object [("behavior", JStr "allow"); ("updatedInput", original_input)]
  else json_object [("behavior", JStr "deny"); ("message", JStr "User denied permission"); ("interrupt", JBool true)].

Definition build_permission_response_json {JW : JsonWrite} (request_id : string) (granted : bool) (original_input : Json)
  : string := json_to_string (control_response request_id (permission_response granted original_input)).

(** The answers, a hash map in the code, become an object. *)
Definition answers_object (answers : list (string * string)) : Json :=
  json_object ((λ kv, (kv.1, JStr kv.2)) <$> answers).

Definition question_response (answers : list (string * string)) (original_input : Json) : Json :=
  let updated_input := match original_input with
                       | JObj entries => JObj (obj_insert "answers" (answers_object answers) entries)
                       | v => v
                       end in
  json_object [("behavior", JStr "allow"); ("updatedInput", updated_input)].

Definition build_question_response_json {JW : JsonWrite} (request_id : string) (answers : list (string * string))
    (original_input : Json) : string :=
  json_to_string (control_response request_id (question_response answers original_input)).

Definition user_message (content : string) (agent_id : option string) : Json :=
  let msg := [("type", JStr "user");
              ("message", json_object [("role", JStr "user"); ("content", JStr content)]);
              ("session_id", JStr "default"); ("parent_tool_use_id", JNull)] in
  json_object (msg ++ match agent_id with
                      | Some aid => if decide (aid = EmptyString) then [] else [("agent_id", JStr aid)]
                      | None => []
                      end).

(** * History *)

Definition event_message_type (event : AgentEvent EventBody) : string :=
  match eb_event (ev_payload event) with
  | Some (EvToolCallResult _ _ _ _ | EvUsage _ | EvTurnComplete _) => "result"
  | Some (EvPermissionRequest _ _ _ _ | EvUserQuestion _ _ _ _) => "control_request"
  | Some (EvSessionInfo _) => "system"
  | Some (EvUserInput _) => "user"
  | Some (EvTextDelta _ _ | EvToolCallStart _ _ _ _ | EvStatusChange _ _ | EvError _ | EvTodoUpdate | EvPlanMode | EvEncrypted _ _)
  | None => "stream_event"
  end.

Definition store_event {PC : ProstCodec} (now : Z) (session_id : string) (event : AgentEvent EventBody) (d : DaemonDb)
  : DaemonDb * result DatabaseError Z :=
  insert_message now session_id (i64_of_u64 (ev_sequence event)) (event_message_type event) (base64_encode (encode_event event)) d.

(** * The state *)

(** Where the task of a process is: waiting for a line, handing over the
    inputs that wait for an answer, storing and forwarding events, or done. *)
Inductive Phase :=
| PAwait
| PTransfer (todo all : list (AgentEvent EventBody)) (auto : gset string)
| PEmit (todo : list (AgentEvent EventBody)) (auto : gset string)
| PDone.

Record Pipeline := mkPipeline {
  pl_session_id : string;
  pl_working_directory : string;
  pl_bridge : EventBridge;
  pl_event_count : Z;
  pl_had_session_error : bool;
  pl_phase : Phase
}.

Record Relay := mkRelay {
  r_subprocesses : SubprocessManager;
  r_mux : SessionMultiplexer EventBody;
  r_db : DaemonDb;
  r_sessions : gmap string RelayHandle;
  r_registry : CommandRegistry;
  r_cells : gmap string Cells;
  r_pipelines : gmap string Pipeline;
  r_queues : gmap string (list (AgentEvent EventBody))
}.

Definition relay_new (max : nat) (cfg : MultiplexerConfig) (d : DaemonDb) : Relay :=
  mkRelay (subprocess_new max) (mux_new cfg) d ∅ registry_new ∅ ∅ ∅.

Definition set_subprocesses (x : SubprocessManager) (r : Relay) : Relay :=
  mkRelay x (r_mux r) (r_db r) (r_sessions r) (r_registry r) (r_cells r) (r_pipelines r) (r_queues r).
Definition set_mux (x : SessionMultiplexer EventBody) (r : Relay) : Relay :=
  mkRelay (r_subprocesses r) x (r_db r) (r_sessions r) (r_registry r) (r_cells r) (r_pipelines r) (r_queues r).
Definition set_relay_db (x : DaemonDb) (r : Relay) : Relay :=
  mkRelay (r_subprocesses r) (r_mux r) x (r_sessions r) (r_registry r) (r_cells r) (r_pipelines r) (r_queues r).
Definition set_relay_sessions (x : gmap string RelayHandle) (r : Relay) : Relay :=
  mkRelay (r_subprocesses r) (r_mux r) (r_db r) x (r_registry r) (r_cells r) (r_pipelines r) (r_queues r).
Definition set_registry (x : CommandRegistry) (r : Relay) : Relay :=
  mkRelay (r_subprocesses r) (r_mux r) (r_db r) (r_sessions r) x (r_cells r) (r_pipelines r) (r_queues r).
Definition set_cells (x : gmap string Cells) (r : Relay) : Relay :=
  mkRelay (r_subprocesses r) (r_mux r) (r_db r) (r_sessions r) (r_registry r) x (r_pipelines r) (r_queues r).
Definition set_pipelines (x : gmap string Pipeline) (r : Relay) : Relay :=
  mkRelay (r_subprocesses r) (r_mux r) (r_db r) (r_sessions r) (r_registry r) (r_cells r) x (r_queues r).
Definition set_queues (x : gmap string (list (AgentEvent EventBody))) (r : Relay) : Relay :=
  mkRelay (r_subprocesses r) (r_mux r) (r_db r) (r_sessions r) (r_registry r) (r_cells r) (r_pipelines r) x.

Definition update_cells (pid : string) (f : Cells → Cells) (r : Relay) : Relay :=
  set_cells (alter f pid (r_cells r)) r.

(** * Calls (pipeline.rs) *)

Section Relay.
Context {DT : DebugText} {JT : JsonText} {JW : JsonWrite} {PC : ProstCodec}.
Context (clock : Z → Timestamp).

Definition get_handle (session_id : string) (r : Relay) : option RelayHandle := r_sessions r !! session_id.

Definition is_active (session_id : string) (r : Relay) : bool := bool_decide (is_Some (r_sessions r !! session_id)).

Definition get_active_handle (session_id : string) (r : Relay) : result RelayError RelayHandle :=
  match r_sessions r !! session_id with
  | Some h => Ok h
  | None => Err (SessionNotFound session_id)
  end.

Definition start_session (os : SpawnOs) (uuid : string) (cfg : RelaySessionConfig) (initial_prompt : option string)
    (r : Relay) : Relay * result RelayError RelayHandle :=
  let sid := rc_session_id cfg in
  match r_sessions r !! sid with
  | Some handle => (r, Ok handle)
  | None =>
      let spawn_config := mkSpawnConfig (rc_working_directory cfg) initial_prompt (rc_resume_session cfg) (rc_model cfg)
                            PromptToolStdio in
      match spawn os uuid spawn_config (r_subprocesses r) with
      | (sub, Err e) => (set_subprocesses sub r, Err (SubprocessFailed e))
      | (sub, Ok pid) =>
          let start_seq := wrap_u64 (max_message_sequence sid (r_db r)) in
          let handle := mkRelayHandle pid sid in
          let pipeline := mkPipeline sid (rc_working_directory cfg) (with_start_sequence start_seq) 0 false PAwait in
          (mkRelay sub (r_mux r) (r_db r) (<[sid := handle]> (r_sessions r)) (r_registry r)
             (<[pid := mkCells start_seq ∅ ∅ ∅]> (r_cells r)) (<[pid := pipeline]> (r_pipelines r))
             (<[pid := []]> (r_queues r)), Ok handle)
      end
  end.

Definition relay_stdin (pid session_id line : string) (r : Relay) : Relay * result RelayError unit :=
  let '(sub, sent) := stdin_send pid line (r_subprocesses r) in
  (set_subprocesses sub r, if sent then Ok tt else Err (StdinClosed session_id)).

Definition user_input_event (seq : Z) (content : string) : AgentEvent EventBody :=
  mkEvent seq (mkBody (Some (clock seq)) EmptyString (Some (EvUserInput content))).

(** [fetch_add] wraps, and so does the addition after it. *)
Definition send_user_message (now : Z) (session_id content : string) (agent_id : option string) (r : Relay)
  : Relay * result RelayError unit :=
  match get_active_handle session_id r with
  | Err e => (r, Err e)
  | Ok h =>
      let pid := rh_process_id h in
      let seq := wrap_u64 (default 0%Z (sequence_counter <$> r_cells r !! pid) + 1) in
      let r1 := update_cells pid (set_counter seq) r in
      let r2 := set_relay_db (store_event now session_id (user_input_event seq content) (r_db r1)).1 r1 in
      relay_stdin pid session_id (json_to_string (user_message content agent_id)) r2
  end.

Definition send_permission_response (session_id request_id : string) (granted : bool) (original_input : Json) (r : Relay)
  : Relay * result RelayError unit :=
  match get_active_handle session_id r with
  | Err e => (r, Err e)
  | Ok h => relay_stdin (rh_process_id h) session_id (build_permission_response_json request_id granted original_input) r
  end.

Definition send_question_response (session_id request_id : string) (answers : list (string * string))
    (original_input : Json) (r : Relay) : Relay * result RelayError unit :=
  match get_active_handle session_id r with
  | Err e => (r, Err e)
  | Ok h => relay_stdin (rh_process_id h) session_id (build_question_response_json request_id answers original_input) r
  end.

Definition send_raw_stdin (session_id line : string) (r : Relay) : Relay * result RelayError unit :=
  match get_active_handle session_id r with
  | Err e => (r, Err e)
  | Ok h => relay_stdin (rh_process_id h) session_id line r
  end.

Definition cancel_session (now : Z) (session_id : string) (r : Relay) : Relay * result RelayError bool :=
  match r_sessions r !! session_id with
  | None => (r, Ok false)
  | Some h =>
      match terminate (rh_process_id h) (r_subprocesses r) with
      | (sub, Err e) => (set_subprocesses sub r, Err (SubprocessFailed e))
      | (sub, Ok _) =>
          (mkRelay sub (r_mux r) (update_session_status now session_id SessIdle (r_db r))
             (delete session_id (r_sessions r)) (remove_session session_id (r_registry r)) (r_cells r) (r_pipelines r)
             (r_queues r), Ok true)
      end
  end.

(** * The task of a process *)

Definition set_phase (p : Phase) (pl : Pipeline) : Pipeline :=
  mkPipeline (pl_session_id pl) (pl_working_directory pl) (pl_bridge pl) (pl_event_count pl) (pl_had_session_error pl) p.

Definition set_bridge (b : EventBridge) (pl : Pipeline) : Pipeline :=
  mkPipeline (pl_session_id pl) (pl_working_directory pl) b (pl_event_count pl) (pl_had_session_error pl) (pl_phase pl).

Definition put_pipeline (pid : string) (pl : Pipeline) (r : Relay) : Relay :=
  set_pipelines (<[pid := pl]> (r_pipelines r)) r.

(** The directory of the process replaces an empty one in [SessionInfo]. *)
Definition inject_directory (dir : string) (e : AgentEvent EventBody) : AgentEvent EventBody :=
  match eb_event (ev_payload e) with
  | Some (EvSessionInfo i) =>
      if decide (info_working_directory i = EmptyString) then
        mkEvent (ev_sequence e) (mkBody (eb_timestamp (ev_payload e)) (eb_parent_tool_use_id (ev_payload e))
          (Some (EvSessionInfo (mkSessionInfo (info_session_id i) (info_model i) dir (info_worktree_id i)
             (info_message_count i) (info_is_resumed i) (info_is_compacted i) (info_context_usage_percent i)))))
      else e
  | _ => e
  end.

(** The session's layer of commands: its MCP tools and the plugins of its
    directory. *)
Definition session_commands (plugins : string → list CommandEntry) (dir : string) (b : EventBridge) : list CommandEntry :=
  let cwd := match session_info b with
             | Some i => if decide (info_working_directory i = EmptyString) then dir else info_working_directory i
             | None => dir
             end in
  mcp_entries b ++ plugins cwd.

(** A line arrives: it is parsed, the bridge skips the numbers that user
    messages took, and the message is converted. *)
Definition pipeline_line (plugins : string → list CommandEntry) (pid line : string) (r : Relay) : Relay :=
  match r_pipelines r !! pid with
  | Some pl =>
      match pl_phase pl, parse_line line with
      | PAwait, Ok msg =>
          let latest := default 0%Z (sequence_counter <$> r_cells r !! pid) in
          let b := if (br_sequence (pl_bridge pl) <? latest)%Z then with_start_sequence latest else pl_bridge pl in
          let '(b', events) := convert clock msg b in
          match msg with
          | MsgSystemInit _ =>
              let events' := inject_directory (pl_working_directory pl) <$> events in
              let entries := session_commands plugins (pl_working_directory pl) b' in
              let r' := match entries with
                        | [] => r
                        | _ => set_registry (set_session_entries (pl_session_id pl) entries (r_registry r)) r
                        end in
              put_pipeline pid (set_phase (PTransfer events' events' ∅) (set_bridge b' pl)) r'
          | _ => put_pipeline pid (set_phase (PTransfer events events ∅) (set_bridge b' pl)) r
          end
      | _, _ => r
      end
  | None => r
  end.

(** One event of the first loop: inputs that wait for an answer move from the
    bridge to the shared cells, or a remembered decision answers at once. *)
Definition transfer_event (pid : string) (e : AgentEvent EventBody) (pl : Pipeline) (auto : gset string) (r : Relay)
  : Relay * EventBridge * gset string :=
  match eb_event (ev_payload e) with
  | Some (EvUserQuestion id _ _ _) =>
      let '(b, input) := take_question_input id (pl_bridge pl) in
      (match input with
       | Some v => update_cells pid (λ c, set_questions (<[id := v]> (c_questions c)) c) r
       | None => r
       end, b, auto)
  | Some (EvPermissionRequest id tool _ _) =>
      let '(b, input) := take_permission_input id (pl_bridge pl) in
      match input with
      | Some v =>
          match (r_cells r !! pid) ≫= (λ c, c_grants c !! tool) with
          | Some granted =>
              ((relay_stdin pid (pl_session_id pl) (build_permission_response_json id granted v) r).1, b, {[id]} ∪ auto)
          | None =>
              (update_cells pid (λ c, set_permissions (<[id := mkPendingPermission v tool]> (c_permissions c)) c) r, b, auto)
          end
      | None => (r, b, auto)
      end
  | _ => (r, pl_bridge pl, auto)
  end.

Definition auto_responded (auto : gset string) (e : AgentEvent EventBody) : bool :=
  match eb_event (ev_payload e) with
  | Some (EvPermissionRequest id _ _ _) => bool_decide (id ∈ auto)
  | _ => false
  end.

Definition is_session_error (e : AgentEvent EventBody) : bool :=
  match eb_event (ev_payload e) with
  | Some (EvError err) => bool_decide (err_code err = "session_error")
  | _ => false
  end.

Definition record_usage (now : Z) (sid : string) (e : AgentEvent EventBody) (d : DaemonDb) : DaemonDb :=
  match eb_event (ev_payload e) with
  | Some (EvUsage u) => update_session_usage now sid (ur_input_tokens u) (ur_output_tokens u) (ur_cost_usd u) d
  | _ => d
  end.

Definition enqueue (pid : string) (e : AgentEvent EventBody) (r : Relay) : Relay :=
  set_queues (alter (λ q, q ++ [e]) pid (r_queues r)) r.

(** One event of the second loop: stored for replay and, unless it was
    answered already, forwarded. *)
Definition emit_event (now : Z) (pid : string) (e : AgentEvent EventBody) (auto : gset string) (pl : Pipeline) (r : Relay)
  : Relay * Pipeline :=
  let sid := pl_session_id pl in
  if auto_responded auto e then (set_relay_db (store_event now sid e (r_db r)).1 r, pl)
  else
    let d1 := record_usage now sid e (r_db r) in
    let r1 := set_relay_db (store_event now sid e d1).1 r in
    (enqueue pid e r1,
     mkPipeline sid (pl_working_directory pl) (pl_bridge pl) (pl_event_count pl + 1)
       (pl_had_session_error pl || is_session_error e) (pl_phase pl)).

(** After the last event: the shared counter, and the agent's own session
    identifier for later resumption. *)
Definition sync_session (now : Z) (pid : string) (pl : Pipeline) (r : Relay) : Relay :=
  let sid := pl_session_id pl in
  let r1 := update_cells pid (set_counter (br_sequence (pl_bridge pl))) r in
  match session_info (pl_bridge pl) with
  | None => r1
  | Some info =>
      if pl_had_session_error pl then set_relay_db (update_claude_session_id now sid EmptyString (r_db r1)) r1
      else
        let r2 := match r_sessions r1 !! sid with
                  | Some h => set_subprocesses (set_session_id (rh_process_id h) (info_session_id info) (r_subprocesses r1)).1 r1
                  | None => r1
                  end in
        set_relay_db (update_claude_session_id now sid (info_session_id info) (r_db r2)) r2
  end.

(** The next section of the task, when it is not waiting for a line. *)
Definition pipeline_step (now : Z) (pid : string) (r : Relay) : Relay :=
  match r_pipelines r !! pid with
  | None => r
  | Some pl =>
      match pl_phase pl with
      | PTransfer (e :: todo) all auto =>
          let '(r', b, auto') := transfer_event pid e pl auto r in
          put_pipeline pid (set_phase (PTransfer todo all auto') (set_bridge b pl)) r'
      | PTransfer [] all auto => put_pipeline pid (set_phase (PEmit all auto) pl) r
      | PEmit (e :: todo) auto =>
          let '(r', pl') := emit_event now pid e auto pl r in
          put_pipeline pid (set_phase (PEmit todo auto) pl') r'
      | PEmit [] auto => put_pipeline pid (set_phase PAwait pl) (sync_session now pid pl r)
      | PAwait | PDone => r
      end
  end.

Definition no_output_error : AgentEvent EventBody :=
  mkEvent 0 (mkBody (Some (clock 0)) EmptyString (Some (EvError (mkErrorEvent "subprocess_failed"
    "Claude subprocess exited without producing output. Check daemon logs for stderr details." true)))).

(** The output ends. *)
Definition pipeline_close (now : Z) (pid : string) (r : Relay) : Relay :=
  match r_pipelines r !! pid with
  | Some pl =>
      match pl_phase pl with
      | PAwait =>
          let sid := pl_session_id pl in
          let r1 := if decide (pl_event_count pl = 0%Z) then enqueue pid no_output_error r else r in
          let r2 := set_registry (remove_session sid (r_registry r1)) r1 in
          let r3 := match r_sessions r2 !! sid with
                    | Some _ => set_relay_db (update_session_status now sid SessIdle (r_db r2))
                                  (set_relay_sessions (delete sid (r_sessions r2)) r2)
                    | None => r2
                    end in
          put_pipeline pid (set_phase PDone pl) r3
      | _ => r
      end
  | None => r
  end.

(** The task of the event forwarder takes the next event of its queue. *)
Definition forward_step (pid : string) (r : Relay) : Relay :=
  match r_queues r !! pid, r_pipelines r !! pid with
  | Some (e :: rest), Some pl =>
      set_mux (forward_event (pl_session_id pl) e (r_mux r)) (set_queues (<[pid := rest]> (r_queues r)) r)
  | _, _ => r
  end.

End Relay.
