(* ===== verification/EventCodec.v ===== *)
(** A concrete codec for events.

    The protocol's own encoding is generated code outside the tree, of which
    the development uses that decoding inverts encoding ([ProtoMessage]).  This
    file builds an encoding with that property, on which theorems about
    replay are evaluated. *)
From stdpp Require Import gmap strings list countable.
From Stdlib Require Import ZArith SpecFloat Lia.
From S2P Require Import Prelude Multiplexer EventBridge Encodings SessionRelay.

#[export] Instance spec_float_eq_dec : EqDecision spec_float.
Proof. solve_decision. Defined.

Definition float_code (f : spec_float) : (bool + bool) + (unit + bool * positive * Z) :=
  match f with
  | S754_zero s => inl (inl s)
  | S754_infinity s => inl (inr s)
  | S754_nan => inr (inl tt)
  | S754_finite s m e => inr (inr (s, m, e))
  end.

Definition code_float (c : (bool + bool) + (unit + bool * positive * Z)) : spec_float :=
  match c with
  | inl (inl s) => S754_zero s
  | inl (inr s) => S754_infinity s
  | inr (inl _) => S754_nan
  | inr (inr (s, m, e)) => S754_finite s m e
  end.

#[export] Instance spec_float_countable : Countable spec_float.
Proof. apply (inj_countable' float_code code_float). by intros []. Defined.

(** * Trees *)

Definition Leaf : Type := (Z + string) + (bool + spec_float).
Notation Tree := (gen_tree Leaf).

Definition tz (z : Z) : Tree := GenLeaf (inl (inl z)).
Definition tstr (s : string) : Tree := GenLeaf (inl (inr s)).
Definition tb (b : bool) : Tree := GenLeaf (inr (inl b)).
Definition tf (f : spec_float) : Tree := GenLeaf (inr (inr f)).

Definition uz (t : Tree) : Z := match t with GenLeaf (inl (inl z)) => z | _ => 0%Z end.
Definition ustr (t : Tree) : string := match t with GenLeaf (inl (inr s)) => s | _ => EmptyString end.
Definition ub (t : Tree) : bool := match t with GenLeaf (inr (inl b)) => b | _ => false end.
Definition uf (t : Tree) : spec_float := match t with GenLeaf (inr (inr f)) => f | _ => S754_nan end.

Fixpoint tvalue (v : ProstValue) : Tree :=
  match v with
  | PNull => GenNode 0 []
  | PNumber f => GenNode 1 [tf f]
  | PString s => GenNode 2 [tstr s]
  | PBool b => GenNode 3 [tb b]
  | PStruct fs => GenNode 4 (List.map (λ kv, match kv with (k, v) => GenNode 0 [tstr k; tvalue v] end) fs)
  | PList l => GenNode 5 (List.map tvalue l)
  end.

Fixpoint uvalue (t : Tree) : ProstValue :=
  match t with
  | GenNode 1 [x] => PNumber (uf x)
  | GenNode 2 [x] => PString (ustr x)
  | GenNode 3 [x] => PBool (ub x)
  | GenNode 4 l => PStruct (List.map (λ t, match t with GenNode 0 [k; v] => (ustr k, uvalue v) | _ => (EmptyString, PNull) end) l)
  | GenNode 5 l => PList (List.map uvalue l)
  | _ => PNull
  end.

Lemma uvalue_tvalue (v : ProstValue) : uvalue (tvalue v) = v.
Proof.
  revert v. fix IH 1. intros [|f|s|b|fs|l]; try reflexivity; simpl; f_equal.
  - induction fs as [|[k v] fs IHfs]; [reflexivity|]. simpl. rewrite (IH v), IHfs. reflexivity.
  - induction l as [|v l IHl]; [reflexivity|]. simpl. rewrite (IH v), IHl. reflexivity.
Qed.

Definition toption {A : Type} (f : A → Tree) (o : option A) : Tree :=
  match o with Some a => GenNode 1 [f a] | None => GenNode 0 [] end.
Definition uoption {A : Type} (g : Tree → A) (t : Tree) : option A :=
  match t with GenNode 1 [x] => Some (g x) | _ => None end.

Lemma uoption_toption {A : Type} (f : A → Tree) (g : Tree → A) (o : option A) :
  (∀ a, g (f a) = a) → uoption g (toption f o) = o.
Proof. intros H. destruct o; simpl; [by rewrite H|done]. Qed.

Definition tfields (fs : list (string * ProstValue)) : Tree := tvalue (PStruct fs).
Definition ufields (t : Tree) : list (string * ProstValue) := match uvalue t with PStruct fs => fs | _ => [] end.

Lemma ufields_tfields (fs : list (string * ProstValue)) : ufields (tfields fs) = fs.
Proof. unfold ufields, tfields. by rewrite uvalue_tvalue. Qed.

Definition tquestion (q : QuestionOption) : Tree := GenNode 0 [tstr (qo_value q); tstr (qo_label q); tstr (qo_description q)].
Definition uquestion (t : Tree) : QuestionOption :=
  match t with GenNode 0 [a; b; c] => mkQuestionOption (ustr a) (ustr b) (ustr c) | _ => mkQuestionOption "" "" "" end.

Definition tstatus (s : AgentStatus) : bool := match s with StatusThinking => true | StatusIdle => false end.
Definition ustatus (b : bool) : AgentStatus := if b then StatusThinking else StatusIdle.

Lemma ulist_tlist (l : list Z) : uz <$> (tz <$> l) = l.
Proof. rewrite <- list_fmap_compose. apply list_fmap_id. Qed.

Definition tevent (e : Event) : Tree :=
  match e with
  | EvTextDelta t c => GenNode 0 [tstr t; tb c]
  | EvToolCallStart i n inp d => GenNode 1 [tstr i; tstr n; toption tfields inp; tstr d]
  | EvToolCallResult i o e d => GenNode 2 [tstr i; tstr o; tb e; tz d]
  | EvPermissionRequest i n d inp => GenNode 3 [tstr i; tstr n; tstr d; toption tfields inp]
  | EvUserQuestion i q os m => GenNode 4 [tstr i; tstr q; GenNode 0 (tquestion <$> os); tb m]
  | EvStatusChange s m => GenNode 5 [tb (tstatus s); tstr m]
  | EvSessionInfo (mkSessionInfo a b c d e f g h) => GenNode 6 [tstr a; tstr b; tstr c; tstr d; tz e; tb f; tb g; tf h]
  | EvUsage (mkUsageReport a b c d e f g) => GenNode 7 [tz a; tz b; tz c; tz d; tstr e; tf f; tz g]
  | EvTurnComplete s => GenNode 8 [tstr s]
  | EvError (mkErrorEvent a b c) => GenNode 9 [tstr a; tstr b; tb c]
  | EvUserInput c => GenNode 10 [tstr c]
  | EvTodoUpdate => GenNode 11 []
  | EvPlanMode => GenNode 12 []
  | EvEncrypted c n => GenNode 13 [GenNode 0 (tz <$> c); GenNode 0 (tz <$> n)]
  end.

Definition uevent (t : Tree) : Event :=
  match t with
  | GenNode 0 [t; c] => EvTextDelta (ustr t) (ub c)
  | GenNode 1 [i; n; inp; d] => EvToolCallStart (ustr i) (ustr n) (uoption ufields inp) (ustr d)
  | GenNode 2 [i; o; e; d] => EvToolCallResult (ustr i) (ustr o) (ub e) (uz d)
  | GenNode 3 [i; n; d; inp] => EvPermissionRequest (ustr i) (ustr n) (ustr d) (uoption ufields inp)
  | GenNode 4 [i; q; GenNode 0 os; m] => EvUserQuestion (ustr i) (ustr q) (uquestion <$> os) (ub m)
  | GenNode 5 [s; m] => EvStatusChange (ustatus (ub s)) (ustr m)
  | GenNode 6 [a; b; c; d; e; f; g; h] =>
      EvSessionInfo (mkSessionInfo (ustr a) (ustr b) (ustr c) (ustr d) (uz e) (ub f) (ub g) (uf h))
  | GenNode 7 [a; b; c; d; e; f; g] => EvUsage (mkUsageReport (uz a) (uz b) (uz c) (uz d) (ustr e) (uf f) (uz g))
  | GenNode 8 [s] => EvTurnComplete (ustr s)
  | GenNode 9 [a; b; c] => EvError (mkErrorEvent (ustr a) (ustr b) (ub c))
  | GenNode 10 [c] => EvUserInput (ustr c)
  | GenNode 11 [] => EvTodoUpdate
  | GenNode 12 [] => EvPlanMode
  | GenNode 13 [GenNode 0 c; GenNode 0 n] => EvEncrypted (uz <$> c) (uz <$> n)
  | _ => EvPlanMode
  end.

Lemma uevent_tevent (e : Event) : uevent (tevent e) = e.
Proof.
  destruct e as [| | | |i q os m|[] m|[]|[]| |[]| | | |]; simpl;
    rewrite ?(uoption_toption _ _ _ ufields_tfields); try reflexivity.
  - f_equal. rewrite <- list_fmap_compose. rewrite <- (list_fmap_id os) at 2. apply list_fmap_ext. by intros ? [] _.
  - by rewrite !ulist_tlist.
Qed.

Definition tbody (e : AgentEvent EventBody) : Tree :=
  match e with
  | mkEvent n (mkBody ts p ev) =>
      GenNode 0 [tz n; toption (λ t : Timestamp, GenNode 0 [tz t.1; tz t.2]) ts; tstr p; toption tevent ev]
  end.

Definition ubody (t : Tree) : AgentEvent EventBody :=
  match t with
  | GenNode 0 [n; ts; p; ev] =>
      mkEvent (uz n) (mkBody (uoption (λ t, match t with GenNode 0 [a; b] => (uz a, uz b) | _ => (0, 0)%Z end) ts)
                        (ustr p) (uoption uevent ev))
  | _ => mkEvent 0 (mkBody None EmptyString None)
  end.

Lemma ubody_tbody (e : AgentEvent EventBody) : ubody (tbody e) = e.
Proof.
  destruct e as [n [ts p ev]]. simpl. rewrite (uoption_toption tevent uevent) by apply uevent_tevent.
  rewrite uoption_toption; [done|]. by intros [].
Qed.

#[export] Instance event_eq_dec : EqDecision (AgentEvent EventBody).
Proof.
  intros e1 e2. destruct (decide (tbody e1 = tbody e2)) as [H|H].
  - left. rewrite <- (ubody_tbody e1), <- (ubody_tbody e2). by rewrite H.
  - right. by intros ->.
Defined.

#[export] Instance event_countable : Countable (AgentEvent EventBody) := inj_countable' tbody ubody ubody_tbody.

#[export] Instance tree_codec : ProstCodec := countable_message (AgentEvent EventBody).
