(* ===== verification/AgentService.v ===== *)
(** The agent service: conversations and the calls around them.

    Models crates/betcode-daemon/src/server/handler.rs and agent.rs, and the
    session summary of storage/models.rs, on [SessionRelay].  A conversation is
    the stream of one client; its requests are handled one at a time, each in
    one step.  The numbers of the protocol's enumeration of decisions are not
    part of the tree: a decision is [None] when its number is none of them. *)
From stdpp Require Import gmap strings list pretty.
From Stdlib Require Import ZArith SpecFloat Lia.
From S2P Require Import Prelude Protocol Json Ndjson Commands Multiplexer EventBridge SessionStore Encodings SessionRelay.
From S2P Require Import EventCodec.

(** * Messages of errors *)

Definition subprocess_error_text (e : SubprocessError) : string :=
  match e with
  | PoolExhausted current max => "Subprocess pool exhausted (" +:+ pretty current +:+ "/" +:+ pretty max +:+ ")"
  | SpawnFailed reason => "Failed to spawn subprocess: " +:+ reason
  | ProcessNotFound id => "Process not found: " +:+ id
  | ProcessExited id => "Process already exited: " +:+ id
  end.

Definition relay_error_text (e : RelayError) : string :=
  match e with
  | SubprocessFailed e => "Subprocess error: " +:+ subprocess_error_text e
  | SessionNotFound sid => "Session not found: " +:+ sid
  | StdinClosed sid => "Subprocess stdin closed for session: " +:+ sid
  end.

Definition multiplexer_error_text (e : MultiplexerError) : string :=
  match e with
  | Multiplexer.SessionNotFound sid => "Session not found: " +:+ sid
  | TooManyClients sid max => "Too many clients for session " +:+ sid +:+ " (max: " +:+ pretty max +:+ ")"
  | ClientAlreadyConnected cid => "Client already connected: " +:+ cid
  | ClientNotConnected cid => "Client not connected: " +:+ cid
  end.

(** * Conversations (handler.rs) *)

Record StartConversation := mkStart {
  start_session_id : string;
  start_model : string;
  start_working_directory : string;
  start_worktree_id : string
}.

Inductive Request :=
| ReqStart (start : StartConversation)
| ReqMessage (content agent_id : string)
| ReqPermission (request_id : string) (decision : option PermissionDecision) (updated_input : option (list (string * ProstValue)))
    (message : string)
| ReqQuestionResponse (question_id : string) (answers : list (string * string))
| ReqCancel (reason : string)
| ReqEncrypted (ciphertext nonce : list Z)
| ReqEmpty.

Record Converse := mkConverse {
  cv_session_id : option string;
  cv_pending_config : option RelaySessionConfig
}.

(** What the world answers during one call. *)
Record Env := mkEnv {
  e_now : Z;                                  (** seconds, for the database *)
  e_instant : Z;                              (** for the multiplexer *)
  e_os : SpawnOs;
  e_uuid : string;
  e_plugins : string → list CommandEntry
}.

Section Service.
Context {DT : DebugText} {JT : JsonText} {JW : JsonWrite} {PC : ProstCodec} {ST : SqlText}.
Context {HI : HashIter} {SO : SqlOrder}.
Context (clock : Z → Timestamp).

(** The outcome of a relay call, with errors as text. *)
Definition relay_result {A : Type} (x : Relay * result RelayError A) : Relay * result string unit :=
  (x.1, match x.2 with Ok _ => Ok tt | Err e => Err (relay_error_text e) end).

Definition handle_permission (sid request_id : string) (decision : option PermissionDecision) (r : Relay)
  : Relay * result string unit :=
  let d := default Deny decision in
  let '(r1, (granted, original_input)) :=
    match get_handle sid r with
    | Some h =>
        match r_cells r !! rh_process_id h with
        | Some c => let '(c', answer) := process_permission_response request_id d c in
                    (set_cells (<[rh_process_id h := c']> (r_cells r)) r, answer)
        | None => (r, (is_granted d, JObj []))
        end
    | None => (r, (is_granted d, JObj []))
    end in
  relay_result (send_permission_response sid request_id granted original_input r1).

Definition handle_question (sid question_id : string) (answers : list (string * string)) (r : Relay)
  : Relay * result string unit :=
  let '(r1, original_input) :=
    match get_handle sid r with
    | Some h =>
        (update_cells (rh_process_id h) (λ c, set_questions (delete question_id (c_questions c)) c) r,
         default (JObj []) ((r_cells r !! rh_process_id h) ≫= (λ c, c_questions c !! question_id)))
    | None => (r, JObj [])
    end in
  relay_result (send_question_response sid question_id answers original_input r1).

Definition handle_start (env : Env) (client_id : string) (start : StartConversation) (cv : Converse) (r : Relay)
  : Converse * Relay * result string unit :=
  let sid := if decide (start_session_id start = EmptyString) then e_uuid env else start_session_id start in
  let model_for_cli := if decide (start_model start = EmptyString) then None else Some (start_model start) in
  let created :=
    match get_session sid (r_db r) with
    | Ok existing =>
        Ok (r_db r, match s_claude_session_id existing with
                    | Some c => if decide (c = EmptyString) then None else Some c
                    | None => None
                    end)
    | Err _ =>
        match create_session (e_now env) sid (default "default" model_for_cli) (start_working_directory start) (r_db r) with
        | (d, Ok _) => Ok (d, None)
        | (_, Err e) => Err (database_error_text e)
        end
    end in
  match created with
  | Err e => (cv, r, Err e)
  | Ok (d, resume_session) =>
      let r1 := set_relay_db (update_session_status (e_now env) sid SessActive d) r in
      match subscribe (e_instant env) sid client_id "grpc" (r_mux r1) with
      | (m, Err e) => (cv, set_mux m r1, Err (multiplexer_error_text e))
      | (m, Ok _) =>
          (mkConverse (Some sid) (Some (mkRelayConfig sid (start_working_directory start) model_for_cli resume_session
                                          (start_worktree_id start))),
           set_mux m r1, Ok tt)
      end
  end.

(** The first message starts the process with the message as its prompt. *)
Definition handle_message (env : Env) (sid content agent_id : string) (cv : Converse) (r : Relay)
  : Converse * Relay * result string unit :=
  match cv_pending_config cv with
  | Some cfg =>
      let '(r', res) := relay_result (start_session (e_os env) (e_uuid env) cfg (Some content) r) in
      (mkConverse (cv_session_id cv) None, r', res)
  | None =>
      let '(r', res) := relay_result (send_user_message clock (e_now env) sid content
                          (if decide (agent_id = EmptyString) then None else Some agent_id) r) in
      (cv, r', res)
  end.

Definition handle_agent_request (env : Env) (client_id : string) (req : Request) (cv : Converse) (r : Relay)
  : Converse * Relay * result string unit :=
  match req, cv_session_id cv with
  | ReqStart start, _ => handle_start env client_id start cv r
  | ReqMessage content agent_id, Some sid => handle_message env sid content agent_id cv r
  | ReqPermission request_id decision _ _, Some sid =>
      let '(r', res) := handle_permission sid request_id decision r in (cv, r', res)
  | ReqQuestionResponse question_id answers, Some sid =>
      let '(r', res) := handle_question sid question_id answers r in (cv, r', res)
  | ReqCancel _, Some sid =>
      let '(r', res) := relay_result (cancel_session (e_now env) sid r) in (cv, r', res)
  | _, _ => (cv, r, Ok tt)
  end.

(** * The service (agent.rs) *)

Record Service := mkService {
  sv_relay : Relay;
  sv_streams : gmap string Converse
}.

Definition set_relay (r : Relay) (s : Service) : Service := mkService r (sv_streams s).

(** The stream of a client ends: it is unsubscribed from its session. *)
Definition converse_end (client_id : string) (s : Service) : Service :=
  match sv_streams s !! client_id with
  | None => s
  | Some cv =>
      let r := match cv_session_id cv with
               | Some sid => set_mux (unsubscribe sid client_id (r_mux (sv_relay s))) (sv_relay s)
               | None => sv_relay s
               end in
      mkService r (delete client_id (sv_streams s))
  end.

Definition converse_begin (client_id : string) (s : Service) : Service :=
  mkService (sv_relay s) (<[client_id := mkConverse None None]> (sv_streams s)).

(** A request that fails ends the stream. *)
Definition converse_request (env : Env) (client_id : string) (req : Request) (s : Service)
  : Service * result Status unit :=
  match sv_streams s !! client_id with
  | None => (s, Ok tt)
  | Some cv =>
      match handle_agent_request env client_id req cv (sv_relay s) with
      | (cv', r', Ok _) => (mkService r' (<[client_id := cv']> (sv_streams s)), Ok tt)
      | (cv', r', Err e) =>
          (converse_end client_id (mkService r' (<[client_id := cv']> (sv_streams s))), Err (mkStatus Internal e))
      end
  end.

Record SessionSummary := mkSummary {
  sum_id : string;
  sum_model : string;
  sum_working_directory : string;
  sum_worktree_id : string;
  sum_status : string;
  sum_message_count : Z;
  sum_total_input_tokens : Z;
  sum_total_output_tokens : Z;
  sum_total_cost_usd : spec_float;
  sum_created_at : Timestamp;
  sum_updated_at : Timestamp;
  sum_last_message_preview : string;
  sum_name : string
}.

Definition session_summary (s : Session) : SessionSummary :=
  mkSummary (s_id s) (s_model s) (s_working_directory s) (default EmptyString (s_worktree_id s)) (s_status s) 0
    (wrap_u32 (s_total_input_tokens s)) (wrap_u32 (s_total_output_tokens s)) (s_total_cost_usd s)
    (s_created_at s, 0%Z) (s_updated_at s, 0%Z) (default EmptyString (s_last_message_preview s)) (s_name s).

Definition svc_list_sessions (working_directory : string) (limit offset : nat) (s : Service) : list SessionSummary * Z :=
  let wd := if decide (working_directory = EmptyString) then None else Some working_directory in
  let summaries := session_summary <$> list_sessions wd (if decide (limit = 0) then 50 else limit) offset (r_db (sv_relay s)) in
  (summaries, wrap_u32 (Z.of_nat (length summaries))).

Definition decode_error_event (message : string) : AgentEvent EventBody :=
  mkEvent 0 (mkBody None EmptyString (Some (EvError (mkErrorEvent "DECODE_ERROR" ("Decode error: " +:+ message) false)))).

(** What a stored message becomes when it is replayed. *)
Definition replay_message (m : MessageRow) : option (AgentEvent EventBody) :=
  match base64_decode (msg_payload m) with
  | Err _ => None
  | Ok bytes => match decode_event bytes with
                | Ok event => Some event
                | Err e => Some (decode_error_event e)
                end
  end.

Definition svc_resume_session (session_id : string) (from_sequence : Z) (s : Service) : list (AgentEvent EventBody) :=
  omap replay_message (get_messages_from_sequence session_id (i64_of_u64 from_sequence) (r_db (sv_relay s))).

Record CompactResponse := mkCompact {
  messages_before : Z;
  messages_after : Z;
  tokens_saved : Z
}.

Definition svc_compact_session (env : Env) (session_id : string) (s : Service) : Service * CompactResponse :=
  let d := r_db (sv_relay s) in
  let before := wrap_u32 (count_messages session_id d) in
  if decide (before = 0%Z) then (s, mkCompact 0 0 0)
  else
    let keep_count := Z.min (Z.max (before / 2) 10) before in
    let cutoff := (max_message_sequence session_id d - keep_count)%Z in
    if (cutoff <=? 0)%Z then (s, mkCompact before before 0)
    else
      let '(d1, deleted) := delete_messages_before_sequence session_id cutoff d in
      let d2 := update_compaction_sequence (e_now env) session_id cutoff d1 in
      (set_relay (set_relay_db d2 (sv_relay s)) s,
       mkCompact before (wrap_u32 (before - wrap_u32 deleted)) (wrap_u32 (wrap_u32 deleted * 100))).

Definition svc_cancel_turn (env : Env) (session_id : string) (s : Service) : Service * bool :=
  let '(r, res) := cancel_session (e_now env) session_id (sv_relay s) in
  (set_relay r s, match res with Ok b => b | Err _ => false end).

Definition svc_request_input_lock (env : Env) (client_header : option string) (session_id : string) (s : Service)
  : Service * (bool * string) :=
  let client_id := default ("unary-" +:+ e_uuid env) client_header in
  let '(d, previous) := acquire_input_lock (e_now env) session_id client_id (r_db (sv_relay s)) in
  (set_relay (set_relay_db d (sv_relay s)) s, (true, default EmptyString previous)).

Definition svc_exchange_keys : result Status unit :=
  Err (mkStatus Unimplemented "ExchangeKeys is only supported over tunnel connections").

Definition require_session_handle (session_id : string) (s : Service) : result Status RelayHandle :=
  match get_handle session_id (sv_relay s) with
  | Some h => Ok h
  | None => Err (mkStatus CodeNotFound ("Session " +:+ session_id +:+ " not active"))
  end.

Definition svc_list_session_grants (session_id : string) (s : Service) : result Status (list (string * bool)) :=
  let? h := require_session_handle session_id s in
  Ok (default [] (list_grants <$> r_cells (sv_relay s) !! rh_process_id h)).

(** A call that changes the cells of an active session. *)
Definition change_cells (session_id : string) (f : Cells → Cells) (s : Service) : Service * result Status unit :=
  match require_session_handle session_id s with
  | Err e => (s, Err e)
  | Ok h => (set_relay (update_cells (rh_process_id h) f (sv_relay s)) s, Ok tt)
  end.

Definition svc_clear_session_grants (session_id tool_name : string) (s : Service) : Service * result Status unit :=
  change_cells session_id (clear_grants tool_name) s.

Definition svc_set_session_grant (session_id tool_name : string) (granted : bool) (s : Service)
  : Service * result Status unit :=
  if decide (tool_name = EmptyString) then (s, Err (mkStatus InvalidArgument "tool_name must not be empty"))
  else change_cells session_id (set_grant tool_name granted) s.

Definition svc_rename_session (env : Env) (session_id name : string) (s : Service) : Service * result Status unit :=
  match update_session_name (e_now env) session_id name (r_db (sv_relay s)) with
  | (d, Ok _) => (set_relay (set_relay_db d (sv_relay s)) s, Ok tt)
  | (_, Err (NotFound w)) => (s, Err (mkStatus CodeNotFound (database_error_text (NotFound w))))
  | (_, Err e) => (s, Err (mkStatus Internal (database_error_text e)))
  end.

Definition svc_delete_session (env : Env) (session_id : string) (s : Service) : Service * result Status bool :=
  if decide (session_id = EmptyString) then (s, Err (mkStatus InvalidArgument "session_id must not be empty"))
  else
    let r := (cancel_session (e_now env) session_id (sv_relay s)).1 in
    let '(d, deleted) := delete_session session_id (r_db r) in
    (set_relay (set_relay_db d r) s, Ok deleted).

(** * Executions *)

Inductive Op :=
| OBegin (client_id : string)
| ORequest (client_id : string) (req : Request)
| OEnd (client_id : string)
| OLine (pid line : string)
| OPipeline (pid : string)
| OClose (pid : string)
| OForward (pid : string)
| OStdinClosed (pid : string)
| OCompact (session_id : string)
| OCancel (session_id : string)
| OLock (client_header : option string) (session_id : string)
| OClearGrants (session_id tool_name : string)
| OSetGrant (session_id tool_name : string) (granted : bool)
| ORename (session_id name : string)
| ODelete (session_id : string).

Definition step (env : Env) (op : Op) (s : Service) : Service :=
  match op with
  | OBegin cid => converse_begin cid s
  | ORequest cid req => (converse_request env cid req s).1
  | OEnd cid => converse_end cid s
  | OLine pid line => set_relay (pipeline_line clock (e_plugins env) pid line (sv_relay s)) s
  | OPipeline pid => set_relay (pipeline_step (e_now env) pid (sv_relay s)) s
  | OClose pid => set_relay (pipeline_close clock (e_now env) pid (sv_relay s)) s
  | OForward pid => set_relay (forward_step pid (sv_relay s)) s
  | OStdinClosed pid => set_relay (set_subprocesses (stdin_closed pid (r_subprocesses (sv_relay s))) (sv_relay s)) s
  | OCompact sid => (svc_compact_session env sid s).1
  | OCancel sid => (svc_cancel_turn env sid s).1
  | OLock header sid => (svc_request_input_lock env header sid s).1
  | OClearGrants sid tool => (svc_clear_session_grants sid tool s).1
  | OSetGrant sid tool granted => (svc_set_session_grant sid tool granted s).1
  | ORename sid name => (svc_rename_session env sid name s).1
  | ODelete sid => (svc_delete_session env sid s).1
  end.

Definition run (trace : list (Env * Op)) (s : Service) : Service := foldl (λ s call, step call.1 call.2 s) s trace.

End Service.

(** * Concrete instances

    A printer for values, a reader for a few lines of an agent, and a machine
    on which everything works. *)

Fixpoint print_json (v : Json) : string :=
  match v with
  | JNull => "null"
  | JBool b => if b then "true" else "false"
  | JInt z => pretty z
  | JFloat _ => "0.0"
  | JStr s => "'" +:+ s +:+ "'"
  | JArr l => "[" +:+ join "," (List.map print_json l) +:+ "]"
  | JObj es => "{" +:+ join "," (List.map (λ kv, match kv with (k, v) => k +:+ ":" +:+ print_json v end) es) +:+ "}"
  end.

#[export] Instance demo_write : JsonWrite := {| json_to_string := print_json |}.
#[export] Instance demo_debug : DebugText := {| debug_string s := s |}.
#[export] Instance demo_sql : SqlText := {| sql_failure_text _ := "constraint failed" |}.

Definition demo_lines (line : string) : option Json :=
  if decide (line = "init") then Some (JObj [("model", JStr "m"); ("session_id", JStr "claude-1"); ("type", JStr "system")])
  else if decide (line = "start") then
    Some (JObj [("event", JObj [("type", JStr "message_start")]); ("type", JStr "stream_event")])
  else if decide (line = "stop") then
    Some (JObj [("event", JObj [("type", JStr "message_stop")]); ("type", JStr "stream_event")])
  else if decide (line = "bash") then Some demo_control
  else None.

#[export] Instance demo_json : JsonText := {| json_parse := demo_lines; json_strings l := join "," l |}.

Definition demo_clock (n : Z) : Timestamp := (n, 0%Z).

Definition demo_os : SpawnOs := mkSpawnOs (λ _, true) (Some "/home/u") "/tmp" None.

Definition demo_env (uuid : string) : Env := mkEnv 100 100 demo_os uuid (λ _, []).

Definition demo_service (max : nat) : Service := mkService (relay_new max default_mux_config empty_db) ∅.

(** A client opens session "s" and sends its first message. *)
Definition demo_open (client pid : string) : list (Env * Op) :=
  [(demo_env pid, OBegin client); (demo_env pid, ORequest client (ReqStart (mkStart "s" "" "/w" "")));
   (demo_env pid, ORequest client (ReqMessage "hello" ""))].

Definition demo_started : Service := run demo_clock (demo_open "alice" "p1") (demo_service 2).
