(* ===== verification/SessionHistory.v ===== *)
(** The history of a session.

    While user messages arrive between the agent's messages, the stored
    history of a session is an append-only log of everything that happened
    since its process was started, numbered without gaps, and replay returns
    it; the prompt of the start is not in it.  A user message that arrives
    while a message is being processed takes a number that an event already
    has: one of the two is missing from the history. *)
From stdpp Require Import gmap strings list sorting.
From Stdlib Require Import ZArith SpecFloat Lia.
From S2P Require Import Prelude Protocol Json Ndjson Commands Multiplexer EventBridge SessionStore Encodings SessionRelay.
From S2P Require Import EventCodec AgentService.

(** * The log that a database holds *)

Section History.
Context {DT : DebugText} {JT : JsonText} {JW : JsonWrite} {PC : ProstCodec} {SO : SqlOrder}.
Context (clock : Z → Timestamp).

(** What a client that resumes a session from the start is sent. *)
Definition history (sid : string) (d : DaemonDb) : list (AgentEvent EventBody) :=
  omap replay_message (get_messages_from_sequence sid 0 d).

(** The database holds the log of a session, whose last number is [n]. *)
Record logged (sid : string) (n : Z) (log : list (AgentEvent EventBody)) (d : DaemonDb) : Prop := {
  lg_keyed : messages_keyed d;
  lg_session : is_Some (db_sessions d !! sid);
  lg_range : ∀ k m, db_messages d !! (sid, k) = Some m → (0 < k ≤ n)%Z;
  lg_log : history sid d = log
}.

Lemma message_type_legal (e : AgentEvent EventBody) : event_message_type e ∈ message_types.
Proof.
  unfold event_message_type. apply (bool_decide_unpack _).
  destruct (eb_event (ev_payload e)) as [[]|]; reflexivity.
Qed.

Lemma replay_stored (id : Z) (sid : string) (n : Z) (ty : string) (e : AgentEvent EventBody) (t : Z) :
  replay_message (mkMessageRow id sid n ty (base64_encode (encode_event e)) t) = Some e.
Proof.
  unfold replay_message. simpl. rewrite base64_decode_encode by apply encode_event_bytes. by rewrite decode_encode_event.
Qed.

Lemma store_logged (now : Z) (sid : string) (n : Z) (log : list (AgentEvent EventBody)) (e : AgentEvent EventBody) (d : DaemonDb) :
  logged sid n log d → (0 ≤ n)%Z → (n + 1 < 2 ^ 63)%Z → ev_sequence e = (n + 1)%Z →
  logged sid (n + 1) (log ++ [e]) (store_event now sid e d).1.
Proof.
  intros [Hk Hs Hr Hl] H0 Hn He. unfold store_event.
  assert (i64_of_u64 (ev_sequence e) = (n + 1)%Z) as ->.
  { unfold i64_of_u64. rewrite He. destruct (Z.ltb_spec (n + 1) (2 ^ 63)); lia. }
  destruct (insert_message_appends now sid (n + 1) 0 (event_message_type e) (base64_encode (encode_event e)) d)
    as (H1 & H2 & _ & H3 & H4); try done.
  - apply message_type_legal.
  - intros k m Hm. apply Hr in Hm. lia.
  - lia.
  - split; [done|by rewrite H3| |].
    + intros k m Hm. apply H4 in Hm as [Hm|[= ->]]; [apply Hr in Hm|]; lia.
    + unfold history. rewrite H1, omap_app. unfold history in Hl. rewrite Hl. simpl. by rewrite replay_stored.
Qed.

(** Changes to the rows of sessions leave the log alone. *)
Lemma logged_update (sid sid' : string) (f : Session → Session) (n : Z) (log : list (AgentEvent EventBody)) (d : DaemonDb) :
  logged sid n log d → logged sid n log (update_session sid' f d).
Proof.
  intros [Hk Hs Hr Hl]. split; [exact Hk| |exact Hr|exact Hl].
  unfold update_session, set_sessions. simpl. by rewrite lookup_alter_is_Some.
Qed.

Lemma logged_usage (now : Z) (sid sid' : string) (e : AgentEvent EventBody) (n : Z) (log : list (AgentEvent EventBody)) (d : DaemonDb) :
  logged sid n log d → logged sid n log (record_usage now sid' e d).
Proof. intros H. unfold record_usage. repeat case_match; try done. by apply logged_update. Qed.

(** * A session between two messages *)

Record following (sid pid dir : string) (n : Z) (log : list (AgentEvent EventBody)) (r : Relay) : Prop := {
  fo_handle : r_sessions r !! sid = Some (mkRelayHandle pid sid);
  fo_pipeline : ∃ pl, r_pipelines r !! pid = Some pl ∧ pl_session_id pl = sid ∧ pl_working_directory pl = dir ∧
                  pl_phase pl = PAwait ∧ (br_sequence (pl_bridge pl) ≤ n)%Z;
  fo_counter : sequence_counter <$> r_cells r !! pid = Some n;
  fo_range : (0 ≤ n)%Z;
  fo_log : logged sid n log (r_db r)
}.

(** The steps the task takes on its own. *)
Definition phase_steps (p : Phase) : nat :=
  match p with
  | PTransfer todo all _ => S (length todo) + S (length all)
  | PEmit todo _ => S (length todo)
  | PAwait | PDone => 0
  end.

Definition drain (now : Z) (pid : string) (r : Relay) : Relay :=
  match r_pipelines r !! pid with
  | Some pl => Nat.iter (phase_steps (pl_phase pl)) (pipeline_step now pid) r
  | None => r
  end.

Inductive Turn :=
| TUser (now : Z) (content : string) (agent_id : option string)
| TLine (now : Z) (plugins : string → list CommandEntry) (line : string).

Definition turn (sid pid : string) (r : Relay) (t : Turn) : Relay :=
  match t with
  | TUser now content agent_id => (send_user_message clock now sid content agent_id r).1
  | TLine now plugins line => drain now pid (pipeline_line clock plugins pid line r)
  end.

(** The specification: what a turn adds to a log that ends with number [n]. *)
Definition turn_log (dir : string) (n : Z) (t : Turn) : list (AgentEvent EventBody) :=
  match t with
  | TUser _ content _ => [user_input_event clock (n + 1) content]
  | TLine _ _ line =>
      match parse_line line with
      | Ok (MsgSystemInit init) => inject_directory dir <$> number clock n (events_of (MsgSystemInit init))
      | Ok msg => number clock n (events_of msg)
      | Err _ => []
      end
  end.

Fixpoint turns_log (dir : string) (n : Z) (ts : list Turn) : list (AgentEvent EventBody) :=
  match ts with
  | [] => []
  | t :: rest => turn_log dir n t ++ turns_log dir (n + Z.of_nat (length (turn_log dir n t))) rest
  end.

(** * One message *)

(** The first loop touches neither the database nor the numbering. *)
Record same_session (pid : string) (r r' : Relay) : Prop := {
  ss_db : r_db r' = r_db r;
  ss_sessions : r_sessions r' = r_sessions r;
  ss_counter : sequence_counter <$> r_cells r' !! pid = sequence_counter <$> r_cells r !! pid;
  ss_pipelines : r_pipelines r' = r_pipelines r;
  ss_queues : r_queues r' = r_queues r
}.

Lemma same_session_refl (pid : string) (r : Relay) : same_session pid r r.
Proof. by split. Qed.

Lemma same_session_update (pid : string) (f : Cells → Cells) (r : Relay) :
  (∀ c, sequence_counter (f c) = sequence_counter c) → same_session pid r (update_cells pid f r).
Proof.
  intros Hf. split; try done. simpl. rewrite lookup_alter_eq. destruct (r_cells r !! pid); simpl; [|done]. by rewrite Hf.
Qed.

Lemma same_session_stdin (pid pid' sid line : string) (r : Relay) : same_session pid r (relay_stdin pid' sid line r).1.
Proof. unfold relay_stdin. destruct (stdin_send _ _ _). by split. Qed.

Definition same_bridge (b b' : EventBridge) : Prop :=
  br_sequence b' = br_sequence b ∧ session_info b' = session_info b.

Lemma transfer_event_same (pid : string) (e : AgentEvent EventBody) (pl : Pipeline) (auto : gset string) (r : Relay) :
  let '(r', b, _) := transfer_event pid e pl auto r in
  same_session pid r r' ∧ same_bridge (pl_bridge pl) b.
Proof.
  unfold transfer_event. destruct (eb_event (ev_payload e)) as [[]|]; try (split; [apply same_session_refl|by split]).
  - simpl. destruct (_ !! request_id); [|split; [apply same_session_refl|by split]].
    destruct (_ ≫= _); (split; [|by split]); [apply same_session_stdin|by apply same_session_update].
  - simpl. split; [|by split]. destruct (_ !! question_id); [|apply same_session_refl]. by apply same_session_update.
Qed.

(** A task with the parts that a message's processing keeps. *)
Definition same_task (pl pl' : Pipeline) : Prop :=
  pl_session_id pl' = pl_session_id pl ∧ pl_working_directory pl' = pl_working_directory pl ∧
  same_bridge (pl_bridge pl) (pl_bridge pl').

Lemma put_pipeline_same (pid : string) (pl : Pipeline) (r r' : Relay) :
  same_session pid r r' →
  r_db (put_pipeline pid pl r') = r_db r ∧ r_sessions (put_pipeline pid pl r') = r_sessions r ∧
  sequence_counter <$> r_cells (put_pipeline pid pl r') !! pid = sequence_counter <$> r_cells r !! pid ∧
  r_pipelines (put_pipeline pid pl r') !! pid = Some pl ∧ r_queues (put_pipeline pid pl r') = r_queues r.
Proof. intros [? ? ? ? ?]. split_and!; try done. simpl. apply lookup_insert_eq. Qed.

Lemma transfer_loop (now : Z) (pid : string) (todo all : list (AgentEvent EventBody)) (auto : gset string) (pl : Pipeline) (r : Relay) :
  r_pipelines r !! pid = Some pl → pl_phase pl = PTransfer todo all auto →
  ∃ pl' auto',
    let r' := Nat.iter (S (length todo)) (pipeline_step now pid) r in
    r_pipelines r' !! pid = Some pl' ∧ pl_phase pl' = PEmit all auto' ∧ same_task pl pl' ∧
    r_db r' = r_db r ∧ r_sessions r' = r_sessions r ∧
    sequence_counter <$> r_cells r' !! pid = sequence_counter <$> r_cells r !! pid ∧ r_queues r' = r_queues r.
Proof.
  revert auto pl r. induction todo as [|e todo IH]; intros auto pl r Hpl Hph.
  - exists (set_phase (PEmit all auto) pl), auto. simpl. unfold pipeline_step. rewrite Hpl, Hph.
    destruct (put_pipeline_same pid (set_phase (PEmit all auto) pl) r r (same_session_refl _ _)) as (H1 & H2 & H3 & H4 & H5).
    by split_and!.
  - cbn [length]. rewrite Nat.iter_succ_r.
    assert (∃ r0 b auto', pipeline_step now pid r = put_pipeline pid (set_phase (PTransfer todo all auto') (set_bridge b pl)) r0 ∧
      same_session pid r r0 ∧ same_bridge (pl_bridge pl) b) as (r0 & b & auto' & Hst & Hss & Hb).
    { unfold pipeline_step. rewrite Hpl, Hph. pose proof (transfer_event_same pid e pl auto r) as H.
      destruct (transfer_event pid e pl auto r) as [[r0 b] auto']. destruct H. by exists r0, b, auto'. }
    destruct (put_pipeline_same pid (set_phase (PTransfer todo all auto') (set_bridge b pl)) r r0 Hss) as (H1 & H2 & H3 & H4 & H5).
    rewrite <- Hst in H1, H2, H3, H4, H5. destruct (IH auto' _ _ H4 eq_refl) as (pl' & auto'' & G1 & G2 & G3 & G4 & G5 & G6 & G7).
    exists pl', auto''. split_and!; try done; [|congruence..].
    destruct G3 as (? & ? & ? & ?), Hb. unfold same_task, same_bridge in *. simpl in *. split_and!; congruence.
Qed.

(** What clients are shown of the events: all but the permission requests that
    a remembered decision answered. *)
Definition shown_events (auto : gset string) (es : list (AgentEvent EventBody)) : list (AgentEvent EventBody) :=
  filter (λ e, auto_responded auto e = false) es.

Lemma emit_event_logged (now : Z) (pid : string) (e : AgentEvent EventBody) (auto : gset string) (pl : Pipeline) (r : Relay)
    (n : Z) (log : list (AgentEvent EventBody)) :
  logged (pl_session_id pl) n log (r_db r) → (0 ≤ n)%Z → (n + 1 < 2 ^ 63)%Z → ev_sequence e = (n + 1)%Z →
  let '(r', pl') := emit_event now pid e auto pl r in
  logged (pl_session_id pl) (n + 1) (log ++ [e]) (r_db r') ∧ r_sessions r' = r_sessions r ∧
  r_cells r' = r_cells r ∧ same_task pl pl' ∧ r_queues r' !! pid = (λ q, q ++ shown_events auto [e]) <$> r_queues r !! pid.
Proof.
  intros Hl H0 Hn He. unfold emit_event, shown_events. rewrite filter_cons, filter_nil. destruct (auto_responded auto e); simpl.
  - split_and!; try done; [by apply store_logged|]. by destruct (r_queues r !! pid) as [q|]; simpl; [rewrite app_nil_r|].
  - split_and!; try done; [by apply store_logged; [apply logged_usage|..]|]. apply lookup_alter_eq.
Qed.

(** The second loop stores the events in their order. *)
Lemma emit_loop (now : Z) (pid : string) (todo : list (AgentEvent EventBody)) (auto : gset string) (pl : Pipeline) (r : Relay)
    (n : Z) (log : list (AgentEvent EventBody)) :
  r_pipelines r !! pid = Some pl → pl_phase pl = PEmit todo auto →
  logged (pl_session_id pl) n log (r_db r) → (0 ≤ n)%Z → (n + Z.of_nat (length todo) < 2 ^ 63)%Z →
  ev_sequence <$> todo = (λ i, (n + 1 + Z.of_nat i)%Z) <$> seq 0 (length todo) →
  ∃ pl',
    let r' := Nat.iter (length todo) (pipeline_step now pid) r in
    r_pipelines r' !! pid = Some pl' ∧ pl_phase pl' = PEmit [] auto ∧ same_task pl pl' ∧
    logged (pl_session_id pl) (n + Z.of_nat (length todo)) (log ++ todo) (r_db r') ∧
    r_sessions r' = r_sessions r ∧ r_cells r' = r_cells r ∧
    r_queues r' !! pid = (λ q, q ++ shown_events auto todo) <$> r_queues r !! pid.
Proof.
  revert pl r n log. induction todo as [|e todo IH]; intros pl r n log Hpl Hph Hl H0 Hn Hseq.
  { exists pl. simpl. rewrite Z.add_0_r, app_nil_r. split_and!; try done. by destruct (r_queues r !! pid) as [q|]; simpl; [rewrite app_nil_r|]. }
  cbn [length] in *. rewrite Nat.iter_succ_r. injection Hseq as He Hseq. rewrite Z.add_0_r in He.
  pose proof (emit_event_logged now pid e auto pl r n log Hl H0 ltac:(lia) He) as Hem.
  assert (pipeline_step now pid r = let '(r', pl') := emit_event now pid e auto pl r in
            put_pipeline pid (set_phase (PEmit todo auto) pl') r') as Hst.
  { unfold pipeline_step. by rewrite Hpl, Hph. }
  destruct (emit_event now pid e auto pl r) as [r1 pl1]. destruct Hem as (Hl1 & Hs1 & Hc1 & Ht1 & Hq1). rewrite Hst.
  destruct (IH (set_phase (PEmit todo auto) pl1) (put_pipeline pid (set_phase (PEmit todo auto) pl1) r1) (n + 1)%Z (log ++ [e]))
    as (pl' & G1 & G2 & G3 & G4 & G5 & G6 & G7); simpl in *; try lia; try done.
  - apply lookup_insert_eq.
  - destruct Ht1 as (-> & _). done.
  - etrans; [exact Hseq|]. rewrite <- fmap_S_seq, <- list_fmap_compose. apply list_fmap_ext. intros i x _. simpl. lia.
  - exists pl'. destruct Ht1 as (T1 & T2 & T3 & T4), G3 as (U1 & U2 & U3 & U4).
    unfold same_task, same_bridge in *. simpl in *. rewrite T1 in G4. rewrite <- app_assoc in G4.
    split_and!; try congruence.
    2: { rewrite G7, Hq1. destruct (r_queues r !! pid) as [q|]; [|done]. simpl. unfold shown_events.
         by rewrite <- app_assoc, <- filter_app. }
    replace (n + Z.of_nat (S (length todo)))%Z with (n + 1 + Z.of_nat (length todo))%Z by lia. done.
Qed.

Lemma sync_session_keeps (now : Z) (pid : string) (pl : Pipeline) (r : Relay) (sid : string) (n : Z)
    (log : list (AgentEvent EventBody)) :
  logged sid n log (r_db r) → is_Some (r_cells r !! pid) →
  let r' := sync_session now pid pl r in
  logged sid n log (r_db r') ∧ r_sessions r' = r_sessions r ∧ r_pipelines r' = r_pipelines r ∧
  sequence_counter <$> r_cells r' !! pid = Some (br_sequence (pl_bridge pl)) ∧ r_queues r' = r_queues r.
Proof.
  intros Hl [c Hc]. unfold sync_session. simpl.
  assert (sequence_counter <$> alter (set_counter (br_sequence (pl_bridge pl))) pid (r_cells r) !! pid =
          Some (br_sequence (pl_bridge pl))) as Hcn by (rewrite lookup_alter_eq, Hc; done).
  destruct (session_info (pl_bridge pl)) as [info|]; [|by split_and!].
  destruct (pl_had_session_error pl); simpl; [split_and!; try done; by apply logged_update|].
  destruct (r_sessions r !! pl_session_id pl); simpl; split_and!; try done; by apply logged_update.
Qed.

Lemma inject_sequence (dir : string) (es : list (AgentEvent EventBody)) :
  ev_sequence <$> (inject_directory dir <$> es) = ev_sequence <$> es.
Proof.
  rewrite <- list_fmap_compose. apply list_fmap_ext. intros i e _. simpl. unfold inject_directory. by repeat case_match.
Qed.

(** What [pipeline_line] makes of a line that parses. *)
Lemma pipeline_line_starts (plugins : string → list CommandEntry) (sid pid dir : string) (n : Z)
    (log : list (AgentEvent EventBody)) (line : string) (msg : Message) (r : Relay) (now : Z) :
  following sid pid dir n log r → parse_line line = Ok msg →
  let evs := turn_log dir n (TLine now plugins line) in
  (n + Z.of_nat (length evs) < 2 ^ 63)%Z →
  ∃ pl r1,
    pipeline_line clock plugins pid line r = put_pipeline pid pl r1 ∧ pl_phase pl = PTransfer evs evs ∅ ∧
    pl_session_id pl = sid ∧ pl_working_directory pl = dir ∧
    br_sequence (pl_bridge pl) = (n + Z.of_nat (length evs))%Z ∧
    r_db r1 = r_db r ∧ r_sessions r1 = r_sessions r ∧ r_cells r1 = r_cells r ∧ r_queues r1 = r_queues r ∧
    ev_sequence <$> evs = (λ i, (n + 1 + Z.of_nat i)%Z) <$> seq 0 (length evs).
Proof.
  intros [Hh (pl & Hpl & Hsid & Hdir & Hph & Hbr) Hc H0 Hl] Hp. cbn zeta.
  unfold pipeline_line, turn_log. rewrite Hpl, Hph, Hp, Hc. change (default 0%Z (Some n)) with n. intros Hn.
  set (b := if (br_sequence (pl_bridge pl) <? n)%Z then with_start_sequence n else pl_bridge pl).
  assert (br_sequence b = n) as Hb.
  { subst b. destruct (Z.ltb_spec (br_sequence (pl_bridge pl)) n); simpl; lia. }
  destruct (convert_reference clock msg b) as [He Hs]. rewrite Hb in He, Hs.
  destruct (convert clock msg b) as [b' events]. simpl in He, Hs.
  assert ((n + Z.of_nat (length (events_of msg)) < 2 ^ 63)%Z) as Hn'.
  { revert Hn. destruct msg; rewrite ?length_fmap, ?length_number; done. }
  rewrite advance_small in Hs by lia.
  assert (ev_sequence <$> number clock n (events_of msg) = (λ i, (n + 1 + Z.of_nat i)%Z) <$> seq 0 (length (events_of msg)))
    as Hnum by (apply number_sequences; lia).
  destruct msg; subst events; try (eexists _, r; rewrite ?length_number; split_and!; done).
  rewrite length_fmap, length_number in *. rewrite inject_sequence.
  subst dir. eexists _, _. split; [reflexivity|]. split_and!; try done; by case_match.
Qed.

(** A message is processed without interruption: its events are the next
    entries of the log. *)
Lemma line_turn (sid pid dir : string) (n : Z) (log : list (AgentEvent EventBody)) (r : Relay) (now : Z)
    (plugins : string → list CommandEntry) (line : string) :
  following sid pid dir n log r →
  let evs := turn_log dir n (TLine now plugins line) in
  (n + Z.of_nat (length evs) < 2 ^ 63)%Z →
  let r' := turn sid pid r (TLine now plugins line) in
  following sid pid dir (n + Z.of_nat (length evs)) (log ++ evs) r' ∧
  ∃ auto, r_queues r' !! pid = (λ q, q ++ shown_events auto evs) <$> r_queues r !! pid.
Proof.
  intros Hf evs Hn r'. subst r'. destruct (parse_line line) as [msg|err] eqn:Hp.
  2: { assert (evs = []) as -> by (subst evs; simpl; by rewrite Hp). simpl. rewrite app_nil_r, Z.add_0_r.
       destruct Hf as [? (pl & Hpl & ? & ? & Hph & ?) ? ? ?]. assert (pipeline_line clock plugins pid line r = r) as ->.
       { unfold pipeline_line. by rewrite Hpl, Hph, Hp. }
       unfold drain. rewrite Hpl, Hph. simpl. split; [split; eauto 10|]. exists ∅. by destruct (r_queues r !! pid) as [q|]; simpl; [rewrite app_nil_r|]. }
  destruct (pipeline_line_starts plugins sid pid dir n log line msg r now Hf Hp Hn)
    as (pl & r1 & Hst & Hph & Hsid & Hdir & Hbr & D1 & D2 & D3 & D4 & Hseq). fold evs in Hph, Hbr, Hseq.
  unfold turn, drain. rewrite Hst. simpl. rewrite lookup_insert_eq, Hph. cbn [phase_steps].
  set (r2 := put_pipeline pid pl r1). rewrite Nat.iter_add.
  destruct (transfer_loop now pid evs evs ∅ pl r2) as (pl3 & auto & E1 & E2 & (E3 & E4 & E5 & _) & E6 & E7 & E8 & E9);
    [apply lookup_insert_eq|done|]. set (r3 := Nat.iter (S (length evs)) (pipeline_step now pid) r2) in *.
  destruct Hf as [Hh _ Hc H0 Hl].
  destruct (emit_loop now pid evs auto pl3 r3 n log) as (pl4 & F1 & F2 & (F3 & F4 & F5 & _) & F6 & F7 & F8 & F9); try done.
  { rewrite E6, E3, Hsid. simpl. by rewrite D1. }
  simpl. set (r4 := Nat.iter (length evs) (pipeline_step now pid) r3) in *.
  assert (pipeline_step now pid r4 = put_pipeline pid (set_phase PAwait pl4) (sync_session now pid pl4 r4)) as ->.
  { unfold pipeline_step. by rewrite F1, F2. }
  assert (sequence_counter <$> r_cells r4 !! pid = Some n) as Hc4 by (rewrite F8, E8; simpl; by rewrite D3).
  destruct (sync_session_keeps now pid pl4 r4 sid (n + Z.of_nat (length evs)) (log ++ evs)) as (S1 & S2 & S3 & S4 & S5).
  { rewrite <- Hsid, <- E3. done. }
  { destruct (r_cells r4 !! pid); [by eexists|done]. }
  assert (br_sequence (pl_bridge pl4) = (n + Z.of_nat (length evs))%Z) as Hbr4 by congruence.
  split; [|exists auto; simpl; rewrite S5, F9, E9; simpl; by rewrite D4].
  split; simpl; [| |by rewrite S4, Hbr4|lia|done].
  - rewrite S2, F7, E7. simpl. by rewrite D2.
  - exists (set_phase PAwait pl4). simpl. rewrite lookup_insert_eq. split_and!; try done; [congruence..|lia].
Qed.

Lemma user_turn (sid pid dir : string) (n : Z) (log : list (AgentEvent EventBody)) (r : Relay) (now : Z)
    (content : string) (agent : option string) :
  following sid pid dir n log r → (n + 1 < 2 ^ 63)%Z →
  following sid pid dir (n + 1) (log ++ [user_input_event clock (n + 1) content])
    (turn sid pid r (TUser now content agent)).
Proof.
  intros [Hh (pl & Hpl & Hsid & Hdir & Hph & Hbr) Hc H0 Hl] Hn. simpl. unfold send_user_message, get_active_handle.
  rewrite Hh. cbn [rh_process_id]. rewrite Hc. change (default 0%Z (Some n)) with n.
  assert (wrap_u64 (n + 1) = (n + 1)%Z) as -> by (unfold wrap_u64; rewrite Z.mod_small; lia).
  destruct (r_cells r !! pid) as [c|] eqn:Hcell; [|done].
  unfold relay_stdin. destruct (stdin_send _ _ _) as [sub sent]. simpl.
  split; simpl; [done| |by rewrite lookup_alter_eq, Hcell|lia|by apply store_logged].
  exists pl. split_and!; try done. lia.
Qed.

Lemma turn_follows (sid pid dir : string) (n : Z) (log : list (AgentEvent EventBody)) (r : Relay) (t : Turn) :
  following sid pid dir n log r → (n + Z.of_nat (length (turn_log dir n t)) < 2 ^ 63)%Z →
  following sid pid dir (n + Z.of_nat (length (turn_log dir n t))) (log ++ turn_log dir n t) (turn sid pid r t).
Proof.
  intros Hf Hn. destruct t as [now content agent|now plugins line]; [by apply user_turn|by apply (line_turn sid pid dir n log r now plugins line)].
Qed.

Lemma turns_follow (sid pid dir : string) (ts : list Turn) (n : Z) (log : list (AgentEvent EventBody)) (r : Relay) :
  following sid pid dir n log r → (n + Z.of_nat (length (turns_log dir n ts)) < 2 ^ 63)%Z →
  following sid pid dir (n + Z.of_nat (length (turns_log dir n ts))) (log ++ turns_log dir n ts)
    (foldl (turn sid pid) r ts).
Proof.
  revert n log r. induction ts as [|t ts IH]; intros n log r Hf Hn; simpl in *; [by rewrite Z.add_0_r, app_nil_r|].
  rewrite length_app in *. rewrite app_assoc, Nat2Z.inj_add, Z.add_assoc in *.
  apply IH; [|done]. apply turn_follows; [done|]. lia.
Qed.

(** A process that has just been started follows the history of its session. *)
Lemma start_follows (os : SpawnOs) (uuid : string) (cfg : RelaySessionConfig) (prompt : option string) (r r' : Relay)
    (h : RelayHandle) (n : Z) :
  let sid := rc_session_id cfg in
  r_sessions r !! sid = None → logged sid n (history sid (r_db r)) (r_db r) →
  (0 ≤ n < 2 ^ 63)%Z → max_message_sequence sid (r_db r) = n →
  start_session os uuid cfg prompt r = (r', Ok h) →
  following sid uuid (rc_working_directory cfg) n (history sid (r_db r)) r'.
Proof.
  intros sid Hno Hl Hn Hmax. unfold start_session. fold sid. rewrite Hno.
  destruct (spawn _ _ _ _) as [sub [pid|e]] eqn:Hsp; [|done]. intros [= <- <-].
  assert (pid = uuid) as ->.
  { unfold spawn in Hsp. repeat case_match; congruence. }
  rewrite Hmax. assert (wrap_u64 n = n) as -> by (unfold wrap_u64; rewrite Z.mod_small; lia).
  split; simpl; rewrite ?lookup_insert_eq; [done| |done|lia|done].
  eexists. by split_and!.
Qed.


Lemma max_sequence_bound (sid : string) (d : DaemonDb) (k : Z) (m : MessageRow) :
  messages_keyed d → db_messages d !! (sid, k) = Some m → (k ≤ max_message_sequence sid d)%Z.
Proof.
  intros Hk Hm. assert (k ∈ msg_sequence <$> session_messages sid d) as Hin.
  { apply list_elem_of_fmap. exists m. split; [symmetry; apply (Hk _ _ Hm)|]. apply elem_of_session_messages. by exists k. }
  unfold max_message_sequence. destruct (msg_sequence <$> session_messages sid d) as [|z zs]; [by apply elem_of_nil in Hin|].
  revert Hin. clear. induction zs as [|y zs IH]; simpl; [intros ->%list_elem_of_singleton; lia|].
  rewrite !elem_of_cons in *. intros [->|[->|Hin]]; [|lia|]; (etrans; [apply IH; auto|lia]).
Qed.

Lemma history_logged (sid : string) (d : DaemonDb) :
  messages_keyed d → is_Some (db_sessions d !! sid) →
  (∀ k m, db_messages d !! (sid, k) = Some m → (0 < k)%Z) →
  logged sid (max_message_sequence sid d) (history sid d) d.
Proof.
  intros Hk Hs Hp. split; try done. intros k m Hm. split; [by eapply Hp|by eapply max_sequence_bound].
Qed.

(** C11: The history of a session is an append-only log: after a process was
    started for it, whatever lines the agent writes and whatever messages the
    user sends after the start and while no line is being handled, a client
    that resumes the session is sent what was there before, followed by the
    events of every line and these messages, each once, in their order and
    numbered without gaps.  The prompt that the process was started with is
    not part of it. *)
Theorem history_is_a_log (os : SpawnOs) (uuid : string) (cfg : RelaySessionConfig) (prompt : option string) (r r' : Relay)
    (h : RelayHandle) (ts : list Turn) (streams : gmap string Converse) :
  let sid := rc_session_id cfg in
  let n := max_message_sequence sid (r_db r) in
  let log := turns_log (rc_working_directory cfg) n ts in
  messages_keyed (r_db r) → is_Some (db_sessions (r_db r) !! sid) →
  (∀ k m, db_messages (r_db r) !! (sid, k) = Some m → (0 < k)%Z) → (0 ≤ n)%Z →
  (n + Z.of_nat (length log) < 2 ^ 63)%Z →
  r_sessions r !! sid = None → start_session os uuid cfg prompt r = (r', Ok h) →
  svc_resume_session sid 0 (mkService (foldl (turn sid uuid) r' ts) streams) =
    svc_resume_session sid 0 (mkService r streams) ++ log.
Proof.
  intros sid n log Hk Hs Hp H0 Hn Hno Hst. pose proof (history_logged sid (r_db r) Hk Hs Hp) as Hl. fold n in Hl.
  assert (following sid uuid (rc_working_directory cfg) n (history sid (r_db r)) r') as Hf
    by (eapply start_follows; eauto; lia).
  pose proof (turns_follow sid uuid _ ts n _ r' Hf Hn) as Hf'. apply (lg_log _ _ _ _ (fo_log _ _ _ _ _ _ Hf')).
Qed.

(** * Where the log breaks *)

Lemma store_taken (now : Z) (sid : string) (e : AgentEvent EventBody) (d : DaemonDb) :
  is_Some (db_messages d !! (sid, i64_of_u64 (ev_sequence e))) → (store_event now sid e d).1 = d.
Proof. intros [m Hm]. unfold store_event, insert_message. case_decide; [done|]. by rewrite Hm. Qed.

Lemma store_present (now : Z) (sid : string) (e : AgentEvent EventBody) (d : DaemonDb) :
  is_Some (db_sessions d !! sid) →
  is_Some (db_messages (store_event now sid e d).1 !! (sid, i64_of_u64 (ev_sequence e))).
Proof.
  intros [s Hs]. unfold store_event, insert_message. pose proof (message_type_legal e). rewrite decide_False by tauto.
  destruct (db_messages d !! _) as [m|] eqn:Hm; simpl; [by rewrite Hm|]. rewrite Hs. simpl. by rewrite lookup_insert_eq.
Qed.

Lemma record_usage_messages (now : Z) (sid : string) (e : AgentEvent EventBody) (d : DaemonDb) :
  db_messages (record_usage now sid e d) = db_messages d.
Proof. unfold record_usage. by repeat case_match. Qed.

Lemma history_messages (sid : string) (d d' : DaemonDb) :
  db_messages d' = db_messages d → history sid d' = history sid d.
Proof. unfold history, get_messages_from_sequence, session_messages. by intros ->. Qed.

(** A user message that arrives while the task is about to store an event
    takes the number of that event: the user's message is stored, the event
    is not, though clients are shown it. *)
Theorem racing_message_displaces_event (now now' : Z) (sid pid content : string) (agent : option string)
    (e : AgentEvent EventBody) (todo : list (AgentEvent EventBody)) (auto : gset string) (pl : Pipeline) (n : Z)
    (log q : list (AgentEvent EventBody)) (r : Relay) :
  r_sessions r !! sid = Some (mkRelayHandle pid sid) → r_pipelines r !! pid = Some pl →
  pl_session_id pl = sid → pl_phase pl = PEmit (e :: todo) auto → auto_responded auto e = false →
  sequence_counter <$> r_cells r !! pid = Some n → r_queues r !! pid = Some q →
  logged sid n log (r_db r) → (0 ≤ n)%Z → (n + 1 < 2 ^ 63)%Z → ev_sequence e = (n + 1)%Z →
  let r1 := (send_user_message clock now sid content agent r).1 in
  let r2 := pipeline_step now' pid r1 in
  history sid (r_db r2) = log ++ [user_input_event clock (n + 1) content] ∧
  r_queues r2 !! pid = Some (q ++ [e]) ∧
  ∃ pl', r_pipelines r2 !! pid = Some pl' ∧ pl_phase pl' = PEmit todo auto.
Proof.
  intros Hh Hpl Hsid Hph Hauto Hc Hq Hl H0 Hn He. unfold send_user_message, get_active_handle. rewrite Hh. cbn [rh_process_id]. rewrite Hc.
  change (default 0%Z (Some n)) with n.
  assert (wrap_u64 (n + 1) = (n + 1)%Z) as -> by (unfold wrap_u64; rewrite Z.mod_small; lia).
  unfold relay_stdin. destruct (stdin_send _ _ _) as [sub sent]. cbn [fst].
  set (u := user_input_event clock (n + 1) content).
  pose proof (store_logged now sid n log u (r_db r) Hl H0 Hn eq_refl) as Hl1.
  set (d1 := (store_event now sid u (r_db r)).1) in Hl1.
  assert (is_Some (db_messages d1 !! (sid, i64_of_u64 (ev_sequence e)))) as Hd1.
  { rewrite He. apply (store_present now sid u); [by apply (lg_session _ _ _ _ Hl)]. }
  unfold pipeline_step. simpl. rewrite Hpl, Hph. unfold emit_event. rewrite Hauto, Hsid. simpl.
  fold u. fold d1. rewrite store_taken by by rewrite record_usage_messages.
  rewrite lookup_alter_eq, Hq, lookup_insert_eq. split_and!; [|done|by eexists].
  rewrite (history_messages sid d1); [apply (lg_log _ _ _ _ Hl1)|]. by rewrite record_usage_messages.
Qed.

End History.

(** * Witnesses *)

(** Session "s" exists, its process is not started yet. *)
Definition demo_idle : Relay :=
  sv_relay (run demo_clock (take 2 (demo_open "alice" "p1")) (demo_service 2)).

Definition demo_config : RelaySessionConfig := mkRelayConfig "s" "/w" None None "".

Definition demo_turns : list Turn :=
  [TLine 101 (λ _, []) "init"; TUser 102 "and now" None; TLine 103 (λ _, []) "not json"; TLine 104 (λ _, []) "bash"].

Lemma demo_idle_empty : db_messages (r_db demo_idle) = ∅.
Proof. reflexivity. Qed.

Lemma history_is_a_log_witness :
  let r' := (start_session demo_os "p1" demo_config (Some "hello") demo_idle).1 in
  let s' := mkService (foldl (turn demo_clock "s" "p1") r' demo_turns) ∅ in
  svc_resume_session "s" 0 s' = turns_log demo_clock "/w" 0 demo_turns ∧
  ev_sequence <$> svc_resume_session "s" 0 s' = [1; 2; 3]%Z.
Proof.
  cbn zeta.
  assert (svc_resume_session "s" 0 (mkService (foldl (turn demo_clock "s" "p1")
    (start_session demo_os "p1" demo_config (Some "hello") demo_idle).1 demo_turns) ∅) =
    turns_log demo_clock "/w" 0 demo_turns) as H.
  { rewrite (history_is_a_log demo_clock demo_os "p1" demo_config (Some "hello") demo_idle
      (start_session demo_os "p1" demo_config (Some "hello") demo_idle).1 (mkRelayHandle "p1" "s") demo_turns ∅).
    - vm_compute. reflexivity.
    - intros k m. rewrite demo_idle_empty, lookup_empty. done.
    - vm_compute. by eexists.
    - intros k m. rewrite demo_idle_empty, lookup_empty. done.
    - vm_compute. done.
    - vm_compute. done.
    - vm_compute. done.
    - vm_compute. reflexivity. }
  split; [exact H|]. rewrite H. vm_compute. reflexivity.
Defined.

(** The agent's message is converted and handed over; its event is about to
    be stored when the user's message arrives. *)
Definition demo_racing : Relay :=
  let r1 := pipeline_line demo_clock (λ _, []) "p1" "start" (sv_relay demo_started) in
  Nat.iter 2 (pipeline_step 101 "p1") r1.

Definition demo_lost : AgentEvent EventBody :=
  mkEvent 1 (mkBody (Some (demo_clock 1)) "" (Some (EvStatusChange StatusThinking ""))).

Lemma demo_racing_empty : db_messages (r_db demo_racing) = ∅.
Proof. vm_compute. reflexivity. Qed.

Lemma racing_message_displaces_event_witness :
  let r1 := (send_user_message demo_clock 102 "s" "wait" None demo_racing).1 in
  let r2 := pipeline_step 103 "p1" r1 in
  history "s" (r_db r2) = [user_input_event demo_clock 1 "wait"] ∧ r_queues r2 !! "p1" = Some [demo_lost].
Proof.
  destruct (racing_message_displaces_event demo_clock 102 103 "s" "p1" "wait" None demo_lost [] ∅
    (default (mkPipeline "" "" bridge_new 0 false PDone) (r_pipelines demo_racing !! "p1")) 0 [] [] demo_racing) as (H1 & H2 & _).
  1-7: vm_compute; reflexivity.
  - split; [|vm_compute; by eexists| |vm_compute; reflexivity].
    + intros k m. rewrite demo_racing_empty, lookup_empty. done.
    + intros k m. rewrite demo_racing_empty, lookup_empty. done.
  - done.
  - done.
  - vm_compute. reflexivity.
  - split; [exact H1|exact H2].
Defined.
