(* ===== verification/AgentCorrect.v ===== *)
(** Conversations: what the agent is answered, what clients lose, and what
    ended processes keep. *)
From stdpp Require Import gmap strings list sorting.
From Stdlib Require Import ZArith SpecFloat Lia.
From S2P Require Import Prelude Protocol Json Ndjson Commands Multiplexer EventBridge SessionStore Encodings SessionRelay.
From S2P Require Import EventCodec AgentService SessionHistory.

Definition stdin_lines (pid : string) (r : Relay) : option (list string) :=
  lines <$> stdins (r_subprocesses r) !! pid.

(** * Processes and handles

    What a step does to the set of occupied places in the pool and to the
    table of active sessions. *)

Definition View : Type := gset string * gmap string RelayHandle * nat.

Definition view (r : Relay) : View :=
  (dom (processes (r_subprocesses r)), r_sessions r, max_processes (r_subprocesses r)).

Inductive evolution (uuid : string) : View → View → Prop :=
| evo_same v : evolution uuid v v
| evo_start P S m sid : S !! sid = None → evolution uuid (P, S, m) ({[uuid]} ∪ P, <[sid := mkRelayHandle uuid sid]> S, m)
| evo_cancel P S m sid h : S !! sid = Some h → evolution uuid (P, S, m) (P ∖ {[rh_process_id h]}, delete sid S, m)
| evo_drop P S m sid : evolution uuid (P, S, m) (P, delete sid S, m).

Section Correct.
Context {DT : DebugText} {JT : JsonText} {JW : JsonWrite} {PC : ProstCodec} {ST : SqlText}.
Context {HI : HashIter} {SO : SqlOrder}.
Context (clock : Z → Timestamp).

Lemma relay_stdin_view (pid sid line : string) (r : Relay) : view (relay_stdin pid sid line r).1 = view r.
Proof. unfold relay_stdin, stdin_send. by repeat case_match; simplify_eq/=. Qed.

Lemma start_session_view (os : SpawnOs) (uuid : string) (cfg : RelaySessionConfig) (prompt : option string) (r : Relay) :
  evolution uuid (view r) (view (start_session os uuid cfg prompt r).1).
Proof.
  unfold start_session. destruct (r_sessions r !! rc_session_id cfg) as [h|] eqn:Hs; [constructor|].
  unfold spawn. case_decide; [constructor|]. destruct (exec_failure os); [constructor|].
  unfold view. simpl. rewrite dom_insert_L. by constructor.
Qed.

Lemma send_user_message_view (now : Z) (sid content : string) (agent : option string) (r : Relay) :
  view (send_user_message clock now sid content agent r).1 = view r.
Proof. unfold send_user_message. destruct (get_active_handle sid r); [|done]. by rewrite relay_stdin_view. Qed.

Lemma send_permission_view (sid id : string) (granted : bool) (input : Json) (r : Relay) :
  view (send_permission_response sid id granted input r).1 = view r.
Proof. unfold send_permission_response. destruct (get_active_handle sid r); [|done]. by rewrite relay_stdin_view. Qed.

Lemma send_question_view (sid id : string) (answers : list (string * string)) (input : Json) (r : Relay) :
  view (send_question_response sid id answers input r).1 = view r.
Proof. unfold send_question_response. destruct (get_active_handle sid r); [|done]. by rewrite relay_stdin_view. Qed.

Lemma cancel_session_view (uuid : string) (now : Z) (sid : string) (r : Relay) :
  evolution uuid (view r) (view (cancel_session now sid r).1).
Proof.
  unfold cancel_session. destruct (r_sessions r !! sid) as [h|] eqn:Hs; [|constructor].
  unfold terminate. destruct (processes (r_subprocesses r) !! rh_process_id h); [|constructor].
  unfold view. simpl. rewrite dom_delete_L. by constructor.
Qed.

Lemma handle_permission_view (sid id : string) (d : option PermissionDecision) (r : Relay) :
  view (handle_permission sid id d r).1 = view r.
Proof.
  unfold handle_permission. destruct (get_handle sid r) as [h|]; [destruct (r_cells r !! rh_process_id h)|];
    try (destruct (process_permission_response _ _ _) as [? []]); simpl; by rewrite send_permission_view.
Qed.

Lemma handle_question_view (sid id : string) (answers : list (string * string)) (r : Relay) :
  view (handle_question sid id answers r).1 = view r.
Proof. unfold handle_question. destruct (get_handle sid r); simpl; by rewrite send_question_view. Qed.

Lemma handle_request_view (env : Env) (cid : string) (req : Request) (cv : Converse) (r : Relay) :
  evolution (e_uuid env) (view r) (view (handle_agent_request clock env cid req cv r).1.2).
Proof.
  unfold handle_agent_request. destruct req, (cv_session_id cv) as [sid|]; try constructor.
  1,2: unfold handle_start; repeat case_match; simplify_eq/=; constructor.
  - unfold handle_message, relay_result. destruct (cv_pending_config cv).
    + apply start_session_view.
    + simpl. rewrite send_user_message_view. constructor.
  - pose proof (handle_permission_view sid request_id decision r) as H.
    destruct (handle_permission sid request_id decision r). simpl in *. rewrite H. constructor.
  - pose proof (handle_question_view sid question_id answers r) as H.
    destruct (handle_question sid question_id answers r). simpl in *. rewrite H. constructor.
  - apply cancel_session_view.
Qed.

Lemma converse_end_view (cid : string) (s : Service) : view (sv_relay (converse_end cid s)) = view (sv_relay s).
Proof. unfold converse_end. by repeat case_match. Qed.

Lemma set_session_id_dom (pid sid : string) (m : SubprocessManager) :
  dom (processes (set_session_id pid sid m).1) = dom (processes m).
Proof.
  unfold set_session_id. destruct (processes m !! pid) eqn:Hp; [|done]. simpl. rewrite dom_insert_L.
  assert (pid ∈ dom (processes m)) by (apply elem_of_dom; by eexists). set_solver.
Qed.

Lemma set_session_id_max (pid sid : string) (m : SubprocessManager) :
  max_processes (set_session_id pid sid m).1 = max_processes m.
Proof. unfold set_session_id. by destruct (processes m !! pid). Qed.

Lemma pipeline_step_view (now : Z) (pid : string) (r : Relay) : view (pipeline_step now pid r) = view r.
Proof.
  unfold pipeline_step. destruct (r_pipelines r !! pid) as [pl|]; [|done].
  destruct (pl_phase pl) as [|todo all auto|todo auto|]; [done| | |done].
  - destruct todo as [|e todo]; [done|]. unfold transfer_event.
    repeat case_match; simplify_eq/=; try done; by rewrite <- (relay_stdin_view pid (pl_session_id pl)
      (build_permission_response_json request_id b j) r).
  - destruct todo as [|e todo].
    + unfold sync_session, view. repeat case_match; simplify_eq/=; rewrite ?set_session_id_dom, ?set_session_id_max; done.
    + unfold emit_event. destruct (auto_responded auto e); done.
Qed.

Lemma step_evolves (env : Env) (op : Op) (s : Service) :
  evolution (e_uuid env) (view (sv_relay s)) (view (sv_relay (step clock env op s))).
Proof.
  destruct op; simpl; try constructor.
  - unfold converse_request. destruct (sv_streams s !! client_id) as [cv|]; [|constructor].
    pose proof (handle_request_view env client_id req cv (sv_relay s)) as H.
    destruct (handle_agent_request clock env client_id req cv (sv_relay s)) as [[cv' r'] [u|e]]; simpl in *; [done|].
    by rewrite converse_end_view.
  - rewrite converse_end_view. constructor.
  - unfold pipeline_line. repeat case_match; simplify_eq/=; constructor.
  - rewrite pipeline_step_view. constructor.
  - unfold pipeline_close. destruct (r_pipelines (sv_relay s) !! pid) as [pl|]; [|constructor].
    destruct (pl_phase pl); try constructor.
    repeat case_match; simplify_eq/=; try constructor.
  - unfold forward_step. repeat case_match; simplify_eq/=; constructor.
  - unfold svc_compact_session. repeat case_match; simplify_eq/=; constructor.
  - unfold svc_cancel_turn. pose proof (cancel_session_view (e_uuid env) (e_now env) session_id (sv_relay s)) as H.
    by destruct (cancel_session (e_now env) session_id (sv_relay s)).
  - unfold svc_clear_session_grants, change_cells. destruct (require_session_handle session_id s); constructor.
  - unfold svc_set_session_grant, change_cells. case_decide; [constructor|].
    destruct (require_session_handle session_id s); constructor.
  - unfold svc_rename_session. repeat case_match; simplify_eq/=; constructor.
  - unfold svc_delete_session. case_decide; [constructor|].
    pose proof (cancel_session_view (e_uuid env) (e_now env) session_id (sv_relay s)) as Hc.
    destruct (delete_session session_id _). done.
Qed.

(** * Places in the pool

    A process that has a place but no handle. *)
Definition orphan (pid : string) (v : View) : Prop :=
  pid ∈ v.1.1 ∧ ∀ sid h, v.1.2 !! sid = Some h → rh_process_id h ≠ pid.

Lemma evolution_orphan (uuid pid : string) v v' : evolution uuid v v' → pid ≠ uuid → orphan pid v → orphan pid v'.
Proof.
  intros He Hne [Hp Hs]. destruct He as [v|P S m sid Hn|P S m sid h Hh|P S m sid]; [by split|..]; split; simpl in *.
  - set_solver.
  - intros sid' h. rewrite lookup_insert_Some. intros [[_ <-]|[_ Hh]]; [done|by eapply Hs].
  - pose proof (Hs _ _ Hh). set_solver.
  - intros sid' h' [_ Hh']%lookup_delete_Some. by eapply Hs.
  - done.
  - intros sid' h' [_ Hh']%lookup_delete_Some. by eapply Hs.
Qed.

Lemma run_orphan (trace : list (Env * Op)) (pid : string) (s : Service) :
  Forall (λ call, e_uuid call.1 ≠ pid) trace → orphan pid (view (sv_relay s)) →
  orphan pid (view (sv_relay (run clock trace s))).
Proof.
  revert s. induction trace as [|[env op] trace IH]; intros s; [done|]. inversion_clear 1. intros Ho. simpl.
  apply IH; [done|]. eapply evolution_orphan; [apply step_evolves|done|done].
Qed.

Lemma run_max (trace : list (Env * Op)) (s : Service) :
  (view (sv_relay (run clock trace s))).2 = (view (sv_relay s)).2.
Proof.
  revert s. induction trace as [|[env op] trace IH]; intros s; [done|].
  etrans; [apply (IH (step clock env op s))|]. by destruct (step_evolves env op s).
Qed.

(** Ending by itself makes a process an orphan. *)
Lemma close_orphans (now : Z) (sid pid : string) (pl : Pipeline) (r : Relay) :
  r_sessions r !! sid = Some (mkRelayHandle pid sid) →
  (∀ sid' h, r_sessions r !! sid' = Some h → rh_process_id h = pid → sid' = sid) →
  is_Some (processes (r_subprocesses r) !! pid) →
  r_pipelines r !! pid = Some pl → pl_session_id pl = sid → pl_phase pl = PAwait →
  orphan pid (view (pipeline_close clock now pid r)).
Proof.
  intros Hs Hu Hp Hpl Hsid Hph. unfold pipeline_close. rewrite Hpl, Hph. cbn zeta.
  assert (∀ r0 : Relay, r_sessions r0 = r_sessions r → r_subprocesses r0 = r_subprocesses r →
    orphan pid (dom (processes (r_subprocesses r0)), delete sid (r_sessions r0), max_processes (r_subprocesses r0))) as Ho.
  { intros r0 E1 E2. rewrite E1, E2. split; simpl; [by apply elem_of_dom|].
    intros sid' h [Hne Hh]%lookup_delete_Some Hpid. destruct Hne. by rewrite (Hu _ _ Hh Hpid). }
  case_decide; simpl; rewrite Hsid, Hs; by apply (Ho r).
Qed.

(** Processes that ended by themselves keep their places in the pool: once
    they fill it, whatever happens later (with new UUIDs for new processes),
    no process can be started for any session again. *)
Theorem ended_processes_fill_pool (s : Service) (trace : list (Env * Op)) (orphans : list string) (os : SpawnOs)
    (uuid : string) (cfg : RelaySessionConfig) (prompt : option string) :
  NoDup orphans → Forall (λ pid, orphan pid (view (sv_relay s))) orphans →
  max_processes (r_subprocesses (sv_relay s)) ≤ length orphans →
  Forall (λ call, e_uuid call.1 ∉ orphans) trace →
  let r := sv_relay (run clock trace s) in
  r_sessions r !! rc_session_id cfg = None →
  ∃ current max, (start_session os uuid cfg prompt r).2 = Err (SubprocessFailed (PoolExhausted current max)).
Proof.
  intros Hnd Ho Hmax Htr r Hno. unfold start_session. rewrite Hno. unfold spawn.
  rewrite decide_True; [by eauto|].
  assert (max_processes (r_subprocesses r) = max_processes (r_subprocesses (sv_relay s))) as -> by apply (run_max trace s).
  etrans; [exact Hmax|]. rewrite <- size_dom, <- (size_list_to_set (C := gset string) orphans) by done.
  apply subseteq_size. intros pid Hpid%elem_of_list_to_set. rewrite Forall_forall in Ho.
  apply (run_orphan trace pid s); [|by apply Ho].
  eapply Forall_impl; [exact Htr|]. simpl. intros call Hc Heq. by rewrite Heq in Hc.
Qed.

(** * A second client *)

(** A client that joins a running session loses its first message: the call
    succeeds, but nothing is written to any process and nothing is added to
    any history. *)
Theorem joining_client_message_lost (env1 env2 : Env) (cid sid model dir wt content agent : string) (h : RelayHandle) (s : Service) :
  sid ≠ EmptyString → r_sessions (sv_relay s) !! sid = Some h →
  is_Some (db_sessions (r_db (sv_relay s)) !! sid) →
  is_ok (subscribe (e_instant env1) sid cid "grpc" (r_mux (sv_relay s))).2 = true →
  sv_streams s !! cid = Some (mkConverse None None) →
  let start := ReqStart (mkStart sid model dir wt) in
  let s1 := (converse_request clock env1 cid start s).1 in
  let '(s2, res) := converse_request clock env2 cid (ReqMessage content agent) s1 in
  (converse_request clock env1 cid start s).2 = Ok tt ∧ res = Ok tt ∧
  r_subprocesses (sv_relay s2) = r_subprocesses (sv_relay s) ∧
  db_messages (r_db (sv_relay s2)) = db_messages (r_db (sv_relay s)) ∧
  r_queues (sv_relay s2) = r_queues (sv_relay s) ∧
  cv_pending_config <$> sv_streams s2 !! cid = Some None.
Proof.
  intros Hne Hh [row Hrow] Hsub Hst. unfold converse_request at 1 3. rewrite Hst. cbn [handle_agent_request cv_session_id].
  unfold handle_start. cbn [start_session_id]. rewrite decide_False by done. unfold get_session. rewrite Hrow.
  cbn [r_mux set_relay_db]. destruct (subscribe _ _ _ _ _) as [m [hd|e]]; [|done].
  cbn [fst snd]. unfold converse_request. cbn [sv_streams sv_relay]. rewrite lookup_insert_eq.
  cbn [handle_agent_request cv_session_id]. unfold handle_message. cbn [cv_pending_config].
  unfold start_session. cbn [rc_session_id r_sessions set_mux set_relay_db]. rewrite Hh. cbn. by rewrite lookup_insert_eq.
Qed.

(** * A restarted session *)

(** The task of a process that was cancelled takes the session's handle with
    it when its output ends, even when the handle is that of a process started
    since: the running session is no longer reachable. *)
Theorem old_task_unregisters_new (now now' : Z) (sid pid content : string) (agent : option string) (pl : Pipeline)
    (h : RelayHandle) (r : Relay) :
  r_pipelines r !! pid = Some pl → pl_session_id pl = sid → pl_phase pl = PAwait →
  r_sessions r !! sid = Some h → rh_process_id h ≠ pid →
  let r' := pipeline_close clock now pid r in
  is_active sid r' = false ∧
  (send_user_message clock now' sid content agent r').2 = Err (SessionNotFound sid) ∧
  processes (r_subprocesses r') = processes (r_subprocesses r) ∧
  s_status <$> db_sessions (r_db r') !! sid = (λ _, "idle") <$> db_sessions (r_db r) !! sid.
Proof.
  intros Hpl Hsid Hph Hs Hne. unfold pipeline_close. rewrite Hpl, Hph. cbn zeta.
  case_decide; simpl; rewrite Hsid, Hs; unfold is_active, send_user_message, get_active_handle; simpl;
    rewrite lookup_delete_eq, lookup_alter_eq; (split_and!; [done|done|done|by destruct (db_sessions (r_db r) !! sid)]).
Qed.

(** * Permission requests *)

Lemma stdin_send_open (pid line : string) (ls : list string) (m : SubprocessManager) :
  stdins m !! pid = Some (mkStdin ls true) →
  (stdin_send pid line m).2 = true ∧ stdins (stdin_send pid line m).1 = <[pid := mkStdin (ls ++ [line]) true]> (stdins m).
Proof. intros H. unfold stdin_send. by rewrite H. Qed.

(** The task of a process, ready for a line, with its cells, its queues. *)
Record ready (sid pid : string) (c : Cells) (ls : list string) (q : list (AgentEvent EventBody)) (r : Relay) : Prop := {
  rd_handle : r_sessions r !! sid = Some (mkRelayHandle pid sid);
  rd_pipeline : ∃ pl, r_pipelines r !! pid = Some pl ∧ pl_session_id pl = sid ∧ pl_phase pl = PAwait;
  rd_cells : r_cells r !! pid = Some c;
  rd_stdin : stdins (r_subprocesses r) !! pid = Some (mkStdin ls true);
  rd_queue : r_queues r !! pid = Some q
}.

(** A permission request arrives and is transferred. *)
Lemma permission_transferred (plugins : string → list CommandEntry) (sid pid line id tool : string) (input : Json) (c : Cells)
    (ls : list string) (q : list (AgentEvent EventBody)) (r : Relay) (now : Z) :
  ready sid pid c ls q r →
  parse_line line = Ok (MsgControlRequest (mkControlRequest id (CanUseTool tool input))) → tool ≠ "AskUserQuestion" →
  ∃ pl e r0,
    let r1 := pipeline_step now pid (pipeline_line clock plugins pid line r) in
    let event := EvPermissionRequest id tool (tool_description tool input) (Some (json_to_struct input)) in
    eb_event (ev_payload e) = Some event ∧ pl_session_id pl = sid ∧
    r1 = match c_grants c !! tool with
         | Some granted =>
             put_pipeline pid (set_phase (PTransfer [] [e] ({[id]} ∪ ∅)) pl)
               (relay_stdin pid sid (build_permission_response_json id granted input) r0).1
         | None => put_pipeline pid (set_phase (PTransfer [] [e] ∅) pl)
                     (update_cells pid (λ c, set_permissions (<[id := mkPendingPermission input tool]> (c_permissions c)) c) r0)
         end ∧
    r_subprocesses r0 = r_subprocesses r ∧ r_cells r0 = r_cells r ∧ r_queues r0 = r_queues r ∧ r_sessions r0 = r_sessions r.
Proof.
  intros [Hh (pl & Hpl & Hsid & Hph) Hc Hst Hq] Hp Ht. unfold pipeline_line. rewrite Hpl, Hph, Hp. cbn zeta.
  set (b := if (_ <? _)%Z then _ else _). unfold convert, handle_control_request. cbn [cr_request cr_request_id].
  rewrite decide_False by done. cbn [next_events next_event]. set (e := mkEvent _ _).
  set (b1 := mkBridge _ _ _ _ _ _).
  assert (pending_permission_inputs b1 !! id = Some input) as Hb1 by apply lookup_insert_eq. clearbody b1.
  set (pl1 := set_bridge b1 pl).
  set (r0 := put_pipeline pid (set_phase (PTransfer [e] [e] ∅) pl1) r).
  exists (set_bridge (take_permission_input id b1).1 pl1), e, r0. cbn zeta.
  split_and!; try done. unfold pipeline_step. subst r0. cbn [r_pipelines put_pipeline set_pipelines].
  rewrite lookup_insert_eq. cbn [pl_phase set_phase]. unfold transfer_event. subst e. cbn [eb_event ev_payload].
  simpl. rewrite Hb1, Hc. simpl. rewrite Hsid. by destruct (c_grants c !! tool).
Qed.

Lemma sync_session_frame (now : Z) (pid : string) (pl : Pipeline) (r : Relay) :
  let r' := sync_session now pid pl r in
  stdins (r_subprocesses r') = stdins (r_subprocesses r) ∧ r_queues r' = r_queues r ∧ r_sessions r' = r_sessions r ∧
  r_cells r' = alter (set_counter (br_sequence (pl_bridge pl))) pid (r_cells r).
Proof.
  unfold sync_session, set_session_id. repeat case_match; simplify_eq/=; done.
Qed.

(** The rest of the processing of a message with one event. *)
Lemma finish_one (now : Z) (pid : string) (e : AgentEvent EventBody) (auto : gset string) (pl : Pipeline) (r : Relay) (c : Cells) :
  r_pipelines r !! pid = Some pl → pl_phase pl = PTransfer [] [e] auto → r_cells r !! pid = Some c →
  let r' := Nat.iter 3 (pipeline_step now pid) r in
  stdins (r_subprocesses r') = stdins (r_subprocesses r) ∧ r_sessions r' = r_sessions r ∧
  (∃ n, r_cells r' !! pid = Some (set_counter n c)) ∧
  r_queues r' = if auto_responded auto e then r_queues r else alter (λ q, q ++ [e]) pid (r_queues r).
Proof.
  intros Hpl Hph Hc. cbn zeta.
  change (Nat.iter 3 (pipeline_step now pid) r)
    with (pipeline_step now pid (pipeline_step now pid (pipeline_step now pid r))).
  assert (pipeline_step now pid r = put_pipeline pid (set_phase (PEmit [e] auto) pl) r) as ->
    by (unfold pipeline_step; by rewrite Hpl, Hph).
  set (r1 := put_pipeline _ _ r).
  assert (∃ r2 pl2, pipeline_step now pid r1 = put_pipeline pid (set_phase (PEmit [] auto) pl2) r2 ∧
    r_subprocesses r2 = r_subprocesses r ∧ r_sessions r2 = r_sessions r ∧ r_cells r2 = r_cells r ∧
    r_queues r2 = if auto_responded auto e then r_queues r else alter (λ q, q ++ [e]) pid (r_queues r))
    as (r2 & pl2 & -> & E1 & E2 & E3 & E4).
  { unfold pipeline_step. subst r1. simpl. rewrite lookup_insert_eq. simpl. unfold emit_event. simpl.
    destruct (auto_responded auto e); eexists _, _; (split; [reflexivity|]); by split_and!. }
  set (r3 := put_pipeline _ _ r2).
  assert (pipeline_step now pid r3 = put_pipeline pid (set_phase PAwait (set_phase (PEmit [] auto) pl2))
    (sync_session now pid (set_phase (PEmit [] auto) pl2) r3)) as ->.
  { unfold pipeline_step. subst r3. simpl. rewrite lookup_insert_eq. done. }
  destruct (sync_session_frame now pid (set_phase (PEmit [] auto) pl2) r3) as (F1 & F2 & F3 & F4).
  simpl in *. rewrite F1, F2, F3, F4, E1, E2, E3, E4. split_and!; try done.
  rewrite lookup_alter_eq, Hc. by eexists.
Qed.

(** A user's answer to a pending request. *)
Lemma permission_answered (sid pid id : string) (d : option PermissionDecision) (input : Json) (tool : string) (c : Cells)
    (ls : list string) (r : Relay) :
  r_sessions r !! sid = Some (mkRelayHandle pid sid) → r_cells r !! pid = Some c →
  c_permissions c !! id = Some (mkPendingPermission input tool) →
  stdins (r_subprocesses r) !! pid = Some (mkStdin ls true) →
  (handle_permission sid id d r).2 = Ok tt ∧
  stdin_lines pid (handle_permission sid id d r).1 =
    Some (ls ++ [build_permission_response_json id (is_granted (default Deny d)) input]).
Proof.
  intros Hh Hc Hp Hst. unfold handle_permission, get_handle. rewrite Hh. cbn [rh_process_id]. rewrite Hc.
  unfold process_permission_response. rewrite Hp. cbn [pp_input]. cbn zeta.
  unfold send_permission_response, get_active_handle. cbn [r_sessions set_cells]. rewrite Hh.
  unfold relay_stdin. cbn [r_subprocesses set_cells rh_process_id].
  destruct (stdin_send_open pid (build_permission_response_json id (is_granted (default Deny d)) input) ls _ Hst) as [H1 H2].
  destruct (stdin_send pid _ (r_subprocesses r)) as [sub sent]. simpl in *. subst sent. split; [done|].
  unfold stdin_lines. simpl. by rewrite H2, lookup_insert_eq.
Qed.

Lemma permission_processed (plugins : string → list CommandEntry) (sid pid line id tool : string) (input : Json) (c : Cells)
    (ls : list string) (q : list (AgentEvent EventBody)) (r : Relay) (now : Z) :
  ready sid pid c ls q r →
  parse_line line = Ok (MsgControlRequest (mkControlRequest id (CanUseTool tool input))) → tool ≠ "AskUserQuestion" →
  let r' := Nat.iter 4 (pipeline_step now pid) (pipeline_line clock plugins pid line r) in
  match c_grants c !! tool with
  | Some granted =>
      stdin_lines pid r' = Some (ls ++ [build_permission_response_json id granted input]) ∧ r_queues r' !! pid = Some q
  | None =>
      stdin_lines pid r' = Some ls ∧
      (∃ e, r_queues r' !! pid = Some (q ++ [e]) ∧
         eb_event (ev_payload e) =
           Some (EvPermissionRequest id tool (tool_description tool input) (Some (json_to_struct input)))) ∧
      ∀ d, (handle_permission sid id d r').2 = Ok tt ∧
        stdin_lines pid (handle_permission sid id d r').1 =
          Some (ls ++ [build_permission_response_json id (is_granted (default Deny d)) input])
  end.
Proof.
  intros Hr Hp Ht r'. destruct (permission_transferred plugins sid pid line id tool input c ls q r now Hr Hp Ht)
    as (pl & e & r0 & He & Hsid & Hr1 & E1 & E2 & E3 & E4). destruct Hr as [Hh _ Hc Hst Hq].
  subst r'. change (Nat.iter 4 ?f ?x) with (Nat.iter (S 3) f x). rewrite Nat.iter_succ_r.
  set (r1 := pipeline_step now pid (pipeline_line clock plugins pid line r)) in *.
  destruct (c_grants c !! tool) as [granted|] eqn:Hg.
  - destruct (stdin_send_open pid (build_permission_response_json id granted input) ls (r_subprocesses r0)) as [S1 S2];
      [by rewrite E1|].
    destruct (finish_one now pid e ({[id]} ∪ ∅) (set_phase (PTransfer [] [e] ({[id]} ∪ ∅)) pl) r1 c) as (F1 & _ & _ & F4);
      [rewrite Hr1; apply lookup_insert_eq|done|rewrite Hr1; unfold relay_stdin; destruct (stdin_send _ _ _); simpl; by rewrite E2|].
    assert (auto_responded ({[id]} ∪ ∅) e = true) as Ha
      by (unfold auto_responded; rewrite He; apply bool_decide_eq_true; set_solver).
    rewrite Ha in F4. unfold stdin_lines. rewrite F1, F4, Hr1. unfold relay_stdin.
    destruct (stdin_send pid _ (r_subprocesses r0)) as [sub sent]. simpl in *. rewrite S2, lookup_insert_eq, E3. done.
  - destruct (finish_one now pid e ∅ (set_phase (PTransfer [] [e] ∅) pl) r1
      (set_permissions (<[id := mkPendingPermission input tool]> (c_permissions c)) c)) as (F1 & F2 & (n & F3) & F4);
      [rewrite Hr1; apply lookup_insert_eq|done|rewrite Hr1; simpl; by rewrite lookup_alter_eq, E2, Hc|].
    assert (auto_responded ∅ e = false) as Ha
      by (unfold auto_responded; rewrite He; apply bool_decide_eq_false; set_solver).
    rewrite Ha in F4. set (r2 := Nat.iter 3 (pipeline_step now pid) r1) in *. clearbody r2.
    rewrite Hr1 in F1, F2, F4. simpl in F1, F2, F4. rewrite E1 in F1. rewrite E4 in F2. rewrite E3 in F4.
    assert (stdins (r_subprocesses r2) !! pid = Some (mkStdin ls true)) as Hst' by by rewrite F1.
    split_and!; [unfold stdin_lines; by rewrite Hst'|exists e; rewrite F4, lookup_alter_eq, Hq; done|].
    intros d. eapply permission_answered; [by rewrite F2|exact F3|apply lookup_insert_eq|exact Hst'].
Qed.

(** C29: What happens to a permission request of the agent in the relay.  With a
    remembered decision for the tool it is answered at once, with that decision
    and the tool's own input, and no client is asked.  Without one, it is
    handed to all clients of the session, whatever rules there are, and
    whatever the user then decides reaches the agent with the tool's own
    input. *)
Theorem permission_round_trip (plugins : string → list CommandEntry) (sid pid line id tool : string) (input : Json) (c : Cells)
    (ls : list string) (q : list (AgentEvent EventBody)) (r : Relay) (now : Z) :
  ready sid pid c ls q r →
  parse_line line = Ok (MsgControlRequest (mkControlRequest id (CanUseTool tool input))) → tool ≠ "AskUserQuestion" →
  let r' := Nat.iter 4 (pipeline_step now pid) (pipeline_line clock plugins pid line r) in
  match c_grants c !! tool with
  | Some granted =>
      stdin_lines pid r' = Some (ls ++ [build_permission_response_json id granted input]) ∧ r_queues r' !! pid = Some q
  | None =>
      stdin_lines pid r' = Some ls ∧
      (∃ e, r_queues r' !! pid = Some (q ++ [e]) ∧
         eb_event (ev_payload e) =
           Some (EvPermissionRequest id tool (tool_description tool input) (Some (json_to_struct input)))) ∧
      ∀ d, (handle_permission sid id d r').2 = Ok tt ∧
        stdin_lines pid (handle_permission sid id d r').1 =
          Some (ls ++ [build_permission_response_json id (is_granted (default Deny d)) input])
  end.
Proof. apply permission_processed. Qed.

(** An answer to a request that is no longer pending (another client has
    answered it) is sent to the agent as well, and when it allows, with an
    empty input in place of the tool's. *)
Theorem late_answer_empties_input (sid pid id : string) (d : PermissionDecision) (c : Cells) (ls : list string) (r : Relay) :
  r_sessions r !! sid = Some (mkRelayHandle pid sid) → r_cells r !! pid = Some c → c_permissions c !! id = None →
  stdins (r_subprocesses r) !! pid = Some (mkStdin ls true) →
  stdin_lines pid (handle_permission sid id (Some d) r).1 =
    Some (ls ++ [build_permission_response_json id (is_granted d) (JObj [])]).
Proof.
  intros Hh Hc Hp Hst. unfold handle_permission, get_handle. rewrite Hh. cbn [rh_process_id]. rewrite Hc.
  unfold process_permission_response. rewrite Hp. cbn zeta.
  unfold send_permission_response, get_active_handle. cbn [r_sessions set_cells]. rewrite Hh.
  unfold relay_stdin. cbn [r_subprocesses set_cells rh_process_id].
  destruct (stdin_send_open pid (build_permission_response_json id (is_granted d) (JObj [])) ls _ Hst) as [H1 H2].
  simpl. destruct (stdin_send pid _ (r_subprocesses r)) as [sub sent]. simpl in *.
  unfold stdin_lines. simpl. by rewrite H2, lookup_insert_eq.
Qed.

(** * Remembered decisions *)

(** A step that forgets no permission of a process. *)
Definition keeps_grants (pid : string) (r r' : Relay) : Prop :=
  ∀ c, r_cells r !! pid = Some c →
    ∃ c', r_cells r' !! pid = Some c' ∧ ∀ tool, c_grants c !! tool = Some true → c_grants c' !! tool = Some true.

Lemma keeps_same (pid : string) (r r' : Relay) : r_cells r' = r_cells r → keeps_grants pid r r'.
Proof. intros E c Hc. exists c. by rewrite E. Qed.

Lemma keeps_trans (pid : string) (r1 r2 r3 : Relay) :
  keeps_grants pid r1 r2 → keeps_grants pid r2 r3 → keeps_grants pid r1 r3.
Proof. intros H1 H2 c Hc. destruct (H1 c Hc) as (c2 & Hc2 & G2). destruct (H2 c2 Hc2) as (c3 & Hc3 & G3). eauto. Qed.

Lemma keeps_update (pid pid' : string) (f : Cells → Cells) (r : Relay) :
  (pid' = pid → ∀ c tool, c_grants c !! tool = Some true → c_grants (f c) !! tool = Some true) →
  keeps_grants pid r (update_cells pid' f r).
Proof.
  intros Hf c Hc. simpl. destruct (decide (pid' = pid)) as [->|Hne].
  - exists (f c). rewrite lookup_alter_eq, Hc. split; [done|]. intros tool. by apply Hf.
  - exists c. by rewrite lookup_alter_ne.
Qed.

Lemma keeps_stdin (pid pid' sid line : string) (r : Relay) : keeps_grants pid r (relay_stdin pid' sid line r).1.
Proof. apply keeps_same. unfold relay_stdin. by destruct (stdin_send _ _ _). Qed.

Lemma keeps_start (os : SpawnOs) (uuid pid : string) (cfg : RelaySessionConfig) (prompt : option string) (r : Relay) :
  uuid ≠ pid → keeps_grants pid r (start_session os uuid cfg prompt r).1.
Proof.
  intros Hne. unfold start_session, spawn. repeat case_match; simplify_eq/=; try by apply keeps_same.
  intros c Hc. exists c. simpl. by rewrite lookup_insert_ne.
Qed.

Lemma keeps_permission (pid sid id : string) (d : option PermissionDecision) (r : Relay) :
  keeps_grants pid r (handle_permission sid id d r).1.
Proof.
  unfold handle_permission, get_handle. destruct (r_sessions r !! sid) as [h|] eqn:Hh.
  2: { apply keeps_same. simpl. unfold send_permission_response, get_active_handle. by rewrite Hh. }
  destruct (r_cells r !! rh_process_id h) as [c|] eqn:Hc.
  2: { simpl. unfold send_permission_response, get_active_handle. rewrite Hh. apply keeps_stdin. }
  destruct (process_permission_response id (default Deny d) c) as [c' [g i]] eqn:Hp. simpl.
  unfold send_permission_response, get_active_handle. simpl. rewrite Hh.
  eapply keeps_trans; [|apply keeps_stdin]. intros c0 Hc0. simpl. rewrite lookup_insert.
  case_decide as He; [|by exists c0]. subst pid. assert (c0 = c) as -> by congruence. exists c'. split; [done|].
  intros tool Ht. unfold process_permission_response in Hp. destruct (c_permissions c !! id) as [p|]; [|by simplify_eq].
  destruct (decide (default Deny d = AllowSession)); simplify_eq/=; [|done]. apply lookup_insert_Some.
  destruct (decide (pp_tool_name p = tool)); auto.
Qed.

Lemma keeps_question (pid sid id : string) (answers : list (string * string)) (r : Relay) :
  keeps_grants pid r (handle_question sid id answers r).1.
Proof.
  unfold handle_question, get_handle. destruct (r_sessions r !! sid) as [h|] eqn:Hh; simpl;
    unfold send_question_response, get_active_handle; simpl; rewrite Hh; [|by apply keeps_same].
  eapply keeps_trans; [|apply keeps_stdin]. by apply keeps_update.
Qed.

Lemma keeps_cancel (pid : string) (now : Z) (sid : string) (r : Relay) :
  keeps_grants pid r (cancel_session now sid r).1.
Proof. apply keeps_same. unfold cancel_session, terminate. by repeat case_match; simplify_eq/=. Qed.

Lemma keeps_user_message (pid : string) (now : Z) (sid content : string) (agent : option string) (r : Relay) :
  keeps_grants pid r (send_user_message clock now sid content agent r).1.
Proof.
  unfold send_user_message. destruct (get_active_handle sid r) as [h|]; [|by apply keeps_same].
  eapply keeps_trans; [|apply keeps_stdin]. eapply keeps_trans; [|by apply keeps_same]. by apply keeps_update.
Qed.

Lemma keeps_request (env : Env) (pid cid : string) (req : Request) (cv : Converse) (r : Relay) :
  e_uuid env ≠ pid → keeps_grants pid r (handle_agent_request clock env cid req cv r).1.2.
Proof.
  intros Hne. unfold handle_agent_request. destruct req, (cv_session_id cv) as [sid|]; try by apply keeps_same.
  1,2: apply keeps_same; unfold handle_start; by repeat case_match; simplify_eq/=.
  - unfold handle_message, relay_result. destruct (cv_pending_config cv); [by apply keeps_start|apply keeps_user_message].
  - pose proof (keeps_permission pid sid request_id decision r) as H. by destruct (handle_permission sid request_id decision r).
  - pose proof (keeps_question pid sid question_id answers r) as H. by destruct (handle_question sid question_id answers r).
  - apply keeps_cancel.
Qed.

Lemma keeps_pipeline (now : Z) (pid pid' : string) (r : Relay) : keeps_grants pid r (pipeline_step now pid' r).
Proof.
  unfold pipeline_step. destruct (r_pipelines r !! pid') as [pl|]; [|by apply keeps_same].
  destruct (pl_phase pl) as [|todo all auto|todo auto|]; [by apply keeps_same| | |by apply keeps_same].
  - destruct todo as [|e todo]; [by apply keeps_same|]. unfold transfer_event.
    repeat case_match; simplify_eq/=; try (by apply keeps_same); try (by apply (keeps_update pid)).
    eapply keeps_trans; [apply keeps_stdin|by apply keeps_same].
  - destruct todo as [|e todo].
    + destruct (sync_session_frame now pid' pl r) as (_ & _ & _ & F).
      eapply keeps_trans; [by apply (keeps_update pid pid' (set_counter (br_sequence (pl_bridge pl))))|].
      by apply keeps_same.
    + unfold emit_event. destruct (auto_responded auto e); by apply keeps_same.
Qed.

(** The calls that change what is remembered for a session. *)
Definition regrants (sid : string) (op : Op) : Prop :=
  match op with
  | OClearGrants sid' _ | OSetGrant sid' _ _ => sid' = sid
  | _ => False
  end.

(** A process is reached through one session only. *)
Definition only_handle (sid pid : string) (v : View) : Prop :=
  ∀ sid' h, v.1.2 !! sid' = Some h → rh_process_id h = pid → sid' = sid.

Lemma evolution_only_handle (uuid sid pid : string) (v v' : View) :
  evolution uuid v v' → uuid ≠ pid → only_handle sid pid v → only_handle sid pid v'.
Proof.
  intros He Hne Ho. destruct He as [v|P S m s0 Hn|P S m s0 h Hh|P S m s0]; [done|..]; intros sid' h'; simpl.
  - rewrite lookup_insert_Some. intros [[_ <-]|[_ Hh]]; [done|by apply (Ho sid' h')].
  - intros [_ Hh']%lookup_delete_Some. by apply (Ho sid' h').
  - intros [_ Hh']%lookup_delete_Some. by apply (Ho sid' h').
Qed.

Lemma keeps_change (sid pid sid' : string) (f : Cells → Cells) (s : Service) :
  only_handle sid pid (view (sv_relay s)) → sid' ≠ sid →
  keeps_grants pid (sv_relay s) (sv_relay (change_cells sid' f s).1).
Proof.
  intros Ho Hne. unfold change_cells, require_session_handle, get_handle.
  destruct (r_sessions (sv_relay s) !! sid') as [h|] eqn:Hh; [|by apply keeps_same].
  apply keeps_update. intros Hp. destruct Hne. by apply (Ho sid' h).
Qed.

Lemma keeps_step (env : Env) (op : Op) (sid pid : string) (s : Service) :
  e_uuid env ≠ pid → only_handle sid pid (view (sv_relay s)) → ¬ regrants sid op →
  keeps_grants pid (sv_relay s) (sv_relay (step clock env op s)).
Proof.
  intros Hne Ho Hop. destruct op; simpl in *; try by apply keeps_same.
  - unfold converse_request. destruct (sv_streams s !! client_id) as [cv|]; [|by apply keeps_same].
    pose proof (keeps_request env pid client_id req cv (sv_relay s) Hne) as H.
    destruct (handle_agent_request clock env client_id req cv (sv_relay s)) as [[cv' r'] [u|e]]; simpl in *; [done|].
    eapply keeps_trans; [exact H|]. apply keeps_same. unfold converse_end. simpl. rewrite lookup_insert_eq. by case_match.
  - apply keeps_same. unfold converse_end. by repeat case_match.
  - apply keeps_same. unfold pipeline_line. by repeat case_match; simplify_eq/=.
  - apply keeps_pipeline.
  - apply keeps_same. unfold pipeline_close. by repeat case_match; simplify_eq/=.
  - apply keeps_same. unfold forward_step. by repeat case_match.
  - apply keeps_same. unfold svc_compact_session. by repeat case_match; simplify_eq/=.
  - unfold svc_cancel_turn. pose proof (keeps_cancel pid (e_now env) session_id (sv_relay s)) as H.
    by destruct (cancel_session (e_now env) session_id (sv_relay s)).
  - by apply (keeps_change sid).
  - unfold svc_set_session_grant. destruct (decide (tool_name = "")); [by apply keeps_same|]. by apply (keeps_change sid).
  - apply keeps_same. unfold svc_rename_session. by repeat case_match; simplify_eq/=.
  - unfold svc_delete_session. destruct (decide (session_id = "")); [by apply keeps_same|].
    pose proof (keeps_cancel pid (e_now env) session_id (sv_relay s)) as H.
    destruct (delete_session session_id _). done.
Qed.

Lemma run_keeps (trace : list (Env * Op)) (sid pid : string) (s : Service) :
  Forall (λ call, e_uuid call.1 ≠ pid ∧ ¬ regrants sid call.2) trace → only_handle sid pid (view (sv_relay s)) →
  keeps_grants pid (sv_relay s) (sv_relay (run clock trace s)).
Proof.
  revert s. induction trace as [|[env op] trace IH]; intros s; [by intros; apply keeps_same|].
  inversion_clear 1 as [|? ? [Hu Hr] Htr]. intros Ho. simpl in *.
  eapply keeps_trans; [by apply (keeps_step env op sid)|]. apply (IH (step clock env op s)); [done|].
  by eapply evolution_only_handle; [apply step_evolves| |].
Qed.

(** A process that is started for a session begins without grants, whatever
    the one before it was allowed. *)
Lemma restart_forgets_grants (os : SpawnOs) (uuid : string) (cfg : RelaySessionConfig) (prompt : option string) (r r' : Relay) (h : RelayHandle) :
  r_sessions r !! rc_session_id cfg = None → start_session os uuid cfg prompt r = (r', Ok h) →
  ∃ c, r_cells r' !! rh_process_id h = Some c ∧ c_grants c = ∅.
Proof.
  intros Hno. unfold start_session. rewrite Hno. destruct (spawn _ _ _ _) as [sub [pid|e]]; [|done]. intros [= <- <-].
  eexists. split; [apply lookup_insert_eq|done].
Qed.

(** C30: A permission that the user gave for the session lasts as long as the
    process that asked for it is the one of its session: whatever happens in
    between, short of clearing or setting the session's permissions, every
    later request of that process for the tool is allowed at once, with its
    own input, and no client is asked.  A process that is started after it
    begins without permissions. *)
Theorem allowed_for_the_session (trace : list (Env * Op)) (plugins : string → list CommandEntry)
    (sid pid id0 id tool line : string) (input0 input : Json) (c0 c : Cells) (ls : list string)
    (q : list (AgentEvent EventBody)) (s : Service) (now : Z) :
  r_sessions (sv_relay s) !! sid = Some (mkRelayHandle pid sid) → only_handle sid pid (view (sv_relay s)) →
  r_cells (sv_relay s) !! pid = Some c0 → c_permissions c0 !! id0 = Some (mkPendingPermission input0 tool) →
  Forall (λ call, e_uuid call.1 ≠ pid ∧ ¬ regrants sid call.2) trace →
  let s1 := set_relay (handle_permission sid id0 (Some AllowSession) (sv_relay s)).1 s in
  let r := sv_relay (run clock trace s1) in
  ready sid pid c ls q r →
  parse_line line = Ok (MsgControlRequest (mkControlRequest id (CanUseTool tool input))) → tool ≠ "AskUserQuestion" →
  let r' := Nat.iter 4 (pipeline_step now pid) (pipeline_line clock plugins pid line r) in
  stdin_lines pid r' = Some (ls ++ [build_permission_response_json id true input]) ∧ r_queues r' !! pid = Some q ∧
  (∀ os uuid cfg prompt r1 r2 h, r_sessions r1 !! rc_session_id cfg = None → start_session os uuid cfg prompt r1 = (r2, Ok h) →
     ∃ c', r_cells r2 !! rh_process_id h = Some c' ∧ c_grants c' = ∅).
Proof.
  intros Hh Ho Hc0 Hp0 Htr s1 r Hr Hp Ht. assert (∃ c1, r_cells (sv_relay s1) !! pid = Some c1 ∧ c_grants c1 !! tool = Some true)
    as (c1 & Hc1 & Hg1).
  { subst s1. simpl. unfold handle_permission, get_handle. rewrite Hh. cbn [rh_process_id]. rewrite Hc0.
    unfold process_permission_response. rewrite Hp0. simpl. unfold send_permission_response, get_active_handle. simpl.
    rewrite Hh. unfold relay_stdin. destruct (stdin_send _ _ _). simpl. rewrite lookup_insert_eq. eexists. split; [done|].
    apply lookup_insert_eq. }
  destruct (run_keeps trace sid pid s1 Htr) with (c := c1) as (c' & Hc' & Hk); [|done|].
  { subst s1. cbn [sv_relay set_relay]. by rewrite handle_permission_view. }
  assert (c' = c) as -> by (pose proof (rd_cells _ _ _ _ _ _ Hr); subst r; congruence).
  pose proof (permission_processed plugins sid pid line id tool input c ls q r now Hr Hp Ht) as H.
  rewrite (Hk tool Hg1) in H. destruct H as [H1 H2]. split_and!; [exact H1|exact H2|]. intros *. apply restart_forgets_grants.
Qed.

End Correct.

(** * Compaction *)

Section Compaction.
Context {PC : ProstCodec}.

(** The stored numbers of a session are [a + 1 .. a + n]. *)
Definition contiguous (sid : string) (a n : Z) (d : DaemonDb) : Prop :=
  messages_keyed d ∧ ∀ k, is_Some (db_messages d !! (sid, k)) ↔ (a < k ≤ a + n)%Z.

Lemma contiguous_sequences (sid : string) (a : Z) (n : nat) (d : DaemonDb) :
  contiguous sid a (Z.of_nat n) d →
  msg_sequence <$> session_messages sid d ≡ₚ (λ i, (a + 1 + Z.of_nat i)%Z) <$> seq 0 n.
Proof.
  intros [Hk Hc]. apply NoDup_Permutation.
  - by apply session_messages_sequences.
  - apply NoDup_fmap_2; [intros i j; lia|apply NoDup_seq].
  - intros k. rewrite !list_elem_of_fmap. split.
    + intros (m & -> & [k' Hm]%elem_of_session_messages). destruct (Hk _ _ Hm) as [_ ->]. simpl.
      assert (a < k' ≤ a + Z.of_nat n)%Z by (apply Hc; by eexists).
      exists (Z.to_nat (k' - a - 1)). rewrite elem_of_seq. lia.
    + intros (i & -> & Hi%elem_of_seq). destruct (proj2 (Hc (a + 1 + Z.of_nat i)%Z)) as [m Hm]; [lia|].
      exists m. split; [symmetry; apply (Hk _ _ Hm)|]. apply elem_of_session_messages. eauto.
Qed.

Lemma contiguous_count (sid : string) (a : Z) (n : nat) (d : DaemonDb) :
  contiguous sid a (Z.of_nat n) d → count_messages sid d = Z.of_nat n.
Proof.
  intros H%contiguous_sequences%Permutation_length. rewrite !length_fmap, length_seq in H.
  unfold count_messages. by rewrite H.
Qed.

Lemma foldr_max_spec (z : Z) (zs : list Z) : foldr Z.max z zs ∈ z :: zs ∧ ∀ x, x ∈ z :: zs → (x ≤ foldr Z.max z zs)%Z.
Proof.
  induction zs as [|y zs [IH1 IH2]]; simpl.
  - split; [by left|]. intros x ->%list_elem_of_singleton. lia.
  - split.
    + destruct (Z.max_spec y (foldr Z.max z zs)) as [[_ ->]|[_ ->]]; set_solver.
    + intros x Hx. rewrite !elem_of_cons in Hx. destruct Hx as [->|[->|Hx]]; [|lia|].
      * specialize (IH2 z ltac:(by left)). lia.
      * specialize (IH2 x ltac:(by right)). lia.
Qed.

Lemma contiguous_max (sid : string) (a : Z) (n : nat) (d : DaemonDb) :
  0 < n → contiguous sid a (Z.of_nat n) d → max_message_sequence sid d = (a + Z.of_nat n)%Z.
Proof.
  intros Hn Hc%contiguous_sequences. unfold max_message_sequence.
  destruct (msg_sequence <$> session_messages sid d) as [|z zs].
  { apply Permutation_length in Hc. rewrite length_fmap, length_seq in Hc. simpl in Hc. lia. }
  destruct (foldr_max_spec z zs) as [H1 H2]. rewrite Hc in H1. apply list_elem_of_fmap in H1 as (i & Hi & Hs%elem_of_seq).
  assert (a + Z.of_nat n ≤ foldr Z.max z zs)%Z; [|lia]. apply H2. rewrite Hc. apply list_elem_of_fmap.
  exists (n - 1). rewrite elem_of_seq. lia.
Qed.

(** Compacting a session with a gap-free history keeps the most recent half
    of its messages, at least ten of them or all there are, and nothing of any
    other session is touched. *)
Theorem compaction_keeps_recent_half (env : Env) (sid : string) (a : Z) (n : nat) (s : Service) :
  contiguous sid a (Z.of_nat n) (r_db (sv_relay s)) → (0 ≤ a)%Z → (Z.of_nat n < 2 ^ 32)%Z →
  let keep := n `min` ((n / 2) `max` 10) in
  let d := r_db (sv_relay s) in
  let d' := r_db (sv_relay (svc_compact_session env sid s).1) in
  (∀ k, db_messages d' !! (sid, k) =
        if decide (a + Z.of_nat n - Z.of_nat keep < k)%Z then db_messages d !! (sid, k) else None) ∧
  (∀ sid' k, sid' ≠ sid → db_messages d' !! (sid', k) = db_messages d !! (sid', k)) ∧
  messages_before (svc_compact_session env sid s).2 = Z.of_nat n.
Proof.
  intros Hc Ha Hn keep d d'. subst d'. unfold svc_compact_session. fold d. fold d in Hc.
  rewrite (contiguous_count sid a n d Hc).
  assert (wrap_u32 (Z.of_nat n) = Z.of_nat n) as -> by (unfold wrap_u32; rewrite Z.mod_small; lia).
  assert (∀ k, (k ≤ a ∨ a + Z.of_nat n < k)%Z → db_messages d !! (sid, k) = None) as Hout.
  { intros k Hk. destruct (db_messages d !! (sid, k)) eqn:E; [|done].
    assert (a < k ≤ a + Z.of_nat n)%Z by (apply Hc; by eexists). lia. }
  case_decide as H0; [assert (n = 0) as Hn0 by lia|].
  { split_and!; [|done|by rewrite Hn0]. intros k. cbn [fst]. fold d. rewrite Hout by lia. by destruct (decide _). }
  rewrite (contiguous_max sid a n d) by (done || lia).
  replace (Z.min (Z.max (Z.of_nat n / 2) 10) (Z.of_nat n)) with (Z.of_nat keep)
    by (subst keep; rewrite Nat2Z.inj_min, Nat2Z.inj_max, Nat2Z.inj_div; simpl; lia).
  destruct (Z.leb_spec (a + Z.of_nat n - Z.of_nat keep) 0).
  { split_and!; try done. intros k. cbn [fst]. fold d. destruct (decide _); [done|]. apply Hout. lia. }
  simpl. split_and!; [|intros sid' k Hne|done].
  - intros k. case_decide as Hk.
    + destruct (db_messages d !! (sid, k)) eqn:E.
      * apply map_lookup_filter_Some. split; [done|]. simpl. lia.
      * apply map_lookup_filter_None. by left.
    + apply map_lookup_filter_None. right. intros m _. simpl. intros Hx. apply Hx. split; [done|lia].
  - destruct (db_messages d !! (sid', k)) eqn:E.
    + apply map_lookup_filter_Some. split; [done|]. simpl. tauto.
    + apply map_lookup_filter_None. by left.
Qed.

(** Storing the next message extends a gap-free history. *)
Lemma contiguous_insert (now : Z) (sid ty : string) (payload : list Z) (a n : Z) (d : DaemonDb) :
  contiguous sid a n d → (0 ≤ n)%Z → is_Some (db_sessions d !! sid) → ty ∈ message_types →
  contiguous sid a (n + 1) (insert_message now sid (a + n + 1) ty payload d).1 ∧
  db_sessions (insert_message now sid (a + n + 1) ty payload d).1 = db_sessions d.
Proof.
  intros [Hk Hc] Hn Hs Hty.
  destruct (insert_message_appends now sid (a + n + 1) (a + n) ty payload d Hk Hs Hty) as (_ & H1 & _ & H2 & H3).
  { intros k m Hm. assert (a < k ≤ a + n)%Z by (apply Hc; by eexists). lia. }
  { lia. }
  split; [|done]. split; [done|]. intros k. split.
  - intros [m Hm]. apply H3 in Hm as [Hm|[= ->]]; [|lia]. assert (a < k ≤ a + n)%Z by (apply Hc; by eexists). lia.
  - intros Hr. destruct Hs as [row Hs]. unfold insert_message. rewrite decide_False by tauto.
    destruct (db_messages d !! (sid, (a + n + 1)%Z)) as [m|] eqn:E.
    { assert (a < a + n + 1 ≤ a + n)%Z by (apply Hc; by eexists). lia. }
    rewrite Hs. simpl. rewrite lookup_insert. case_decide as Hd; [by eexists|]. apply Hc.
    destruct (decide (k = a + n + 1)%Z); [subst k; done|lia].
Qed.

End Compaction.

(** * Witnesses *)

(** A pool of one place; its process ended by itself. *)
Definition demo_ended : Service :=
  run demo_clock (demo_open "alice" "p1" ++ [(demo_env "", OClose "p1")]) (demo_service 1).

Lemma ended_processes_fill_pool_witness :
  (start_session demo_os "p2" (mkRelayConfig "t" "/w" None None "") (Some "hi") (sv_relay demo_ended)).2 =
    Err (SubprocessFailed (PoolExhausted 1 1)).
Proof.
  destruct (ended_processes_fill_pool demo_clock demo_ended [] ["p1"] demo_os "p2"
    (mkRelayConfig "t" "/w" None None "") (Some "hi")) as (cur & max & H).
  - apply NoDup_singleton.
  - constructor; [|constructor]. split; [vm_compute; done|].
    assert ((view (sv_relay demo_ended)).1.2 = ∅) as -> by (vm_compute; reflexivity).
    intros sid h. by rewrite lookup_empty.
  - vm_compute. lia.
  - constructor.
  - vm_compute. reflexivity.
  - vm_compute in H. injection H as <- <-. vm_compute. reflexivity.
Defined.

Lemma joining_client_message_lost_witness :
  let s := run demo_clock [(demo_env "", OBegin "bob")] demo_started in
  let s' := run demo_clock [(demo_env "b", ORequest "bob" (ReqStart (mkStart "s" "" "/w" "")));
                            (demo_env "c", ORequest "bob" (ReqMessage "stop!" ""))] s in
  stdin_lines "p1" (sv_relay s') = Some [] ∧ r_subprocesses (sv_relay s') = r_subprocesses (sv_relay s).
Proof.
  pose proof (joining_client_message_lost demo_clock (demo_env "b") (demo_env "c") "bob" "s" "" "/w" "" "stop!" ""
    (mkRelayHandle "p1" "s") (run demo_clock [(demo_env "", OBegin "bob")] demo_started)) as H.
  cbn zeta in H. cbn [run foldl step fst snd].
  destruct (converse_request demo_clock (demo_env "c") "bob" (ReqMessage "stop!" "") _) as [s2 res].
  destruct H as (_ & _ & H & _).
  - done.
  - vm_compute. reflexivity.
  - vm_compute. by eexists.
  - vm_compute. reflexivity.
  - vm_compute. reflexivity.
  - split; [|exact H]. unfold stdin_lines. cbn [fst]. rewrite H. vm_compute. reflexivity.
Defined.

(** The first process was cancelled; a second one runs for the session. *)
Definition demo_restarted : Relay :=
  sv_relay (run demo_clock ([(demo_env "", ORequest "alice" (ReqCancel ""))] ++ demo_open "bob" "p2") demo_started).

Lemma old_task_unregisters_new_witness :
  is_active "s" demo_restarted = true ∧ is_active "s" (pipeline_close demo_clock 200 "p1" demo_restarted) = false.
Proof.
  split; [vm_compute; reflexivity|].
  destruct (old_task_unregisters_new demo_clock 200 201 "s" "p1" "hi" None
    (default (mkPipeline "" "" bridge_new 0 false PDone) (r_pipelines demo_restarted !! "p1"))
    (mkRelayHandle "p2" "s") demo_restarted) as [H _]; [vm_compute; reflexivity..|done|exact H].
Defined.

Definition demo_cells : Cells := mkCells 0 ∅ ∅ ∅.

Lemma permission_round_trip_witness :
  let r' := Nat.iter 4 (pipeline_step 101 "p1") (pipeline_line demo_clock (λ _, []) "p1" "bash" (sv_relay demo_started)) in
  stdin_lines "p1" r' = Some [] ∧
  stdin_lines "p1" (handle_permission "s" "req_001" (Some AllowOnce) r').1 =
    Some ["{response:{request_id:'req_001',response:{behavior:'allow',updatedInput:{command:'ls'}},subtype:'success'},type:'control_response'}"].
Proof.
  destruct (permission_round_trip demo_clock (λ _, []) "s" "p1" "bash" "req_001" "Bash" (JObj [("command", JStr "ls")])
    demo_cells [] [] (sv_relay demo_started) 101) as (H1 & _ & H2).
  - split; try (vm_compute; reflexivity). eexists. split; [vm_compute; reflexivity|]. split; reflexivity.
  - vm_compute. reflexivity.
  - done.
  - split; [exact H1|]. destruct (H2 (Some AllowOnce)) as [_ H]. rewrite H. vm_compute. reflexivity.
Defined.

(** The request was answered once. *)
Definition demo_answered : Relay :=
  let r' := Nat.iter 4 (pipeline_step 101 "p1") (pipeline_line demo_clock (λ _, []) "p1" "bash" (sv_relay demo_started)) in
  (handle_permission "s" "req_001" (Some AllowOnce) r').1.

Lemma late_answer_empties_input_witness :
  (last <$> stdin_lines "p1" (handle_permission "s" "req_001" (Some AllowOnce) demo_answered).1) =
    Some (Some "{response:{request_id:'req_001',response:{behavior:'allow',updatedInput:{}},subtype:'success'},type:'control_response'}").
Proof.
  rewrite (late_answer_empties_input "s" "p1" "req_001" AllowOnce (mkCells 1 ∅ ∅ ∅)
    (default [] (stdin_lines "p1" demo_answered)) demo_answered); vm_compute; reflexivity.
Defined.

Definition demo_pending : Service :=
  set_relay (Nat.iter 4 (pipeline_step 101 "p1") (pipeline_line demo_clock (λ _, []) "p1" "bash" (sv_relay demo_started)))
    demo_started.

Lemma allowed_for_the_session_witness :
  let s1 := set_relay (handle_permission "s" "req_001" (Some AllowSession) (sv_relay demo_pending)).1 demo_pending in
  let r := sv_relay (run demo_clock [(demo_env "", OLine "p1" "junk")] s1) in
  let r' := Nat.iter 4 (pipeline_step 102 "p1") (pipeline_line demo_clock (λ _, []) "p1" "bash" r) in
  length <$> stdin_lines "p1" r' = Some 2 ∧ length <$> r_queues r' !! "p1" = Some 1.
Proof.
  cbn zeta.
  destruct (allowed_for_the_session demo_clock [(demo_env "", OLine "p1" "junk")] (λ _, []) "s" "p1" "req_001" "req_001"
    "Bash" "bash" (JObj [("command", JStr "ls")]) (JObj [("command", JStr "ls")])
    (default demo_cells (r_cells (sv_relay demo_pending) !! "p1"))
    (mkCells 1 ∅ ∅ {["Bash" := true]})
    (default [] (stdin_lines "p1" (handle_permission "s" "req_001" (Some AllowSession) (sv_relay demo_pending)).1))
    (default [] (r_queues (sv_relay demo_pending) !! "p1")) demo_pending 102) as (H1 & H2 & _).
  - vm_compute. reflexivity.
  - assert ((view (sv_relay demo_pending)).1.2 = {["s" := mkRelayHandle "p1" "s"]}) as Hv by (vm_compute; reflexivity).
    intros sid h. rewrite Hv. intros [<- _]%lookup_singleton_Some. done.
  - vm_compute. reflexivity.
  - vm_compute. reflexivity.
  - repeat constructor; [done|]. intros [].
  - split; try (vm_compute; reflexivity). eexists. split; [vm_compute; reflexivity|]. split; reflexivity.
  - vm_compute. reflexivity.
  - done.
  - split; [etrans; [exact (f_equal (fmap length) H1)|vm_compute; reflexivity]|].
    etrans; [exact (f_equal (fmap length) H2)|vm_compute; reflexivity].
Defined.

Fixpoint demo_fill (n : nat) : DaemonDb :=
  match n with
  | 0 => (create_session 100 "s" "m" "/w" empty_db).1
  | S n => (insert_message 101 "s" (0 + Z.of_nat n + 1) "result" [] (demo_fill n)).1
  end.

Lemma demo_fill_contiguous (n : nat) :
  contiguous "s" 0 (Z.of_nat n) (demo_fill n) ∧ is_Some (db_sessions (demo_fill n) !! "s").
Proof.
  induction n as [|n [IH1 IH2]].
  - split; [|by eexists]. assert (db_messages (demo_fill 0) = ∅) as E by reflexivity.
    split; [intros k m; by rewrite E, lookup_empty|]. intros k. rewrite E, lookup_empty. split; [by intros []|lia].
  - destruct (contiguous_insert 101 "s" "result" [] 0 (Z.of_nat n) (demo_fill n)) as [H1 H2]; [done|lia|done| |].
    { by apply (bool_decide_unpack _). }
    cbn [demo_fill]. rewrite Nat2Z.inj_succ. split; [exact H1|]. by rewrite H2.
Qed.

Lemma compaction_keeps_recent_half_witness :
  let s := set_relay (set_relay_db (demo_fill 30) (sv_relay (demo_service 1))) (demo_service 1) in
  let d' := r_db (sv_relay (svc_compact_session (demo_env "") "s" s).1) in
  db_messages d' !! ("s", 15%Z) = None ∧ is_Some (db_messages d' !! ("s", 16%Z)).
Proof.
  cbn zeta.
  destruct (compaction_keeps_recent_half (demo_env "") "s" 0 30
    (set_relay (set_relay_db (demo_fill 30) (sv_relay (demo_service 1))) (demo_service 1))) as [H _].
  - apply demo_fill_contiguous.
  - done.
  - done.
  - split; rewrite H; vm_compute; [reflexivity|by eexists].
Defined.
