(* ===== verification/AgentProtocol.v ===== *)
(** The messages of the agent service that travel through a tunnel.

    The types are generated from the protocol definitions; the fields are
    those that crates/betcode-daemon/src/tunnel/handler.rs,
    crates/betcode-relay/src/server/agent_proxy.rs and
    crates/betcode-cli/src/connection.rs read and write.  [AgentProtocol]
    collects their codecs. *)
From stdpp Require Import gmap strings list countable.
From Stdlib Require Import ZArith SpecFloat.
From S2P Require Import Prelude Multiplexer EventBridge Encodings SessionRelay EventCodec AgentService.

Record ListSessionsRequest := mkListSessions {
  lq_working_directory : string;
  lq_limit : nat;
  lq_offset : nat
}.

Record ListSessionsResponse := mkSessionList {
  lr_sessions : list SessionSummary;
  lr_total : Z
}.

Record CompactSessionRequest := mkCompactSession { cq_session_id : string }.

Record CancelTurnRequest := mkCancelTurn { xq_session_id : string }.

Record CancelTurnResponse := mkCancelled { xr_was_active : bool }.

Record InputLockRequest := mkInputLock { iq_session_id : string }.

Record InputLockResponse := mkLocked {
  ir_granted : bool;
  ir_previous_holder : string
}.

Record ListSessionGrantsRequest := mkListGrants { gq_session_id : string }.

Record ListSessionGrantsResponse := mkGrants { gr_grants : list (string * bool) }.

Record ClearSessionGrantsRequest := mkClearGrants {
  kq_session_id : string;
  kq_tool_name : string
}.

Record SetSessionGrantRequest := mkSetGrant {
  sq_session_id : string;
  sq_tool_name : string;
  sq_granted : bool
}.

Record RenameSessionRequest := mkRename {
  nq_session_id : string;
  nq_name : string
}.

Record DeleteSessionRequest := mkDelete { dq_session_id : string }.

Record DeleteSessionResponse := mkDeleted { dr_deleted : bool }.

Record ResumeSessionRequest := mkResume {
  rq_session_id : string;
  rq_from_sequence : Z
}.

Record KeyExchangeRequest := mkKeyRequest {
  kx_machine_id : string;
  kx_identity_pubkey : list Z;
  kx_fingerprint : string;
  kx_ephemeral_pubkey : list Z
}.

Record KeyExchangeResponse := mkKeyResponse {
  kx_daemon_identity_pubkey : list Z;
  kx_daemon_fingerprint : string;
  kx_daemon_ephemeral_pubkey : list Z
}.

(** A response without fields. *)
Inductive EmptyMessage := mkEmptyMessage.

(** The codecs.  [Request] is the [AgentRequest] of a conversation. *)
Class AgentProtocol := {
  ap_agent_request :: ProtoMessage Request;
  ap_list_sessions :: ProtoMessage ListSessionsRequest;
  ap_session_list :: ProtoMessage ListSessionsResponse;
  ap_compact_session :: ProtoMessage CompactSessionRequest;
  ap_compacted :: ProtoMessage CompactResponse;
  ap_cancel_turn :: ProtoMessage CancelTurnRequest;
  ap_cancelled :: ProtoMessage CancelTurnResponse;
  ap_input_lock :: ProtoMessage InputLockRequest;
  ap_locked :: ProtoMessage InputLockResponse;
  ap_list_grants :: ProtoMessage ListSessionGrantsRequest;
  ap_grants :: ProtoMessage ListSessionGrantsResponse;
  ap_clear_grants :: ProtoMessage ClearSessionGrantsRequest;
  ap_set_grant :: ProtoMessage SetSessionGrantRequest;
  ap_rename :: ProtoMessage RenameSessionRequest;
  ap_delete :: ProtoMessage DeleteSessionRequest;
  ap_deleted :: ProtoMessage DeleteSessionResponse;
  ap_resume :: ProtoMessage ResumeSessionRequest;
  ap_key_request :: ProtoMessage KeyExchangeRequest;
  ap_key_response :: ProtoMessage KeyExchangeResponse;
  ap_empty :: ProtoMessage EmptyMessage
}.

(** * A concrete protocol *)

(** A codec through a type that is countable. *)
Program Definition coded_message {A C : Type} `{Countable C} (f : A → C) (g : C → A) (Hfg : ∀ a, g (f a) = a)
  : ProtoMessage A := {|
  m_encode a := positive_bytes (encode (f a));
  m_decode l := match decode (bytes_positive l) with Some c => Ok (g c) | None => Err "malformed" end
|}.
Next Obligation. intros. apply positive_bytes_bytes. Qed.
Next Obligation. intros A C ? ? f g Hfg a. simpl. by rewrite bytes_positive_bytes, decode_encode, Hfg. Qed.

Definition decision_code (d : PermissionDecision) : nat :=
  match d with
  | AllowOnce => 0 | AllowSession => 1 | AllowWithEdit => 2 | Deny => 3
  | DenyNoInterrupt => 4 | DenyWithInterrupt => 5 | Unspecified => 6
  end.
Definition code_decision (n : nat) : PermissionDecision :=
  match n with
  | 0 => AllowOnce | 1 => AllowSession | 2 => AllowWithEdit | 3 => Deny
  | 4 => DenyNoInterrupt | 5 => DenyWithInterrupt | _ => Unspecified
  end.

Definition RequestCode : Type :=
  (string * string * string * string + string * string) + (string * option nat * option Tree * string + string * list (string * string)) +
  (string + list Z * list Z) + unit.

Definition request_code (r : Request) : RequestCode :=
  match r with
  | ReqStart (mkStart a b c d) => inl (inl (inl (inl (a, b, c, d))))
  | ReqMessage a b => inl (inl (inl (inr (a, b))))
  | ReqPermission a d u m => inl (inl (inr (inl (a, decision_code <$> d, tfields <$> u, m))))
  | ReqQuestionResponse a l => inl (inl (inr (inr (a, l))))
  | ReqCancel a => inl (inr (inl a))
  | ReqEncrypted c n => inl (inr (inr (c, n)))
  | ReqEmpty => inr tt
  end.

Definition code_request (c : RequestCode) : Request :=
  match c with
  | inl (inl (inl (inl (a, b, c, d)))) => ReqStart (mkStart a b c d)
  | inl (inl (inl (inr (a, b)))) => ReqMessage a b
  | inl (inl (inr (inl (a, d, u, m)))) => ReqPermission a (code_decision <$> d) (ufields <$> u) m
  | inl (inl (inr (inr (a, l)))) => ReqQuestionResponse a l
  | inl (inr (inl a)) => ReqCancel a
  | inl (inr (inr (c, n))) => ReqEncrypted c n
  | inr _ => ReqEmpty
  end.

Lemma code_request_code (r : Request) : code_request (request_code r) = r.
Proof.
  destruct r as [[]| |a d u m| | | |]; try reflexivity. destruct d as [[]|], u; simpl; by rewrite ?ufields_tfields.
Qed.

Definition summary_code (s : SessionSummary) : list string * list Z * spec_float * list Z :=
  match s with
  | mkSummary a b c d e n i o cost cr up p nm =>
      ([a; b; c; d; e; p; nm], [n; i; o], cost, [cr.1; cr.2; up.1; up.2])
  end.
Definition code_summary (c : list string * list Z * spec_float * list Z) : SessionSummary :=
  match c with
  | ([a; b; c; d; e; p; nm], [n; i; o], cost, [c1; c2; u1; u2]) => mkSummary a b c d e n i o cost (c1, c2) (u1, u2) p nm
  | _ => mkSummary "" "" "" "" "" 0 0 0 S754_nan (0, 0)%Z (0, 0)%Z "" ""
  end.
Lemma code_summary_code (s : SessionSummary) : code_summary (summary_code s) = s.
Proof. destruct s as [? ? ? ? ? ? ? ? ? [] [] ? ?]. reflexivity. Qed.

Lemma code_summaries (l : list SessionSummary) : code_summary <$> (summary_code <$> l) = l.
Proof. induction l as [|s l IH]; csimpl; [done|]. by rewrite code_summary_code, IH. Qed.

#[export] Instance demo_protocol : AgentProtocol.
Proof.
  refine {| ap_agent_request := coded_message request_code code_request code_request_code;
            ap_list_sessions := coded_message (λ r, (lq_working_directory r, lq_limit r, lq_offset r))
                                  (λ c, mkListSessions c.1.1 c.1.2 c.2) _;
            ap_session_list := coded_message (λ r, (summary_code <$> lr_sessions r, lr_total r))
                                 (λ c, mkSessionList (code_summary <$> c.1) c.2) _;
            ap_compact_session := coded_message cq_session_id mkCompactSession _;
            ap_compacted := coded_message (λ r, (messages_before r, messages_after r, tokens_saved r))
                              (λ c, mkCompact c.1.1 c.1.2 c.2) _;
            ap_cancel_turn := coded_message xq_session_id mkCancelTurn _;
            ap_cancelled := coded_message xr_was_active mkCancelled _;
            ap_input_lock := coded_message iq_session_id mkInputLock _;
            ap_locked := coded_message (λ r, (ir_granted r, ir_previous_holder r)) (λ c, mkLocked c.1 c.2) _;
            ap_list_grants := coded_message gq_session_id mkListGrants _;
            ap_grants := coded_message gr_grants mkGrants _;
            ap_clear_grants := coded_message (λ r, (kq_session_id r, kq_tool_name r)) (λ c, mkClearGrants c.1 c.2) _;
            ap_set_grant := coded_message (λ r, (sq_session_id r, sq_tool_name r, sq_granted r))
                              (λ c, mkSetGrant c.1.1 c.1.2 c.2) _;
            ap_rename := coded_message (λ r, (nq_session_id r, nq_name r)) (λ c, mkRename c.1 c.2) _;
            ap_delete := coded_message dq_session_id mkDelete _;
            ap_deleted := coded_message dr_deleted mkDeleted _;
            ap_resume := coded_message (λ r, (rq_session_id r, rq_from_sequence r)) (λ c, mkResume c.1 c.2) _;
            ap_key_request := coded_message (λ r, (kx_machine_id r, kx_identity_pubkey r, kx_fingerprint r, kx_ephemeral_pubkey r))
                                (λ c, mkKeyRequest c.1.1.1 c.1.1.2 c.1.2 c.2) _;
            ap_key_response := coded_message (λ r, (kx_daemon_identity_pubkey r, kx_daemon_fingerprint r, kx_daemon_ephemeral_pubkey r))
                                 (λ c, mkKeyResponse c.1.1 c.1.2 c.2) _;
            ap_empty := coded_message (λ _, tt) (λ _, mkEmptyMessage) _ |};
    try (by intros []).
  intros [l t]. simpl. by rewrite code_summaries.
Defined.
