(* ===== verification/TunnelHandler.v ===== *)
(** The daemon's end of a tunnel: requests that the relay forwards are
    dispatched to the local services, conversations and replays answer with
    streams of frames, and clients encrypt end to end.

    Models crates/betcode-daemon/src/tunnel/handler.rs, on [AgentService],
    [CryptoSession] and [Multiplexer].

    The sessions of the encryption are shared objects in the code ([Arc]): a
    conversation keeps the one that was installed when it began.  They live
    in a heap, [th_sessions], and are named by their place in it.  A task that
    streams frames is a value of [Task]; a step of it is one iteration of its
    loop.  The handling of one frame is one step.  [th_outbound] is what was
    put into the channel to the relay, in order; waiting for room in it only
    delays.  The services other than the agent's are behind the interface
    [LocalServices].  A frame type that the code does not name is unknown. *)
From stdpp Require Import gmap strings list pretty.
From Stdlib Require Import ZArith SpecFloat Lia.
From S2P Require Import Prelude Protocol Json Ndjson Commands Multiplexer EventBridge SessionStore.
From S2P Require Import CryptoSession Fingerprint Encodings SessionRelay EventCodec AgentService AgentProtocol.

(** * The other services *)

Inductive ServiceName := CommandSvc | GitLabSvc | RepoSvc | WorktreeSvc | ConfigSvc | VersionSvc | SubagentSvc.

Inductive RpcOutcome (A : Type) :=
| RpcMalformed (e : string)
| RpcFailed (s : Status)
| RpcAnswer (a : A).
Arguments RpcMalformed {A} _.
Arguments RpcFailed {A} _.
Arguments RpcAnswer {A} _.

(** What the handler needs of the services it dispatches to: a call takes the
    encoded request and answers with the encoded response; a streaming call
    opens a stream. *)
Class LocalServices := {
  ls_state : Type;
  ls_unary : Method → list Z → ls_state → ls_state * RpcOutcome (list Z);
  ls_open : Method → list Z → ls_state → ls_state * RpcOutcome unit
}.

(** * State *)

Record ActiveStream := mkActive {
  as_session_id : string;
  as_pending_config : option RelaySessionConfig
}.

Record Forwarder := mkForwarder {
  fw_request_id : string;
  fw_session_id : string;
  fw_client_id : string;
  fw_event_rx : nat * nat;
  fw_crypto : option nat;
  fw_relay_forwarded : bool;
  fw_seq : Z
}.

Record Replay := mkReplay {
  rp_request_id : string;
  rp_messages : list MessageRow;
  rp_crypto : option nat;
  rp_relay_forwarded : bool;
  rp_seq : Z
}.

Record ServiceStream := mkServiceStream {
  ss_request_id : string;
  ss_crypto : option nat;
  ss_seq : Z
}.

Inductive Task :=
| TForward (f : Forwarder)
| TReplay (p : Replay)
| TService (s : ServiceStream).

(** What the world answers while a frame is handled. *)
Record TunnelEnv := mkTunnelEnv {
  te_env : Env;
  te_client_uuid : string;
  te_secret : list Z;      (** the ephemeral secret of a key exchange *)
  te_prefix : list Z       (** the nonce prefix of a new session *)
}.

Definition crypto_error_text (e : CryptoError) : string :=
  match e with
  | EncryptionFailed m => "Encryption failed: " +:+ m
  | DecryptionFailed m => "Decryption failed: " +:+ m
  | InvalidKeyLength e a => "Invalid key length: expected " +:+ pretty e +:+ ", got " +:+ pretty a
  | InvalidNonceLength e a => "Invalid nonce length: expected " +:+ pretty e +:+ ", got " +:+ pretty a
  | KeyDerivationFailed m => "Key derivation failed: " +:+ m
  | SerializationError m => "Serialization error: " +:+ m
  | NonceExhausted => "Nonce counter exhausted — session must be rekeyed"
  | IoError m => "IO error: " +:+ m
  end.

Definition generate_tunnel_client_id (uuid : string) : string := "tunnel-" +:+ uuid.

Definition X25519_PUBKEY_LEN : nat := 32.

Section Handler.
Context {DT : DebugText} {JT : JsonText} {JW : JsonWrite} {PC : ProstCodec} {ST : SqlText}.
Context {HI : HashIter} {SO : SqlOrder}.
Context {PR : Primitives} {SH : Sha256} {AP : AgentProtocol} {LS : LocalServices}.
Context (clock : Z → Timestamp).

Record Handler := mkHandler {
  th_service : Service;
  th_streams : gmap string ActiveStream;
  th_crypto : option nat;
  th_sessions : list CryptoSession;
  th_identity : option IdentityKeyPair;
  th_outbound : list TunnelFrame;
  th_open : bool;
  th_tasks : gmap nat Task;
  th_next : nat;
  th_available : ServiceName → bool;
  th_local : ls_state
}.

Definition handler_new (s : Service) (id : option IdentityKeyPair) (available : ServiceName → bool) (l : ls_state) : Handler :=
  mkHandler s ∅ None [] id [] true ∅ 0 available l.

Definition set_service (s : Service) (h : Handler) : Handler :=
  mkHandler s (th_streams h) (th_crypto h) (th_sessions h) (th_identity h) (th_outbound h) (th_open h) (th_tasks h)
    (th_next h) (th_available h) (th_local h).
Definition set_streams (x : gmap string ActiveStream) (h : Handler) : Handler :=
  mkHandler (th_service h) x (th_crypto h) (th_sessions h) (th_identity h) (th_outbound h) (th_open h) (th_tasks h)
    (th_next h) (th_available h) (th_local h).
Definition set_crypto (c : option nat) (ss : list CryptoSession) (h : Handler) : Handler :=
  mkHandler (th_service h) (th_streams h) c ss (th_identity h) (th_outbound h) (th_open h) (th_tasks h)
    (th_next h) (th_available h) (th_local h).
Definition set_tasks (ts : gmap nat Task) (h : Handler) : Handler :=
  mkHandler (th_service h) (th_streams h) (th_crypto h) (th_sessions h) (th_identity h) (th_outbound h) (th_open h) ts
    (th_next h) (th_available h) (th_local h).
Definition set_local (l : ls_state) (h : Handler) : Handler :=
  mkHandler (th_service h) (th_streams h) (th_crypto h) (th_sessions h) (th_identity h) (th_outbound h) (th_open h) (th_tasks h)
    (th_next h) (th_available h) l.
Definition set_node (r : Relay) (h : Handler) : Handler := set_service (set_relay r (th_service h)) h.
Definition th_relay (h : Handler) : Relay := sv_relay (th_service h).

(** [outbound_tx.send(frame)]; the frame is lost when the channel is closed. *)
Definition send_out (f : TunnelFrame) (h : Handler) : Handler :=
  if th_open h then
    mkHandler (th_service h) (th_streams h) (th_crypto h) (th_sessions h) (th_identity h) (th_outbound h ++ [f]) true (th_tasks h)
      (th_next h) (th_available h) (th_local h)
  else h.

Definition spawn_task (t : Task) (h : Handler) : Handler :=
  mkHandler (th_service h) (th_streams h) (th_crypto h) (th_sessions h) (th_identity h) (th_outbound h) (th_open h)
    (<[th_next h := t]> (th_tasks h)) (S (th_next h)) (th_available h) (th_local h).

(** * Frames and encryption *)

Definition error_response (now : Z) (rid : string) (c : TunnelErrorCode) (text : string) : TunnelFrame :=
  mkFrame rid FtError now (Some (ErrorPayload c text)).

Definition decode_error (now : Z) (rid e : string) : TunnelFrame :=
  error_response now rid TunnelInternal ("Decode error: " +:+ e).

(** Encryption with a session of the heap, which counts it. *)
Definition encrypt_with (k : nat) (data : list Z) (h : Handler) : Handler * result CryptoError EncryptedData :=
  match th_sessions h !! k with
  | None => (h, Err (EncryptionFailed EmptyString))
  | Some s => let '(s', r) := encrypt data s in
              (set_crypto (th_crypto h) (<[k := s']> (th_sessions h)) h, r)
  end.

Definition make_encrypted_payload (crypto : option nat) (data : list Z) (h : Handler)
  : Handler * result string EncryptedPayload :=
  match crypto with
  | Some k =>
      let '(h', r) := encrypt_with k data h in
      (h', match r with
           | Ok e => Ok (mkEncryptedPayload (ciphertext e) (enc_nonce e) [])
           | Err e => Err ("Encryption failed: " +:+ crypto_error_text e)
           end)
  | None => (h, Ok (mkEncryptedPayload data [] []))
  end.

Definition decrypt_payload (enc : EncryptedPayload) (h : Handler) : result string (list Z) :=
  if decide (ep_nonce enc = []) then Ok (ep_ciphertext enc)
  else match th_crypto h ≫= (λ k, th_sessions h !! k) with
       | None => Ok (ep_ciphertext enc)
       | Some s => map_err (λ e, "decryption failed: " +:+ crypto_error_text e) (decrypt s (ep_ciphertext enc) (ep_nonce enc))
       end.

Definition payload_frame (now : Z) (rid : string) (ft : FrameType) (enc : EncryptedPayload) (seq : Z) : TunnelFrame :=
  mkFrame rid ft now (Some (StreamData (mkStreamPayload EmptyString (Some enc) seq ∅))).

Definition stream_end (now : Z) (rid : string) : TunnelFrame := mkFrame rid FtStreamEnd now None.

Definition response_frame (now : Z) (rid : string) (buf : list Z) (h : Handler) : Handler * result string TunnelFrame :=
  let '(h', r) := make_encrypted_payload (th_crypto h) buf h in
  (h', let? enc := r in Ok (payload_frame now rid FtResponse enc 0)).

Definition plaintext_response_frame (now : Z) (rid : string) (buf : list Z) : TunnelFrame :=
  payload_frame now rid FtResponse (mkEncryptedPayload buf [] []) 0.

(** [unary_response_frame] for an already encoded response. *)
Definition unary_bytes_frame (now : Z) (rid : string) (buf : list Z) (relay_forwarded : bool) (h : Handler)
  : Handler * TunnelFrame :=
  if relay_forwarded then (h, plaintext_response_frame now rid buf)
  else match response_frame now rid buf h with
       | (h', Ok f) => (h', f)
       | (h', Err e) => (h', error_response now rid TunnelInternal e)
       end.

Definition unary_response_frame {M : Type} `{ProtoMessage M} (now : Z) (rid : string) (msg : M) (relay_forwarded : bool)
    (h : Handler) : Handler * list TunnelFrame :=
  let '(h', f) := unary_bytes_frame now rid (m_encode msg) relay_forwarded h in (h', [f]).

(** * Calls of the agent service *)

Definition now_of (env : TunnelEnv) : Z := e_now (te_env env).

(** A handler decodes its request and goes on, or answers with an error. *)
Definition with_request {M : Type} `{ProtoMessage M} (env : TunnelEnv) (rid : string) (data : list Z) (h : Handler)
    (k : M → Handler * list TunnelFrame) : Handler * list TunnelFrame :=
  match m_decode data with
  | Ok req => k req
  | Err e => (h, [decode_error (now_of env) rid e])
  end.

Definition handle_list_sessions (env : TunnelEnv) (rid : string) (data : list Z) (rf : bool) (h : Handler)
  : Handler * list TunnelFrame :=
  with_request env rid data h (λ req : ListSessionsRequest,
    let working_dir := if decide (lq_working_directory req = EmptyString) then None else Some (lq_working_directory req) in
    let limit := if decide (lq_limit req = 0) then 50 else lq_limit req in
    let summaries := session_summary <$> list_sessions working_dir limit (lq_offset req) (r_db (th_relay h)) in
    unary_response_frame (now_of env) rid (mkSessionList summaries (wrap_u32 (Z.of_nat (length summaries)))) rf h).

Definition handle_compact_session (env : TunnelEnv) (rid : string) (data : list Z) (rf : bool) (h : Handler)
  : Handler * list TunnelFrame :=
  with_request env rid data h (λ req : CompactSessionRequest,
    let sid := cq_session_id req in
    let d := r_db (th_relay h) in
    let before := wrap_u32 (count_messages sid d) in
    if decide (before = 0%Z) then unary_response_frame (now_of env) rid (mkCompact 0 0 0) rf h
    else
      let keep_count := Z.min (Z.max (before / 2) 10) before in
      let cutoff := (max_message_sequence sid d - keep_count)%Z in
      if (cutoff <=? 0)%Z then unary_response_frame (now_of env) rid (mkCompact before before 0) rf h
      else
        let '(d1, deleted) := delete_messages_before_sequence sid cutoff d in
        let d2 := update_compaction_sequence (now_of env) sid cutoff d1 in
        unary_response_frame (now_of env) rid
          (mkCompact before (wrap_u32 (before - wrap_u32 deleted)) (wrap_u32 (wrap_u32 deleted * 100))) rf
          (set_node (set_relay_db d2 (th_relay h)) h)).

Definition handle_cancel_turn (env : TunnelEnv) (rid : string) (data : list Z) (rf : bool) (h : Handler)
  : Handler * list TunnelFrame :=
  with_request env rid data h (λ req : CancelTurnRequest,
    let '(r, res) := cancel_session (now_of env) (xq_session_id req) (th_relay h) in
    unary_response_frame (now_of env) rid (mkCancelled (match res with Ok b => b | Err _ => false end)) rf (set_node r h)).

Definition handle_request_input_lock (env : TunnelEnv) (rid : string) (data : list Z) (rf : bool) (h : Handler)
  : Handler * list TunnelFrame :=
  with_request env rid data h (λ req : InputLockRequest,
    let client_id := generate_tunnel_client_id (te_client_uuid env) in
    let '(d, previous) := acquire_input_lock (now_of env) (iq_session_id req) client_id (r_db (th_relay h)) in
    unary_response_frame (now_of env) rid (mkLocked true (default EmptyString previous)) rf
      (set_node (set_relay_db d (th_relay h)) h)).

Definition not_active (env : TunnelEnv) (rid sid : string) : TunnelFrame :=
  error_response (now_of env) rid TunnelNotFound ("Session " +:+ sid +:+ " not active").

Definition handle_list_session_grants (env : TunnelEnv) (rid : string) (data : list Z) (rf : bool) (h : Handler)
  : Handler * list TunnelFrame :=
  with_request env rid data h (λ req : ListSessionGrantsRequest,
    match get_handle (gq_session_id req) (th_relay h) with
    | None => (h, [not_active env rid (gq_session_id req)])
    | Some hd =>
        let entries := default [] (list_grants <$> r_cells (th_relay h) !! rh_process_id hd) in
        unary_response_frame (now_of env) rid (mkGrants entries) rf h
    end).

Definition handle_clear_session_grants (env : TunnelEnv) (rid : string) (data : list Z) (rf : bool) (h : Handler)
  : Handler * list TunnelFrame :=
  with_request env rid data h (λ req : ClearSessionGrantsRequest,
    match get_handle (kq_session_id req) (th_relay h) with
    | None => (h, [not_active env rid (kq_session_id req)])
    | Some hd =>
        unary_response_frame (now_of env) rid mkEmptyMessage rf
          (set_node (update_cells (rh_process_id hd) (clear_grants (kq_tool_name req)) (th_relay h)) h)
    end).

Definition handle_set_session_grant (env : TunnelEnv) (rid : string) (data : list Z) (rf : bool) (h : Handler)
  : Handler * list TunnelFrame :=
  with_request env rid data h (λ req : SetSessionGrantRequest,
    if decide (sq_tool_name req = EmptyString) then
      (h, [error_response (now_of env) rid TunnelInvalidArgument "tool_name must not be empty"])
    else match get_handle (sq_session_id req) (th_relay h) with
    | None => (h, [not_active env rid (sq_session_id req)])
    | Some hd =>
        unary_response_frame (now_of env) rid mkEmptyMessage rf
          (set_node (update_cells (rh_process_id hd) (set_grant (sq_tool_name req) (sq_granted req)) (th_relay h)) h)
    end).

Definition handle_rename_session (env : TunnelEnv) (rid : string) (data : list Z) (rf : bool) (h : Handler)
  : Handler * list TunnelFrame :=
  with_request env rid data h (λ req : RenameSessionRequest,
    match update_session_name (now_of env) (nq_session_id req) (nq_name req) (r_db (th_relay h)) with
    | (d, Ok _) => unary_response_frame (now_of env) rid mkEmptyMessage rf (set_node (set_relay_db d (th_relay h)) h)
    | (_, Err (NotFound _)) =>
        (h, [error_response (now_of env) rid TunnelNotFound ("Session " +:+ nq_session_id req +:+ " not found")])
    | (_, Err e) => (h, [error_response (now_of env) rid TunnelInternal ("RenameSession failed: " +:+ database_error_text e)])
    end).

Definition handle_delete_session (env : TunnelEnv) (rid : string) (data : list Z) (rf : bool) (h : Handler)
  : Handler * list TunnelFrame :=
  with_request env rid data h (λ req : DeleteSessionRequest,
    let r := (cancel_session (now_of env) (dq_session_id req) (th_relay h)).1 in
    let '(d, deleted) := delete_session (dq_session_id req) (r_db r) in
    unary_response_frame (now_of env) rid (mkDeleted deleted) rf (set_node (set_relay_db d r) h)).

(** * Key exchange *)

Definition identity_pair (id : option IdentityKeyPair) : option (bytes * bytes) :=
  (λ kp, (id_secret kp, id_public kp)) <$> id.

(** A new session replaces the one in use, and is kept under a new name. *)
Definition handle_exchange_keys (env : TunnelEnv) (rid : string) (data : list Z) (h : Handler)
  : Handler * list TunnelFrame :=
  let fail text := (h, [error_response (now_of env) rid TunnelInternal text]) in
  match m_decode data with
  | Err _ => fail "Invalid key exchange request"
  | Ok req =>
      if decide (length (kx_ephemeral_pubkey req) = X25519_PUBKEY_LEN) then
        if decide (kx_identity_pubkey req ≠ [] ∧ length (kx_identity_pubkey req) ≠ X25519_PUBKEY_LEN)
        then fail "Invalid identity public key length"
        else
          let state := with_identity_opt (te_secret env) (identity_pair (th_identity h)) in
          match complete (te_prefix env) state (kx_ephemeral_pubkey req) with
          | Err _ => fail "Key exchange failed"
          | Ok session =>
              let h' := set_crypto (Some (length (th_sessions h))) (th_sessions h ++ [session]) h in
              let response := mkKeyResponse
                (default [] (id_public <$> th_identity h))
                (default EmptyString ((λ kp, fingerprint_of (id_public kp)) <$> th_identity h))
                (public_bytes state) in
              (h', [plaintext_response_frame (now_of env) rid (m_encode response)])
          end
      else fail "Invalid ephemeral public key length"
  end.

(** * Conversations *)

Inductive Opened :=
| OpenedRequest (req : Request)
| OpenFailed        (** the envelope does not open *)
| OpenMalformed     (** what it held is not a request *)
| OpenPlaintext.    (** not an envelope, although there is a key *)

(** With a key, a request must be an envelope that opens under it. *)
Definition open_request (outer : Request) (h : Handler) : Opened :=
  match th_crypto h ≫= (λ k, th_sessions h !! k), outer with
  | Some s, ReqEncrypted c n =>
      match decrypt s c n with
      | Ok plaintext => match m_decode plaintext with Ok inner => OpenedRequest inner | Err _ => OpenMalformed end
      | Err _ => OpenFailed
      end
  | Some _, _ => OpenPlaintext
  | None, _ => OpenedRequest outer
  end.

(** A request of a conversation whose process runs, or waits for the first
    message.  Errors are only logged. *)
Definition stream_request (env : TunnelEnv) (rid sid : string) (req : Request) (h : Handler) : Handler :=
  let pending := (th_streams h !! rid) ≫= as_pending_config in
  match req, pending with
  | ReqMessage content agent_id, Some cfg =>
      let h1 := set_streams (<[rid := mkActive sid None]> (th_streams h)) h in
      match start_session (e_os (te_env env)) (e_uuid (te_env env)) cfg (Some content) (th_relay h) with
      | (r, Ok _) => set_node r h1
      | (r, Err e) =>
          let h2 := send_out (error_response (now_of env) rid TunnelInternal ("Start session failed: " +:+ relay_error_text e))
                      (set_node r h1) in
          set_streams (delete rid (th_streams h2)) h2
      end
  | ReqMessage content agent_id, None =>
      set_node (send_user_message clock (now_of env) sid content
                  (if decide (agent_id = EmptyString) then None else Some agent_id) (th_relay h)).1 h
  | ReqPermission id decision _ _, _ => set_node (handle_permission sid id decision (th_relay h)).1 h
  | ReqQuestionResponse id answers, _ => set_node (handle_question sid id answers (th_relay h)).1 h
  | ReqCancel _, _ => set_node (cancel_session (now_of env) sid (th_relay h)).1 h
  | _, _ => h
  end.

Definition handle_incoming_stream_data (env : TunnelEnv) (rid : string) (data : list Z) (h : Handler) : Handler :=
  match th_streams h !! rid with
  | None => h
  | Some active =>
      match m_decode data with
      | Err _ => h
      | Ok outer =>
          match open_request outer h with
          | OpenedRequest req => stream_request env rid (as_session_id active) req h
          | _ => h
          end
      end
  end.

(** The session row of a conversation: its directory and the agent's session
    to resume. *)
Definition open_session (env : TunnelEnv) (sid : string) (model : option string) (dir : string) (d : DaemonDb)
  : DaemonDb * result string (string * option string) :=
  match get_session sid d with
  | Ok existing =>
      (d, Ok (if decide (dir = EmptyString ∧ s_working_directory existing ≠ EmptyString) then s_working_directory existing else dir,
              match s_claude_session_id existing with
              | Some c => if decide (c = EmptyString) then None else Some c
              | None => None
              end))
  | Err _ =>
      match create_session (now_of env) sid (default "default" model) dir d with
      | (d', Ok _) => (d', Ok (dir, None))
      | (d', Err e) => (d', Err (database_error_text e))
      end
  end.

Definition start_conversation (env : TunnelEnv) (rid : string) (start : StartConversation) (rf : bool) (h : Handler) : Handler :=
  let fail text h := send_out (error_response (now_of env) rid TunnelInternal text) h in
  let sid := if decide (start_session_id start = EmptyString) then e_uuid (te_env env) else start_session_id start in
  let model := if decide (start_model start = EmptyString) then None else Some (start_model start) in
  match open_session env sid model (start_working_directory start) (r_db (th_relay h)) with
  | (d, Err e) => fail ("Create session failed: " +:+ e) (set_node (set_relay_db d (th_relay h)) h)
  | (d, Ok (working_dir, resume_session)) =>
      let r1 := set_relay_db (update_session_status (now_of env) sid SessActive d) (th_relay h) in
      let client_id := generate_tunnel_client_id (te_client_uuid env) in
      match subscribe (e_instant (te_env env)) sid client_id "tunnel" (r_mux r1) with
      | (m, Err e) => fail ("Subscribe failed: " +:+ multiplexer_error_text e) (set_node (set_mux m r1) h)
      | (m, Ok handle) =>
          let h1 := set_node (set_mux m r1) h in
          let cfg := mkRelayConfig sid working_dir model resume_session (start_worktree_id start) in
          let h2 := set_streams (<[rid := mkActive sid (Some cfg)]> (th_streams h1)) h1 in
          spawn_task (TForward (mkForwarder rid sid client_id (h_event_rx handle) (th_crypto h) rf 0)) h2
      end
  end.

Definition handle_converse (env : TunnelEnv) (rid : string) (data : list Z) (rf : bool) (h : Handler) : Handler :=
  let fail text := send_out (error_response (now_of env) rid TunnelInternal text) h in
  match m_decode data with
  | Err e => send_out (decode_error (now_of env) rid e) h
  | Ok outer =>
      match open_request outer h with
      | OpenFailed => fail "Failed to decrypt StartConversation"
      | OpenMalformed => fail "Failed to decode decrypted StartConversation"
      | OpenPlaintext => fail "E2E encryption required"
      | OpenedRequest (ReqStart start) => start_conversation env rid start rf h
      | OpenedRequest _ => fail "First Converse message must be StartConversation"
      end
  end.

(** * Tasks *)

(** The bytes of an event on the wire: with a key, an event that holds the
    encrypted one. *)
Definition seal_event (crypto : option nat) (seq : Z) (ts : option Timestamp) (inner : list Z) (h : Handler)
  : Handler * option (list Z) :=
  match crypto with
  | None => (h, Some inner)
  | Some k =>
      match encrypt_with k inner h with
      | (h', Ok e) =>
          (h', Some (encode_event (mkEvent seq (mkBody ts EmptyString (Some (EvEncrypted (ciphertext e) (enc_nonce e)))))))
      | (h', Err _) => (h', None)
      end
  end.

(** Tunnel-layer wrapping of the bytes of a stream. *)
Definition wrap_stream (crypto : option nat) (rf : bool) (wire : list Z) (h : Handler) : Handler * result string EncryptedPayload :=
  make_encrypted_payload (if rf || bool_decide (is_Some crypto) then None else crypto) wire h.

(** What a receiver of the broadcast channel gets next. *)
Fixpoint next_in (chan : nat) (log : list (nat * AgentEvent EventBody)) (pos : nat) : option (AgentEvent EventBody * nat) :=
  match log with
  | [] => None
  | (c, e) :: rest => if decide (c = chan) then Some (e, S pos) else next_in chan rest (S pos)
  end.

Definition unread (m : SessionMultiplexer EventBody) (rx : nat * nat) : nat :=
  length (filter (λ x, x.1 = rx.1) (drop rx.2 (sent m))).

Inductive Received :=
| GotEvent (e : AgentEvent EventBody) (pos : nat)
| GotLagged (pos : nat)
| GotClosed
| GotNothing.

(** A receiver that is further behind than the channel's capacity, rounded up
    to a power of two, loses the oldest events. *)
Definition recv_event (m : SessionMultiplexer EventBody) (rx : nat * nat) : Received :=
  match next_in rx.1 (drop rx.2 (sent m)) rx.2 with
  | Some (e, pos) =>
      if decide (2 ^ Nat.log2_up (broadcast_capacity (config m)) < unread m rx) then GotLagged pos else GotEvent e pos
  | None =>
      if decide (map_Exists (λ _ s, event_tx s = rx.1) (sessions m)) then GotNothing else GotClosed
  end.

Definition forwarder_at (pos : nat) (f : Forwarder) : Forwarder :=
  mkForwarder (fw_request_id f) (fw_session_id f) (fw_client_id f) ((fw_event_rx f).1, pos) (fw_crypto f) (fw_relay_forwarded f) (fw_seq f).
Definition forwarder_sent (f : Forwarder) : Forwarder :=
  mkForwarder (fw_request_id f) (fw_session_id f) (fw_client_id f) (fw_event_rx f) (fw_crypto f) (fw_relay_forwarded f)
    (wrap_u64 (fw_seq f + 1)).

(** The forwarder's loop is over: the client is unsubscribed. *)
Definition end_forwarder (now : Z) (t : nat) (f : Forwarder) (h : Handler) : Handler :=
  let h1 := send_out (stream_end now (fw_request_id f)) h in
  let h2 := set_streams (delete (fw_request_id f) (th_streams h1)) h1 in
  let h3 := set_node (set_mux (unsubscribe (fw_session_id f) (fw_client_id f) (r_mux (th_relay h2))) (th_relay h2)) h2 in
  set_tasks (delete t (th_tasks h3)) h3.

Definition put_task (t : nat) (k : Task) (h : Handler) : Handler := set_tasks (<[t := k]> (th_tasks h)) h.

Definition send_event (now : Z) (t : nat) (f : Forwarder) (e : AgentEvent EventBody) (h : Handler) : Handler :=
  match seal_event (fw_crypto f) (ev_sequence e) (eb_timestamp (ev_payload e)) (encode_event e) h with
  | (h1, None) => put_task t (TForward f) h1
  | (h1, Some wire) =>
      match wrap_stream (fw_crypto f) (fw_relay_forwarded f) wire h1 with
      | (h2, Err _) => put_task t (TForward f) h2
      | (h2, Ok enc) =>
          let h3 := send_out (payload_frame now (fw_request_id f) FtStreamData enc (fw_seq f)) h2 in
          if th_open h2 then put_task t (TForward (forwarder_sent f)) h3
          else end_forwarder now t (forwarder_sent f) h3
      end
  end.

Definition forwarder_step (now : Z) (t : nat) (f : Forwarder) (h : Handler) : Handler :=
  match recv_event (r_mux (th_relay h)) (fw_event_rx f) with
  | GotEvent e pos => send_event now t (forwarder_at pos f) e h
  | GotLagged pos => put_task t (TForward (forwarder_at pos f)) h
  | GotClosed => end_forwarder now t f h
  | GotNothing => h
  end.

(** One message of a replay. *)
Definition replay_step (now : Z) (t : nat) (p : Replay) (h : Handler) : Handler :=
  let finish h := set_tasks (delete t (th_tasks h)) (send_out (stream_end now (rp_request_id p)) h) in
  match rp_messages p with
  | [] => finish h
  | m :: rest =>
      let skip h := put_task t (TReplay (mkReplay (rp_request_id p) rest (rp_crypto p) (rp_relay_forwarded p) (rp_seq p))) h in
      match base64_decode (msg_payload m) with
      | Err _ => skip h
      | Ok raw =>
          match seal_event (rp_crypto p) (rp_seq p) None raw h with
          | (h1, None) => skip h1
          | (h1, Some wire) =>
              match wrap_stream (rp_crypto p) (rp_relay_forwarded p) wire h1 with
              | (h2, Err _) => skip h2
              | (h2, Ok enc) =>
                  let h3 := send_out (payload_frame now (rp_request_id p) FtStreamData enc (rp_seq p)) h2 in
                  if th_open h2 then
                    put_task t (TReplay (mkReplay (rp_request_id p) rest (rp_crypto p) (rp_relay_forwarded p)
                                           (wrap_u64 (rp_seq p + 1)))) h3
                  else finish h3
              end
          end
      end
  end.

Definition handle_resume_session (env : TunnelEnv) (rid : string) (data : list Z) (rf : bool) (h : Handler)
  : Handler * list TunnelFrame :=
  with_request env rid data h (λ req : ResumeSessionRequest,
    let messages := get_messages_from_sequence (rq_session_id req) (i64_of_u64 (rq_from_sequence req)) (r_db (th_relay h)) in
    (spawn_task (TReplay (mkReplay rid messages (th_crypto h) rf 0)) h, [])).

(** An item of a service's stream, or its end. *)
Definition service_stream_step (now : Z) (t : nat) (s : ServiceStream) (item : option (result string (list Z))) (h : Handler)
  : Handler :=
  let finish h := set_tasks (delete t (th_tasks h)) (send_out (stream_end now (ss_request_id s)) h) in
  match item with
  | None => finish h
  | Some (Err e) => finish (send_out (error_response now (ss_request_id s) TunnelInternal ("Stream error: " +:+ e)) h)
  | Some (Ok buf) =>
      match make_encrypted_payload (ss_crypto s) buf h with
      | (h1, Err _) => h1
      | (h1, Ok enc) =>
          let h2 := send_out (payload_frame now (ss_request_id s) FtStreamData enc (ss_seq s)) h1 in
          if th_open h1 then put_task t (TService (mkServiceStream (ss_request_id s) (ss_crypto s) (wrap_u64 (ss_seq s + 1)))) h2
          else finish h2
      end
  end.

(** * Dispatch to the other services *)

Definition dispatch_service (svc : ServiceName) (label : string) (served : list Method) (env : TunnelEnv) (rid : string)
    (m : Method) (data : list Z) (rf : bool) (h : Handler) : Handler * list TunnelFrame :=
  if th_available h svc then
    if decide (m ∈ served) then
      match ls_unary m data (th_local h) with
      | (l, RpcMalformed e) => (set_local l h, [decode_error (now_of env) rid e])
      | (l, RpcFailed s) => (set_local l h, [error_response (now_of env) rid TunnelInternal (message s)])
      | (l, RpcAnswer buf) =>
          let '(h', f) := unary_bytes_frame (now_of env) rid buf rf (set_local l h) in (h', [f])
      end
    else (h, [error_response (now_of env) rid TunnelNotFound ("Unknown " +:+ label +:+ " method: " +:+ method_name m)])
  else (h, [error_response (now_of env) rid TunnelInternal (label +:+ "Service not available in tunnel handler")]).

Definition dispatch_command_rpc := dispatch_service CommandSvc "Command"
  [METHOD_GET_COMMAND_REGISTRY; METHOD_LIST_AGENTS; METHOD_LIST_PATH; METHOD_LIST_PLUGINS; METHOD_GET_PLUGIN_STATUS;
   METHOD_ADD_PLUGIN; METHOD_REMOVE_PLUGIN; METHOD_ENABLE_PLUGIN; METHOD_DISABLE_PLUGIN].

Definition dispatch_gitlab_rpc := dispatch_service GitLabSvc "GitLab"
  [METHOD_LIST_MERGE_REQUESTS; METHOD_GET_MERGE_REQUEST; METHOD_LIST_PIPELINES; METHOD_GET_PIPELINE; METHOD_LIST_ISSUES;
   METHOD_GET_ISSUE].

Definition dispatch_repo_rpc := dispatch_service RepoSvc "GitRepo"
  [METHOD_REGISTER_REPO; METHOD_UNREGISTER_REPO; METHOD_LIST_REPOS; METHOD_GET_REPO; METHOD_UPDATE_REPO; METHOD_SCAN_REPOS;
   METHOD_LIST_BRANCHES; METHOD_CREATE_BRANCH; METHOD_DELETE_BRANCH; METHOD_GET_BRANCH].

Definition dispatch_worktree_rpc := dispatch_service WorktreeSvc "Worktree"
  [METHOD_CREATE_WORKTREE; METHOD_REMOVE_WORKTREE; METHOD_LIST_WORKTREES; METHOD_GET_WORKTREE].

Definition dispatch_config_rpc := dispatch_service ConfigSvc "Config"
  [METHOD_GET_SETTINGS; METHOD_UPDATE_SETTINGS; METHOD_LIST_MCP_SERVERS; METHOD_GET_PERMISSIONS].

Definition dispatch_version_rpc := dispatch_service VersionSvc "Version" [METHOD_GET_VERSION; METHOD_NEGOTIATE_CAPABILITIES].

Definition dispatch_subagent_rpc := dispatch_service SubagentSvc "Subagent"
  [METHOD_SPAWN_SUBAGENT; METHOD_SEND_TO_SUBAGENT; METHOD_CANCEL_SUBAGENT; METHOD_LIST_SUBAGENTS;
   METHOD_CREATE_ORCHESTRATION; METHOD_REVOKE_AUTO_APPROVE].

(** A call that answers with a stream. *)
Definition open_service_stream (svc : ServiceName) (label call : string) (m : Method) (env : TunnelEnv) (rid : string)
    (data : list Z) (rf : bool) (h : Handler) : Handler :=
  if th_available h svc then
    match ls_open m data (th_local h) with
    | (l, RpcMalformed e) => send_out (decode_error (now_of env) rid e) (set_local l h)
    | (l, RpcFailed s) =>
        send_out (error_response (now_of env) rid TunnelInternal (call +:+ " failed: " +:+ message s)) (set_local l h)
    | (l, RpcAnswer _) =>
        spawn_task (TService (mkServiceStream rid (if rf then None else th_crypto h) 0)) (set_local l h)
    end
  else send_out (error_response (now_of env) rid TunnelInternal (label +:+ "Service not available in tunnel handler")) h.

Definition handle_execute_service_command :=
  open_service_stream CommandSvc "Command" "ExecuteServiceCommand" METHOD_EXECUTE_SERVICE_COMMAND.
Definition handle_watch_subagent := open_service_stream SubagentSvc "Subagent" "WatchSubagent" METHOD_WATCH_SUBAGENT.
Definition handle_watch_orchestration :=
  open_service_stream SubagentSvc "Subagent" "WatchOrchestration" METHOD_WATCH_ORCHESTRATION.

(** * Requests and frames *)

Definition handle_request (env : TunnelEnv) (f : TunnelFrame) (h : Handler) : Handler * list TunnelFrame :=
  let rid := request_id f in
  let sent h := (h, []) in
  match payload f with
  | Some (StreamData p) =>
      if decide (sp_method p = method_name METHOD_EXCHANGE_KEYS) then
        handle_exchange_keys env rid (default [] (ep_ciphertext <$> sp_encrypted p)) h
      else
        let rf := match sp_encrypted p with None => true | Some e => bool_decide (ep_nonce e = []) end in
        match match sp_encrypted p with Some enc => decrypt_payload enc h | None => Ok [] end with
        | Err e => (h, [error_response (now_of env) rid TunnelInternal e])
        | Ok data =>
            match parse_method (sp_method p) with
            | None | Some METHOD_EXCHANGE_KEYS =>
                (h, [error_response (now_of env) rid TunnelNotFound ("Unknown method: " +:+ sp_method p)])
            | Some m =>
                match m with
                | METHOD_LIST_SESSIONS => handle_list_sessions env rid data rf h
                | METHOD_COMPACT_SESSION => handle_compact_session env rid data rf h
                | METHOD_CANCEL_TURN => handle_cancel_turn env rid data rf h
                | METHOD_REQUEST_INPUT_LOCK => handle_request_input_lock env rid data rf h
                | METHOD_CONVERSE => sent (handle_converse env rid data rf h)
                | METHOD_RESUME_SESSION => handle_resume_session env rid data rf h
                | METHOD_GET_COMMAND_REGISTRY | METHOD_LIST_AGENTS | METHOD_LIST_PATH | METHOD_LIST_PLUGINS
                | METHOD_GET_PLUGIN_STATUS | METHOD_ADD_PLUGIN | METHOD_REMOVE_PLUGIN | METHOD_ENABLE_PLUGIN
                | METHOD_DISABLE_PLUGIN => dispatch_command_rpc env rid m data rf h
                | METHOD_EXECUTE_SERVICE_COMMAND => sent (handle_execute_service_command env rid data rf h)
                | METHOD_LIST_MERGE_REQUESTS | METHOD_GET_MERGE_REQUEST | METHOD_LIST_PIPELINES | METHOD_GET_PIPELINE
                | METHOD_LIST_ISSUES | METHOD_GET_ISSUE => dispatch_gitlab_rpc env rid m data rf h
                | METHOD_REGISTER_REPO | METHOD_UNREGISTER_REPO | METHOD_LIST_REPOS | METHOD_GET_REPO | METHOD_UPDATE_REPO
                | METHOD_SCAN_REPOS | METHOD_LIST_BRANCHES | METHOD_CREATE_BRANCH | METHOD_DELETE_BRANCH
                | METHOD_GET_BRANCH => dispatch_repo_rpc env rid m data rf h
                | METHOD_CREATE_WORKTREE | METHOD_REMOVE_WORKTREE | METHOD_LIST_WORKTREES
                | METHOD_GET_WORKTREE => dispatch_worktree_rpc env rid m data rf h
                | METHOD_GET_SETTINGS | METHOD_UPDATE_SETTINGS | METHOD_LIST_MCP_SERVERS
                | METHOD_GET_PERMISSIONS => dispatch_config_rpc env rid m data rf h
                | METHOD_LIST_SESSION_GRANTS => handle_list_session_grants env rid data rf h
                | METHOD_CLEAR_SESSION_GRANTS => handle_clear_session_grants env rid data rf h
                | METHOD_SET_SESSION_GRANT => handle_set_session_grant env rid data rf h
                | METHOD_RENAME_SESSION => handle_rename_session env rid data rf h
                | METHOD_DELETE_SESSION => handle_delete_session env rid data rf h
                | METHOD_GET_VERSION | METHOD_NEGOTIATE_CAPABILITIES => dispatch_version_rpc env rid m data rf h
                | METHOD_SPAWN_SUBAGENT | METHOD_SEND_TO_SUBAGENT | METHOD_CANCEL_SUBAGENT | METHOD_LIST_SUBAGENTS
                | METHOD_CREATE_ORCHESTRATION | METHOD_REVOKE_AUTO_APPROVE => dispatch_subagent_rpc env rid m data rf h
                | METHOD_WATCH_SUBAGENT => sent (handle_watch_subagent env rid data rf h)
                | METHOD_WATCH_ORCHESTRATION => sent (handle_watch_orchestration env rid data rf h)
                | METHOD_EXCHANGE_KEYS => sent h
                end
            end
        end
  | _ => (h, [error_response (now_of env) rid TunnelInternal "Missing StreamPayload"])
  end.

Definition handle_frame (env : TunnelEnv) (f : TunnelFrame) (h : Handler) : Handler * list TunnelFrame :=
  let rid := request_id f in
  match frame_type f with
  | FtRequest => handle_request env f h
  | FtControl | FtError => (h, [])
  | FtStreamData =>
      match payload f with
      | Some (StreamData p) =>
          match match sp_encrypted p with Some enc => decrypt_payload enc h | None => Ok [] end with
          | Ok data => (handle_incoming_stream_data env rid data h, [])
          | Err _ => (h, [])
          end
      | _ => (h, [])
      end
  | FtResponse => (h, [error_response (now_of env) rid TunnelInternal "Unexpected frame type: Response"])
  | FtStreamEnd => (h, [error_response (now_of env) rid TunnelInternal "Unexpected frame type: StreamEnd"])
  | FtOther _ => (h, [error_response (now_of env) rid TunnelInternal "Unknown frame type"])
  end.

(** * Executions

    The tunnel's loop starts a task per frame (client.rs), so frames that
    have arrived wait in [nd_inbox] and are handled in any order. *)

Record Node := mkNode {
  nd_handler : Handler;
  nd_inbox : gmap nat TunnelFrame;
  nd_arrived : nat
}.

Inductive NodeOp :=
| NArrive (f : TunnelFrame)                              (** the loop takes a frame and starts its task *)
| NHandle (i : nat)                                      (** the task of a frame runs *)
| NTask (t : nat) (item : option (result string (list Z)))  (** a stream task goes on *)
| NLocal (op : AgentService.Op)                          (** whatever else happens on the machine *)
| NClose.                                                (** the channel to the relay is closed *)

Definition task_step (env : TunnelEnv) (t : nat) (item : option (result string (list Z))) (h : Handler) : Handler :=
  match th_tasks h !! t with
  | Some (TForward f) => forwarder_step (now_of env) t f h
  | Some (TReplay p) => replay_step (now_of env) t p h
  | Some (TService s) => service_stream_step (now_of env) t s item h
  | None => h
  end.

(** The task of a frame: the responses go to the same channel. *)
Definition frame_task (env : TunnelEnv) (f : TunnelFrame) (h : Handler) : Handler :=
  let '(h', responses) := handle_frame env f h in foldl (λ h f, send_out f h) h' responses.

Definition set_handler (h : Handler) (n : Node) : Node := mkNode h (nd_inbox n) (nd_arrived n).

Definition close_channel (h : Handler) : Handler :=
  mkHandler (th_service h) (th_streams h) (th_crypto h) (th_sessions h) (th_identity h) (th_outbound h) false (th_tasks h)
    (th_next h) (th_available h) (th_local h).

Definition node_step (env : TunnelEnv) (op : NodeOp) (n : Node) : Node :=
  match op with
  | NArrive f => mkNode (nd_handler n) (<[nd_arrived n := f]> (nd_inbox n)) (S (nd_arrived n))
  | NHandle i =>
      match nd_inbox n !! i with
      | Some f => mkNode (frame_task env f (nd_handler n)) (delete i (nd_inbox n)) (nd_arrived n)
      | None => n
      end
  | NTask t item => set_handler (task_step env t item (nd_handler n)) n
  | NLocal op => set_handler (set_service (AgentService.step clock (te_env env) op (th_service (nd_handler n))) (nd_handler n)) n
  | NClose => set_handler (close_channel (nd_handler n)) n
  end.

Definition node_run (trace : list (TunnelEnv * NodeOp)) (n : Node) : Node :=
  foldl (λ n call, node_step call.1 call.2 n) n trace.

End Handler.
Arguments Handler {LS}.
Arguments Node {LS}.

(** Services that answer every call with the request itself. *)
#[export] Instance echo_services : LocalServices := {|
  ls_state := unit;
  ls_unary m data s := (s, RpcAnswer data);
  ls_open m data s := (s, RpcAnswer tt)
|}.
