(* ===== verification/RelayProxy.v ===== *)
(** The relay's services for clients: calls forwarded through tunnels, and
    the list of machines.

    Models crates/betcode-relay/src/server/: grpc_util.rs, agent_proxy.rs and
    the proxies that consist of calls of it (command_proxy.rs,
    config_proxy.rs, git_repo_proxy.rs, gitlab_proxy.rs, subagent_proxy.rs,
    worktree_proxy.rs), and machine_svc.rs, on [RelayTunnel].  A call is cut
    where it waits: up to handing the request to the tunnel ([forward_unary_begin],
    [forward_stream_begin]), and what it makes of the frames that come back. *)
From stdpp Require Import gmap strings list.
From Stdlib Require Import ZArith.
From S2P Require Import Multiplexer EventBridge SessionRelay AgentService.
From S2P Require Import Prelude Protocol Encodings RelayStore RelayAuth RelayTunnel.

(** * Helpers (grpc_util.rs, agent_proxy.rs, interceptor.rs) *)

Fixpoint contains (needle s : string) : bool :=
  starts_with needle s || match s with EmptyString => false | String _ s' => contains needle s' end.

Definition is_peer_disconnect (s : Status) : bool :=
  bool_decide (code s = Unavailable) || bool_decide (code s = Cancelled) ||
  contains "h2 protocol error" (message s) || contains "broken pipe" (message s) ||
  contains "connection reset" (message s) || contains "close_notify" (message s).

Definition extract_claims (claims : option Claims) : result Status Claims :=
  match claims with
  | Some c => Ok c
  | None => Err (mkStatus Internal "Claims not found in request extensions")
  end.

(** The header, when it is there and is text. *)
Definition extract_machine_id (header : option string) : result Status string :=
  match header with
  | Some m => Ok m
  | None => Err (mkStatus InvalidArgument "Missing x-machine-id metadata header")
  end.

Definition router_error_to_status (e : RouterError) : Status :=
  match e with
  | MachineOffline m => mkStatus Unavailable ("Machine offline: " +:+ m)
  | Buffered m => mkStatus Unavailable ("Machine offline, request buffered: " +:+ m)
  | Timeout r => mkStatus DeadlineExceeded ("Request timed out: " +:+ r)
  | SendFailed m => mkStatus Internal ("Failed to send to machine: " +:+ m)
  | ResponseDropped r => mkStatus Internal ("Response dropped: " +:+ r)
  end.

(** The bytes of a payload, encrypted or not. *)
Definition payload_data (p : StreamPayload) : list Z := default [] (ep_ciphertext <$> sp_encrypted p).

Definition decode_response {M : Type} `{ProtoMessage M} (f : TunnelFrame) : result Status M :=
  if decide (frame_type f = FtError) then
    match payload f with
    | Some (ErrorPayload _ text) => Err (mkStatus Internal ("Daemon error: " +:+ text))
    | _ => Err (mkStatus Internal "Daemon returned error frame")
    end
  else match payload f with
       | Some (StreamData p) =>
           match m_decode (payload_data p) with
           | Ok m => Ok m
           | Err e => Err (mkStatus Internal ("Failed to decode response: " +:+ e))
           end
       | _ => Err (mkStatus Internal "Unexpected response payload format")
       end.

(** Who calls, for which machine, and whether it is theirs. *)
Definition authorize (claims : option Claims) (header : option string) (d : RelayDatabase) : result Status string :=
  let? c := extract_claims claims in
  let? machine := extract_machine_id header in
  let? _ := verify_machine_ownership machine (sub c) d in
  Ok machine.

Section Forward.
Context {MJ : MetadataJson} {SO : SqlOrder}.

Definition forward_unary_begin (now : Z) (bm : BufferManager) (uuid : string) (claims : option Claims) (header : option string)
    (method : string) (buf : list Z) (r : Relay) : option (Relay * result Status (nat * nat)) :=
  match authorize claims header (db r) with
  | Err s => Some (r, Err s)
  | Ok machine =>
      match forward_begin now bm machine uuid method buf ∅ r with
      | None => None
      | Some (r', Ok w) => Some (r', Ok w)
      | Some (r', Err e) => Some (r', Err (router_error_to_status e))
      end
  end.

Definition forward_unary_end {M : Type} `{ProtoMessage M} (c : nat) (rid : string) (o : WaitOutcome) (r : Relay)
  : Relay * result Status M :=
  match forward_end c rid o r with
  | (r', Ok f) => (r', decode_response f)
  | (r', Err e) => (r', Err (router_error_to_status e))
  end.

Definition forward_stream_begin (now : Z) (uuid : string) (claims : option Claims) (header : option string)
    (method : string) (buf : list Z) (r : Relay) : option (Relay * result Status (nat * nat)) :=
  match authorize claims header (db r) with
  | Err s => Some (r, Err s)
  | Ok machine =>
      match setup_stream_forward now machine uuid method buf ∅ r with
      | None => None
      | Some (r', Ok w) => Some (r', Ok w)
      | Some (r', Err e) => Some (r', Err (router_error_to_status e))
      end
  end.

End Forward.

Inductive StreamFrameAction (M : Type) :=
| ActSend (item : result Status M)
| ActBreak (item : option (result Status M))
| ActSkip.
Arguments ActSend {M} _.
Arguments ActBreak {M} _.
Arguments ActSkip {M}.

Definition decode_stream_frame {M : Type} `{ProtoMessage M} (f : TunnelFrame) : StreamFrameAction M :=
  if decide (frame_type f = FtStreamData) then
    match payload f with
    | Some (StreamData p) =>
        match m_decode (payload_data p) with
        | Ok m => ActSend (Ok m)
        | Err _ => ActSkip
        end
    | _ => ActSkip
    end
  else if decide (frame_type f = FtError) then
    match payload f with
    | Some (ErrorPayload _ text) => ActBreak (Some (Err (mkStatus Internal ("Daemon error: " +:+ text))))
    | _ => ActBreak None
    end
  else ActSkip.

(** What the client of a streaming call receives, from the frames in the
    order in which they came. *)
Fixpoint stream_items {M : Type} `{ProtoMessage M} (fs : list TunnelFrame) : list (result Status M) :=
  match fs with
  | [] => []
  | f :: rest =>
      match decode_stream_frame f with
      | ActSend item => item :: stream_items rest
      | ActBreak (Some item) => [item]
      | ActBreak None => []
      | ActSkip => stream_items rest
      end
  end.

(** * Conversations (agent_proxy.rs) *)

(** A client's message after the first becomes a frame of the stream. *)
Definition converse_frame {AR : ProtoMessage Request} (now : Z) (rid : string) (req : Request) : TunnelFrame :=
  mkFrame rid FtStreamData now
    (Some (StreamData (mkStreamPayload EmptyString (Some (mkEncryptedPayload (m_encode req) [] [])) 0 ∅))).

(** The frames of the daemon become events for the client; an error ends the
    stream, other frames are ignored. *)
Fixpoint converse_events {PC : ProstCodec} (fs : list TunnelFrame) : list (result Status (AgentEvent EventBody)) :=
  match fs with
  | [] => []
  | f :: rest =>
      if decide (frame_type f = FtStreamData) then
        match payload f with
        | Some (StreamData p) =>
            match decode_event (payload_data p) with
            | Ok e => Ok e :: converse_events rest
            | Err _ => converse_events rest
            end
        | _ => converse_events rest
        end
      else if decide (frame_type f = FtError) then
        match payload f with
        | Some (ErrorPayload _ text) => [Err (mkStatus Internal ("Daemon error: " +:+ text))]
        | _ => []
        end
      else converse_events rest
  end.

(** The first message decides what becomes of a conversation. *)
Definition converse_begin {MJ : MetadataJson} {SO : SqlOrder} {AR : ProtoMessage Request} (now : Z) (uuid machine : string)
    (first : option (result Status Request)) (r : Relay) : option (Relay * result Status (nat * nat)) :=
  match first with
  | Some (Ok req) =>
      match setup_stream_forward now machine uuid (method_name METHOD_CONVERSE) (m_encode req) ∅ r with
      | None => None
      | Some (r', Ok w) => Some (r', Ok w)
      | Some (r', Err e) => Some (r', Err (router_error_to_status e))
      end
  | Some (Err e) => Some (r, Err (mkStatus Internal ("Stream error: " +:+ message e)))
  | None => Some (r, Err (mkStatus InvalidArgument "Empty stream"))
  end.

(** * The proxies

    Which calls each proxy forwards: as one response, or as a stream through
    a channel of the given size. *)

Inductive Forwarding := AsUnary | AsStream (channel_size : nat).

Definition agent_proxy : list (Method * Forwarding) :=
  [(METHOD_CONVERSE, AsStream 128); (METHOD_LIST_SESSIONS, AsUnary); (METHOD_RESUME_SESSION, AsStream 128);
   (METHOD_COMPACT_SESSION, AsUnary); (METHOD_CANCEL_TURN, AsUnary); (METHOD_REQUEST_INPUT_LOCK, AsUnary);
   (METHOD_EXCHANGE_KEYS, AsUnary); (METHOD_LIST_SESSION_GRANTS, AsUnary); (METHOD_CLEAR_SESSION_GRANTS, AsUnary);
   (METHOD_SET_SESSION_GRANT, AsUnary); (METHOD_RENAME_SESSION, AsUnary); (METHOD_DELETE_SESSION, AsUnary)].

Definition command_proxy : list (Method * Forwarding) :=
  [(METHOD_GET_COMMAND_REGISTRY, AsUnary); (METHOD_LIST_AGENTS, AsUnary); (METHOD_LIST_PATH, AsUnary);
   (METHOD_EXECUTE_SERVICE_COMMAND, AsStream 64); (METHOD_LIST_PLUGINS, AsUnary); (METHOD_GET_PLUGIN_STATUS, AsUnary);
   (METHOD_ADD_PLUGIN, AsUnary); (METHOD_REMOVE_PLUGIN, AsUnary); (METHOD_ENABLE_PLUGIN, AsUnary);
   (METHOD_DISABLE_PLUGIN, AsUnary)].

Definition config_proxy : list (Method * Forwarding) :=
  [(METHOD_GET_SETTINGS, AsUnary); (METHOD_UPDATE_SETTINGS, AsUnary); (METHOD_LIST_MCP_SERVERS, AsUnary);
   (METHOD_GET_PERMISSIONS, AsUnary)].

Definition git_repo_proxy : list (Method * Forwarding) :=
  [(METHOD_REGISTER_REPO, AsUnary); (METHOD_UNREGISTER_REPO, AsUnary); (METHOD_LIST_REPOS, AsUnary); (METHOD_GET_REPO, AsUnary);
   (METHOD_UPDATE_REPO, AsUnary); (METHOD_SCAN_REPOS, AsUnary); (METHOD_LIST_BRANCHES, AsUnary);
   (METHOD_CREATE_BRANCH, AsUnary); (METHOD_DELETE_BRANCH, AsUnary); (METHOD_GET_BRANCH, AsUnary)].

Definition gitlab_proxy : list (Method * Forwarding) :=
  [(METHOD_LIST_MERGE_REQUESTS, AsUnary); (METHOD_GET_MERGE_REQUEST, AsUnary); (METHOD_LIST_PIPELINES, AsUnary);
   (METHOD_GET_PIPELINE, AsUnary); (METHOD_LIST_ISSUES, AsUnary); (METHOD_GET_ISSUE, AsUnary)].

Definition subagent_proxy : list (Method * Forwarding) :=
  [(METHOD_SPAWN_SUBAGENT, AsUnary); (METHOD_WATCH_SUBAGENT, AsStream 64); (METHOD_SEND_TO_SUBAGENT, AsUnary);
   (METHOD_CANCEL_SUBAGENT, AsUnary); (METHOD_LIST_SUBAGENTS, AsUnary); (METHOD_CREATE_ORCHESTRATION, AsUnary);
   (METHOD_WATCH_ORCHESTRATION, AsStream 64); (METHOD_REVOKE_AUTO_APPROVE, AsUnary)].

Definition worktree_proxy : list (Method * Forwarding) :=
  [(METHOD_CREATE_WORKTREE, AsUnary); (METHOD_REMOVE_WORKTREE, AsUnary); (METHOD_LIST_WORKTREES, AsUnary);
   (METHOD_GET_WORKTREE, AsUnary)].

Definition proxies : list (Method * Forwarding) :=
  agent_proxy ++ command_proxy ++ config_proxy ++ git_repo_proxy ++ gitlab_proxy ++ subagent_proxy ++ worktree_proxy.

(** * Machines (machine_svc.rs) *)

Inductive MachineStatus := MachineOnline | MachineOfflineStatus | MachineUnspecified.

Record MachineInfo := mkMachineInfo {
  mi_machine_id : string;
  mi_name : string;
  mi_owner_id : string;
  mi_status : MachineStatus;
  mi_registered_at : Z;
  mi_last_seen : Z;
  mi_metadata : gmap string string
}.

Definition owned_machine (machine user : string) (d : RelayDatabase) : result Status Machine :=
  match get_machine machine d with
  | Err _ => Err (mkStatus CodeNotFound "Machine not found")
  | Ok m => if decide (m_owner_id m = user) then Ok m else Err (mkStatus PermissionDenied "Not your machine")
  end.

Section Machines.
Context {MJ : MetadataJson} {SO : SqlOrder} {ST : SqlText}.

Definition machine_to_proto (m : Machine) : MachineInfo :=
  mkMachineInfo (m_id m) (m_name m) (m_owner_id m)
    (if decide (m_status m = "online") then MachineOnline else MachineOfflineStatus)
    (m_registered_at m) (m_last_seen m) (match parse_metadata (m_metadata m) with Ok x => x | Err _ => ∅ end).

Definition svc_register_machine (now : Z) (claims : option Claims) (machine name : string) (metadata : gmap string string)
    (d : RelayDatabase) : RelayDatabase * result Status MachineInfo :=
  match extract_claims claims with
  | Err s => (d, Err s)
  | Ok c =>
      match create_machine now machine name (sub c) (render_metadata metadata) d with
      | (d', Ok m) => (d', Ok (machine_to_proto m))
      | (d', Err e) => (d', Err (mkStatus Internal ("Failed to register machine: " +:+ database_error_text e)))
      end
  end.

Definition svc_list_machines (claims : option Claims) (filter_by : MachineStatus) (limit offset : nat) (d : RelayDatabase)
  : result Status (list MachineInfo * Z) :=
  let? c := extract_claims claims in
  let status_filter := match filter_by with
                       | MachineOnline => Some "online"
                       | MachineOfflineStatus => Some "offline"
                       | MachineUnspecified => None
                       end in
  let machines := list_machines (sub c) status_filter (if decide (limit = 0) then 100 else limit) offset d in
  Ok (machine_to_proto <$> machines, Z.min (Z.of_nat (count_machines (sub c) status_filter d)) u32_max).

Definition svc_remove_machine (claims : option Claims) (machine : string) (d : RelayDatabase)
  : RelayDatabase * result Status bool :=
  match (let? c := extract_claims claims in owned_machine machine (sub c) d) with
  | Err s => (d, Err s)
  | Ok _ =>
      match remove_machine machine d with
      | (d', Ok b) => (d', Ok b)
      | (d', Err e) => (d', Err (mkStatus Internal ("Failed to remove machine: " +:+ database_error_text e)))
      end
  end.

Definition svc_get_machine (claims : option Claims) (machine : string) (d : RelayDatabase) : result Status MachineInfo :=
  let? c := extract_claims claims in
  let? m := owned_machine machine (sub c) d in
  Ok (machine_to_proto m).

End Machines.
