(* ===== verification/ClientConnection.v ===== *)
(** The client's connection to a daemon, directly or through a relay: the key
    exchange with its fingerprint check, and conversations that encrypt what
    they send and decrypt what they receive.

    Models crates/betcode-cli/src/connection.rs on [CryptoSession] and
    [Fingerprint].  The answer of the other side is an argument.  Sessions of
    the encryption are shared with the tasks of a conversation, so they live
    in a heap, as in [TunnelHandler].  The file of the fingerprint
    store is in [ClientConfig]; errors of saving it are ignored by the code. *)
From stdpp Require Import gmap strings list.
From Stdlib Require Import ZArith Lia.
From S2P Require Import Prelude Protocol Multiplexer EventBridge CryptoSession Fingerprint Encodings SessionRelay AgentService.
From S2P Require Import AgentProtocol TunnelHandler.

Record ConnectionConfig := mkConnectionConfig {
  cg_auth_token : option string;
  cg_machine_id : option string
}.

Definition is_relay (c : ConnectionConfig) : bool :=
  bool_decide (is_Some (cg_auth_token c)) && bool_decide (is_Some (cg_machine_id c)).

Inductive ConnectionState := Disconnected | Connecting | Connected | Reconnecting.

Inductive ConnectionError :=
| InvalidAddress (text : string)
| ConnectFailed (text : string)
| NotConnected
| RpcCallFailed (text : string)
| KeyExchangeRequired
| FingerprintRejected
| FingerprintMismatch (expected actual : string).

Record DaemonConnection := mkConnection {
  cn_config : ConnectionConfig;
  cn_client : bool;                    (** whether the stubs exist *)
  cn_state : ConnectionState;
  cn_crypto : option nat;
  cn_sessions : list CryptoSession;
  cn_identity : option IdentityKeyPair;
  cn_store : FingerprintStore
}.

(** * Requests *)

(** Which texts may be the value of a header is up to the HTTP library. *)
Definition apply_relay_meta (valid : string → bool) (auth_token machine_id : option string) (meta : gmap string string)
  : gmap string string :=
  let insert k v meta := match v with Some x => if valid x then <[k := x]> meta else meta | None => meta end in
  insert "x-machine-id" machine_id (insert "authorization" ((λ t, "Bearer " +:+ t) <$> auth_token) meta).

Definition start_conversation_request (session_id working_directory model : string) : Request :=
  ReqStart (mkStart session_id model working_directory EmptyString).

Section Connection.
Context {PC : ProstCodec} {PR : Primitives} {SH : Sha256} {AP : AgentProtocol}.

(** * Connecting *)

(** A relay connection has an identity, unless its file cannot be used. *)
Definition load_identity (umask_mode : Z) (has_parent : bool) (rand : bytes) (path : string) (cfg : ConnectionConfig)
    (fs : FileSystem) : FileSystem * option IdentityKeyPair :=
  if is_relay cfg then
    match load_or_generate umask_mode has_parent rand path fs with
    | (fs', Ok kp) => (fs', Some kp)
    | (fs', Err _) => (fs', None)
    end
  else (fs, None).

Definition connection_new (cfg : ConnectionConfig) (id : option IdentityKeyPair) (store : FingerprintStore) : DaemonConnection :=
  mkConnection cfg false Disconnected None [] id store.

(** How the attempt to reach the address ends. *)
Inductive ConnectOutcome := ConnectOk | BadAddress (e : string) | BadCertificate (e : string) | Unreachable (e : string).

Definition set_state (st : ConnectionState) (client : bool) (c : DaemonConnection) : DaemonConnection :=
  mkConnection (cn_config c) client st (cn_crypto c) (cn_sessions c) (cn_identity c) (cn_store c).

Definition connect (o : ConnectOutcome) (c : DaemonConnection) : DaemonConnection * result ConnectionError unit :=
  let c1 := set_state Connecting (cn_client c) c in
  match o with
  | BadAddress e => (c1, Err (InvalidAddress e))
  | BadCertificate e => (c1, Err (ConnectFailed e))
  | Unreachable e => (set_state Disconnected (cn_client c) c, Err (ConnectFailed e))
  | ConnectOk => (set_state Connected true c, Ok tt)
  end.

(** * Key exchange *)

Definition set_store (st : FingerprintStore) (c : DaemonConnection) : DaemonConnection :=
  mkConnection (cn_config c) (cn_client c) (cn_state c) (cn_crypto c) (cn_sessions c) (cn_identity c) st.

Definition install_session (s : CryptoSession) (c : DaemonConnection) : DaemonConnection :=
  mkConnection (cn_config c) (cn_client c) (cn_state c) (Some (length (cn_sessions c))) (cn_sessions c ++ [s])
    (cn_identity c) (cn_store c).

Definition record_fingerprint (now : Z) (machine_id fingerprint : string) (c : DaemonConnection) : DaemonConnection :=
  set_store (record machine_id fingerprint now (cn_store c)) c.

Definition accept_fingerprint_change (now : Z) (machine_id new_fingerprint : string) (c : DaemonConnection) : DaemonConnection :=
  set_store (update_fingerprint machine_id new_fingerprint now (cn_store c)).1 c.

Definition mark_fingerprint (machine_id : string) (c : DaemonConnection) : DaemonConnection :=
  set_store (mark_verified machine_id (cn_store c)).1 c.

(** The state of the exchange and the request that begins it. *)
Definition exchange_state (secret : bytes) (c : DaemonConnection) : KeyExchangeState :=
  with_identity_opt secret (identity_pair (cn_identity c)).

Definition exchange_request (secret : bytes) (machine_id : string) (c : DaemonConnection) : KeyExchangeRequest :=
  mkKeyRequest machine_id (default [] (id_public <$> cn_identity c))
    (default EmptyString ((λ kp, fingerprint_of (id_public kp)) <$> cn_identity c))
    (public_bytes (exchange_state secret c)).

(** [answer] is what the call of the daemon returns. *)
Definition exchange_keys (now : Z) (secret prefix : bytes) (machine_id : string)
    (answer : KeyExchangeRequest → result string KeyExchangeResponse) (c : DaemonConnection)
  : DaemonConnection * result ConnectionError (string * FingerprintCheck) :=
  if cn_client c then
    match answer (exchange_request secret machine_id c) with
    | Err e => (c, Err (RpcCallFailed ("Key exchange failed: " +:+ e)))
    | Ok resp =>
        match complete prefix (exchange_state secret c) (kx_daemon_ephemeral_pubkey resp) with
        | Err e => (c, Err (RpcCallFailed ("Key derivation failed: " +:+ crypto_error_text e)))
        | Ok session =>
            let fp := kx_daemon_fingerprint resp in
            match check machine_id fp (cn_store c) with
            | Mismatch expected actual => (c, Ok (fp, Mismatch expected actual))
            | fp_check => (install_session session (record_fingerprint now machine_id fp c), Ok (fp, fp_check))
            end
        end
    end
  else (c, Err NotConnected).

Definition ensure_relay_key_exchange (now : Z) (secret prefix : bytes)
    (answer : KeyExchangeRequest → result string KeyExchangeResponse) (c : DaemonConnection)
  : DaemonConnection * result ConnectionError unit :=
  if is_relay (cn_config c) then
    match exchange_keys now secret prefix (default "unknown" (cg_machine_id (cn_config c))) answer c with
    | (c', Err e) => (c', Err e)
    | (c', Ok (_, Mismatch expected actual)) => (c', Err (FingerprintMismatch expected actual))
    | (c', Ok _) => (c', Ok tt)
    end
  else (c, Ok tt).

Definition has_crypto (c : DaemonConnection) : bool := bool_decide (is_Some (cn_crypto c)).

(** * Envelopes *)

Definition encrypt_agent_request (req : Request) (s : CryptoSession) : CryptoSession * result string Request :=
  let '(s', r) := encrypt (m_encode req) s in
  (s', match r with
       | Ok e => Ok (ReqEncrypted (ciphertext e) (enc_nonce e))
       | Err e => Err ("encrypt failed: " +:+ crypto_error_text e)
       end).

Definition decrypt_agent_event (s : CryptoSession) (event : AgentEvent EventBody) : result string (AgentEvent EventBody) :=
  match eb_event (ev_payload event) with
  | Some (EvEncrypted c n) =>
      match decrypt s c n with
      | Err e => Err ("decrypt failed: " +:+ crypto_error_text e)
      | Ok plaintext => map_err (λ e, "decode failed: " +:+ e) (decode_event plaintext)
      end
  | _ => Err "rejected plaintext event: E2E encryption active"
  end.

Definition decrypt_resume_events (crypto : option CryptoSession) (events : list (AgentEvent EventBody))
  : list (AgentEvent EventBody) :=
  match crypto with
  | None => events
  | Some s => omap (λ e, match decrypt_agent_event s e with Ok d => Some d | Err _ => None end) events
  end.

(** The session in use. *)
Definition current_session (c : DaemonConnection) : option CryptoSession := cn_crypto c ≫= (λ k, cn_sessions c !! k).

Definition resume_session (answer : result string (list (AgentEvent EventBody))) (c : DaemonConnection)
  : result ConnectionError (list (AgentEvent EventBody)) :=
  if cn_client c then
    match answer with
    | Err e => Err (RpcCallFailed e)
    | Ok events => Ok (decrypt_resume_events (current_session c) events)
    end
  else Err NotConnected.

(** * Conversations *)

Definition MAX_CONSECUTIVE_DECRYPT_FAILURES : nat := 5.

Record Conversation := mkConversation {
  ct_crypto : option nat;              (** the session in use when it began *)
  ct_sending : bool;                   (** the encrypting task runs *)
  ct_reading : bool;                   (** the reading task runs *)
  ct_failures : nat;
  ct_wire : list Request;              (** what was sent *)
  ct_events : list (result string (AgentEvent EventBody))  (** what the user was given *)
}.

Definition converse (c : DaemonConnection) : result ConnectionError Conversation :=
  if is_relay (cn_config c) && negb (has_crypto c) then Err KeyExchangeRequired
  else if cn_client c then Ok (mkConversation (cn_crypto c) true true 0 [] [])
  else Err NotConnected.

Definition give (e : result string (AgentEvent EventBody)) (t : Conversation) : Conversation :=
  mkConversation (ct_crypto t) (ct_sending t) (ct_reading t) (ct_failures t) (ct_wire t) (ct_events t ++ [e]).
Definition put_wire (r : Request) (t : Conversation) : Conversation :=
  mkConversation (ct_crypto t) (ct_sending t) (ct_reading t) (ct_failures t) (ct_wire t ++ [r]) (ct_events t).

(** The user sends a request. *)
Definition converse_send (req : Request) (t : Conversation) (c : DaemonConnection) : Conversation * DaemonConnection :=
  if ct_sending t then
    match ct_crypto t with
    | None => (put_wire req t, c)
    | Some k =>
        match cn_sessions c !! k with
        | None => (t, c)
        | Some s =>
            let '(s', r) := encrypt_agent_request req s in
            let c' := mkConnection (cn_config c) (cn_client c) (cn_state c) (cn_crypto c) (<[k := s']> (cn_sessions c))
                        (cn_identity c) (cn_store c) in
            match r with
            | Ok enc => (put_wire enc t, c')
            | Err e =>
                let t' := give (Err ("Encryption failed: " +:+ e)) t in
                (mkConversation (ct_crypto t') false (ct_reading t') (ct_failures t') (ct_wire t') (ct_events t'), c')
            end
        end
    end
  else (t, c).

Definition set_reading (reading : bool) (failures : nat) (t : Conversation) : Conversation :=
  mkConversation (ct_crypto t) (ct_sending t) reading failures (ct_wire t) (ct_events t).

(** An event, the end of the stream, or an error arrives. *)
Definition converse_receive (item : result string (option (AgentEvent EventBody))) (t : Conversation) (c : DaemonConnection)
  : Conversation :=
  if ct_reading t then
    match item with
    | Err e => set_reading false (ct_failures t) (give (Err e) t)
    | Ok None => set_reading false (ct_failures t) t
    | Ok (Some event) =>
        match ct_crypto t ≫= (λ k, cn_sessions c !! k) with
        | None => give (Ok event) t
        | Some s =>
            match decrypt_agent_event s event with
            | Ok d => give (Ok d) (set_reading true 0 t)
            | Err _ =>
                let failures := S (ct_failures t) in
                if decide (MAX_CONSECUTIVE_DECRYPT_FAILURES ≤ failures)
                then give (Err "Persistent decryption failures — possible key mismatch") (set_reading false failures t)
                else set_reading true failures t
            end
        end
    end
  else t.

Definition converse_receive_all (es : list (AgentEvent EventBody)) (t : Conversation) (c : DaemonConnection) : Conversation :=
  foldl (λ t e, converse_receive (Ok (Some e)) t c) t es.

End Connection.
