(* ===== verification/TunnelCorrect.v ===== *)
(** The tunnel's request handler: conversations need the key, forwarded calls
    do what local calls do, and what goes wrong with several clients. *)
From stdpp Require Import gmap strings list pretty.
From Stdlib Require Import ZArith SpecFloat Lia.
From S2P Require Import Prelude Protocol Json Ndjson Commands Multiplexer EventBridge SessionStore.
From S2P Require Import CryptoSession Fingerprint Encodings SessionRelay EventCodec AgentService AgentProtocol.
From S2P Require Import TunnelHandler SessionHistory AgentCorrect.

Section Tunnel.
Context {DT : DebugText} {JT : JsonText} {JW : JsonWrite} {PC : ProstCodec} {ST : SqlText}.
Context {HI : HashIter} {SO : SqlOrder}.
Context {PR : Primitives} {SH : Sha256} {AP : AgentProtocol} {LS : LocalServices}.
Context (clock : Z → Timestamp).

(** * Conversations need the key *)

Definition session_of (h : Handler) : option CryptoSession := th_crypto h ≫= (λ k, th_sessions h !! k).

(** The frames of conversations: the one that begins it and those that
    follow. *)
Definition conversation_payload (f : TunnelFrame) : option StreamPayload :=
  match payload f with
  | Some (StreamData p) =>
      if decide (frame_type f = FtStreamData ∨ frame_type f = FtRequest ∧ sp_method p = method_name METHOD_CONVERSE)
      then Some p else None
  | _ => None
  end.

(** The data of a payload after the decryption of the tunnel's own layer. *)
Definition tunnel_data (p : StreamPayload) (h : Handler) : result string (list Z) :=
  match sp_encrypted p with Some enc => decrypt_payload enc h | None => Ok [] end.

(** A payload holds an envelope that opens under the key, with a request. *)
Definition authentic (s : CryptoSession) (p : StreamPayload) (h : Handler) (req : Request) : Prop :=
  ∃ data c n plaintext, tunnel_data p h = Ok data ∧ m_decode data = Ok (ReqEncrypted c n) ∧
    decrypt s c n = Ok plaintext ∧ m_decode plaintext = Ok req.

(** Two states of the machine that differ at most in what was sent to the
    relay. *)
Record same_machine (h h' : Handler) : Prop := {
  sm_service : th_service h' = th_service h;
  sm_streams : th_streams h' = th_streams h;
  sm_tasks : th_tasks h' = th_tasks h;
  sm_crypto : th_crypto h' = th_crypto h ∧ th_sessions h' = th_sessions h;
  sm_local : th_local h' = th_local h
}.

Lemma same_machine_refl (h : Handler) : same_machine h h.
Proof. done. Qed.

Lemma send_out_same (f : TunnelFrame) (h : Handler) : same_machine h (send_out f h).
Proof. unfold send_out. by destruct (th_open h). Qed.

Hint Resolve same_machine_refl send_out_same : betcode.

Lemma open_request_authentic (s : CryptoSession) (outer req : Request) (h : Handler) :
  session_of h = Some s → open_request outer h = OpenedRequest req →
  ∃ c n plaintext, outer = ReqEncrypted c n ∧ decrypt s c n = Ok plaintext ∧ m_decode plaintext = Ok req.
Proof.
  unfold session_of, open_request. intros ->. destruct outer; try done.
  destruct (decrypt s ciphertext nonce) as [plaintext|] eqn:Hd; [|done].
  destruct (m_decode plaintext) as [inner|] eqn:Hm; [|done]. intros [= ->]. by eauto 6.
Qed.

(** C5: No one without the key takes part in a conversation: once a key is
    installed, a frame of a conversation changes nothing on the machine unless
    it holds an envelope that opens under the key, and then what is done is
    what the enclosed request asks for. *)
Theorem conversation_needs_key (env : TunnelEnv) (s : CryptoSession) (f : TunnelFrame) (p : StreamPayload) (h : Handler) :
  session_of h = Some s → conversation_payload f = Some p →
  same_machine h (handle_frame clock env f h).1 ∨
  ∃ req, authentic s p h req ∧
    match frame_type f with
    | FtStreamData => ∃ a, th_streams h !! request_id f = Some a ∧
        handle_frame clock env f h = (stream_request clock env (request_id f) (as_session_id a) req h, [])
    | _ => ∃ start rf, req = ReqStart start ∧
        handle_frame clock env f h = (start_conversation env (request_id f) start rf h, [])
    end.
Proof.
  intros Hs Hp. unfold conversation_payload in Hp. destruct (payload f) as [[p'| |]|] eqn:Hpl; try done.
  case_decide as Hf; [|done]. injection Hp as ->.
  assert (tunnel_data p h = match sp_encrypted p with Some enc => decrypt_payload enc h | None => Ok [] end) as Ht by done.
  unfold handle_frame. destruct Hf as [Hf|[Hf Hm]]; rewrite Hf.
  - rewrite Hpl, <- Ht. destruct (tunnel_data p h) as [data|] eqn:Hd; [|left; auto with betcode].
    unfold handle_incoming_stream_data. destruct (th_streams h !! request_id f) as [a|] eqn:Ha; [|left; auto with betcode].
    destruct (m_decode data) as [outer|] eqn:Ho; [|left; auto with betcode].
    destruct (open_request outer h) as [req| | |] eqn:Hr; try (left; by auto with betcode).
    destruct (open_request_authentic s outer req h Hs Hr) as (c & n & pt & -> & ? & ?).
    right. exists req. split; [by exists data, c, n, pt|]. by exists a.
  - unfold handle_request. rewrite Hpl, Hm. rewrite decide_False by (by vm_compute). cbn zeta. rewrite parse_method_name, <- Ht.
    destruct (tunnel_data p h) as [data|] eqn:Hd; [|left; auto with betcode].
    unfold handle_converse. cbn [fst].
    destruct (m_decode data) as [outer|] eqn:Ho; [|left; auto with betcode].
    destruct (open_request outer h) as [req| | |] eqn:Hr; try (left; by auto with betcode).
    destruct req; try (left; by auto with betcode).
    destruct (open_request_authentic s outer _ h Hs Hr) as (c & n & pt & -> & ? & ?).
    right. eexists. split; [by exists data, c, n, pt|]. by eauto.
Qed.

(** * Forwarded calls *)

(** The calls of the agent service that answer with one message. *)
Inductive AgentCall :=
| CallList (r : ListSessionsRequest)
| CallCompact (r : CompactSessionRequest)
| CallCancel (r : CancelTurnRequest)
| CallLock (r : InputLockRequest)
| CallGrants (r : ListSessionGrantsRequest)
| CallClear (r : ClearSessionGrantsRequest)
| CallSet (r : SetSessionGrantRequest)
| CallRename (r : RenameSessionRequest)
| CallDelete (r : DeleteSessionRequest).

Definition call_method (c : AgentCall) : Method :=
  match c with
  | CallList _ => METHOD_LIST_SESSIONS | CallCompact _ => METHOD_COMPACT_SESSION | CallCancel _ => METHOD_CANCEL_TURN
  | CallLock _ => METHOD_REQUEST_INPUT_LOCK | CallGrants _ => METHOD_LIST_SESSION_GRANTS
  | CallClear _ => METHOD_CLEAR_SESSION_GRANTS | CallSet _ => METHOD_SET_SESSION_GRANT
  | CallRename _ => METHOD_RENAME_SESSION | CallDelete _ => METHOD_DELETE_SESSION
  end.

Definition call_bytes (c : AgentCall) : list Z :=
  match c with
  | CallList r => m_encode r | CallCompact r => m_encode r | CallCancel r => m_encode r | CallLock r => m_encode r
  | CallGrants r => m_encode r | CallClear r => m_encode r | CallSet r => m_encode r | CallRename r => m_encode r
  | CallDelete r => m_encode r
  end.

(** What the local service does, and the bytes of its response. *)
Definition local_call (env : Env) (client_header : option string) (c : AgentCall) (s : Service)
  : Service * result Status (list Z) :=
  let reply {A M : Type} `{ProtoMessage M} (f : A → M) (x : Service * result Status A) : Service * result Status (list Z) :=
    (x.1, let? a := x.2 in Ok (m_encode (f a))) in
  match c with
  | CallList r =>
      let '(l, n) := svc_list_sessions (lq_working_directory r) (lq_limit r) (lq_offset r) s in (s, Ok (m_encode (mkSessionList l n)))
  | CallCompact r => let '(s', x) := svc_compact_session env (cq_session_id r) s in (s', Ok (m_encode x))
  | CallCancel r => let '(s', b) := svc_cancel_turn env (xq_session_id r) s in (s', Ok (m_encode (mkCancelled b)))
  | CallLock r =>
      let '(s', (g, prev)) := svc_request_input_lock env client_header (iq_session_id r) s in (s', Ok (m_encode (mkLocked g prev)))
  | CallGrants r => reply mkGrants (s, svc_list_session_grants (gq_session_id r) s)
  | CallClear r => reply (λ _, mkEmptyMessage) (svc_clear_session_grants (kq_session_id r) (kq_tool_name r) s)
  | CallSet r => reply (λ _, mkEmptyMessage) (svc_set_session_grant (sq_session_id r) (sq_tool_name r) (sq_granted r) s)
  | CallRename r => reply (λ _, mkEmptyMessage) (svc_rename_session env (nq_session_id r) (nq_name r) s)
  | CallDelete r => reply mkDeleted (svc_delete_session env (dq_session_id r) s)
  end.

(** The frame in which the relay forwards a call. *)
Definition call_frame (now : Z) (rid : string) (c : AgentCall) : TunnelFrame :=
  mkFrame rid FtRequest now
    (Some (StreamData (mkStreamPayload (method_name (call_method c)) (Some (mkEncryptedPayload (call_bytes c) [] [])) 0 ∅))).

(** Deleting the session without a name is an error locally only. *)
Definition same_in_tunnel (c : AgentCall) : Prop :=
  match c with CallDelete r => dq_session_id r ≠ EmptyString | _ => True end.

Lemma forwarded_call (env : TunnelEnv) (now : Z) (rid : string) (c : AgentCall) (h : Handler) :
  same_in_tunnel c →
  let local := local_call (te_env env) (Some (generate_tunnel_client_id (te_client_uuid env))) c (th_service h) in
  let remote := handle_frame clock env (call_frame now rid c) h in
  remote.1 = set_service local.1 h ∧
  match local.2 with
  | Ok buf => remote.2 = [plaintext_response_frame (now_of env) rid buf]
  | Err _ => local.1 = th_service h ∧ ∃ code text, remote.2 = [error_response (now_of env) rid code text]
  end.
Proof.
  intros Hc. assert (set_service (th_service h) h = h) as Hid by by destruct h.
  unfold handle_frame. cbn [frame_type call_frame]. unfold handle_request. cbn [payload call_frame sp_method sp_encrypted].
  rewrite decide_False by (by destruct c; vm_compute). cbn zeta.
  rewrite parse_method_name. unfold decrypt_payload. cbn [ep_nonce ep_ciphertext]. rewrite decide_True by done.
  rewrite bool_decide_true by done. destruct c as [r|r|r|r|r|r|r|r|r]; cbn [call_method call_bytes local_call]; cbn zeta;
    unfold handle_list_sessions, handle_compact_session, handle_cancel_turn, handle_request_input_lock,
      handle_list_session_grants, handle_clear_session_grants, handle_set_session_grant, handle_rename_session,
      handle_delete_session, with_request; rewrite m_decode_encode; cbn beta.
  - unfold svc_list_sessions. cbn. by rewrite Hid.
  - unfold svc_compact_session, th_relay. repeat case_match; simplify_eq/=; by rewrite ?Hid.
  - unfold svc_cancel_turn, th_relay. by destruct (cancel_session _ _ _).
  - unfold svc_request_input_lock, th_relay. by destruct (acquire_input_lock _ _ _ _).
  - unfold svc_list_session_grants, require_session_handle, th_relay.
    destruct (get_handle _ _); cbn; rewrite Hid; [done|]. split_and!; [done|done|by eexists _, _].
  - unfold svc_clear_session_grants, change_cells, require_session_handle, th_relay.
    destruct (get_handle _ _); cbn; [done|]. rewrite Hid. split_and!; [done|done|by eexists _, _].
  - unfold svc_set_session_grant, change_cells, require_session_handle, th_relay.
    case_decide; cbn; [rewrite Hid; split_and!; [done|done|by eexists _, _]|].
    destruct (get_handle _ _); cbn; [done|]. rewrite Hid. split_and!; [done|done|by eexists _, _].
  - unfold svc_rename_session, th_relay.
    destruct (update_session_name _ _ _ _) as [d [u|e]]; cbn; [done|].
    destruct e; cbn; rewrite Hid; (split_and!; [done|done|by eexists _, _]).
  - unfold svc_delete_session, th_relay. simpl in Hc. rewrite decide_False by done.
    by destruct (delete_session _ _).
Qed.

Definition deletes_unnamed (c : AgentCall) : bool :=
  match c with CallDelete r => bool_decide (dq_session_id r = EmptyString) | _ => false end.

Lemma forwarded_unnamed (env : TunnelEnv) (now : Z) (rid : string) (c : AgentCall) (header : option string) (h : Handler) :
  deletes_unnamed c = true →
  (local_call (te_env env) header c (th_service h)).1 = th_service h ∧ (∃ e, (local_call (te_env env) header c (th_service h)).2 = Err e) ∧
  ∃ deleted, (handle_frame clock env (call_frame now rid c) h).2 = [plaintext_response_frame (now_of env) rid (m_encode (mkDeleted deleted))].
Proof.
  destruct c as [| | | | | | | |r]; try done. intros Hr%bool_decide_eq_true. cbn [local_call]. unfold svc_delete_session. rewrite decide_True by done.
  split; [done|]. split; [by eexists|]. unfold handle_frame. cbn [frame_type call_frame]. unfold handle_request. cbn [payload call_frame sp_method sp_encrypted].
  rewrite decide_False by done. cbn zeta. rewrite parse_method_name. unfold decrypt_payload. cbn [ep_nonce ep_ciphertext]. rewrite decide_True by done.
  rewrite bool_decide_true by done. cbn [call_method call_bytes]. unfold handle_delete_session, with_request. rewrite m_decode_encode. cbn beta.
  destruct (delete_session _ _) as [d deleted]. by exists deleted.
Qed.

(** C18: Through the tunnel each of the nine calls of the agent service that are
    answered at once (listing, compacting, cancelling, taking the lock,
    listing, clearing and setting grants, renaming, deleting) has the effect
    that it has locally, and the answer holds the bytes of the local response;
    where the local call is refused, nothing changes and the answer is an
    error.  The one exception is deleting the session without a name, which is
    refused locally and carried out through the tunnel. *)
Theorem forwarded_call_is_local_call (env : TunnelEnv) (now : Z) (rid : string) (c : AgentCall) (h : Handler) :
  let local := local_call (te_env env) (Some (generate_tunnel_client_id (te_client_uuid env))) c (th_service h) in
  let remote := handle_frame clock env (call_frame now rid c) h in
  if deletes_unnamed c then
    local.1 = th_service h ∧ (∃ e, local.2 = Err e) ∧
    ∃ deleted, remote.2 = [plaintext_response_frame (now_of env) rid (m_encode (mkDeleted deleted))]
  else
    remote.1 = set_service local.1 h ∧
    match local.2 with
    | Ok buf => remote.2 = [plaintext_response_frame (now_of env) rid buf]
    | Err _ => local.1 = th_service h ∧ ∃ code text, remote.2 = [error_response (now_of env) rid code text]
    end.
Proof.
  destruct (deletes_unnamed c) eqn:Hd; [by apply forwarded_unnamed|]. apply forwarded_call.
  destruct c; try done. cbn in *. by apply bool_decide_eq_false in Hd.
Qed.

(** * The order of messages *)

(** What a frame of a conversation asks for, once it is opened. *)
Definition frame_request (f : TunnelFrame) (h : Handler) : option Request :=
  match frame_type f, payload f with
  | FtStreamData, Some (StreamData p) =>
      match tunnel_data p h with
      | Ok data =>
          match m_decode data with
          | Ok outer => match open_request outer h with OpenedRequest req => Some req | _ => None end
          | Err _ => None
          end
      | Err _ => None
      end
  | _, _ => None
  end.

(** A stream of the tunnel talks to a running process. *)
Record talking (rid sid pid : string) (ls : list string) (h : Handler) : Prop := {
  tk_stream : th_streams h !! rid = Some (mkActive sid None);
  tk_handle : r_sessions (th_relay h) !! sid = Some (mkRelayHandle pid sid);
  tk_stdin : stdins (r_subprocesses (th_relay h)) !! pid = Some (mkStdin ls true)
}.

Definition agent_of (agent_id : string) : option string := if decide (agent_id = EmptyString) then None else Some agent_id.

Lemma frame_request_handled (env : TunnelEnv) (f : TunnelFrame) (rid sid : string) (a : ActiveStream) (req : Request) (h : Handler) :
  request_id f = rid → th_streams h !! rid = Some a → frame_request f h = Some req →
  frame_task clock env f h = stream_request clock env rid (as_session_id a) req h.
Proof.
  intros Hrid Ha. unfold frame_request, frame_task, handle_frame, tunnel_data.
  destruct (frame_type f); try done. destruct (payload f) as [[p| |]|]; try done.
  destruct (match sp_encrypted p with Some _ => _ | None => _ end) as [data|]; [|done].
  unfold handle_incoming_stream_data. rewrite Hrid, Ha. destruct (m_decode data) as [outer|]; [|done].
  destruct (open_request outer h); try done. by intros [= ->].
Qed.

(** The task of a frame with a user's message. *)
Lemma message_handled (env : TunnelEnv) (f : TunnelFrame) (rid sid pid content agent_id : string) (ls : list string) (h : Handler) :
  request_id f = rid → talking rid sid pid ls h → frame_request f h = Some (ReqMessage content agent_id) →
  let h' := frame_task clock env f h in
  talking rid sid pid (ls ++ [json_to_string (user_message content (agent_of agent_id))]) h' ∧
  th_crypto h' = th_crypto h ∧ th_sessions h' = th_sessions h.
Proof.
  intros Hrid [Hs Hh Hin] Hreq. cbn zeta. rewrite (frame_request_handled env f rid sid _ _ _ Hrid Hs Hreq).
  unfold stream_request. rewrite Hs. simpl. unfold send_user_message, get_active_handle. rewrite Hh.
  unfold relay_stdin, stdin_send. cbn [r_subprocesses set_relay_db update_cells set_cells rh_process_id]. rewrite Hin.
  split; [|done]. split; simpl; [done|done|]. by rewrite lookup_insert_eq.
Qed.

Lemma frame_request_keys (f : TunnelFrame) (h h' : Handler) :
  th_crypto h' = th_crypto h → th_sessions h' = th_sessions h → frame_request f h' = frame_request f h.
Proof.
  intros H1 H2. unfold frame_request, tunnel_data, decrypt_payload, open_request. by rewrite H1, H2.
Qed.

(** Messages may overtake each other: two messages that a client sends one
    after the other, and that the relay forwards in this order, may reach the
    agent in either order, because each frame has a task of its own. *)
Theorem messages_overtake (env : TunnelEnv) (f1 f2 : TunnelFrame) (rid sid pid m1 m2 a1 a2 : string) (ls : list string)
    (n : Node) :
  request_id f1 = rid → request_id f2 = rid → talking rid sid pid ls (nd_handler n) →
  frame_request f1 (nd_handler n) = Some (ReqMessage m1 a1) →
  frame_request f2 (nd_handler n) = Some (ReqMessage m2 a2) →
  let line1 := json_to_string (user_message m1 (agent_of a1)) in
  let line2 := json_to_string (user_message m2 (agent_of a2)) in
  let first := nd_arrived n in
  let arrive := [(env, NArrive f1); (env, NArrive f2)] in
  let agent_input trace := stdin_lines pid (th_relay (nd_handler (node_run clock (arrive ++ trace) n))) in
  agent_input [(env, NHandle first); (env, NHandle (S first))] = Some (ls ++ [line1; line2]) ∧
  agent_input [(env, NHandle (S first)); (env, NHandle first)] = Some (ls ++ [line2; line1]).
Proof.
  intros R1 R2 Ht F1 F2. cbn zeta. unfold node_run, stdin_lines. simpl.
  do 2 (repeat first [rewrite lookup_insert_eq|rewrite lookup_insert_ne by lia|rewrite lookup_delete_ne by lia]; simpl).
  split.
  - destruct (message_handled env f1 rid sid pid m1 a1 ls _ R1 Ht F1) as (T1 & C1 & S1).
    rewrite <- (frame_request_keys f2 _ _ C1 S1) in F2.
    destruct (message_handled env f2 rid sid pid m2 a2 _ _ R2 T1 F2) as ([_ _ ->] & _). simpl. by rewrite <- app_assoc.
  - destruct (message_handled env f2 rid sid pid m2 a2 ls _ R2 Ht F2) as (T2 & C2 & S2).
    rewrite <- (frame_request_keys f1 _ _ C2 S2) in F1.
    destruct (message_handled env f1 rid sid pid m1 a1 _ _ R1 T2 F1) as ([_ _ ->] & _). simpl. by rewrite <- app_assoc.
Qed.

End Tunnel.

(** * Concrete tunnels *)

#[local] Existing Instance toy_primitives.
#[local] Existing Instance toy_sha256.

Definition demo_tunnel_env (uuid : string) : TunnelEnv :=
  mkTunnelEnv (demo_env uuid) uuid (replicate 32 3%Z) (replicate 8 4%Z).

(** The daemon on which session "s" runs, with a tunnel and no key yet. *)
Definition demo_handler : Handler :=
  handler_new demo_started (Some (generate (replicate 32 7%Z))) (λ _, true) tt.

(** The key of a client and the daemon, and the daemon's end installed. *)
Definition demo_key : CryptoSession := mkCryptoSession [1; 2]%Z (replicate 8 5%Z) 0.
Definition demo_keyed : Handler := set_crypto (Some 0) [mkCryptoSession [1; 2]%Z (replicate 8 6%Z) 0] demo_handler.

(** Stream "r1" of the tunnel belongs to session "s". *)
Definition demo_stream (h : Handler) : Handler := set_streams {["r1" := mkActive "s" None]} h.

Definition demo_frame (rid : string) (ft : FrameType) (method : string) (data : list Z) : TunnelFrame :=
  mkFrame rid ft 0 (Some (StreamData (mkStreamPayload method (Some (mkEncryptedPayload data [] [])) 0 ∅))).

Definition demo_line (content : string) : string := json_to_string (user_message content None).

(** A message that is not encrypted reaches no agent. *)
Lemma conversation_needs_key_witness :
  same_machine (demo_stream demo_keyed)
    (handle_frame demo_clock (demo_tunnel_env "u") (demo_frame "r1" FtStreamData "" (m_encode (ReqMessage "rm" "")))
       (demo_stream demo_keyed)).1.
Proof.
  destruct (conversation_needs_key demo_clock (demo_tunnel_env "u") (mkCryptoSession [1; 2]%Z (replicate 8 6%Z) 0)
    (demo_frame "r1" FtStreamData "" (m_encode (ReqMessage "rm" "")))
    (mkStreamPayload "" (Some (mkEncryptedPayload (m_encode (ReqMessage "rm" "")) [] [])) 0 ∅) (demo_stream demo_keyed))
    as [H|(req & (data & c & n & pt & Hd & Hm & _) & _)].
  - reflexivity.
  - reflexivity.
  - exact H.
  - exfalso. vm_compute in Hd. injection Hd as <-. vm_compute in Hm. discriminate Hm.
Defined.

Lemma forwarded_call_is_local_call_witness :
  let r := handle_frame demo_clock (demo_tunnel_env "u") (call_frame 0 "r2" (CallDelete (mkDelete "s"))) demo_handler in
  r_sessions (th_relay r.1) = ∅ ∧ r.2 = [plaintext_response_frame 100 "r2" (m_encode (mkDeleted true))].
Proof.
  destruct (forwarded_call_is_local_call demo_clock (demo_tunnel_env "u") 0 "r2" (CallDelete (mkDelete "s")) demo_handler)
    as [H1 H2].
  cbn zeta. rewrite H1. split; [vm_compute; reflexivity|]. etrans; [|exact H2]. vm_compute. reflexivity.
Defined.

Definition demo_node : Node := mkNode (demo_stream demo_handler) ∅ 0.

Lemma messages_overtake_witness :
  let e := demo_tunnel_env "u" in
  let f1 := demo_frame "r1" FtStreamData "" (m_encode (ReqMessage "one" "")) in
  let f2 := demo_frame "r1" FtStreamData "" (m_encode (ReqMessage "two" "")) in
  let agent_input trace := stdin_lines "p1" (th_relay (nd_handler (node_run demo_clock ([(e, NArrive f1); (e, NArrive f2)] ++ trace) demo_node))) in
  agent_input [(e, NHandle 0); (e, NHandle 1)] = Some [demo_line "one"; demo_line "two"] ∧
  agent_input [(e, NHandle 1); (e, NHandle 0)] = Some [demo_line "two"; demo_line "one"].
Proof.
  apply (messages_overtake demo_clock (demo_tunnel_env "u")
    (demo_frame "r1" FtStreamData "" (m_encode (ReqMessage "one" ""))) (demo_frame "r1" FtStreamData "" (m_encode (ReqMessage "two" "")))
    "r1" "s" "p1" "one" "two" "" "" [] demo_node); try (vm_compute; reflexivity).
  split; vm_compute; reflexivity.
Defined.
