(* ===== verification/EndToEnd.v ===== *)
(** End to end: client, relay and daemon together.

    The relay forwards what a client sends as frames ([converse_frame]) and
    turns the frames of the daemon back into events ([converse_events]).  With
    a key exchanged, a conversation through the relay is the one that the
    client and the daemon would have without it, and the relay sees envelopes
    only; but the exchange does not tell the daemon from the relay, a second
    client shuts out the first, and calls outside conversations need no
    key. *)
From stdpp Require Import gmap strings list.
From Stdlib Require Import ZArith SpecFloat Lia.
From S2P Require Import RelayProxy.
From S2P Require Import Prelude Protocol Json Ndjson Commands Multiplexer EventBridge SessionStore.
From S2P Require Import CryptoSession Fingerprint Encodings SessionRelay EventCodec AgentService AgentProtocol.
From S2P Require Import TunnelHandler ClientConnection SessionHistory AgentCorrect TunnelCorrect.

(** Two ends of one key. *)
Record paired (s d : CryptoSession) : Prop := {
  pd_cipher : cipher s = cipher d;
  pd_prefixes : length (nonce_prefix s) = 8 ∧ length (nonce_prefix d) = 8
}.

(** The session can still count [n] messages. *)
Definition room (n : nat) (s : CryptoSession) : Prop := (0 ≤ nonce_counter s)%Z ∧ (nonce_counter s + Z.of_nat n ≤ u32_max)%Z.

Section EndToEnd.
Context {DT : DebugText} {JT : JsonText} {JW : JsonWrite} {PC : ProstCodec} {ST : SqlText}.
Context {HI : HashIter} {SO : SqlOrder}.
Context {PR : Primitives} {SH : Sha256} {AP : AgentProtocol} {LS : LocalServices}.
Context (clock : Z → Timestamp).

(** ChaCha20-Poly1305 refuses only messages of hundreds of gigabytes. *)
Definition seals_everything : Prop := ∀ key nonce p, is_ok (aead_encrypt key nonce p) = true.

(** HKDF with SHA-256 makes keys of 32 bytes. *)
Definition derives_always : Prop := ∀ salt secret info, is_ok (hkdf_sha256 salt secret info) = true.

Lemma encrypt_room (p : list Z) (s : CryptoSession) (n : nat) :
  seals_everything → room (S n) s →
  ∃ d, encrypt p s = (mkCryptoSession (cipher s) (nonce_prefix s) (nonce_counter s + 1), Ok d).
Proof.
  intros Hs [H0 Hr]. unfold encrypt. destruct (next_nonce_spec s) as [[_ Hm]|[_ ->]]; [lia|]. cbn [result_bind].
  specialize (Hs (cipher s) (nonce_bytes (nonce_prefix s) (nonce_counter s)) p).
  destruct (aead_encrypt _ _ p) as [c|]; [|done]. simpl. by eauto.
Qed.

Lemma room_next (s : CryptoSession) (n : nat) :
  room (S n) s → room n (mkCryptoSession (cipher s) (nonce_prefix s) (nonce_counter s + 1)).
Proof. unfold room. simpl. lia. Qed.

Lemma paired_next (s d : CryptoSession) (z : Z) :
  paired s d → paired (mkCryptoSession (cipher s) (nonce_prefix s) z) d ∧ paired s (mkCryptoSession (cipher d) (nonce_prefix d) z).
Proof. by intros [? []]. Qed.

(** * From the client to the agent *)

Lemma converse_frame_data (now : Z) (rid : string) (w : Request) (h : Handler) :
  frame_request (converse_frame now rid w) h =
    match m_decode (m_encode w) with
    | Ok outer => match open_request outer h with OpenedRequest req => Some req | _ => None end
    | Err _ => None
    end.
Proof. done. Qed.

Lemma frame_of_sealed (now : Z) (rid : string) (req : Request) (s s' d : CryptoSession) (w : Request) (h : Handler) :
  encrypt_agent_request req s = (s', Ok w) → paired s d → session_of h = Some d →
  frame_request (converse_frame now rid w) h = Some req.
Proof.
  unfold encrypt_agent_request. destruct (encrypt (m_encode req) s) as [s1 [e|]] eqn:He; [|done].
  intros [= <- <-] [Hc [Hp _]] Hd. destruct (encrypt_opens s s1 d (m_encode req) e He) as (Ho & _ & _); [done|done|].
  rewrite converse_frame_data, m_decode_encode.
  unfold open_request, session_of in *. rewrite Hd, Ho. by rewrite m_decode_encode.
Qed.

(** The requests that a client sends, one after the other. *)
Definition send_all (reqs : list Request) (t : Conversation) (c : DaemonConnection) : Conversation * DaemonConnection :=
  foldl (λ tc r, converse_send r tc.1 tc.2) (t, c) reqs.

(** A handler that has no key, and is otherwise in the same state. *)
Definition without_key (h : Handler) : Handler := set_crypto None [] h.

Lemma stream_request_key (env : TunnelEnv) (rid sid : string) (req : Request) (k : option nat) (ss : list CryptoSession) (h : Handler) :
  stream_request clock env rid sid req (set_crypto k ss h) = set_crypto k ss (stream_request clock env rid sid req h).
Proof.
  unfold stream_request, th_relay. cbn [th_streams th_service set_crypto].
  destruct req; try done; [destruct (th_streams h !! rid ≫= as_pending_config); [|done]|..];
    try (by destruct (th_streams h !! rid ≫= as_pending_config)).
  destruct (start_session _ _ _ _ _) as [r' [hd|e]]; [done|].
  unfold set_streams, send_out. cbn. by destruct (th_open h).
Qed.

Lemma stream_request_keeps (env : TunnelEnv) (rid sid : string) (req : Request) (h : Handler) :
  session_of (stream_request clock env rid sid req h) = session_of h.
Proof.
  assert (h = set_crypto (th_crypto h) (th_sessions h) h) as E by by destruct h.
  rewrite E at 1. by rewrite stream_request_key.
Qed.

(** A frame of a conversation, as the handler of it sees it. *)
Lemma frame_task_spec (env : TunnelEnv) (now : Z) (rid : string) (w req : Request) (h : Handler) :
  frame_request (converse_frame now rid w) h = Some req →
  frame_task clock env (converse_frame now rid w) h =
    match th_streams h !! rid with
    | Some a => stream_request clock env rid (as_session_id a) req h
    | None => h
    end.
Proof.
  intros Hf. destruct (th_streams h !! rid) as [a|] eqn:Ha.
  - apply (frame_request_handled clock env _ rid (as_session_id a)); done.
  - unfold frame_task, handle_frame, converse_frame. cbn. unfold handle_incoming_stream_data. by rewrite Ha.
Qed.

Lemma frame_task_stream (env : TunnelEnv) (now : Z) (rid : string) (w : Request) (h : Handler) :
  frame_task clock env (converse_frame now rid w) h = handle_incoming_stream_data clock env rid (m_encode w) h.
Proof. done. Qed.

Lemma frame_request_plain (now : Z) (rid : string) (req : Request) (h : Handler) :
  th_crypto h = None → frame_request (converse_frame now rid req) h = Some req.
Proof.
  intros Hc. rewrite converse_frame_data, m_decode_encode. unfold open_request. by rewrite Hc.
Qed.

(** C4: Encryption is transparent: what the daemon does with the sealed requests
    of a client is what it does with the requests themselves when there is no
    encryption. *)
Theorem encryption_is_transparent (env : TunnelEnv) (now : Z) (rid : string) (reqs : list Request) (t : Conversation)
    (c : DaemonConnection) (k : nat) (s d : CryptoSession) (h : Handler) :
  seals_everything → ct_sending t = true → ct_crypto t = Some k → cn_sessions c !! k = Some s →
  session_of h = Some d → paired s d → room (length reqs) s →
  ∃ wire, ct_wire (send_all reqs t c).1 = ct_wire t ++ wire ∧
    let deliver ws h := foldl (λ h w, frame_task clock env (converse_frame now rid w) h) h ws in
    without_key (deliver wire h) = deliver reqs (without_key h) ∧
    Forall (λ w, ∃ ct n, w = ReqEncrypted ct n) wire.
Proof.
  intros Hall. revert t c s h. induction reqs as [|req reqs IH]; intros t c s h Hsend Hk Hs Hd Hp Hroom.
  { exists []. simpl. by rewrite app_nil_r. }
  unfold send_all. cbn [foldl fst snd].
  destruct (encrypt_room (m_encode req) s _ Hall Hroom) as [e He].
  assert (∃ w s', encrypt_agent_request req s = (s', Ok w) ∧ (∃ ct n, w = ReqEncrypted ct n) ∧
    s' = mkCryptoSession (cipher s) (nonce_prefix s) (nonce_counter s + 1)) as (w & s' & Hw & Hshape & ->).
  { unfold encrypt_agent_request. rewrite He. by eauto 8. }
  set (c1 := mkConnection (cn_config c) (cn_client c) (cn_state c) (cn_crypto c)
    (<[k := mkCryptoSession (cipher s) (nonce_prefix s) (nonce_counter s + 1)]> (cn_sessions c)) (cn_identity c) (cn_store c)).
  assert (converse_send req t c = (put_wire w t, c1)) as -> by (unfold converse_send; by rewrite Hsend, Hk, Hs, Hw).
  pose proof (frame_of_sealed now rid req s _ d w h Hw Hp Hd) as Hf.
  pose proof (frame_task_spec env now rid w req h Hf) as Ht.
  set (h1 := frame_task clock env (converse_frame now rid w) h) in *.
  assert (session_of h1 = Some d) as Hd1 by (rewrite Ht; destruct (th_streams h !! rid); [by rewrite stream_request_keeps|done]).
  destruct (IH (put_wire w t) c1 (mkCryptoSession (cipher s) (nonce_prefix s) (nonce_counter s + 1)) h1) as (wire & Hwire & Heq & Henv); simpl; try done.
  { apply list_lookup_insert_eq. by eapply lookup_lt_Some. }
  { by apply paired_next. }
  { by apply room_next. }
  exists (w :: wire). split_and!; [|cbn zeta; cbn [foldl]|by constructor].
  { unfold send_all in Hwire. rewrite Hwire. simpl. by rewrite <- app_assoc. }
  fold h1. rewrite Heq. f_equal. rewrite Ht.
  rewrite (frame_task_spec env now rid req req (without_key h)) by by apply frame_request_plain.
  unfold without_key. cbn [th_streams set_crypto]. destruct (th_streams h !! rid); [|done]. by rewrite <- stream_request_key.
Qed.

(** * From the agent to the client *)

(** The events that a receiver has not read. *)
Definition events_after (m : SessionMultiplexer EventBody) (rx : nat * nat) : list (AgentEvent EventBody) :=
  (filter (λ x, x.1 = rx.1) (drop rx.2 (sent m))).*2.

(** How many events a receiver may be behind. *)
Definition broadcast_room (m : SessionMultiplexer EventBody) : nat := 2 ^ Nat.log2_up (broadcast_capacity (config m)).

Lemma next_in_spec (chan pos : nat) (log : list (nat * AgentEvent EventBody)) (e : AgentEvent EventBody) es :
  (filter (λ x, x.1 = chan) log).*2 = e :: es →
  ∃ n, next_in chan log pos = Some (e, S (n + pos)) ∧ (filter (λ x, x.1 = chan) (drop (S n) log)).*2 = es.
Proof.
  revert pos. induction log as [|[c x] log IH]; intros pos; [done|]. rewrite filter_cons. simpl. case_decide as Hc.
  - rewrite fmap_cons. intros [= -> <-]. exists 0. by rewrite drop_0.
  - intros H. destruct (IH (S pos) H) as (n & -> & ?). exists (S n). split; [|done]. do 2 f_equal. lia.
Qed.

Lemma recv_event_spec (m : SessionMultiplexer EventBody) (rx : nat * nat) (e : AgentEvent EventBody) es :
  events_after m rx = e :: es → length (e :: es) ≤ broadcast_room m →
  ∃ pos, recv_event m rx = GotEvent e pos ∧ events_after m (rx.1, pos) = es.
Proof.
  unfold events_after, recv_event. intros H Hcap. destruct (next_in_spec rx.1 rx.2 _ e es H) as (n & -> & Hn).
  exists (S (n + rx.2)). simpl. rewrite drop_drop in Hn. split; [|etrans; [|exact Hn]; do 3 f_equal; lia].
  rewrite decide_False; [done|]. unfold unread, broadcast_room in *. rewrite <- (length_fmap snd), H. lia.
Qed.

Lemma envelope_opens (d d' s : CryptoSession) (x : EncryptedData) (seq : Z) (ts : option Timestamp)
    (e : AgentEvent EventBody) :
  encrypt (encode_event e) d = (d', Ok x) → paired s d →
  decrypt_agent_event s (mkEvent seq (mkBody ts EmptyString (Some (EvEncrypted (ciphertext x) (enc_nonce x))))) = Ok e.
Proof.
  intros He [Hc [_ Hp]]. destruct (encrypt_opens d d' s _ x He) as (Ho & _ & _); [done|done|].
  unfold decrypt_agent_event. cbn [eb_event ev_payload]. rewrite Ho. by rewrite decode_encode_event.
Qed.

Definition is_envelope (e : AgentEvent EventBody) : Prop := ∃ ct n, eb_event (ev_payload e) = Some (EvEncrypted ct n).

(** One event: the frame that is sent, and what the client makes of it. *)
Lemma forward_one (env : TunnelEnv) (t k : nat) (f : Forwarder) (e : AgentEvent EventBody) es (d s : CryptoSession) (h : Handler) :
  th_tasks h !! t = Some (TForward f) → fw_crypto f = Some k → th_sessions h !! k = Some d → th_open h = true →
  events_after (r_mux (th_relay h)) (fw_event_rx f) = e :: es →
  length (e :: es) ≤ broadcast_room (r_mux (th_relay h)) →
  seals_everything → room (S (length es)) d → paired s d →
  ∃ frame sealed f',
    let h' := task_step env t None h in
    let d' := mkCryptoSession (cipher d) (nonce_prefix d) (nonce_counter d + 1) in
    th_outbound h' = th_outbound h ++ [frame] ∧ converse_events [frame] = [Ok sealed] ∧ is_envelope sealed ∧
    decrypt_agent_event s sealed = Ok e ∧ th_tasks h' !! t = Some (TForward f') ∧ fw_crypto f' = Some k ∧
    th_sessions h' !! k = Some d' ∧ th_open h' = true ∧ r_mux (th_relay h') = r_mux (th_relay h) ∧
    events_after (r_mux (th_relay h')) (fw_event_rx f') = es ∧ frame_type frame = FtStreamData.
Proof.
  intros Ht Hk Hd Hopen Hes Hcap Hall Hroom Hp. unfold task_step. rewrite Ht. unfold forwarder_step.
  destruct (recv_event_spec _ _ e es Hes Hcap) as (pos & -> & Hpos).
  unfold send_event. cbn [fw_crypto forwarder_at]. rewrite Hk. unfold seal_event, encrypt_with. rewrite Hd.
  destruct (encrypt_room (encode_event e) d _ Hall Hroom) as [x Hx]. rewrite Hx.
  set (sealed := mkEvent _ _). unfold wrap_stream. rewrite bool_decide_true by by eexists.
  rewrite orb_true_r. cbn [make_encrypted_payload th_open set_crypto]. rewrite Hopen.
  exists (payload_frame (now_of env) (fw_request_id f) FtStreamData (mkEncryptedPayload (encode_event sealed) [] []) (fw_seq f)), sealed,
    (forwarder_sent (forwarder_at pos f)). cbn zeta. unfold send_out. cbn [th_open set_crypto]. rewrite Hopen. split_and!; try done.
  - unfold converse_events, payload_frame, payload_data. cbn. by rewrite decode_encode_event.
  - by eexists _, _.
  - by apply (envelope_opens d _ s x _ _ e Hx).
  - cbn. apply lookup_insert_eq.
  - cbn. apply list_lookup_insert_eq. by eapply lookup_lt_Some.
Qed.

Lemma events_delivered (env : TunnelEnv) (t k kc : nat) (f : Forwarder) (d s : CryptoSession) (h : Handler)
    (c : DaemonConnection) (ct : Conversation) :
  th_tasks h !! t = Some (TForward f) → fw_crypto f = Some k → th_sessions h !! k = Some d → th_open h = true →
  ct_crypto ct = Some kc → cn_sessions c !! kc = Some s → ct_reading ct = true → paired s d →
  let es := events_after (r_mux (th_relay h)) (fw_event_rx f) in
  length es ≤ broadcast_room (r_mux (th_relay h)) →
  seals_everything → room (length es) d →
  let h' := Nat.iter (length es) (task_step env t None) h in
  ∃ frames sealed, th_outbound h' = th_outbound h ++ frames ∧ converse_events frames = Ok <$> sealed ∧
    Forall is_envelope sealed ∧
    ct_events (converse_receive_all sealed ct c) = ct_events ct ++ (Ok <$> es).
Proof.
  intros Ht Hk Hd Hopen Hkc Hs Hread Hp es. remember es as es' eqn:Hes. subst es. symmetry in Hes.
  intros Hcap Hall. revert f d h ct Ht Hk Hd Hopen Hkc Hread Hp Hes Hcap. induction es' as [|e es IH];
    intros f d h ct Ht Hk Hd Hopen Hkc Hread Hp Hes Hcap Hroom; cbn zeta.
  { exists [], []. simpl. rewrite !app_nil_r. by split_and!. }
  destruct (forward_one env t k f e es d s h Ht Hk Hd Hopen Hes Hcap Hall Hroom Hp)
    as (frame & sealed & f' & Hout & Hconv & Henv & Hdec & Ht' & Hk' & Hd' & Hopen' & Hmux & Hes' & Hft).
  cbn [length]. rewrite Nat.iter_succ_r. set (h1 := task_step env t None h) in *.
  set (ct1 := give (Ok e) (set_reading true 0 ct)).
  destruct (IH f' (mkCryptoSession (cipher d) (nonce_prefix d) (nonce_counter d + 1)) h1 ct1) as (fs & ss & H1 & H2 & H3 & H4);
    try done.
  { by apply paired_next. }
  { rewrite Hmux. simpl in Hcap. lia. }
  { by apply room_next. }
  exists (frame :: fs), (sealed :: ss). cbn zeta in H1. rewrite H1, Hout. split_and!.
  - by rewrite <- app_assoc.
  - revert Hconv H2. unfold converse_events. fold (@converse_events PC). rewrite Hft. rewrite !decide_True by done.
    destruct (payload frame) as [[p| |]|]; try done. destruct (decode_event (payload_data p)) as [x|]; [|done].
    intros [= ->] ->. done.
  - by constructor.
  - assert (converse_receive (Ok (Some sealed)) ct c = ct1) as Hrec.
    { unfold converse_receive. rewrite Hread, Hkc. cbn. by rewrite Hs, Hdec. }
    unfold converse_receive_all in *. cbn [foldl]. rewrite Hrec, H4. simpl. by rewrite <- app_assoc.
Qed.

(** Nothing of the handler changes but the place of the forwarder. *)
Definition forwarder_moved (t : nat) (es : list (AgentEvent EventBody)) (f : Forwarder) (h h' : Handler) : Prop :=
  ∃ f', h' = put_task t (TForward f') h ∧ fw_crypto f' = fw_crypto f ∧ events_after (r_mux (th_relay h)) (fw_event_rx f') = es.

(** A forwarder that is too far behind skips the oldest event. *)
Lemma forward_lags (env : TunnelEnv) (t : nat) (f : Forwarder) (e : AgentEvent EventBody) es (h : Handler) :
  th_tasks h !! t = Some (TForward f) → events_after (r_mux (th_relay h)) (fw_event_rx f) = e :: es →
  broadcast_room (r_mux (th_relay h)) ≤ length es → forwarder_moved t es f h (task_step env t None h).
Proof.
  intros Ht Hes Hcap. unfold task_step. rewrite Ht. unfold forwarder_step, recv_event.
  destruct (next_in_spec (fw_event_rx f).1 (fw_event_rx f).2 _ e es Hes) as (n & -> & Hn). rewrite decide_True.
  - eexists. split; [done|]. split; [done|]. cbn [fw_event_rx forwarder_at]. unfold events_after. cbn [fst snd]. rewrite drop_drop in Hn.
    etrans; [|exact Hn]. do 3 f_equal. lia.
  - unfold unread. unfold broadcast_room in Hcap. rewrite <- (length_fmap snd). unfold events_after in Hes. rewrite Hes. simpl. lia.
Qed.

Lemma forward_skips (env : TunnelEnv) (t n : nat) (f : Forwarder) (h : Handler) :
  let es := events_after (r_mux (th_relay h)) (fw_event_rx f) in
  th_tasks h !! t = Some (TForward f) → n ≤ length es - broadcast_room (r_mux (th_relay h)) →
  n = 0 ∨ forwarder_moved t (drop n es) f h (Nat.iter n (task_step env t None) h).
Proof.
  intros es Ht. induction n as [|n IH]; intros Hn; [by left|right]. destruct (drop n es) as [|e rest] eqn:Hd.
  { apply (f_equal length) in Hd. rewrite length_drop in Hd. simpl in Hd. lia. }
  assert (length rest = length es - S n) as Hl by (apply (f_equal length) in Hd; rewrite length_drop in Hd; simpl in Hd; lia).
  assert (drop (S n) es = rest) as -> by (rewrite <- Nat.add_1_r, <- drop_drop, Hd; done). simpl.
  destruct IH as [->|(f' & -> & Hc & He)]; [lia| |].
  - apply (forward_lags env t f e rest h); [done|by rewrite drop_0 in Hd|clearbody es; lia].
  - destruct (forward_lags env t f' e rest (put_task t (TForward f') h)) as (f'' & -> & Hc' & He'); [apply lookup_insert_eq|exact He|change (broadcast_room (r_mux (th_relay h)) ≤ length rest); clearbody es; lia|].
    exists f''. split; [|split; [congruence|done]]. unfold put_task, set_tasks. simpl. by rewrite insert_insert_eq.
Qed.

(** C14: The events come back: once a conversation has a key, the events of its
    session leave the daemon in envelopes, which is all that the relay sees,
    and the client is given these events, in their order: all of them when
    the forwarder is no further behind than the broadcast channel has room,
    and the newest that have room in it when it is. *)
Theorem events_come_back (env : TunnelEnv) (t k kc : nat) (f : Forwarder) (d s : CryptoSession) (h : Handler)
    (c : DaemonConnection) (ct : Conversation) :
  th_tasks h !! t = Some (TForward f) → fw_crypto f = Some k → th_sessions h !! k = Some d → th_open h = true →
  ct_crypto ct = Some kc → cn_sessions c !! kc = Some s → ct_reading ct = true → paired s d →
  let es := events_after (r_mux (th_relay h)) (fw_event_rx f) in
  let kept := drop (length es - broadcast_room (r_mux (th_relay h))) es in
  seals_everything → room (length kept) d →
  let h' := Nat.iter (length es) (task_step env t None) h in
  ∃ frames sealed, th_outbound h' = th_outbound h ++ frames ∧ converse_events frames = Ok <$> sealed ∧
    Forall is_envelope sealed ∧
    ct_events (converse_receive_all sealed ct c) = ct_events ct ++ (Ok <$> kept).
Proof.
  intros Ht Hk Hd Hopen Hkc Hs Hread Hp es kept Hall Hroom h'. set (lost := length es - broadcast_room (r_mux (th_relay h))) in *.
  assert (length kept = length es - lost) as Hlen by apply length_drop.
  assert (length kept ≤ broadcast_room (r_mux (th_relay h))) as Hcap by lia.
  destruct (forward_skips env t lost f h Ht ltac:(done)) as [H0|(f' & Hit & Hc & He)].
  - unfold kept, h' in *. rewrite H0, drop_0 in *. by apply (events_delivered env t k kc f d s h c ct).
  - unfold h'. replace (length es) with (length kept + lost) by lia. rewrite Nat.iter_add, Hit. fold es kept in He.
    pose proof (events_delivered env t k kc f' d s (put_task t (TForward f') h) c ct) as H. cbn zeta in H. unfold es in He.
    change (r_mux (th_relay (put_task t (TForward f') h))) with (r_mux (th_relay h)) in H. rewrite He in H.
    apply H; try done; [apply lookup_insert_eq|congruence].
Qed.

(** * A second client *)

Lemma exchange_installs (env : TunnelEnv) (rid : string) (req : KeyExchangeRequest) (session : CryptoSession) (h : Handler) :
  length (kx_ephemeral_pubkey req) = 32 → (kx_identity_pubkey req = [] ∨ length (kx_identity_pubkey req) = 32) →
  complete (te_prefix env) (with_identity_opt (te_secret env) (identity_pair (th_identity h))) (kx_ephemeral_pubkey req) = Ok session →
  handle_exchange_keys env rid (m_encode req) h =
    (set_crypto (Some (length (th_sessions h))) (th_sessions h ++ [session]) h,
     [plaintext_response_frame (now_of env) rid (m_encode (mkKeyResponse
        (default [] (id_public <$> th_identity h))
        (default EmptyString ((λ kp, fingerprint_of (id_public kp)) <$> th_identity h))
        (public_of (te_secret env))))]).
Proof.
  intros Hl Hi Hc. unfold handle_exchange_keys. rewrite m_decode_encode. rewrite decide_True by done.
  rewrite decide_False by (intros [? ?]; by destruct Hi). by rewrite Hc.
Qed.

Lemma session_installed (session : CryptoSession) (h : Handler) :
  session_of (set_crypto (Some (length (th_sessions h))) (th_sessions h ++ [session]) h) = Some session.
Proof. unfold session_of. simpl. by rewrite list_lookup_middle. Qed.

(** The daemon holds one key: when a second client exchanges keys, the
    requests of the first are dropped from then on, without an answer, while
    the events of its conversation still come under its old key. *)
Theorem second_client_shuts_out_first (env env2 : TunnelEnv) (now : Z) (rid rid2 : string) (req : Request) (w : Request)
    (s s' d session : CryptoSession) (k : nat) (kx : KeyExchangeRequest) (h : Handler) :
  th_crypto h = Some k → th_sessions h !! k = Some d → paired s d →
  encrypt_agent_request req s = (s', Ok w) →
  length (kx_ephemeral_pubkey kx) = 32 → (kx_identity_pubkey kx = [] ∨ length (kx_identity_pubkey kx) = 32) →
  complete (te_prefix env2) (with_identity_opt (te_secret env2) (identity_pair (th_identity h))) (kx_ephemeral_pubkey kx) = Ok session →
  (∀ c n, w = ReqEncrypted c n → is_ok (decrypt session c n) = false) →
  let h2 := (handle_exchange_keys env2 rid2 (m_encode kx) h).1 in
  frame_request (converse_frame now rid w) h = Some req ∧
  frame_task clock env (converse_frame now rid w) h2 = h2 ∧
  th_tasks h2 = th_tasks h ∧ th_sessions h2 !! k = Some d.
Proof.
  intros Hk Hd Hp Hw Hl Hi Hc Hno. rewrite (exchange_installs env2 rid2 kx session h) by done. cbn zeta. cbn [fst].
  split_and!; [|clear Hp|done|simpl; apply lookup_app_Some; by left].
  { eapply frame_of_sealed; [done|done|]. unfold session_of. by rewrite Hk. }
  set (h2 := set_crypto _ _ h). assert (session_of h2 = Some session) as Hs2 by apply session_installed.
  rewrite frame_task_stream. unfold handle_incoming_stream_data.
  destruct (th_streams h2 !! rid) as [a|]; [|done]. rewrite m_decode_encode.
  unfold encrypt_agent_request in Hw. destruct (encrypt (m_encode req) s) as [s1 [x|]]; [|done].
  injection Hw as _ <-. specialize (Hno _ _ eq_refl). unfold open_request. unfold session_of in Hs2. rewrite Hs2.
  by destruct (decrypt session _ _).
Qed.

(** * The relay in the middle

    A relay that answers the key exchange of a client with a key of its own,
    passing on the fingerprint that the daemon sends it, and exchanges
    another key of its own with the daemon. *)

Definition forged_request (b : list Z) (req : KeyExchangeRequest) : KeyExchangeRequest :=
  mkKeyRequest (kx_machine_id req) (kx_identity_pubkey req) (kx_fingerprint req) (public_of b).

Definition relay_answers (env : TunnelEnv) (rid : string) (a b : list Z) (h : Handler) (req : KeyExchangeRequest)
  : result string KeyExchangeResponse :=
  match (handle_exchange_keys env rid (m_encode (forged_request b req)) h).2 with
  | [f] =>
      match decode_response f with
      | Ok resp => Ok (mkKeyResponse (kx_daemon_identity_pubkey resp) (kx_daemon_fingerprint resp) (public_of a))
      | Err s => Err (message s)
      end
  | _ => Err "no response"
  end.

Lemma completes (prefix : list Z) (st : KeyExchangeState) (secret : list Z) :
  derives_always → ∃ s, complete prefix st (public_of secret) = Ok s ∧ nonce_prefix s = prefix ∧ nonce_counter s = 0%Z ∧
    hkdf_sha256 HKDF_SALT (diffie_hellman (ephemeral_secret st) (public_of secret)) HKDF_INFO = Ok (cipher s).
Proof.
  intros Hd. unfold complete. rewrite decide_True by apply public_of_length.
  unfold from_keypairs, from_shared_secret, hkdf_derive. specialize (Hd HKDF_SALT (diffie_hellman (ephemeral_secret st) (public_of secret)) HKDF_INFO).
  destruct (hkdf_sha256 _ _ _) as [key|]; [|done]. simpl. by eexists.
Qed.

Lemma exchanged_pair (p q : list Z) (a b : KeyExchangeState) (x y : list Z) (s d : CryptoSession) :
  ephemeral_secret a = x → ephemeral_secret b = y → length p = 8 → length q = 8 →
  complete p a (public_of y) = Ok s → complete q b (public_of x) = Ok d → paired s d ∧ paired d s.
Proof.
  intros <- <- Hp Hq (H1 & P1 & _)%complete_key (H2 & P2 & _)%complete_key. rewrite dh_comm in H1.
  rewrite H1 in H2. injection H2 as H2. split; (split; [congruence|split; congruence]).
Qed.

(** C25: The fingerprint check does not notice the relay in the middle: the client
    knows the daemon's fingerprint, finds it confirmed, and ends up with a
    session whose key the relay has, as has the daemon; so the relay reads
    what the client sends, and the daemon takes what the relay sends for the
    client's. *)
Theorem relay_in_the_middle (env : TunnelEnv) (now : Z) (rid machine : string) (secret prefix a b p q : list Z)
    (kp : IdentityKeyPair) (known : KnownDaemon) (c : DaemonConnection) (h : Handler) :
  derives_always → is_relay (cn_config c) = true → cg_machine_id (cn_config c) = Some machine → cn_client c = true →
  (cn_identity c = None ∨ ∃ ck, cn_identity c = Some ck ∧ length (id_public ck) = 32) →
  th_identity h = Some kp → cn_store c !! machine = Some known → kd_fingerprint known = fingerprint_of (id_public kp) →
  length prefix = 8 → length (te_prefix env) = 8 → length p = 8 → length q = 8 →
  let '(c', res) := ensure_relay_key_exchange now secret prefix (relay_answers env rid a b h) c in
  let h' := (handle_exchange_keys env rid (m_encode (forged_request b (exchange_request secret machine c))) h).1 in
  res = Ok tt ∧
  ∃ cs ds to_client to_daemon,
    current_session c' = Some cs ∧ session_of h' = Some ds ∧
    complete p (exchange_new a) (public_of secret) = Ok to_client ∧
    complete q (exchange_new b) (public_of (te_secret env)) = Ok to_daemon ∧
    paired cs to_client ∧ paired to_daemon ds ∧
    (∀ req cs' ct n, encrypt_agent_request req cs = (cs', Ok (ReqEncrypted ct n)) → decrypt to_client ct n = Ok (m_encode req)) ∧
    (∀ req td' w rid', encrypt_agent_request req to_daemon = (td', Ok w) →
       frame_request (converse_frame now rid' w) h' = Some req).
Proof.
  intros Hder Hrel Hm Hcl Hid Hkp Hknown Hfp L1 L2 L3 L4.
  set (req := exchange_request secret machine c).
  destruct (completes (te_prefix env) (with_identity_opt (te_secret env) (identity_pair (th_identity h))) b Hder) as (ds & Hds & _).
  destruct (completes prefix (exchange_state secret c) a Hder) as (cs & Hcs & _).
  destruct (completes p (exchange_new a) secret Hder) as (tc & Htc & _).
  destruct (completes q (exchange_new b) (te_secret env) Hder) as (td & Htd & _).
  pose proof (exchange_installs env rid (forged_request b req) ds h (public_of_length _)) as Hx.
  specialize (Hx ltac:(subst req; simpl; destruct Hid as [->|(ck & -> & ?)]; simpl; auto) Hds).
  assert (relay_answers env rid a b h req =
    Ok (mkKeyResponse (id_public kp) (fingerprint_of (id_public kp)) (public_of a))) as Hans.
  { unfold relay_answers. rewrite Hx. cbn [snd]. unfold decode_response, plaintext_response_frame, payload_frame, payload_data.
    cbn [frame_type payload]. rewrite decide_False by done. cbn [sp_encrypted]. simpl. rewrite m_decode_encode, Hkp. done. }
  assert (exchange_keys now secret prefix machine (relay_answers env rid a b h) c =
    (install_session cs (record_fingerprint now machine (fingerprint_of (id_public kp)) c),
     Ok (fingerprint_of (id_public kp), Matched))) as Hex.
  { unfold exchange_keys. rewrite Hcl. fold req. rewrite Hans. cbn [kx_daemon_ephemeral_pubkey kx_daemon_fingerprint]. rewrite Hcs.
    unfold check. rewrite Hknown, Hfp. unfold constant_time_str_eq. rewrite decide_True by done. by rewrite bool_decide_true. }
  unfold ensure_relay_key_exchange. rewrite Hrel, Hm. change (default "unknown" (Some machine)) with machine. rewrite Hex. rewrite Hx. cbn [fst].
  split; [done|]. exists cs, ds, tc, td.
  destruct (exchanged_pair prefix p (exchange_state secret c) (exchange_new a) secret a cs tc) as [P1 P1']; try done.
  destruct (exchanged_pair q (te_prefix env) (exchange_new b)
    (with_identity_opt (te_secret env) (identity_pair (th_identity h))) b (te_secret env) td ds) as [P2 _]; try done.
  split_and!; try done.
  - unfold current_session, install_session. simpl. by rewrite list_lookup_middle.
  - apply session_installed.
  - intros r cs' ct n. unfold encrypt_agent_request. destruct (encrypt (m_encode r) cs) as [s1 [x|]] eqn:He; [|done].
    intros [= _ <- <-]. destruct P1' as [? []]. by apply (encrypt_opens cs s1 tc (m_encode r) x).
  - intros r td' w rid' Hw. eapply frame_of_sealed; [exact Hw|exact P2|apply session_installed].
Qed.

(** * Calls that need no key *)

(** Whatever key is installed, the relay can have tools allowed: the call that
    sets a permission of the session is obeyed in plaintext, and the next
    request of the agent for the tool is then allowed without asking. *)
Theorem relay_allows_tools (env : TunnelEnv) (plugins : string → list CommandEntry) (now : Z) (rid sid pid id tool line : string)
    (input : Json) (c : Cells) (ls : list string) (q : list (AgentEvent EventBody)) (h : Handler) :
  ready sid pid c ls q (th_relay h) → tool ≠ EmptyString → tool ≠ "AskUserQuestion" →
  parse_line line = Ok (MsgControlRequest (mkControlRequest id (CanUseTool tool input))) →
  let h1 := frame_task clock env (call_frame now rid (CallSet (mkSetGrant sid tool true))) h in
  let r := Nat.iter 4 (pipeline_step now pid) (pipeline_line clock plugins pid line (th_relay h1)) in
  stdin_lines pid r = Some (ls ++ [build_permission_response_json id true input]) ∧ r_queues r !! pid = Some q.
Proof.
  intros Hr Hne Hnq Hp.
  assert (th_relay (frame_task clock env (call_frame now rid (CallSet (mkSetGrant sid tool true))) h) =
    update_cells pid (set_grant tool true) (th_relay h)) as Hr1.
  { assert (∀ header, local_call (te_env env) header (CallSet (mkSetGrant sid tool true)) (th_service h) =
      (set_relay (update_cells pid (set_grant tool true) (th_relay h)) (th_service h), Ok (m_encode mkEmptyMessage))) as Hl.
    { intros header. unfold local_call, svc_set_session_grant. cbn [sq_tool_name]. rewrite decide_False by done.
      unfold change_cells, require_session_handle, get_handle. cbn [sq_session_id].
      pose proof (rd_handle _ _ _ _ _ _ Hr) as Hh. unfold th_relay in *. by rewrite Hh. }
    unfold frame_task. destruct (forwarded_call clock env now rid (CallSet (mkSetGrant sid tool true)) h I) as [H1 H2].
    rewrite Hl in H1, H2. destruct (handle_frame _ _ _ _) as [h' fs]. cbn [fst snd] in *. subst fs h'. simpl.
    unfold send_out. simpl. by destruct (th_open h). }
  cbn zeta. rewrite Hr1.
  assert (ready sid pid (set_grant tool true c) ls q (update_cells pid (set_grant tool true) (th_relay h))) as Hr2.
  { destruct Hr as [? ? Hc ? ?]. split; try done. simpl. by rewrite lookup_alter_eq, Hc. }
  pose proof (permission_processed clock plugins sid pid line id tool input _ ls q _ now Hr2 Hp Hnq) as H.
  cbn in H. by rewrite lookup_insert_eq in H.
Qed.

End EndToEnd.

(** * A concrete client and daemon *)

#[local] Existing Instance toy_primitives.
#[local] Existing Instance toy_sha256.

Lemma toy_seals : seals_everything (PR := toy_primitives).
Proof. done. Qed.

Lemma toy_derives : derives_always (PR := toy_primitives).
Proof. done. Qed.

Definition demo_config : ConnectionConfig := mkConnectionConfig (Some "token") (Some "m1").

Definition demo_client : DaemonConnection := mkConnection demo_config true Connected (Some 0) [demo_key] None ∅.

Definition demo_talk : Conversation := mkConversation (Some 0) true true 0 [] [].

Definition daemon_key : CryptoSession := mkCryptoSession [1; 2]%Z (replicate 8 6%Z) 0.

Lemma demo_paired : paired demo_key daemon_key.
Proof. by split. Qed.

Lemma encryption_is_transparent_witness :
  let reqs := [ReqMessage "one" ""; ReqCancel "enough"] in
  ∃ wire, ct_wire (send_all reqs demo_talk demo_client).1 = [] ++ wire ∧
    let deliver ws h := foldl (λ h w, frame_task demo_clock (demo_tunnel_env "u") (converse_frame 0 "r1" w) h) h ws in
    without_key (deliver wire (demo_stream demo_keyed)) = deliver reqs (without_key (demo_stream demo_keyed)) ∧
    Forall (λ w, ∃ ct n, w = ReqEncrypted ct n) wire.
Proof.
  apply (encryption_is_transparent demo_clock (demo_tunnel_env "u") 0 "r1" [ReqMessage "one" ""; ReqCancel "enough"] demo_talk
    demo_client 0 demo_key daemon_key (demo_stream demo_keyed)); try reflexivity.
  - exact toy_seals.
  - exact demo_paired.
  - by vm_compute.
Defined.

(** A conversation over the tunnel, and what the agent says in it. *)
Definition demo_conversing : Handler :=
  let h := start_conversation (demo_tunnel_env "u") "r1" (mkStart "s" "" "/w" "") true demo_keyed in
  let ops := [OLine "p1" "init"; OPipeline "p1"; OPipeline "p1"; OPipeline "p1"; OPipeline "p1"; OForward "p1"] in
  set_service (run demo_clock ((λ op, (demo_env "u", op)) <$> ops) (th_service h)) h.

Lemma events_come_back_witness :
  let h' := Nat.iter 1 (task_step (demo_tunnel_env "u") 0 None) demo_conversing in
  ∃ frames sealed, th_outbound h' = th_outbound demo_conversing ++ frames ∧ converse_events frames = Ok <$> sealed ∧
    Forall is_envelope sealed ∧ length (ct_events (converse_receive_all sealed demo_talk demo_client)) = 1.
Proof.
  assert (length (events_after (r_mux (th_relay demo_conversing)) (0, 0)) = 1) as E by (vm_compute; reflexivity).
  set (es := events_after (r_mux (th_relay demo_conversing)) (0, 0)) in *.
  assert (drop (length es - broadcast_room (r_mux (th_relay demo_conversing))) es = es) as Hkept.
  { assert (broadcast_room (r_mux (th_relay demo_conversing)) ≠ 0) as Hroom by by apply Nat.pow_nonzero.
    replace (length es - _) with 0 by lia. apply drop_0. }
  destruct (events_come_back (demo_tunnel_env "u") 0 0 0 (mkForwarder "r1" "s" "tunnel-u" (0, 0) (Some 0) true 0)
    daemon_key demo_key demo_conversing demo_client demo_talk) as (frames & sealed & H1 & H2 & H3 & H4).
  - vm_compute. reflexivity.
  - reflexivity.
  - vm_compute. reflexivity.
  - vm_compute. reflexivity.
  - reflexivity.
  - reflexivity.
  - reflexivity.
  - exact demo_paired.
  - exact toy_seals.
  - cbn [fw_event_rx]. fold es. rewrite Hkept, E. split; cbn; unfold u32_max; lia.
  - cbn [fw_event_rx] in *. fold es in H1, H4. rewrite E in H1. exists frames, sealed. split_and!; [exact H1|exact H2|exact H3|].
    rewrite H4, length_app, length_fmap, Hkept, E. reflexivity.
Defined.

Definition demo_second : KeyExchangeRequest := mkKeyRequest "m1" [] "" (public_of [11]%Z).

Lemma second_client_shuts_out_first_witness :
  let w := ReqEncrypted ([1; 2] ++ nonce_bytes (replicate 8 5) 0 ++ m_encode (ReqMessage "one" ""))%Z (nonce_bytes (replicate 8 5%Z) 0) in
  let h := demo_stream demo_keyed in
  let h2 := (handle_exchange_keys (demo_tunnel_env "v") "r9" (m_encode demo_second) h).1 in
  frame_request (converse_frame 0 "r1" w) h = Some (ReqMessage "one" "") ∧
  frame_task demo_clock (demo_tunnel_env "u") (converse_frame 0 "r1" w) h2 = h2.
Proof.
  destruct (second_client_shuts_out_first demo_clock (demo_tunnel_env "u") (demo_tunnel_env "v") 0 "r1" "r9" (ReqMessage "one" "")
    (ReqEncrypted ([1; 2] ++ nonce_bytes (replicate 8 5) 0 ++ m_encode (ReqMessage "one" ""))%Z (nonce_bytes (replicate 8 5%Z) 0))
    demo_key (mkCryptoSession [1; 2]%Z (replicate 8 5%Z) 1) daemon_key
    (match complete (replicate 8 4%Z) (exchange_new (replicate 32 3%Z)) (public_of [11]%Z) with Ok s => s | Err _ => demo_key end)
    0 demo_second (demo_stream demo_keyed)) as (H1 & H2 & _);
    try (vm_compute; reflexivity); try exact demo_paired.
  - by left.
  - intros c n [= <- <-]. vm_compute. reflexivity.
  - split; [exact H1|exact H2].
Defined.

Definition demo_knows : DaemonConnection :=
  mkConnection demo_config true Connected None [] None
    {["m1" := mkKnown "m1" (fingerprint_of (public_of (replicate 32 7%Z))) 0 0 true]}.

Lemma relay_in_the_middle_witness :
  let relay := relay_answers (demo_tunnel_env "u") "r1" [20]%Z [30]%Z demo_handler in
  (ensure_relay_key_exchange 5 [40]%Z (replicate 8 8%Z) relay demo_knows).2 = Ok tt.
Proof.
  cbn zeta. pose proof (relay_in_the_middle (demo_tunnel_env "u") 5 "r1" "m1" [40]%Z (replicate 8 8%Z) [20]%Z [30]%Z (replicate 8 1%Z)
    (replicate 8 2%Z) (generate (replicate 32 7%Z)) (mkKnown "m1" (fingerprint_of (public_of (replicate 32 7%Z))) 0 0 true)
    demo_knows demo_handler toy_derives) as H.
  destruct (ensure_relay_key_exchange _ _ _ _ _) as [c' res].
  exact (proj1 (H eq_refl eq_refl eq_refl (or_introl eq_refl) eq_refl eq_refl eq_refl eq_refl eq_refl eq_refl eq_refl)).
Defined.

Lemma relay_allows_tools_witness :
  let h1 := frame_task demo_clock (demo_tunnel_env "u") (call_frame 0 "r3" (CallSet (mkSetGrant "s" "Bash" true))) demo_keyed in
  let r := Nat.iter 4 (pipeline_step 101 "p1") (pipeline_line demo_clock (λ _, []) "p1" "bash" (th_relay h1)) in
  stdin_lines "p1" r = Some [build_permission_response_json "req_001" true (JObj [("command", JStr "ls")])] ∧
  r_queues r !! "p1" = Some [].
Proof.
  apply (relay_allows_tools demo_clock (demo_tunnel_env "u") (λ _, []) 101 "r3" "s" "p1" "req_001" "Bash" "bash"
    (JObj [("command", JStr "ls")]) demo_cells [] [] demo_keyed).
  - split; try (vm_compute; reflexivity). eexists. split; [vm_compute; reflexivity|]. split; reflexivity.
  - done.
  - done.
  - vm_compute. reflexivity.
Defined.
