(* ===== verification/TunnelClients.v ===== *)
(** Clients of the multiplexer that came through a tunnel stay for as long as
    the tunnel: nothing tells the daemon that a remote client is gone, so its
    places in a session fill up. *)
From stdpp Require Import gmap strings list pretty relations.
From Stdlib Require Import ZArith SpecFloat Lia.
From S2P Require Import Prelude Protocol Json Ndjson Commands Multiplexer EventBridge SessionStore.
From S2P Require Import CryptoSession Fingerprint Encodings SessionRelay EventCodec AgentService AgentProtocol.
From S2P Require Import TunnelHandler SessionHistory AgentCorrect TunnelCorrect.

Section Clients.
Context {DT : DebugText} {JT : JsonText} {JW : JsonWrite} {PC : ProstCodec} {ST : SqlText}.
Context {HI : HashIter} {SO : SqlOrder}.
Context {PR : Primitives} {SH : Sha256} {AP : AgentProtocol} {LS : LocalServices}.
Context (clock : Z → Timestamp).

(** * What happens to the multiplexer

    The changes that the daemon makes to it; [ends] says whose subscriptions
    may end. *)
Inductive mux_change (ends : string → string → Prop) : SessionMultiplexer EventBody → SessionMultiplexer EventBody → Prop :=
| mc_subscribe now sid cid ty m : mux_change ends m (subscribe now sid cid ty m).1
| mc_unsubscribe sid cid m : ends sid cid → mux_change ends m (unsubscribe sid cid m)
| mc_forward sid e m : mux_change ends m (forward_event sid e m).

Notation mux_changes ends := (rtc (mux_change ends)).

Ltac same_mux := repeat case_match; simplify_eq/=; try done.

Lemma stdin_mux (pid sid line : string) (r : Relay) : r_mux (relay_stdin pid sid line r).1 = r_mux r.
Proof. unfold relay_stdin. by destruct (stdin_send _ _ _). Qed.

Lemma start_mux (os : SpawnOs) (uuid : string) (cfg : RelaySessionConfig) (prompt : option string) (r : Relay) :
  r_mux (start_session os uuid cfg prompt r).1 = r_mux r.
Proof. unfold start_session. same_mux. Qed.

Lemma message_mux (now : Z) (sid content : string) (agent : option string) (r : Relay) :
  r_mux (send_user_message clock now sid content agent r).1 = r_mux r.
Proof. unfold send_user_message. destruct (get_active_handle sid r); [|done]. by rewrite stdin_mux. Qed.

Lemma permission_mux (sid id : string) (d : option PermissionDecision) (r : Relay) :
  r_mux (handle_permission sid id d r).1 = r_mux r.
Proof.
  unfold handle_permission, send_permission_response, get_active_handle, relay_stdin.
  repeat case_match; simplify_eq/=; try done; by repeat case_match; simplify_eq/=.
Qed.

Lemma question_mux (sid id : string) (answers : list (string * string)) (r : Relay) :
  r_mux (handle_question sid id answers r).1 = r_mux r.
Proof.
  unfold handle_question, send_question_response, get_active_handle, relay_stdin.
  repeat case_match; simplify_eq/=; try done; by repeat case_match; simplify_eq/=.
Qed.

Lemma cancel_mux (now : Z) (sid : string) (r : Relay) : r_mux (cancel_session now sid r).1 = r_mux r.
Proof. unfold cancel_session. same_mux. Qed.

Lemma pipeline_mux (now : Z) (pid : string) (r : Relay) : r_mux (pipeline_step now pid r) = r_mux r.
Proof.
  unfold pipeline_step. destruct (r_pipelines r !! pid) as [pl|]; [|done]. destruct (pl_phase pl) as [|todo all auto|todo auto|];
    [done| | |done].
  - destruct todo as [|e todo]; [done|]. unfold transfer_event, relay_stdin. same_mux.
  - destruct todo as [|e todo]; [unfold sync_session|unfold emit_event]; same_mux.
Qed.

(** The client whose subscription an operation of the service may end. *)
Definition op_client (op : AgentService.Op) : option string :=
  match op with ORequest cid _ | OEnd cid => Some cid | _ => None end.

Lemma converse_end_changes (ends : string → string → Prop) (cid : string) (s : Service) :
  (∀ sid, ends sid cid) → mux_changes ends (r_mux (sv_relay s)) (r_mux (sv_relay (AgentService.converse_end cid s))).
Proof.
  intros He. unfold AgentService.converse_end. destruct (sv_streams s !! cid) as [cv|]; [|constructor].
  destruct (cv_session_id cv); [|constructor]. apply rtc_once. by constructor.
Qed.

Lemma request_changes (ends : string → string → Prop) (env : Env) (cid : string) (req : Request) (cv : Converse) (r : Relay) :
  mux_changes ends (r_mux r) (r_mux (handle_agent_request clock env cid req cv r).1.2).
Proof.
  unfold handle_agent_request. destruct req as [start|content a|id d u tx|id answers|reason|ct n|], (cv_session_id cv) as [sid|];
    try constructor.
  - unfold handle_start. destruct (match get_session _ _ with Ok _ => _ | Err _ => _ end) as [[d resume]|]; [|constructor].
    match goal with |- context [subscribe ?a ?b ?c ?t ?m] => pose proof (mc_subscribe ends a b c t m) as H;
      destruct (subscribe a b c t m) as [m' [x|e]] end; by apply rtc_once.
  - unfold handle_start. destruct (match get_session _ _ with Ok _ => _ | Err _ => _ end) as [[d resume]|]; [|constructor].
    match goal with |- context [subscribe ?a ?b ?c ?t ?m] => pose proof (mc_subscribe ends a b c t m) as H;
      destruct (subscribe a b c t m) as [m' [x|e]] end; by apply rtc_once.
  - unfold handle_message, relay_result. destruct (cv_pending_config cv); simpl; by rewrite ?start_mux, ?message_mux.
  - pose proof (permission_mux sid id d r) as H. destruct (handle_permission sid id d r). simpl in *. by rewrite H.
  - pose proof (question_mux sid id answers r) as H. destruct (handle_question sid id answers r). simpl in *. by rewrite H.
  - unfold relay_result. simpl. by rewrite cancel_mux.
Qed.

Lemma service_changes (ends : string → string → Prop) (env : Env) (op : AgentService.Op) (s : Service) :
  (∀ cid sid, op_client op = Some cid → ends sid cid) →
  mux_changes ends (r_mux (sv_relay s)) (r_mux (sv_relay (AgentService.step clock env op s))).
Proof.
  intros He. destruct op; simpl; try constructor.
  - unfold converse_request. destruct (sv_streams s !! client_id) as [cv|]; [|constructor].
    pose proof (request_changes ends env client_id req cv (sv_relay s)) as H.
    destruct (handle_agent_request clock env client_id req cv (sv_relay s)) as [[cv' r'] [u|e]]; simpl in *; [done|].
    etrans; [exact H|]. apply (converse_end_changes ends client_id (mkService r' _)). intros sid. by apply He.
  - apply converse_end_changes. intros sid. by apply He.
  - unfold pipeline_line. repeat case_match; simplify_eq/=; constructor.
  - by rewrite pipeline_mux.
  - unfold pipeline_close. repeat case_match; simplify_eq/=; constructor.
  - unfold forward_step. destruct (r_queues (sv_relay s) !! pid) as [[|e rest]|]; [constructor| |constructor].
    destruct (r_pipelines (sv_relay s) !! pid); [|constructor]. apply rtc_once. constructor.
  - unfold svc_compact_session. repeat case_match; simplify_eq/=; constructor.
  - unfold svc_cancel_turn. pose proof (cancel_mux (e_now env) session_id (sv_relay s)) as H.
    destruct (cancel_session (e_now env) session_id (sv_relay s)). simpl in *. by rewrite H.
  - unfold svc_clear_session_grants, change_cells. destruct (require_session_handle session_id s); constructor.
  - unfold svc_set_session_grant, change_cells. case_decide; [constructor|].
    destruct (require_session_handle session_id s); constructor.
  - unfold svc_rename_session. repeat case_match; simplify_eq/=; constructor.
  - unfold svc_delete_session. case_decide; [constructor|].
    pose proof (cancel_mux (e_now env) session_id (sv_relay s)) as Hc. destruct (delete_session session_id _). simpl in *. by rewrite Hc.
Qed.

(** * Clients that stay *)

(** The session has the clients [held], under its channel and the limit. *)
Definition holds (sid : string) (chan mx : nat) (held : list string) (m : SessionMultiplexer EventBody) : Prop :=
  max_clients (config m) = mx ∧
  ∃ s, sessions m !! sid = Some s ∧ event_tx s = chan ∧ ∀ cid, cid ∈ held → is_Some (clients s !! cid).

Lemma subscribe_holds (sid : string) (chan mx : nat) (held : list string) (now : Z) (sid' cid ty : string) m :
  holds sid chan mx held m → holds sid chan mx held (subscribe now sid' cid ty m).1.
Proof.
  intros [Hm (s & Hs & Hc & Hh)]. unfold subscribe, entry_session.
  destruct (sessions m !! sid') as [s0|] eqn:Hs0; cbn zeta iota beta.
  - case_decide; [by split; eauto|]. destruct (clients s0 !! cid) eqn:Hcid; [by split; eauto|]. split; [done|]. simpl.
    destruct (decide (sid = sid')) as [<-|Hne]; [|rewrite lookup_insert_ne by done; by eauto].
    rewrite lookup_insert_eq. eexists. split; [done|]. rewrite Hs in Hs0. injection Hs0 as <-. split; [done|].
    intros y Hin. simpl. destruct (decide (y = cid)) as [->|]; [rewrite lookup_insert_eq; by eexists|].
    rewrite lookup_insert_ne by done. by apply Hh.
  - assert (sid ≠ sid') as Hne by by intros ->; rewrite Hs in Hs0.
    repeat case_match; (split; [done|]); simpl; exists s; rewrite ?lookup_insert_ne by done; by rewrite ?lookup_insert_ne by done.
Qed.

Lemma unsubscribe_holds (sid : string) (chan mx : nat) (held : list string) (sid' cid : string) m :
  (sid' = sid → cid ∉ held) → held ≠ [] → holds sid chan mx held m → holds sid chan mx held (unsubscribe sid' cid m).
Proof.
  intros Hnot Hne [Hm (s & Hs & Hc & Hh)]. unfold unsubscribe. destruct (sessions m !! sid') as [s0|] eqn:Hs0; [|by split; eauto].
  unfold remove_client. destruct (clients s0 !! cid) eqn:Hcid; [|by split; eauto].
  set (s1 := if decide _ then _ else _).
  assert (clients s1 = delete cid (clients s0) ∧ event_tx s1 = event_tx s0) as [E1 E2] by (subst s1; by case_decide).
  clearbody s1. destruct (decide (sid' = sid)) as [->|Hd].
  - rewrite Hs in Hs0. injection Hs0 as <-.
    assert (∀ c, c ∈ held → is_Some (clients s1 !! c)) as Hh1.
    { intros x Hin. rewrite E1, lookup_delete_ne; [by apply Hh|]. intros <-. by apply Hnot. }
    assert (is_empty s1 = false) as ->.
    { apply bool_decide_eq_false. intros E. destruct held as [|y held]; [done|].
      destruct (Hh1 y) as [x Hx]; [by left|]. by rewrite E, lookup_empty in Hx. }
    split; [done|]. simpl. exists s1. by rewrite lookup_insert_eq, E2.
  - destruct (is_empty s1); (split; [done|]); simpl; exists s; [rewrite lookup_delete_ne by done|rewrite lookup_insert_ne by done]; done.
Qed.

Lemma forward_holds (sid : string) (chan mx : nat) (held : list string) (sid' : string) (e : AgentEvent EventBody) m :
  holds sid chan mx held m → holds sid chan mx held (forward_event sid' e m).
Proof.
  intros [Hm (s & Hs & Hc & Hh)]. unfold forward_event. destruct (sessions m !! sid') as [s0|] eqn:Hs0; [|by split; eauto].
  split; [done|]. simpl. destruct (decide (sid' = sid)) as [->|]; [|exists s; by rewrite lookup_insert_ne by done].
  rewrite Hs in Hs0. injection Hs0 as <-. eexists. rewrite lookup_insert_eq. by split_and!.
Qed.

Lemma changes_hold (ends : string → string → Prop) (sid : string) (chan mx : nat) (held : list string) m m' :
  (∀ cid, ends sid cid → cid ∉ held) → held ≠ [] → mux_changes ends m m' → holds sid chan mx held m → holds sid chan mx held m'.
Proof.
  intros He Hne. induction 1 as [|m1 m2 m3 Hstep _ IH]; [done|]. intros Hh. apply IH. destruct Hstep.
  - by apply subscribe_holds.
  - apply unsubscribe_holds; [|done|done]. intros ->. by apply He.
  - by apply forward_holds.
Qed.

(** * The handler

    Steps that leave the multiplexer alone and start no forwarder. *)
Record calm (h h' : Handler) : Prop := {
  ca_mux : r_mux (th_relay h') = r_mux (th_relay h);
  ca_open : th_open h' = th_open h;
  ca_tasks : ∀ t f, th_tasks h' !! t = Some (TForward f) → th_tasks h !! t = Some (TForward f)
}.

Lemma calm_refl h : calm h h.
Proof. done. Qed.

Lemma calm_seq h1 h2 h3 : calm h1 h2 → calm h2 h3 → calm h1 h3.
Proof. intros [M1 O1 T1] [M2 O2 T2]. split; [congruence|congruence|]. auto. Qed.

Lemma calm_send f h : calm h (send_out f h).
Proof. unfold send_out. destruct (th_open h) eqn:E; [|done]. split; simpl; auto. Qed.

Lemma calm_crypto c ss h : calm h (set_crypto c ss h).
Proof. done. Qed.

Lemma calm_streams x h : calm h (set_streams x h).
Proof. done. Qed.

Lemma calm_local x h : calm h (set_local x h).
Proof. done. Qed.

Lemma calm_node r h : r_mux r = r_mux (th_relay h) → calm h (set_node r h).
Proof. done. Qed.

Lemma calm_spawn k h : (∀ f, k ≠ TForward f) → calm h (spawn_task k h).
Proof.
  intros Hk. split; [done|done|]. intros t f. simpl. rewrite lookup_insert_Some. intros [[_ ->]|[_ ?]]; [|done].
  by destruct (Hk f).
Qed.

Lemma calm_responses fs h : calm h (foldl (λ h f, send_out f h) h fs).
Proof.
  revert h. induction fs as [|f fs IH]; intros h; [done|]. simpl. eapply calm_seq; [apply calm_send|apply IH].
Qed.

Lemma calm_payload crypto data h : calm h (make_encrypted_payload crypto data h).1.
Proof.
  unfold make_encrypted_payload, encrypt_with. destruct crypto as [k|]; [|done].
  destruct (th_sessions h !! k) as [s|]; [|done]. destruct (encrypt data s). done.
Qed.

Lemma calm_unary_bytes now rid buf rf h : calm h (unary_bytes_frame now rid buf rf h).1.
Proof.
  unfold unary_bytes_frame, response_frame. destruct rf; [done|].
  pose proof (calm_payload (th_crypto h) buf h) as H. destruct (make_encrypted_payload _ _ _) as [h' [e|e]]; done.
Qed.

Lemma calm_unary {M : Type} `{ProtoMessage M} now rid (msg : M) rf h h0 :
  calm h h0 → calm h (unary_response_frame now rid msg rf h0).1.
Proof.
  intros Hc. unfold unary_response_frame. pose proof (calm_unary_bytes now rid (m_encode msg) rf h0) as Hu.
  destruct (unary_bytes_frame _ _ _ _ _). simpl in *. by eapply calm_seq.
Qed.

Lemma calm_call {M : Type} `{ProtoMessage M} env rid data h (k : M → Handler * list TunnelFrame) :
  (∀ req, calm h (k req).1) → calm h (with_request env rid data h k).1.
Proof. intros Hk. unfold with_request. by destruct (m_decode data). Qed.

Hint Resolve calm_refl calm_send calm_crypto calm_streams calm_local calm_unary calm_node : calm.
Hint Rewrite @stdin_mux @start_mux @message_mux @permission_mux @question_mux @cancel_mux : mux.

(** The calls with one answer. *)
Ltac calm_answer :=
  apply calm_call; intros ?; cbn zeta; repeat case_match; simplify_eq;
  first [apply calm_refl | apply calm_unary; first [apply calm_refl | apply calm_node; reflexivity]].

Lemma calm_list env rid data rf h : calm h (handle_list_sessions env rid data rf h).1.
Proof. calm_answer. Qed.

Lemma calm_compact env rid data rf h : calm h (handle_compact_session env rid data rf h).1.
Proof. calm_answer. Qed.

Lemma calm_cancel env rid data rf h : calm h (handle_cancel_turn env rid data rf h).1.
Proof.
  apply calm_call. intros req. pose proof (cancel_mux (now_of env) (xq_session_id req) (th_relay h)) as Hc.
  destruct (cancel_session _ _ _). auto with calm.
Qed.

Lemma calm_lock env rid data rf h : calm h (handle_request_input_lock env rid data rf h).1.
Proof. calm_answer. Qed.

Lemma calm_list_grants env rid data rf h : calm h (handle_list_session_grants env rid data rf h).1.
Proof. calm_answer. Qed.

Lemma calm_clear_grants env rid data rf h : calm h (handle_clear_session_grants env rid data rf h).1.
Proof. calm_answer. Qed.

Lemma calm_set_grant env rid data rf h : calm h (handle_set_session_grant env rid data rf h).1.
Proof. calm_answer. Qed.

Lemma calm_rename env rid data rf h : calm h (handle_rename_session env rid data rf h).1.
Proof. calm_answer. Qed.

Lemma calm_delete env rid data rf h : calm h (handle_delete_session env rid data rf h).1.
Proof.
  apply calm_call. intros req. cbn zeta. destruct (delete_session (dq_session_id req) _). apply calm_unary, calm_node. apply cancel_mux.
Qed.

Lemma calm_exchange env rid data h : calm h (handle_exchange_keys env rid data h).1.
Proof. unfold handle_exchange_keys. repeat case_match; simplify_eq/=; auto with calm. Qed.

Lemma calm_resume env rid data rf h : calm h (handle_resume_session env rid data rf h).1.
Proof. apply calm_call. intros req. by apply calm_spawn. Qed.

Lemma calm_dispatch svc label served env rid m data rf h : calm h (dispatch_service svc label served env rid m data rf h).1.
Proof.
  unfold dispatch_service. destruct (th_available h svc); [|done]. case_decide; [|done].
  destruct (ls_unary m data (th_local h)) as [l [e|e|buf]]; [done|done|].
  pose proof (calm_unary_bytes (now_of env) rid buf rf (set_local l h)) as Hu.
  destruct (unary_bytes_frame _ _ _ _ _). by eapply calm_seq; [apply calm_local|].
Qed.

Lemma calm_open_stream svc label call m env rid data rf h :
  calm h (open_service_stream svc label call m env rid data rf h).
Proof.
  unfold open_service_stream. destruct (th_available h svc); [|apply calm_send].
  destruct (ls_open m data (th_local h)) as [l [e|e|u]]; (eapply calm_seq; [apply (calm_local l)|]);
    [apply calm_send|apply calm_send|by apply calm_spawn].
Qed.

Lemma calm_stream_request env rid sid req h : calm h (stream_request clock env rid sid req h).
Proof.
  unfold stream_request. destruct req, ((th_streams h !! rid) ≫= as_pending_config) as [cfg|];
    try apply calm_refl; try (apply calm_node; by autorewrite with mux).
  pose proof (start_mux (e_os (te_env env)) (e_uuid (te_env env)) cfg (Some content) (th_relay h)) as Hr.
  destruct (start_session _ _ _ _ _) as [r [u|e]]; [by split|].
  eapply calm_seq; [|apply calm_streams]. eapply calm_seq; [|apply calm_send]. by split.
Qed.

Lemma calm_incoming env rid data h : calm h (handle_incoming_stream_data clock env rid data h).
Proof.
  unfold handle_incoming_stream_data. destruct (th_streams h !! rid); [|done]. destruct (m_decode data); [|done].
  destruct (open_request _ h); try done. apply calm_stream_request.
Qed.

(** A conversation that begins is the only reaction to a frame that subscribes
    a client. *)
Lemma frame_reaction env f h :
  calm h (handle_frame clock env f h).1 ∨
  ∃ start rf, (handle_frame clock env f h).1 = start_conversation env (request_id f) start rf h.
Proof.
  unfold handle_frame. destruct (frame_type f); try by left.
  - unfold handle_request. destruct (payload f) as [[p| |]|]; try by left. case_decide; [left; apply calm_exchange|].
    cbn zeta. destruct (match sp_encrypted p with Some _ => _ | None => _ end) as [data|]; [|by left].
    destruct (parse_method (sp_method p)) as [m|]; [|by left].
    unfold dispatch_command_rpc, dispatch_gitlab_rpc, dispatch_repo_rpc, dispatch_worktree_rpc, dispatch_config_rpc,
      dispatch_version_rpc, dispatch_subagent_rpc, handle_execute_service_command, handle_watch_subagent,
      handle_watch_orchestration.
    destruct m; simpl; try (by left); try (left; first [apply calm_dispatch | apply calm_open_stream]).
    all: try (left; first [apply calm_list | apply calm_compact | apply calm_cancel | apply calm_lock | apply calm_resume
                          | apply calm_list_grants | apply calm_clear_grants | apply calm_set_grant | apply calm_rename
                          | apply calm_delete]).
    unfold handle_converse. simpl. destruct (m_decode data) as [outer|]; [|left; apply calm_send].
    destruct (open_request outer h) as [[start| | | | | |]| | |]; try (left; apply calm_send). right. by eauto.
  - destruct (payload f) as [[p| |]|]; try by left. left.
    destruct (match sp_encrypted p with Some _ => _ | None => _ end); [apply calm_incoming|apply calm_refl].
Qed.

(** * The tasks *)

Lemma calm_put t k h : (∀ f, k ≠ TForward f) → calm h (put_task t k h).
Proof.
  intros Hk. split; [done|done|]. intros t' f. simpl. rewrite lookup_insert_Some. intros [[_ ->]|[_ ?]]; [|done].
  by destruct (Hk f).
Qed.

Lemma calm_finish t f h : calm h (set_tasks (delete t (th_tasks h)) (send_out f h)).
Proof.
  unfold send_out. split; [by destruct (th_open h)|destruct (th_open h) eqn:E; simpl; congruence|]. intros t' f'. simpl.
  by rewrite lookup_delete_Some; intros [_ ?].
Qed.

Lemma calm_seal crypto seq ts inner h : calm h (seal_event crypto seq ts inner h).1.
Proof.
  unfold seal_event, encrypt_with. destruct crypto as [k|]; [|done]. destruct (th_sessions h !! k); [|done].
  by destruct (encrypt inner c) as [c' [e|e]].
Qed.

Lemma calm_wrap crypto rf wire h : calm h (wrap_stream crypto rf wire h).1.
Proof. apply calm_payload. Qed.

Lemma calm_replay now t p h : calm h (replay_step now t p h).
Proof.
  unfold replay_step. destruct (rp_messages p) as [|m rest]; [apply calm_finish|].
  destruct (base64_decode (msg_payload m)) as [raw|]; [|by apply calm_put].
  pose proof (calm_seal (rp_crypto p) (rp_seq p) None raw h) as H1. destruct (seal_event _ _ _ _ h) as [h1 [wire|]]; simpl in H1;
    [|by eapply calm_seq; [exact H1|apply calm_put]].
  pose proof (calm_wrap (rp_crypto p) (rp_relay_forwarded p) wire h1) as H2. destruct (wrap_stream _ _ _ h1) as [h2 [enc|]]; simpl in H2;
    (eapply calm_seq; [exact H1|]); (eapply calm_seq; [exact H2|]); [|by apply calm_put].
  cbn zeta. destruct (th_open h2); (eapply calm_seq; [apply calm_send|]); [by apply calm_put|apply calm_finish].
Qed.

Lemma calm_service_stream now t s item h : calm h (service_stream_step now t s item h).
Proof.
  unfold service_stream_step. destruct item as [[buf|e]|]; [|eapply calm_seq; [apply calm_send|]; apply calm_finish|apply calm_finish].
  pose proof (calm_payload (ss_crypto s) buf h) as H1. destruct (make_encrypted_payload _ _ h) as [h1 [enc|e]]; [|done]. simpl in H1.
  cbn zeta. destruct (th_open h1); (eapply calm_seq; [exact H1|]); (eapply calm_seq; [apply calm_send|]);
    [by apply calm_put|apply calm_finish].
Qed.

(** * A crowded session *)

Section Crowded.
Context (sid : string) (chan mx : nat) (held : list string).
Hypothesis (Hsome : held ≠ []).

(** The forwarder of a client that is held reads the session's channel. *)
Definition placed (f : Forwarder) : Prop :=
  fw_session_id f = sid → fw_client_id f ∈ held → (fw_event_rx f).1 = chan.

Record crowded (h : Handler) : Prop := {
  cr_holds : holds sid chan mx held (r_mux (th_relay h));
  cr_open : th_open h = true;
  cr_placed : ∀ t f, th_tasks h !! t = Some (TForward f) → placed f
}.

Lemma calm_crowded h h' : calm h h' → crowded h → crowded h'.
Proof. intros [M O T] [H1 H2 H3]. split; [by rewrite M|by rewrite O|]. intros t f Hf. eauto. Qed.

Lemma put_crowded t f h : placed f → crowded h → crowded (put_task t (TForward f) h).
Proof.
  intros Hf [H1 H2 H3]. split; [done|done|]. intros t' f'. simpl. rewrite lookup_insert_Some.
  intros [[_ [= <-]]|[_ ?]]; [done|eauto].
Qed.

Lemma end_crowded now t f h :
  (fw_session_id f = sid → fw_client_id f ∉ held) → crowded h → crowded (end_forwarder now t f h).
Proof.
  intros Hf Hc. apply (calm_crowded _ _ (calm_send (stream_end now (fw_request_id f)) h)) in Hc.
  destruct Hc as [H1 H2 H3]. unfold end_forwarder. split; simpl; [|done|].
  - by apply unsubscribe_holds.
  - intros t' f'. rewrite lookup_delete_Some. intros [_ ?]. eauto.
Qed.

Lemma send_event_crowded now t f e h : placed f → crowded h → crowded (send_event now t f e h).
Proof.
  intros Hf Hc. unfold send_event. pose proof (calm_seal (fw_crypto f) (ev_sequence e) (eb_timestamp (ev_payload e)) (encode_event e) h) as H1.
  destruct (seal_event _ _ _ _ h) as [h1 [wire|]]; apply (calm_crowded _ _ H1) in Hc; simpl in Hc; [|by apply put_crowded].
  pose proof (calm_wrap (fw_crypto f) (fw_relay_forwarded f) wire h1) as H2.
  destruct (wrap_stream _ _ _ h1) as [h2 [enc|]]; apply (calm_crowded _ _ H2) in Hc; simpl in Hc; [|by apply put_crowded].
  cbn zeta. rewrite (cr_open _ Hc). apply put_crowded; [done|]. by apply (calm_crowded _ _ (calm_send _ h2)).
Qed.

Lemma forwarder_crowded now t f h : placed f → crowded h → crowded (forwarder_step now t f h).
Proof.
  intros Hf Hc. unfold forwarder_step. destruct (recv_event _ _) as [e pos|pos| |] eqn:Hr; [| | |done].
  - by apply send_event_crowded.
  - by apply put_crowded.
  - apply end_crowded; [|done]. intros Hs Hin. unfold recv_event in Hr. destruct (next_in _ _ _) as [[e pos]|]; [by case_decide|].
    case_decide as Hn; [done|]. apply Hn. destruct (cr_holds _ Hc) as [_ (s & ? & Hchan & _)]. exists sid, s. by rewrite Hf.
Qed.

Lemma start_conversation_crowded env rid start rf h : crowded h → crowded (start_conversation env rid start rf h).
Proof.
  intros Hc. unfold start_conversation. cbn zeta. set (s := if decide _ then _ else _). clearbody s.
  destruct (open_session _ _ _ _ _) as [d [[wd rs]|e]].
  2: { eapply calm_crowded; [apply calm_send|]. eapply calm_crowded; [by apply (calm_node (set_relay_db d (th_relay h)))|done]. }
  set (cid := generate_tunnel_client_id _). cbn [r_mux set_relay_db].
  pose proof (subscribe_holds sid chan mx held (e_instant (te_env env)) s cid "tunnel" _ (cr_holds _ Hc)) as Hm.
  unfold subscribe in *. destruct (entry_session s (r_mux (th_relay h))) as [m0 ms] eqn:Hen.
  destruct (decide (max_clients (config m0) ≤ client_count ms)) as [Hfull|Hroom].
  { eapply calm_crowded; [apply calm_send|]. destruct Hc as [H1 H2 H3]. by split. }
  destruct (clients ms !! cid) eqn:Hcid.
  { eapply calm_crowded; [apply calm_send|]. destruct Hc as [H1 H2 H3]. by split. }
  destruct Hc as [H1 H2 H3]. split; [done|done|]. intros t f. simpl. rewrite lookup_insert_Some.
  intros [[_ [= <-]]|[_ ?]]; [|eauto]. unfold placed. simpl. intros -> Hin.
  destruct H1 as [_ (s0 & Hs0 & Hchan & _)]. unfold entry_session in Hen. rewrite Hs0 in Hen. by injection Hen as <- <-.
Qed.

(** What happens while the clients are held: everything but the end of the
    tunnel, and the ends of their conversations. *)
Definition leaves_held (op : NodeOp) : Prop :=
  match op with
  | NLocal o => ∀ cid, op_client o = Some cid → cid ∉ held
  | NClose => False
  | _ => True
  end.

Lemma task_crowded env t item h : crowded h → crowded (task_step env t item h).
Proof.
  intros Hc. unfold task_step. destruct (th_tasks h !! t) as [[f|p|s]|] eqn:Ht; [| | |done].
  - apply forwarder_crowded; [|done]. by eapply cr_placed.
  - by eapply calm_crowded; [apply calm_replay|].
  - by eapply calm_crowded; [apply calm_service_stream|].
Qed.

Lemma frame_crowded env f h : crowded h → crowded (frame_task clock env f h).
Proof.
  intros Hc. unfold frame_task. pose proof (frame_reaction env f h) as Hr.
  destruct (handle_frame clock env f h) as [h' responses]. simpl in Hr. apply (calm_crowded h'); [apply calm_responses|].
  destruct Hr as [Hr|(start & rf & ->)]; [by eapply calm_crowded|by apply start_conversation_crowded].
Qed.

Lemma step_crowded env op n : leaves_held op → crowded (nd_handler n) → crowded (nd_handler (node_step clock env op n)).
Proof.
  intros Hop Hc. destruct op as [f|i|t item|o|]; simpl; [done| |by apply task_crowded| |done].
  - destruct (nd_inbox n !! i); [|done]. by apply frame_crowded.
  - destruct Hc as [H1 H2 H3]. split; [|done|done].
    eapply (changes_hold (λ _ cid, op_client o = Some cid)); [intros cid; apply Hop|done| |exact H1].
    apply service_changes. by intros.
Qed.

Lemma run_crowded trace n :
  Forall (λ call, leaves_held call.2) trace → crowded (nd_handler n) → crowded (nd_handler (node_run clock trace n)).
Proof.
  revert n. induction trace as [|[env op] trace IH]; intros n Hall Hc; [done|].
  inversion_clear Hall. apply IH; [done|]. by apply step_crowded.
Qed.

End Crowded.

(** The session has no room for another client. *)
Lemma crowded_full (sid : string) (chan mx : nat) (held : list string) (now : Z) (cid ty : string) m :
  NoDup held → mx ≤ length held → holds sid chan mx held m →
  subscribe now sid cid ty m = (m, Err (TooManyClients sid mx)).
Proof.
  intros Hnd Hlen [Hm (s & Hs & _ & Hh)]. unfold subscribe, entry_session. rewrite Hs. cbn zeta iota beta.
  rewrite decide_True; [by rewrite Hm|]. rewrite Hm. etrans; [exact Hlen|]. unfold client_count.
  rewrite <- (size_list_to_set (C := gset string)) by done. rewrite <- size_dom. apply subseteq_size. intros c.
  rewrite elem_of_list_to_set, elem_of_dom. apply Hh.
Qed.

(** Clients that came through a tunnel use up a session: nothing the remote
    clients do, and nothing that other clients do on the machine, ever
    unsubscribes them while the tunnel stays open, so once they are as many as
    a session takes, every later conversation with it is refused with one
    error, and starts nothing. *)
Theorem tunnel_clients_fill_session (sid : string) (chan mx : nat) (held : list string) (n : Node)
    (trace : list (TunnelEnv * NodeOp)) (env : TunnelEnv) (rid : string) (start : StartConversation) (rf : bool) :
  NoDup held → held ≠ [] → mx ≤ length held → crowded sid chan mx held (nd_handler n) →
  Forall (λ call, leaves_held held call.2) trace →
  start_session_id start = sid → sid ≠ EmptyString →
  let h := nd_handler (node_run clock trace n) in
  let h' := start_conversation env rid start rf h in
  (∃ text, th_outbound h' = th_outbound h ++ [error_response (now_of env) rid TunnelInternal text]) ∧
  th_streams h' = th_streams h ∧ th_tasks h' = th_tasks h ∧ r_mux (th_relay h') = r_mux (th_relay h).
Proof.
  intros Hnd Hne Hlen Hc Htr Hsid Hsn. cbn zeta. pose proof (run_crowded sid chan mx held Hne trace n Htr Hc) as Hr.
  set (h := nd_handler _) in *. clearbody h. unfold start_conversation. rewrite Hsid, decide_False by done. cbn zeta.
  destruct (open_session _ _ _ _ _) as [d [[wd rs]|e]].
  - cbn [r_mux set_relay_db]. rewrite (crowded_full sid chan mx held) by (done || apply (cr_holds _ _ _ _ _ Hr)).
    unfold send_out. simpl. rewrite (cr_open _ _ _ _ _ Hr). split_and!; simpl; [by eexists|done..].
  - unfold send_out. simpl. rewrite (cr_open _ _ _ _ _ Hr). split_and!; simpl; [by eexists|done..].
Qed.

End Clients.

(** * A full session *)

#[local] Existing Instance toy_primitives.
#[local] Existing Instance toy_sha256.

(** The forwarders of a handler, for evaluation. *)
Definition placed_b (sid : string) (chan : nat) (k : nat * Task) : bool :=
  match k.2 with
  | TForward f => bool_decide (fw_session_id f = sid → (fw_event_rx f).1 = chan)
  | _ => true
  end.

Lemma placed_forwarders {LS : LocalServices} (sid : string) (chan : nat) (held : list string) (h : Handler) :
  forallb (placed_b sid chan) (map_to_list (th_tasks h)) = true →
  ∀ t f, th_tasks h !! t = Some (TForward f) → placed sid chan held f.
Proof.
  intros Hall%Is_true_eq_left t f Hf%elem_of_map_to_list Hs _. apply forallb_True in Hall.
  eapply Forall_forall in Hall; [|exact Hf]. unfold placed_b in Hall. simpl in Hall. apply bool_decide_unpack in Hall. by apply Hall.
Qed.

Definition demo_start (sid : string) : StartConversation := mkStart sid "" "/w" "".

(** Five clients begin a conversation with session "t", one after the other. *)
Definition demo_crowd : Node :=
  foldl (λ n i, node_run demo_clock
    [(demo_tunnel_env (pretty i), NArrive (demo_frame (pretty i) FtRequest (method_name METHOD_CONVERSE) (m_encode (ReqStart (demo_start "t")))));
     (demo_tunnel_env (pretty i), NHandle i)] n)
    (mkNode demo_handler ∅ 0) (seq 0 5).

Definition demo_crowd_clients : list string := (λ i : nat, "tunnel-" +:+ pretty i) <$> seq 0 5.

(** Bob begins another session on the machine, and the first forwarder looks
    for events; a sixth client is still refused. *)
Lemma tunnel_clients_fill_session_witness :
  let trace := [(demo_tunnel_env "b", NLocal (OBegin "bob")); (demo_tunnel_env "b", NLocal (ORequest "bob" (ReqStart (demo_start "t"))));
                (demo_tunnel_env "b", NTask 0 None)] in
  let h := nd_handler (node_run demo_clock trace demo_crowd) in
  let h' := start_conversation (demo_tunnel_env "x") "r9" (demo_start "t") true h in
  (∃ text, th_outbound h' = th_outbound h ++ [error_response 100 "r9" TunnelInternal text]) ∧ th_tasks h' = th_tasks h.
Proof.
  set (trace := [(demo_tunnel_env "b", NLocal (OBegin "bob")); (demo_tunnel_env "b", NLocal (ORequest "bob" (ReqStart (demo_start "t"))));
                (demo_tunnel_env "b", NTask 0 None)]).
  destruct (tunnel_clients_fill_session demo_clock "t" 1 5 demo_crowd_clients demo_crowd trace (demo_tunnel_env "x") "r9"
    (demo_start "t") true) as (H1 & _ & H2 & _).
  - apply (bool_decide_unpack _). by vm_compute.
  - done.
  - vm_compute. lia.
  - split; [|by vm_compute|].
    + split; [by vm_compute|]. eexists. split; [by vm_compute|]. split; [by vm_compute|]. apply Forall_forall.
      apply (bool_decide_unpack _). by vm_compute.
    + apply placed_forwarders. by vm_compute.
  - repeat constructor; simpl; intros cid [= <-]; apply (bool_decide_unpack _); by vm_compute.
  - done.
  - done.
  - split; [exact H1|exact H2].
Defined.
