(* ===== verification/Utf8.v ===== *)
(** Text as UTF-8: characters, byte offsets, and the operations of Rust's
    [str] and [String], which panic off a character boundary ([None] here). *)
From stdpp Require Import strings list.
From Stdlib Require Import Lia.
From S2P Require Import Prelude.

(** * Characters *)

(** A continuation byte, 0b10xxxxxx. *)
Definition is_cont (b : Ascii.ascii) : bool := let n := Ascii.nat_of_ascii b in (128 <=? n) && (n <? 192).

Fixpoint all_cont (s : string) : bool :=
  match s with EmptyString => true | String b s' => is_cont b && all_cont s' end.

(** The encoding of one character: a leading byte and its continuation. *)
Definition is_char (c : string) : bool :=
  match c with String b t => negb (is_cont b) && all_cont t | EmptyString => false end.

(** A text begins with a character. *)
Definition is_text (s : string) : bool :=
  match s with String b _ => negb (is_cont b) | EmptyString => true end.

(** [s.chars()], each as its bytes. *)
Fixpoint chars (s : string) : list string :=
  match s with
  | EmptyString => []
  | String a s' =>
      if is_text s' then String a EmptyString :: chars s'
      else match chars s' with
           | [] => [String a EmptyString]
           | c :: cs => String a c :: cs
           end
  end.

Fixpoint text_of (cs : list string) : string :=
  match cs with [] => EmptyString | c :: cs' => c +:+ text_of cs' end.

(** [s.char_indices()] *)
Fixpoint indices_from (n : nat) (cs : list string) : list (nat * string) :=
  match cs with [] => [] | c :: cs' => (n, c) :: indices_from (n + String.length c) cs' end.
Definition char_indices (s : string) : list (nat * string) := indices_from 0 (chars s).

(** [char::is_whitespace], the White_Space property. *)
Definition byte (n : nat) : Ascii.ascii := Ascii.ascii_of_nat n.
Definition whitespace_chars : list string :=
  ((λ n, String (byte n) EmptyString) <$> [9; 10; 11; 12; 13; 32]) ++
  ((λ n, String (byte 194) (String (byte n) EmptyString)) <$> [133; 160]) ++
  [String (byte 225) (String (byte 154) (String (byte 128) EmptyString))] ++
  ((λ n, String (byte 226) (String (byte 128) (String (byte n) EmptyString))) <$>
     [128; 129; 130; 131; 132; 133; 134; 135; 136; 137; 138; 168; 169; 175]) ++
  [String (byte 226) (String (byte 129) (String (byte 159) EmptyString));
   String (byte 227) (String (byte 128) (String (byte 128) EmptyString))].
Definition is_whitespace (c : string) : bool := bool_decide (c ∈ whitespace_chars).

(** [c.is_ascii()] *)
Definition is_ascii_char (c : string) : bool :=
  match c with String b EmptyString => Ascii.nat_of_ascii b <? 128 | _ => false end.

(** * Operations *)

Definition slice_from (n : nat) (s : string) : option string :=
  if is_char_boundary n s then Some (str_drop n s) else None.

(** [s.insert(n, c)] *)
Definition str_insert (n : nat) (c s : string) : option string :=
  if is_char_boundary n s then Some (str_take n s +:+ c +:+ str_drop n s) else None.

(** [s.remove(n)] *)
Definition str_remove (n : nat) (s : string) : option string :=
  if is_char_boundary n s then
    match chars (str_drop n s) with
    | _ :: rest => Some (str_take n s +:+ text_of rest)
    | [] => None
    end
  else None.

(** [s.replace_range(i..j, r)] *)
Definition replace_range (i j : nat) (r s : string) : option string :=
  if (i <=? j) && is_char_boundary i s && is_char_boundary j s
  then Some (str_take i s +:+ r +:+ str_drop j s) else None.

(** [s.find(p)] and [s.rfind(p)] for a predicate on characters. *)
Definition find (p : string → bool) (s : string) : option nat :=
  fst <$> head (filter (λ x, p x.2 = true) (char_indices s)).
Definition rfind (p : string → bool) (s : string) : option nat :=
  fst <$> list.last (filter (λ x, p x.2 = true) (char_indices s)).

Fixpoint drop_while {A : Type} (p : A → bool) (l : list A) : list A :=
  match l with [] => [] | x :: l' => if p x then drop_while p l' else l end.

Definition trim_start (s : string) : string := text_of (drop_while is_whitespace (chars s)).
Definition trim (s : string) : string :=
  text_of (reverse (drop_while is_whitespace (reverse (drop_while is_whitespace (chars s))))).

(** The words of a list of characters: [s.split_whitespace()]. *)
Fixpoint words (cs : list string) (word : string) : list string :=
  match cs with
  | [] => if decide (word = EmptyString) then [] else [word]
  | c :: cs' =>
      if is_whitespace c then (if decide (word = EmptyString) then [] else [word]) ++ words cs' EmptyString
      else words cs' (word +:+ c)
  end.
Definition split_whitespace (s : string) : list string := words (chars s) EmptyString.

(** [s.splitn(2, char::is_whitespace)]: what comes before the first
    whitespace, and what comes after it if there is one. *)
Fixpoint split_once_ws (cs : list string) (before : string) : string * option string :=
  match cs with
  | [] => (before, None)
  | c :: cs' => if is_whitespace c then (before, Some (text_of cs')) else split_once_ws cs' (before +:+ c)
  end.

(** * Texts and their characters *)

Lemma is_char_inv (c : string) : is_char c = true → ∃ b t, c = String b t ∧ is_cont b = false ∧ all_cont t = true.
Proof. destruct c as [|b t]; [done|]. simpl. intros [Hb Ht]%andb_true_iff. apply negb_true_iff in Hb. eauto. Qed.

Lemma is_text_text_of (cs : list string) : Forall (λ c, is_char c = true) cs → is_text (text_of cs) = true.
Proof. destruct 1 as [|c cs (b & t & -> & Hb & _)%is_char_inv _]; [done|]. simpl. by rewrite Hb. Qed.

Lemma chars_cont (t s : string) (b : Ascii.ascii) :
  all_cont t = true → is_text s = true → chars (String b (t +:+ s)) = String b t :: chars s.
Proof.
  intros Ht Hs. revert b. induction t as [|a t IH]; intros b.
  { change (EmptyString +:+ s) with s. cbn [chars]. by rewrite Hs. }
  simpl in Ht. apply andb_true_iff in Ht as [Ha Ht].
  change (String a t +:+ s) with (String a (t +:+ s)). cbn [chars is_text]. rewrite Ha. simpl.
  specialize (IH Ht a). cbn [chars] in IH. by rewrite IH.
Qed.

Lemma chars_text_of (cs : list string) : Forall (λ c, is_char c = true) cs → chars (text_of cs) = cs.
Proof.
  induction 1 as [|c cs Hc Hcs IH]; [done|]. destruct (is_char_inv c Hc) as (b & t & -> & _ & Ht).
  cbn [text_of]. rewrite string_app_cons, chars_cont by (done || by apply is_text_text_of). by rewrite IH.
Qed.

Lemma text_of_chars (s : string) : text_of (chars s) = s.
Proof.
  induction s as [|a s IH]; [done|]. cbn [chars]. destruct (is_text s); simpl; [by rewrite IH|].
  destruct (chars s) as [|c cs]; simpl in *; by rewrite <- IH.
Qed.

Lemma text_of_app (cs ds : list string) : text_of (cs ++ ds) = text_of cs +:+ text_of ds.
Proof. induction cs as [|c cs IH]; [done|]. simpl. by rewrite IH, string_app_assoc. Qed.

Lemma chars_cons (b : Ascii.ascii) (s : string) :
  ∃ t cs, chars (String b s) = String b t :: cs ∧ (all_cont t = true → is_char (String b t) = negb (is_cont b)).
Proof.
  cbn [chars]. destruct (is_text s); [by exists EmptyString, (chars s); simpl; rewrite andb_true_r|].
  destruct (chars s) as [|c cs]; [by exists EmptyString, []; simpl; rewrite andb_true_r|].
  exists c, cs. split; [done|]. intros Hc. simpl. by rewrite Hc, andb_true_r.
Qed.

(** All but the first byte of the first character are continuation bytes,
    and the other characters are whole. *)
Lemma chars_shape (s : string) :
  match chars s with
  | [] => s = EmptyString
  | c :: cs => Forall (λ c, is_char c = true) cs ∧ match c with String _ t => all_cont t = true | _ => False end
  end.
Proof.
  induction s as [|a s IH]; [done|]. cbn [chars]. destruct s as [|b s]; [by simpl|].
  destruct (chars_cons b s) as (t & cs & E & Hc). rewrite E in *. destruct IH as [H1 H2]. simpl.
  destruct (is_cont b) eqn:Hb; simpl; split; try done.
  - by rewrite Hb, H2.
  - constructor; [|done]. by apply Hc.
Qed.

Lemma chars_are_chars (s : string) : is_text s = true → Forall (λ c, is_char c = true) (chars s).
Proof.
  intros Ht. destruct s as [|b s]; [constructor|]. pose proof (chars_shape (String b s)) as H.
  destruct (chars_cons b s) as (t & cs & E & Hc). rewrite E in *. destruct H as [H1 H2].
  constructor; [|done]. by rewrite Hc.
Qed.

(** * Byte offsets *)

Lemma str_take_app (s t : string) : str_take (String.length s) (s +:+ t) = s.
Proof. induction s as [|b s IH]; [by destruct t|]. rewrite string_app_cons. simpl. by rewrite IH. Qed.

Lemma str_drop_app (s t : string) : str_drop (String.length s) (s +:+ t) = t.
Proof. induction s as [|b s IH]; [by destruct t|]. rewrite string_app_cons. simpl. by rewrite IH. Qed.

Lemma get_app (s t : string) (n : nat) :
  String.get n (s +:+ t) = if n <? String.length s then String.get n s else String.get (n - String.length s) t.
Proof.
  revert n. induction s as [|b s IH]; intros n; [by rewrite Nat.sub_0_r|]. rewrite string_app_cons.
  destruct n as [|n]; simpl; [done|]. rewrite IH. done.
Qed.

Lemma get_beyond (s : string) (n : nat) : String.length s ≤ n → String.get n s = None.
Proof. revert n. induction s as [|b s IH]; intros [|n] Hn; simpl in *; try done; [lia|]. apply IH. lia. Qed.

(** The end of a piece is a boundary iff a text follows. *)
Lemma boundary_app (s t : string) : is_char_boundary (String.length s) (s +:+ t) = is_text t.
Proof.
  unfold is_char_boundary. rewrite get_app, Nat.ltb_irrefl, Nat.sub_diag, string_length_app.
  destruct t as [|b t]; simpl; [|done]. rewrite Nat.add_0_r. apply Nat.eqb_refl.
Qed.

Lemma boundary_split (cs ds : list string) :
  Forall (λ c, is_char c = true) ds → is_char_boundary (String.length (text_of cs)) (text_of (cs ++ ds)) = true.
Proof. intros Hd. rewrite text_of_app, boundary_app. by apply is_text_text_of. Qed.

Lemma boundary_le (n : nat) (s : string) : is_char_boundary n s = true → n ≤ String.length s.
Proof.
  unfold is_char_boundary. destruct (decide (n ≤ String.length s)) as [?|Hn]; [done|].
  rewrite get_beyond by lia. intros ->%Nat.eqb_eq. lia.
Qed.

Lemma chars_app (s t : string) : is_text s = true → is_text t = true → chars (s +:+ t) = chars s ++ chars t.
Proof.
  intros Hs Ht. rewrite <- (text_of_chars s), <- (text_of_chars t), <- text_of_app at 1.
  apply chars_text_of. apply Forall_app. split; by apply chars_are_chars.
Qed.

Lemma is_text_app (s t : string) : is_text s = true → is_text t = true → is_text (s +:+ t) = true.
Proof. by destruct s. Qed.

Lemma is_text_take (n : nat) (s : string) : is_text s = true → is_text (str_take n s) = true.
Proof. by destruct n, s. Qed.

(** A boundary splits the characters. *)
Lemma boundary_inv (n : nat) (s : string) :
  is_text s = true → is_char_boundary n s = true →
  ∃ cs ds, chars s = cs ++ ds ∧ n = String.length (text_of cs) ∧ str_take n s = text_of cs ∧ str_drop n s = text_of ds.
Proof.
  intros Hs Hb. pose proof (boundary_le n s Hb) as Hn. exists (chars (str_take n s)), (chars (str_drop n s)).
  rewrite !text_of_chars, str_take_length by done. split_and!; [|done..].
  assert (is_text (str_drop n s) = true) as Hd.
  { pose proof (boundary_app (str_take n s) (str_drop n s)) as E. rewrite str_take_drop, str_take_length in E by done. congruence. }
  rewrite <- chars_app by (done || by apply is_text_take). by rewrite str_take_drop.
Qed.

(** ** The operations on the characters before and after the offset *)

Section Split.
Context (cs ds : list string).
Hypothesis (Hds : Forall (λ c, is_char c = true) ds).
Let n : nat := String.length (text_of cs).

Lemma slice_to_split : slice_to n (text_of (cs ++ ds)) = Some (text_of cs).
Proof. unfold slice_to, n. by rewrite boundary_split, text_of_app, str_take_app. Qed.

Lemma slice_from_split : slice_from n (text_of (cs ++ ds)) = Some (text_of ds).
Proof. unfold slice_from, n. by rewrite boundary_split, text_of_app, str_drop_app. Qed.

Lemma str_insert_split (c : string) : str_insert n c (text_of (cs ++ ds)) = Some (text_of (cs ++ c :: ds)).
Proof. unfold str_insert, n. rewrite boundary_split by done. by rewrite !text_of_app, str_take_app, str_drop_app. Qed.

End Split.

Lemma str_remove_split (cs ds : list string) (c : string) :
  Forall (λ c, is_char c = true) (c :: ds) →
  str_remove (String.length (text_of cs)) (text_of (cs ++ c :: ds)) = Some (text_of (cs ++ ds)).
Proof.
  intros Hds. unfold str_remove. rewrite boundary_split by done.
  by rewrite !text_of_app, str_take_app, str_drop_app, chars_text_of.
Qed.

(** [str_insert] inside a character panics, and so do the slices. *)
Lemma boundary_after_lead (b : Ascii.ascii) (t rest : string) (s : string) :
  t ≠ EmptyString → all_cont t = true →
  is_char_boundary (S (String.length s)) (s +:+ String b t +:+ rest) = false.
Proof.
  intros Ht Hc. replace (S (String.length s)) with (String.length (s +:+ String b EmptyString))
    by (rewrite string_length_app; simpl; lia).
  change (String b t +:+ rest) with (String b EmptyString +:+ (t +:+ rest)). rewrite string_app_assoc, boundary_app.
  destruct t as [|a t]; [done|]. simpl in Hc |- *. by destruct (is_cont a).
Qed.

(** ** Offsets of neighbouring characters *)

Lemma indices_from_app (n : nat) (cs ds : list string) :
  indices_from n (cs ++ ds) = indices_from n cs ++ indices_from (n + String.length (text_of cs)) ds.
Proof.
  revert n. induction cs as [|c cs IH]; intros n; simpl; [by rewrite Nat.add_0_r|].
  rewrite IH, string_length_app. by rewrite Nat.add_assoc.
Qed.

Lemma last_index (cs : list string) (c : string) :
  list.last (indices_from 0 (cs ++ [c])) = Some (String.length (text_of cs), c).
Proof. rewrite indices_from_app. simpl. by rewrite last_snoc. Qed.

Lemma indices_fmap (n : nat) (cs : list string) : (indices_from n cs).*2 = cs.
Proof. revert n. induction cs as [|c cs IH]; intros n; simpl; [done|]. by rewrite IH. Qed.
