(* ===== verification/Completion.v ===== *)
(** Completion in the client: what the text before the cursor asks for, the
    cache of commands, the ghost text, the popup and the service commands.

    Models crates/betcode-cli/src/completion/ (controller.rs, ghost.rs,
    popup.rs) and commands/ (cache.rs, service.rs), and crates/betcode-core/src/commands/matcher.rs.  The
    scores of the fuzzy matcher come from a library: the class [FuzzyScore]. *)
From stdpp Require Import strings list.
From Stdlib Require Import ZArith Lia.
From S2P Require Import Prelude Utf8.

(** * Triggers (controller.rs) *)

Inductive CompletionTrigger :=
| TrigCommand (query : string)
| TrigAgent (query : string) (forced : bool)
| TrigFile (query : string)
| TrigBash (cmd : string).

(** [char::is_alphanumeric], a Unicode property. *)
Class UnicodeAlphanumeric := { is_alphanumeric : string → bool }.

Definition contains_char (c s : string) : bool := bool_decide (c ∈ chars s).

Definition looks_like_path {UA : UnicodeAlphanumeric} (text : string) : bool :=
  if decide (text = EmptyString) then false
  else if starts_with "./" text || starts_with "../" text then true
  else if contains_char "/" text then true
  else match rfind (λ c, bool_decide (c = ".")) text with
       | Some dot_pos =>
           let ext := str_drop (dot_pos + 1) text in
           negb (bool_decide (ext = EmptyString)) && forallb is_alphanumeric (chars ext)
       | None => false
       end.

(** The start of the token that ends at the end of a text: after the last
    whitespace. *)
Definition token_start (before : string) : nat :=
  match rfind is_whitespace before with
  | None => 0
  | Some i => i + default 0 (String.length <$> head (chars (str_drop i before)))
  end.

Definition token_trigger {UA : UnicodeAlphanumeric} (token : string) : option CompletionTrigger :=
  match strip_prefix "/" token with
  | Some query => Some (TrigCommand query)
  | None =>
      match strip_prefix "@" token with
      | None => None
      | Some after_at =>
          match strip_prefix "@" after_at with
          | Some rest => Some (TrigAgent rest true)
          | None =>
              if starts_with "/" after_at || starts_with "./" after_at || starts_with "../" after_at
              then Some (TrigFile after_at)
              else if looks_like_path after_at then Some (TrigFile after_at)
              else Some (TrigAgent after_at false)
          end
      end
  end.

(** The outer [None] is the panic of the slice. *)
Definition detect_trigger {UA : UnicodeAlphanumeric} (input : string) (cursor_pos : nat) : option (option CompletionTrigger) :=
  let pos := Nat.min cursor_pos (String.length input) in
  match slice_to pos input with
  | None => None
  | Some before =>
      match strip_prefix "!" (trim_start before) with
      | Some cmd => Some (Some (TrigBash cmd))
      | None => Some (token_trigger (str_drop (token_start before) before))
      end
  end.

(** * Ghost text (ghost.rs) *)

Definition ascii_lower (b : Ascii.ascii) : Ascii.ascii :=
  let n := Ascii.nat_of_ascii b in if (65 <=? n) && (n <=? 90) then Ascii.ascii_of_nat (n + 32) else b.

Fixpoint eq_ignore_ascii_case (s t : string) : bool :=
  match s, t with
  | EmptyString, EmptyString => true
  | String a s', String b t' => bool_decide (ascii_lower a = ascii_lower b) && eq_ignore_ascii_case s' t'
  | _, _ => false
  end.

(** The outer [None] is the panic of a slice. *)
Definition ghost_suffix (typed completion : string) : option (option string) :=
  if bool_decide (typed = EmptyString) && negb (bool_decide (completion = EmptyString)) then Some (Some completion)
  else if String.length completion <=? String.length typed then Some None
  else match slice_to (String.length typed) completion with
       | None => None
       | Some prefix =>
           if eq_ignore_ascii_case prefix typed
           then Some (Some (str_drop (String.length typed) completion)) else Some None
       end.

(** * The cache of commands (cache.rs, matcher.rs) *)

Inductive CachedCommandCategory := CachedService | CachedClaudeCode | CachedSkill | CachedMcp | CachedPlugin | CachedUnknown.

#[export] Instance CachedCommandCategory_eq_dec : EqDecision CachedCommandCategory.
Proof. solve_decision. Defined.

Record CachedCommand := mkCached {
  cc_name : string;
  cc_description : string;
  cc_category : CachedCommandCategory;
  cc_source : string
}.

Definition CommandCache : Type := list CachedCommand.

Definition find_by_name (name : string) (cache : CommandCache) : option CachedCommand :=
  head (filter (λ e, cc_name e = name) cache).

(** The score of an item for a query, if it matches. *)
Class FuzzyScore := { fuzzy_score : string → string → option Z }.

(** The best items first; items with the same score keep their order. *)
Definition fuzzy_match {FS : FuzzyScore} (query : string) (items : list string) (max_results : nat) : list string :=
  let results := omap (λ item, (λ score, (item, score)) <$> fuzzy_score query item) items in
  fst <$> take max_results (sort_by_key (λ r, (- r.2)%Z) results).

Definition cache_search {FS : FuzzyScore} (query : string) (max_results : nat) (cache : CommandCache) : list CachedCommand :=
  if decide (query = EmptyString) then take max_results cache
  else omap (λ name, find_by_name name cache) (fuzzy_match query (cc_name <$> cache) max_results).

(** * The popup (popup.rs) *)

Inductive CompletionCategory := CategoryCommand | CategoryAgent | CategoryFile | CategoryPlugin.

Record CompletionItem := mkCompletionItem {
  ci_text : string;
  ci_description : string;
  ci_category : CompletionCategory;
  ci_source_badge : string;
  ci_match_positions : list nat
}.

Definition simple_item (text description : string) (category : CompletionCategory) : CompletionItem :=
  mkCompletionItem text description category EmptyString [].

Record PopupState := mkPopup {
  pp_items : list CompletionItem;
  pp_selected : nat;
  pp_visible_count : nat;
  pp_scroll_offset : nat
}.

Definition popup_new (items : list CompletionItem) (visible_count : nat) : PopupState := mkPopup items 0 visible_count 0.

Definition adjust_scroll (p : PopupState) : PopupState :=
  let '(mkPopup items selected visible scroll) := p in
  if selected <? scroll then mkPopup items selected visible selected
  else if scroll + visible <=? selected then mkPopup items selected visible (selected + 1 - visible)
  else p.

Definition select (n : nat) (p : PopupState) : PopupState := mkPopup (pp_items p) n (pp_visible_count p) (pp_scroll_offset p).

Definition popup_up (p : PopupState) : PopupState :=
  match pp_items p with
  | [] => p
  | _ => adjust_scroll (select (if pp_selected p =? 0 then length (pp_items p) - 1 else pp_selected p - 1) p)
  end.

Definition popup_down (p : PopupState) : PopupState :=
  match pp_items p with
  | [] => p
  | _ => adjust_scroll (select ((pp_selected p + 1) `mod` length (pp_items p)) p)
  end.

(** The slice panics when it starts after its end. *)
Definition visible_items (p : PopupState) : option (list CompletionItem) :=
  let end_ := Nat.min (pp_scroll_offset p + pp_visible_count p) (length (pp_items p)) in
  if pp_scroll_offset p <=? end_ then Some (take (end_ - pp_scroll_offset p) (drop (pp_scroll_offset p) (pp_items p))) else None.

(** Indexing panics on an empty list. *)
Definition popup_accept (p : PopupState) : option CompletionItem := pp_items p !! pp_selected p.

(** ** The selection stays in view *)

Inductive PopupMove := MoveUp | MoveDown.
Definition popup_move (p : PopupState) (m : PopupMove) : PopupState := match m with MoveUp => popup_up p | MoveDown => popup_down p end.

Record popup_ok (items : list CompletionItem) (visible : nat) (p : PopupState) : Prop := {
  po_items : pp_items p = items;
  po_visible : pp_visible_count p = visible;
  po_selected : pp_selected p < length items;
  po_above : pp_scroll_offset p ≤ pp_selected p;
  po_below : pp_selected p < pp_scroll_offset p + visible
}.

Lemma adjust_ok (items : list CompletionItem) (visible : nat) (p : PopupState) : 0 < visible → pp_items p = items → pp_visible_count p = visible →
  pp_selected p < length items → popup_ok items visible (adjust_scroll p).
Proof.
  destruct p as [its sel vis scr]. cbn [pp_items pp_visible_count pp_selected]. intros Hv -> -> Hs. unfold adjust_scroll. destruct (Nat.ltb_spec sel scr); [split; cbn; lia || done|].
  destruct (Nat.leb_spec (scr + visible) sel); split; cbn; lia || done.
Qed.

Lemma popup_moved (p : PopupState) (m : PopupMove) : pp_items p ≠ [] →
  popup_move p m = adjust_scroll (select (match m with
                                          | MoveUp => if pp_selected p =? 0 then length (pp_items p) - 1 else pp_selected p - 1
                                          | MoveDown => (pp_selected p + 1) `mod` length (pp_items p)
                                          end) p).
Proof. intros H. destruct m; cbn [popup_move]; [unfold popup_up|unfold popup_down]; by destruct (pp_items p). Qed.

Lemma ok_items (items : list CompletionItem) (visible : nat) (p : PopupState) : popup_ok items visible p → pp_items p ≠ [].
Proof. intros [Hi _ Hs _ _] E. rewrite <- Hi, E in Hs. cbn in Hs. lia. Qed.

Lemma move_ok (items : list CompletionItem) (visible : nat) (p : PopupState) (m : PopupMove) : 0 < visible →
  popup_ok items visible p → popup_ok items visible (popup_move p m).
Proof.
  intros Hv Hp. rewrite popup_moved by (by eapply ok_items). destruct Hp as [Hi Hn Hs _ _]. apply adjust_ok; [done..|]. cbn [pp_selected select]. rewrite Hi.
  destruct m; [destruct (pp_selected p =? 0); lia|]. apply Nat.mod_upper_bound. lia.
Qed.

Lemma moves_ok (items : list CompletionItem) (visible : nat) (moves : list PopupMove) (p : PopupState) : 0 < visible →
  popup_ok items visible p → popup_ok items visible (foldl popup_move p moves).
Proof. intros Hv. revert p. induction moves as [|m moves IH]; intros p Hp; [done|]. by apply IH, move_ok. Qed.

(** However the selection is moved, it is one of the items that are shown, and
    the one that is accepted. *)
Theorem popup_shows_selection (items : list CompletionItem) (visible : nat) (moves : list PopupMove) : 0 < visible → items ≠ [] →
  let p := foldl popup_move (popup_new items visible) moves in
  ∃ shown x, visible_items p = Some shown ∧ length shown ≤ visible ∧ popup_accept p = Some x ∧ shown !! (pp_selected p - pp_scroll_offset p) = Some x.
Proof.
  intros Hv Hne p. assert (popup_ok items visible p) as [Hi Hn Hs Ha Hb].
  { apply moves_ok; [done|]. split; cbn; try done. destruct items; [done|cbn; lia]. }
  unfold visible_items, popup_accept. rewrite Hi, Hn. rewrite (proj2 (Nat.leb_le _ _)) by lia.
  destruct (lookup_lt_is_Some_2 items _ Hs) as [x Hx]. eexists _, x. split; [done|]. rewrite length_take. split; [lia|]. split; [done|].
  rewrite lookup_take_lt, lookup_drop by lia. by replace (pp_scroll_offset p + (pp_selected p - pp_scroll_offset p)) with (pp_selected p) by lia.
Qed.

(** Up and down undo each other. *)
Lemma up_after_down (items : list CompletionItem) (visible : nat) (p : PopupState) : 0 < visible → popup_ok items visible p →
  pp_selected (popup_up (popup_down p)) = pp_selected p.
Proof.
  intros Hv Hp. change (popup_up (popup_down p)) with (popup_move (popup_move p MoveDown) MoveUp).
  pose proof (move_ok items visible p MoveDown Hv Hp) as Hd. rewrite (popup_moved _ MoveUp) by (by eapply ok_items). rewrite (po_items _ _ _ Hd).
  rewrite (popup_moved p MoveDown) by (by eapply ok_items). destruct Hp as [Hi _ Hs _ _]. rewrite Hi.
  assert (∀ n q, pp_selected (adjust_scroll (select n q)) = n) as Hadj by (intros n [its sel vis scr]; unfold adjust_scroll; cbn [select pp_items pp_visible_count pp_scroll_offset]; by repeat case_match).
  rewrite !Hadj. destruct (decide (pp_selected p + 1 = length items)) as [Hl|Hl].
  - rewrite Hl, Nat.Div0.mod_same. cbn. lia.
  - rewrite Nat.mod_small by lia. destruct (Nat.eqb_spec (pp_selected p + 1) 0); lia.
Qed.

(** * Service commands (commands/service.rs) *)

Inductive ServiceCommand :=
| ScCd (path : string)
| ScPwd
| ScExit
| ScExitDaemon
| ScReloadRemote
| ScBash (cmd : string).

Definition SERVICE_COMMANDS : list string := ["cd"; "pwd"; "exit"; "exit-daemon"; "reload-remote"].

Definition is_service_command (input : string) : bool :=
  let trimmed := trim input in
  if starts_with "!" trimmed && (1 <? String.length trimmed) then true
  else match strip_prefix "/" trimmed with
       | Some rest => bool_decide (default EmptyString (head (split_whitespace rest)) ∈ SERVICE_COMMANDS)
       | None => false
       end.

Definition parse_service_command (input : string) : option ServiceCommand :=
  let trimmed := trim input in
  match strip_prefix "!" trimmed with
  | Some cmd => let cmd := trim cmd in if decide (cmd = EmptyString) then None else Some (ScBash cmd)
  | None =>
      rest ← strip_prefix "/" trimmed;
      let '(cmd_name, more) := split_once_ws (chars rest) EmptyString in
      let args := trim (default EmptyString more) in
      if decide (cmd_name = "cd") then Some (ScCd (if decide (args = EmptyString) then "~" else args))
      else if decide (cmd_name = "pwd") then Some ScPwd
      else if decide (cmd_name = "exit") then Some ScExit
      else if decide (cmd_name = "exit-daemon") then Some ScExitDaemon
      else if decide (cmd_name = "reload-remote") then Some ScReloadRemote
      else None
  end.

Lemma first_word_split (cs : list string) (before : string) : before ≠ EmptyString ∨ head (is_whitespace <$> cs) = Some false ∨ cs = [] →
  Forall (λ c, c ≠ EmptyString) cs → default EmptyString (head (words cs before)) = (split_once_ws cs before).1.
Proof.
  revert before. induction cs as [|c cs IH]; intros before Hb Hne; cbn; [by case_decide|]. apply Forall_cons in Hne as [Hc Hne].
  destruct (is_whitespace c) eqn:Ew.
  - destruct Hb as [Hb|[Hb|Hb]]; [by rewrite decide_False| |done]. cbn in Hb. congruence.
  - apply IH; [|done]. left. destruct before; [|done]. by destruct c.
Qed.

Lemma chars_nonempty (s : string) : Forall (λ c, c ≠ EmptyString) (chars s).
Proof.
  induction s as [|b s IH]; [constructor|]. cbn [chars]. destruct (is_text s); [by constructor|].
  destruct (chars s); constructor; try done; by apply Forall_cons in IH as [_ IH].
Qed.

(** What counts as a service command is one that parses, when nothing but a
    blank separates the slash from the name. *)
Theorem slash_commands_parse (input rest : string) : strip_prefix "/" (trim input) = Some rest → head (is_whitespace <$> chars rest) ≠ Some true →
  is_service_command input = bool_decide (is_Some (parse_service_command input)).
Proof.
  intros Hr Hw. unfold is_service_command, parse_service_command. rewrite Hr.
  assert (strip_prefix "!" (trim input) = None ∧ starts_with "!" (trim input) = false) as [-> ->].
  { apply strip_prefix_spec in Hr. rewrite Hr. done. }
  cbn [andb mbind option_bind]. unfold split_whitespace. rewrite first_word_split; [|right; destruct (chars rest) as [|c cs]; [by right|left; cbn in *; by destruct (is_whitespace c)]|apply chars_nonempty].
  destruct (split_once_ws (chars rest) EmptyString) as [name more]. cbn [fst]. unfold SERVICE_COMMANDS.
  repeat (case_decide; [subst name; reflexivity|]). rewrite !bool_decide_eq_false_2; [done| |].
  - by intros [? ?].
  - rewrite !elem_of_cons, elem_of_nil. naive_solver.
Qed.

(** With a blank in between it counts and does not parse. *)
Lemma blank_before_name : is_service_command "/ pwd" = true ∧ parse_service_command "/ pwd" = None.
Proof. vm_compute. split; reflexivity. Qed.

Lemma popup_shows_selection_witness :
  let items := simple_item "a" "x" CategoryFile :: replicate 4 (simple_item "b" "y" CategoryFile) in
  ∃ shown x, visible_items (foldl popup_move (popup_new items 2) [MoveUp; MoveUp; MoveDown; MoveDown]) = Some shown ∧ length shown ≤ 2 ∧
    popup_accept (foldl popup_move (popup_new items 2) [MoveUp; MoveUp; MoveDown; MoveDown]) = Some x ∧ head shown = Some x.
Proof.
  intros items. destruct (popup_shows_selection items 2 [MoveUp; MoveUp; MoveDown; MoveDown]) as (shown & x & H1 & H2 & H3 & H4); [lia|done|].
  exists shown, x. split_and!; [done..|]. destruct shown; [done|exact H4].
Defined.
