(* ===== verification/AppState.v ===== *)
(** The state of the terminal client: the conversation, the line that is being
    edited, the dialogs, and what agent events do to them.

    Models crates/betcode-cli/src/app/state.rs and the data of
    tui/fingerprint_panel.rs.  Operations that can panic return an option.  A
    number of the 16-bit screen is a [Z]; positions in texts and lists are
    naturals.  The channels to the tasks that fetch completions and run
    commands are bounded queues.  Timestamps are arguments.  The debug text of
    a tool's input is not kept, as nothing reads it. *)
From stdpp Require Import strings list pretty.
From Stdlib Require Import ZArith SpecFloat Lia.
From S2P Require Import Prelude Utf8 Completion Json Ndjson Multiplexer Commands EventBridge Fingerprint SessionRelay AgentService.

(** * Data *)

Inductive AppMode :=
| ModeNormal
| ModePermissionPrompt
| ModePermissionEditInput
| ModePermissionComment
| ModePermissionDenyMessage
| ModeUserQuestion
| ModeSessionList
| ModeFingerprintVerification.

#[export] Instance AppMode_eq_dec : EqDecision AppMode.
Proof. solve_decision. Defined.

Inductive MessageRole := RoleUser | RoleAssistant | RoleSystem | RoleTool | RoleCompactionDivider.

#[export] Instance MessageRole_eq_dec : EqDecision MessageRole.
Proof. solve_decision. Defined.

Record DisplayMessage := mkMessage {
  dm_role : MessageRole;
  dm_content : string;
  dm_streaming : bool;
  dm_is_tool_result : bool;
  dm_agent_label : option string
}.

Record PendingPermission := mkPending {
  pm_request_id : string;
  pm_tool_name : string;
  pm_description : string;
  pm_original_input : option Json;
  pm_edit_buffer : string;
  pm_edit_cursor : nat;
  pm_deny_interrupt : bool
}.

Record QuestionOptionDisplay := mkOptionDisplay { od_label : string; od_description : string }.

Record PendingUserQuestion := mkQuestion {
  pq_question_id : string;
  pq_question : string;
  pq_options : list QuestionOptionDisplay;
  pq_multi_select : bool;
  pq_highlight : nat;
  pq_selected : list nat
}.

Definition COMPLETION_VISIBLE_COUNT : nat := 8.

Record CompletionState := mkCompletion {
  popup_visible : bool;
  items : list string;
  selected_index : nat;
  popup_offset : nat;
  ghost_text : option string
}.

Definition adjust_scroll (c : CompletionState) : CompletionState :=
  let offset :=
    if selected_index c <? popup_offset c then selected_index c
    else if popup_offset c + COMPLETION_VISIBLE_COUNT <=? selected_index c
    then selected_index c + 1 - COMPLETION_VISIBLE_COUNT else popup_offset c in
  mkCompletion (popup_visible c) (items c) (selected_index c) offset (ghost_text c).

Record DetailPanelState := mkDetail {
  dp_visible : bool;
  dp_selected_tool_index : option nat;
  dp_scroll_offset : Z
}.

Record TokenUsage := mkTokens { tu_input_tokens : Z; tu_output_tokens : Z; tu_cost_usd : spec_float }.

Inductive ToolCallStatus := ToolRunning | ToolDone | ToolError.

#[export] Instance ToolCallStatus_eq_dec : EqDecision ToolCallStatus.
Proof. solve_decision. Defined.

Record ToolCallEntry := mkToolCall {
  tc_tool_id : string;
  tc_tool_name : string;
  tc_description : string;
  tc_output : option string;
  tc_status : ToolCallStatus;
  tc_duration_ms : option Z;
  tc_finished_at : option Z;
  tc_message_index : nat
}.

Inductive ClientCommand :=
| CmdCompact
| CmdClear
| CmdModelSwitch (model : string).

Inductive CompletionFetchKind := FetchAgents | FetchFiles | FetchMixed.

Record CompletionRequest := mkFetch { cf_kind : CompletionFetchKind; cf_query : string }.

Record ServiceCommandExec := mkExec {
  ex_command : string;
  ex_args : list string;
  ex_session_id : string
}.

Inductive FingerprintDecision := DecisionAccept | DecisionReject.

Record FingerprintPrompt := mkPrompt {
  fp_machine_id : string;
  fp_daemon_fingerprint : string;
  fp_randomart : string;
  fp_fingerprint_display : string;
  fp_check : FingerprintCheck;
  fp_decision : option FingerprintDecision
}.

(** [None] is the panic of [fingerprint_randomart]. *)
Definition prompt_new {SH : Sha256} (machine_id daemon_fingerprint : string) (check : FingerprintCheck)
  : option FingerprintPrompt :=
  (λ art, mkPrompt machine_id daemon_fingerprint art (format_fingerprint_display daemon_fingerprint) check None) <$>
    fingerprint_randomart daemon_fingerprint machine_id.

Definition needs_action (p : FingerprintPrompt) : bool :=
  match fp_check p with Mismatch _ _ => true | _ => false end.

Record App := mkApp {
  a_mode : AppMode;
  a_session_id : option string;
  a_model : string;
  a_messages : list DisplayMessage;
  a_input : string;
  a_cursor_pos : nat;
  a_input_history : list string;
  a_history_index : option nat;
  a_scroll_offset : Z;
  a_scroll_pinned : bool;
  a_viewport_height : Z;
  a_total_lines : Z;
  a_should_quit : bool;
  a_status : string;
  a_token_usage : option TokenUsage;
  a_pending_permission : option PendingPermission;
  a_pending_question : option PendingUserQuestion;
  a_pending_fingerprint : option FingerprintPrompt;
  a_agent_busy : bool;
  a_completion_state : CompletionState;
  a_show_status_panel : bool;
  a_detail_panel : DetailPanelState;
  a_connection_type : string;
  a_tool_calls : list ToolCallEntry;
  a_spinner_tick : Z;
  a_command_cache : CommandCache;
  a_completion_request_tx : option (list CompletionRequest);
  a_service_command_tx : option (list ServiceCommandExec);
  a_pending_client_command : option ClientCommand;
  a_compaction_summary : option string
}.

Definition with_input (s : string) (pos : nat) (a : App) : App :=
  mkApp
    (a_mode a) (a_session_id a) (a_model a) (a_messages a) s pos (a_input_history a) (a_history_index a)
    (a_scroll_offset a) (a_scroll_pinned a) (a_viewport_height a) (a_total_lines a) (a_should_quit a) (a_status a)
    (a_token_usage a) (a_pending_permission a) (a_pending_question a) (a_pending_fingerprint a) (a_agent_busy a)
    (a_completion_state a) (a_show_status_panel a) (a_detail_panel a) (a_connection_type a) (a_tool_calls a)
    (a_spinner_tick a) (a_command_cache a) (a_completion_request_tx a) (a_service_command_tx a)
    (a_pending_client_command a) (a_compaction_summary a).
Definition with_history (h : list string) (i : option nat) (a : App) : App :=
  mkApp
    (a_mode a) (a_session_id a) (a_model a) (a_messages a) (a_input a) (a_cursor_pos a) h i (a_scroll_offset a)
    (a_scroll_pinned a) (a_viewport_height a) (a_total_lines a) (a_should_quit a) (a_status a) (a_token_usage a)
    (a_pending_permission a) (a_pending_question a) (a_pending_fingerprint a) (a_agent_busy a) (a_completion_state a)
    (a_show_status_panel a) (a_detail_panel a) (a_connection_type a) (a_tool_calls a) (a_spinner_tick a)
    (a_command_cache a) (a_completion_request_tx a) (a_service_command_tx a) (a_pending_client_command a)
    (a_compaction_summary a).
Definition with_scroll (offset : Z) (pinned : bool) (a : App) : App :=
  mkApp
    (a_mode a) (a_session_id a) (a_model a) (a_messages a) (a_input a) (a_cursor_pos a) (a_input_history a)
    (a_history_index a) offset pinned (a_viewport_height a) (a_total_lines a) (a_should_quit a) (a_status a)
    (a_token_usage a) (a_pending_permission a) (a_pending_question a) (a_pending_fingerprint a) (a_agent_busy a)
    (a_completion_state a) (a_show_status_panel a) (a_detail_panel a) (a_connection_type a) (a_tool_calls a)
    (a_spinner_tick a) (a_command_cache a) (a_completion_request_tx a) (a_service_command_tx a)
    (a_pending_client_command a) (a_compaction_summary a).
Definition with_viewport (height total : Z) (a : App) : App :=
  mkApp
    (a_mode a) (a_session_id a) (a_model a) (a_messages a) (a_input a) (a_cursor_pos a) (a_input_history a)
    (a_history_index a) (a_scroll_offset a) (a_scroll_pinned a) height total (a_should_quit a) (a_status a)
    (a_token_usage a) (a_pending_permission a) (a_pending_question a) (a_pending_fingerprint a) (a_agent_busy a)
    (a_completion_state a) (a_show_status_panel a) (a_detail_panel a) (a_connection_type a) (a_tool_calls a)
    (a_spinner_tick a) (a_command_cache a) (a_completion_request_tx a) (a_service_command_tx a)
    (a_pending_client_command a) (a_compaction_summary a).
Definition with_permission (m : AppMode) (p : option PendingPermission) (a : App) : App :=
  mkApp
    m (a_session_id a) (a_model a) (a_messages a) (a_input a) (a_cursor_pos a) (a_input_history a)
    (a_history_index a) (a_scroll_offset a) (a_scroll_pinned a) (a_viewport_height a) (a_total_lines a)
    (a_should_quit a) (a_status a) (a_token_usage a) p (a_pending_question a) (a_pending_fingerprint a)
    (a_agent_busy a) (a_completion_state a) (a_show_status_panel a) (a_detail_panel a) (a_connection_type a)
    (a_tool_calls a) (a_spinner_tick a) (a_command_cache a) (a_completion_request_tx a) (a_service_command_tx a)
    (a_pending_client_command a) (a_compaction_summary a).
Definition with_question (m : AppMode) (q : option PendingUserQuestion) (a : App) : App :=
  mkApp
    m (a_session_id a) (a_model a) (a_messages a) (a_input a) (a_cursor_pos a) (a_input_history a)
    (a_history_index a) (a_scroll_offset a) (a_scroll_pinned a) (a_viewport_height a) (a_total_lines a)
    (a_should_quit a) (a_status a) (a_token_usage a) (a_pending_permission a) q (a_pending_fingerprint a)
    (a_agent_busy a) (a_completion_state a) (a_show_status_panel a) (a_detail_panel a) (a_connection_type a)
    (a_tool_calls a) (a_spinner_tick a) (a_command_cache a) (a_completion_request_tx a) (a_service_command_tx a)
    (a_pending_client_command a) (a_compaction_summary a).
Definition with_fingerprint (m : AppMode) (f : option FingerprintPrompt) (a : App) : App :=
  mkApp
    m (a_session_id a) (a_model a) (a_messages a) (a_input a) (a_cursor_pos a) (a_input_history a)
    (a_history_index a) (a_scroll_offset a) (a_scroll_pinned a) (a_viewport_height a) (a_total_lines a)
    (a_should_quit a) (a_status a) (a_token_usage a) (a_pending_permission a) (a_pending_question a) f
    (a_agent_busy a) (a_completion_state a) (a_show_status_panel a) (a_detail_panel a) (a_connection_type a)
    (a_tool_calls a) (a_spinner_tick a) (a_command_cache a) (a_completion_request_tx a) (a_service_command_tx a)
    (a_pending_client_command a) (a_compaction_summary a).
Definition with_session_id (x : option string) (a : App) : App :=
  mkApp
    (a_mode a) x (a_model a) (a_messages a) (a_input a) (a_cursor_pos a) (a_input_history a) (a_history_index a)
    (a_scroll_offset a) (a_scroll_pinned a) (a_viewport_height a) (a_total_lines a) (a_should_quit a) (a_status a)
    (a_token_usage a) (a_pending_permission a) (a_pending_question a) (a_pending_fingerprint a) (a_agent_busy a)
    (a_completion_state a) (a_show_status_panel a) (a_detail_panel a) (a_connection_type a) (a_tool_calls a)
    (a_spinner_tick a) (a_command_cache a) (a_completion_request_tx a) (a_service_command_tx a)
    (a_pending_client_command a) (a_compaction_summary a).
Definition with_model (x : string) (a : App) : App :=
  mkApp
    (a_mode a) (a_session_id a) x (a_messages a) (a_input a) (a_cursor_pos a) (a_input_history a) (a_history_index a)
    (a_scroll_offset a) (a_scroll_pinned a) (a_viewport_height a) (a_total_lines a) (a_should_quit a) (a_status a)
    (a_token_usage a) (a_pending_permission a) (a_pending_question a) (a_pending_fingerprint a) (a_agent_busy a)
    (a_completion_state a) (a_show_status_panel a) (a_detail_panel a) (a_connection_type a) (a_tool_calls a)
    (a_spinner_tick a) (a_command_cache a) (a_completion_request_tx a) (a_service_command_tx a)
    (a_pending_client_command a) (a_compaction_summary a).
Definition with_messages (x : list DisplayMessage) (a : App) : App :=
  mkApp
    (a_mode a) (a_session_id a) (a_model a) x (a_input a) (a_cursor_pos a) (a_input_history a) (a_history_index a)
    (a_scroll_offset a) (a_scroll_pinned a) (a_viewport_height a) (a_total_lines a) (a_should_quit a) (a_status a)
    (a_token_usage a) (a_pending_permission a) (a_pending_question a) (a_pending_fingerprint a) (a_agent_busy a)
    (a_completion_state a) (a_show_status_panel a) (a_detail_panel a) (a_connection_type a) (a_tool_calls a)
    (a_spinner_tick a) (a_command_cache a) (a_completion_request_tx a) (a_service_command_tx a)
    (a_pending_client_command a) (a_compaction_summary a).
Definition with_should_quit (x : bool) (a : App) : App :=
  mkApp
    (a_mode a) (a_session_id a) (a_model a) (a_messages a) (a_input a) (a_cursor_pos a) (a_input_history a)
    (a_history_index a) (a_scroll_offset a) (a_scroll_pinned a) (a_viewport_height a) (a_total_lines a) x
    (a_status a) (a_token_usage a) (a_pending_permission a) (a_pending_question a) (a_pending_fingerprint a)
    (a_agent_busy a) (a_completion_state a) (a_show_status_panel a) (a_detail_panel a) (a_connection_type a)
    (a_tool_calls a) (a_spinner_tick a) (a_command_cache a) (a_completion_request_tx a) (a_service_command_tx a)
    (a_pending_client_command a) (a_compaction_summary a).
Definition with_status (x : string) (a : App) : App :=
  mkApp
    (a_mode a) (a_session_id a) (a_model a) (a_messages a) (a_input a) (a_cursor_pos a) (a_input_history a)
    (a_history_index a) (a_scroll_offset a) (a_scroll_pinned a) (a_viewport_height a) (a_total_lines a)
    (a_should_quit a) x (a_token_usage a) (a_pending_permission a) (a_pending_question a) (a_pending_fingerprint a)
    (a_agent_busy a) (a_completion_state a) (a_show_status_panel a) (a_detail_panel a) (a_connection_type a)
    (a_tool_calls a) (a_spinner_tick a) (a_command_cache a) (a_completion_request_tx a) (a_service_command_tx a)
    (a_pending_client_command a) (a_compaction_summary a).
Definition with_token_usage (x : option TokenUsage) (a : App) : App :=
  mkApp
    (a_mode a) (a_session_id a) (a_model a) (a_messages a) (a_input a) (a_cursor_pos a) (a_input_history a)
    (a_history_index a) (a_scroll_offset a) (a_scroll_pinned a) (a_viewport_height a) (a_total_lines a)
    (a_should_quit a) (a_status a) x (a_pending_permission a) (a_pending_question a) (a_pending_fingerprint a)
    (a_agent_busy a) (a_completion_state a) (a_show_status_panel a) (a_detail_panel a) (a_connection_type a)
    (a_tool_calls a) (a_spinner_tick a) (a_command_cache a) (a_completion_request_tx a) (a_service_command_tx a)
    (a_pending_client_command a) (a_compaction_summary a).
Definition with_agent_busy (x : bool) (a : App) : App :=
  mkApp
    (a_mode a) (a_session_id a) (a_model a) (a_messages a) (a_input a) (a_cursor_pos a) (a_input_history a)
    (a_history_index a) (a_scroll_offset a) (a_scroll_pinned a) (a_viewport_height a) (a_total_lines a)
    (a_should_quit a) (a_status a) (a_token_usage a) (a_pending_permission a) (a_pending_question a)
    (a_pending_fingerprint a) x (a_completion_state a) (a_show_status_panel a) (a_detail_panel a)
    (a_connection_type a) (a_tool_calls a) (a_spinner_tick a) (a_command_cache a) (a_completion_request_tx a)
    (a_service_command_tx a) (a_pending_client_command a) (a_compaction_summary a).
Definition with_completion_state (x : CompletionState) (a : App) : App :=
  mkApp
    (a_mode a) (a_session_id a) (a_model a) (a_messages a) (a_input a) (a_cursor_pos a) (a_input_history a)
    (a_history_index a) (a_scroll_offset a) (a_scroll_pinned a) (a_viewport_height a) (a_total_lines a)
    (a_should_quit a) (a_status a) (a_token_usage a) (a_pending_permission a) (a_pending_question a)
    (a_pending_fingerprint a) (a_agent_busy a) x (a_show_status_panel a) (a_detail_panel a) (a_connection_type a)
    (a_tool_calls a) (a_spinner_tick a) (a_command_cache a) (a_completion_request_tx a) (a_service_command_tx a)
    (a_pending_client_command a) (a_compaction_summary a).
Definition with_show_status_panel (x : bool) (a : App) : App :=
  mkApp
    (a_mode a) (a_session_id a) (a_model a) (a_messages a) (a_input a) (a_cursor_pos a) (a_input_history a)
    (a_history_index a) (a_scroll_offset a) (a_scroll_pinned a) (a_viewport_height a) (a_total_lines a)
    (a_should_quit a) (a_status a) (a_token_usage a) (a_pending_permission a) (a_pending_question a)
    (a_pending_fingerprint a) (a_agent_busy a) (a_completion_state a) x (a_detail_panel a) (a_connection_type a)
    (a_tool_calls a) (a_spinner_tick a) (a_command_cache a) (a_completion_request_tx a) (a_service_command_tx a)
    (a_pending_client_command a) (a_compaction_summary a).
Definition with_detail_panel (x : DetailPanelState) (a : App) : App :=
  mkApp
    (a_mode a) (a_session_id a) (a_model a) (a_messages a) (a_input a) (a_cursor_pos a) (a_input_history a)
    (a_history_index a) (a_scroll_offset a) (a_scroll_pinned a) (a_viewport_height a) (a_total_lines a)
    (a_should_quit a) (a_status a) (a_token_usage a) (a_pending_permission a) (a_pending_question a)
    (a_pending_fingerprint a) (a_agent_busy a) (a_completion_state a) (a_show_status_panel a) x (a_connection_type a)
    (a_tool_calls a) (a_spinner_tick a) (a_command_cache a) (a_completion_request_tx a) (a_service_command_tx a)
    (a_pending_client_command a) (a_compaction_summary a).
Definition with_connection_type (x : string) (a : App) : App :=
  mkApp
    (a_mode a) (a_session_id a) (a_model a) (a_messages a) (a_input a) (a_cursor_pos a) (a_input_history a)
    (a_history_index a) (a_scroll_offset a) (a_scroll_pinned a) (a_viewport_height a) (a_total_lines a)
    (a_should_quit a) (a_status a) (a_token_usage a) (a_pending_permission a) (a_pending_question a)
    (a_pending_fingerprint a) (a_agent_busy a) (a_completion_state a) (a_show_status_panel a) (a_detail_panel a) x
    (a_tool_calls a) (a_spinner_tick a) (a_command_cache a) (a_completion_request_tx a) (a_service_command_tx a)
    (a_pending_client_command a) (a_compaction_summary a).
Definition with_tool_calls (x : list ToolCallEntry) (a : App) : App :=
  mkApp
    (a_mode a) (a_session_id a) (a_model a) (a_messages a) (a_input a) (a_cursor_pos a) (a_input_history a)
    (a_history_index a) (a_scroll_offset a) (a_scroll_pinned a) (a_viewport_height a) (a_total_lines a)
    (a_should_quit a) (a_status a) (a_token_usage a) (a_pending_permission a) (a_pending_question a)
    (a_pending_fingerprint a) (a_agent_busy a) (a_completion_state a) (a_show_status_panel a) (a_detail_panel a)
    (a_connection_type a) x (a_spinner_tick a) (a_command_cache a) (a_completion_request_tx a)
    (a_service_command_tx a) (a_pending_client_command a) (a_compaction_summary a).
Definition with_spinner_tick (x : Z) (a : App) : App :=
  mkApp
    (a_mode a) (a_session_id a) (a_model a) (a_messages a) (a_input a) (a_cursor_pos a) (a_input_history a)
    (a_history_index a) (a_scroll_offset a) (a_scroll_pinned a) (a_viewport_height a) (a_total_lines a)
    (a_should_quit a) (a_status a) (a_token_usage a) (a_pending_permission a) (a_pending_question a)
    (a_pending_fingerprint a) (a_agent_busy a) (a_completion_state a) (a_show_status_panel a) (a_detail_panel a)
    (a_connection_type a) (a_tool_calls a) x (a_command_cache a) (a_completion_request_tx a) (a_service_command_tx a)
    (a_pending_client_command a) (a_compaction_summary a).
Definition with_command_cache (x : CommandCache) (a : App) : App :=
  mkApp
    (a_mode a) (a_session_id a) (a_model a) (a_messages a) (a_input a) (a_cursor_pos a) (a_input_history a)
    (a_history_index a) (a_scroll_offset a) (a_scroll_pinned a) (a_viewport_height a) (a_total_lines a)
    (a_should_quit a) (a_status a) (a_token_usage a) (a_pending_permission a) (a_pending_question a)
    (a_pending_fingerprint a) (a_agent_busy a) (a_completion_state a) (a_show_status_panel a) (a_detail_panel a)
    (a_connection_type a) (a_tool_calls a) (a_spinner_tick a) x (a_completion_request_tx a) (a_service_command_tx a)
    (a_pending_client_command a) (a_compaction_summary a).
Definition with_completion_request_tx (x : option (list CompletionRequest)) (a : App) : App :=
  mkApp
    (a_mode a) (a_session_id a) (a_model a) (a_messages a) (a_input a) (a_cursor_pos a) (a_input_history a)
    (a_history_index a) (a_scroll_offset a) (a_scroll_pinned a) (a_viewport_height a) (a_total_lines a)
    (a_should_quit a) (a_status a) (a_token_usage a) (a_pending_permission a) (a_pending_question a)
    (a_pending_fingerprint a) (a_agent_busy a) (a_completion_state a) (a_show_status_panel a) (a_detail_panel a)
    (a_connection_type a) (a_tool_calls a) (a_spinner_tick a) (a_command_cache a) x (a_service_command_tx a)
    (a_pending_client_command a) (a_compaction_summary a).
Definition with_service_command_tx (x : option (list ServiceCommandExec)) (a : App) : App :=
  mkApp
    (a_mode a) (a_session_id a) (a_model a) (a_messages a) (a_input a) (a_cursor_pos a) (a_input_history a)
    (a_history_index a) (a_scroll_offset a) (a_scroll_pinned a) (a_viewport_height a) (a_total_lines a)
    (a_should_quit a) (a_status a) (a_token_usage a) (a_pending_permission a) (a_pending_question a)
    (a_pending_fingerprint a) (a_agent_busy a) (a_completion_state a) (a_show_status_panel a) (a_detail_panel a)
    (a_connection_type a) (a_tool_calls a) (a_spinner_tick a) (a_command_cache a) (a_completion_request_tx a) x
    (a_pending_client_command a) (a_compaction_summary a).
Definition with_pending_client_command (x : option ClientCommand) (a : App) : App :=
  mkApp
    (a_mode a) (a_session_id a) (a_model a) (a_messages a) (a_input a) (a_cursor_pos a) (a_input_history a)
    (a_history_index a) (a_scroll_offset a) (a_scroll_pinned a) (a_viewport_height a) (a_total_lines a)
    (a_should_quit a) (a_status a) (a_token_usage a) (a_pending_permission a) (a_pending_question a)
    (a_pending_fingerprint a) (a_agent_busy a) (a_completion_state a) (a_show_status_panel a) (a_detail_panel a)
    (a_connection_type a) (a_tool_calls a) (a_spinner_tick a) (a_command_cache a) (a_completion_request_tx a)
    (a_service_command_tx a) x (a_compaction_summary a).
Definition with_compaction_summary (x : option string) (a : App) : App :=
  mkApp
    (a_mode a) (a_session_id a) (a_model a) (a_messages a) (a_input a) (a_cursor_pos a) (a_input_history a)
    (a_history_index a) (a_scroll_offset a) (a_scroll_pinned a) (a_viewport_height a) (a_total_lines a)
    (a_should_quit a) (a_status a) (a_token_usage a) (a_pending_permission a) (a_pending_question a)
    (a_pending_fingerprint a) (a_agent_busy a) (a_completion_state a) (a_show_status_panel a) (a_detail_panel a)
    (a_connection_type a) (a_tool_calls a) (a_spinner_tick a) (a_command_cache a) (a_completion_request_tx a)
    (a_service_command_tx a) (a_pending_client_command a) x.

Definition no_completion : CompletionState := mkCompletion false [] 0 0 None.

Definition app_new : App :=
  mkApp ModeNormal None EmptyString [] EmptyString 0 [] None 0 true 0 0 false "Connecting..." None None None None false
    no_completion false (mkDetail false None 0) "local" [] 0 [] None None None None.

(** [try_send] on a channel with room for 16. *)
Definition try_send {A : Type} (x : A) (tx : option (list A)) : option (list A) :=
  (λ queue, if decide (length queue < 16) then queue ++ [x] else queue) <$> tx.

Section App.
Context {UA : UnicodeAlphanumeric} {FS : FuzzyScore}.

(** * Completion *)

Definition fetch_completion (kind : CompletionFetchKind) (query : string) (a : App) : App :=
  let c := a_completion_state a in
  with_completion_state (mkCompletion (popup_visible c) (items c) (selected_index c) (popup_offset c) (head (items c)))
    (with_completion_request_tx (try_send (mkFetch kind query) (a_completion_request_tx a)) a).

(** [None] is a panic. *)
Definition update_completion_state (a : App) : option App :=
  trigger ← detect_trigger (a_input a) (a_cursor_pos a);
  Some
    match trigger with
    | Some (TrigCommand query) =>
        let found := cc_name <$> cache_search query 50 (a_command_cache a) in
        with_completion_state (mkCompletion (negb (bool_decide (found = []))) found 0 0 (head found)) a
    | Some (TrigAgent query forced) => fetch_completion (if forced : bool then FetchAgents else FetchMixed) query a
    | Some (TrigFile query) => fetch_completion FetchFiles query a
    | Some (TrigBash _) =>
        let c := a_completion_state a in
        with_completion_state (mkCompletion (popup_visible c) (items c) (selected_index c) (popup_offset c) None) a
    | None => with_completion_state no_completion a
    end.

(** * Scrolling *)

Definition u16_max : Z := 65535.
Definition sat_add16 (x y : Z) : Z := Z.min (x + y) u16_max.
Definition sat_sub16 (x y : Z) : Z := Z.max (x - y) 0.

Definition scroll_up (n : Z) (a : App) : App :=
  let max_scroll := sat_sub16 (a_total_lines a) (a_viewport_height a) in
  let offset := Z.min (sat_add16 (a_scroll_offset a) n) max_scroll in
  with_scroll offset (if (0 <? offset)%Z then false else a_scroll_pinned a) a.

Definition scroll_down (n : Z) (a : App) : App :=
  let offset := sat_sub16 (a_scroll_offset a) n in
  with_scroll offset (if (offset =? 0)%Z then true else a_scroll_pinned a) a.

Definition scroll_to_bottom (a : App) : App := with_scroll 0 true a.

Definition with_selected_tool (i : option nat) (offset : Z) (a : App) : App :=
  with_detail_panel (mkDetail (dp_visible (a_detail_panel a)) i offset) a.

Definition scroll_detail_panel (delta : Z) (a : App) : App :=
  let d := a_detail_panel a in
  with_selected_tool (dp_selected_tool_index d)
    (if (0 <? delta)%Z then sat_add16 (dp_scroll_offset d) delta else sat_sub16 (dp_scroll_offset d) (Z.abs delta)) a.

Definition toggle_detail_panel (a : App) : App :=
  let d := a_detail_panel a in
  let visible := negb (dp_visible d) in
  with_detail_panel
    (mkDetail visible
       (if visible && bool_decide (dp_selected_tool_index d = None) && negb (bool_decide (length (a_tool_calls a) = 0))
        then Some (length (a_tool_calls a) - 1) else dp_selected_tool_index d)
       (dp_scroll_offset d)) a.

Definition select_next_tool (a : App) : App :=
  let len := length (a_tool_calls a) in
  if decide (len = 0) then a
  else with_selected_tool
         (Some match dp_selected_tool_index (a_detail_panel a) with None => 0 | Some i => (i + 1) mod len end) 0 a.

Definition select_prev_tool (a : App) : App :=
  let len := length (a_tool_calls a) in
  if decide (len = 0) then a
  else with_selected_tool
         (Some match dp_selected_tool_index (a_detail_panel a) with
               | None => len - 1
               | Some i => if decide (i = 0) then len - 1 else i - 1
               end) 0 a.

(** * Messages *)

Definition push_message (m : DisplayMessage) (a : App) : App := with_messages (a_messages a ++ [m]) a.

Definition add_user_message (content : string) (a : App) : App :=
  push_message (mkMessage RoleUser content false false None) a.

Definition start_assistant_message (a : App) : App :=
  push_message (mkMessage RoleAssistant EmptyString true false None) a.

(** A change of the last element. *)
Definition alter_last {A : Type} (f : A → A) (l : list A) : list A :=
  match list.last l with None => l | Some _ => alter f (length l - 1) l end.

Definition on_last_message (f : DisplayMessage → DisplayMessage) (a : App) : App :=
  with_messages (alter_last f (a_messages a)) a.

Definition set_streaming (streaming : bool) (m : DisplayMessage) : DisplayMessage :=
  mkMessage (dm_role m) (dm_content m) streaming (dm_is_tool_result m) (dm_agent_label m).
Definition set_label (label : option string) (m : DisplayMessage) : DisplayMessage :=
  mkMessage (dm_role m) (dm_content m) (dm_streaming m) (dm_is_tool_result m) label.
Definition set_tool_result (label : option string) (m : DisplayMessage) : DisplayMessage :=
  mkMessage (dm_role m) (dm_content m) (dm_streaming m) true label.
Definition push_str (text : string) (m : DisplayMessage) : DisplayMessage :=
  mkMessage (dm_role m) (dm_content m +:+ text) (dm_streaming m) (dm_is_tool_result m) (dm_agent_label m).

Definition append_text (text : string) (a : App) : App :=
  on_last_message (λ m, if dm_streaming m then push_str text m else m) a.

Definition finish_streaming (a : App) : App := on_last_message (set_streaming false) a.

Definition add_system_message (role : MessageRole) (content : string) (a : App) : App :=
  push_message (mkMessage role content false false None) a.

(** * Commands with effects in the client *)

Definition apply_compaction (a : App) : App :=
  let summary := default "Context compacted."
    (dm_content <$> head (filter (λ m, dm_role m = RoleAssistant) (reverse (a_messages a)))) in
  scroll_to_bottom
    (with_compaction_summary (Some summary)
       (with_messages [mkMessage RoleCompactionDivider "[context compacted]" false false None] (with_tool_calls [] a))).

Definition execute_pending_client_command (a : App) : App :=
  match a_pending_client_command a with
  | None => a
  | Some cmd =>
      let a' := with_pending_client_command None a in
      match cmd with
      | CmdCompact => apply_compaction a'
      | CmdClear => with_tool_calls [] (with_messages [] a')
      | CmdModelSwitch model => with_model model a'
      end
  end.

(** * Events *)

Definition agent_label (e : AgentEvent EventBody) : option string :=
  if decide (eb_parent_tool_use_id (ev_payload e) = EmptyString) then None else Some "subagent".

Definition tool_line (tool_name description : string) : string :=
  if decide (description = EmptyString) then "[Tool: " +:+ tool_name +:+ "]"
  else "[Tool: " +:+ tool_name +:+ " - " +:+ description +:+ "]".

(** The first 200 bytes of an output; [None] is a panic. *)
Definition output_preview (output : string) : option string :=
  if decide (200 < String.length output) then (λ p, p +:+ "...") <$> slice_to 200 output else Some output.

(** A tool call begins. *)
Definition tool_started (id name description : string) (label : option string) (a : App) : App :=
  let a1 := on_last_message (set_label label) (add_system_message RoleTool (tool_line name description) a) in
  with_tool_calls
    (a_tool_calls a1 ++ [mkToolCall id name description None ToolRunning None None (length (a_messages a1) - 1)]) a1.

(** The last entry with an id. *)
Definition alter_last_entry (id : string) (f : ToolCallEntry → ToolCallEntry) (l : list ToolCallEntry) : list ToolCallEntry :=
  let fix go l :=
    match l with
    | [] => []
    | e :: rest => if decide (tc_tool_id e = id) then f e :: rest else e :: go rest
    end in
  reverse (go (reverse l)).

Definition entry_finished (output : string) (is_error : bool) (duration : Z) (at_ : option Z) (e : ToolCallEntry) : ToolCallEntry :=
  mkToolCall (tc_tool_id e) (tc_tool_name e) (tc_description e) (Some output) (if is_error then ToolError else ToolDone)
    (Some duration) at_ (tc_message_index e).

(** A tool's result is there; [at_] is when, if that is known. *)
Definition tool_finished (id output : string) (is_error : bool) (duration : Z) (at_ : option Z) (label : option string) (a : App)
  : option App :=
  preview ← output_preview output;
  let line := "[Tool Result (" +:+ (if is_error then "ERROR" else "OK") +:+ "): " +:+ preview +:+ "]" in
  let a1 := on_last_message (set_tool_result label) (add_system_message RoleTool line a) in
  Some (with_tool_calls (alter_last_entry id (entry_finished output is_error duration at_) (a_tool_calls a1)) a1).

Definition error_line (err : ErrorEvent) : string := "[Error: " +:+ err_code err +:+ " - " +:+ err_message err +:+ "]".

(** A number that is not finite has no JSON form. *)
Fixpoint value_to_json (v : ProstValue) : Json :=
  match v with
  | PNull => JNull
  | PNumber n => match n with S754_infinity _ | S754_nan => JNull | _ => JFloat n end
  | PString s => JStr s
  | PBool b => JBool b
  | PStruct fields => JObj (List.map (λ kv, match kv with (k, v) => (k, value_to_json v) end) fields)
  | PList l => JArr (List.map value_to_json l)
  end.
Definition struct_to_json (fields : list (string * ProstValue)) : Json := value_to_json (PStruct fields).

Definition handle_event (now : Z) (e : AgentEvent EventBody) (a : App) : option App :=
  let label := agent_label e in
  match eb_event (ev_payload e) with
  | Some (EvTextDelta text is_complete) =>
      if decide (text = EmptyString ∧ is_complete = false) then Some a
      else
        let a1 :=
          if decide (text = EmptyString) then a
          else
            let opened := match list.last (a_messages a) with Some m => dm_streaming m | None => false end in
            let a0 := if opened then a else on_last_message (set_label label) (start_assistant_message a) in
            append_text text a0 in
        Some (if is_complete : bool then finish_streaming a1 else a1)
  | Some (EvToolCallStart id name _ description) => Some (tool_started id name description label (finish_streaming a))
  | Some (EvToolCallResult id output is_error duration) => tool_finished id output is_error duration (Some now) label a
  | Some (EvPermissionRequest id name description input) =>
      Some (with_permission ModePermissionPrompt
              (Some (mkPending id name description (struct_to_json <$> input) EmptyString 0 true)) a)
  | Some (EvUserQuestion id question options multi_select) =>
      Some (with_question ModeUserQuestion
              (Some (mkQuestion id question ((λ o, mkOptionDisplay (qo_label o) (qo_description o)) <$> options) multi_select 0 [])) a)
  | Some (EvSessionInfo info) =>
      Some (with_status ("Session: " +:+ info_session_id info +:+ " | Model: " +:+ info_model info)
              (with_model (info_model info) (with_session_id (Some (info_session_id info)) a)))
  | Some (EvStatusChange st message) =>
      let a1 := if decide (message = EmptyString) then a else with_status message a in
      Some (with_agent_busy (match st with StatusThinking => true | StatusIdle => false end) a1)
  | Some (EvUsage u) => Some (with_token_usage (Some (mkTokens (ur_input_tokens u) (ur_output_tokens u) (ur_cost_usd u))) a)
  | Some (EvTurnComplete _) => Some (execute_pending_client_command (with_agent_busy false (finish_streaming a)))
  | Some (EvError err) =>
      let a1 := on_last_message (set_label label) (add_system_message RoleSystem (error_line err) a) in
      Some (if err_is_fatal err then with_status ("Fatal error: " +:+ err_message err) a1 else a1)
  | _ => Some a
  end.

(** A stored event, when a session is resumed. *)
Definition load_history_event (e : AgentEvent EventBody) (a : App) : option App :=
  let label := agent_label e in
  match eb_event (ev_payload e) with
  | Some (EvTextDelta text is_complete) =>
      if decide (text = EmptyString) then Some a
      else
        let should_create := match list.last (a_messages a) with
                             | Some m => negb (bool_decide (dm_role m = RoleAssistant)) || negb (dm_streaming m)
                             | None => true
                             end in
        let a1 := if should_create then push_message (mkMessage RoleAssistant text true false label) a
                  else on_last_message (push_str text) a in
        Some (if is_complete : bool then finish_streaming a1 else a1)
  | Some (EvToolCallStart id name _ description) => Some (tool_started id name description label (finish_streaming a))
  | Some (EvToolCallResult id output is_error duration) => tool_finished id output is_error duration None label a
  | Some (EvSessionInfo info) => Some (with_model (info_model info) (with_session_id (Some (info_session_id info)) a))
  | Some (EvError err) => Some (on_last_message (set_label label) (add_system_message RoleSystem (error_line err) a))
  | Some (EvUserInput content) => Some (add_user_message content a)
  | Some (EvTurnComplete _) => Some (finish_streaming a)
  | _ => Some a
  end.

Definition finish_history_load (a : App) : App := with_messages (set_streaming false <$> a_messages a) a.

(** * The input line *)

Definition submit_input (a : App) : App * option string :=
  if decide (a_input a = EmptyString) then (a, None)
  else
    let text := a_input a in
    (add_user_message text (with_history (take 100 (text :: a_input_history a)) None (with_input EmptyString 0 a)), Some text).

(** The line becomes an entry of the history; [None] is a panic. *)
Definition recall (idx : nat) (a : App) : option App :=
  line ← a_input_history a !! idx;
  Some (with_input line (String.length line) (with_history (a_input_history a) (Some idx) a)).

Definition history_up (a : App) : option App :=
  if decide (a_input_history a = []) then Some a
  else recall (match a_history_index a with
               | None => 0
               | Some i => Nat.min (i + 1) (length (a_input_history a) - 1)
               end) a.

Definition history_down (a : App) : option App :=
  match a_history_index a with
  | None => Some a
  | Some 0 => Some (with_input EmptyString 0 (with_history (a_input_history a) None a))
  | Some (S i) => recall i a
  end.

(** * Dialogs *)

(** [serde_json::to_string_pretty] *)
Class JsonPretty := {
  json_pretty : Json → string;
  json_pretty_text v : is_text (json_pretty v) = true
}.

Definition set_edit (buffer : string) (cursor : nat) (p : PendingPermission) : PendingPermission :=
  mkPending (pm_request_id p) (pm_tool_name p) (pm_description p) (pm_original_input p) buffer cursor (pm_deny_interrupt p).

Definition set_deny (interrupt : bool) (p : PendingPermission) : PendingPermission :=
  mkPending (pm_request_id p) (pm_tool_name p) (pm_description p) (pm_original_input p) (pm_edit_buffer p) (pm_edit_cursor p)
    interrupt.

Definition start_permission_edit {JP : JsonPretty} (a : App) : App :=
  with_permission ModePermissionEditInput
    ((λ p, let buffer := default EmptyString (json_pretty <$> pm_original_input p) in
           set_edit buffer (String.length buffer) p) <$> a_pending_permission a) a.

Definition start_permission_text (m : AppMode) (interrupt : bool) (a : App) : App :=
  with_permission m ((λ p, set_deny interrupt (set_edit EmptyString 0 p)) <$> a_pending_permission a) a.

Definition set_choice (highlight : nat) (selected : list nat) (q : PendingUserQuestion) : PendingUserQuestion :=
  mkQuestion (pq_question_id q) (pq_question q) (pq_options q) (pq_multi_select q) highlight selected.

Definition move_question_highlight (delta : Z) (a : App) : App :=
  match a_pending_question a with
  | None => a
  | Some q =>
      if decide (pq_options q = []) then a
      else
        let mx := Z.of_nat (length (pq_options q) - 1) in
        let h := Z.to_nat (Z.max 0 (Z.min (Z.of_nat (pq_highlight q) + delta) mx)) in
        with_question (a_mode a) (Some (set_choice h (pq_selected q) q)) a
  end.

(** The list without its first element equal to [x]. *)
Fixpoint remove_first (x : nat) (l : list nat) : list nat :=
  match l with [] => [] | y :: l' => if decide (y = x) then l' else y :: remove_first x l' end.

Definition select_question_option (index : nat) (a : App) : App :=
  match a_pending_question a with
  | None => a
  | Some q =>
      if decide (length (pq_options q) ≤ index) then a
      else
        let selected :=
          if pq_multi_select q then
            if decide (index ∈ pq_selected q) then remove_first index (pq_selected q) else pq_selected q ++ [index]
          else [index] in
        with_question (a_mode a) (Some (set_choice index selected q)) a
  end.

End App.
