(* ===== verification/TuiInput.v ===== *)
(** What the terminal client does on a key.

    Models crates/betcode-cli/src/tui/: input.rs, permission_input.rs and
    question_input.rs.  A step that panics is [None].  [t_sent] is what was put into the channel of
    requests to the daemon, in order; waiting for room in it only delays.  A
    key's character is its UTF-8 encoding. *)
From stdpp Require Import strings list pretty.
From Stdlib Require Import ZArith SpecFloat Lia.
From S2P Require Import Prelude Protocol Utf8 Completion Json Ndjson Multiplexer Commands EventBridge Fingerprint SessionRelay AgentService.
From S2P Require Import AppState.

(** * Keys *)

Inductive KeyCode :=
| KChar (c : string)
| KTab | KEsc | KEnter | KBackspace
| KUp | KDown | KLeft | KRight
| KPageUp | KPageDown | KEnd
| KOther.

Record KeyEvent := mkKey { ke_code : KeyCode; ke_ctrl : bool; ke_shift : bool }.

Inductive MouseKind := MouseScrollUp | MouseScrollDown | MouseOther.

Inductive TermEvent :=
| TermKey (key : KeyEvent)
| TermMouse (kind : MouseKind)
| TermResize.

(** The client with the requests it has sent. *)
Record Tui := mkTui { t_app : App; t_sent : list Request }.

Definition in_app (f : App → App) (t : Tui) : Tui := mkTui (f (t_app t)) (t_sent t).
Definition in_app_opt (f : App → option App) (t : Tui) : option Tui := (λ a, mkTui a (t_sent t)) <$> f (t_app t).
Definition send_request (r : Request) (t : Tui) : Tui := mkTui (t_app t) (t_sent t ++ [r]).

Section Input.
Context {UA : UnicodeAlphanumeric} {FS : FuzzyScore} {JT : JsonText} {JP : JsonPretty}.

(** * Completion keys *)

Inductive CompletionAction :=
| ActionNone
| ActionAccept (text : string)
| ActionUpdated.

Definition set_popup (visible : bool) (a : App) : App :=
  let c := a_completion_state a in
  with_completion_state (mkCompletion visible (items c) (selected_index c) (popup_offset c) (ghost_text c)) a.

Definition select_item (index : nat) (a : App) : App :=
  let c := a_completion_state a in
  let c1 := adjust_scroll (mkCompletion (popup_visible c) (items c) index (popup_offset c) (ghost_text c)) in
  with_completion_state (mkCompletion (popup_visible c1) (items c1) index (popup_offset c1) (items c1 !! index)) a.

Definition handle_completion_key (code : KeyCode) (a : App) : App * CompletionAction :=
  let c := a_completion_state a in
  match code, popup_visible c with
  | KTab, visible => (set_popup (negb visible) a, ActionUpdated)
  | KEsc, true => (set_popup false a, ActionUpdated)
  | KUp, true =>
      (if decide (items c = []) then a
       else select_item (if decide (selected_index c = 0) then length (items c) - 1 else selected_index c - 1) a,
       ActionUpdated)
  | KDown, true =>
      (if decide (items c = []) then a else select_item ((selected_index c + 1) mod length (items c)) a, ActionUpdated)
  | KEnter, true =>
      let text := default EmptyString (items c !! selected_index c) in
      (set_popup false a, if decide (text = EmptyString) then ActionNone else ActionAccept text)
  | _, _ => (a, ActionNone)
  end.

(** The last character boundary at or before an offset. *)
Fixpoint floor_boundary (pos : nat) (s : string) : nat :=
  match pos with
  | 0 => 0
  | S p => if is_char_boundary pos s then pos else floor_boundary p s
  end.

Definition replace_token (replacement : string) (a : App) : option App :=
  let s := a_input a in
  let pos := floor_boundary (Nat.min (a_cursor_pos a) (String.length s)) s in
  let start := token_start (str_take pos s) in
  let stop := match find is_whitespace (str_drop pos s) with None => String.length s | Some i => pos + i end in
  s' ← replace_range start stop replacement s;
  Some (with_input s' (start + String.length replacement) a).

Definition accept_completion (text : string) (a : App) : option App :=
  trigger ← detect_trigger (a_input a) (a_cursor_pos a);
  a' ← replace_token (match trigger with
                      | Some (TrigCommand _) => "/" +:+ text +:+ " "
                      | Some (TrigAgent _ true) => "@@" +:+ text +:+ " "
                      | Some (TrigAgent _ false) | Some (TrigFile _) => "@" +:+ text +:+ " "
                      | Some (TrigBash _) | None => text +:+ " "
                      end) a;
  update_completion_state a'.

(** * The list of commands *)

Definition newline : string := String (byte 10) EmptyString.

Fixpoint spaces (n : nat) : string := match n with 0 => EmptyString | S n' => " " +:+ spaces n' end.

(** [{:<20}] *)
Definition pad20 (s : string) : string := s +:+ spaces (20 - length (chars s)).

Definition help_section (title : string) (entries : list string) : list string :=
  if decide (entries = []) then [] else [EmptyString; title] ++ entries.

Definition help_text (cache : CommandCache) : string :=
  let entry c := "  /" +:+ pad20 (cc_name c) +:+ " " +:+ cc_description c in
  let entries (p : CachedCommandCategory → bool) := entry <$> filter (λ c, p (cc_category c) = true) cache in
  join newline
    (["BetCode CLI - Available Commands"; EmptyString; "Built-in:";
      "  /exit                 Exit the CLI";
      "  /help                 Show this help message";
      "  /clear                Clear conversation and reset context"] ++
     help_section "Service:" (entries (λ k, bool_decide (k = CachedService))) ++
     help_section "Claude Code:" (entries (λ k, bool_decide (k = CachedClaudeCode))) ++
     help_section "MCP Tools:" (entries (λ k, bool_decide (k = CachedMcp))) ++
     help_section "Skills:" (entries (λ k, bool_decide (k = CachedSkill))) ++
     help_section "Plugins:" (entries (λ k, bool_decide (k = CachedPlugin ∨ k = CachedUnknown))) ++
     [EmptyString; "Keyboard shortcuts:";
      "  Ctrl+C               Quit";
      "  Ctrl+T               Toggle status panel";
      "  Ctrl+D               Toggle detail panel";
      "  Ctrl+Up/Down         Navigate tool calls (detail panel)";
      "  Tab                  Toggle completion popup";
      "  Shift+Up/Down        Scroll detail panel / messages";
      "  PageUp/PageDown      Scroll detail panel (10 lines) / messages (page)"]).

Definition show_help (a : App) : App :=
  scroll_to_bottom (add_system_message RoleSystem (help_text (a_command_cache a)) a).

(** * The input line *)

Definition is_service_command (command : string) (a : App) : bool :=
  match find_by_name command (a_command_cache a) with
  | Some c => bool_decide (cc_category c = CachedService)
  | None => false
  end.

Definition client_command (command : string) (args : list string) : option ClientCommand :=
  if decide (command = "compact") then Some CmdCompact
  else if decide (command = "clear") then Some CmdClear
  else if decide (command = "model") then CmdModelSwitch <$> head args
  else None.

(** A slash command, without its slash. *)
Definition run_command (trimmed cmd_body : string) (t : Tui) : Tui :=
  let '(command, rest) := split_once_ws (chars cmd_body) EmptyString in
  let args := default [] (split_whitespace <$> rest) in
  if decide (command = "exit") then in_app (with_should_quit true) t
  else if decide (command = "help") then in_app show_help t
  else if is_service_command command (t_app t) then
    in_app (λ a, with_service_command_tx
                   (try_send (mkExec command args (default EmptyString (a_session_id a))) (a_service_command_tx a)) a) t
  else
    in_app (with_agent_busy true)
      (send_request (ReqMessage trimmed EmptyString)
         (in_app (with_pending_client_command (client_command command args)) t)).

Definition submit_line (t : Tui) : Tui :=
  match submit_input (t_app t) with
  | (_, None) => t
  | (a, Some text) =>
      let t1 := mkTui a (t_sent t) in
      let trimmed := trim text in
      in_app scroll_to_bottom
        (if decide (trimmed = "?") then in_app show_help t1
         else match strip_prefix "/" trimmed with
              | Some cmd_body => run_command trimmed cmd_body t1
              | None => in_app (with_agent_busy true) (send_request (ReqMessage text EmptyString) t1)
              end)
  end.

(** A character at the cursor, which then moves by one byte. *)
Definition type_char (c : string) (a : App) : option App :=
  s ← str_insert (a_cursor_pos a) c (a_input a);
  update_completion_state (with_input s (a_cursor_pos a + 1) a).

Definition backspace (a : App) : option App :=
  match a_cursor_pos a with
  | 0 => update_completion_state a
  | S p => s ← str_remove p (a_input a); update_completion_state (with_input s p a)
  end.

Definition page (a : App) : Z := Z.max (a_viewport_height a) 1.

Definition edit_key (key : KeyEvent) (t : Tui) : option Tui :=
  let a := t_app t in
  let detail := dp_visible (a_detail_panel a) in
  let ctrl := ke_ctrl key in let shift := ke_shift key in
  match ke_code key with
  | KEnter => Some (submit_line t)
  | KChar c => in_app_opt (type_char c) t
  | KBackspace => in_app_opt backspace t
  | KLeft => Some (in_app (λ a, with_input (a_input a) (a_cursor_pos a - 1) a) t)
  | KRight => Some (in_app (λ a, with_input (a_input a) (Nat.min (a_cursor_pos a + 1) (String.length (a_input a))) a) t)
  | KUp =>
      if ctrl && detail then Some (in_app select_prev_tool t)
      else if shift && detail then Some (in_app (scroll_detail_panel (-1)) t)
      else if shift then Some (in_app (scroll_up 1) t)
      else in_app_opt history_up t
  | KDown =>
      if ctrl && detail then Some (in_app select_next_tool t)
      else if shift && detail then Some (in_app (scroll_detail_panel 1) t)
      else if shift then Some (in_app (scroll_down 1) t)
      else in_app_opt history_down t
  | KPageUp => Some (in_app (if detail then scroll_detail_panel (-10) else scroll_up (page a)) t)
  | KPageDown => Some (in_app (if detail then scroll_detail_panel 10 else scroll_down (page a)) t)
  | KEnd => Some (if shift then in_app scroll_to_bottom t else t)
  | _ => Some t
  end.

Definition handle_input_key (key : KeyEvent) (t : Tui) : option Tui :=
  match handle_completion_key (ke_code key) (t_app t) with
  | (a, ActionAccept text) => in_app_opt (accept_completion text) (mkTui a (t_sent t))
  | (a, ActionUpdated) => Some (mkTui a (t_sent t))
  | (a, ActionNone) => edit_key key (mkTui a (t_sent t))
  end.

(** * Permission dialogs *)

Definition send_permission (decision : PermissionDecision) (updated_input : option (list (string * ProstValue)))
    (message : string) (t : Tui) : Tui :=
  let t1 := match a_pending_permission (t_app t) with
            | Some p => send_request (ReqPermission (pm_request_id p) (Some decision) updated_input message) t
            | None => t
            end in
  in_app (with_permission ModeNormal None) t1.

Definition is_one_of (c : string) (l : list string) : bool := bool_decide (c ∈ l).

Definition handle_permission_key (code : KeyCode) (t : Tui) : Tui :=
  match code with
  | KTab => in_app start_permission_edit t
  | KEsc => send_permission Deny None EmptyString t
  | KChar c =>
      if is_one_of c ["y"; "Y"; "1"] then send_permission AllowOnce None EmptyString t
      else if is_one_of c ["a"; "A"; "2"] then send_permission AllowSession None EmptyString t
      else if is_one_of c ["3"] then in_app start_permission_edit t
      else if is_one_of c ["e"; "E"; "4"] then in_app (start_permission_text ModePermissionComment false) t
      else if is_one_of c ["n"; "N"; "5"] then in_app (start_permission_text ModePermissionDenyMessage false) t
      else if is_one_of c ["x"; "X"; "6"] then in_app (start_permission_text ModePermissionDenyMessage true) t
      else t
  | _ => t
  end.

(** The conversion of a JSON value to the protocol's structures. *)
Fixpoint json_to_value (v : Json) : ProstValue :=
  match v with
  | JNull => PNull
  | JBool b => PBool b
  | JInt z => PNumber (f64_of_Z z)
  | JFloat f => PNumber f
  | JStr s => PString s
  | JArr l => PList (List.map json_to_value l)
  | JObj entries => PStruct (List.map (λ kv, match kv with (k, v) => (k, json_to_value v) end) entries)
  end.
Definition cli_json_to_struct (v : Json) : list (string * ProstValue) :=
  match json_to_value v with PStruct fields => fields | _ => [] end.

Definition submit_permission_edit (t : Tui) : Tui :=
  let a := t_app t in
  let buffer := default EmptyString (pm_edit_buffer <$> a_pending_permission a) in
  match a_mode a with
  | ModePermissionEditInput =>
      let updated := p ← a_pending_permission a; cli_json_to_struct <$> json_parse (pm_edit_buffer p) in
      send_permission AllowWithEdit updated EmptyString t
  | ModePermissionComment =>
      let t1 := send_permission AllowOnce None EmptyString t in
      if decide (buffer = EmptyString) then t1 else send_request (ReqMessage buffer EmptyString) t1
  | ModePermissionDenyMessage =>
      let interrupt := match a_pending_permission a with None => true | Some p => pm_deny_interrupt p end in
      send_permission (if interrupt then DenyWithInterrupt else DenyNoInterrupt) None buffer t
  | _ => t
  end.

(** The offset of the last character before an offset. *)
Definition prev_offset (cursor : nat) (s : string) : option nat :=
  before ← slice_to cursor s; Some (default 0 (fst <$> list.last (char_indices before))).

(** The offset of the character after the one at an offset. *)
Definition next_offset (cursor : nat) (s : string) : option nat :=
  after ← slice_from cursor s;
  Some match char_indices after !! 1 with None => String.length s | Some (i, _) => cursor + i end.

(** The dialog's own editor: the text and the cursor after a key. *)
Definition edit_buffer_key (code : KeyCode) (s : string) (cursor : nat) : option (string * nat) :=
  match code with
  | KChar c => s' ← str_insert cursor c s; Some (s', cursor + String.length c)
  | KBackspace =>
      if decide (cursor = 0) then Some (s, cursor)
      else prev ← prev_offset cursor s; s' ← str_remove prev s; Some (s', prev)
  | KLeft => if decide (cursor = 0) then Some (s, cursor) else prev ← prev_offset cursor s; Some (s, prev)
  | KRight => if decide (String.length s ≤ cursor) then Some (s, cursor) else next ← next_offset cursor s; Some (s, next)
  | _ => Some (s, cursor)
  end.

Definition handle_permission_edit_key (code : KeyCode) (t : Tui) : option Tui :=
  match code with
  | KEnter => Some (submit_permission_edit t)
  | KEsc => Some (in_app (λ a, with_permission ModePermissionPrompt (a_pending_permission a) a) t)
  | _ =>
      match a_pending_permission (t_app t) with
      | None => Some t
      | Some p =>
          edited ← edit_buffer_key code (pm_edit_buffer p) (pm_edit_cursor p);
          Some (in_app (with_permission (a_mode (t_app t)) (Some (set_edit edited.1 edited.2 p))) t)
      end
  end.

(** * Questions *)

Definition submit_question (t : Tui) : Tui :=
  match a_pending_question (t_app t) with
  | None => in_app (with_question ModeNormal None) t
  | Some q =>
      if decide (pq_selected q = []) then t
      else
        let labels := omap (λ i, od_label <$> pq_options q !! i) (pq_selected q) in
        in_app (with_question ModeNormal None)
          (send_request (ReqQuestionResponse (pq_question_id q) [(pq_question q, join ", " labels)]) t)
  end.

(** The digit of a key, from 1 to 9, counted from 0. *)
Definition digit_index (c : string) : option nat :=
  match c with
  | String b EmptyString =>
      let n := Ascii.nat_of_ascii b in if (49 <=? n) && (n <=? 57) then Some (n - 49) else None
  | _ => None
  end.

Definition handle_question_key (code : KeyCode) (t : Tui) : Tui :=
  match code with
  | KUp => in_app (move_question_highlight (-1)) t
  | KDown => in_app (move_question_highlight 1) t
  | KChar c =>
      if decide (c = " ") then
        match a_pending_question (t_app t) with
        | Some q => in_app (select_question_option (pq_highlight q)) t
        | None => t
        end
      else match digit_index c with Some i => in_app (select_question_option i) t | None => t end
  | KEnter => submit_question t
  | KEsc => in_app (with_question ModeNormal None) t
  | _ => t
  end.

(** * Fingerprints *)

Definition handle_fingerprint_key (code : KeyCode) (a : App) : App :=
  if match a_pending_fingerprint a with Some p => needs_action p | None => false end then
    let decide_with d p := mkPrompt (fp_machine_id p) (fp_daemon_fingerprint p) (fp_randomart p) (fp_fingerprint_display p)
                             (fp_check p) (Some d) in
    let reject := with_should_quit true
                    (with_fingerprint (a_mode a) (decide_with DecisionReject <$> a_pending_fingerprint a) a) in
    match code with
    | KChar c =>
        if is_one_of c ["y"; "Y"] then with_fingerprint ModeNormal None a
        else if is_one_of c ["n"; "N"] then reject else a
    | KEsc => reject
    | _ => a
    end
  else with_fingerprint ModeNormal None a.

(** * Events of the terminal *)

Definition is_ctrl (c : string) (key : KeyEvent) : bool :=
  ke_ctrl key && match ke_code key with KChar c' => bool_decide (c' = c) | _ => false end.

Definition handle_key (key : KeyEvent) (t : Tui) : option Tui :=
  let a := t_app t in
  if is_ctrl "t" key then Some (in_app (with_show_status_panel (negb (a_show_status_panel a))) t)
  else if is_ctrl "d" key then Some (in_app toggle_detail_panel t)
  else if is_ctrl "c" key then Some (in_app (with_should_quit true) t)
  else match a_mode a with
       | ModePermissionPrompt => Some (handle_permission_key (ke_code key) t)
       | ModePermissionEditInput | ModePermissionComment | ModePermissionDenyMessage =>
           handle_permission_edit_key (ke_code key) t
       | ModeUserQuestion => Some (handle_question_key (ke_code key) t)
       | ModeFingerprintVerification => Some (in_app (handle_fingerprint_key (ke_code key)) t)
       | ModeNormal | ModeSessionList => handle_input_key key t
       end.

Definition handle_term_event (event : TermEvent) (t : Tui) : option Tui :=
  let detail := dp_visible (a_detail_panel (t_app t)) in
  match event with
  | TermKey key => handle_key key t
  | TermMouse MouseScrollUp => Some (in_app (if detail then scroll_detail_panel (-3) else scroll_up 3) t)
  | TermMouse MouseScrollDown => Some (in_app (if detail then scroll_detail_panel 3 else scroll_down 3) t)
  | TermMouse MouseOther | TermResize => Some t
  end.

End Input.
