(* ===== verification/TuiRender.v ===== *)
(** What the terminal client draws.

    Models the computations of crates/betcode-cli/src/ui/ (render.rs,
    panels.rs, detail_panel.rs, status_panel.rs): which texts are shown, where the cursor goes,
    and where slicing a text can panic ([None]).  Styles, borders and the
    splitting of the screen are the terminal library's; the sizes of the areas
    are arguments, and the width of a character and the number of lines that
    a paragraph takes are the class [Terminal]. *)
From stdpp Require Import strings list pretty.
From Stdlib Require Import ZArith SpecFloat Lia.
From S2P Require Import Prelude Protocol Json Ndjson Commands Multiplexer EventBridge Fingerprint SessionRelay AgentService RelayProxy Utf8 Completion AppState.
From S2P Require Import TuiInput.

Class Terminal := {
  (** [UnicodeWidthStr::width] of a character. *)
  char_width : string → Z;
  (** [Paragraph::line_count], with wrapping at a width. *)
  line_count : list string → Z → Z;
  (** [{:.1}] and [{:.4}] *)
  fmt_f64 : nat → spec_float → string
}.

Definition wrap_u16 (z : Z) : Z := (z mod 2 ^ 16)%Z.

Section Render.
Context {TE : Terminal}.

(** * Word wrapping *)

(** A run of whitespace or of other characters: where it starts, its
    characters, its width. *)
Record WrapToken := mkWrapToken {
  tok_start : nat;
  tok_chars : list string;
  tok_width : Z;
  tok_is_ws : bool
}.

Definition tok_end (t : WrapToken) : nat := tok_start t + String.length (text_of (tok_chars t)).

Definition width16 (c : string) : Z := wrap_u16 (char_width c).
Definition add16 (x y : Z) : Z := wrap_u16 (x + y).
Definition width_of (cs : list string) : Z := foldl (λ w c, add16 w (width16 c)) 0%Z cs.

Fixpoint tokens_from (pos : nat) (cs : list string) (current : option WrapToken) : list WrapToken :=
  match cs with
  | [] => match current with Some t => [t] | None => [] end
  | c :: rest =>
      let ws := is_whitespace c in
      let fresh := mkWrapToken pos [c] (width16 c) ws in
      let pos' := pos + String.length c in
      match current with
      | None => tokens_from pos' rest (Some fresh)
      | Some t =>
          if decide (tok_is_ws t = ws) then
            tokens_from pos' rest (Some (mkWrapToken (tok_start t) (tok_chars t ++ [c]) (add16 (tok_width t) (width16 c)) ws))
          else t :: tokens_from pos' rest (Some fresh)
      end
  end.

(** The breaks inside a word that is longer than a line, and the width of its
    last part. *)
Fixpoint break_long_word (max_width : Z) (pos : nat) (cs : list string) (w : Z) : list nat * Z :=
  match cs with
  | [] => ([], w)
  | c :: rest =>
      let '(breaks, w') :=
        if (max_width <? add16 w (width16 c))%Z then break_long_word max_width (pos + String.length c) rest (width16 c)
        else break_long_word max_width (pos + String.length c) rest (add16 w (width16 c)) in
      (if (max_width <? add16 w (width16 c))%Z then pos :: breaks else breaks, w')
  end.

(** Where the line breaks before the word [word] that follows the whitespace
    [ws], and the width of the whitespace after the break. *)
Definition ws_break (ws word : WrapToken) : nat * Z :=
  if (tok_width ws <=? 1)%Z then (tok_start word, 0%Z)
  else match tok_chars ws with
       | c :: rest =>
           match rest with
           | [] => (tok_start word, 0%Z)
           | _ => (tok_start ws + String.length c, width_of rest)
           end
       | [] => (tok_start word, 0%Z)
       end.

Fixpoint wrap_tokens (max_width : Z) (tokens : list WrapToken) (line_width : Z) : list nat :=
  match tokens with
  | [] => []
  | t :: rest =>
      if tok_is_ws t then
        match rest with
        | word :: rest2 =>
            if tok_is_ws word then wrap_tokens max_width rest (add16 line_width (tok_width t))
            else
              let total := add16 (add16 line_width (tok_width t)) (tok_width word) in
              if (max_width <? total)%Z then
                if ((line_width =? 0) && (max_width <? add16 (tok_width t) (tok_width word)))%Z
                then wrap_tokens max_width rest (add16 line_width (tok_width t))
                else
                  let '(bp, remaining) := ws_break t word in
                  bp :: (if (max_width <? add16 remaining (tok_width word))%Z then wrap_tokens max_width rest remaining
                         else wrap_tokens max_width rest2 (add16 remaining (tok_width word)))
              else wrap_tokens max_width rest2 total
        | [] => []
        end
      else if (max_width <? add16 line_width (tok_width t))%Z then
        let here := if (0 <? line_width)%Z then [tok_start t] else [] in
        if (max_width <? tok_width t)%Z then
          let '(breaks, remaining) := break_long_word max_width (tok_start t) (tok_chars t) 0 in
          here ++ breaks ++ wrap_tokens max_width rest remaining
        else here ++ wrap_tokens max_width rest (tok_width t)
      else wrap_tokens max_width rest (add16 line_width (tok_width t))
  end.

Definition compute_word_wrap_breaks (text : string) (max_width : Z) : list nat :=
  wrap_tokens max_width (tokens_from 0 (chars text) None) 0.

(** The row of the cursor: the breaks up to it. *)
Fixpoint cursor_row (breaks : list nat) (cursor_pos : nat) : nat :=
  match breaks with
  | [] => 0
  | lb :: rest => if decide (lb ≤ cursor_pos) then S (cursor_row rest cursor_pos) else 0
  end.

(** The characters of a line before the cursor. *)
Fixpoint before_cursor (pos cursor_pos : nat) (cs : list string) : list string :=
  match cs with
  | [] => []
  | c :: rest => if decide (cursor_pos ≤ pos) then [] else c :: before_cursor (pos + String.length c) cursor_pos rest
  end.

(** [None] is a panic of the slice. *)
Definition compute_wrapped_cursor (text : string) (cursor_pos : nat) (max_width : Z) : option (Z * Z) :=
  if decide (max_width = 0%Z) then Some (0, 0)%Z
  else
    let breaks := compute_word_wrap_breaks text (wrap_u16 max_width) in
    let row := wrap_u16 (Z.of_nat (cursor_row breaks cursor_pos)) in
    line_start ← (if decide (row = 0%Z) then Some 0 else breaks !! (Z.to_nat row - 1));
    line ← slice_from line_start text;
    Some (row, width_of (before_cursor line_start cursor_pos (chars line))).

(** * Texts *)

Definition SPINNER_CHARS : list string :=
  (λ n, String (byte 226) (String (byte 160) (String (byte n) EmptyString))) <$>
    [139; 153; 185; 184; 188; 180; 166; 167; 135; 143].
Definition spinner (tick : Z) : string := nth (Z.to_nat (tick mod 10)) SPINNER_CHARS EmptyString.

Definition check_mark : string := String (byte 226) (String (byte 156) (String (byte 147) EmptyString)).
Definition cross_mark : string := String (byte 226) (String (byte 156) (String (byte 151) EmptyString)).
Definition bullet : string := String (byte 226) (String (byte 128) (String (byte 162) EmptyString)).
Definition block_cursor : string := String (byte 226) (String (byte 150) (String (byte 136) EmptyString)).

Definition format_duration_ms (ms : option Z) : string :=
  match ms with
  | None => EmptyString
  | Some ms => if (1000 <=? ms)%Z then fmt_f64 1 (SFdiv 53 1024 (f64_of_Z ms) (f64_of_Z 1000)) +:+ "s" else pretty ms +:+ "ms"
  end.

Definition format_tool_status_line (e : ToolCallEntry) (tick : Z) : string :=
  match tc_status e with
  | ToolRunning =>
      spinner tick +:+ " " +:+ tc_tool_name e +:+
        (if decide (tc_description e = EmptyString) then EmptyString else " " +:+ tc_description e)
  | ToolDone => check_mark +:+ " " +:+ tc_tool_name e +:+ " " +:+ format_duration_ms (tc_duration_ms e)
  | ToolError => cross_mark +:+ " " +:+ tc_tool_name e +:+ " " +:+ format_duration_ms (tc_duration_ms e)
  end.

(** Detail panel. *)
Definition panel_title (e : ToolCallEntry) : string :=
  if decide (tc_description e = EmptyString) then tc_tool_name e
  else tc_tool_name e +:+ " (" +:+ tc_description e +:+ ")".

Definition format_status_line (st : ToolCallStatus) (duration_ms : option Z) : string :=
  match st with
  | ToolRunning => bullet +:+ " Running..."
  | ToolDone => check_mark +:+ " Done (" +:+ format_duration_ms duration_ms +:+ ")"
  | ToolError => cross_mark +:+ " Error (" +:+ format_duration_ms duration_ms +:+ ")"
  end.

(** The tool call that the detail panel shows. *)
Definition selected_entry (a : App) : option ToolCallEntry :=
  i ← dp_selected_tool_index (a_detail_panel a); a_tool_calls a !! i.

(** The messages on the screen, with their places in the list. *)
Definition filter_visible_messages (messages : list DisplayMessage) (detail_panel_visible : bool) : list (nat * DisplayMessage) :=
  filter (λ im, negb (detail_panel_visible && dm_is_tool_result im.2) = true) (imap pair messages).

Definition tool_entry_at (i : nat) (a : App) : option ToolCallEntry :=
  head (filter (λ e, tc_message_index e = i) (a_tool_calls a)).

Definition role_prefix (r : MessageRole) : string :=
  match r with
  | RoleUser => "You: "
  | RoleAssistant => "Claude: "
  | RoleSystem => "System: "
  | RoleTool | RoleCompactionDivider => EmptyString
  end.

Fixpoint repeat_string (n : nat) (s : string) : string :=
  match n with 0 => EmptyString | S n' => s +:+ repeat_string n' s end.

Definition divider_line (label : string) (inner_w : nat) : string :=
  let dash := String (byte 226) (String (byte 148) (String (byte 132) EmptyString)) in
  let side := Nat.max ((inner_w - (String.length label + 2)) / 2) 1 in
  repeat_string side dash +:+ " " +:+ label +:+ " " +:+ repeat_string side dash.

(** The lines of a message's content; the first has the prefix, the others
    are indented, and the block cursor ends the last while it is streaming. *)
Fixpoint content_lines (indent : string) (streaming : bool) (lines : list string) : list string :=
  match lines with
  | [] => []
  | [l] => [indent +:+ l +:+ (if streaming then block_cursor else EmptyString)]
  | l :: rest => (indent +:+ l) :: content_lines indent streaming rest
  end.

Fixpoint blanks (n : nat) : string := match n with 0 => EmptyString | S n' => " " +:+ blanks n' end.

Definition plain_lines (m : DisplayMessage) : list string :=
  let label := match dm_agent_label m with Some l => "[" +:+ l +:+ "] " | None => EmptyString end in
  let prefix := role_prefix (dm_role m) in
  match split_on (byte 10) (dm_content m) with
  | [] => []
  | first :: rest =>
      match content_lines EmptyString (dm_streaming m) (first :: rest) with
      | l :: _ => (label +:+ prefix +:+ l) :: content_lines (blanks (String.length prefix)) (dm_streaming m) rest
      | [] => []
      end
  end.

Definition message_lines (width : Z) (a : App) (i : nat) (m : DisplayMessage) : list string :=
  match dm_role m, tool_entry_at i a with
  | RoleCompactionDivider, _ => [divider_line (dm_content m) (Z.to_nat (sat_sub16 width 4))]
  | RoleTool, Some e => [format_tool_status_line e (a_spinner_tick a)]
  | _, _ => plain_lines m
  end.

(** An empty line between messages. *)
Fixpoint separated (blocks : list (list string)) : list string :=
  match blocks with
  | [] => []
  | [b] => b
  | b :: rest => b ++ [EmptyString] ++ separated rest
  end.

Definition conversation_lines (width : Z) (a : App) : list string :=
  separated ((λ im, message_lines width a im.1 im.2) <$> filter_visible_messages (a_messages a) (dp_visible (a_detail_panel a))).

(** How far the conversation is scrolled from its top, and its title. *)
Definition conversation_scroll (total height : Z) (a : App) : Z :=
  let max_scroll := sat_sub16 total height in
  if a_scroll_pinned a then max_scroll else sat_sub16 max_scroll (a_scroll_offset a).

Definition conversation_title (total height : Z) (a : App) : string :=
  let max_scroll := sat_sub16 total height in
  if a_scroll_pinned a then "Conversation"
  else "Conversation [scroll: " +:+ pretty (Z.min (sat_sub16 max_scroll (conversation_scroll total height a)) max_scroll) +:+ "/" +:+
         pretty max_scroll +:+ "]".

Definition header_text (a : App) : option string :=
  let model_info := if decide (a_model a = EmptyString) then "BetCode" else "BetCode | " +:+ a_model a in
  session_info ← match a_session_id a with
                 | None => Some EmptyString
                 | Some s => (λ s8, " | Session: " +:+ s8) <$> slice_to (Nat.min 8 (String.length s)) s
                 end;
  Some (model_info +:+ session_info +:+ (if a_agent_busy a then " [thinking...]" else EmptyString)).

(** * Panels *)

(** The input of the tool that asks, cut at 57 bytes; [None] is a panic. *)
Definition permission_preview {JW : JsonWrite} (input : Json) : option string :=
  let preview := json_to_string input in
  if decide (60 < String.length preview) then (λ p, p +:+ "...") <$> slice_to 57 preview else Some preview.

Definition permission_lines {JW : JsonWrite} (p : PendingPermission) : option (list string) :=
  shown ← match pm_original_input p with
          | None => Some []
          | Some v => (λ s, [s; EmptyString]) <$> permission_preview v
          end;
  Some (["Tool: " +:+ pm_tool_name p; pm_description p; EmptyString] ++ shown ++
        ["[Y/1] Allow  [A/2] Session  [Tab/3] Edit  [E/4] Comment"; "[N/5] Deny  [X/6] Deny+Stop  [Esc] Cancel"]).

Definition edit_panel_title (m : AppMode) (p : PendingPermission) : string :=
  match m with
  | ModePermissionEditInput => "Edit Tool Input (Enter=submit, Esc=back)"
  | ModePermissionComment => "Comment (Enter=allow+send, Esc=back)"
  | ModePermissionDenyMessage =>
      if pm_deny_interrupt p then "Deny Message (Enter=deny+interrupt, Esc=back)" else "Deny Message (Enter=deny, Esc=back)"
  | _ => "Edit"
  end.

Definition option_line (q : PendingUserQuestion) (i : nat) (o : QuestionOptionDisplay) : string :=
  (if decide (i ∈ pq_selected q) then "[x]" else "[ ]") +:+ " " +:+ pretty (i + 1) +:+ ". " +:+ od_label o +:+
    (if decide (od_description o = EmptyString) then EmptyString else " - " +:+ od_description o).

Definition question_lines (q : PendingUserQuestion) : list string :=
  [pq_question q; EmptyString] ++ imap (option_line q) (pq_options q) ++
  [EmptyString;
   (if pq_multi_select q then "Space=toggle, " else EmptyString) +:+ "Up/Down=navigate, 1-" +:+
     pretty (Nat.min (length (pq_options q)) 9) +:+ "=select, Enter=submit, Esc=cancel"].

Definition fingerprint_header (p : FingerprintPrompt) : string :=
  let dash := String (byte 226) (String (byte 128) (String (byte 148) EmptyString)) in
  match fp_check p with
  | TrustOnFirstUse => "New daemon " +:+ dash +:+ " verify the fingerprint if possible"
  | Matched => "Daemon fingerprint verified (matches known key)"
  | Mismatch _ _ => "WARNING: Daemon fingerprint has CHANGED " +:+ dash +:+ " possible MITM attack!"
  end.

Definition fingerprint_lines (p : FingerprintPrompt) : option (list string) :=
  expected ← match fp_check p with
             | Mismatch expected _ =>
                 (λ s, [EmptyString; "Expected: " +:+ s]) <$> slice_to (Nat.min (String.length expected) 50) expected
             | _ => Some []
             end;
  Some ([fingerprint_header p; EmptyString; "Machine: " +:+ fp_machine_id p; EmptyString] ++
        str_lines (fp_randomart p) ++ [EmptyString; "Fingerprint:"] ++
        ((λ l, "  " +:+ l) <$> str_lines (fp_fingerprint_display p)) ++ expected ++
        [EmptyString; if needs_action p then "[Y] Accept new key  [N/Esc] Reject & disconnect" else "Press any key to continue..."]).

(** The input line with the ghost text; [None] is a panic. *)
Definition input_line {UA : UnicodeAlphanumeric} (a : App) : option string :=
  match ghost_text (a_completion_state a) with
  | None => Some (a_input a)
  | Some ghost =>
      trigger ← detect_trigger (a_input a) (a_cursor_pos a);
      let query := match trigger with
                   | Some (TrigCommand q) | Some (TrigAgent q _) | Some (TrigFile q) => Some q
                   | _ => None
                   end in
      let pos := Nat.min (a_cursor_pos a) (String.length (a_input a)) in
      after ← (if decide (pos = String.length (a_input a)) then Some EmptyString else slice_from pos (a_input a));
      let at_token_end := bool_decide (pos = String.length (a_input a)) ||
                          match head (chars after) with Some c => is_whitespace c | None => false end in
      if at_token_end then
        suffix ← match query with Some q => ghost_suffix q ghost | None => Some None end;
        match suffix with
        | Some s => before ← slice_to pos (a_input a); Some (before +:+ s +:+ after)
        | None => Some (a_input a)
        end
      else Some (a_input a)
  end.

(** The completions that are visible; [None] is a panic. *)
Definition popup_window (c : CompletionState) : option (list string) :=
  let stop := Nat.min (popup_offset c + COMPLETION_VISIBLE_COUNT) (length (items c)) in
  if decide (popup_offset c ≤ stop) then Some (take (stop - popup_offset c) (drop (popup_offset c) (items c))) else None.

(** * Layout *)

Inductive BottomPanel := PanelInput | PanelPermission | PanelPermissionEdit | PanelQuestion | PanelFingerprint.

Definition bottom_panel_mode (a : App) : BottomPanel :=
  match a_mode a with
  | ModePermissionPrompt => PanelPermission
  | ModePermissionEditInput | ModePermissionComment | ModePermissionDenyMessage => PanelPermissionEdit
  | ModeUserQuestion => PanelQuestion
  | ModeFingerprintVerification => PanelFingerprint
  | _ => PanelInput
  end.

Definition bottom_height (width height : Z) (a : App) : option Z :=
  match bottom_panel_mode a with
  | PanelInput =>
      let inner := sat_sub16 width 4 in
      input_lines ← (if decide (inner = 0%Z ∨ a_input a = EmptyString) then Some 1%Z
                     else rc ← compute_wrapped_cursor (a_input a) (String.length (a_input a)) inner;
                          Some (if decide (rc.2 = 0%Z ∧ (0 < rc.1)%Z) then rc.1 else add16 rc.1 1));
      Some (Z.max (Z.min (add16 input_lines 2) (height / 3)) 3)%Z
  | PanelPermission => Some (Z.max (Z.min 8 (height / 3)) 5)%Z
  | PanelPermissionEdit => Some (Z.max (Z.min 6 (height / 3)) 4)%Z
  | PanelQuestion =>
      let count := match a_pending_question a with Some q => length (pq_options q) | None => 0 end in
      Some (Z.max (Z.min (wrap_u16 (2 + wrap_u16 (Z.of_nat count) + 2 + 2)) (height / 2)) 6)%Z
  | PanelFingerprint => Some (Z.max (Z.min 20 (wrap_u16 (height * 2) / 3)) 12)%Z
  end.

Definition compute_detail_split (total_width : Z) : Z * Z :=
  if (total_width <? 80)%Z then (0, total_width)%Z
  else
    let panel := Z.min (Z.max (wrap_u16 (total_width * 2) / 5) 30) (total_width - 30) in
    (total_width - panel, panel)%Z.

Definition keys_hint (a : App) : string :=
  match a_mode a with
  | ModePermissionPrompt => "Y:allow A:session Tab:edit N:deny X:deny+stop"
  | ModePermissionEditInput | ModePermissionComment | ModePermissionDenyMessage => "Enter:submit Esc:back"
  | ModeUserQuestion => "Enter:submit Esc:cancel"
  | ModeFingerprintVerification =>
      if match a_pending_fingerprint a with Some p => needs_action p | None => false end
      then "Y:accept N/Esc:reject" else "Press any key to continue"
  | ModeNormal | ModeSessionList =>
      if dp_visible (a_detail_panel a) then "Ctrl+Up/Down: tools | Ctrl+C: quit" else "Ctrl+D: detail | Ctrl+C: quit"
  end.

Definition status_text (a : App) : string :=
  let middle_dot := String (byte 194) (String (byte 183) EmptyString) in
  let running := head (filter (λ e, tc_status e = ToolRunning) (reverse (a_tool_calls a))) in
  a_status a +:+
  match running with
  | None => EmptyString
  | Some e => " " +:+ middle_dot +:+ " " +:+ spinner (a_spinner_tick a) +:+ " " +:+ tc_tool_name e +:+
                (if decide (tc_description e = EmptyString) then EmptyString else " " +:+ tc_description e)
  end +:+
  match a_token_usage a with
  | None => EmptyString
  | Some u => " " +:+ middle_dot +:+ " " +:+ pretty (tu_input_tokens u) +:+ "in/" +:+ pretty (tu_output_tokens u) +:+ "out " +:+
                middle_dot +:+ " $" +:+ fmt_f64 4 (tu_cost_usd u)
  end.

(** * A frame *)

(** The sizes of the screen and of the areas that the layout gives, and the
    directory of the process if there is one. *)
Record Areas := mkAreas {
  ar_width : Z; ar_height : Z;
  ar_messages_width : Z; ar_messages_height : Z;
  ar_panel_width : Z;
  ar_cwd : option string
}.

(** ** The status panel (status_panel.rs) *)

Record SessionStatusInfo := mkStatusInfo {
  ssi_cwd : string;
  ssi_session_id : string;
  ssi_connection : string;
  ssi_model : string;
  ssi_active_agents : nat;
  ssi_pending_permissions : nat;
  ssi_worktree : option string;
  ssi_uptime_secs : Z
}.

Definition format_uptime (secs : Z) : string :=
  pretty (secs / 3600)%Z +:+ "h " +:+ pretty (secs mod 3600 / 60)%Z +:+ "m " +:+ pretty (secs mod 60)%Z +:+ "s".

Definition labeled_line (label value : string) : string := label +:+ " " +:+ value.

Definition status_panel_lines (i : SessionStatusInfo) : list string :=
  [labeled_line "CWD:" (ssi_cwd i); labeled_line "Session:" (ssi_session_id i); labeled_line "Connection:" (ssi_connection i);
   labeled_line "Model:" (ssi_model i); labeled_line "Active Agents:" (pretty (ssi_active_agents i));
   labeled_line "Pending Perms:" (pretty (ssi_pending_permissions i))] ++
  match ssi_worktree i with Some w => [labeled_line "Worktree:" w] | None => [] end ++
  [labeled_line "Uptime:" (format_uptime (ssi_uptime_secs i))].

(** Its width and height on a screen. *)
Definition status_panel_size (width height : Z) : Z * Z := (Z.min 50 (sat_sub16 width 4), Z.min 14 (sat_sub16 height 2)).

(** Agents, the worktree and the time are never filled in. *)
Definition status_info (cwd : option string) (a : App) : SessionStatusInfo :=
  mkStatusInfo (default "unknown" cwd) (default "none" (a_session_id a)) (a_connection_type a) (a_model a) 0
    (if bool_decide (is_Some (a_pending_permission a)) then 1 else 0) None 0.

Definition draw_status_panel (areas : Areas) (a : App) : option (Z * Z * list string) :=
  if a_show_status_panel a then Some (status_panel_size (ar_width areas) (ar_height areas), status_panel_lines (status_info (ar_cwd areas) a)) else None.

Record Frame := mkFrame {
  fr_header : string;
  fr_messages : list string;
  fr_detail : option (string * list string);
  fr_panel : list string;
  fr_cursor : option (Z * Z);
  fr_popup : option (list string);
  fr_status : string;
  fr_overlay : option (Z * Z * list string)
}.

(** The conversation: its lines, and what the state learns about the view. *)
Definition draw_messages (areas : Areas) (a : App) : App * list string :=
  let (conv_w, _) := compute_detail_split (ar_messages_width areas) in
  let width := if dp_visible (a_detail_panel a) then conv_w else ar_messages_width areas in
  if decide (dp_visible (a_detail_panel a) = true ∧ conv_w = 0%Z) then (a, [])
  else
    let shown := conversation_lines width a in
    let total := wrap_u16 (line_count shown (sat_sub16 width 4)) in
    (with_viewport (sat_sub16 (ar_messages_height areas) 4) total a, shown).

(** The detail panel: its title and lines. *)
Definition detail_lines (width : Z) (a : App) : string * list string :=
  let rule := repeat_string (Z.to_nat (sat_sub16 width 2))
                (String (byte 226) (String (byte 148) (String (byte 128) EmptyString))) in
  match selected_entry a with
  | Some e =>
      (panel_title e,
       [format_status_line (tc_status e) (tc_duration_ms e); rule] ++
         match tc_output e with Some output => str_lines output | None => ["Waiting for output..."] end)
  | None =>
      match a_compaction_summary a with
      | Some summary => ("Compaction Summary", ["Context was compacted. Summary:"; rule] ++ str_lines summary)
      | None => ("Detail", ["No tool call selected."; "Use Ctrl+Up/Down to navigate."])
      end
  end.

Definition draw_detail_panel (areas : Areas) (a : App) : option (string * list string) :=
  if dp_visible (a_detail_panel a) then Some (detail_lines (compute_detail_split (ar_messages_width areas)).2 a) else None.

Definition draw_panel {UA : UnicodeAlphanumeric} {JW : JsonWrite} (areas : Areas) (a : App)
  : option (list string * option (Z * Z)) :=
  match bottom_panel_mode a with
  | PanelInput =>
      line ← input_line a;
      cursor ← compute_wrapped_cursor (a_input a) (a_cursor_pos a) (sat_sub16 (ar_panel_width areas) 4);
      Some ([line], Some cursor)
  | PanelPermission =>
      match a_pending_permission a with
      | None => Some ([], None)
      | Some p => (λ ls, (ls, None)) <$> permission_lines p
      end
  | PanelPermissionEdit =>
      match a_pending_permission a with
      | None => Some ([], None)
      | Some p =>
          cursor ← compute_wrapped_cursor (pm_edit_buffer p) (pm_edit_cursor p) (sat_sub16 (ar_panel_width areas) 2);
          Some ([edit_panel_title (a_mode a) p; pm_edit_buffer p], Some cursor)
      end
  | PanelQuestion => Some (match a_pending_question a with None => [] | Some q => question_lines q end, None)
  | PanelFingerprint =>
      match a_pending_fingerprint a with
      | None => Some ([], None)
      | Some p => (λ ls, (ls, None)) <$> fingerprint_lines p
      end
  end.

Definition draw {UA : UnicodeAlphanumeric} {JW : JsonWrite} (areas : Areas) (a : App) : option (App * Frame) :=
  _ ← bottom_height (ar_width areas) (ar_height areas) a;
  header ← header_text a;
  let '(a1, shown) := draw_messages areas a in
  panel ← draw_panel areas a1;
  popup ← (if popup_visible (a_completion_state a1) && negb (bool_decide (items (a_completion_state a1) = []))
           then Some <$> popup_window (a_completion_state a1) else Some None);
  Some (a1, mkFrame header shown (draw_detail_panel areas a1) panel.1 panel.2 popup (status_text a1 +:+ keys_hint a1) (draw_status_panel areas a1)).

End Render.

(** The main loop of the terminal client.

    Models crates/betcode-cli/src/tui/mod.rs: each branch of the [select!] is
    an operation.  Fetching completions, running service commands and the
    connection are tasks of their own, whose results arrive as operations. *)

Section Loop.
Context {UA : UnicodeAlphanumeric} {FS : FuzzyScore} {JT : JsonText} {JP : JsonPretty} {JW : JsonWrite} {TE : Terminal}.

Inductive TuiOp :=
| TTerm (event : TermEvent)
| TRegistry (commands : list CachedCommand)        (** the registry arrived *)
| TCompletion (found : list string)                (** completions arrived *)
| TFetch                                           (** the fetcher takes the waiting requests *)
| TServiceTake                                     (** a service command is started *)
| TServiceLine (line : string)                     (** a line of a service command's output *)
| TEvent (now : Z) (event : AgentEvent EventBody)
| TStreamError (message : string)
| TDraw (areas : Areas).                           (** a tick: the screen is drawn *)

Definition completion_arrived (found : list string) (a : App) : App :=
  with_completion_state (mkCompletion (negb (bool_decide (found = []))) found 0 0 (head found)) a.

Definition stream_error (message : string) (a : App) : App :=
  with_agent_busy false
    (with_status (if contains "broken pipe" message || contains "connection reset" message || contains "h2 protocol error" message
                  then "Disconnected: daemon connection lost" else "Error: " +:+ message) a).

Definition tui_step (op : TuiOp) (t : Tui) : option Tui :=
  match op with
  | TTerm event => handle_term_event event t
  | TRegistry commands => Some (in_app (with_command_cache commands) t)
  | TCompletion found => Some (in_app (completion_arrived found) t)
  | TFetch => Some (in_app (λ a, with_completion_request_tx ((λ _, []) <$> a_completion_request_tx a) a) t)
  | TServiceTake => Some (in_app (λ a, with_service_command_tx (tail <$> a_service_command_tx a) a) t)
  | TServiceLine line => Some (in_app (λ a, scroll_to_bottom (add_system_message RoleSystem line a)) t)
  | TEvent now event => in_app_opt (handle_event now event) t
  | TStreamError message => Some (in_app (stream_error message) t)
  | TDraw areas =>
      in_app_opt (λ a, fst <$> draw areas (with_spinner_tick (wrap_u64 (a_spinner_tick a + 1)) a)) t
  end.

(** The loop ends when the user quits. *)
Fixpoint tui_run (ops : list TuiOp) (t : Tui) : option Tui :=
  match ops with
  | [] => Some t
  | op :: rest => t' ← tui_step op t; if a_should_quit (t_app t') then Some t' else tui_run rest t'
  end.

(** A session is resumed: the history is replayed before the loop. *)
Definition load_history (events : list (AgentEvent EventBody)) (a : App) : option App :=
  a' ← foldl (λ acc e, acc ≫= load_history_event e) (Some a) events;
  let a1 := finish_history_load a' in
  Some (if decide (events = []) then a1 else scroll_to_bottom a1).

(** The status line after connecting; [None] is the panic of the slice. *)
Definition connected_status (sid : string) : option string :=
  (λ s, "Connected | Session: " +:+ s) <$> slice_to (Nat.min 8 (String.length sid)) sid.

(** The client when the loop begins.  It has connected and knows the directory
    to work in: without an option for it, a current directory that is gone
    ended it before, with the panic of its [expect]. *)
Definition tui_new (sid : string) (a : App) : option Tui :=
  status ← connected_status sid;
  Some (mkTui (with_service_command_tx (Some []) (with_completion_request_tx (Some []) (with_status status a))) []).

End Loop.

(** * Concrete instances

    A terminal on which every byte is one column. *)

#[export] Instance demo_alphanumeric : UnicodeAlphanumeric := {| is_alphanumeric := is_ascii_char |}.
#[export] Instance demo_fuzzy : FuzzyScore := {| fuzzy_score query item := if starts_with query item then Some 1%Z else None |}.
#[export] Instance demo_terminal : Terminal :=
  {| char_width c := 1%Z; line_count lines width := Z.of_nat (length lines); fmt_f64 _ _ := "0.0" |}.

Definition demo_pretty (v : Json) : string := match v with JObj _ => print_json v | _ => "null" end.

Lemma demo_pretty_text (v : Json) : is_text (demo_pretty v) = true.
Proof. by destruct v. Qed.

#[export] Instance demo_json_pretty : JsonPretty := {| json_pretty := demo_pretty; json_pretty_text := demo_pretty_text |}.

Definition demo_event (e : Event) : AgentEvent EventBody := mkEvent 1 (mkBody None EmptyString (Some e)).

Definition demo_tui : Tui := default (mkTui app_new []) (tui_new "session-1" app_new).

Definition demo_request (id : string) : TuiOp :=
  TEvent 5 (demo_event (EvPermissionRequest id "Bash" "run a command" (Some [("command", PString "ls")]))).

Definition press (code : KeyCode) : TuiOp := TTerm (TermKey (mkKey code false false)).
