(* ===== verification/TuiCorrect.v ===== *)
(** Texts in the terminal client: the dialog's editor edits characters, and
    the cursor of a wrapped text can always be placed. *)
From stdpp Require Import strings list gmap.
From Stdlib Require Import ZArith Lia.
From S2P Require Import Prelude Json Ndjson Commands Multiplexer EventBridge SessionStore Fingerprint SessionRelay AgentService SessionHistory AgentCorrect Utf8 Completion.
From S2P Require Import AppState TuiInput TuiRender.

Notation all_chars := (Forall (λ c, is_char c = true)).

Lemma is_char_length (c : string) : is_char c = true → 0 < String.length c.
Proof. intros (b & t & -> & _)%is_char_inv. simpl. lia. Qed.

Lemma text_of_length (cs : list string) : all_chars cs → String.length (text_of cs) = 0 → cs = [].
Proof.
  destruct 1 as [|c cs Hc _]; [done|]. simpl. rewrite string_length_app. pose proof (is_char_length c Hc). lia.
Qed.

(** * The dialog's editor

    The reference: the characters before and after the cursor. *)

Record Zipper := mkZipper { z_before : list string; z_after : list string }.

Definition zip_key (code : KeyCode) (z : Zipper) : Zipper :=
  match code with
  | KChar c => mkZipper (z_before z ++ [c]) (z_after z)
  | KBackspace => mkZipper (removelast (z_before z)) (z_after z)
  | KLeft => match list.last (z_before z) with
             | Some c => mkZipper (removelast (z_before z)) (c :: z_after z)
             | None => z
             end
  | KRight => match z_after z with
              | c :: rest => mkZipper (z_before z ++ [c]) rest
              | [] => z
              end
  | _ => z
  end.

Record represents (z : Zipper) (s : string) (cursor : nat) : Prop := {
  rz_text : s = text_of (z_before z ++ z_after z);
  rz_cursor : cursor = String.length (text_of (z_before z));
  rz_chars : all_chars (z_before z ++ z_after z)
}.

(** A key that types something types one character. *)
Definition types_char (code : KeyCode) : Prop := match code with KChar c => is_char c = true | _ => True end.

Lemma char_indices_text (cs : list string) : all_chars cs → char_indices (text_of cs) = indices_from 0 cs.
Proof. intros H. unfold char_indices. by rewrite chars_text_of. Qed.

Lemma prev_offset_split (cs ds : list string) (c : string) :
  all_chars (cs ++ [c]) → all_chars ds →
  prev_offset (String.length (text_of (cs ++ [c]))) (text_of ((cs ++ [c]) ++ ds)) = Some (String.length (text_of cs)).
Proof.
  intros Hc Hd. unfold prev_offset. rewrite slice_to_split by done. cbn [mbind option_bind]. by rewrite char_indices_text, last_index.
Qed.

Lemma next_offset_split (cs ds : list string) (c : string) :
  all_chars (c :: ds) →
  next_offset (String.length (text_of cs)) (text_of (cs ++ c :: ds)) = Some (String.length (text_of (cs ++ [c]))).
Proof.
  intros Hd. unfold next_offset. rewrite slice_from_split by done. cbn [mbind option_bind]. rewrite char_indices_text by done. simpl.
  f_equal. destruct ds as [|d ds]; simpl; rewrite !text_of_app; cbn [text_of]; rewrite !string_length_app; simpl; lia.
Qed.

Lemma edit_key_zip (code : KeyCode) (z : Zipper) (s : string) (cursor : nat) :
  types_char code → represents z s cursor →
  ∃ s' cursor', edit_buffer_key code s cursor = Some (s', cursor') ∧ represents (zip_key code z) s' cursor'.
Proof.
  intros Hcode [-> -> Hall]. destruct z as [cs ds]. cbn [z_before z_after] in *. pose proof Hall as [Hcs Hds]%Forall_app.
  assert (represents (mkZipper cs ds) (text_of (cs ++ ds)) (String.length (text_of cs))) as Hz by by split.
  destruct code as [c| | | | | | | | | | | |]; simpl; try (by eexists _, _).
  - rewrite str_insert_split by done. eexists _, _. split; [done|]. split; cbn.
    + by rewrite <- app_assoc.
    + by rewrite text_of_app, string_length_app; simpl; rewrite string_app_nil_r.
    + rewrite <- app_assoc. apply Forall_app. split; [done|]. by constructor.
  - destruct cs as [|c cs _] using rev_ind; [by eexists _, _|].
    rewrite decide_False.
    2: { intros H0. apply text_of_length in H0; [by destruct cs|done]. }
    rewrite prev_offset_split by done. simpl. rewrite <- app_assoc. simpl. apply Forall_app in Hcs as [Hcs Hc].
    rewrite str_remove_split by (constructor; [by inversion Hc|done]). eexists _, _. split; [done|].
    rewrite removelast_last. split; cbn; [done..|]. by apply Forall_app.
  - destruct cs as [|c cs _] using rev_ind; [by eexists _, _|].
    rewrite decide_False.
    2: { intros H0. apply text_of_length in H0; [by destruct cs|done]. }
    rewrite prev_offset_split by done. simpl. eexists _, _. split; [done|].
    rewrite last_snoc, removelast_last. rewrite <- app_assoc in *. by split.
  - destruct ds as [|c ds].
    { rewrite decide_True by (rewrite app_nil_r; done). by eexists _, _. }
    rewrite decide_False.
    2: { rewrite text_of_app, string_length_app. cbn [text_of]. rewrite string_length_app.
         inversion Hds as [|? ? Hc _]; subst. pose proof (is_char_length c Hc). lia. }
    rewrite next_offset_split by done. simpl. eexists _, _. split; [done|]. split; cbn; by rewrite <- ?app_assoc.
Qed.

(** * Placing the cursor *)

(** An offset between two characters. *)
Definition between (text : string) (n : nat) : Prop :=
  ∃ cs ds, chars text = cs ++ ds ∧ n = String.length (text_of cs).

(** A token is a part of the text. *)
Definition token_of (text : string) (t : WrapToken) : Prop :=
  ∃ cs ds, chars text = cs ++ tok_chars t ++ ds ∧ tok_start t = String.length (text_of cs).

Lemma token_between (text : string) (t : WrapToken) : token_of text t → between text (tok_start t).
Proof. intros (cs & ds & H & Hs). by eexists cs, _. Qed.

Section Wrap.
Context {TE : Terminal} (text : string).

Lemma tokens_of_text (cs ds : list string) (pos : nat) (current : option WrapToken) :
  chars text = cs ++ ds → pos = String.length (text_of cs) →
  (∀ t, current = Some t → ∃ before, cs = before ++ tok_chars t ∧ tok_start t = String.length (text_of before)) →
  Forall (token_of text) (tokens_from pos ds current).
Proof.
  revert cs pos current. induction ds as [|c ds IH]; intros cs pos current Ht Hpos Hcur; simpl.
  { destruct current as [t|]; [|done]. constructor; [|done]. destruct (Hcur t eq_refl) as (b & -> & Hs).
    exists b, []. by rewrite Ht, <- app_assoc. }
  assert (chars text = (cs ++ [c]) ++ ds) as Ht' by by rewrite <- app_assoc.
  assert (pos + String.length c = String.length (text_of (cs ++ [c]))) as Hpos'.
  { rewrite text_of_app, string_length_app. simpl. rewrite string_app_nil_r. lia. }
  destruct current as [t|]; [case_decide as Hws|].
  - destruct (Hcur t eq_refl) as (b & -> & Hs). eapply IH; [exact Ht'|exact Hpos'|]. intros t' [= <-]. simpl.
    exists b. by rewrite app_assoc.
  - destruct (Hcur t eq_refl) as (b & -> & Hs). constructor.
    { exists b, (c :: ds). by rewrite Ht, <- app_assoc. }
    eapply IH; [exact Ht'|exact Hpos'|]. intros t' [= <-]. by exists (b ++ tok_chars t).
  - eapply IH; [exact Ht'|exact Hpos'|]. intros t' [= <-]. by exists cs.
Qed.

Lemma long_word_breaks (max_width w : Z) (cs ws ds : list string) (pos : nat) :
  chars text = cs ++ ws ++ ds → pos = String.length (text_of cs) →
  Forall (between text) (break_long_word max_width pos ws w).1.
Proof.
  revert cs pos w. induction ws as [|c ws IH]; intros cs pos w Ht Hpos; simpl; [done|].
  assert (∀ w, Forall (between text) (break_long_word max_width (pos + String.length c) ws w).1) as Hrest.
  { intros w'. apply (IH (cs ++ [c])); [by rewrite <- app_assoc|].
    rewrite text_of_app, string_length_app. simpl. rewrite string_app_nil_r. lia. }
  destruct (max_width <? add16 w (width16 c))%Z.
  - specialize (Hrest (width16 c)). destruct (break_long_word _ _ _ (width16 c)) as [bs w']. simpl in *.
    constructor; [|done]. by exists cs, (c :: ws ++ ds).
  - specialize (Hrest (add16 w (width16 c))). by destruct (break_long_word _ _ _ (add16 w (width16 c))) as [bs w'].
Qed.

Lemma ws_break_between (ws word : WrapToken) : token_of text ws → token_of text word → between text (ws_break ws word).1.
Proof.
  intros (cs & ds & Ht & Hs) Hw%token_between. unfold ws_break. destruct (tok_width ws <=? 1)%Z; [done|].
  destruct (tok_chars ws) as [|c [|d rest]]; [done|done|]. simpl. exists (cs ++ [c]), (d :: rest ++ ds). split.
  - by rewrite Ht, <- app_assoc.
  - rewrite Hs, text_of_app, string_length_app. simpl. by rewrite string_app_nil_r.
Qed.

Lemma wrap_breaks (max_width : Z) (tokens : list WrapToken) (w : Z) :
  Forall (token_of text) tokens → Forall (between text) (wrap_tokens max_width tokens w).
Proof.
  remember (length tokens) as n eqn:Hn. revert tokens w Hn.
  induction n as [n IH] using lt_wf_ind. intros tokens w -> Hall.
  destruct tokens as [|t rest]; [done|]. inversion_clear Hall as [|? ? Ht Hrest].
  assert (∀ w, Forall (between text) (wrap_tokens max_width rest w)) as H1 by (intros w'; by apply (IH (length rest)); [simpl; lia|..]).
  cbn [wrap_tokens]. destruct (tok_is_ws t).
  - destruct rest as [|word rest2]; [done|]. inversion_clear Hrest as [|? ? Hword Hrest2].
    assert (∀ w, Forall (between text) (wrap_tokens max_width rest2 w)) as H2
      by (intros w'; by apply (IH (length rest2)); [simpl; lia|..]).
    destruct (tok_is_ws word); [apply H1|]. cbn zeta. destruct (max_width <? _)%Z; [|apply H2].
    destruct (_ && _)%bool; [apply H1|]. pose proof (ws_break_between t word Ht Hword) as Hb.
    destruct (ws_break t word) as [bp remaining]. constructor; [done|]. destruct (max_width <? _)%Z; [apply H1|apply H2].
  - destruct (max_width <? add16 w (tok_width t))%Z; [|apply H1]. cbn zeta.
    assert (Forall (between text) (if (0 <? w)%Z then [tok_start t] else [])) as Hh.
    { destruct (0 <? w)%Z; [|done]. constructor; [by apply token_between|done]. }
    destruct (max_width <? tok_width t)%Z; [|by apply Forall_app].
    destruct Ht as (cs & ds & Hc & Hs). pose proof (long_word_breaks max_width 0 cs (tok_chars t) ds (tok_start t) Hc Hs) as Hl.
    destruct (break_long_word _ _ _ _) as [bs r]. apply Forall_app. split; [done|]. by apply Forall_app.
Qed.

Lemma breaks_between (max_width : Z) : Forall (between text) (compute_word_wrap_breaks text max_width).
Proof. apply wrap_breaks. by apply (tokens_of_text [] (chars text)). Qed.

Lemma cursor_row_le (breaks : list nat) (cursor : nat) : cursor_row breaks cursor ≤ length breaks.
Proof. induction breaks as [|lb breaks IH]; simpl; [lia|]. case_decide; lia. Qed.

Lemma between_slice (n : nat) : is_text text = true → between text n → is_Some (slice_from n text).
Proof.
  intros Ht (cs & ds & H & ->). pose proof (chars_are_chars text Ht) as Hall. rewrite H in Hall.
  apply Forall_app in Hall as [_ Hd]. rewrite <- (text_of_chars text), H, slice_from_split by done. by eexists.
Qed.

(** The cursor of a wrapped text can be placed, wherever it is in the text and
    however wide the area. *)
Lemma wrapped_cursor_total (cursor : nat) (max_width : Z) :
  is_text text = true → is_Some (compute_wrapped_cursor text cursor max_width).
Proof.
  intros Ht. unfold compute_wrapped_cursor. case_decide; [by eexists|]. cbn zeta.
  pose proof (breaks_between (wrap_u16 max_width)) as Hb. set (breaks := compute_word_wrap_breaks _ _) in *. clearbody breaks.
  pose proof (cursor_row_le breaks cursor) as Hr. set (r := cursor_row breaks cursor) in *. clearbody r.
  assert (0 ≤ wrap_u16 (Z.of_nat r) ≤ Z.of_nat r)%Z as Hw.
  { unfold wrap_u16. split; [apply Z.mod_pos_bound; lia|apply Z.mod_le; lia]. }
  assert (∃ start, (if decide (wrap_u16 (Z.of_nat r) = 0%Z) then Some 0
                    else breaks !! (Z.to_nat (wrap_u16 (Z.of_nat r)) - 1)) = Some start ∧ between text start) as (start & -> & Hs).
  { case_decide as H0; [exists 0; split; [done|by exists [], (chars text)]|].
    destruct (breaks !! (Z.to_nat (wrap_u16 (Z.of_nat r)) - 1)) as [lb|] eqn:E.
    - exists lb. split; [done|]. by eapply Forall_lookup_1.
    - apply lookup_ge_None in E. lia. }
  destruct (between_slice start Ht Hs) as [line E]. simpl. rewrite E. simpl. by eexists.
Qed.

End Wrap.

(** The terminal client: its dialogs, what it shows, and where it fails. *)

(** * The dialog's editor *)

Section Editor.
Context {JT : JsonText} {JP : JsonPretty}.

Lemma app_eta (t : Tui) : t = in_app (λ a, with_permission (a_mode a) (a_pending_permission a) a) t.
Proof. by destruct t as [[]]. Qed.

Definition edit_keys (codes : list KeyCode) (t : Tui) : option Tui :=
  foldl (λ acc code, acc ≫= handle_permission_edit_key code) (Some t) codes.

(** Keys that edit: neither the one that submits nor the one that leaves. *)
Definition editing (code : KeyCode) : Prop := types_char code ∧ code ≠ KEnter ∧ code ≠ KEsc.

Lemma edit_keys_zip (codes : list KeyCode) (t : Tui) (p : PendingPermission) (z : Zipper) :
  a_pending_permission (t_app t) = Some p → represents z (pm_edit_buffer p) (pm_edit_cursor p) → Forall editing codes →
  ∃ s cursor, edit_keys codes t = Some (in_app (with_permission (a_mode (t_app t)) (Some (set_edit s cursor p))) t) ∧
    represents (foldl (λ z code, zip_key code z) z codes) s cursor.
Proof.
  intros Hp Hz Hall. revert t p z Hp Hz. induction Hall as [|code codes (Hc & H1 & H2) _ IH]; intros t p z Hp Hz.
  { exists (pm_edit_buffer p), (pm_edit_cursor p). split; [|done]. unfold edit_keys. simpl. f_equal.
    rewrite (app_eta t) at 1. unfold in_app. rewrite Hp. by destruct p. }
  destruct (edit_key_zip code z _ _ Hc Hz) as (s & cursor & He & Hz').
  set (t1 := in_app (with_permission (a_mode (t_app t)) (Some (set_edit s cursor p))) t).
  assert (handle_permission_edit_key code t = Some t1) as Hstep.
  { unfold handle_permission_edit_key. rewrite Hp, He. by destruct code. }
  destruct (IH t1 (set_edit s cursor p) (zip_key code z) eq_refl Hz') as (s' & cursor' & H & Hz'').
  exists s', cursor'. split; [|done]. unfold edit_keys in *. simpl. by rewrite Hstep.
Qed.

(** C21: The editor of the permission dialog edits characters: whatever keys are
    pressed, in whatever text, it never panics, and text and cursor are those
    of a list of characters before and a list after the cursor; nothing else
    changes. *)
Theorem editor_edits_characters (codes : list KeyCode) (t : Tui) (p : PendingPermission) :
  a_pending_permission (t_app t) = Some p → Forall editing codes →
  let t0 := in_app start_permission_edit t in
  let text := default EmptyString (json_pretty <$> pm_original_input p) in
  let z := foldl (λ z code, zip_key code z) (mkZipper (chars text) []) codes in
  edit_keys codes t0 =
    Some (in_app (with_permission ModePermissionEditInput
                    (Some (set_edit (text_of (z_before z ++ z_after z)) (String.length (text_of (z_before z))) p))) t).
Proof.
  intros Hp Hall. cbn zeta. set (text := default _ _).
  assert (is_text text = true) as Ht by (subst text; destruct (pm_original_input p); [apply json_pretty_text|done]).
  set (t0 := in_app start_permission_edit t).
  assert (a_pending_permission (t_app t0) = Some (set_edit text (String.length text) p)) as Hp0.
  { simpl. by rewrite Hp. }
  destruct (edit_keys_zip codes t0 _ (mkZipper (chars text) []) Hp0) as (s & cursor & -> & [-> -> _]); [|done|].
  { split; simpl; rewrite ?app_nil_r, ?text_of_chars; [done..|]. by apply chars_are_chars. }
  unfold t0, in_app, start_permission_edit. simpl. by rewrite Hp.
Qed.

End Editor.

(** * Characters beyond ASCII *)

Section Beyond.
Context {UA : UnicodeAlphanumeric} {FS : FuzzyScore} {JT : JsonText} {JP : JsonPretty} {JW : JsonWrite} {TE : Terminal}.

(** The client panics as soon as a character that takes more than one byte
    is typed into the input line, whatever its state. *)
Theorem typing_beyond_ascii_panics (c : string) (shift : bool) (t : Tui) :
  a_mode (t_app t) = ModeNormal → is_char c = true → 1 < String.length c →
  tui_step (TTerm (TermKey (mkKey (KChar c) false shift))) t = None.
Proof.
  intros Hm (b & u & -> & Hb & Hu)%is_char_inv Hl. simpl. unfold handle_key, is_ctrl. cbn [ke_ctrl andb]. rewrite Hm.
  unfold handle_input_key. cbn [ke_code].
  assert (handle_completion_key (KChar (String b u)) (t_app t) = (t_app t, ActionNone)) as -> by done.
  unfold edit_key, in_app_opt. cbn [ke_code t_app]. unfold type_char, str_insert.
  destruct (is_char_boundary (a_cursor_pos (t_app t)) (a_input (t_app t))) eqn:Hbd; [|done]. simpl.
  assert (u ≠ EmptyString) as Hne by by intros ->; simpl in Hl; lia.
  pose proof (boundary_le _ _ Hbd) as Hle. set (s := a_input (t_app t)) in *. set (n := a_cursor_pos (t_app t)) in *.
  unfold update_completion_state, detect_trigger. cbn [a_input a_cursor_pos with_input].
  assert (is_char_boundary (n + 1) (str_take n s +:+ String b u +:+ str_drop n s) = false) as Hin.
  { rewrite <- (boundary_after_lead b u (str_drop n s) (str_take n s) Hne Hu). f_equal. rewrite str_take_length by done. lia. }
  rewrite Nat.min_l.
  - unfold slice_to. by rewrite Hin.
  - rewrite !string_length_app, str_take_length by done. simpl. lia.
Qed.

(** An output of more than 200 bytes. *)
Definition cut_in_character (output : string) : Prop := 200 < String.length output ∧ is_char_boundary 200 output = false.

Lemma cut_preview (output : string) : cut_in_character output → output_preview output = None.
Proof. intros [H1 H2]. unfold output_preview. rewrite decide_True by done. unfold slice_to. by rewrite H2. Qed.

Lemma load_none (events : list (AgentEvent EventBody)) : foldl (λ acc e, acc ≫= load_history_event e) None events = None.
Proof. by induction events. Qed.

(** A tool result whose 200th byte is inside a character ends every client
    that shows it, and no client can resume the session any more: replaying
    its history panics, wherever the result is in it. *)
Theorem tool_result_locks_session (now : Z) (e : AgentEvent EventBody) (id output : string) (is_error : bool) (duration : Z)
    (t : Tui) (before after : list (AgentEvent EventBody)) (a : App) :
  eb_event (ev_payload e) = Some (EvToolCallResult id output is_error duration) → cut_in_character output →
  tui_step (TEvent now e) t = None ∧ load_history (before ++ e :: after) a = None.
Proof.
  intros He Hcut%cut_preview. split.
  - simpl. unfold in_app_opt, handle_event. rewrite He. unfold tool_finished. by rewrite Hcut.
  - unfold load_history. rewrite foldl_app. cbn [foldl].
    assert (∀ a, load_history_event e a = None) as Hn.
    { intros a'. unfold load_history_event. rewrite He. unfold tool_finished. by rewrite Hcut. }
    destruct (foldl _ (Some a) before) as [a'|]; simpl; [rewrite Hn|]; by rewrite load_none.
Qed.

(** So does a permission request whose input is cut inside a character, when
    the dialog is drawn. *)
Lemma permission_preview_panics (now : Z) (e : AgentEvent EventBody) (id tool description : string)
    (input : list (string * ProstValue)) (areas : Areas) (t : Tui) :
  eb_event (ev_payload e) = Some (EvPermissionRequest id tool description (Some input)) →
  60 < String.length (json_to_string (struct_to_json input)) →
  is_char_boundary 57 (json_to_string (struct_to_json input)) = false →
  tui_step (TEvent now e) t ≫= tui_step (TDraw areas) = None.
Proof.
  intros He Hl Hb. change (tui_step (TEvent now e) t) with (in_app_opt (handle_event now e) t). unfold in_app_opt at 1, handle_event. rewrite He. cbn [fmap option_fmap option_map mbind option_bind tui_step].
  unfold in_app_opt.
  match goal with |- context [draw areas ?x] => set (a := x) end. unfold draw, bottom_height, bottom_panel_mode. simpl.
  destruct (header_text a) as [hd|]; [|done]. simpl.
  destruct (draw_messages areas a) as [a1 shown] eqn:Hd.
  assert (a_mode a1 = ModePermissionPrompt ∧
          a_pending_permission a1 = Some (mkPending id tool description (Some (struct_to_json input)) EmptyString 0 true)) as [Hm Hp].
  { unfold draw_messages in Hd. destruct (compute_detail_split (ar_messages_width areas)) as [conv panel].
    case_decide; by simplify_eq. }
  unfold draw_panel, bottom_panel_mode. rewrite Hm, Hp. unfold permission_lines. simpl. unfold permission_preview.
  rewrite decide_True by done. unfold slice_to. by rewrite Hb.
Qed.

End Beyond.

(** * Witnesses *)

(** A euro sign, three bytes. *)
Definition euro : string := String (byte 226) (String (byte 130) (String (byte 172) EmptyString)).

Definition demo_dialog : Tui := default demo_tui (tui_run [demo_request "r1"] demo_tui).

Lemma editor_edits_characters_witness :
  edit_keys [KBackspace; KChar euro; KLeft; KLeft; KRight; KBackspace] (in_app start_permission_edit demo_dialog) =
    Some (in_app (with_permission ModePermissionEditInput
      (Some (mkPending "r1" "Bash" "run a command" (Some (JObj [("command", JStr "ls")])) ("{command:'ls" +:+ euro) 12 true))) demo_dialog).
Proof.
  rewrite (editor_edits_characters [KBackspace; KChar euro; KLeft; KLeft; KRight; KBackspace] demo_dialog
    (default (mkPending "" "" "" None "" 0 true) (a_pending_permission (t_app demo_dialog)))).
  - vm_compute. reflexivity.
  - vm_compute. reflexivity.
  - by repeat constructor.
Defined.

Lemma typing_beyond_ascii_panics_witness : tui_step (press (KChar euro)) demo_tui = None.
Proof. apply (typing_beyond_ascii_panics euro false demo_tui); [reflexivity..|]. vm_compute. lia. Defined.

(** 199 bytes and a euro sign. *)
Definition demo_output : string := repeat_string 199 "x" +:+ euro.

Definition demo_result : AgentEvent EventBody := demo_event (EvToolCallResult "t1" demo_output false 7).

Lemma tool_result_locks_session_witness :
  tui_step (TEvent 5 demo_result) demo_tui = None ∧ load_history [demo_event (EvUserInput "hi"); demo_result] app_new = None.
Proof.
  apply (tool_result_locks_session 5 demo_result "t1" demo_output false 7 demo_tui [demo_event (EvUserInput "hi")] [] app_new).
  - reflexivity.
  - split; [vm_compute; lia|vm_compute; reflexivity].
Defined.
