(* ===== verification/TuiDialogs.v ===== *)
(** The permission dialog of the terminal client: every answer follows a
    request, and a request that arrives while another is open displaces it.
    The history of a session in the client: what a resumed client shows. *)
From stdpp Require Import gmap strings list.
From Stdlib Require Import ZArith Lia.
From S2P Require Import Prelude Protocol Json Ndjson Commands Multiplexer EventBridge SessionStore Fingerprint Encodings SessionRelay EventCodec AgentService.
From S2P Require Import SessionHistory AgentCorrect Utf8 Completion AppState TuiInput TuiRender.

Section Dialogs.
Context {UA : UnicodeAlphanumeric} {FS : FuzzyScore} {JT : JsonText} {JP : JsonPretty} {JW : JsonWrite} {TE : Terminal}.

(** The answer to a request. *)
Definition answers (id : string) (r : Request) : bool :=
  match r with ReqPermission id' _ _ _ => bool_decide (id' = id) | _ => false end.

Definition answer_count (id : string) (t : Tui) : nat := length (filter (λ r, answers id r = true) (t_sent t)).

Definition permission_mode (m : AppMode) : bool :=
  match m with
  | ModePermissionPrompt | ModePermissionEditInput | ModePermissionComment | ModePermissionDenyMessage => true
  | _ => false
  end.

(** The request whose dialog is open. *)
Definition shown_request (a : App) : option string :=
  if permission_mode (a_mode a) then pm_request_id <$> a_pending_permission a else None.

(** The answers that were given, and the one that can still be. *)
Definition potential (id : string) (t : Tui) : nat :=
  answer_count id t + (if decide (shown_request (t_app t) = Some id) then 1 else 0).

(** A step that opens no dialog. *)
Definition calm (t t' : Tui) : Prop := t_sent t `prefix_of` t_sent t' ∧ ∀ id, potential id t' ≤ potential id t.

#[export] Instance calm_preorder : PreOrder calm.
Proof.
  split.
  - intros t. split; [done|]. intros id. lia.
  - intros t1 t2 t3 [P1 H1] [P2 H2]. split; [by trans (t_sent t2)|]. intros id. etrans; [apply H2|apply H1].
Qed.

(** A change of the state that leaves the dialog or closes it. *)
Definition keeps (a a' : App) : Prop := shown_request a' = shown_request a ∨ shown_request a' = None.

#[export] Instance keeps_preorder : PreOrder keeps.
Proof. split; [by left|]. unfold keeps. intros a b c [H1|H1] [H2|H2]; rewrite ?H2; auto. Qed.

Lemma keeps_shown (a a' : App) : shown_request a' = shown_request a → keeps a a'.
Proof. by left. Qed.

Lemma calm_app (t : Tui) (a : App) : keeps (t_app t) a → calm t (mkTui a (t_sent t)).
Proof.
  intros H. split; [done|]. intros id. unfold potential, answer_count. simpl. destruct H as [->| ->]; [done|].
  case_decide; [done|]. lia.
Qed.

(** The state changes where the dialog is not concerned. *)
Ltac calm_same := apply calm_app, keeps_shown; reflexivity.

Lemma calm_request (r : Request) (t : Tui) : (∀ id, answers id r = false) → calm t (send_request r t).
Proof.
  intros H. split; [by apply prefix_app_r|]. intros id. unfold potential, answer_count. simpl.
  rewrite filter_app, length_app, filter_cons_False by (by rewrite H). simpl. lia.
Qed.

Lemma calm_answer (d : PermissionDecision) (u : option (list (string * ProstValue))) (m : string) (t : Tui) :
  permission_mode (a_mode (t_app t)) = true → calm t (send_permission d u m t).
Proof.
  intros Hm. unfold send_permission. split; [destruct (a_pending_permission _); [by apply prefix_app_r|done]|]. intros id.
  unfold potential, answer_count, shown_request. rewrite Hm. simpl. destruct (a_pending_permission (t_app t)) as [p|] eqn:E; simpl; [|lia].
  rewrite filter_app, length_app. destruct (decide (pm_request_id p = id)) as [->|Hne].
  - rewrite filter_cons_True by (simpl; by rewrite bool_decide_eq_true). rewrite decide_True by done. simpl. lia.
  - rewrite filter_cons_False by (simpl; by rewrite bool_decide_eq_false_2). simpl. lia.
Qed.

(** * Keys *)

Lemma keeps_completion (a a' : App) : update_completion_state a = Some a' → keeps a a'.
Proof.
  unfold update_completion_state, keeps. destruct (detect_trigger _ _) as [[[]|]|]; simpl; intros [= <-]; by left.
Qed.

Lemma keeps_completion_key (code : KeyCode) (a : App) : keeps a (handle_completion_key code a).1.
Proof. unfold keeps, handle_completion_key. destruct code, (popup_visible (a_completion_state a)); simpl; try case_decide; by left. Qed.

Lemma keeps_accept (text : string) (a a' : App) : accept_completion text a = Some a' → keeps a a'.
Proof.
  unfold accept_completion, replace_token. intros H. destruct (detect_trigger _ _); simplify_eq/=.
  destruct (replace_range _ _ _ _); simplify_eq/=. by apply keeps_completion in H.
Qed.

Lemma keeps_type (c : string) (a a' : App) : type_char c a = Some a' → keeps a a'.
Proof. unfold type_char. intros H. destruct (str_insert _ _ _); simplify_eq/=. by apply keeps_completion in H. Qed.

Lemma keeps_backspace (a a' : App) : backspace a = Some a' → keeps a a'.
Proof.
  unfold backspace. intros H. destruct (a_cursor_pos a); [by apply keeps_completion|].
  destruct (str_remove _ _); simplify_eq/=. by apply keeps_completion in H.
Qed.

Lemma keeps_history (a a' : App) : history_up a = Some a' ∨ history_down a = Some a' → keeps a a'.
Proof.
  unfold history_up, history_down, recall, keeps. intros [H|H].
  - case_decide; [simplify_eq; by left|]. destruct (_ !! _); simplify_eq/=; by left.
  - destruct (a_history_index a) as [[|i]|]; [simplify_eq; by left| |simplify_eq; by left]. destruct (_ !! _); simplify_eq/=; by left.
Qed.

Lemma calm_opt (f : App → option App) (t t' : Tui) :
  (∀ a a', f a = Some a' → keeps a a') → in_app_opt f t = Some t' → calm t t'.
Proof.
  intros Hf. unfold in_app_opt. destruct (f (t_app t)) as [a|] eqn:E; intros [= <-]. apply calm_app. by apply Hf.
Qed.

Lemma calm_command (trimmed body : string) (t : Tui) : calm t (run_command trimmed body t).
Proof.
  unfold run_command. destruct (split_once_ws _ _) as [command rest]. repeat case_decide; [calm_same..|].
  destruct (is_service_command _ _); [calm_same|].
  set (t1 := in_app _ t). trans t1; [calm_same|]. trans (send_request (ReqMessage trimmed EmptyString) t1); [by apply calm_request|].
  calm_same.
Qed.

Lemma calm_submit (t : Tui) : calm t (submit_line t).
Proof.
  unfold submit_line, submit_input. case_decide; [done|].
  match goal with |- calm t (in_app scroll_to_bottom ?x) => trans x; [|calm_same] end.
  match goal with |- context [mkTui ?a (t_sent t)] => set (t1 := mkTui a (t_sent t)) end.
  trans t1; [calm_same|]. case_decide; [calm_same|].
  destruct (strip_prefix _ _); [apply calm_command|].
  trans (send_request (ReqMessage (a_input (t_app t)) EmptyString) t1); [by apply calm_request|calm_same].
Qed.

Lemma calm_edit_key (key : KeyEvent) (t t' : Tui) : edit_key key t = Some t' → calm t t'.
Proof.
  unfold edit_key. destruct key as [code ctrl shift]. destruct code; simpl; intros H; repeat case_match; simplify_eq;
    try (calm_same).
  all: try (by apply calm_submit).
  all: try (eapply calm_opt; [|done]; intros ? ?; by (apply keeps_type || apply keeps_backspace || (intros; apply keeps_history; auto))).
  all: try done.
  all: try (apply calm_app, keeps_shown; unfold select_prev_tool, select_next_tool; by case_decide).
Qed.

Lemma calm_input_key (key : KeyEvent) (t t' : Tui) : handle_input_key key t = Some t' → calm t t'.
Proof.
  unfold handle_input_key. pose proof (keeps_completion_key (ke_code key) (t_app t)) as Hk.
  destruct (handle_completion_key _ _) as [a act]. simpl in Hk. intros H.
  trans (mkTui a (t_sent t)); [by apply calm_app|].
  destruct act; [by eapply calm_edit_key|by eapply calm_opt; [apply keeps_accept|]|by simplify_eq].
Qed.

Lemma calm_pending (m : AppMode) (f : PendingPermission → PendingPermission) (t : Tui) :
  permission_mode (a_mode (t_app t)) = true → (∀ p, pm_request_id (f p) = pm_request_id p) →
  calm t (in_app (λ a, with_permission m (f <$> a_pending_permission a) a) t).
Proof.
  intros Hm Hf. apply calm_app. unfold keeps, shown_request. rewrite Hm. cbn [with_permission a_mode a_pending_permission].
  destruct (permission_mode m); [left|by right]. destruct (a_pending_permission (t_app t)); simpl; by rewrite ?Hf.
Qed.

Lemma calm_permission_key (code : KeyCode) (t : Tui) :
  permission_mode (a_mode (t_app t)) = true → calm t (handle_permission_key code t).
Proof.
  intros Hm. unfold handle_permission_key, start_permission_edit, start_permission_text.
  destruct code; repeat case_match; try done; try (by apply calm_answer); by apply calm_pending.
Qed.

Lemma calm_permission_edit (code : KeyCode) (t t' : Tui) :
  permission_mode (a_mode (t_app t)) = true → handle_permission_edit_key code t = Some t' → calm t t'.
Proof.
  intros Hm H. assert (code = KEnter ∨ code = KEsc ∨ code ≠ KEnter ∧ code ≠ KEsc) as [->|[->|[H1 H2]]]
    by (destruct code; auto).
  - simpl in H. injection H as <-. unfold submit_permission_edit.
    destruct (a_mode (t_app t)) eqn:E; try done; try (by apply calm_answer; rewrite E).
    set (t1 := send_permission _ _ _ t). trans t1; [by apply calm_answer; rewrite E|]. case_decide; [done|]. by apply calm_request.
  - simpl in H. injection H as <-. apply calm_app, keeps_shown. unfold shown_request. by rewrite Hm.
  - unfold handle_permission_edit_key in H. destruct (a_pending_permission (t_app t)) as [p|] eqn:E.
    + destruct (edit_buffer_key code _ _) as [[s c]|] eqn:He; [|by destruct code].
      assert (t' = in_app (with_permission (a_mode (t_app t)) (Some (set_edit s c p))) t) as ->
        by (destruct code; simplify_eq/=; congruence).
      apply calm_app, keeps_shown. unfold shown_request. simpl. by rewrite Hm, E.
    + assert (t' = t) as -> by (destruct code; simplify_eq/=; congruence). done.
Qed.

Lemma calm_question_key (code : KeyCode) (t : Tui) : calm t (handle_question_key code t).
Proof.
  assert (∀ i a, keeps a (select_question_option i a)) as Hs
    by (intros; unfold select_question_option; repeat case_match; by left).
  assert (∀ d a, keeps a (move_question_highlight d a)) as Hm
    by (intros; unfold move_question_highlight; repeat case_match; by left).
  assert (∀ t, calm t (in_app (with_question ModeNormal None) t)) as Hq by (intros; apply calm_app; by right).
  unfold handle_question_key, submit_question. destruct code; try done; try (by apply calm_app); repeat case_match; try done;
    try (by apply calm_app).
  match goal with |- calm t (in_app ?f (send_request ?r t)) => trans (send_request r t); [by apply calm_request|by apply Hq] end.
Qed.

Lemma calm_fingerprint_key (code : KeyCode) (t : Tui) : calm t (in_app (handle_fingerprint_key code) t).
Proof. apply calm_app. unfold handle_fingerprint_key. repeat case_match; first [by left|by right]. Qed.

Lemma calm_term (event : TermEvent) (t t' : Tui) : handle_term_event event t = Some t' → calm t t'.
Proof.
  destruct event as [key|[]|]; simpl; intros H; try (simplify_eq; repeat case_match; try done; calm_same).
  unfold handle_key in H. repeat case_match; simplify_eq; try calm_same; try (by eapply calm_input_key);
    try (apply calm_question_key); try (apply calm_fingerprint_key).
  all: match goal with E : a_mode _ = _ |- _ => first [apply calm_permission_key|eapply calm_permission_edit; [|eassumption]]; by rewrite E end.
Qed.

(** * The main loop *)

(** The id of a permission request. *)
Definition requested (op : TuiOp) : option string :=
  match op with
  | TEvent _ e => match eb_event (ev_payload e) with Some (EvPermissionRequest id _ _ _) => Some id | _ => None end
  | _ => None
  end.

Definition request_count (id : string) (ops : list TuiOp) : nat := length (filter (λ op, requested op = Some id) ops).

Lemma keeps_draw (areas : Areas) (a a' : App) (frame : Frame) : draw areas a = Some (a', frame) → keeps a a'.
Proof.
  intros H. apply keeps_shown. unfold draw, draw_messages in H. destruct (bottom_height _ _ a); simplify_eq/=.
  destruct (header_text a); simplify_eq/=. destruct (compute_detail_split _) as [conv panel].
  case_decide; simplify_eq/=; destruct (draw_panel areas _); simplify_eq/=; repeat case_match; simplify_eq/=; try done.
  all: match goal with H : context [_ <$> popup_window ?c] |- _ => destruct (popup_window c); by simplify_eq/= end.
Qed.

Lemma keeps_event (now : Z) (e : AgentEvent EventBody) (a a' : App) :
  requested (TEvent now e) = None → handle_event now e a = Some a' → keeps a a'.
Proof.
  unfold requested, handle_event, tool_finished. intros Hr H.
  destruct (eb_event (ev_payload e)) as [[]|]; simplify_eq/=; try (by left); try (by right).
  - case_decide; simplify_eq/=; [by left|]. left. repeat case_match; done.
  - destruct (output_preview output); simplify_eq/=; by left.
  - left. by repeat case_match.
  - left. unfold execute_pending_client_command. by repeat case_match.
  - left. by repeat case_match.
Qed.

Lemma calm_step (op : TuiOp) (t t' : Tui) : requested op = None → tui_step op t = Some t' → calm t t'.
Proof.
  destruct op as [event|cs|found| | |line|now e|message|areas]; intros Hr H; cbn [tui_step] in H;
    try (injection H as <-; calm_same).
  - by eapply calm_term.
  - eapply calm_opt; [|exact H]. intros a a'. by apply keeps_event.
  - eapply calm_opt; [|exact H]. intros a a' Hd. cbn beta in Hd. destruct (draw areas _) as [[a1 frame]|] eqn:E; simplify_eq/=.
    by apply keeps_draw in E.
Qed.

(** A request opens its dialog, whichever was open. *)
Lemma request_opens (op : TuiOp) (t t' : Tui) (id : string) :
  requested op = Some id → tui_step op t = Some t' → t_sent t' = t_sent t ∧ shown_request (t_app t') = Some id.
Proof.
  destruct op as [| | | | | |now e| |]; try done. simpl. unfold in_app_opt, handle_event. intros Hr H.
  destruct (eb_event (ev_payload e)) as [[]|]; by simplify_eq/=.
Qed.

(** Another permission request, or a question. *)
Definition displaces (id : string) (op : TuiOp) : Prop :=
  match op with
  | TEvent _ e => match eb_event (ev_payload e) with
                  | Some (EvPermissionRequest id' _ _ _) => id' ≠ id
                  | Some (EvUserQuestion _ _ _ _) => True
                  | _ => False
                  end
  | _ => False
  end.

Lemma displaced_closes (op : TuiOp) (t t' : Tui) (id : string) :
  displaces id op → tui_step op t = Some t' → t_sent t' = t_sent t ∧ shown_request (t_app t') ≠ Some id.
Proof.
  destruct op as [| | | | | |now e| |]; try done. simpl. unfold in_app_opt, handle_event, shown_request. intros Hr H.
  destruct (eb_event (ev_payload e)) as [[]|]; simplify_eq/=; split; try done. by intros [= ->].
Qed.

Lemma step_potential (op : TuiOp) (t t' : Tui) (id : string) :
  tui_step op t = Some t' →
  t_sent t `prefix_of` t_sent t' ∧ potential id t' ≤ potential id t + (if decide (requested op = Some id) then 1 else 0).
Proof.
  intros H. destruct (requested op) as [id'|] eqn:E.
  - destruct (request_opens op t t' id' E H) as [Hs Ho]. split; [by rewrite Hs|]. unfold potential, answer_count. rewrite Hs, Ho.
    repeat case_decide; lia.
  - destruct (calm_step op t t' E H) as [Hs Hp]. split; [done|]. specialize (Hp id). rewrite decide_False by done. lia.
Qed.

Lemma run_potential (ops : list TuiOp) (t t' : Tui) (id : string) :
  tui_run ops t = Some t' →
  t_sent t `prefix_of` t_sent t' ∧ potential id t' ≤ potential id t + request_count id ops.
Proof.
  revert t. induction ops as [|op ops IH]; intros t H; simpl in H; [simplify_eq; split; [done|lia]|].
  destruct (tui_step op t) as [t1|] eqn:E; simplify_eq/=. destruct (step_potential op t t1 id E) as [P1 H1].
  assert (request_count id (op :: ops) = (if decide (requested op = Some id) then 1 else 0) + request_count id ops) as ->.
  { unfold request_count. rewrite filter_cons. by case_decide. }
  destruct (a_should_quit (t_app t1)); [simplify_eq; split; [done|lia]|].
  destruct (IH t1 H) as [P2 H2]. split; [by trans (t_sent t1)|lia].
Qed.

Lemma prefix_answers (id : string) (t t' : Tui) : t_sent t `prefix_of` t_sent t' → answer_count id t ≤ answer_count id t'.
Proof. intros [sent H]. unfold answer_count. rewrite H, filter_app, length_app. lia. Qed.

(** C19: Whatever happens at the terminal and whatever arrives, the client sends
    at most one answer for each permission request that it was sent. *)
Theorem one_answer_per_request (ops : list TuiOp) (sid id : string) (a : App) (t t' : Tui) :
  shown_request a = None → tui_new sid a = Some t → tui_run ops t = Some t' → answer_count id t' ≤ request_count id ops.
Proof.
  intros Ha Hn Hr. apply (run_potential ops t t' id) in Hr as [_ Hp]. unfold tui_new in Hn.
  destruct (connected_status sid); simplify_eq/=. unfold potential at 2, answer_count in Hp. simpl in Hp.
  change (shown_request _) with (shown_request a) in Hp. rewrite Ha in Hp.
  unfold potential in Hp. simpl in Hp. lia.
Qed.

(** A permission request or a question that arrives while a permission
    dialog is open takes the dialog's place, and the request of the first is
    never answered, unless it is made again. *)
Theorem displaced_request_never_answered (op : TuiOp) (ops : list TuiOp) (first : string) (t t' : Tui) :
  shown_request (t_app t) = Some first → displaces first op →
  request_count first ops = 0 → tui_run (op :: ops) t = Some t' →
  answer_count first t' = answer_count first t.
Proof.
  intros Ho Hop Hreq H. simpl in H. destruct (tui_step op t) as [t1|] eqn:E; simplify_eq/=.
  destruct (displaced_closes op t t1 first Hop E) as [Hs Ho1].
  assert (answer_count first t1 = answer_count first t) as Ha by (unfold answer_count; by rewrite Hs).
  destruct (a_should_quit (t_app t1)); [by simplify_eq|].
  destruct (run_potential ops t1 t' first H) as [Hpre Hp]. apply (prefix_answers first) in Hpre.
  unfold potential in Hp. rewrite (decide_False (P := shown_request (t_app t1) = Some first)) in Hp by done. lia.
Qed.

End Dialogs.

(** * What becomes of the answer *)

Section Answer.
Context {UA : UnicodeAlphanumeric} {FS : FuzzyScore} {JP : JsonPretty}.
Context {DT : DebugText} {JT : JsonText} {JW : JsonWrite} {PC : ProstCodec} {ST : SqlText}.
Context {HI : HashIter} {SO : SqlOrder}.
Context (clock : Z → Timestamp).

(** The dialogs in which the user writes something for the agent. *)
Definition writes_answer (m : AppMode) : bool :=
  match m with ModePermissionEditInput | ModePermissionDenyMessage => true | _ => false end.

Lemma submitted_answer (shift : bool) (t : Tui) (p : PendingPermission) :
  writes_answer (a_mode (t_app t)) = true → a_pending_permission (t_app t) = Some p →
  ∃ d u m t', handle_key (mkKey KEnter false shift) t = Some t' ∧
    t_sent t' = t_sent t ++ [ReqPermission (pm_request_id p) (Some d) u m] ∧
    is_granted d = bool_decide (a_mode (t_app t) = ModePermissionEditInput).
Proof.
  intros Hm Hp. unfold handle_key, is_ctrl. simpl. destruct (a_mode (t_app t)) eqn:E; try done; simpl;
    unfold submit_permission_edit, send_permission; rewrite E, Hp; eexists _, _, _, _; (split; [done|]); (split; [done|]).
  - done.
  - by destruct (pm_deny_interrupt p).
Qed.

(** What the user writes into a permission dialog never reaches the agent:
    an edited input is submitted, but the tool is allowed with the input it
    asked with; a refusal has a fixed message and interrupts the agent, also
    when the user chose a refusal that does not. *)
Theorem written_answer_is_lost (shift : bool) (t : Tui) (p : PendingPermission) (env : Env) (cid sid pid tool : string)
    (cv : Converse) (input : Json) (c : Cells) (ls : list string) (r : Relay) :
  writes_answer (a_mode (t_app t)) = true → a_pending_permission (t_app t) = Some p → cv_session_id cv = Some sid →
  r_sessions r !! sid = Some (mkRelayHandle pid sid) → r_cells r !! pid = Some c →
  c_permissions c !! pm_request_id p = Some (mkPendingPermission input tool) →
  stdins (r_subprocesses r) !! pid = Some (mkStdin ls true) →
  ∃ t' answer, handle_key (mkKey KEnter false shift) t = Some t' ∧ t_sent t' = t_sent t ++ [answer] ∧
    stdin_lines pid (handle_agent_request clock env cid answer cv r).1.2 =
      Some (ls ++ [json_to_string (control_response (pm_request_id p)
                     (if decide (a_mode (t_app t) = ModePermissionEditInput)
                      then json_object [("behavior", JStr "allow"); ("updatedInput", input)]
                      else json_object [("behavior", JStr "deny"); ("message", JStr "User denied permission");
                                        ("interrupt", JBool true)]))]).
Proof.
  intros Hm Hp Hcv Hh Hc Hpend Hst. destruct (submitted_answer shift t p Hm Hp) as (d & u & m & t' & Hk & Hsent & Hg).
  exists t', (ReqPermission (pm_request_id p) (Some d) u m). split_and!; [done..|].
  unfold handle_agent_request. rewrite Hcv.
  destruct (permission_answered sid pid (pm_request_id p) (Some d) input tool c ls r Hh Hc Hpend Hst) as [_ H].
  destruct (handle_permission sid (pm_request_id p) (Some d) r) as [r' res]. simpl in *. rewrite H. do 4 f_equal.
  unfold build_permission_response_json, permission_response. rewrite Hg. by case_decide; case_bool_decide.
Qed.

End Answer.

(** * Witnesses *)

Definition demo_answer_ops : list TuiOp := [demo_request "r1"; press (KChar "y"); press (KChar "y"); demo_request "r2"].

Lemma one_answer_per_request_witness :
  ∃ t', tui_run demo_answer_ops demo_tui = Some t' ∧ answer_count "r1" t' = 1 ∧ answer_count "r1" t' ≤ 1.
Proof.
  eexists. split; [vm_compute; reflexivity|]. split; [reflexivity|].
  apply (one_answer_per_request demo_answer_ops "session-1" "r1" app_new demo_tui); vm_compute; reflexivity.
Defined.

Definition demo_asked : Tui := default demo_tui (tui_run [demo_request "r1"] demo_tui).

Lemma displaced_request_never_answered_witness :
  ∃ t', tui_run [demo_request "r2"; press (KChar "y"); press (KChar "y")] demo_asked = Some t' ∧
    answer_count "r2" t' = 1 ∧ answer_count "r1" t' = 0.
Proof.
  eexists. split; [vm_compute; reflexivity|]. split; [reflexivity|].
  apply (displaced_request_never_answered (demo_request "r2") [press (KChar "y"); press (KChar "y")] "r1" demo_asked);
    vm_compute; try reflexivity. discriminate.
Defined.

Definition demo_editing : Tui :=
  default demo_tui (tui_run [demo_request "req_001"; press KTab; press KBackspace; press (KChar "!")] demo_tui).

Lemma written_answer_is_lost_witness :
  ∃ t' answer, handle_key (mkKey KEnter false false) demo_editing = Some t' ∧ t_sent t' = [answer] ∧
    stdin_lines "p1" (handle_agent_request demo_clock (demo_env "") "alice" answer (mkConverse (Some "s") None)
                        (sv_relay demo_pending)).1.2 =
    Some ["{response:{request_id:'req_001',response:{behavior:'allow',updatedInput:{command:'ls'}},subtype:'success'},type:'control_response'}"].
Proof.
  destruct (written_answer_is_lost demo_clock false demo_editing
    (default (mkPending "" "" "" None "" 0 true) (a_pending_permission (t_app demo_editing))) (demo_env "") "alice" "s" "p1" "Bash"
    (mkConverse (Some "s") None) (JObj [("command", JStr "ls")])
    (default demo_cells (r_cells (sv_relay demo_pending) !! "p1")) [] (sv_relay demo_pending)) as (t' & answer & H1 & H2 & H3);
    [vm_compute; reflexivity..|].
  exists t', answer. split; [exact H1|]. split; [rewrite H2; reflexivity|]. rewrite H3. vm_compute. reflexivity.
Defined.

(** A session that is resumed looks as it did: the client that replays the
    events that the daemon has stored shows what a client that was there
    shows, below the prompt that began the session. *)

Section History.
Context {UA : UnicodeAlphanumeric} {FS : FuzzyScore} {JT : JsonText} {JP : JsonPretty} {JW : JsonWrite} {TE : Terminal}.
Context {DT : DebugText} {PC : ProstCodec} {SO : SqlOrder} (clock : Z → Timestamp).

(** * The client that is there *)







(** * What is shown *)







(** * The simulation *)


Section Simulation.
Context (pre : list DisplayMessage) (Hpre : Forall (λ m, dm_streaming m = false) pre).






















End Simulation.



End History.

(** * Witness *)

