(* ===== verification/TuiSafe.v ===== *)
(** The terminal client does not panic on ASCII: whatever the order of keys,
    events, completions and frames. *)
From stdpp Require Import gmap strings list.
From Stdlib Require Import ZArith Lia.
From S2P Require Import Prelude Utf8 Completion Json Ndjson Commands Multiplexer EventBridge SessionStore Fingerprint SessionRelay AgentService.
From S2P Require Import AppState TuiInput TuiRender TuiCorrect.

(** * ASCII texts *)

Fixpoint ascii_text (s : string) : bool :=
  match s with EmptyString => true | String b s' => (Ascii.nat_of_ascii b <? 128) && ascii_text s' end.

Notation all_ascii := (Forall (λ s, ascii_text s = true)).

Lemma ascii_app (s t : string) : ascii_text (s +:+ t) = ascii_text s && ascii_text t.
Proof. induction s as [|b s IH]; simpl; [done|]. by rewrite IH, andb_assoc. Qed.

Lemma ascii_not_cont (b : Ascii.ascii) : (Ascii.nat_of_ascii b <? 128) = true → is_cont b = false.
Proof. intros H%Nat.ltb_lt. unfold is_cont. cbn zeta. by rewrite (proj2 (Nat.leb_gt 128 _)). Qed.

Lemma ascii_is_text (s : string) : ascii_text s = true → is_text s = true.
Proof.
  destruct s as [|b s]; [done|]. cbn [ascii_text is_text]. intros [H _]%andb_prop. by rewrite ascii_not_cont.
Qed.

Lemma ascii_take_drop (n : nat) (s : string) :
  ascii_text s = true → ascii_text (str_take n s) = true ∧ ascii_text (str_drop n s) = true.
Proof.
  revert n. induction s as [|b s IH]; intros [|n] H; simpl in *; try done. apply andb_prop in H as [Hb H].
  destruct (IH n H) as [-> ->]. by rewrite Hb.
Qed.

Lemma ascii_boundary (n : nat) (s : string) : ascii_text s = true → n ≤ String.length s → is_char_boundary n s = true.
Proof.
  revert n. induction s as [|b s IH]; intros [|n] H Hn; [done|simpl in Hn; lia|..]; cbn [ascii_text] in H; apply andb_prop in H as [Hb H].
  - change (negb (is_cont b) = true). by rewrite ascii_not_cont.
  - apply (IH n H). simpl in Hn. lia.
Qed.

Lemma ascii_chars (s : string) : ascii_text (text_of (tail (chars s))) = true ∨ ascii_text s = false.
Proof.
  destruct (ascii_text s) eqn:E; [left|by right]. rewrite <- (text_of_chars s) in E.
  destruct (chars s) as [|c cs]; simpl in *; [done|]. rewrite ascii_app in E. by apply andb_prop in E as [_ E].
Qed.

Lemma ascii_slice_to (n : nat) (s : string) : ascii_text s = true → n ≤ String.length s → slice_to n s = Some (str_take n s).
Proof. intros H Hn. unfold slice_to. by rewrite ascii_boundary. Qed.

Lemma ascii_slice_from (n : nat) (s : string) : ascii_text s = true → n ≤ String.length s → slice_from n s = Some (str_drop n s).
Proof. intros H Hn. unfold slice_from. by rewrite ascii_boundary. Qed.

Lemma str_drop_length (n : nat) (s : string) : String.length (str_drop n s) = String.length s - n.
Proof. revert n. induction s as [|b s IH]; intros [|n]; simpl; try done. Qed.

(** * Places in a text *)

Lemma indices_bound (cs : list string) (n i : nat) (c : string) :
  (i, c) ∈ indices_from n cs → i + String.length c ≤ n + String.length (text_of cs).
Proof.
  revert n. induction cs as [|d cs IH]; intros n; simpl; [by intros ?%elem_of_nil|]. rewrite string_length_app.
  intros [[= -> ->]|H%IH]%elem_of_cons; lia.
Qed.

Lemma char_index_le (s : string) (i : nat) (c : string) : (i, c) ∈ char_indices s → i + String.length c ≤ String.length s.
Proof. intros H%indices_bound. by rewrite text_of_chars in H. Qed.

Lemma find_le (p : string → bool) (s : string) (i : nat) : find p s = Some i → i ≤ String.length s.
Proof.
  unfold find. intros ([j c] & Hh & ->)%fmap_Some. apply head_Some_elem_of, list_elem_of_filter in Hh as [_ Hh].
  apply char_index_le in Hh. simpl. lia.
Qed.

Lemma token_start_le (s : string) : token_start s ≤ String.length s.
Proof.
  unfold token_start, rfind. destruct (list.last _) as [[i c]|] eqn:E; simpl; [|lia].
  apply last_Some_elem_of, list_elem_of_filter in E as [_ E]. apply char_index_le in E.
  assert (default 0 (String.length <$> head (chars (str_drop i s))) ≤ String.length (str_drop i s)) as Hl.
  { rewrite <- (text_of_chars (str_drop i s)) at 2. destruct (chars (str_drop i s)); simpl; [lia|]. rewrite string_length_app. lia. }
  rewrite str_drop_length in Hl. lia.
Qed.

Section Safe.
Context {UA : UnicodeAlphanumeric} {FS : FuzzyScore} {JT : JsonText} {JP : JsonPretty} {JW : JsonWrite} {TE : Terminal}.

(** * The invariant *)

(** The first eight bytes of a session's id can be taken. *)
Definition short_id (sid : string) : Prop := is_Some (slice_to (Nat.min 8 (String.length sid)) sid).

Definition dialog_ok (p : PendingPermission) : Prop :=
  is_Some (permission_lines p) ∧ ∃ z, represents z (pm_edit_buffer p) (pm_edit_cursor p).

Record good (a : App) : Prop := {
  gd_input : ascii_text (a_input a) = true;
  gd_cursor : a_cursor_pos a ≤ String.length (a_input a);
  gd_history : all_ascii (a_input_history a);
  gd_index : ∀ i, a_history_index a = Some i → i < length (a_input_history a);
  gd_items : all_ascii (items (a_completion_state a));
  gd_offset : popup_offset (a_completion_state a) ≤ length (items (a_completion_state a)) ∧
              selected_index (a_completion_state a) ≤ length (items (a_completion_state a));
  gd_ghost : ∀ g, ghost_text (a_completion_state a) = Some g → ascii_text g = true;
  gd_cache : Forall (λ c, ascii_text (cc_name c) = true) (a_command_cache a);
  gd_session : ∀ sid, a_session_id a = Some sid → short_id sid;
  gd_dialog : ∀ p, a_pending_permission a = Some p → dialog_ok p;
  gd_fingerprint : ∀ p, a_pending_fingerprint a = Some p → is_Some (fingerprint_lines p)
}.

(** What the invariant is about. *)
Definition core (a : App) :=
  (a_input a, a_cursor_pos a, a_input_history a, a_history_index a, a_completion_state a, a_command_cache a, a_session_id a,
   a_pending_permission a, a_pending_fingerprint a).

Lemma good_core (a a' : App) : core a' = core a → good a → good a'.
Proof. destruct a, a'. intros E []. unfold core in E. simplify_eq/=. by split. Qed.

Lemma good_completion (c : CompletionState) (a : App) :
  all_ascii (items c) → popup_offset c ≤ length (items c) ∧ selected_index c ≤ length (items c) → (∀ g, ghost_text c = Some g → ascii_text g = true) → good a →
  good (with_completion_state c a).
Proof. intros ? ? ? []. by split. Qed.

Lemma good_line (s : string) (n : nat) (a : App) :
  ascii_text s = true → n ≤ String.length s → good a → good (with_input s n a).
Proof. intros ? ? []. by split. Qed.

Lemma good_dialog (m : AppMode) (p : option PendingPermission) (a : App) :
  (∀ q, p = Some q → dialog_ok q) → good a → good (with_permission m p a).
Proof. intros ? []. by split. Qed.

(** * Completion *)

Lemma detect_trigger_total (a : App) : good a → is_Some (detect_trigger (a_input a) (a_cursor_pos a)).
Proof.
  intros [H1 H2 _ _ _ _ _ _ _ _ _]. unfold detect_trigger. rewrite ascii_slice_to by (done || lia). case_match; by eexists.
Qed.

Lemma search_cached (query : string) (n : nat) (cache : CommandCache) (P : CachedCommand → Prop) :
  Forall P cache → Forall P (cache_search query n cache).
Proof.
  intros H. unfold cache_search. case_decide; [by apply Forall_take|]. apply Forall_forall.
  intros c (name & _ & Hf)%list_elem_of_omap. unfold find_by_name in Hf.
  apply head_Some_elem_of, list_elem_of_filter in Hf as [_ Hf]. by eapply Forall_forall in H.
Qed.

Lemma head_ascii (l : list string) (g : string) : all_ascii l → head l = Some g → ascii_text g = true.
Proof. intros H Hg. apply head_Some_elem_of in Hg. by eapply Forall_forall in H. Qed.

Lemma update_good (a : App) : good a → ∃ a', update_completion_state a = Some a' ∧ good a'.
Proof.
  intros H. unfold update_completion_state. destruct (detect_trigger_total a H) as [trigger ->]. simpl. eexists. split; [done|].
  assert (∀ kind query, good (fetch_completion kind query a)) as Hf.
  { intros kind query. pose proof H as [? ? ? ? Hi Ho ? ? ? ? ?]. apply good_completion; simpl; [done..| |by apply (good_core a)].
    intros g. by apply head_ascii. }
  destruct trigger as [[query|query forced|query|cmd]|]; [|apply Hf..| |].
  - set (found := cc_name <$> cache_search query 50 (a_command_cache a)).
    assert (all_ascii found) as Ha by (apply Forall_fmap, search_cached; apply H).
    apply good_completion; simpl; [done|split; lia| |done]. intros g. by apply head_ascii.
  - destruct H. by apply good_completion.
  - by apply good_completion; simpl; [|split; lia|..].
Qed.

(** * Keys *)

Definition safe (t : option Tui) : Prop := ∃ t', t = Some t' ∧ good (t_app t').

Lemma safe_some (t : Tui) : good (t_app t) → safe (Some t).
Proof. intros H. by exists t. Qed.

Lemma safe_in_app (f : App → App) (t : Tui) : good (f (t_app t)) → safe (Some (in_app f t)).
Proof. intros H. by apply (safe_some (in_app f t)). Qed.

Lemma safe_opt (f : App → option App) (t : Tui) : (∃ a', f (t_app t) = Some a' ∧ good a') → safe (in_app_opt f t).
Proof. intros (a' & H & Hg). unfold in_app_opt. rewrite H. by eexists. Qed.

(** The state changes only where the invariant says nothing. *)
Ltac same_core := match goal with H : good ?a |- good _ => apply (good_core a); [reflexivity|exact H] end.

Lemma floor_boundary_id (n : nat) (s : string) : is_char_boundary n s = true → floor_boundary n s = n.
Proof. intros H. destruct n; simpl; [done|]. by rewrite H. Qed.

Lemma replace_good (text : string) (a : App) :
  ascii_text text = true → good a → ∃ a', replace_token text a = Some a' ∧ good a'.
Proof.
  intros Ht H. pose proof H as [H1 H2 _ _ _ _ _ _ _ _ _]. unfold replace_token. cbn zeta.
  rewrite Nat.min_l, floor_boundary_id by (done || by apply ascii_boundary).
  set (s := a_input a) in *. set (pos := a_cursor_pos a) in *.
  pose proof (token_start_le (str_take pos s)) as Hs. rewrite str_take_length in Hs by done.
  set (start := token_start (str_take pos s)) in *. clearbody start.
  set (stop := match find is_whitespace (str_drop pos s) with None => _ | Some i => _ end).
  assert (pos ≤ stop ≤ String.length s) as Hstop.
  { subst stop. destruct (find is_whitespace (str_drop pos s)) as [i|] eqn:E; [|lia].
    apply find_le in E. rewrite str_drop_length in E. lia. }
  clearbody stop. unfold replace_range. rewrite (proj2 (Nat.leb_le start stop)), !ascii_boundary by (done || lia). simpl.
  eexists. split; [done|]. apply good_line; [| |done].
  - by rewrite !ascii_app, Ht, (proj1 (ascii_take_drop start s H1)), (proj2 (ascii_take_drop stop s H1)).
  - rewrite !string_length_app, str_take_length by lia. lia.
Qed.

Lemma accept_good (text : string) (a : App) :
  ascii_text text = true → good a → ∃ a', accept_completion text a = Some a' ∧ good a'.
Proof.
  intros Ht H. unfold accept_completion. destruct (detect_trigger_total a H) as [trigger ->]. cbn [mbind option_bind].
  match goal with |- context [replace_token ?r a] => destruct (replace_good r a) as (a1 & -> & H1) end; [|done|by apply update_good].
  destruct trigger as [[query|query []|query|cmd]|]; rewrite !ascii_app, Ht; done.
Qed.

Lemma type_good (c : string) (a : App) : is_ascii_char c = true → good a → ∃ a', type_char c a = Some a' ∧ good a'.
Proof.
  intros Hc H. pose proof H as [H1 H2 _ _ _ _ _ _ _ _ _]. unfold type_char, str_insert. rewrite ascii_boundary by done. simpl.
  destruct c as [|b [|]]; [done| |done]. apply update_good, good_line; [| |done].
  - rewrite !ascii_app. destruct (ascii_take_drop (a_cursor_pos a) (a_input a) H1) as [-> ->]. simpl in *. by rewrite Hc.
  - rewrite !string_length_app, str_take_length, str_drop_length by done. simpl. lia.
Qed.

Lemma backspace_good (a : App) : good a → ∃ a', backspace a = Some a' ∧ good a'.
Proof.
  intros H. pose proof H as [H1 H2 _ _ _ _ _ _ _ _ _]. unfold backspace. destruct (a_cursor_pos a) as [|p]; [by apply update_good|].
  unfold str_remove. rewrite ascii_boundary by (done || lia). pose proof (str_drop_length p (a_input a)) as Hl.
  destruct (ascii_take_drop p (a_input a) H1) as [Ht Hd].
  destruct (ascii_chars (str_drop p (a_input a))) as [Hr|Hr]; [|congruence].
  destruct (chars (str_drop p (a_input a))) as [|c rest] eqn:E.
  - rewrite <- (text_of_chars (str_drop p (a_input a))), E in Hl. simpl in Hl. lia.
  - simpl in Hr |- *. apply update_good, good_line; [| |done].
    + by rewrite ascii_app, Ht.
    + rewrite string_length_app, str_take_length by lia. lia.
Qed.

Lemma recall_good (i : nat) (a : App) : i < length (a_input_history a) → good a → ∃ a', recall i a = Some a' ∧ good a'.
Proof.
  intros Hi H. unfold recall. destruct (lookup_lt_is_Some_2 _ _ Hi) as [line E]. rewrite E. simpl. eexists. split; [done|].
  pose proof H as [H1 H2 H3 H4 H5 H6 H7 H8 H9 H10 H11]. apply good_line; [by eapply Forall_lookup_1 in H3|done|].
  split; simpl; try done. by intros ? [= <-].
Qed.

Lemma history_good (a : App) :
  good a → (∃ a', history_up a = Some a' ∧ good a') ∧ ∃ a', history_down a = Some a' ∧ good a'.
Proof.
  intros H. pose proof H as [H1 H2 H3 H4 H5 H6 H7 H8 H9 H10 H11]. split.
  - unfold history_up. case_decide as He; [by eexists|]. apply recall_good; [|done].
    destruct (a_input_history a); [done|]. destruct (a_history_index a); simpl; lia.
  - unfold history_down. destruct (a_history_index a) as [[|i]|] eqn:E; [| |by eexists].
    + eexists. split; [done|]. apply good_line; [done..|]. by split.
    + apply recall_good; [|done]. specialize (H4 _ eq_refl). lia.
Qed.

Lemma command_good (trimmed body : string) (t : Tui) : good (t_app t) → good (t_app (run_command trimmed body t)).
Proof. intros H. unfold run_command. destruct (split_once_ws _ _). repeat case_match; same_core. Qed.

Lemma submit_good (t : Tui) : good (t_app t) → good (t_app (submit_line t)).
Proof.
  intros H. unfold submit_line, submit_input. case_decide; [done|].
  match goal with |- context [mkTui ?x (t_sent t)] => set (a := x) end.
  assert (good a) as Ha.
  { pose proof H as [H1 H2 H3 H4 H5 H6 H7 H8 H9 H10 H11]. split; simpl; try done. constructor; [done|]. by apply Forall_take. }
  clearbody a. case_decide; [same_core|]. destruct (strip_prefix _ _); [|same_core].
  eapply good_core; [|apply (command_good (trim (a_input (t_app t))) s (mkTui a (t_sent t))), Ha]. done.
Qed.

(** A key that types an ASCII character, if any. *)
Definition ascii_key (code : KeyCode) : Prop := match code with KChar c => is_ascii_char c = true | _ => True end.

Lemma edit_key_good (key : KeyEvent) (t : Tui) : ascii_key (ke_code key) → good (t_app t) → safe (edit_key key t).
Proof.
  intros Hk H. assert (safe (Some t)) as Hn by by apply safe_some.
  destruct key as [code ctrl shift]. unfold edit_key. cbn [ke_code ke_ctrl ke_shift] in *.
  destruct code; try done.
  - by apply safe_opt, type_good.
  - by apply safe_some, submit_good.
  - by apply safe_opt, backspace_good.
  - repeat case_match; try (apply safe_in_app; unfold select_prev_tool; try case_decide; same_core). by apply safe_opt, history_good.
  - repeat case_match; try (apply safe_in_app; unfold select_next_tool; try case_decide; same_core). by apply safe_opt, history_good.
  - apply safe_in_app, good_line; [apply H| |done]. pose proof (gd_cursor _ H). lia.
  - apply safe_in_app, good_line; [apply H|lia|done].
  - apply safe_in_app. case_match; same_core.
  - apply safe_in_app. case_match; same_core.
  - case_match; [apply safe_in_app; same_core|done].
Qed.

Lemma select_good (i : nat) (a : App) : i < length (items (a_completion_state a)) → good a → good (select_item i a).
Proof.
  intros Hi H. pose proof H as [H1 H2 H3 H4 H5 H6 H7 H8 H9 H10 H11]. apply good_completion; cbn; [done| | |done].
  - unfold COMPLETION_VISIBLE_COUNT. repeat case_match; simpl; lia.
  - intros g Hg. by eapply Forall_lookup_1 in H5.
Qed.

Lemma completion_key_good (code : KeyCode) (a : App) :
  good a → good (handle_completion_key code a).1 ∧
    ∀ text, (handle_completion_key code a).2 = ActionAccept text → ascii_text text = true.
Proof.
  intros H. pose proof H as [H1 H2 H3 H4 H5 H6 H7 H8 H9 H10 H11].
  assert (∀ b, good (set_popup b a)) as Hp by by intros b; apply good_completion.
  unfold handle_completion_key. destruct code, (popup_visible (a_completion_state a)); try (by split); cbn [fst snd].
  - split; [apply Hp|]. intros text. case_decide; [done|]. intros [= <-].
    destruct (items _ !! _) as [text|] eqn:E; [|done]. by eapply Forall_lookup_1 in H5.
  - split; [|done]. case_decide as He; [done|]. apply select_good; [|done].
    destruct (items (a_completion_state a)); [done|]. case_decide; simpl in *; lia.
  - split; [|done]. case_decide as He; [done|]. apply select_good; [|done].
    apply Nat.mod_upper_bound. by destruct (items (a_completion_state a)).
Qed.

Lemma input_key_good (key : KeyEvent) (t : Tui) : ascii_key (ke_code key) → good (t_app t) → safe (handle_input_key key t).
Proof.
  intros Hk H. unfold handle_input_key. destruct (completion_key_good (ke_code key) (t_app t) H) as [Ha Ht].
  destruct (handle_completion_key _ _) as [a [|text|]]; cbn [fst snd] in *.
  - by apply edit_key_good.
  - apply safe_opt, accept_good; [by apply Ht|done].
  - by apply safe_some.
Qed.

(** * Dialogs *)

Lemma represents_end (s : string) : is_text s = true → represents (mkZipper (chars s) []) s (String.length s).
Proof. intros H. split; simpl; rewrite ?app_nil_r, ?text_of_chars; [done..|]. by apply chars_are_chars. Qed.

(** The text is written anew. *)
Lemma rewritten_ok (s : string) (b : bool) (p : PendingPermission) :
  is_text s = true → dialog_ok p → dialog_ok (set_edit s (String.length s) p) ∧ dialog_ok (set_deny b (set_edit s (String.length s) p)).
Proof. intros Hs [H _]. split; (split; [done|]); eexists; by apply represents_end. Qed.

Lemma answer_good (d : PermissionDecision) (u : option (list (string * ProstValue))) (m : string) (t : Tui) :
  good (t_app t) → good (t_app (send_permission d u m t)).
Proof. intros H. unfold send_permission. destruct (a_pending_permission (t_app t)); by apply good_dialog. Qed.

Lemma permission_key_good (code : KeyCode) (t : Tui) : good (t_app t) → good (t_app (handle_permission_key code t)).
Proof.
  intros H. pose proof (gd_dialog _ H) as Hd.
  assert (good (start_permission_edit (t_app t))) as He.
  { apply good_dialog; [|done]. intros q (p & Hp & ->)%fmap_Some. apply rewritten_ok; [|by apply Hd].
    destruct (pm_original_input p); [apply json_pretty_text|done]. }
  assert (∀ m b, good (start_permission_text m b (t_app t))) as Ht.
  { intros m b. apply good_dialog; [|done]. intros q (p & Hp & ->)%fmap_Some. by apply (rewritten_ok EmptyString b p), Hd. }
  unfold handle_permission_key.
  destruct code; repeat case_match; first [done|by apply answer_good|exact He|apply Ht].
Qed.

Lemma permission_edit_good (code : KeyCode) (t : Tui) :
  types_char code → good (t_app t) → safe (handle_permission_edit_key code t).
Proof.
  intros Hc H. assert (code = KEnter ∨ code = KEsc ∨ code ≠ KEnter ∧ code ≠ KEsc) as [->|[->|[H1 H2]]] by (destruct code; auto).
  - apply safe_some. unfold submit_permission_edit. repeat case_match; try done; try (by apply answer_good).
  - apply safe_in_app, good_dialog; [apply H|done].
  - destruct (a_pending_permission (t_app t)) as [p|] eqn:E.
    + destruct (gd_dialog _ H p E) as [Hl [z Hz]]. destruct (edit_key_zip code z _ _ Hc Hz) as (s & n & He & Hz').
      assert (handle_permission_edit_key code t =
              Some (in_app (with_permission (a_mode (t_app t)) (Some (set_edit s n p))) t)) as ->
        by (unfold handle_permission_edit_key; rewrite E, He; by destruct code).
      apply safe_in_app, good_dialog; [|done]. intros q [= <-]. split; [done|]. by eexists.
    + assert (handle_permission_edit_key code t = Some t) as ->
        by (unfold handle_permission_edit_key; rewrite E; by destruct code).
      by apply safe_some.
Qed.

Lemma question_key_good (code : KeyCode) (t : Tui) : good (t_app t) → good (t_app (handle_question_key code t)).
Proof.
  intros H. eapply good_core; [|exact H].
  assert (∀ i a, core (select_question_option i a) = core a) as Hs
    by (intros; unfold select_question_option; repeat case_match; done).
  assert (∀ d a, core (move_question_highlight d a) = core a) as Hm
    by (intros; unfold move_question_highlight; repeat case_match; done).
  unfold handle_question_key, submit_question. destruct code; try done; try (by apply Hm); repeat case_match; try done; by apply Hs.
Qed.

Lemma fingerprint_key_good (code : KeyCode) (a : App) : good a → good (handle_fingerprint_key code a).
Proof.
  intros H. pose proof (gd_fingerprint _ H) as Hf.
  assert (∀ m f, (∀ p, f = Some p → is_Some (fingerprint_lines p)) → good (with_fingerprint m f a)) as Hw
    by (intros m f Hp; destruct H; by split).
  assert (∀ d, good (with_should_quit true (with_fingerprint (a_mode a)
    ((λ p, mkPrompt (fp_machine_id p) (fp_daemon_fingerprint p) (fp_randomart p) (fp_fingerprint_display p) (fp_check p) (Some d)) <$>
       a_pending_fingerprint a) a))) as Hr.
  { intros d. eapply good_core; [|apply Hw]; [reflexivity|]. intros q (p & Hp & ->)%fmap_Some. by apply Hf in Hp. }
  unfold handle_fingerprint_key. repeat case_match; by try apply Hw.
Qed.

Lemma ascii_types (code : KeyCode) : ascii_key code → types_char code.
Proof.
  destruct code as [c| | | | | | | | | | | |]; try done. simpl. destruct c as [|b [|]]; [done| |done]. simpl. intros H.
  change (negb (is_cont b) && true = true). by rewrite ascii_not_cont.
Qed.

Definition ascii_term (event : TermEvent) : Prop := match event with TermKey key => ascii_key (ke_code key) | _ => True end.

Lemma term_good (event : TermEvent) (t : Tui) : ascii_term event → good (t_app t) → safe (handle_term_event event t).
Proof.
  intros Hk H. destruct event as [key|[]|]; simpl in *; try (apply safe_some; done);
    try (apply safe_in_app; case_match; same_core).
  unfold handle_key. repeat case_match; try (apply safe_in_app; same_core).
  all: try (by apply input_key_good); try (by apply safe_some, permission_key_good).
  all: try (by apply permission_edit_good; [apply ascii_types|]); try (by apply safe_some, question_key_good).
  by apply safe_in_app, fingerprint_key_good.
Qed.

(** * Events *)

(** What an event must not have for the client to show it. *)
Definition event_ok (e : AgentEvent EventBody) : Prop :=
  match eb_event (ev_payload e) with
  | Some (EvToolCallResult _ output _ _) => is_Some (output_preview output)
  | Some (EvPermissionRequest _ _ _ (Some input)) => is_Some (permission_preview (struct_to_json input))
  | Some (EvSessionInfo info) => short_id (info_session_id info)
  | _ => True
  end.

Lemma finished_good (id output : string) (is_error : bool) (duration : Z) (at_ : option Z) (label : option string) (a : App) :
  is_Some (output_preview output) → good a →
  ∃ a', tool_finished id output is_error duration at_ label a = Some a' ∧ good a'.
Proof. intros [p Hp] H. unfold tool_finished. rewrite Hp. eexists. split; [done|]. same_core. Qed.

Lemma session_good (sid : string) (a : App) : short_id sid → good a → good (with_session_id (Some sid) a).
Proof. intros Hs []. split; try done. by intros ? [= <-]. Qed.

Lemma event_good (now : Z) (e : AgentEvent EventBody) (a : App) : event_ok e → good a → ∃ a', handle_event now e a = Some a' ∧ good a'.
Proof.
  unfold event_ok, handle_event. intros He H. destruct (eb_event (ev_payload e)) as [[]|]; try (by eexists).
  - case_decide; [by eexists|]. eexists. split; [done|]. repeat case_match; same_core.
  - eexists. split; [done|]. same_core.
  - by apply finished_good.
  - eexists. split; [done|]. apply good_dialog; [|done]. intros p [= <-]. split.
    + unfold permission_lines. cbn [pm_original_input]. destruct input as [i|]; cbn [fmap option_fmap option_map]; [destruct He as [s ->]|]; by eexists.
    + by exists (mkZipper [] []).
  - eexists. split; [done|]. same_core.
  - eexists. split; [done|]. repeat case_match; same_core.
  - eexists. split; [done|]. apply (session_good _ _ He) in H. same_core.
  - eexists. split; [done|]. same_core.
  - eexists. split; [done|]. unfold execute_pending_client_command. repeat case_match; same_core.
  - eexists. split; [done|]. repeat case_match; same_core.
Qed.

Lemma stored_good (e : AgentEvent EventBody) (a : App) : event_ok e → good a → ∃ a', load_history_event e a = Some a' ∧ good a'.
Proof.
  unfold event_ok, load_history_event. intros He H. destruct (eb_event (ev_payload e)) as [[]|]; try (by eexists).
  - case_decide; [by eexists|]. eexists. split; [done|]. repeat case_match; same_core.
  - eexists. split; [done|]. same_core.
  - by apply finished_good.
  - eexists. split; [done|]. apply (session_good _ _ He) in H. same_core.
  - eexists. split; [done|]. same_core.
  - eexists. split; [done|]. same_core.
  - eexists. split; [done|]. same_core.
Qed.

(** * Frames *)

Lemma ghost_total (typed ghost : string) : ascii_text ghost = true → is_Some (ghost_suffix typed ghost).
Proof.
  intros H. unfold ghost_suffix. case_match; [by eexists|]. destruct (String.length ghost <=? String.length typed) eqn:E; [by eexists|].
  apply Nat.leb_gt in E. rewrite ascii_slice_to by (done || lia). case_match; by eexists.
Qed.

Lemma input_line_total (a : App) : good a → is_Some (input_line a).
Proof.
  intros H. pose proof H as [H1 H2 _ _ _ _ H7 _ _ _ _]. unfold input_line. destruct (ghost_text _) as [g|]; [|by eexists].
  destruct (detect_trigger_total a H) as [trigger ->]. cbn [mbind option_bind]. rewrite Nat.min_l by done.
  assert (is_Some (if decide (a_cursor_pos a = String.length (a_input a)) then Some EmptyString
                   else slice_from (a_cursor_pos a) (a_input a))) as [after ->].
  { case_decide; [by eexists|]. rewrite ascii_slice_from by done. by eexists. }
  cbn [mbind option_bind]. case_match; [|by eexists].
  match goal with |- context [match ?q with Some typed => ghost_suffix typed g | None => _ end] =>
    assert (is_Some (match q with Some typed => ghost_suffix typed g | None => Some None end)) as [suffix ->] end.
  { assert (ascii_text g = true) as Hg by by apply H7. repeat case_match; try (by apply ghost_total); by exists None. }
  cbn [mbind option_bind]. destruct suffix; [|by eexists]. rewrite ascii_slice_to by done. by eexists.
Qed.

Lemma panel_total (areas : Areas) (a : App) : good a → is_Some (draw_panel areas a).
Proof.
  intros H. pose proof H as [H1 _ _ _ _ _ _ _ _ H10 H11]. unfold draw_panel. destruct (bottom_panel_mode a).
  - destruct (input_line_total a H) as [line ->]. cbn [mbind option_bind].
    destruct (wrapped_cursor_total (a_input a) (a_cursor_pos a) (sat_sub16 (ar_panel_width areas) 4)) as [c ->];
      [by apply ascii_is_text|by eexists].
  - destruct (a_pending_permission a) as [p|]; [|by eexists]. destruct (H10 p eq_refl) as [[ls ->] _]. by eexists.
  - destruct (a_pending_permission a) as [p|]; [|by eexists]. destruct (H10 p eq_refl) as [_ [z [Hz _ Hc]]].
    destruct (wrapped_cursor_total (pm_edit_buffer p) (pm_edit_cursor p) (sat_sub16 (ar_panel_width areas) 2)) as [c ->];
      [|by eexists]. rewrite Hz. by apply is_text_text_of.
  - by eexists.
  - destruct (a_pending_fingerprint a) as [p|]; [|by eexists]. destruct (H11 p eq_refl) as [ls ->]. by eexists.
Qed.

Lemma height_total (w h : Z) (a : App) : good a → is_Some (bottom_height w h a).
Proof.
  intros H. unfold bottom_height. destruct (bottom_panel_mode a); try (by eexists). case_decide; [by eexists|].
  destruct (wrapped_cursor_total (a_input a) (String.length (a_input a)) (sat_sub16 w 4)) as [c ->];
    [by apply ascii_is_text, H|by eexists].
Qed.

Lemma draw_good (areas : Areas) (a : App) : good a → ∃ a' frame, draw areas a = Some (a', frame) ∧ good a'.
Proof.
  intros H. unfold draw. destruct (height_total (ar_width areas) (ar_height areas) a H) as [h ->]. cbn [mbind option_bind].
  assert (is_Some (header_text a)) as [header ->].
  { unfold header_text. destruct (a_session_id a) as [sid|] eqn:E; [|by eexists]. destruct (gd_session _ H sid E) as [s ->]. by eexists. }
  cbn [mbind option_bind]. destruct (draw_messages areas a) as [a1 shown] eqn:Ed.
  assert (good a1) as H1.
  { unfold draw_messages in Ed. destruct (compute_detail_split _). case_decide; simplify_eq; [done|same_core]. }
  destruct (panel_total areas a1 H1) as [panel ->]. cbn [mbind option_bind].
  assert (is_Some (popup_window (a_completion_state a1))) as [window Hw].
  { unfold popup_window. rewrite decide_True; [by eexists|]. destruct (gd_offset _ H1). lia. }
  rewrite Hw. case_match; by eexists _, _.
Qed.

(** * Runs *)

Definition op_ok (op : TuiOp) : Prop :=
  match op with
  | TTerm event => ascii_term event
  | TRegistry commands => Forall (λ c, ascii_text (cc_name c) = true) commands
  | TCompletion found => all_ascii found
  | TEvent _ e => event_ok e
  | _ => True
  end.

Lemma step_good (op : TuiOp) (t : Tui) : op_ok op → good (t_app t) → safe (tui_step op t).
Proof.
  intros Ho H. destruct op as [event|cs|found| | |line|now e|message|areas]; simpl in Ho; cbn [tui_step].
  - by apply term_good.
  - apply safe_in_app. destruct H. by split.
  - apply safe_in_app, good_completion; simpl; [done|split; lia| |done]. intros g. by apply head_ascii.
  - apply safe_in_app. same_core.
  - apply safe_in_app. same_core.
  - apply safe_in_app. same_core.
  - by apply safe_opt, event_good.
  - apply safe_in_app. same_core.
  - apply safe_opt. destruct (draw_good areas (with_spinner_tick (wrap_u64 (a_spinner_tick (t_app t) + 1)) (t_app t))) as (a' & f & E & Ha);
      [same_core|]. rewrite E. by eexists.
Qed.

Lemma run_good (ops : list TuiOp) (t : Tui) : Forall op_ok ops → good (t_app t) → safe (tui_run ops t).
Proof.
  intros Hall. revert t. induction Hall as [|op ops Ho _ IH]; intros t H; [by apply safe_some|]. simpl.
  destruct (step_good op t Ho H) as (t1 & -> & H1). simpl. case_match; [by apply safe_some|by apply IH].
Qed.

Lemma history_load_good (events : list (AgentEvent EventBody)) (a : App) :
  Forall event_ok events → good a → ∃ a', load_history events a = Some a' ∧ good a'.
Proof.
  intros Hall H. assert (∃ a', foldl (λ acc e, acc ≫= load_history_event e) (Some a) events = Some a' ∧ good a') as (a' & E & Ha).
  { revert a H. induction Hall as [|e events He _ IH]; intros a H; [by eexists|]. simpl.
    destruct (stored_good e a He H) as (a1 & -> & H1). by apply IH. }
  unfold load_history. rewrite E. cbn [mbind option_bind]. eexists. split; [done|]. case_decide; same_core.
Qed.

(** C12: The client never panics when what is typed and completed is ASCII and no
    text that it shortens is cut inside a character: it replays the history,
    starts, and takes any sequence of keys, events, completions, command
    output and frames. *)
Theorem ascii_client_never_panics (events : list (AgentEvent EventBody)) (sid : string) (ops : list TuiOp) :
  Forall event_ok events → short_id sid → Forall op_ok ops →
  ∃ a t t', load_history events app_new = Some a ∧ tui_new sid a = Some t ∧ tui_run ops t = Some t'.
Proof.
  intros He [s Hs] Ho. destruct (history_load_good events app_new He) as (a & Ha & Hg); [by split|].
  exists a. unfold tui_new, connected_status. rewrite Hs. simpl. eexists.
  destruct (run_good ops (mkTui (with_service_command_tx (Some []) (with_completion_request_tx (Some [])
    (with_status ("Connected | Session: " +:+ s) a))) []) Ho) as (t' & Hr & _); [same_core|]. by exists t'.
Qed.

End Safe.

(** * Witness *)

Definition demo_safe_ops : list TuiOp :=
  [press (KChar "/"); TCompletion ["help"; "exit"]; press KDown; TDraw (mkAreas 80 24 80 10 80 (Some "/w")); press KEnter; demo_request "r1";
   TDraw (mkAreas 80 24 80 10 80 (Some "/w")); press KTab; press KBackspace; TDraw (mkAreas 80 24 80 10 80 (Some "/w")); press KEnter].

Lemma ascii_client_never_panics_witness :
  ∃ a t t', load_history [demo_event (EvUserInput "hi")] app_new = Some a ∧ tui_new "session-1" a = Some t ∧
    tui_run demo_safe_ops t = Some t'.
Proof.
  apply (ascii_client_never_panics [demo_event (EvUserInput "hi")] "session-1" demo_safe_ops).
  - by repeat constructor.
  - by eexists.
  - repeat constructor. by eexists.
Defined.
