(* ===== verification/Headless.v ===== *)
(** The client without a terminal: one prompt, the answer on the standard
    output.

    Models crates/betcode-cli/src/headless.rs on [ClientConnection].  What is
    printed is a list of texts with the stream they go to; what the daemon
    answers, and whether the channel to it still takes a request, are
    arguments. *)
From stdpp Require Import gmap strings list pretty.
From Stdlib Require Import ZArith Lia.
From S2P Require Import Prelude Protocol Multiplexer EventBridge CryptoSession Fingerprint Encodings SessionRelay AgentService.
From S2P Require Import AgentProtocol TunnelHandler ClientConnection EventCodec EndToEnd Utf8 TuiRender.

Record HeadlessConfig := mkHeadlessConfig {
  hc_prompt : string;
  hc_session_id : option string;
  hc_working_directory : string;
  hc_model : option string;
  hc_auto_accept : bool
}.

Inductive HeadlessError :=
| HeadlessConnection (e : ConnectionError)
| HeadlessStreamClosed
| HeadlessStreamError (e : string)
| HeadlessFatal (message : string).

(** [print!], [eprint!] and [eprintln!] *)
Inductive Printed := OnStdout (s : string) | OnStderr (s : string) | StderrLine (s : string).

Record Headless := mkHeadless {
  hd_sent : list Request;
  hd_printed : list Printed
}.

Definition print (p : list Printed) (h : Headless) : Headless := mkHeadless (hd_sent h) (hd_printed h ++ p).

(** A stored event. *)
Definition print_history_event (e : AgentEvent EventBody) : list Printed :=
  match eb_event (ev_payload e) with
  | Some (EvTextDelta text is_complete) =>
      if decide (text = EmptyString) then [] else OnStderr text :: (if is_complete : bool then [StderrLine EmptyString] else [])
  | Some (EvToolCallStart _ name _ description) =>
      [StderrLine (if decide (description = EmptyString) then "[Tool: " +:+ name +:+ "]"
                   else "[Tool: " +:+ name +:+ " - " +:+ description +:+ "]")]
  | Some (EvToolCallResult _ output true _) => [StderrLine ("[Tool Error: " +:+ output +:+ "]")]
  | Some (EvUserInput content) => [StderrLine ("You: " +:+ content)]
  | Some (EvError err) => [StderrLine ("[Error: " +:+ err_code err +:+ " - " +:+ err_message err +:+ "]")]
  | _ => []
  end.

(** The text of an error. *)
Definition connection_error_text (e : ConnectionError) : string :=
  match e with
  | InvalidAddress t => "Invalid address: " +:+ t
  | ConnectFailed t => "Connection failed: " +:+ t
  | NotConnected => "Not connected to daemon"
  | RpcCallFailed t => "RPC call failed: " +:+ t
  | KeyExchangeRequired => "Key exchange required: relay connections require E2E encryption"
  | FingerprintRejected => "Fingerprint rejected: daemon fingerprint mismatch"
  | FingerprintMismatch expected actual =>
      "Daemon fingerprint mismatch! Expected: " +:+ expected +:+ ", Actual: " +:+ actual +:+ ". Possible MITM attack."
  end.

Section Headless.
Context {PC : ProstCodec} {PR : Primitives} {SH : Sha256} {AP : AgentProtocol} {TE : Terminal}.
(** Whether the channel takes the [n]-th request. *)
Context (open : nat → bool).

Definition headless_send (r : Request) (h : Headless) : Headless * result HeadlessError unit :=
  if open (length (hd_sent h)) then (mkHeadless (hd_sent h ++ [r]) (hd_printed h), Ok tt) else (h, Err HeadlessStreamClosed).

(** An event of the answer; [true] ends the run. *)
Definition process_headless_event (auto_accept : bool) (e : AgentEvent EventBody) (h : Headless)
  : Headless * result HeadlessError bool :=
  match eb_event (ev_payload e) with
  | Some (EvTextDelta text _) => (print [OnStdout text] h, Ok false)
  | Some (EvToolCallStart _ name _ description) =>
      (print [StderrLine ("[Tool: " +:+ name +:+ " - " +:+ description +:+ "]")] h, Ok false)
  | Some (EvToolCallResult _ output is_error _) =>
      (if is_error : bool then print [StderrLine ("[Tool Error: " +:+ output +:+ "]")] h else h, Ok false)
  | Some (EvPermissionRequest id name description _) =>
      let what := name +:+ " - " +:+ description +:+ "]" in
      let h1 := print [StderrLine (if auto_accept then "[Auto-accepting: " +:+ what
                                   else "[Permission denied (use --yes to auto-accept): " +:+ what)] h in
      match headless_send (ReqPermission id (Some (if auto_accept then AllowOnce else Deny)) None EmptyString) h1 with
      | (h2, Ok _) => (h2, Ok false)
      | (h2, Err x) => (h2, Err x)
      end
  | Some (EvError err) =>
      (print [StderrLine ("[Error: " +:+ err_code err +:+ " - " +:+ err_message err +:+ "]")] h,
       if err_is_fatal err then Err (HeadlessFatal (err_message err)) else Ok false)
  | Some (EvTurnComplete _) => (print [StderrLine EmptyString] h, Ok true)
  | Some (EvUsage u) =>
      (print [StderrLine ("[Tokens: " +:+ pretty (ur_input_tokens u) +:+ "in/" +:+ pretty (ur_output_tokens u) +:+ "out | $" +:+
                          fmt_f64 4 (ur_cost_usd u) +:+ "]")] h, Ok false)
  | _ => (h, Ok false)
  end.

(** The events until the turn is complete, or the stream ends. *)
Fixpoint headless_loop (auto_accept : bool) (items : list (result string (AgentEvent EventBody))) (h : Headless)
  : Headless * result HeadlessError unit :=
  match items with
  | [] => (h, Ok tt)
  | Err e :: _ => (h, Err (HeadlessStreamError e))
  | Ok e :: rest =>
      match process_headless_event auto_accept e h with
      | (h', Ok true) => (h', Ok tt)
      | (h', Ok false) => headless_loop auto_accept rest h'
      | (h', Err x) => (h', Err x)
      end
  end.

(** The history is fetched before the keys are exchanged; [None] is the panic
    of the slice. *)
Definition headless_history (sid : string) (resumed : result string (list (AgentEvent EventBody))) (c : DaemonConnection)
  : option (list Printed) :=
  match resume_session resumed c with
  | Err e => Some [StderrLine ("[Warning: could not load history: " +:+ connection_error_text e +:+ "]")]
  | Ok [] => Some []
  | Ok events =>
      short ← slice_to (Nat.min 8 (String.length sid)) sid;
      Some ([StderrLine ("[Resuming session " +:+ short +:+ " (" +:+ pretty (length events) +:+ " events)]")] ++
            concat (print_history_event <$> events) ++ [StderrLine "[--- End of history ---]"])
  end.

(** What the other side does: the stored events, its answer to the key
    exchange, the events of the turn. *)
Record HeadlessEnv := mkHeadlessEnv {
  he_uuid : string; he_now : Z; he_secret : bytes; he_prefix : bytes;
  he_resumed : result string (list (AgentEvent EventBody));
  he_exchange : KeyExchangeRequest → result string KeyExchangeResponse;
  he_items : list (result string (AgentEvent EventBody))
}.

Definition headless_run (env : HeadlessEnv) (cfg : HeadlessConfig) (c : DaemonConnection)
  : option (Headless * DaemonConnection * result HeadlessError unit) :=
  let sid := default (he_uuid env) (hc_session_id cfg) in
  printed ← headless_history sid (he_resumed env) c;
  let h0 := mkHeadless [] printed in
  Some
    match ensure_relay_key_exchange (he_now env) (he_secret env) (he_prefix env) (he_exchange env) c with
    | (c1, Err e) => (h0, c1, Err (HeadlessConnection e))
    | (c1, Ok _) =>
        match converse c1 with
        | Err e => (h0, c1, Err (HeadlessConnection e))
        | Ok _ =>
            match headless_send (start_conversation_request sid (hc_working_directory cfg) (default EmptyString (hc_model cfg))) h0 with
            | (h1, Err x) => (h1, c1, Err x)
            | (h1, Ok _) =>
                match headless_send (ReqMessage (hc_prompt cfg) EmptyString) h1 with
                | (h2, Err x) => (h2, c1, Err x)
                | (h2, Ok _) => let '(h3, res) := headless_loop (hc_auto_accept cfg) (he_items env) h2 in (h3, c1, res)
                end
            end
        end
    end.

(** * What is sent

    The reference: the items before the end of the turn, and how it ends. *)

Definition item_end (item : result string (AgentEvent EventBody)) : option (result HeadlessError unit) :=
  match item with
  | Err e => Some (Err (HeadlessStreamError e))
  | Ok e =>
      match eb_event (ev_payload e) with
      | Some (EvTurnComplete _) => Some (Ok tt)
      | Some (EvError err) => if err_is_fatal err then Some (Err (HeadlessFatal (err_message err))) else None
      | _ => None
      end
  end.

Fixpoint turn (items : list (result string (AgentEvent EventBody)))
  : list (result string (AgentEvent EventBody)) * result HeadlessError unit :=
  match items with
  | [] => ([], Ok tt)
  | item :: rest =>
      match item_end item with
      | Some r => ([], r)
      | None => let '(before, r) := turn rest in (item :: before, r)
      end
  end.

Definition headless_answer (auto_accept : bool) (item : result string (AgentEvent EventBody)) : option Request :=
  match item with
  | Ok e => match eb_event (ev_payload e) with
            | Some (EvPermissionRequest id _ _ _) =>
                Some (ReqPermission id (Some (if auto_accept then AllowOnce else Deny)) None EmptyString)
            | _ => None
            end
  | Err _ => None
  end.

Lemma headless_loop_turn (auto_accept : bool) (items : list (result string (AgentEvent EventBody))) (h : Headless) :
  (∀ n, open n = true) →
  hd_sent (headless_loop auto_accept items h).1 = hd_sent h ++ omap (headless_answer auto_accept) (turn items).1 ∧
  (headless_loop auto_accept items h).2 = (turn items).2.
Proof.
  intros Hopen. revert h. induction items as [|[e|e] items IH]; intros h; simpl; [by rewrite app_nil_r| |by rewrite app_nil_r].
  unfold process_headless_event, headless_send. destruct (eb_event (ev_payload e)) as [ev|] eqn:He.
  2: { destruct (turn items) as [before r]. simpl. rewrite He. apply IH. }
  destruct ev; rewrite ?Hopen; try destruct is_error; try destruct (err_is_fatal err) eqn:Hf; simpl; rewrite ?app_nil_r; try done.
  all: match goal with |- context [headless_loop _ _ ?h'] => destruct (IH h') as [-> ->] end.
  all: match goal with |- context [turn ?l] => destruct (turn l) as [before r] end; simpl; rewrite He; try done.
  by rewrite <- app_assoc.
Qed.

(** A run that reaches the daemon sends the start, the prompt, and one answer
    for each permission request until the turn is complete, in order, allowing
    exactly when permissions are accepted automatically; nothing else, so a
    question is never answered.  It ends as the turn does. *)
Theorem headless_sends (env : HeadlessEnv) (cfg : HeadlessConfig) (c c1 : DaemonConnection) (h : Headless)
    (res : result HeadlessError unit) :
  (∀ n, open n = true) → is_ok (converse c1) = true → headless_run env cfg c = Some (h, c1, res) →
  is_ok (ensure_relay_key_exchange (he_now env) (he_secret env) (he_prefix env) (he_exchange env) c).2 = true →
  hd_sent h = [start_conversation_request (default (he_uuid env) (hc_session_id cfg)) (hc_working_directory cfg)
                 (default EmptyString (hc_model cfg)); ReqMessage (hc_prompt cfg) EmptyString] ++
              omap (headless_answer (hc_auto_accept cfg)) (turn (he_items env)).1 ∧
  res = (turn (he_items env)).2.
Proof.
  intros Hopen Hcv Hrun Hkx. unfold headless_run in Hrun. destruct (headless_history _ _ _) as [printed|]; simplify_eq/=.
  destruct (ensure_relay_key_exchange _ _ _ _ _) as [c2 [u|e]]; simpl in Hkx; [|done].
  destruct (converse c2) as [cv|e] eqn:Ec.
  - unfold headless_send in Hrun. repeat (rewrite Hopen in Hrun; simpl in Hrun).
    match type of Hrun with context [headless_loop ?aa ?it ?h0] =>
      destruct (headless_loop_turn aa it h0 Hopen) as [H1 H2]; destruct (headless_loop aa it h0) as [h3 r3] end.
    simpl in *. simplify_eq. by rewrite H1.
  - simplify_eq. by rewrite Ec in Hcv.
Qed.

(** Through a relay, a run shows nothing of the history of its session: the
    stored events arrive sealed, and it fetches them before it has exchanged
    the key that opens them. *)
Theorem headless_history_stays_sealed (sid short : string) (events : list (AgentEvent EventBody)) (c : DaemonConnection) :
  cn_client c = true → cn_crypto c = None → events ≠ [] →
  Forall (λ e, ∃ ct nonce, eb_event (ev_payload e) = Some (EvEncrypted ct nonce)) events →
  slice_to (Nat.min 8 (String.length sid)) sid = Some short →
  headless_history sid (Ok events) c =
    Some [StderrLine ("[Resuming session " +:+ short +:+ " (" +:+ pretty (length events) +:+ " events)]");
          StderrLine "[--- End of history ---]"].
Proof.
  intros Hcl Hcr Hne Hall Hs. unfold headless_history, resume_session, current_session, decrypt_resume_events. rewrite Hcl, Hcr. cbn [mbind option_bind].
  assert (concat (print_history_event <$> events) = []) as Hc.
  { clear Hne. induction Hall as [|e events (ct & nonce & He) _ IH]; [done|]. simpl. unfold print_history_event at 1. by rewrite He. }
  destruct events as [|e events]; [done|]. rewrite Hs. cbn [mbind option_bind]. rewrite Hc. done.
Qed.

End Headless.

(** * Witnesses *)

#[local] Existing Instance toy_primitives.
#[local] Existing Instance toy_sha256.

(** A daemon on the same machine. *)
Definition demo_local : DaemonConnection := mkConnection (mkConnectionConfig None None) true Connected None [] None ∅.

Definition demo_headless_env : HeadlessEnv :=
  mkHeadlessEnv "u" 5 [] [] (Ok []) (λ _, Err "none")
    [Ok (demo_event (EvTextDelta "hi" false)); Ok (demo_event (EvPermissionRequest "r1" "Bash" "ls" None));
     Ok (demo_event (EvUserQuestion "q1" "which?" [] false)); Ok (demo_event (EvTurnComplete "end_turn"));
     Ok (demo_event (EvPermissionRequest "r2" "Bash" "ls" None))].

Definition demo_headless_config : HeadlessConfig := mkHeadlessConfig "hello" (Some "s") "/w" None false.

Lemma headless_sends_witness :
  ∃ h, headless_run (λ _, true) demo_headless_env demo_headless_config demo_local = Some (h, demo_local, Ok tt) ∧
    hd_sent h = [ReqStart (mkStart "s" "" "/w" ""); ReqMessage "hello" ""; ReqPermission "r1" (Some Deny) None ""].
Proof.
  eexists. split; [vm_compute; reflexivity|].
  apply (headless_sends (λ _, true) demo_headless_env demo_headless_config demo_local demo_local _ (Ok tt));
    [done|vm_compute; reflexivity..].
Defined.

Lemma headless_history_stays_sealed_witness :
  headless_history "session-1" (Ok [demo_event (EvEncrypted [1]%Z [2]%Z)]) demo_knows =
    Some [StderrLine "[Resuming session session- (1 events)]"; StderrLine "[--- End of history ---]"].
Proof.
  apply (headless_history_stays_sealed "session-1" "session-" [demo_event (EvEncrypted [1]%Z [2]%Z)] demo_knows); try reflexivity.
  - done.
  - constructor; [|constructor]. by exists [1]%Z, [2]%Z.
Defined.
