(* ===== verification/RepoStore.v ===== *)
(** The daemon's tables for repositories and worktrees.

    Models crates/betcode-daemon/src/storage/repo_queries.rs and the worktree
    queries of queries.rs, with the constraints of the migrations, on the
    tables of [SessionStore].  Sessions name their worktree without a foreign
    key: the statements that remove worktrees clear the column themselves. *)
From stdpp Require Import gmap strings list fin_maps sorting.
From Stdlib Require Import ZArith Lia.
From S2P Require Import Prelude Protocol SessionStore.

Record GitRepoParams := mkRepoParams {
  rp_name : string;
  rp_worktree_mode : string;
  rp_local_subfolder : string;
  rp_custom_path : option string;
  rp_setup_script : option string;
  rp_auto_gitignore : bool
}.

Definition worktree_modes : list string := ["global"; "local"; "custom"].

Definition set_worktrees (t : gmap string Worktree) (d : DaemonDb) : DaemonDb :=
  mkDaemonDb (db_sessions d) (db_messages d) (db_next_message d) (db_clients d) t (db_repos d).

Definition set_repos (t : gmap string GitRepoRow) (d : DaemonDb) : DaemonDb :=
  mkDaemonDb (db_sessions d) (db_messages d) (db_next_message d) (db_clients d) (db_worktrees d) t.

Definition repo_rows (d : DaemonDb) : list GitRepoRow := (map_to_list (db_repos d)).*2.
Definition worktree_rows (d : DaemonDb) : list Worktree := (map_to_list (db_worktrees d)).*2.

(** * Repositories *)

Definition get_git_repo (id : string) (d : DaemonDb) : result DatabaseError GitRepoRow :=
  match db_repos d !! id with
  | Some r => Ok r
  | None => Err (NotFound ("GitRepo " +:+ id))
  end.

(** The path is unique. *)
Definition get_git_repo_by_path (path : string) (d : DaemonDb) : result DatabaseError GitRepoRow :=
  match head (filter (λ r, gr_repo_path r = path) (repo_rows d)) with
  | Some r => Ok r
  | None => Err (NotFound ("GitRepo at " +:+ path))
  end.

Definition create_git_repo (now : Z) (id path : string) (p : GitRepoParams) (d : DaemonDb)
  : DaemonDb * result DatabaseError GitRepoRow :=
  if decide (rp_worktree_mode p ∉ worktree_modes) then (d, Err (Query (CheckViolation "worktree_mode")))
  else match db_repos d !! id, get_git_repo_by_path path d with
  | Some _, _ => (d, Err (Query (UniqueViolation "git_repos.id")))
  | None, Ok _ => (d, Err (Query (UniqueViolation "git_repos.repo_path")))
  | None, Err _ =>
      let row := mkGitRepo id (rp_name p) path (rp_worktree_mode p) (rp_local_subfolder p) (rp_custom_path p) (rp_setup_script p)
                   (rp_auto_gitignore p) now now in
      let d' := set_repos (<[id := row]> (db_repos d)) d in
      (d', get_git_repo id d')
  end.

Definition recent_repo (r s : GitRepoRow) : bool := (gr_last_active s <=? gr_last_active r)%Z.

Definition list_git_repos {SO : SqlOrder} (d : DaemonDb) : list GitRepoRow := order_by recent_repo (repo_rows d).

(** A limit of 0 is no limit. *)
Definition list_git_repos_paginated {SO : SqlOrder} (limit offset : nat) (d : DaemonDb) : list GitRepoRow :=
  let rows := drop offset (order_by recent_repo (repo_rows d)) in
  if decide (limit = 0) then rows else take limit rows.

(** The shared UPDATE statement; a statement for no row violates nothing. *)
Definition update_git_repo_row (now : Z) (id : string) (p : GitRepoParams) (d : DaemonDb) : DaemonDb * result DatabaseError unit :=
  match db_repos d !! id with
  | None => (d, Ok tt)
  | Some r =>
      if decide (rp_worktree_mode p ∉ worktree_modes) then (d, Err (Query (CheckViolation "worktree_mode")))
      else (set_repos (<[id := mkGitRepo (gr_id r) (rp_name p) (gr_repo_path r) (rp_worktree_mode p) (rp_local_subfolder p)
                                 (rp_custom_path p) (rp_setup_script p) (rp_auto_gitignore p) (gr_created_at r) now]> (db_repos d)) d,
            Ok tt)
  end.

Definition update_git_repo (now : Z) (id : string) (p : GitRepoParams) (d : DaemonDb) : DaemonDb * result DatabaseError GitRepoRow :=
  match update_git_repo_row now id p d with
  | (d', Ok _) => (d', get_git_repo id d')
  | (d', Err e) => (d', Err e)
  end.

(** [None] keeps a column; for the columns that can be empty, [Some None]
    clears it. *)
Definition update_git_repo_partial (now : Z) (id : string) (name worktree_mode local_subfolder : option string)
    (custom_path setup_script : option (option string)) (auto_gitignore : option bool) (d : DaemonDb)
  : DaemonDb * result DatabaseError GitRepoRow :=
  match get_git_repo id d with
  | Err e => (d, Err e)
  | Ok existing =>
      let merged := mkRepoParams (default (gr_name existing) name) (default (gr_worktree_mode existing) worktree_mode)
                      (default (gr_local_subfolder existing) local_subfolder) (default (gr_custom_path existing) custom_path)
                      (default (gr_setup_script existing) setup_script) (default (gr_auto_gitignore existing) auto_gitignore) in
      match update_git_repo_row now id merged d with
      | (d', Ok _) => (d', get_git_repo id d')
      | (d', Err e) => (d', Err e)
      end
  end.

(** * Worktrees *)

Definition clear_worktree (gone : string → bool) (s : Session) : Session :=
  if default false (gone <$> s_worktree_id s) then
    mkSessionRow (s_id s) (s_claude_session_id s) None (s_status s) (s_model s) (s_working_directory s) (s_input_lock_client s)
      (s_created_at s) (s_updated_at s) (s_total_input_tokens s) (s_total_output_tokens s) (s_total_cost_usd s)
      (s_last_message_preview s) (s_compaction_sequence s) (s_name s)
  else s.

Definition worktrees_of_repo (repo_id : string) (d : DaemonDb) : list Worktree :=
  filter (λ w, wt_repo_id w = repo_id) (worktree_rows d).

Definition remove_git_repo (id : string) (d : DaemonDb) : DaemonDb * bool :=
  let ids := wt_id <$> worktrees_of_repo id d in
  let d1 := set_sessions (clear_worktree (λ w, bool_decide (w ∈ ids)) <$> db_sessions d) d in
  let d2 := set_worktrees (filter (λ kv, wt_repo_id kv.2 ≠ id) (db_worktrees d1)) d1 in
  (set_repos (delete id (db_repos d2)) d2, bool_decide (is_Some (db_repos d !! id))).

Definition count_worktrees_for_repo (repo_id : string) (d : DaemonDb) : Z :=
  wrap_u32 (Z.of_nat (length (worktrees_of_repo repo_id d))).

(** [GROUP BY repo_id] *)
Definition count_worktrees_by_repo (d : DaemonDb) : gmap string Z :=
  wrap_u32 <$> map_fold (λ _ w counts, partial_alter (λ c, Some (default 0 c + 1)%Z) (wt_repo_id w) counts) ∅ (db_worktrees d).

Definition count_git_repos (d : DaemonDb) : Z := wrap_u32 (Z.of_nat (size (db_repos d))).

Definition touch_git_repo (now : Z) (id : string) (d : DaemonDb) : DaemonDb :=
  set_repos (alter (λ r, mkGitRepo (gr_id r) (gr_name r) (gr_repo_path r) (gr_worktree_mode r) (gr_local_subfolder r)
    (gr_custom_path r) (gr_setup_script r) (gr_auto_gitignore r) (gr_created_at r) now) id (db_repos d)) d.

Definition get_worktree (id : string) (d : DaemonDb) : result DatabaseError Worktree :=
  match db_worktrees d !! id with
  | Some w => Ok w
  | None => Err (NotFound ("Worktree " +:+ id))
  end.

Definition create_worktree (now : Z) (id name path branch repo_id : string) (setup_script : option string) (d : DaemonDb)
  : DaemonDb * result DatabaseError Worktree :=
  match db_worktrees d !! id, head (filter (λ w, wt_path w = path) (worktree_rows d)), db_repos d !! repo_id with
  | Some _, _, _ => (d, Err (Query (UniqueViolation "worktrees.id")))
  | None, Some _, _ => (d, Err (Query (UniqueViolation "worktrees.path")))
  | None, None, None => (d, Err (Query ForeignKeyViolation))
  | None, None, Some _ =>
      let d' := set_worktrees (<[id := mkWorktree id name path branch repo_id setup_script now now]> (db_worktrees d)) d in
      (d', get_worktree id d')
  end.

Definition recent_worktree (v w : Worktree) : bool := (wt_last_active w <=? wt_last_active v)%Z.

Definition list_worktrees {SO : SqlOrder} (repo_id : option string) (d : DaemonDb) : list Worktree :=
  order_by recent_worktree (match repo_id with Some r => worktrees_of_repo r d | None => worktree_rows d end).

Definition remove_worktree (id : string) (d : DaemonDb) : DaemonDb * bool :=
  let d1 := set_sessions (clear_worktree (λ w, bool_decide (w = id)) <$> db_sessions d) d in
  (set_worktrees (delete id (db_worktrees d1)) d1, bool_decide (is_Some (db_worktrees d !! id))).

Definition touch_worktree (now : Z) (id : string) (d : DaemonDb) : DaemonDb :=
  set_worktrees (alter (λ w, mkWorktree (wt_id w) (wt_name w) (wt_path w) (wt_branch w) (wt_repo_id w) (wt_setup_script w)
    (wt_created_at w) now) id (db_worktrees d)) d.

Definition bind_session_to_worktree (now : Z) (session_id worktree_id : string) : DaemonDb → DaemonDb :=
  update_session session_id (λ s, mkSessionRow (s_id s) (s_claude_session_id s) (Some worktree_id) (s_status s)
    (s_model s) (s_working_directory s) (s_input_lock_client s) (s_created_at s) now (s_total_input_tokens s)
    (s_total_output_tokens s) (s_total_cost_usd s) (s_last_message_preview s) (s_compaction_sequence s) (s_name s)).

Definition get_worktree_sessions {SO : SqlOrder} (worktree_id : string) (d : DaemonDb) : list Session :=
  order_by newest_session (filter (λ s, s_worktree_id s = Some worktree_id) (map_to_list (db_sessions d)).*2).

(** * The tables stay consistent *)

Record repos_ok (d : DaemonDb) : Prop := {
  ro_repo_keys : ∀ id r, db_repos d !! id = Some r → gr_id r = id ∧ gr_worktree_mode r ∈ worktree_modes;
  ro_repo_paths : ∀ id1 id2 r1 r2, db_repos d !! id1 = Some r1 → db_repos d !! id2 = Some r2 →
    gr_repo_path r1 = gr_repo_path r2 → id1 = id2;
  ro_worktree_keys : ∀ id w, db_worktrees d !! id = Some w → wt_id w = id ∧ is_Some (db_repos d !! wt_repo_id w);
  ro_worktree_paths : ∀ id1 id2 w1 w2, db_worktrees d !! id1 = Some w1 → db_worktrees d !! id2 = Some w2 →
    wt_path w1 = wt_path w2 → id1 = id2;
  ro_sessions : ∀ sid s w, db_sessions d !! sid = Some s → s_worktree_id s = Some w → is_Some (db_worktrees d !! w)
}.

Lemma empty_repos_ok : repos_ok empty_db.
Proof. split; intros *; unfold empty_db; simpl; by rewrite ?lookup_empty. Qed.

(** What the invariant is about; other statements of the daemon keep it. *)
Lemma elem_of_rows {A : Type} (m : gmap string A) (x : A) : x ∈ (map_to_list m).*2 ↔ ∃ k, m !! k = Some x.
Proof.
  rewrite list_elem_of_fmap. split.
  - intros ([k y] & -> & H%elem_of_map_to_list). by exists k.
  - intros [k H]. exists (k, x). split; [done|]. by apply elem_of_map_to_list.
Qed.

Lemma head_filter_None {A : Type} (P : A → Prop) {HP : ∀ x, Decision (P x)} (l : list A) (x : A) :
  head (filter P l) = None → x ∈ l → ¬ P x.
Proof.
  intros H Hx HPx. assert (x ∈ filter P l) as Hf by by apply list_elem_of_filter.
  destruct (filter P l); [by apply not_elem_of_nil in Hf|done].
Qed.

Lemma by_path_none (path : string) (d : DaemonDb) (e : DatabaseError) :
  get_git_repo_by_path path d = Err e → ∀ id r, db_repos d !! id = Some r → gr_repo_path r ≠ path.
Proof.
  unfold get_git_repo_by_path. destruct (head _) eqn:E; [done|]. intros _ id r Hr.
  eapply (head_filter_None (λ r, gr_repo_path r = path)); [exact E|]. apply elem_of_rows. by exists id.
Qed.

Lemma by_path_some (path : string) (d : DaemonDb) (id : string) (r : GitRepoRow) :
  db_repos d !! id = Some r → gr_repo_path r = path → ∃ r', get_git_repo_by_path path d = Ok r'.
Proof.
  intros Hr Hp. unfold get_git_repo_by_path. destruct (head _) eqn:E; [by eexists|].
  exfalso. eapply (head_filter_None (λ r, gr_repo_path r = path)); [exact E| |exact Hp]. apply elem_of_rows. by exists id.
Qed.


(** ** Each statement *)

Lemma create_repo_ok (now : Z) (id path : string) (p : GitRepoParams) (d : DaemonDb) :
  repos_ok d → repos_ok (create_git_repo now id path p d).1.
Proof.
  intros Hd. unfold create_git_repo. case_decide as Hm; [done|]. destruct (db_repos d !! id) eqn:Ei; [done|].
  destruct (get_git_repo_by_path path d) as [r|e] eqn:Ep; [done|]. pose proof (by_path_none path d e Ep) as Hp.
  destruct Hd as [H1 H2 H3 H4 H5]. split; cbn; try done.
  - intros i r [[<- <-]|[_ Hr]]%lookup_insert_Some; [|by apply H1]. split; [done|]. simpl. destruct (decide (rp_worktree_mode p ∈ worktree_modes)); tauto.
  - intros i1 i2 r1 r2 [[<- <-]|[Hn1 Hr1]]%lookup_insert_Some [[<- <-]|[Hn2 Hr2]]%lookup_insert_Some Heq; simpl in Heq; try done.
    + exfalso. by eapply Hp.
    + exfalso. eapply Hp; [exact Hr1|done].
    + by eapply H2.
  - intros i w Hw. destruct (H3 i w Hw) as [? Hr]. split; [done|]. destruct (decide (wt_repo_id w = id)) as [->|];
      [rewrite lookup_insert_eq; by eexists|by rewrite lookup_insert_ne].
Qed.

Lemma update_repo_row_ok (now : Z) (id : string) (p : GitRepoParams) (d : DaemonDb) :
  repos_ok d → repos_ok (update_git_repo_row now id p d).1.
Proof.
  intros Hd. unfold update_git_repo_row. destruct (db_repos d !! id) as [r|] eqn:Ei; [|done]. case_decide as Hm; [done|].
  destruct Hd as [H1 H2 H3 H4 H5]. destruct (H1 id r Ei) as [Hid _]. split; cbn; try done.
  - intros i s [[<- <-]|[_ Hr]]%lookup_insert_Some; [|by apply H1]. split; [done|]. simpl. destruct (decide (rp_worktree_mode p ∈ worktree_modes)); tauto.
  - intros i1 i2 r1 r2 [[<- <-]|[Hn1 Hr1]]%lookup_insert_Some [[<- <-]|[Hn2 Hr2]]%lookup_insert_Some Heq; simpl in Heq; by eauto.
  - intros i w Hw. destruct (H3 i w Hw) as [? Hr]. split; [done|]. destruct (decide (wt_repo_id w = id)) as [->|];
      [rewrite lookup_insert_eq; by eexists|by rewrite lookup_insert_ne].
Qed.

Lemma update_repo_ok (now : Z) (id : string) (p : GitRepoParams) (d : DaemonDb) :
  repos_ok d → repos_ok (update_git_repo now id p d).1.
Proof. intros H%(update_repo_row_ok now id p). unfold update_git_repo. by destruct (update_git_repo_row now id p d) as [d' [u|e]]. Qed.

Lemma update_partial_ok (now : Z) (id : string) (name mode sub : option string) (cp ss : option (option string))
    (ag : option bool) (d : DaemonDb) :
  repos_ok d → repos_ok (update_git_repo_partial now id name mode sub cp ss ag d).1.
Proof.
  intros Hd. unfold update_git_repo_partial. destruct (get_git_repo id d) as [existing|e]; [|done]. cbn zeta.
  match goal with |- context [update_git_repo_row now id ?p d] => apply (update_repo_row_ok now id p) in Hd;
    by destruct (update_git_repo_row now id p d) as [d' [u|e]] end.
Qed.

(** A session that is still bound was bound before, and to something that
    stays. *)
Lemma cleared_bound (gone : string → bool) (s : Session) (w : string) :
  s_worktree_id (clear_worktree gone s) = Some w → s_worktree_id s = Some w ∧ gone w = false.
Proof.
  unfold clear_worktree. destruct (s_worktree_id s) as [w'|] eqn:E; simpl; [|by rewrite E].
  destruct (gone w') eqn:Eg; simpl; [done|]. rewrite E. by intros [= <-].
Qed.

Lemma remove_repo_ok (id : string) (d : DaemonDb) : repos_ok d → repos_ok (remove_git_repo id d).1.
Proof.
  intros [H1 H2 H3 H4 H5]. split; cbn.
  - intros i r [_ Hr]%lookup_delete_Some. by apply H1.
  - intros i1 i2 r1 r2 [_ Hr1]%lookup_delete_Some [_ Hr2]%lookup_delete_Some. by apply H2.
  - intros i w [Hw Hne]%map_lookup_filter_Some. destruct (H3 i w Hw) as [? Hr]. split; [done|]. by rewrite lookup_delete_ne.
  - intros i1 i2 w1 w2 [Hw1 _]%map_lookup_filter_Some [Hw2 _]%map_lookup_filter_Some. by apply H4.
  - intros sid s w Hs Hw. rewrite lookup_fmap in Hs. destruct (db_sessions d !! sid) as [s0|] eqn:E; simplify_eq/=.
    apply cleared_bound in Hw as [Hw Hg]. destruct (H5 sid s0 w E Hw) as [row Hrow]. exists row.
    apply map_lookup_filter_Some. split; [done|]. simpl. intros Hrepo. apply bool_decide_eq_false in Hg. apply Hg.
    apply list_elem_of_fmap. exists row. split; [by destruct (H3 w row Hrow)|]. apply list_elem_of_filter. split; [done|].
    apply elem_of_rows. by exists w.
Qed.

Lemma create_worktree_ok (now : Z) (id name path branch repo_id : string) (script : option string) (d : DaemonDb) :
  repos_ok d → repos_ok (create_worktree now id name path branch repo_id script d).1.
Proof.
  intros Hd. unfold create_worktree. destruct (db_worktrees d !! id) eqn:Ei; [done|].
  destruct (head _) eqn:Ep; [done|]. destruct (db_repos d !! repo_id) as [r|] eqn:Er; [|done].
  assert (∀ i w, db_worktrees d !! i = Some w → wt_path w ≠ path) as Hp.
  { intros i w Hw. eapply (head_filter_None (λ w, wt_path w = path)); [exact Ep|]. apply elem_of_rows. by exists i. }
  destruct Hd as [H1 H2 H3 H4 H5]. split; cbn; try done.
  - intros i w [[<- <-]|[_ Hw]]%lookup_insert_Some; [|by apply H3]. split; [done|]. simpl. by rewrite Er.
  - intros i1 i2 w1 w2 [[<- <-]|[Hn1 Hr1]]%lookup_insert_Some [[<- <-]|[Hn2 Hr2]]%lookup_insert_Some Heq; simpl in Heq; try done.
    + exfalso. by eapply Hp.
    + exfalso. eapply Hp; [exact Hr1|done].
    + by eapply H4.
  - intros sid s w Hs Hw. destruct (decide (w = id)) as [->|]; [rewrite lookup_insert_eq; by eexists|].
    rewrite lookup_insert_ne by done. by eapply H5.
Qed.

Lemma remove_worktree_ok (id : string) (d : DaemonDb) : repos_ok d → repos_ok (remove_worktree id d).1.
Proof.
  intros [H1 H2 H3 H4 H5]. split; cbn; try done.
  - intros i w [_ Hw]%lookup_delete_Some. by apply H3.
  - intros i1 i2 w1 w2 [_ Hw1]%lookup_delete_Some [_ Hw2]%lookup_delete_Some. by apply H4.
  - intros sid s w Hs Hw. rewrite lookup_fmap in Hs. destruct (db_sessions d !! sid) as [s0|] eqn:E; simplify_eq/=.
    apply cleared_bound in Hw as [Hw Hg]. apply bool_decide_eq_false in Hg. rewrite lookup_delete_ne by congruence. by eapply H5.
Qed.

Lemma touched_row (now : Z) (id i : string) (w : Worktree) (d : DaemonDb) :
  db_worktrees (touch_worktree now id d) !! i = Some w →
  ∃ w0, db_worktrees d !! i = Some w0 ∧ wt_id w0 = wt_id w ∧ wt_path w0 = wt_path w ∧ wt_repo_id w0 = wt_repo_id w.
Proof.
  simpl. rewrite lookup_alter. case_decide; subst; [|by eauto]. destruct (db_worktrees d !! i); intros [= <-]. by eexists.
Qed.

Lemma touch_worktree_ok (now : Z) (id : string) (d : DaemonDb) : repos_ok d → repos_ok (touch_worktree now id d).
Proof.
  intros [H1 H2 H3 H4 H5]. split; try done.
  - intros i w (w0 & Hw & <- & _ & <-)%touched_row. by apply H3.
  - intros i1 i2 w1 w2 (v1 & E1 & _ & P1 & _)%touched_row (v2 & E2 & _ & P2 & _)%touched_row Heq.
    eapply H4; [exact E1|exact E2|congruence].
  - intros sid s w Hs Hw. destruct (H5 sid s w Hs Hw) as [row Hrow]. simpl. rewrite lookup_alter. case_decide; subst; rewrite Hrow; by eexists.
Qed.

Lemma bind_session_ok (now : Z) (sid w : string) (d : DaemonDb) :
  is_Some (db_worktrees d !! w) → repos_ok d → repos_ok (bind_session_to_worktree now sid w d).
Proof.
  intros Hw [H1 H2 H3 H4 H5]. split; cbn; try done. intros i s v Hs Hv. rewrite lookup_alter in Hs. case_decide; [|by eapply H5].
  subst. destruct (db_sessions d !! i); simplify_eq/=. done.
Qed.

(** * Counting *)

(** The counts of the grouped query are those of the single ones. *)
Lemma counts_agree (repo_id : string) (d : DaemonDb) :
  default 0%Z (count_worktrees_by_repo d !! repo_id) = count_worktrees_for_repo repo_id d.
Proof.
  unfold count_worktrees_by_repo, count_worktrees_for_repo, worktrees_of_repo, worktree_rows. rewrite lookup_fmap.
  generalize (db_worktrees d). clear d. intros m.
  set (f := λ (_ : string) w counts, partial_alter (λ c, Some (default 0 c + 1)%Z) (wt_repo_id w) counts).
  assert (default 0%Z (map_fold f ∅ m !! repo_id) = Z.of_nat (length (filter (λ w, wt_repo_id w = repo_id) (map_to_list m).*2))) as H.
  { rewrite map_fold_foldr. generalize (map_to_list m). intros l. induction l as [|[k w] l IH]; [done|]. simpl.
    unfold f at 1. rewrite filter_cons, lookup_partial_alter. case_decide as Hd; [subst|].
    - simpl in *. rewrite IH. change (list_fmap _ _ snd l) with (l.*2). lia.
    - done. }
  destruct (map_fold f ∅ m !! repo_id) as [c|]; simpl in *; [by rewrite H|]. by rewrite <- H.
Qed.
