(* ===== verification/Worktrees.v ===== *)
(** Worktrees of registered repositories.

    Models crates/betcode-daemon/src/worktree/ (repo.rs, manager.rs) on
    [RepoStore].  The disk has directories and text files; git and the shell
    are the class [GitTools], of which the code relies on what a success
    means.  Creating a worktree waits for git between its checks and the
    insertion of the row, so it is two steps. *)
From stdpp Require Import gmap strings list fin_maps.
From Stdlib Require Import ZArith Lia.
From S2P Require Import Prelude Protocol Utf8 Completion Commands Fingerprint SessionStore RepoStore.

(** * Paths *)

Definition ends_with_slash (p : string) : bool :=
  match String.get (String.length p - 1) p with Some b => bool_decide (b = byte 47) | None => false end.

(** [Path::join] *)
Definition path_join (p q : string) : string :=
  if starts_with "/" q then q
  else if bool_decide (p = EmptyString) || ends_with_slash p then p +:+ q
  else p +:+ "/" +:+ q.

(** [Path::file_name]: the last component, if it is a name. *)
Definition file_name (p : string) : option string :=
  match list.last (filter (λ c, c ≠ EmptyString ∧ c ≠ ".") (split_on (byte 47) p)) with
  | Some c => if decide (c = "..") then None else Some c
  | None => None
  end.

(** What the system looks a path up by: repeated slashes, dots and a final
    slash do not count. *)
Definition resolve (p : string) : string :=
  let cs := filter (λ c, c ≠ EmptyString ∧ c ≠ ".") (split_on (byte 47) p) in
  if starts_with "/" p then "/" +:+ join "/" cs
  else if decide (p ≠ EmptyString ∧ cs = []) then "."
  else join "/" cs.

(** * Repositories (repo.rs) *)

Inductive WorktreeMode := ModeGlobal | ModeLocal | ModeCustom (path : string).

Record GitRepo := mkRepo {
  g_id : string;
  g_name : string;
  g_repo_path : string;
  g_worktree_mode : WorktreeMode;
  g_local_subfolder : string;
  g_setup_script : option string;
  g_auto_gitignore : bool;
  g_created_at : Z;
  g_last_active : Z
}.

Definition repo_name (r : GitRepo) : string := default "unknown" (file_name (g_repo_path r)).

Definition worktree_base_dir (global_base : string) (r : GitRepo) : string :=
  match g_worktree_mode r with
  | ModeGlobal => path_join global_base (repo_name r)
  | ModeLocal => path_join (g_repo_path r) (g_local_subfolder r)
  | ModeCustom path => path_join path (repo_name r)
  end.

Definition repo_of_row (row : GitRepoRow) : GitRepo :=
  let mode := if decide (gr_worktree_mode row = "local") then ModeLocal
              else if decide (gr_worktree_mode row = "custom")
                   then ModeCustom (default "/tmp/betcode-worktrees" (gr_custom_path row))
                   else ModeGlobal in
  mkRepo (gr_id row) (gr_name row) (gr_repo_path row) mode (gr_local_subfolder row) (gr_setup_script row)
    (gr_auto_gitignore row) (gr_created_at row) (gr_last_active row).

Definition worktree_mode_str (r : GitRepo) : string :=
  match g_worktree_mode r with ModeGlobal => "global" | ModeLocal => "local" | ModeCustom _ => "custom" end.

Definition custom_path_str (r : GitRepo) : option string :=
  match g_worktree_mode r with ModeCustom p => Some p | _ => None end.

(** * The disk *)

(** Keyed by resolved paths. *)
Record Disk := mkDisk {
  dk_dirs : gset string;
  dk_files : gmap string string
}.

Definition is_dir (p : string) (k : Disk) : bool := bool_decide (resolve p ∈ dk_dirs k).
Definition path_exists (p : string) (k : Disk) : bool :=
  bool_decide (resolve p ∈ dk_dirs k ∨ is_Some (dk_files k !! resolve p)).

(** The directories on the way to a path, with itself. *)
Fixpoint parents (cs : list string) (before : string) : list string :=
  match cs with
  | [] => [before]
  | c :: cs' => (if decide (c = "/" ∧ before ≠ EmptyString) then [before] else []) ++ parents cs' (before +:+ c)
  end.

Definition create_dir_all (p : string) (k : Disk) : Disk :=
  mkDisk (list_to_set (parents (chars (resolve p)) EmptyString) ∪ dk_dirs k) (dk_files k).

Inductive ProcFailure :=
| ProcIo (e : string)          (** it could not be started *)
| ProcExit (stderr : string).  (** it failed; its output, trimmed *)

Class GitTools := {
  (** [git worktree add -b branch path] in a repository; [None] when it takes
      too long *)
  git_worktree_add : string → string → string → Disk → Disk * option (result ProcFailure unit);
  (** [git worktree remove --force path] in a directory *)
  git_worktree_remove : string → string → Disk → Disk * result ProcFailure unit;
  (** a shell script in a directory *)
  run_script : string → string → Disk → Disk * result ProcFailure unit;
  worktree_added repo path branch k k' : git_worktree_add repo path branch k = (k', Some (Ok tt)) → path_exists path k' = true;
  worktree_removed dir path k k' : git_worktree_remove dir path k = (k', Ok tt) → path_exists path k' = false
}.

(** * The manager (manager.rs) *)

Inductive WorktreeError :=
| WtGit (m : string)
| WtDatabase (e : DatabaseError)
| WtNotFound (m : string)
| WtPathExists (m : string)
| WtIo (m : string)
| WtSetupFailed (m : string)
| WtInvalidName (m : string).

Record WorktreeInfo := mkWorktreeInfo {
  wi_worktree : Worktree;
  wi_exists_on_disk : bool;
  wi_session_count : nat
}.

Section Manager.
Context {UA : UnicodeAlphanumeric} {GT : GitTools} {SO : SqlOrder}.

Definition name_char (c : string) : bool := is_alphanumeric c || bool_decide (c ∈ ["-"; "_"; "."; "/"]).

Definition validate_name (name : string) : result WorktreeError unit :=
  if decide (name = EmptyString) then Err (WtInvalidName "name cannot be empty")
  else if starts_with "-" name then Err (WtInvalidName "name cannot start with a dash")
  else if contains ".." name then Err (WtInvalidName "name cannot contain '..'")
  else if forallb name_char (chars name) then Ok tt
  else Err (WtInvalidName ("name contains invalid characters: " +:+ name)).

Definition validate_branch (branch : string) : result WorktreeError unit :=
  match validate_name branch with
  | Ok _ => Ok tt
  | Err _ => Err (WtInvalidName ("invalid branch name: " +:+ branch))
  end.

(** The line feed. *)
Definition lf : string := String (byte 10) EmptyString.

(** The subfolder of worktrees is listed in the repository's .gitignore. *)
Definition gitignored (subfolder content : string) : bool :=
  existsb (λ line, bool_decide (trim line = subfolder)) (str_lines content).

(** [fault] is an error of reading or writing. *)
Definition ensure_gitignore (fault : option string) (r : GitRepo) (k : Disk) : Disk * result WorktreeError unit :=
  match g_worktree_mode r, g_auto_gitignore r with
  | ModeLocal, true =>
      let p := resolve (path_join (g_repo_path r) ".gitignore") in
      match fault, dk_files k !! p with
      | Some e, _ => (k, Err (WtIo e))
      | None, Some content =>
          (if gitignored (g_local_subfolder r) content then k
           else mkDisk (dk_dirs k) (<[p := content +:+ lf +:+ g_local_subfolder r +:+ lf]> (dk_files k)), Ok tt)
      | None, None =>
          if decide (p ∈ dk_dirs k) then (k, Err (WtIo "Is a directory (os error 21)"))
          else (mkDisk (dk_dirs k) (<[p := g_local_subfolder r +:+ lf]> (dk_files k)), Ok tt)
      end
  | _, _ => (k, Ok tt)
  end.

(** What a call meets: the base directory, an id, the time, and failures of
    the disk. *)
Record WorktreeEnv := mkWorktreeEnv {
  we_base : string;
  we_uuid : string;
  we_now : Z;
  we_mkdir : option string;
  we_gitignore : option string
}.

Definition new_worktree_path (env : WorktreeEnv) (r : GitRepo) : string :=
  path_join (worktree_base_dir (we_base env) r) (we_uuid env).

(** Up to the end of git. *)
Definition create_checkout (env : WorktreeEnv) (name : string) (r : GitRepo) (branch : string) (k : Disk)
  : Disk * result WorktreeError unit :=
  match validate_name name, validate_branch branch with
  | Err e, _ => (k, Err e)
  | Ok _, Err e => (k, Err e)
  | Ok _, Ok _ =>
      if negb (path_exists (g_repo_path r) k)
      then (k, Err (WtNotFound ("Repository not found at " +:+ g_repo_path r +:+ " on this machine")))
      else if path_exists (new_worktree_path env r) k then (k, Err (WtPathExists (new_worktree_path env r)))
      else match we_mkdir env with
           | Some e => (k, Err (WtIo e))
           | None =>
               let k1 := create_dir_all (worktree_base_dir (we_base env) r) k in
               match ensure_gitignore (we_gitignore env) r k1 with
               | (k2, Err e) => (k2, Err e)
               | (k2, Ok _) =>
                   match git_worktree_add (g_repo_path r) (new_worktree_path env r) branch k2 with
                   | (k3, Some (Ok _)) => (k3, Ok tt)
                   | (k3, Some (Err (ProcExit stderr))) => (k3, Err (WtGit ("git worktree add failed: " +:+ stderr)))
                   | (k3, Some (Err (ProcIo e))) => (k3, Err (WtIo e))
                   | (k3, None) => (k3, Err (WtGit ("git worktree add timed out after 120s for repo " +:+ g_repo_path r)))
                   end
               end
           end
  end.

Definition worktree_remove (id : string) (st : DaemonDb * Disk) : (DaemonDb * Disk) * result WorktreeError bool :=
  let '(d, k) := st in
  match get_worktree id d with
  | Err _ => ((d, k), Ok false)
  | Ok wt =>
      if path_exists (wt_path wt) k then
        let dir := match get_git_repo (wt_repo_id wt) d with Ok r => gr_repo_path r | Err _ => wt_path wt end in
        match git_worktree_remove dir (wt_path wt) k with
        | (k1, Err (ProcIo e)) => ((d, k1), Err (WtIo e))
        | (k1, _) => (((remove_worktree id d).1, k1), Ok true)
        end
      else (((remove_worktree id d).1, k), Ok true)
  end.

Definition setup_result (script : string) (r : result ProcFailure unit) : result WorktreeError unit :=
  match r with
  | Ok _ => Ok tt
  | Err (ProcIo e) => Err (WtIo e)
  | Err (ProcExit stderr) => Err (WtSetupFailed ("Setup script '" +:+ script +:+ "' failed: " +:+ stderr))
  end.

(** The row, then the setup script; when that fails the worktree is removed. *)
Definition create_record (env : WorktreeEnv) (name : string) (r : GitRepo) (branch : string) (setup_script : option string)
    (st : DaemonDb * Disk) : (DaemonDb * Disk) * result WorktreeError Worktree :=
  let '(d, k) := st in
  let script := match setup_script with Some s => Some s | None => g_setup_script r end in
  match create_worktree (we_now env) (we_uuid env) name (new_worktree_path env r) branch (g_id r) script d with
  | (d1, Err e) => ((d1, k), Err (WtDatabase e))
  | (d1, Ok wt) =>
      match script with
      | None => ((d1, k), Ok wt)
      | Some s =>
          let '(k1, res) := run_script (new_worktree_path env r) s k in
          match setup_result s res with
          | Ok _ => ((d1, k1), Ok wt)
          | Err e => ((worktree_remove (we_uuid env) (d1, k1)).1, Err e)
          end
      end
  end.

Definition worktree_create (env : WorktreeEnv) (name : string) (r : GitRepo) (branch : string) (setup_script : option string)
    (st : DaemonDb * Disk) : (DaemonDb * Disk) * result WorktreeError Worktree :=
  match create_checkout env name r branch st.2 with
  | (k, Err e) => ((st.1, k), Err e)
  | (k, Ok _) => create_record env name r branch setup_script (st.1, k)
  end.

Definition worktree_info (wt : Worktree) (st : DaemonDb * Disk) : WorktreeInfo :=
  mkWorktreeInfo wt (path_exists (wt_path wt) st.2) (length (get_worktree_sessions (wt_id wt) st.1)).

Definition worktree_list (repo_id : option string) (st : DaemonDb * Disk) : list WorktreeInfo :=
  (λ wt, worktree_info wt st) <$> list_worktrees repo_id st.1.

Definition worktree_get (id : string) (st : DaemonDb * Disk) : result WorktreeError WorktreeInfo :=
  match get_worktree id st.1 with
  | Ok wt => Ok (worktree_info wt st)
  | Err e => Err (WtDatabase e)
  end.

(** The directory for a session. *)
Definition worktree_path (now : Z) (id : string) (st : DaemonDb * Disk) : (DaemonDb * Disk) * result WorktreeError string :=
  match get_worktree id st.1 with
  | Err e => (st, Err (WtDatabase e))
  | Ok wt =>
      if path_exists (wt_path wt) st.2 then ((touch_worktree now id st.1, st.2), Ok (wt_path wt))
      else (st, Err (WtNotFound ("Worktree " +:+ id +:+ " path does not exist on disk: " +:+ wt_path wt)))
  end.

End Manager.
