(* ===== verification/RepoService.v ===== *)
(** The daemon's services for repositories and worktrees.

    Models crates/betcode-daemon/src/server/repo_svc.rs and worktree_svc.rs on
    [Worktrees].  The numbers of the protocol's worktree modes are the class
    [WorktreeModeCodes]; git is the class [GitRefs], of which the code relies
    on how it prints references.  A directory is scanned as the tree that
    listing it shows, in the order of the listing. *)
From stdpp Require Import gmap strings list fin_maps pretty.
From Stdlib Require Import ZArith Lia.
From S2P Require Import Prelude Protocol Utf8 Completion Commands Fingerprint SessionStore RepoStore Worktrees.

(** * Modes and details *)

Inductive ProtoWorktreeMode := ProtoUnspecified | ProtoGlobal | ProtoLocal | ProtoCustom.

#[export] Instance ProtoWorktreeMode_eq_dec : EqDecision ProtoWorktreeMode.
Proof. solve_decision. Defined.

Class WorktreeModeCodes := {
  mode_i32 : ProtoWorktreeMode → Z;
  mode_try_from : Z → option ProtoWorktreeMode;
  mode_codes m : mode_try_from (mode_i32 m) = Some m
}.

Record GitRepoDetail := mkRepoDetail {
  grd_id : string;
  grd_name : string;
  grd_repo_path : string;
  grd_worktree_mode : Z;
  grd_local_subfolder : string;
  grd_custom_path : string;
  grd_setup_script : string;
  grd_auto_gitignore : bool;
  grd_worktree_count : Z;
  grd_created_at : Z;
  grd_last_active : Z
}.

Definition worktree_mode_to_proto {MC : WorktreeModeCodes} (s : string) : Z :=
  if decide (s = "global") then mode_i32 ProtoGlobal
  else if decide (s = "local") then mode_i32 ProtoLocal
  else if decide (s = "custom") then mode_i32 ProtoCustom
  else mode_i32 ProtoUnspecified.

Definition worktree_mode_to_str {MC : WorktreeModeCodes} (mode : Z) : result Status string :=
  match mode_try_from mode with
  | Some ProtoGlobal | Some ProtoUnspecified => Ok "global"
  | Some ProtoLocal => Ok "local"
  | Some ProtoCustom => Ok "custom"
  | None => Err (mkStatus InvalidArgument ("Invalid worktree_mode value: " +:+ pretty mode))
  end.

Definition to_detail {MC : WorktreeModeCodes} (row : GitRepoRow) (worktree_count : Z) : GitRepoDetail :=
  mkRepoDetail (gr_id row) (gr_name row) (gr_repo_path row) (worktree_mode_to_proto (gr_worktree_mode row))
    (gr_local_subfolder row) (default EmptyString (gr_custom_path row)) (default EmptyString (gr_setup_script row))
    (gr_auto_gitignore row) worktree_count (gr_created_at row) (gr_last_active row).

(** The protocol's empty string for an absent value. *)
Definition non_empty (s : string) : option string := if decide (s = EmptyString) then None else Some s.

Definition db_status {ST : SqlText} (e : DatabaseError) : Status :=
  match e with
  | NotFound w => mkStatus CodeNotFound (database_error_text (NotFound w))
  | _ => mkStatus Internal (database_error_text e)
  end.

(** * Repositories *)

Record RegisterRepoRequest := mkRegister {
  rr_repo_path : string;
  rr_name : string;
  rr_worktree_mode : Z;
  rr_local_subfolder : string;
  rr_custom_path : string;
  rr_setup_script : string;
  rr_auto_gitignore : bool
}.

Record UpdateRepoRequest := mkUpdateRepo {
  ur_id : string;
  ur_name : option string;
  ur_worktree_mode : option Z;
  ur_local_subfolder : option string;
  ur_custom_path : option string;
  ur_setup_script : option string;
  ur_auto_gitignore : option bool
}.

(** What listing a directory shows.  A name is [None] when it is not text; the
    entries of a directory are [None] when it cannot be listed. *)
Inductive DirEntry :=
| EntryError
| EntryFile (name : option string)
| EntrySymlink (name : option string)
| EntryDir (name : option string) (entries : option (list DirEntry)).

Definition SKIP_DIRS : list string := ["node_modules"; "target"; "__pycache__"; "vendor"; ".cache"; "dist"; "build"].

Definition scanned_name (name : string) : bool := negb (starts_with "." name) && negb (bool_decide (name ∈ SKIP_DIRS)).

(** The loop over the entries of [dir], [inner] the scan of a directory in
    it.  The results found so far stay when it returns. *)
Fixpoint scan_entries (inner : string → option (list DirEntry) → list string) (dir : string) (es : list DirEntry) : list string :=
  match es with
  | [] => []
  | EntryDir (Some name) sub :: es' =>
      if decide (name = ".git") then [dir]
      else if scanned_name name then inner (path_join dir name) sub ++ scan_entries inner dir es'
      else scan_entries inner dir es'
  | _ :: es' => scan_entries inner dir es'
  end.

Fixpoint scan_for_repos (depth : nat) (dir : string) (entries : option (list DirEntry)) : list string :=
  match depth, entries with
  | S n, Some es => scan_entries (scan_for_repos n) dir es
  | _, _ => []
  end.

Section Repositories.
Context {MC : WorktreeModeCodes} {ST : SqlText} {UA : UnicodeAlphanumeric} {GT : GitTools} {SO : SqlOrder}.

Definition path_name (p : string) : string := default "unknown" (file_name p).

Definition register_repo (uuid : string) (now : Z) (req : RegisterRepoRequest) (st : DaemonDb * Disk)
  : (DaemonDb * Disk) * result Status GitRepoDetail :=
  let '(d, k) := st in
  let path := rr_repo_path req in
  if decide (path = EmptyString) then (st, Err (mkStatus InvalidArgument "repo_path is required"))
  else if negb (is_dir path k) then (st, Err (mkStatus InvalidArgument ("Directory not found: " +:+ path)))
  else if negb (path_exists (path_join path ".git") k)
  then (st, Err (mkStatus InvalidArgument ("Not a git repository (no .git): " +:+ path)))
  else
    let name := if decide (rr_name req = EmptyString) then path_name path else rr_name req in
    match worktree_mode_to_str (rr_worktree_mode req) with
    | Err e => (st, Err e)
    | Ok mode =>
        let sub := default ".worktree" (non_empty (rr_local_subfolder req)) in
        match create_git_repo now uuid path
                (mkRepoParams name mode sub (non_empty (rr_custom_path req)) (non_empty (rr_setup_script req)) (rr_auto_gitignore req)) d with
        | (d', Ok row) => ((d', k), Ok (to_detail row 0))
        | (d', Err e) => ((d', k), Err (mkStatus Internal (database_error_text e)))
        end
    end.

(** The worktrees are removed one by one; those that fail are left. *)
Fixpoint remove_worktrees (ids : list string) (st : DaemonDb * Disk) : (DaemonDb * Disk) * Z :=
  match ids with
  | [] => (st, 0%Z)
  | id :: ids' =>
      let '(st1, r) := worktree_remove id st in
      let '(st2, n) := remove_worktrees ids' st1 in
      (st2, match r with Ok _ => (1 + n)%Z | Err _ => n end)
  end.

Definition unregister_repo (id : string) (with_worktrees : bool) (st : DaemonDb * Disk) : (DaemonDb * Disk) * (bool * Z) :=
  let '(d1, k1, n) := if with_worktrees then remove_worktrees (wt_id <$> list_worktrees (Some id) st.1) st else (st, 0%Z) in
  let '(d2, removed) := remove_git_repo id d1 in
  ((d2, k1), (removed, if removed then wrap_u32 n else 0%Z)).

Definition list_repos (limit offset : nat) (d : DaemonDb) : list GitRepoDetail * Z :=
  let total := count_git_repos d in
  let rows := if decide (0 < limit ∨ 0 < offset) then list_git_repos_paginated limit offset d else list_git_repos d in
  let counts := count_worktrees_by_repo d in
  ((λ row, to_detail row (default 0%Z (counts !! gr_id row))) <$> rows, total).

Definition get_repo (id : string) (d : DaemonDb) : result Status GitRepoDetail :=
  match get_git_repo id d with
  | Err e => Err (db_status e)
  | Ok row => Ok (to_detail row (count_worktrees_for_repo (gr_id row) d))
  end.

Definition update_repo (now : Z) (req : UpdateRepoRequest) (d : DaemonDb) : DaemonDb * result Status GitRepoDetail :=
  match worktree_mode_to_str <$> ur_worktree_mode req with
  | Some (Err e) => (d, Err e)
  | mode =>
      let mode' := match mode with Some (Ok m) => Some m | _ => None end in
      match update_git_repo_partial now (ur_id req) (ur_name req) mode' (ur_local_subfolder req)
              (non_empty <$> ur_custom_path req) (non_empty <$> ur_setup_script req) (ur_auto_gitignore req) d with
      | (d', Err e) => (d', Err (db_status e))
      | (d', Ok row) => (d', Ok (to_detail row (count_worktrees_for_repo (gr_id row) d')))
      end
  end.

(** What a scan makes of the directories found; [uuid] and [clock] give the
    ids and times of the rows it creates. *)
Fixpoint register_scanned (uuid : nat → string) (clock : nat → Z) (n : nat) (paths : list string) (d : DaemonDb)
  : DaemonDb * list GitRepoDetail :=
  match paths with
  | [] => (d, [])
  | p :: ps =>
      match get_git_repo_by_path p d with
      | Ok _ => register_scanned uuid clock n ps d
      | Err _ =>
          match create_git_repo (clock n) (uuid n) p (mkRepoParams (path_name p) "global" ".worktree" None None true) d with
          | (d', Ok row) => let '(d2, l) := register_scanned uuid clock (S n) ps d' in (d2, to_detail row 0 :: l)
          | (d', Err _) => register_scanned uuid clock (S n) ps d'
          end
      end
  end.

Definition scan_depth (max_depth : nat) : nat := if decide (max_depth = 0) then 2 else max_depth.

(** [listing] is what listing the directory shows. *)
Definition scan_repos (uuid : nat → string) (clock : nat → Z) (scan_path : string) (max_depth : nat)
    (listing : option (list DirEntry)) (st : DaemonDb * Disk) : (DaemonDb * Disk) * result Status (list GitRepoDetail * Z) :=
  if decide (scan_path = EmptyString) then (st, Err (mkStatus InvalidArgument "scan_path is required"))
  else if negb (is_dir scan_path st.2) then (st, Err (mkStatus CodeNotFound ("Directory not found: " +:+ scan_path)))
  else
    let repos := scan_for_repos (scan_depth max_depth) scan_path listing in
    let '(d', registered) := register_scanned uuid clock 0 repos st.1 in
    ((d', st.2), Ok (registered, count_git_repos d')).

End Repositories.

(** * Branches *)

Record BranchInfo := mkBranchInfo {
  bi_name : string;
  bi_commit_sha : string;
  bi_commit_message : string;
  bi_is_head : bool;
  bi_has_worktree : bool;
  bi_is_remote : bool
}.

Inductive GitOutcome :=
| GitTimeout
| GitSpawn (e : string)
| GitExit (stderr : string)   (** its output, trimmed *)
| GitNotText (e : string)
| GitStdout (out : string).

Definition REF_FIELD_SEP : Ascii.ascii := byte 31.
Definition field_sep : string := String REF_FIELD_SEP EmptyString.

Definition ref_format_str : string :=
  join field_sep ["%(refname:short)"; "%(objectname)"; "%(subject)"; "%(HEAD)"; "%(worktreepath)"].

Definition parse_branch_line (line : string) (is_remote : bool) : option BranchInfo :=
  match split_on REF_FIELD_SEP line with
  | name :: sha :: subject :: head :: rest =>
      Some (mkBranchInfo name sha subject (bool_decide (trim head = "*"))
              (match rest with wt :: _ => bool_decide (wt ≠ EmptyString) | [] => false end) is_remote)
  | _ => None
  end.

(** A reference of a repository as git prints it. *)
Record Ref := mkRef {
  ref_name : string;       (** in full *)
  ref_short : string;
  ref_sha : string;
  ref_subject : string;
  ref_head : bool;         (** the branch that is checked out *)
  ref_worktree : string    (** the worktree that has it checked out *)
}.

Definition ref_line (r : Ref) : string :=
  join field_sep [ref_short r; ref_sha r; ref_subject r; if ref_head r then "*" else " "; ref_worktree r].

(** A pattern without special characters stands for the reference itself and
    for those below it. *)
Definition ref_matches (pattern : string) (r : Ref) : bool :=
  bool_decide (ref_name r = pattern) ||
  starts_with (if ends_with_slash pattern then pattern else pattern +:+ "/") (ref_name r).

Definition print_refs (rs : list Ref) : string := foldr (λ r out, ref_line r +:+ lf +:+ out) EmptyString rs.

(** Git, run in a directory with arguments; [refs] are the references of the
    repository there, in git's order. *)
Class GitRefs := {
  GitWorld : Type;
  git : string → list string → GitWorld → GitWorld * GitOutcome;
  refs : string → GitWorld → list Ref;
  for_each_ref dir pattern w w' out :
    git dir ["for-each-ref"; "--format"; ref_format_str; pattern] w = (w', GitStdout out) →
    out = print_refs (filter (λ r, ref_matches pattern r = true) (refs dir w));
  for_each_ref_reads dir dir' pattern w :
    refs dir' (git dir ["for-each-ref"; "--format"; ref_format_str; pattern] w).1 = refs dir' w
}.

Section Branches.
Context {ST : SqlText} {UA : UnicodeAlphanumeric} {GR : GitRefs}.

(** The world, with the commands that were run. *)
Definition GitState : Type := GitWorld * list (string * list string).

Definition validate_branch_name (name : string) : result Status unit :=
  if decide (name = EmptyString) then Err (mkStatus InvalidArgument "branch name is required")
  else if starts_with "-" name then Err (mkStatus InvalidArgument "branch name cannot start with a dash")
  else if contains ".." name then Err (mkStatus InvalidArgument "branch name cannot contain '..'")
  else if forallb name_char (chars name) then Ok tt
  else Err (mkStatus InvalidArgument ("branch name contains invalid characters: " +:+ name)).

Definition run_git (dir : string) (args : list string) (w : GitState) : GitState * result Status string :=
  let '(w', outcome) := git dir args w.1 in
  ((w', w.2 ++ [(dir, args)]),
   match outcome with
   | GitTimeout => Err (mkStatus Internal "git command timed out after 30s")
   | GitSpawn e => Err (mkStatus Internal ("failed to spawn git: " +:+ e))
   | GitExit stderr => Err (mkStatus Internal ("git " +:+ default EmptyString (head args) +:+ " failed: " +:+ stderr))
   | GitNotText e => Err (mkStatus Internal ("git output is not valid UTF-8: " +:+ e))
   | GitStdout out => Ok out
   end).

Definition resolve_repo_path (repo_id : string) (st : DaemonDb * Disk) : result Status string :=
  if decide (repo_id = EmptyString) then Err (mkStatus InvalidArgument "repo_id is required")
  else match get_git_repo repo_id st.1 with
  | Err (NotFound _) => Err (mkStatus CodeNotFound ("repo not found: " +:+ repo_id))
  | Err e => Err (mkStatus Internal (database_error_text e))
  | Ok row =>
      if is_dir (gr_repo_path row) st.2 then Ok (gr_repo_path row)
      else Err (mkStatus FailedPrecondition ("repo directory does not exist: " +:+ gr_repo_path row))
  end.

Definition get_branch_info (dir name : string) (is_remote : bool) (w : GitState) : GitState * result Status BranchInfo :=
  let ref_prefix := (if is_remote then "refs/remotes/" else "refs/heads/") +:+ name in
  match run_git dir ["for-each-ref"; "--format"; ref_format_str; ref_prefix] w with
  | (w', Err e) => (w', Err e)
  | (w', Ok out) =>
      (w', match head (str_lines out) with
           | None => Err (mkStatus CodeNotFound ("branch not found: " +:+ name))
           | Some line =>
               match parse_branch_line line is_remote with
               | Some info => Ok info
               | None => Err (mkStatus Internal ("failed to parse branch info for " +:+ name))
               end
           end)
  end.

Definition ends_with (suffix s : string) : bool := bool_decide (is_Some (strip_suffix suffix s)).

Definition local_branches (out : string) : list BranchInfo :=
  omap (λ line, parse_branch_line line false) (filter (λ l, l ≠ EmptyString) (str_lines out)).

Definition remote_branches (out : string) : list BranchInfo :=
  omap (λ line, parse_branch_line line true)
    (filter (λ l, l ≠ EmptyString ∧ ends_with "/HEAD" (default EmptyString (head (split_on REF_FIELD_SEP l))) = false) (str_lines out)).

Definition list_branches (repo_id : string) (include_remote : bool) (st : DaemonDb * Disk) (w : GitState)
  : GitState * result Status (list BranchInfo) :=
  match resolve_repo_path repo_id st with
  | Err e => (w, Err e)
  | Ok dir =>
      match run_git dir ["for-each-ref"; "--format"; ref_format_str; "refs/heads/"] w with
      | (w1, Err e) => (w1, Err e)
      | (w1, Ok out) =>
          if include_remote then
            match run_git dir ["for-each-ref"; "--format"; ref_format_str; "refs/remotes/"] w1 with
            | (w2, Err e) => (w2, Err e)
            | (w2, Ok out2) => (w2, Ok (local_branches out ++ remote_branches out2))
            end
          else (w1, Ok (local_branches out))
      end
  end.

Definition create_branch (repo_id name start_point : string) (st : DaemonDb * Disk) (w : GitState)
  : GitState * result Status BranchInfo :=
  match resolve_repo_path repo_id st, validate_branch_name name with
  | Err e, _ => (w, Err e)
  | Ok _, Err e => (w, Err e)
  | Ok dir, Ok _ =>
      if bool_decide (start_point ≠ EmptyString) && starts_with "-" start_point
      then (w, Err (mkStatus InvalidArgument "start_point cannot start with a dash"))
      else if bool_decide (start_point ≠ EmptyString) && contains ".." start_point
      then (w, Err (mkStatus InvalidArgument "start_point cannot contain '..'"))
      else
        match run_git dir (["branch"; name] ++ option_list (non_empty start_point)) w with
        | (w1, Err e) => (w1, Err e)
        | (w1, Ok _) => get_branch_info dir name false w1
        end
  end.

Definition delete_branch (repo_id name : string) (force : bool) (st : DaemonDb * Disk) (w : GitState)
  : GitState * result Status bool :=
  match resolve_repo_path repo_id st, validate_branch_name name with
  | Err e, _ => (w, Err e)
  | Ok _, Err e => (w, Err e)
  | Ok dir, Ok _ =>
      match run_git dir ["branch"; (if force then "-D" else "-d"); name] w with
      | (w1, Ok _) => (w1, Ok true)
      | (w1, Err s) =>
          (w1, if contains "not found" (message s) || contains "not a valid branch name" (message s)
               then Err (mkStatus CodeNotFound ("branch not found: " +:+ name)) else Err s)
      end
  end.

Definition get_branch (repo_id name : string) (st : DaemonDb * Disk) (w : GitState) : GitState * result Status BranchInfo :=
  match resolve_repo_path repo_id st, validate_branch_name name with
  | Err e, _ => (w, Err e)
  | Ok _, Err e => (w, Err e)
  | Ok dir, Ok _ => get_branch_info dir name false w
  end.

End Branches.

(** * Worktrees (worktree_svc.rs) *)

Record WorktreeDetail := mkWorktreeDetail {
  wd_id : string;
  wd_name : string;
  wd_path : string;
  wd_branch : string;
  wd_repo_id : string;
  wd_setup_script : string;
  wd_exists_on_disk : bool;
  wd_session_count : Z;
  wd_created_at : Z;
  wd_last_active : Z
}.

Definition worktree_detail (info : WorktreeInfo) : WorktreeDetail :=
  let w := wi_worktree info in
  mkWorktreeDetail (wt_id w) (wt_name w) (wt_path w) (wt_branch w) (wt_repo_id w) (default EmptyString (wt_setup_script w))
    (wi_exists_on_disk info) (wrap_u32 (Z.of_nat (wi_session_count info))) (wt_created_at w) (wt_last_active w).

Definition worktree_error_text {ST : SqlText} (e : WorktreeError) : string :=
  match e with
  | WtGit m => "Git command failed: " +:+ m
  | WtDatabase e => "Database error: " +:+ database_error_text e
  | WtNotFound m => "Worktree not found: " +:+ m
  | WtPathExists m => "Worktree path already exists: " +:+ m
  | WtIo m => "I/O error: " +:+ m
  | WtSetupFailed m => "Setup script failed: " +:+ m
  | WtInvalidName m => "Invalid name: " +:+ m
  end.

Section WorktreeService.
Context {ST : SqlText} {UA : UnicodeAlphanumeric} {GT : GitTools} {SO : SqlOrder}.

Definition svc_create_worktree (env : WorktreeEnv) (name repo_id branch setup_script : string) (st : DaemonDb * Disk)
  : (DaemonDb * Disk) * result Status WorktreeDetail :=
  match get_git_repo repo_id st.1 with
  | Err e => (st, Err (mkStatus CodeNotFound ("Repository not found: " +:+ database_error_text e)))
  | Ok row =>
      match worktree_create env name (repo_of_row row) branch (non_empty setup_script) st with
      | (st1, Err e) => (st1, Err (mkStatus Internal (worktree_error_text e)))
      | (st1, Ok wt) =>
          (st1, match worktree_get (wt_id wt) st1 with
                | Ok info => Ok (worktree_detail info)
                | Err e => Err (mkStatus Internal (worktree_error_text e))
                end)
      end
  end.

Definition svc_remove_worktree (id : string) (st : DaemonDb * Disk) : (DaemonDb * Disk) * result Status bool :=
  match worktree_remove id st with
  | (st1, Ok removed) => (st1, Ok removed)
  | (st1, Err e) => (st1, Err (mkStatus Internal (worktree_error_text e)))
  end.

Definition svc_list_worktrees (repo_id : string) (st : DaemonDb * Disk) : list WorktreeDetail :=
  worktree_detail <$> worktree_list (non_empty repo_id) st.

Definition svc_get_worktree (id : string) (st : DaemonDb * Disk) : result Status WorktreeDetail :=
  match worktree_get id st with
  | Ok info => Ok (worktree_detail info)
  | Err e => Err (mkStatus CodeNotFound (worktree_error_text e))
  end.

End WorktreeService.
