(* ===== verification/RepoRuns.v ===== *)
(** What the repository service promises.

    Scanning a directory, the consistency of the tables in every run of the
    repository and worktree services, what removing a repository leaves, and
    what a worktree's creation leaves when it fails. *)
From stdpp Require Import gmap strings list fin_maps.
From Stdlib Require Import ZArith Lia SpecFloat.
From S2P Require Import Prelude Protocol Commands SessionStore Fingerprint Utf8 Completion RepoStore Worktrees RepoService.

(** * Scanning *)

Definition is_repo (es : list DirEntry) : Prop := ∃ sub, EntryDir (Some ".git") sub ∈ es.

(** The repositories a listing shows down to a depth, outside the directories
    that are skipped. *)
Inductive repo_at : nat → string → list DirEntry → string → Prop :=
| repo_here n dir es : is_repo es → repo_at (S n) dir es dir
| repo_below n dir es name sub p :
    EntryDir (Some name) (Some sub) ∈ es → scanned_name name = true →
    repo_at n (path_join dir name) sub p → repo_at (S n) dir es p.

(** Those that are in no other. *)
Inductive outermost_repo : nat → string → list DirEntry → string → Prop :=
| outermost_here n dir es : is_repo es → outermost_repo (S n) dir es dir
| outermost_below n dir es name sub p :
    ¬ is_repo es → EntryDir (Some name) (Some sub) ∈ es → scanned_name name = true →
    outermost_repo n (path_join dir name) sub p → outermost_repo (S n) dir es p.

Lemma git_not_scanned : scanned_name ".git" = false.
Proof. done. Qed.

Lemma entries_sound (inner : string → option (list DirEntry) → list string) (dir p : string) (es : list DirEntry) :
  p ∈ scan_entries inner dir es →
  (p = dir ∧ is_repo es) ∨
  ∃ name sub, EntryDir (Some name) sub ∈ es ∧ scanned_name name = true ∧ p ∈ inner (path_join dir name) sub.
Proof.
  assert (∀ e es', is_repo es' → is_repo (e :: es')) as Hr by (intros e es' [s Hs]; exists s; by apply list_elem_of_further).
  induction es as [|e es IH]; intros H; [by apply not_elem_of_nil in H|].
  assert (p ∈ scan_entries inner dir es → (p = dir ∧ is_repo (e :: es)) ∨
    ∃ name sub, EntryDir (Some name) sub ∈ e :: es ∧ scanned_name name = true ∧ p ∈ inner (path_join dir name) sub) as IH'.
  { intros [[? ?]|(name & sub & ? & ? & ?)]%IH; [left; by auto|right]. exists name, sub. split_and!; [by apply list_elem_of_further|done..]. }
  clear IH. destruct e as [|nm|nm|[name|] sub]; simpl in H; auto. case_decide as Hg; [subst|].
  - apply list_elem_of_singleton in H. left. split; [done|]. exists sub. apply list_elem_of_here.
  - destruct (scanned_name name) eqn:Es; [|by auto]. apply elem_of_app in H as [H|H]; [|by auto].
    right. exists name, sub. split_and!; [apply list_elem_of_here|done..].
Qed.

Lemma entries_here (inner : string → option (list DirEntry) → list string) (dir : string) (es : list DirEntry) :
  is_repo es → dir ∈ scan_entries inner dir es.
Proof.
  intros [s Hs]. induction es as [|e es IH]; [by apply not_elem_of_nil in Hs|].
  apply elem_of_cons in Hs as [<-|Hs]; [simpl; by apply list_elem_of_singleton|]. specialize (IH Hs).
  destruct e as [|nm|nm|[name|] sub]; simpl; auto. case_decide; [by apply list_elem_of_singleton|].
  destruct (scanned_name name); [apply elem_of_app; by right|done].
Qed.

Lemma entries_below (inner : string → option (list DirEntry) → list string) (dir name p : string) (sub : option (list DirEntry))
    (es : list DirEntry) :
  ¬ is_repo es → EntryDir (Some name) sub ∈ es → scanned_name name = true → p ∈ inner (path_join dir name) sub →
  p ∈ scan_entries inner dir es.
Proof.
  intros Hr Hs Hn Hp. induction es as [|e es IH]; [by apply not_elem_of_nil in Hs|].
  assert (¬ is_repo es) as Hr' by (intros [s ?]; apply Hr; exists s; by apply list_elem_of_further).
  apply elem_of_cons in Hs as [<-|Hs].
  - simpl. case_decide as Hg; [subst; by rewrite git_not_scanned in Hn|]. rewrite Hn. apply elem_of_app. by left.
  - specialize (IH Hr' Hs). destruct e as [|nm|nm|[name'|] sub']; simpl; auto.
    case_decide; [subst; exfalso; apply Hr; exists sub'; apply list_elem_of_here|].
    destruct (scanned_name name'); [apply elem_of_app; by right|done].
Qed.

Lemma scan_sound (n : nat) (dir p : string) (es : list DirEntry) : p ∈ scan_for_repos n dir (Some es) → repo_at n dir es p.
Proof.
  revert dir es. induction n as [|n IH]; intros dir es H; simpl in H; [by apply not_elem_of_nil in H|].
  apply entries_sound in H as [[-> Hr]|(name & [sub|] & He & Hn & Hp)]; [by apply repo_here| |].
  - eapply repo_below; [done..|]. by apply IH.
  - destruct n; by apply not_elem_of_nil in Hp.
Qed.

Lemma scan_complete (n : nat) (dir p : string) (es : list DirEntry) : outermost_repo n dir es p → p ∈ scan_for_repos n dir (Some es).
Proof.
  induction 1 as [n dir es Hr|n dir es name sub p Hr He Hn Hp IH]; simpl; [by apply entries_here|by eapply entries_below].
Qed.

(** C22: Scanning finds every repository that is in no other, whatever the order
    in which directories are listed, and only repositories within the depth
    outside the directories that are skipped; where no repository is in
    another it finds exactly these. *)
Theorem scan_finds_repositories (n : nat) (dir : string) (es : list DirEntry) :
  (∀ p, outermost_repo n dir es p → p ∈ scan_for_repos n dir (Some es)) ∧
  (∀ p, p ∈ scan_for_repos n dir (Some es) → repo_at n dir es p) ∧
  ((∀ p, repo_at n dir es p → outermost_repo n dir es p) →
   ∀ p, p ∈ scan_for_repos n dir (Some es) ↔ repo_at n dir es p).
Proof.
  split_and!; [intros p; apply scan_complete|intros p; apply scan_sound|]. intros H p. split; [apply scan_sound|].
  intros Hp. apply scan_complete, H, Hp.
Qed.

(** Whether a repository within a repository is found depends on whether the
    listing shows it before [.git]. *)
Lemma nested_by_listing_order (n : nat) (dir name : string) (g : option (list DirEntry)) (sub : list DirEntry) :
  scanned_name name = true → is_repo sub → path_join dir name ≠ dir →
  scan_for_repos (S (S n)) dir (Some [EntryDir (Some ".git") g; EntryDir (Some name) (Some sub)]) = [dir] ∧
  path_join dir name ∈ scan_for_repos (S (S n)) dir (Some [EntryDir (Some name) (Some sub); EntryDir (Some ".git") g]).
Proof.
  intros Hn Hr Hne. split; [done|]. cbn [scan_for_repos scan_entries]. case_decide as Hg; [subst; by rewrite git_not_scanned in Hn|].
  rewrite Hn. apply elem_of_app. left. by apply (entries_here (scan_for_repos n)).
Qed.

(** * Registering what a scan found *)

Section Registering.
Context {MC : WorktreeModeCodes} {ST : SqlText} {UA : UnicodeAlphanumeric} {GT : GitTools} {SO : SqlOrder}.

(** The ids from [n] on are new and distinct. *)
Definition fresh_ids (uuid : nat → string) (n : nat) (d : DaemonDb) : Prop :=
  (∀ i j, uuid i = uuid j → i = j) ∧ ∀ i, n ≤ i → db_repos d !! uuid i = None.

Definition scanned_params (p : string) : GitRepoParams := mkRepoParams (path_name p) "global" ".worktree" None None true.

Lemma create_scanned (now : Z) (id p : string) (d : DaemonDb) (e : DatabaseError) :
  db_repos d !! id = None → get_git_repo_by_path p d = Err e →
  ∃ row, gr_repo_path row = p ∧
    create_git_repo now id p (scanned_params p) d = (set_repos (<[id := row]> (db_repos d)) d, Ok row).
Proof.
  intros Hid Hp. unfold create_git_repo. case_decide as Hm; [exfalso; apply Hm; simpl; set_solver|].
  rewrite Hid, Hp. eexists. split; [|unfold get_git_repo; simpl; by rewrite lookup_insert_eq]. done.
Qed.

Lemma fresh_ids_next (uuid : nat → string) (n : nat) (d : DaemonDb) (row : GitRepoRow) :
  fresh_ids uuid n d → fresh_ids uuid (S n) (set_repos (<[uuid n := row]> (db_repos d)) d).
Proof.
  intros [Hinj Hf]. split; [done|]. intros i Hi. simpl. rewrite lookup_insert_ne; [apply Hf; lia|].
  intros Heq%Hinj. lia.
Qed.

Lemma registered_all (uuid : nat → string) (clock : nat → Z) (ps : list string) (n : nat) (d d' : DaemonDb) (l : list GitRepoDetail) :
  fresh_ids uuid n d → register_scanned uuid clock n ps d = (d', l) →
  db_repos d ⊆ db_repos d' ∧ ∀ p, p ∈ ps → ∃ id r, db_repos d' !! id = Some r ∧ gr_repo_path r = p.
Proof.
  revert n d l. induction ps as [|p ps IH]; intros n d l Hf Hr; simpl in Hr.
  { simplify_eq. split; [done|]. intros p Hp. by apply not_elem_of_nil in Hp. }
  destruct (get_git_repo_by_path p d) as [r|e] eqn:Ep.
  - destruct (IH n d l Hf Hr) as [Hsub Hall]. split; [done|]. intros q [->|Hq]%elem_of_cons; [|by auto].
    unfold get_git_repo_by_path in Ep. destruct (head _) as [r'|] eqn:Eh; simplify_eq. apply head_Some_elem_of in Eh.
    apply list_elem_of_filter in Eh as [Hpath [id Hid]%elem_of_rows]. exists id, r. split; [|done].
    by eapply lookup_weaken.
  - fold (scanned_params p) in Hr. destruct (create_scanned (clock n) (uuid n) p d e) as (row & Hpath & Hc); [by apply Hf|done|].
    rewrite Hc in Hr. destruct (register_scanned uuid clock (S n) ps _) as [d2 l2] eqn:E2. simplify_eq.
    destruct (IH (S n) _ l2 (fresh_ids_next uuid n d row Hf) E2) as [Hsub Hall]. simpl in Hsub.
    assert (db_repos d !! uuid n = None) as Hn by (by apply Hf). split.
    + etrans; [by apply insert_subseteq|done].
    + intros q [->|Hq]%elem_of_cons; [|by auto]. exists (uuid n), row. split; [|done].
      eapply lookup_weaken; [|done]. apply lookup_insert_eq.
Qed.

Lemma registered_none (uuid : nat → string) (clock : nat → Z) (ps : list string) (n : nat) (d : DaemonDb) :
  (∀ p, p ∈ ps → ∃ id r, db_repos d !! id = Some r ∧ gr_repo_path r = p) → register_scanned uuid clock n ps d = (d, []).
Proof.
  induction ps as [|p ps IH]; intros H; [done|]. simpl. destruct (H p) as (id & r & Hr & Hp); [apply list_elem_of_here|].
  destruct (by_path_some p d id r Hr Hp) as [r' ->]. apply IH. intros q Hq. apply H. by apply list_elem_of_further.
Qed.

(** After a scan every directory it found is registered and no earlier row
    has changed; scanning again, with whatever ids and times, registers
    nothing. *)
Theorem scan_is_idempotent (uuid uuid2 : nat → string) (clock clock2 : nat → Z) (path : string) (depth : nat)
    (listing : option (list DirEntry)) (d : DaemonDb) (k : Disk) :
  path ≠ EmptyString → is_dir path k = true → fresh_ids uuid 0 d →
  ∃ d' l, scan_repos uuid clock path depth listing (d, k) = ((d', k), Ok (l, count_git_repos d')) ∧
    db_repos d ⊆ db_repos d' ∧
    (∀ p, p ∈ scan_for_repos (scan_depth depth) path listing → ∃ r, get_git_repo_by_path p d' = Ok r) ∧
    scan_repos uuid2 clock2 path depth listing (d', k) = ((d', k), Ok ([], count_git_repos d')).
Proof.
  intros Hp Hdir Hf. unfold scan_repos. case_decide as He; [done|]. simpl. rewrite Hdir. simpl.
  destruct (register_scanned uuid clock 0 _ d) as [d' l] eqn:E. destruct (registered_all _ _ _ _ _ _ _ Hf E) as [Hsub Hall].
  exists d', l. split_and!; [done|done| |by rewrite (registered_none uuid2 clock2 _ 0 d' Hall)].
  intros p (id & r & Hr & Hpath)%Hall. by eapply by_path_some.
Qed.

End Registering.

(** Runs of the repository and worktree services beside the session tables.

    A state is the database, the disk and the worktree creations that wait
    for git; a step is a call, the rest of a creation, or a statement of the
    daemon's other services on sessions, messages and clients. *)

(** * Statements on sessions *)

Inductive SessionWrite :=
| WCreateSession (id model working_directory : string)
| WSessionStatus (id : string) (status : SessionStatus)
| WClaudeId (id claude_session_id : string)
| WUsage (id : string) (input output : Z) (cost : spec_float)
| WSessionName (id name : string)
| WDeleteSession (id : string)
| WMessage (session_id : string) (sequence : Z) (message_type : string) (payload : list Z)
| WDeleteMessages (session_id : string) (sequence : Z)
| WCompaction (session_id : string) (sequence : Z)
| WAcquireLock (session_id client_id : string)
| WReleaseLock (session_id : string)
| WRegisterClient (client_id client_type : string)
| WHeartbeat (client_id : string)
| WStaleClients (max_age_secs : Z)
| WUnregisterClient (client_id : string).

Definition session_write (now : Z) (w : SessionWrite) (d : DaemonDb) : DaemonDb :=
  match w with
  | WCreateSession id model wd => (create_session now id model wd d).1
  | WSessionStatus id st => update_session_status now id st d
  | WClaudeId id c => update_claude_session_id now id c d
  | WUsage id i o c => update_session_usage now id i o c d
  | WSessionName id name => (update_session_name now id name d).1
  | WDeleteSession id => (delete_session id d).1
  | WMessage sid n ty p => (insert_message now sid n ty p d).1
  | WDeleteMessages sid n => (delete_messages_before_sequence sid n d).1
  | WCompaction sid n => update_compaction_sequence now sid n d
  | WAcquireLock sid c => (acquire_input_lock now sid c d).1
  | WReleaseLock sid => (release_input_lock_row now sid d).1
  | WRegisterClient c ty => (register_client now c ty d).1
  | WHeartbeat c => update_client_heartbeat now c d
  | WStaleClients age => (remove_stale_clients now age d).1
  | WUnregisterClient c => unregister_client c d
  end.

(** The repository tables are untouched and no session is bound to another
    worktree than before. *)
Definition session_frame (d d' : DaemonDb) : Prop :=
  db_worktrees d' = db_worktrees d ∧ db_repos d' = db_repos d ∧
  ∀ sid s', db_sessions d' !! sid = Some s' → s_worktree_id s' = None ∨
    ∃ s, db_sessions d !! sid = Some s ∧ s_worktree_id s' = s_worktree_id s.

Lemma session_frame_same (d d' : DaemonDb) :
  db_worktrees d' = db_worktrees d → db_repos d' = db_repos d → db_sessions d' = db_sessions d → session_frame d d'.
Proof. intros H1 H2 H3. split_and!; [done..|]. intros sid s. rewrite H3. by eauto. Qed.

Lemma session_frame_update (id : string) (f : Session → Session) (d d' : DaemonDb) :
  db_sessions d' = alter f id (db_sessions d) → (∀ s, s_worktree_id (f s) = s_worktree_id s) →
  db_worktrees d' = db_worktrees d → db_repos d' = db_repos d → session_frame d d'.
Proof.
  intros H3 Hf H1 H2. split_and!; [done..|]. intros sid s. rewrite H3, lookup_alter. case_decide; [subst|by eauto].
  intros (s0 & H0 & ->)%fmap_Some. right. by eauto.
Qed.

Lemma flag_client_frame (b : bool) (c : option string) (d : DaemonDb) :
  db_worktrees (flag_client b c d) = db_worktrees d ∧ db_repos (flag_client b c d) = db_repos d ∧
  db_sessions (flag_client b c d) = db_sessions d.
Proof. by destruct c. Qed.

Lemma session_write_frame (now : Z) (w : SessionWrite) (d : DaemonDb) : session_frame d (session_write now w d).
Proof.
  destruct w; simpl; try (by apply session_frame_same); try (by eapply session_frame_update).
  - unfold create_session. destruct (db_sessions d !! id) eqn:E; [by apply session_frame_same|]. split_and!; [done..|].
    simpl. intros sid s [[<- <-]|[_ H]]%lookup_insert_Some; [by left|by eauto].
  - unfold update_session_name. destruct (db_sessions d !! id); [by eapply session_frame_update|by apply session_frame_same].
  - unfold delete_session. destruct (db_sessions d !! id); [|by apply session_frame_same]. split_and!; [done..|].
    simpl. intros sid s' [_ H]%lookup_delete_Some. by eauto.
  - unfold insert_message. repeat case_match; by apply session_frame_same.
  - unfold acquire_input_lock. cbn zeta. cbn [fst].
    eapply (session_frame_update session_id (set_session_lock now (Some client_id))); [|done|..]; simpl;
      by rewrite ?(proj1 (flag_client_frame _ _ _)), ?(proj1 (proj2 (flag_client_frame _ _ _))), ?(proj2 (proj2 (flag_client_frame _ _ _))).
  - unfold release_input_lock_row. destruct (get_session session_id d) as [s|e]; [|by apply session_frame_same]. cbn [fst].
    destruct (flag_client_frame false (s_input_lock_client s) d) as (H1 & H2 & H3).
    eapply (session_frame_update session_id (set_session_lock now None)); [simpl; by rewrite H3|done..].
  - unfold register_client. case_decide; by apply session_frame_same.
Qed.

Lemma frame_repos_ok (d d' : DaemonDb) : session_frame d d' → repos_ok d → repos_ok d'.
Proof.
  intros (H1 & H2 & H3) [R1 R2 R3 R4 R5]. split; rewrite ?H1, ?H2; try done.
  intros sid s w Hs Hw. destruct (H3 sid s Hs) as [Hn|(s0 & Hs0 & Heq)]; [congruence|]. eapply R5; [done|congruence].
Qed.

(** * Calls *)

(** A creation that waits for git, with what it knows of the repository. *)
Record Creation := mkCreation {
  cr_env : WorktreeEnv;
  cr_name : string;
  cr_repo : GitRepo;
  cr_branch : string;
  cr_script : option string
}.

Record RepoSys := mkRepoSys {
  rs_db : DaemonDb;
  rs_disk : Disk;
  rs_creating : list Creation
}.

Inductive RepoCall :=
| CallRegister (uuid : string) (now : Z) (req : RegisterRepoRequest)
| CallUnregister (id : string) (with_worktrees : bool)
| CallUpdate (now : Z) (req : UpdateRepoRequest)
| CallScan (uuid : nat → string) (clock : nat → Z) (path : string) (depth : nat) (listing : option (list DirEntry))
| CallCreateBegin (env : WorktreeEnv) (name repo_id branch setup_script : string)
| CallCreateEnd (i : nat)
| CallRemove (id : string)
| CallPath (now : Z) (id : string)
| CallSessions (now : Z) (w : SessionWrite)
| DiskChange (k : Disk).   (** by other programs *)

Section Runs.
Context {MC : WorktreeModeCodes} {ST : SqlText} {UA : UnicodeAlphanumeric} {GT : GitTools} {SO : SqlOrder}.

Definition with_state (st : DaemonDb * Disk) (y : RepoSys) : RepoSys := mkRepoSys st.1 st.2 (rs_creating y).

Definition create_begin (env : WorktreeEnv) (name repo_id branch setup_script : string) (y : RepoSys) : RepoSys :=
  match get_git_repo repo_id (rs_db y) with
  | Err _ => y
  | Ok row =>
      match create_checkout env name (repo_of_row row) branch (rs_disk y) with
      | (k, Err _) => mkRepoSys (rs_db y) k (rs_creating y)
      | (k, Ok _) => mkRepoSys (rs_db y) k (rs_creating y ++ [mkCreation env name (repo_of_row row) branch (non_empty setup_script)])
      end
  end.

Definition create_end (c : Creation) (st : DaemonDb * Disk) : (DaemonDb * Disk) * result WorktreeError Worktree :=
  create_record (cr_env c) (cr_name c) (cr_repo c) (cr_branch c) (cr_script c) st.

Definition repo_step (c : RepoCall) (y : RepoSys) : RepoSys :=
  let st := (rs_db y, rs_disk y) in
  match c with
  | CallRegister uuid now req => with_state (register_repo uuid now req st).1 y
  | CallUnregister id wts => with_state (unregister_repo id wts st).1 y
  | CallUpdate now req => with_state ((update_repo now req (rs_db y)).1, rs_disk y) y
  | CallScan uuid clock path depth listing => with_state (scan_repos uuid clock path depth listing st).1 y
  | CallCreateBegin env name repo_id branch script => create_begin env name repo_id branch script y
  | CallCreateEnd i =>
      match rs_creating y !! i with
      | None => y
      | Some c => let st' := (create_end c st).1 in mkRepoSys st'.1 st'.2 (delete i (rs_creating y))
      end
  | CallRemove id => with_state (svc_remove_worktree id st).1 y
  | CallPath now id => with_state (worktree_path now id st).1 y
  | CallSessions now w => mkRepoSys (session_write now w (rs_db y)) (rs_disk y) (rs_creating y)
  | DiskChange k => mkRepoSys (rs_db y) k (rs_creating y)
  end.

Definition repo_start (k : Disk) : RepoSys := mkRepoSys empty_db k [].
Definition repo_run (cs : list RepoCall) (y : RepoSys) : RepoSys := foldl (λ y c, repo_step c y) y cs.

(** ** What every call keeps *)

Variable I : DaemonDb → Prop.
Hypothesis I_create_repo : ∀ now id path p d, I d → I (create_git_repo now id path p d).1.
Hypothesis I_update_row : ∀ now id p d, I d → I (update_git_repo_row now id p d).1.
Hypothesis I_remove_repo : ∀ id d, I d → I (remove_git_repo id d).1.
Hypothesis I_create_worktree : ∀ now id name path branch repo script d, I d → I (create_worktree now id name path branch repo script d).1.
Hypothesis I_remove_worktree : ∀ id d, I d → I (remove_worktree id d).1.
Hypothesis I_touch : ∀ now id d, I d → I (touch_worktree now id d).
Hypothesis I_sessions : ∀ now w d, I d → I (session_write now w d).

Lemma register_keeps (uuid : string) (now : Z) (req : RegisterRepoRequest) (d : DaemonDb) (k : Disk) :
  I d → I (register_repo uuid now req (d, k)).1.1.
Proof.
  intros Hd. unfold register_repo. cbn zeta. repeat case_match; simplify_eq/=; try done;
    match goal with H : create_git_repo ?n ?i ?pa ?pp ?d = _ |- _ =>
      let K := fresh in pose proof (I_create_repo n i pa pp d Hd) as K; by rewrite H in K end.
Qed.

Lemma wt_remove_keeps (id : string) (st : DaemonDb * Disk) : I st.1 → I (worktree_remove id st).1.1.
Proof.
  destruct st as [d k]. intros Hd. unfold worktree_remove. repeat case_match; simplify_eq/=; try done; by apply I_remove_worktree.
Qed.

Lemma wts_remove_keeps (ids : list string) (st : DaemonDb * Disk) : I st.1 → I (remove_worktrees ids st).1.1.
Proof.
  revert st. induction ids as [|id ids IH]; intros st Hst; [done|]. simpl.
  pose proof (wt_remove_keeps id st Hst) as H. destruct (worktree_remove id st) as [st1 r]. specialize (IH st1 H).
  by destruct (remove_worktrees ids st1) as [st2 n].
Qed.

Lemma unregister_keeps (id : string) (wts : bool) (st : DaemonDb * Disk) : I st.1 → I (unregister_repo id wts st).1.1.
Proof.
  intros Hst. unfold unregister_repo.
  assert (I (if wts then remove_worktrees (wt_id <$> list_worktrees (Some id) st.1) st else (st, 0%Z)).1.1) as H
    by (destruct wts; [by apply wts_remove_keeps|done]).
  destruct (if wts then _ else _) as [[d1 k1] n]. simpl in H. apply (I_remove_repo id) in H. by destruct (remove_git_repo id d1).
Qed.

Lemma update_keeps (now : Z) (req : UpdateRepoRequest) (d : DaemonDb) : I d → I (update_repo now req d).1.
Proof.
  intros Hd. unfold update_repo, update_git_repo_partial. cbn zeta. repeat case_match; simplify_eq/=; try done;
    match goal with H : update_git_repo_row ?n ?i ?pp ?d = _ |- _ =>
      let K := fresh in pose proof (I_update_row n i pp d Hd) as K; by rewrite H in K end.
Qed.

Lemma scan_keeps (uuid : nat → string) (clock : nat → Z) (path : string) (depth : nat) (listing : option (list DirEntry))
    (st : DaemonDb * Disk) : I st.1 → I (scan_repos uuid clock path depth listing st).1.1.
Proof.
  intros Hst. unfold scan_repos. case_decide; [done|]. destruct (is_dir path st.2); [|done]. simpl.
  generalize (scan_for_repos (scan_depth depth) path listing). intros ps. revert Hst. generalize 0 st.1.
  induction ps as [|p ps IH]; intros n d Hd; [done|]. simpl. destruct (get_git_repo_by_path p d) as [r|e]; [by apply IH|].
  pose proof (I_create_repo (clock n) (uuid n) p (mkRepoParams (path_name p) "global" ".worktree" None None true) d Hd) as Hnew.
  destruct (create_git_repo (clock n) (uuid n) p _ d) as [d' [row|e']]; [|by apply IH].
  specialize (IH (S n) d' Hnew). by destruct (register_scanned uuid clock (S n) ps d').
Qed.

Lemma create_end_keeps (c : Creation) (st : DaemonDb * Disk) : I st.1 → I (create_end c st).1.1.
Proof.
  destruct st as [d k]. intros Hd. unfold create_end, create_record. cbn zeta.
  match goal with |- context [create_worktree ?a ?b ?x ?y ?z ?r ?s d] => pose proof (I_create_worktree a b x y z r s d Hd) as Hnew;
    destruct (create_worktree a b x y z r s d) as [d1 [wt|e]] end; [|done].
  destruct (match cr_script c with Some _ => _ | None => _ end) as [script|]; [|done].
  destruct (run_script _ script k) as [k1 r]. destruct (setup_result script r) as [u|e]; [done|]. apply wt_remove_keeps. exact Hnew.
Qed.

Lemma path_keeps (now : Z) (id : string) (st : DaemonDb * Disk) : I st.1 → I (worktree_path now id st).1.1.
Proof. intros Hd. unfold worktree_path. repeat case_match; simplify_eq/=; try done; by apply I_touch. Qed.

Lemma svc_remove_keeps (id : string) (st : DaemonDb * Disk) : I st.1 → I (svc_remove_worktree id st).1.1.
Proof. intros H%(wt_remove_keeps id). unfold svc_remove_worktree. by destruct (worktree_remove id st) as [st1 [b|e]]. Qed.

Lemma repo_run_keeps (cs : list RepoCall) (y : RepoSys) : I (rs_db y) → I (rs_db (repo_run cs y)).
Proof.
  unfold repo_run. revert y. induction cs as [|c cs IH]; intros y Hy; [done|]. cbn [foldl]. apply IH.
  destruct c; unfold repo_step; cbn zeta; unfold with_state; cbn [rs_db rs_disk rs_creating].
  - by apply register_keeps.
  - by apply unregister_keeps.
  - cbn [fst]. by apply update_keeps.
  - by apply scan_keeps.
  - unfold create_begin. by repeat case_match.
  - destruct (rs_creating y !! i) as [c|]; [|done]. cbn [rs_db]. by apply create_end_keeps.
  - by apply svc_remove_keeps.
  - by apply path_keeps.
  - by apply I_sessions.
  - done.
Qed.

End Runs.

(** * The tables in every run *)

Section Theorems.
Context {MC : WorktreeModeCodes} {ST : SqlText} {UA : UnicodeAlphanumeric} {GT : GitTools} {SO : SqlOrder}.

Lemma run_repos_ok (cs : list RepoCall) (k : Disk) : repos_ok (rs_db (repo_run cs (repo_start k))).
Proof.
  apply repo_run_keeps; [apply create_repo_ok|apply update_repo_row_ok|apply remove_repo_ok|apply create_worktree_ok|
    apply remove_worktree_ok|apply touch_worktree_ok| |apply empty_repos_ok].
  intros now w d. apply frame_repos_ok, session_write_frame.
Qed.

(** C37: The mode of a repository that is listed is one of the three, and is
    read back as the mode that is stored. *)
Theorem listed_modes_are_valid (cs : list RepoCall) (k : Disk) (limit offset : nat) (r : GitRepoDetail) :
  r ∈ (list_repos limit offset (rs_db (repo_run cs (repo_start k)))).1 →
  ∃ row, db_repos (rs_db (repo_run cs (repo_start k))) !! grd_id r = Some row ∧
    grd_worktree_mode r ∈ mode_i32 <$> [ProtoGlobal; ProtoLocal; ProtoCustom] ∧
    worktree_mode_to_str (grd_worktree_mode r) = Ok (gr_worktree_mode row).
Proof.
  pose proof (run_repos_ok cs k) as Hok. revert Hok. generalize (rs_db (repo_run cs (repo_start k))). intros d Hok.
  unfold list_repos. cbn [fst]. intros (row & -> & Hrow)%list_elem_of_fmap.
  assert (row ∈ repo_rows d) as [id Hid]%elem_of_rows.
  { unfold list_git_repos_paginated, list_git_repos in Hrow. cbn zeta in Hrow. repeat case_decide; rewrite <- (order_by_perm recent_repo);
      try done; [|apply (subseteq_take limit) in Hrow]; by apply (subseteq_drop offset) in Hrow. }
  destruct (ro_repo_keys d Hok id row Hid) as [<- Hm]. exists row. cbn. split; [done|].
  unfold worktree_modes in Hm. unfold worktree_mode_to_proto, worktree_mode_to_str.
  rewrite !elem_of_cons, elem_of_nil in Hm. destruct Hm as [Hm|[Hm|[Hm|[]]]]; rewrite Hm;
    repeat (case_decide; simplify_eq); rewrite mode_codes; split; try done; set_solver.
Qed.

(** Nothing the services do binds a session to its worktree: whatever sessions
    were started, for whatever worktree, every worktree is listed with no
    sessions. *)
Theorem worktrees_count_no_session (cs : list RepoCall) (k k' : Disk) (repo_id : string) (w : WorktreeDetail) :
  w ∈ svc_list_worktrees repo_id (rs_db (repo_run cs (repo_start k)), k') → wd_session_count w = 0%Z.
Proof.
  set (unbound := λ d : DaemonDb, ∀ sid s, db_sessions d !! sid = Some s → s_worktree_id s = None).
  assert (unbound (rs_db (repo_run cs (repo_start k)))) as H.
  { apply (repo_run_keeps unbound); clear; unfold unbound.
    - intros now id path p d H. unfold create_git_repo. by repeat case_match.
    - intros now id p d H. unfold update_git_repo_row. by repeat case_match.
    - intros id d H. simpl. intros sid s (s0 & <- & H0)%lookup_fmap_Some. unfold clear_worktree. rewrite (H sid s0 H0). simpl. by eapply H.
    - intros now id name path branch repo script d H. unfold create_worktree. by repeat case_match.
    - intros id d H. simpl. intros sid s (s0 & <- & H0)%lookup_fmap_Some. unfold clear_worktree. rewrite (H sid s0 H0). simpl. by eapply H.
    - intros now id d H. done.
    - intros now w d H sid s' Hs. destruct (session_write_frame now w d) as (_ & _ & Hf).
      destruct (Hf sid s' Hs) as [->|(s & Hs0 & ->)]; [done|by eapply H].
    - intros sid s. simpl. by rewrite lookup_empty. }
  revert H. generalize (rs_db (repo_run cs (repo_start k))). intros d H.
  unfold svc_list_worktrees, worktree_list. intros (i & -> & (wt & -> & _)%list_elem_of_fmap)%list_elem_of_fmap. cbn.
  destruct (get_worktree_sessions (wt_id wt) d) as [|s ss] eqn:E; [done|]. exfalso.
  assert (s ∈ get_worktree_sessions (wt_id wt) d) as Hs by (rewrite E; apply list_elem_of_here).
  unfold get_worktree_sessions in Hs. rewrite order_by_perm in Hs. apply list_elem_of_filter in Hs as [Hw [sid Hs]%elem_of_rows].
  by rewrite (H sid s Hs) in Hw.
Qed.

End Theorems.
