(* ===== verification/WorktreeCorrect.v ===== *)
(** What creating and removing worktrees leaves behind.

    Unregistering a repository, the creation of a worktree when it succeeds
    and when it fails, and a creation during which the repository goes. *)
From stdpp Require Import gmap strings list fin_maps.
From Stdlib Require Import ZArith Lia.
From S2P Require Import Prelude Protocol Utf8 Completion Commands Fingerprint SessionStore RepoStore Worktrees RepoService.

(** * Unregistering *)

Lemma clear_clear (g1 g2 : string → bool) (s : Session) :
  clear_worktree g2 (clear_worktree g1 s) = clear_worktree (λ w, g1 w || g2 w) s.
Proof.
  unfold clear_worktree. destruct (s_worktree_id s) as [w|] eqn:E; simpl; [|by rewrite E].
  destruct (g1 w); simpl; [done|]. by rewrite E.
Qed.

Lemma clear_ext (g1 g2 : string → bool) (s : Session) :
  (∀ w, s_worktree_id s = Some w → g1 w = g2 w) → clear_worktree g1 s = clear_worktree g2 s.
Proof. intros H. unfold clear_worktree. destruct (s_worktree_id s) as [w|]; simpl; [by rewrite (H w)|done]. Qed.

Lemma elem_of_repo_ids (id w : string) (d : DaemonDb) :
  repos_ok d → w ∈ wt_id <$> worktrees_of_repo id d ↔ ∃ row, db_worktrees d !! w = Some row ∧ wt_repo_id row = id.
Proof.
  intros Hd. rewrite list_elem_of_fmap. split.
  - intros (row & -> & [Hr [k Hk]%elem_of_rows]%list_elem_of_filter). destruct (ro_worktree_keys d Hd k row Hk) as [-> _]. by exists row.
  - intros (row & Hrow & Hr). exists row. destruct (ro_worktree_keys d Hd w row Hrow) as [-> _]. split; [done|].
    apply list_elem_of_filter. split; [done|]. apply elem_of_rows. by exists w.
Qed.

(** Removing one of its worktrees first makes no difference for removing a
    repository. *)
Lemma remove_after_worktree (id w : string) (d : DaemonDb) :
  repos_ok d → (∀ row, db_worktrees d !! w = Some row → wt_repo_id row = id) →
  (remove_git_repo id (remove_worktree w d).1) = remove_git_repo id d ∨ db_worktrees d !! w = None.
Proof.
  intros Hd Hw. destruct (db_worktrees d !! w) as [row|] eqn:Ew; [left|by right]. specialize (Hw row eq_refl).
  pose proof (remove_worktree_ok w d Hd) as Hd'. unfold remove_git_repo. f_equal.
  unfold set_repos, set_worktrees, set_sessions. cbn. f_equal.
  - rewrite <- map_fmap_compose. apply map_fmap_ext. intros sid s Hs. simpl. rewrite clear_clear. apply clear_ext.
    intros v Hv. apply eq_bool_prop_intro. rewrite orb_True, !bool_decide_spec.
    fold (set_sessions (clear_worktree (λ w0, bool_decide (w0 = w)) <$> db_sessions d) d).
    change (mkDaemonDb _ _ _ _ (delete w (db_worktrees d)) (db_repos d)) with (remove_worktree w d).1.
    rewrite !elem_of_repo_ids by done. cbn. split.
    + intros [->|(r & Hr & Hid)]; [by exists row|]. apply lookup_delete_Some in Hr as [_ Hr]. by exists r.
    + intros (r & Hr & Hid). destruct (decide (v = w)); [by left|right]. exists r. by rewrite lookup_delete_ne.
  - apply map_eq. intros i. apply option_eq. intros r. rewrite !map_lookup_filter_Some. cbn. rewrite lookup_delete_Some.
    split; [tauto|]. intros [Hr Hne]. split_and!; [|done..]. intros <-. simplify_eq.
Qed.

Section Correct.
Context {MC : WorktreeModeCodes} {ST : SqlText} {UA : UnicodeAlphanumeric} {GT : GitTools} {SO : SqlOrder}.

Lemma wt_remove_db (w : string) (d : DaemonDb) (k : Disk) :
  ((worktree_remove w (d, k)).1.1 = d ∨ (worktree_remove w (d, k)).1.1 = (remove_worktree w d).1).
Proof. unfold worktree_remove. repeat case_match; simplify_eq/=; auto. Qed.

Lemma remove_after_worktrees (id : string) (ids : list string) (d : DaemonDb) (k : Disk) :
  repos_ok d → (∀ w row, w ∈ ids → db_worktrees d !! w = Some row → wt_repo_id row = id) →
  remove_git_repo id (remove_worktrees ids (d, k)).1.1 = remove_git_repo id d.
Proof.
  revert d k. induction ids as [|w ids IH]; intros d k Hd Hw; [done|]. cbn [remove_worktrees].
  pose proof (wt_remove_db w d k) as Hrm. pose proof (remove_worktree_ok w d Hd) as Hd'.
  pose proof (remove_after_worktree id w d Hd (λ row, Hw w row (list_elem_of_here _ _))) as Heq.
  destruct (worktree_remove w (d, k)) as [[d1 k1] r] eqn:E. cbn [fst] in Hrm.
  specialize (IH d1 k1). destruct (remove_worktrees ids (d1, k1)) as [[d2 k2] n]. cbn [fst] in *.
  assert (d1 = d ∨ d1 = (remove_worktree w d).1 ∧ remove_git_repo id (remove_worktree w d).1 = remove_git_repo id d) as [->|[-> Hc]].
  { destruct Hrm as [-> | ->]; [by left|]. destruct Heq as [Heq|Hn]; [by right|]. left. unfold worktree_remove, get_worktree in E. rewrite Hn in E. by simplify_eq. }
  - apply IH; [done|]. intros v row Hv. apply Hw. by apply list_elem_of_further.
  - rewrite IH; [done|done|]. intros v row Hv. cbn. intros [_ Hrow]%lookup_delete_Some. eapply Hw; [by apply list_elem_of_further|done].
Qed.

(** Unregistering a repository removes its row and those of its worktrees and
    unbinds their sessions, whether or not the checkouts are to be removed and
    whichever of those removals fail, and touches no other row; only with the
    flag does it touch the disk. *)
Theorem unregister_removes_exactly (id : string) (wts : bool) (d : DaemonDb) (k : Disk) :
  repos_ok d →
  let '((d', k'), (removed, n)) := unregister_repo id wts (d, k) in
  db_repos d' = delete id (db_repos d) ∧
  db_worktrees d' = filter (λ kv, wt_repo_id kv.2 ≠ id) (db_worktrees d) ∧
  (∀ sid, db_sessions d' !! sid =
     clear_worktree (λ w, default false ((λ row, bool_decide (wt_repo_id row = id)) <$> db_worktrees d !! w)) <$> db_sessions d !! sid) ∧
  removed = bool_decide (is_Some (db_repos d !! id)) ∧
  (wts = false → k' = k ∧ n = 0%Z).
Proof.
  intros Hd. unfold unregister_repo.
  assert (remove_git_repo id (if wts then remove_worktrees (wt_id <$> list_worktrees (Some id) d) (d, k) else (d, k, 0%Z)).1.1
          = remove_git_repo id d) as Heq.
  { destruct wts; [|done]. apply remove_after_worktrees; [done|]. intros w row Hw Hrow. unfold list_worktrees in Hw.
    assert (w ∈ wt_id <$> worktrees_of_repo id d) as Hw'.
    { apply list_elem_of_fmap in Hw as (r & -> & Hr). rewrite order_by_perm in Hr. apply list_elem_of_fmap. by exists r. }
    apply elem_of_repo_ids in Hw' as (row' & Hrow' & Hid); [by simplify_eq|done]. }
  change ((d, k).1) with d. destruct (if wts then _ else _) as [[d1 k1] n] eqn:E. cbn [fst] in Heq.
  rewrite Heq. unfold remove_git_repo at 1. cbn. split_and!; [done..| |done|].
  - intros sid. rewrite lookup_fmap. destruct (db_sessions d !! sid) as [s|]; [|done]. cbn. f_equal. apply clear_ext.
    intros w _. apply eq_bool_prop_intro. rewrite bool_decide_spec, elem_of_repo_ids by done. split.
    + intros (row & -> & Hr). by apply bool_decide_spec.
    + destruct (db_worktrees d !! w) as [row|]; [|done]. cbn. rewrite bool_decide_spec. by eauto.
  - intros ->. simplify_eq. by case_match.
Qed.

(** * Creating *)

Lemma create_worktree_inv (now : Z) (id name path branch repo : string) (script : option string) (d d1 : DaemonDb)
    (r : result DatabaseError Worktree) :
  create_worktree now id name path branch repo script d = (d1, r) →
  match r with
  | Err _ => d1 = d
  | Ok wt => wt = mkWorktree id name path branch repo script now now ∧ db_worktrees d !! id = None ∧
             d1 = set_worktrees (<[id := wt]> (db_worktrees d)) d
  end.
Proof.
  unfold create_worktree. destruct (db_worktrees d !! id) eqn:Ei; [by intros [= <- <-]|].
  destruct (head _); [by intros [= <- <-]|]. destruct (db_repos d !! repo); [|by intros [= <- <-]].
  unfold get_worktree. cbn. rewrite lookup_insert_eq. by intros [= <- <-].
Qed.

(** Removing a row that was just added gives the database back. *)
Lemma remove_added (id : string) (wt : Worktree) (d : DaemonDb) :
  repos_ok d → db_worktrees d !! id = None → (remove_worktree id (set_worktrees (<[id := wt]> (db_worktrees d)) d)).1 = d.
Proof.
  intros Hd Hid. unfold remove_worktree. cbn. unfold set_worktrees, set_sessions. cbn. rewrite delete_insert_id by done.
  destruct d as [ss ms nm cs ws rs]. cbn in *. f_equal. rewrite <- (map_fmap_id ss) at 2. apply map_fmap_ext.
  intros sid s Hs. unfold clear_worktree. destruct (s_worktree_id s) as [w|] eqn:Ew; [|done]. cbn.
  destruct (ro_sessions _ Hd sid s w Hs Ew) as [row Hrow]. cbn in Hrow. rewrite bool_decide_eq_false_2; [done|congruence].
Qed.

(** The removal of a worktree always removes its row when git can be started. *)
Definition git_starts : Prop := ∀ dir path k e, (git_worktree_remove dir path k).2 ≠ Err (ProcIo e).

Lemma wt_remove_row (id : string) (wt : Worktree) (d : DaemonDb) (k : Disk) :
  git_starts → db_worktrees d !! id = Some wt → (worktree_remove id (d, k)).1.1 = (remove_worktree id d).1.
Proof.
  intros Hg Hw. unfold worktree_remove, get_worktree. rewrite Hw. destruct (path_exists (wt_path wt) k); [|done].
  match goal with |- context [git_worktree_remove ?a ?b k] => pose proof (Hg a b k) as Hg'; destruct (git_worktree_remove a b k) as [k1 [u|[e|e]]] end;
    [done| |done]. by destruct (Hg' e).
Qed.

Lemma create_record_inv (env : WorktreeEnv) (name : string) (g : GitRepo) (branch : string) (script : option string)
    (d : DaemonDb) (k : Disk) (st' : DaemonDb * Disk) (r : result WorktreeError Worktree) :
  repos_ok d → create_record env name g branch script (d, k) = (st', r) →
  match r with
  | Ok wt => ∃ sc, wt = mkWorktree (we_uuid env) name (new_worktree_path env g) branch (g_id g) sc (we_now env) (we_now env) ∧
      db_worktrees d !! we_uuid env = None ∧ st'.1 = set_worktrees (<[we_uuid env := wt]> (db_worktrees d)) d ∧ (sc = None → st'.2 = k)
  | Err _ => git_starts → st'.1 = d
  end.
Proof.
  intros Hd. unfold create_record. cbn zeta. set (sc := match script with Some _ => _ | None => _ end).
  destruct (create_worktree _ _ _ _ _ _ sc d) as [d1 [wt|e]] eqn:Ec; apply create_worktree_inv in Ec; [|intros [= <- <-]; done].
  destruct Ec as (-> & Hid & ->). destruct sc as [s|]; [|intros [= <- <-]; by eexists].
  destruct (run_script _ s k) as [k1 res]. destruct (setup_result s res) as [u|e]; intros [<- <-]%pair_equal_spec; [by eexists|].
  intros Hg. erewrite wt_remove_row; [|done|apply lookup_insert_eq]. by apply remove_added.
Qed.

Lemma create_checkout_ok (env : WorktreeEnv) (name : string) (g : GitRepo) (branch : string) (k k' : Disk) :
  create_checkout env name g branch k = (k', Ok tt) →
  validate_name name = Ok tt ∧ validate_branch branch = Ok tt ∧ path_exists (new_worktree_path env g) k' = true.
Proof.
  unfold create_checkout. intros H. repeat case_match; simplify_eq/=; repeat match goal with u : () |- _ => destruct u end.
  split_and!; [done..|]. by eapply worktree_added.
Qed.

Lemma svc_create_inv (env : WorktreeEnv) (name repo_id branch script : string) (d d' : DaemonDb) (k k' : Disk)
    (r : result Status WorktreeDetail) :
  repos_ok d → svc_create_worktree env name repo_id branch script (d, k) = ((d', k'), r) →
  match r with
  | Err _ => git_starts → d' = d
  | Ok w => ∃ row sc k1 (wt := mkWorktree (we_uuid env) name (new_worktree_path env (repo_of_row row)) branch (gr_id row) sc (we_now env) (we_now env)),
      db_repos d !! repo_id = Some row ∧ create_checkout env name (repo_of_row row) branch k = (k1, Ok tt) ∧
      db_worktrees d !! we_uuid env = None ∧ d' = set_worktrees (<[we_uuid env := wt]> (db_worktrees d)) d ∧
      w = worktree_detail (worktree_info wt (d', k')) ∧ (script = EmptyString → gr_setup_script row = None → k' = k1)
  end.
Proof.
  intros Hd. unfold svc_create_worktree, get_git_repo. cbn [fst]. destruct (db_repos d !! repo_id) as [row|] eqn:Er; [|by intros [= <- <- <-]].
  unfold worktree_create. cbn [fst snd]. destruct (create_checkout env name (repo_of_row row) branch k) as [k1 [[]|e]] eqn:Ek; [|by intros [= <- <- <-]].
  destruct (create_record env name (repo_of_row row) branch (non_empty script) (d, k1)) as [[d2 k2] [wt|e]] eqn:Ec.
  - pose proof (create_record_inv _ _ _ _ _ _ _ _ _ Hd Ec) as (sc & -> & Hid & Hdb & Hsc). cbn in Hdb. subst d2.
    unfold worktree_get, get_worktree. cbn [fst wt_id set_worktrees db_worktrees]. rewrite lookup_insert_eq.
    intros [= <- <- <-]. exists row, sc, k1. cbn zeta. split_and!; try done. intros -> Hs.
    change (non_empty EmptyString) with (@None string) in Ec. unfold create_record in Ec. cbn in Ec. rewrite Hs in Ec. destruct (create_worktree _ _ _ _ _ _ None d) as [d3 [wt|e]] eqn:E3; by simplify_eq.
  - pose proof (create_record_inv _ _ _ _ _ _ _ _ _ Hd Ec) as Hx. by intros [= <- <- <-].
Qed.

(** Creating a worktree adds its row and nothing else, and the answer is what
    asking for it gives; when no setup script runs the checkout is there. *)
Theorem created_worktree_is_there (env : WorktreeEnv) (name repo_id branch script : string) (d d' : DaemonDb) (k k' : Disk)
    (w : WorktreeDetail) :
  repos_ok d → svc_create_worktree env name repo_id branch script (d, k) = ((d', k'), Ok w) →
  svc_get_worktree (we_uuid env) (d', k') = Ok w ∧
  w ∈ svc_list_worktrees EmptyString (d', k') ∧
  wd_id w = we_uuid env ∧ wd_name w = name ∧ wd_branch w = branch ∧ wd_repo_id w = repo_id ∧ wd_session_count w = 0%Z ∧
  (script = EmptyString → (gr_setup_script <$> db_repos d !! repo_id) = Some None → wd_exists_on_disk w = true) ∧
  ∃ row, d' = set_worktrees (<[we_uuid env := row]> (db_worktrees d)) d.
Proof.
  intros Hd H. apply svc_create_inv in H as (row & sc & k1 & Hrow & Hck & Hid & -> & -> & Hk); [|done].
  destruct (ro_repo_keys d Hd repo_id row Hrow) as [Hrid _].
  set (wt := mkWorktree _ _ _ _ _ _ _ _). set (d' := set_worktrees (<[we_uuid env := wt]> (db_worktrees d)) d).
  assert (db_worktrees d' !! we_uuid env = Some wt) as Hwt by apply lookup_insert_eq.
  split_and!; try done.
  - unfold svc_get_worktree, worktree_get, get_worktree. cbn [fst]. by rewrite Hwt.
  - unfold svc_list_worktrees, worktree_list. apply list_elem_of_fmap. eexists. split; [done|]. apply list_elem_of_fmap. exists wt. split; [done|].
    unfold list_worktrees. rewrite order_by_perm. apply elem_of_rows. by eexists.
  - cbn. destruct (get_worktree_sessions (we_uuid env) d') as [|s ss] eqn:E; [done|]. exfalso.
    assert (s ∈ get_worktree_sessions (we_uuid env) d') as Hs by (rewrite E; apply list_elem_of_here).
    unfold get_worktree_sessions in Hs. rewrite order_by_perm in Hs. apply list_elem_of_filter in Hs as [Hw [sid Hs]%elem_of_rows].
    destruct (ro_sessions d Hd sid s (we_uuid env) Hs Hw). congruence.
  - intros -> Hs. rewrite Hrow in Hs. cbn in Hs. rewrite (Hk eq_refl) by congruence. cbn. by apply create_checkout_ok in Hck as (_ & _ & ?).
  - by eexists.
Qed.

(** A creation that fails, for a name, at git, at the database or in the setup
    script, leaves the database as it was, if git can be started. *)
Theorem failed_creation_leaves_no_row (env : WorktreeEnv) (name repo_id branch script : string) (d d' : DaemonDb) (k k' : Disk)
    (e : Status) :
  repos_ok d → git_starts → svc_create_worktree env name repo_id branch script (d, k) = ((d', k'), Err e) → d' = d.
Proof. intros Hd Hg H. by apply (svc_create_inv _ _ _ _ _ _ _ _ _ _ Hd H). Qed.

(** A repository that is unregistered while git makes the checkout: the
    creation is refused, but the checkout stays on the disk and no row names
    it. *)
Theorem creation_orphaned_by_unregister (env : WorktreeEnv) (name repo_id branch : string) (script : option string) (row : GitRepoRow)
    (d : DaemonDb) (k k' : Disk) :
  repos_ok d → db_repos d !! repo_id = Some row → db_worktrees d !! we_uuid env = None →
  (∀ id w, db_worktrees d !! id = Some w → wt_path w ≠ new_worktree_path env (repo_of_row row)) →
  create_checkout env name (repo_of_row row) branch k = (k', Ok tt) →
  let '((d2, k2), (removed, _)) := unregister_repo repo_id false (d, k') in
  removed = true ∧
  create_record env name (repo_of_row row) branch script (d2, k2) = ((d2, k2), Err (WtDatabase (Query ForeignKeyViolation))) ∧
  path_exists (new_worktree_path env (repo_of_row row)) k2 = true ∧
  ∀ id w, db_worktrees d2 !! id = Some w → wt_path w ≠ new_worktree_path env (repo_of_row row).
Proof.
  intros Hd Hrow Hid Hpath Hck. unfold unregister_repo. cbn [fst]. destruct (remove_git_repo repo_id d) as [d2 removed] eqn:E.
  unfold remove_git_repo in E. injection E as Ed Er. rewrite Hrow, bool_decide_eq_true_2 in Er by done.
  destruct (ro_repo_keys d Hd repo_id row Hrow) as [Hrid _].
  assert (db_worktrees d2 = filter (λ kv, wt_repo_id kv.2 ≠ repo_id) (db_worktrees d)) as Hw by by subst.
  assert (db_repos d2 = delete repo_id (db_repos d)) as Hr by by subst.
  assert (∀ id w, db_worktrees d2 !! id = Some w → wt_path w ≠ new_worktree_path env (repo_of_row row)) as Hp2.
  { intros id w. rewrite Hw. intros [Hi _]%map_lookup_filter_Some. by eapply Hpath. }
  split_and!; [done| |by apply create_checkout_ok in Hck as (_ & _ & ?)|done].
  unfold create_record, create_worktree. cbn zeta.
  assert (db_worktrees d2 !! we_uuid env = None) as -> by (rewrite Hw; apply map_lookup_filter_None; by left).
  destruct (head (filter (λ w, wt_path w = new_worktree_path env (repo_of_row row)) (worktree_rows d2))) as [w|] eqn:Eh.
  { apply head_Some_elem_of in Eh. apply list_elem_of_filter in Eh as [Hpw [i Hi]%elem_of_rows]. by destruct (Hp2 i w Hi). }
  assert (db_repos d2 !! g_id (repo_of_row row) = None) as -> by (cbn; by rewrite Hr, Hrid, lookup_delete_eq). done.
Qed.

(** * The repository's .gitignore *)

Lemma split_on_app (c : Ascii.ascii) (s t : string) : split_on c (s +:+ String c t) = split_on c s ++ split_on c t.
Proof.
  induction s as [|a s IH]; simpl; [by rewrite decide_True|]. fold (String.append s (String c t)). rewrite IH. case_decide; [done|].
  pose proof (split_on_nonempty c s). by destruct (split_on c s).
Qed.

Lemma added_line (s content : string) :
  no_char (byte 10) s → strip_cr s = s → trim s = s → gitignored s (content +:+ lf +:+ s +:+ lf) = true.
Proof.
  intros Hs Hcr Htrim. unfold gitignored, str_lines, lf. change (Ascii.ascii_of_nat 10) with (byte 10).
  change (String (byte 10) EmptyString +:+ ?x) with (String (byte 10) x). rewrite split_on_app, (split_on_app _ s), (split_on_no_char _ s) by done.
  cbn [split_on app]. rewrite (app_assoc _ [s] [EmptyString]), last_snoc, length_app, Nat.add_sub, take_app_length, fmap_app, existsb_app.
  apply orb_true_iff. right. cbn. rewrite Hcr, Htrim, bool_decide_eq_true_2; done.
Qed.

Lemma first_line (s : string) : no_char (byte 10) s → strip_cr s = s → trim s = s → gitignored s (s +:+ lf) = true.
Proof.
  intros Hs Hcr Htrim. unfold gitignored, str_lines, lf. change (Ascii.ascii_of_nat 10) with (byte 10).
  rewrite split_on_app, (split_on_no_char _ s) by done. cbn. rewrite Hcr, Htrim, bool_decide_eq_true_2; done.
Qed.

(** Creating a worktree in a subfolder of the repository lists the subfolder
    in its .gitignore, whatever the file had; once it is there nothing is
    added again. *)
Theorem gitignore_is_idempotent (r : GitRepo) (k k' : Disk) :
  g_worktree_mode r = ModeLocal → g_auto_gitignore r = true →
  no_char (byte 10) (g_local_subfolder r) → strip_cr (g_local_subfolder r) = g_local_subfolder r → trim (g_local_subfolder r) = g_local_subfolder r →
  ensure_gitignore None r k = (k', Ok tt) →
  (∃ content, dk_files k' !! resolve (path_join (g_repo_path r) ".gitignore") = Some content ∧ gitignored (g_local_subfolder r) content = true) ∧
  ensure_gitignore None r k' = (k', Ok tt).
Proof.
  intros Hm Ha H1 H2 H3 He.
  assert (∃ content, dk_files k' !! resolve (path_join (g_repo_path r) ".gitignore") = Some content ∧
    gitignored (g_local_subfolder r) content = true) as (content & Hc & Hg).
  { unfold ensure_gitignore in He. rewrite Hm, Ha in He. cbn zeta in He. destruct (dk_files k !! _) as [content|] eqn:Ef.
    - destruct (gitignored (g_local_subfolder r) content) eqn:Eg; simplify_eq; [by exists content|]. cbn [dk_files].
      eexists. split; [apply lookup_insert_eq|by apply added_line].
    - case_decide; simplify_eq. cbn [dk_files]. eexists. split; [apply lookup_insert_eq|by apply first_line]. }
  split; [by exists content|]. unfold ensure_gitignore. rewrite Hm, Ha. cbn zeta. by rewrite Hc, Hg.
Qed.

End Correct.
