(* ===== verification/BranchCorrect.v ===== *)
(** What the branch calls of the repository service answer.

    The lines of git are read back as the references they print; a branch
    that is asked for by name; the arguments git is given. *)
From stdpp Require Import gmap strings list fin_maps.
From Stdlib Require Import ZArith Lia.
From S2P Require Import Prelude Protocol Utf8 Completion Commands Fingerprint SessionStore RepoStore Worktrees RepoService.

#[local] Arguments parse_branch_line : simpl never.
#[local] Arguments ref_line : simpl never.
#[local] Arguments starts_with : simpl never.
#[local] Arguments ends_with : simpl never.

(** * Lines *)

(** References that git prints on a line of their own; their names have no
    separator in them. *)
Record line_ref (r : Ref) : Prop := {
  line_names : no_char REF_FIELD_SEP (ref_short r) ∧ no_char REF_FIELD_SEP (ref_sha r);
  line_fields : Forall (no_char (byte 10)) [ref_short r; ref_sha r; ref_subject r; ref_worktree r];
  clean_end : strip_cr (ref_line r) = ref_line r
}.

(** No field has a separator in it. *)
Record clean_ref (r : Ref) : Prop := {
  clean_line : line_ref r;
  clean_fields : no_char REF_FIELD_SEP (ref_subject r) ∧ no_char REF_FIELD_SEP (ref_worktree r)
}.

Definition branch_of (is_remote : bool) (r : Ref) : BranchInfo :=
  mkBranchInfo (ref_short r) (ref_sha r) (ref_subject r) (ref_head r) (bool_decide (ref_worktree r ≠ EmptyString)) is_remote.

(** With a separator in it the subject ends there; what follows it is read as
    the mark of the branch that is checked out, and what follows that as its
    worktree. *)
Definition listed_as (is_remote : bool) (r : Ref) : BranchInfo :=
  match split_on REF_FIELD_SEP (ref_subject r) with
  | subject :: next :: rest =>
      mkBranchInfo (ref_short r) (ref_sha r) subject (bool_decide (trim next = "*"))
        (match rest with third :: _ => bool_decide (third ≠ EmptyString) | [] => true end) is_remote
  | _ =>
      mkBranchInfo (ref_short r) (ref_sha r) (ref_subject r) (ref_head r)
        (match split_on REF_FIELD_SEP (ref_worktree r) with w :: _ => bool_decide (w ≠ EmptyString) | [] => false end) is_remote
  end.

Lemma clean_listed (is_remote : bool) (r : Ref) : clean_ref r → listed_as is_remote r = branch_of is_remote r.
Proof. intros [_ [H1 H2]]. unfold listed_as. by rewrite !split_on_no_char. Qed.

(** A branch that is not checked out and has no worktree is listed with a
    worktree when the subject of its commit has a separator in it, and as
    checked out when a star follows it. *)
Lemma separator_in_subject_misleads (is_remote : bool) (name short sha a b worktree : string) (head : bool) :
  no_char REF_FIELD_SEP a → no_char REF_FIELD_SEP b →
  listed_as is_remote (mkRef name short sha (a +:+ String REF_FIELD_SEP b) head worktree) =
    mkBranchInfo short sha a (bool_decide (trim b = "*")) true is_remote.
Proof. intros Ha Hb. unfold listed_as. cbn [ref_subject]. by rewrite split_on_app_sep, (split_on_no_char _ b) by done. Qed.

Lemma line_pieces (r : Ref) : line_ref r →
  split_on REF_FIELD_SEP (ref_line r) =
    ref_short r :: ref_sha r :: split_on REF_FIELD_SEP (ref_subject r) ++ (if ref_head r then "*" else " ") :: split_on REF_FIELD_SEP (ref_worktree r).
Proof.
  intros [[H1 H2] _ _]. unfold ref_line, field_sep. cbn [join].
  assert (∀ s t : string, s +:+ String REF_FIELD_SEP EmptyString +:+ t = s +:+ String REF_FIELD_SEP t) as E by done. rewrite !E.
  rewrite !split_on_app_any, (split_on_no_char _ _ H1), (split_on_no_char _ _ H2). cbn [app]. do 3 f_equal. by destruct (ref_head r).
Qed.

Lemma parse_ref_line (is_remote : bool) (r : Ref) : line_ref r → parse_branch_line (ref_line r) is_remote = Some (listed_as is_remote r).
Proof.
  intros Hr. unfold parse_branch_line, listed_as. rewrite (line_pieces r Hr).
  destruct (split_on REF_FIELD_SEP (ref_subject r)) as [|s [|x rest]] eqn:Es; cbn [app].
  - by destruct (split_on_nonempty _ _ Es).
  - assert (s = ref_subject r) as -> by (pose proof (join_split_on REF_FIELD_SEP (ref_subject r)) as Hj; by rewrite Es in Hj).
    do 2 f_equal. destruct (ref_head r); by vm_compute.
  - destruct rest as [|y rest]; [|done]. cbn [app]. do 2 f_equal. destruct (ref_head r); by vm_compute.
Qed.

Lemma line_no_lf (r : Ref) : line_ref r → no_char (byte 10) (ref_line r).
Proof.
  intros [_ H _]. rewrite !Forall_cons in H. destruct H as (H1 & H2 & H3 & H4 & _).
  unfold ref_line. cbn [join]. repeat apply no_char_both; try done; by destruct (ref_head r).
Qed.

Lemma split_print (rs : list Ref) : Forall line_ref rs → split_on (byte 10) (print_refs rs) = (ref_line <$> rs) ++ [EmptyString].
Proof.
  induction 1 as [|r rs Hr _ IH]; [done|]. cbn [print_refs foldr]. fold (print_refs rs). unfold lf.
  change (String (byte 10) EmptyString +:+ print_refs rs) with (String (byte 10) (print_refs rs)).
  rewrite split_on_app_sep by by apply line_no_lf. by rewrite IH.
Qed.

Lemma lines_print (rs : list Ref) : Forall line_ref rs → str_lines (print_refs rs) = ref_line <$> rs.
Proof.
  intros Hc. unfold str_lines. change (Ascii.ascii_of_nat 10) with (byte 10). rewrite split_print, last_snoc by done.
  rewrite length_app, Nat.add_sub, take_app_length. rewrite <- list_fmap_compose. apply list_fmap_ext.
  intros i r Hi. rewrite Forall_lookup in Hc. by apply (clean_end r), (Hc i).
Qed.

Lemma line_non_empty (r : Ref) : ref_line r ≠ EmptyString.
Proof. unfold ref_line, field_sep. cbn [join]. by destruct (ref_short r). Qed.

Lemma lines_filtered (rs : list Ref) (P : string → Prop) {HP : ∀ l, Decision (P l)} (is_remote : bool) :
  Forall line_ref rs →
  omap (λ line, parse_branch_line line is_remote) (filter (λ l, l ≠ EmptyString ∧ P l) (ref_line <$> rs)) =
  listed_as is_remote <$> filter (λ r, P (ref_line r)) rs.
Proof.
  induction 1 as [|r rs Hr _ IH]; [done|]. rewrite fmap_cons, !filter_cons. pose proof (line_non_empty r).
  case_decide as H1; case_decide as H2; try tauto. cbn. by rewrite parse_ref_line, IH.
Qed.

(** * Answers *)

Section Answers.
Context {ST : SqlText} {UA : UnicodeAlphanumeric} {GR : GitRefs}.

Lemma run_refs (dir pattern out : string) (w w' : GitState) :
  run_git dir ["for-each-ref"; "--format"; ref_format_str; pattern] w = (w', Ok out) →
  out = print_refs (filter (λ r, ref_matches pattern r = true) (refs dir w.1)) ∧ ∀ dir', refs dir' w'.1 = refs dir' w.1.
Proof.
  unfold run_git. intros H. pose proof (for_each_ref dir pattern w.1) as Ho. pose proof (λ d', for_each_ref_reads dir d' pattern w.1) as Hf.
  destruct (git dir _ w.1) as [w1 outcome]. destruct outcome; simplify_eq. cbn in Hf. split; [by eapply Ho|done].
Qed.

Lemma clean_filter (P : Ref → Prop) {HP : ∀ r, Decision (P r)} (rs : list Ref) : Forall line_ref rs → Forall line_ref (filter P rs).
Proof. rewrite !Forall_forall. intros H r [_ Hr]%list_elem_of_filter. by apply H. Qed.

Lemma line_head (r : Ref) : line_ref r → head (split_on REF_FIELD_SEP (ref_line r)) = Some (ref_short r).
Proof. intros Hr. by rewrite line_pieces. Qed.

Lemma clean_lines (rs : list Ref) : Forall clean_ref rs → Forall line_ref rs.
Proof. intros H. apply (Forall_impl _ _ _ H). intros r. apply clean_line. Qed.

Lemma filter_below (pattern : string) (rs : list Ref) : ends_with_slash pattern = true →
  filter (λ r, ref_matches pattern r = true) rs = filter (λ r, starts_with pattern (ref_name r) = true) rs.
Proof.
  intros Hs. apply list_filter_iff. intros r. unfold ref_matches. rewrite Hs, orb_true_iff, bool_decide_eq_true. split; [|tauto].
  intros [->|H]; [|done]. apply starts_with_spec. exists EmptyString. by rewrite string_app_nil_r.
Qed.

Lemma filter_ext_in {A : Type} (P Q : A → Prop) {HP : ∀ x, Decision (P x)} {HQ : ∀ x, Decision (Q x)} (l : list A) :
  (∀ x, x ∈ l → P x ↔ Q x) → filter P l = filter Q l.
Proof.
  induction l as [|x l IH]; intros H; [done|]. rewrite !filter_cons, IH by (intros y Hy; apply H; by apply list_elem_of_further).
  pose proof (H x (list_elem_of_here _ _)). case_decide; case_decide; tauto.
Qed.

Lemma all_lines (rs : list Ref) (is_remote : bool) : Forall line_ref rs →
  omap (λ line, parse_branch_line line is_remote) (filter (λ l, l ≠ EmptyString) (ref_line <$> rs)) = listed_as is_remote <$> rs.
Proof.
  induction 1 as [|r rs Hr _ IH]; [done|]. rewrite fmap_cons, !filter_cons, decide_True by apply line_non_empty. cbn.
  by rewrite parse_ref_line, IH.
Qed.

(** C23: The list of branches has every branch of the repository, in git's order;
    with remote branches, all of them but the symbolic heads.  A branch whose
    subject and worktree have no unit separator in them is listed with its
    commit, whether it is checked out and whether it has a worktree; one whose
    subject has it is listed with the subject up to there, and the rest of
    the subject decides whether it counts as checked out. *)
Theorem branches_are_listed (repo_id dir : string) (include_remote : bool) (st : DaemonDb * Disk) (w w' : GitState) (bs : list BranchInfo) :
  Forall line_ref (refs dir w.1) → resolve_repo_path repo_id st = Ok dir →
  list_branches repo_id include_remote st w = (w', Ok bs) →
  bs = (listed_as false <$> filter (λ r, starts_with "refs/heads/" (ref_name r) = true) (refs dir w.1)) ++
       (if include_remote
        then listed_as true <$> filter (λ r, starts_with "refs/remotes/" (ref_name r) = true ∧ ends_with "/HEAD" (ref_short r) = false) (refs dir w.1)
        else []) ∧
  (∀ is_remote r, clean_ref r → listed_as is_remote r = branch_of is_remote r).
Proof.
  intros Hc Hdir H. split; [|apply clean_listed]. revert H. unfold list_branches. rewrite Hdir.
  destruct (run_git dir [_; _; _; "refs/heads/"] w) as [w1 [out|e]] eqn:E1; [|done]. apply run_refs in E1 as [-> Hf].
  rewrite (filter_below "refs/heads/") by done.
  assert (local_branches (print_refs (filter (λ r, starts_with "refs/heads/" (ref_name r) = true) (refs dir w.1))) =
    listed_as false <$> filter (λ r, starts_with "refs/heads/" (ref_name r) = true) (refs dir w.1)) as ->.
  { unfold local_branches. rewrite lines_print by by apply clean_filter. rewrite (all_lines _ false) by by apply clean_filter. done. }
  destruct include_remote; [|intros [= <- <-]; by rewrite app_nil_r].
  destruct (run_git dir [_; _; _; "refs/remotes/"] w1) as [w2 [out|e]] eqn:E2; [|done]. apply run_refs in E2 as [-> _]. rewrite Hf.
  rewrite (filter_below "refs/remotes/") by done. intros [= <- <-]. f_equal. unfold remote_branches.
  rewrite lines_print, lines_filtered by by apply clean_filter. f_equal. rewrite list_filter_filter.
  apply filter_ext_in. intros r Hr. rewrite Forall_forall in Hc. rewrite line_head by by apply Hc. cbn. tauto.
Qed.

(** ** A branch by its name *)

Definition below (name : string) (r : Ref) : Prop := starts_with ("refs/heads/" +:+ name +:+ "/") (ref_name r) = true.
Definition named (name : string) (r : Ref) : Prop := ref_name r = "refs/heads/" +:+ name.

#[local] Instance named_dec (name : string) (r : Ref) : Decision (named name r) := decide (_ = _).

Lemma matches_name (name : string) (r : Ref) : ends_with_slash ("refs/heads/" +:+ name) = false →
  ref_matches ("refs/heads/" +:+ name) r = true ↔ named name r ∨ below name r.
Proof.
  intros Hs. unfold ref_matches, below, named. rewrite Hs, orb_true_iff, bool_decide_eq_true. by rewrite <- string_app_assoc.
Qed.

(** The answer is the first reference of that name or below it. *)
Lemma get_branch_first (repo_id name dir : string) (st : DaemonDb * Disk) (w w' : GitState) (r : result Status BranchInfo) :
  Forall clean_ref (refs dir w.1) → resolve_repo_path repo_id st = Ok dir → validate_branch_name name = Ok tt →
  (∃ out, (git dir ["for-each-ref"; "--format"; ref_format_str; "refs/heads/" +:+ name] w.1).2 = GitStdout out) →
  get_branch repo_id name st w = (w', r) →
  r = match head (filter (λ r, ref_matches ("refs/heads/" +:+ name) r = true) (refs dir w.1)) with
      | Some b => Ok (branch_of false b)
      | None => Err (mkStatus CodeNotFound ("branch not found: " +:+ name))
      end.
Proof.
  intros Hc Hdir Hn [out Hout]. unfold get_branch. rewrite Hdir, Hn. unfold get_branch_info. cbn [negb].
  destruct (run_git dir [_; _; _; "refs/heads/" +:+ name] w) as [w1 [o|e]] eqn:E1.
  - apply run_refs in E1 as [-> _]. rewrite lines_print by by apply clean_filter, clean_lines. intros [_ <-]%pair_equal_spec.
    destruct (filter _ (refs dir w.1)) as [|b bs] eqn:Ef; [done|]. cbn [fmap list_fmap head].
    assert (clean_ref b) as Hb; [|by rewrite parse_ref_line, (clean_listed _ _ Hb) by apply (clean_line _ Hb)]. rewrite Forall_forall in Hc. apply Hc.
    assert (b ∈ filter (λ r, ref_matches ("refs/heads/" +:+ name) r = true) (refs dir w.1)) as [_ Hb]%list_elem_of_filter
      by (rewrite Ef; apply list_elem_of_here). done.
  - unfold run_git in E1. destruct (git dir _ w.1) as [w2 o]. cbn in Hout. subst o. by simplify_eq.
Qed.

(** Where no branch is below one that is asked for, as git keeps it, the
    answer is the branch of that name, or that there is none. *)
Theorem get_branch_by_name (repo_id name dir : string) (st : DaemonDb * Disk) (w w' : GitState) (r : result Status BranchInfo) :
  Forall clean_ref (refs dir w.1) → ends_with_slash ("refs/heads/" +:+ name) = false → NoDup (ref_name <$> refs dir w.1) →
  (∀ b, b ∈ refs dir w.1 → ¬ below name b) →
  resolve_repo_path repo_id st = Ok dir → validate_branch_name name = Ok tt →
  (∃ out, (git dir ["for-each-ref"; "--format"; ref_format_str; "refs/heads/" +:+ name] w.1).2 = GitStdout out) →
  get_branch repo_id name st w = (w', r) →
  (∀ b, b ∈ refs dir w.1 → named name b → r = Ok (branch_of false b)) ∧
  ((∀ b, b ∈ refs dir w.1 → ¬ named name b) → r = Err (mkStatus CodeNotFound ("branch not found: " +:+ name))).
Proof.
  intros Hc Hs Hnd Hb Hdir Hn Hout H. rewrite (get_branch_first _ _ _ _ _ _ _ Hc Hdir Hn Hout H). clear H.
  rewrite (filter_ext_in _ (named name)) by (intros b Hin; rewrite matches_name by done; specialize (Hb b Hin); tauto). split.
  - intros b Hin Hname. destruct (filter (named name) (refs dir w.1)) as [|b' bs] eqn:Ef.
    { by destruct (filter_nil_not_elem_of (named name) _ b Ef Hname). }
    cbn. do 2 f_equal. assert (b' ∈ filter (named name) (refs dir w.1)) as [Hname' Hin']%list_elem_of_filter by (rewrite Ef; apply list_elem_of_here).
    apply list_elem_of_lookup in Hin as [i Hi], Hin' as [j Hj]. assert (i = j) as <-; [|congruence].
    eapply NoDup_lookup; [exact Hnd|by rewrite list_lookup_fmap, Hi|]. rewrite list_lookup_fmap, Hj. cbn. unfold named in *. congruence.
  - intros Hno. destruct (filter (named name) (refs dir w.1)) as [|b' bs] eqn:Ef; [done|]. exfalso.
    assert (b' ∈ filter (named name) (refs dir w.1)) as [Hname' Hin']%list_elem_of_filter by (rewrite Ef; apply list_elem_of_here).
    by apply (Hno b').
Qed.

(** A branch that does not exist but has one below it: asking for it answers
    with the other branch. *)
Theorem missing_branch_answered_by_child (repo_id name dir : string) (child : Ref) (st : DaemonDb * Disk) (w w' : GitState) (r : result Status BranchInfo) :
  Forall clean_ref (refs dir w.1) → ends_with_slash ("refs/heads/" +:+ name) = false →
  (∀ b, b ∈ refs dir w.1 → ¬ named name b) → child ∈ refs dir w.1 → below name child →
  resolve_repo_path repo_id st = Ok dir → validate_branch_name name = Ok tt →
  (∃ out, (git dir ["for-each-ref"; "--format"; ref_format_str; "refs/heads/" +:+ name] w.1).2 = GitStdout out) →
  get_branch repo_id name st w = (w', r) →
  ∃ b, b ∈ refs dir w.1 ∧ ¬ named name b ∧ below name b ∧ r = Ok (branch_of false b).
Proof.
  intros Hc Hs Hno Hin Hch Hdir Hn Hout H. rewrite (get_branch_first _ _ _ _ _ _ _ Hc Hdir Hn Hout H). clear H.
  destruct (filter _ (refs dir w.1)) as [|b bs] eqn:Ef.
  { destruct (filter_nil_not_elem_of (λ r, ref_matches ("refs/heads/" +:+ name) r = true) _ child Ef); [|done]. apply matches_name; [done|by right]. }
  assert (b ∈ filter (λ r, ref_matches ("refs/heads/" +:+ name) r = true) (refs dir w.1)) as [Hm Hb]%list_elem_of_filter
    by (rewrite Ef; apply list_elem_of_here).
  exists b. apply matches_name in Hm as [Hm|Hm]; [by destruct (Hno b Hb)| |done]. split_and!; auto.
Qed.

(** * Arguments *)

Inductive BranchCall :=
| ListBranches (repo_id : string) (include_remote : bool)
| CreateBranch (repo_id name start_point : string)
| DeleteBranch (repo_id name : string) (force : bool)
| GetBranch (repo_id name : string).

Definition branch_call (c : BranchCall) (st : DaemonDb * Disk) (w : GitState) : GitState :=
  match c with
  | ListBranches id remote => (list_branches id remote st w).1
  | CreateBranch id name start => (create_branch id name start st w).1
  | DeleteBranch id name force => (delete_branch id name force st w).1
  | GetBranch id name => (get_branch id name st w).1
  end.

(** An argument git takes as a name. *)
Definition plain_argument (a : string) : Prop := a ≠ EmptyString ∧ starts_with "-" a = false ∧ contains ".." a = false.

Inductive service_command : list string → Prop :=
| lists_refs pattern : starts_with "refs/" pattern = true → service_command ["for-each-ref"; "--format"; ref_format_str; pattern]
| creates_branch name start : plain_argument name → Forall plain_argument start → length start ≤ 1 → service_command (["branch"; name] ++ start)
| deletes_branch flag name : flag ∈ ["-d"; "-D"] → plain_argument name → service_command ["branch"; flag; name].

(** A command in the directory of a registered repository. *)
Definition allowed (st : DaemonDb * Disk) (c : string * list string) : Prop :=
  service_command c.2 ∧ is_dir c.1 st.2 = true ∧ ∃ id row, db_repos st.1 !! id = Some row ∧ gr_repo_path row = c.1.

Lemma resolved_dir (repo_id dir : string) (st : DaemonDb * Disk) (args : list string) :
  resolve_repo_path repo_id st = Ok dir → service_command args → allowed st (dir, args).
Proof.
  unfold resolve_repo_path, get_git_repo. case_decide; [done|]. destruct (db_repos st.1 !! repo_id) as [row|] eqn:E; [|done].
  destruct (is_dir (gr_repo_path row) st.2) eqn:Ed; [|done]. intros [= <-] Ha. split_and!; [done..|]. by exists repo_id, row.
Qed.

Lemma valid_name_plain (name : string) : validate_branch_name name = Ok tt → plain_argument name.
Proof.
  unfold validate_branch_name. case_decide; [done|]. destruct (starts_with "-" name) eqn:E1; [done|].
  by destruct (contains ".." name) eqn:E2.
Qed.

Lemma run_git_log (dir : string) (args : list string) (w : GitState) : (run_git dir args w).1.2 = w.2 ++ [(dir, args)].
Proof. unfold run_git. by destruct (git dir args w.1). Qed.

Lemma info_log (dir name : string) (b : bool) (w : GitState) :
  ∃ p, starts_with "refs/" p = true ∧ (get_branch_info dir name b w).1.2 = w.2 ++ [(dir, ["for-each-ref"; "--format"; ref_format_str; p])].
Proof.
  exists ((if b then "refs/remotes/" else "refs/heads/") +:+ name). split; [by destruct b|]. unfold get_branch_info. rewrite <- run_git_log.
  by destruct (run_git dir _ w) as [w1 [o|e]].
Qed.

Lemma non_empty_cases (s : string) : s = EmptyString ∧ non_empty s = None ∨ s ≠ EmptyString ∧ non_empty s = Some s.
Proof. unfold non_empty. case_decide; auto. Qed.

Lemma no_command (st : DaemonDb * Disk) (l : list (string * list string)) : ∃ cmds, l = l ++ cmds ∧ Forall (allowed st) cmds.
Proof. exists []. by rewrite app_nil_r. Qed.

Lemma one_command (st : DaemonDb * Disk) (l l' : list (string * list string)) (c : string * list string) :
  l' = l ++ [c] → allowed st c → ∃ cmds, l' = l ++ cmds ∧ Forall (allowed st) cmds.
Proof. intros -> Hc. exists [c]. split; [done|by apply Forall_singleton]. Qed.

Lemma two_commands (st : DaemonDb * Disk) (l l1 l' : list (string * list string)) (c1 c2 : string * list string) :
  l1 = l ++ [c1] → l' = l1 ++ [c2] → allowed st c1 → allowed st c2 → ∃ cmds, l' = l ++ cmds ∧ Forall (allowed st) cmds.
Proof. intros -> -> H1 H2. exists [c1; c2]. split; [by rewrite <- app_assoc|]. constructor; [done|by apply Forall_singleton]. Qed.

(** C24: Whatever names and start points clients send, every command git is run
    with is one of the service's four in the directory of a registered
    repository, in which nothing a client sent is read as an option. *)
Theorem git_reads_no_client_option (c : BranchCall) (st : DaemonDb * Disk) (w : GitState) :
  ∃ cmds, (branch_call c st w).2 = w.2 ++ cmds ∧ Forall (allowed st) cmds.
Proof.
  destruct c as [id remote|id name start|id name force|id name]; cbn [branch_call].
  - unfold list_branches. destruct (resolve_repo_path id st) as [dir|e] eqn:Ed; [|by apply no_command].
    pose proof (run_git_log dir ["for-each-ref"; "--format"; ref_format_str; "refs/heads/"] w) as L1.
    assert (allowed st (dir, ["for-each-ref"; "--format"; ref_format_str; "refs/heads/"])) as A1 by (eapply resolved_dir; [done|by constructor]).
    destruct (run_git dir _ w) as [w1 [o1|e]]; [|by eapply one_command].
    destruct remote; [|by eapply one_command].
    pose proof (run_git_log dir ["for-each-ref"; "--format"; ref_format_str; "refs/remotes/"] w1) as L2.
    assert (allowed st (dir, ["for-each-ref"; "--format"; ref_format_str; "refs/remotes/"])) as A2 by (eapply resolved_dir; [done|by constructor]).
    destruct (run_git dir _ w1) as [w2 [o2|e]]; by eapply two_commands.
  - unfold create_branch. destruct (resolve_repo_path id st) as [dir|e] eqn:Ed; [|by apply no_command].
    destruct (validate_branch_name name) as [[]|e] eqn:Hn; [|by apply no_command]. apply valid_name_plain in Hn.
    destruct (bool_decide (start ≠ EmptyString) && starts_with "-" start) eqn:E1; [by apply no_command|].
    destruct (bool_decide (start ≠ EmptyString) && contains ".." start) eqn:E2; [by apply no_command|].
    assert (Forall plain_argument (option_list (non_empty start)) ∧ length (option_list (non_empty start)) ≤ 1) as [Hs Hl].
    { destruct (non_empty_cases start) as [[_ ->]|[He ->]]; [by split; [constructor|cbn; lia]|].
      rewrite bool_decide_eq_true_2 in E1, E2 by done. split; [|done]. by apply Forall_singleton. }
    pose proof (run_git_log dir (["branch"; name] ++ option_list (non_empty start)) w) as L1.
    assert (allowed st (dir, ["branch"; name] ++ option_list (non_empty start))) as A1 by (eapply resolved_dir; [done|by constructor]).
    destruct (run_git dir _ w) as [w1 [o1|e]]; [|by eapply one_command].
    destruct (info_log dir name false w1) as (p & Hp & L2). eapply two_commands; [exact L1|exact L2|done|].
    eapply resolved_dir; [done|by constructor].
  - unfold delete_branch. destruct (resolve_repo_path id st) as [dir|e] eqn:Ed; [|by apply no_command].
    destruct (validate_branch_name name) as [[]|e] eqn:Hn; [|by apply no_command]. apply valid_name_plain in Hn.
    pose proof (run_git_log dir ["branch"; (if force then "-D" else "-d"); name] w) as L1.
    assert (allowed st (dir, ["branch"; (if force then "-D" else "-d"); name])) as A1
      by (eapply resolved_dir; [done|constructor; [destruct force; set_solver|done]]).
    destruct (run_git dir _ w) as [w1 [o1|e]]; by eapply one_command.
  - unfold get_branch. destruct (resolve_repo_path id st) as [dir|e] eqn:Ed; [|by apply no_command].
    destruct (validate_branch_name name) as [[]|e] eqn:Hn; [|by apply no_command].
    destruct (info_log dir name false w) as (p & Hp & L2). eapply one_command; [exact L2|]. eapply resolved_dir; [done|by constructor].
Qed.

End Answers.
