(* ===== verification/RepoWitnesses.v ===== *)
(** Repositories and worktrees at concrete inputs.

    A git and a shell that work on the model's disk, a daemon with a
    repository, and the theorems of [RepoRuns],
    [WorktreeCorrect] and [BranchCorrect] applied to them. *)
From stdpp Require Import gmap strings list fin_maps.
From Stdlib Require Import ZArith Lia.
From S2P Require Import Prelude Protocol Utf8 Completion Commands Fingerprint SessionStore RepoStore Worktrees RepoService.
From S2P Require Import RepoRuns WorktreeCorrect BranchCorrect.

Definition remove_path (p : string) (k : Disk) : Disk := mkDisk (dk_dirs k ∖ {[resolve p]}) (delete (resolve p) (dk_files k)).

#[local] Instance small_git : GitTools.
Proof.
  refine {| git_worktree_add _ path _ k := (mkDisk ({[resolve path]} ∪ dk_dirs k) (dk_files k), Some (Ok tt));
            git_worktree_remove _ path k := (remove_path path k, Ok tt);
            run_script _ script k := (k, if decide (script = "false") then Err (ProcExit "exit 1") else Ok tt) |}.
  - intros repo path branch k k' [= <-]. unfold path_exists. apply bool_decide_eq_true_2. cbn. set_solver.
  - intros dir path k k' [= <-]. unfold path_exists, remove_path. apply bool_decide_eq_false_2. cbn. rewrite lookup_delete_eq.
    intros [H|[x H]]; [set_solver|done].
Defined.

#[local] Instance small_sql : SqlText := {| sql_failure_text _ := "constraint failed" |}.
#[local] Instance small_alphanumeric : UnicodeAlphanumeric := {| is_alphanumeric c := bool_decide (c ∈ ["a"; "b"; "e"; "f"; "r"; "t"; "u"; "x"]) |}.
#[local] Instance small_codes : WorktreeModeCodes.
Proof.
  refine {| mode_i32 m := match m with ProtoUnspecified => 0 | ProtoGlobal => 1 | ProtoLocal => 2 | ProtoCustom => 3 end%Z;
            mode_try_from z := if decide (z = 0)%Z then Some ProtoUnspecified else if decide (z = 1)%Z then Some ProtoGlobal
                               else if decide (z = 2)%Z then Some ProtoLocal else if decide (z = 3)%Z then Some ProtoCustom else None |}.
  by intros [].
Defined.

Definition feature_x : Ref := mkRef "refs/heads/feature/x" "feature/x" "c0ffee" "add x" false "".
Definition main_branch : Ref := mkRef "refs/heads/bare" "bare" "beef" "start" true "/r".

#[local] Instance small_refs : GitRefs.
Proof.
  refine {| GitWorld := list Ref;
            git _ args w := (w, match args with
              | ["for-each-ref"; _; _; pattern] => GitStdout (print_refs (filter (λ r, ref_matches pattern r = true) w))
              | _ => GitStdout EmptyString end);
            refs _ w := w |}.
  - by intros dir pattern w w' out [= <- <-].
  - done.
Defined.

(** A disk with a repository that has another one inside, and a database in
    which it is registered. *)
Definition disk0 : Disk := mkDisk {["/"; "/r"; "/r/.git"; "/w"]} ∅.
Definition register0 : RepoCall := CallRegister "id-r" 5 (mkRegister "/r" "" 2 "" "" "" true).
Definition sys0 : RepoSys := repo_run [register0] (repo_start disk0).
Definition db0 : DaemonDb := rs_db sys0.
Definition env0 : WorktreeEnv := mkWorktreeEnv "/w" "id-w" 7 None None.
Definition row0 : GitRepoRow := mkGitRepo "id-r" "r" "/r" "local" ".worktree" None None true 5 5.

Lemma db0_ok : repos_ok db0.
Proof. apply run_repos_ok. Qed.

Lemma db0_row : db_repos db0 !! "id-r" = Some row0.
Proof. vm_compute. reflexivity. Qed.

Lemma db0_no_worktrees (id : string) : db_worktrees db0 !! id = None.
Proof. assert (db_worktrees db0 = ∅) as -> by (vm_compute; reflexivity). apply lookup_empty. Qed.

Lemma listed_modes_are_valid_witness :
  ∃ r, r ∈ (list_repos 1 0 (rs_db (repo_run [register0] (repo_start disk0)))).1 ∧
    ∃ row, db_repos (rs_db (repo_run [register0] (repo_start disk0))) !! grd_id r = Some row ∧
    grd_worktree_mode r ∈ mode_i32 <$> [ProtoGlobal; ProtoLocal; ProtoCustom] ∧
    worktree_mode_to_str (grd_worktree_mode r) = Ok (gr_worktree_mode row).
Proof.
  exists (mkRepoDetail "id-r" "r" "/r" 2 ".worktree" "" "" true 0 5 5).
  assert (mkRepoDetail "id-r" "r" "/r" 2 ".worktree" "" "" true 0 5 5 ∈ (list_repos 1 0 (rs_db (repo_run [register0] (repo_start disk0)))).1) as H
    by (vm_compute; constructor).
  split; [exact H|]. exact (listed_modes_are_valid [register0] disk0 1 0 _ H).
Defined.

Lemma scan_is_idempotent_witness :
  ∃ d' l, scan_repos (λ n, pretty.pretty n) (λ _, 9%Z) "/r" 0 (Some [EntryDir (Some ".git") None]) (empty_db, disk0) = ((d', disk0), Ok (l, count_git_repos d')) ∧
    db_repos empty_db ⊆ db_repos d' ∧
    (∀ p, p ∈ scan_for_repos (scan_depth 0) "/r" (Some [EntryDir (Some ".git") None]) → ∃ r, get_git_repo_by_path p d' = Ok r) ∧
    scan_repos (λ _, "again") (λ _, 10%Z) "/r" 0 (Some [EntryDir (Some ".git") None]) (d', disk0) = ((d', disk0), Ok ([], count_git_repos d')).
Proof.
  apply (scan_is_idempotent (λ n, pretty.pretty n) (λ _, "again") (λ _, 9%Z) (λ _, 10%Z) "/r" 0 (Some [EntryDir (Some ".git") None]) empty_db disk0).
  - done.
  - vm_compute. reflexivity.
  - split; [intros i j H; by apply (inj pretty.pretty)|]. intros i _. apply lookup_empty.
Defined.

(** ** Worktrees *)

Definition created0 : (DaemonDb * Disk) * result Status WorktreeDetail := svc_create_worktree env0 "fea" "id-r" "fea" EmptyString (db0, disk0).
Definition detail0 : WorktreeDetail := mkWorktreeDetail "id-w" "fea" "/r/.worktree/id-w" "fea" "id-r" "" true 0 7 7.

Lemma unregister_removes_exactly_witness :
  ∃ d' k' removed n, unregister_repo "id-r" true (created0.1.1, created0.1.2) = ((d', k'), (removed, n)) ∧
    db_worktrees d' = filter (λ kv, wt_repo_id kv.2 ≠ "id-r") (db_worktrees created0.1.1) ∧
    removed = bool_decide (is_Some (db_repos created0.1.1 !! "id-r")) ∧ removed = true ∧ n = 1%Z.
Proof.
  assert (repos_ok created0.1.1) as Hok.
  { assert (created0.1.1 = rs_db (repo_run [register0; CallCreateBegin env0 "fea" "id-r" "fea" EmptyString; CallCreateEnd 0] (repo_start disk0))) as ->
      by (vm_compute; reflexivity). apply run_repos_ok. }
  pose proof (unregister_removes_exactly "id-r" true created0.1.1 created0.1.2 Hok) as H.
  destruct (unregister_repo "id-r" true (created0.1.1, created0.1.2)) as [[d' k'] [removed n]] eqn:E.
  destruct H as (_ & H2 & _ & H4 & _). exists d', k', removed, n. split_and!; [reflexivity|exact H2|exact H4| |].
  - rewrite H4. vm_compute. reflexivity.
  - apply (f_equal (λ x, x.2.2)) in E. cbn in E. rewrite <- E. vm_compute. reflexivity.
Defined.

Lemma created_worktree_is_there_witness :
  svc_get_worktree "id-w" created0.1 = Ok detail0 ∧ wd_exists_on_disk detail0 = true.
Proof.
  assert (created0 = ((created0.1.1, created0.1.2), Ok detail0)) as E by (vm_compute; reflexivity).
  destruct (created_worktree_is_there env0 "fea" "id-r" "fea" EmptyString db0 created0.1.1 disk0 created0.1.2 detail0 db0_ok E)
    as (H1 & _ & _ & _ & _ & _ & _ & H8 & _).
  split; [exact H1|]. apply H8; [reflexivity|]. rewrite db0_row. reflexivity.
Defined.

(** A setup script that fails. *)
Lemma failed_creation_leaves_no_row_witness :
  ∃ e, (svc_create_worktree env0 "fea" "id-r" "fea" "false" (db0, disk0)).2 = Err e ∧
       (svc_create_worktree env0 "fea" "id-r" "fea" "false" (db0, disk0)).1.1 = db0.
Proof.
  eexists. split; [vm_compute; reflexivity|].
  eapply (failed_creation_leaves_no_row env0 "fea" "id-r" "fea" "false" db0 _ disk0
    (svc_create_worktree env0 "fea" "id-r" "fea" "false" (db0, disk0)).1.2 _ db0_ok).
  - intros dir path k e. discriminate.
  - destruct (svc_create_worktree env0 "fea" "id-r" "fea" "false" (db0, disk0)) as [[d' k'] r] eqn:E. cbn. f_equal.
    apply (f_equal snd) in E. cbn in E. rewrite <- E. vm_compute. reflexivity.
Defined.

Lemma creation_orphaned_by_unregister_witness :
  let k' := (create_checkout env0 "fea" (repo_of_row row0) "fea" disk0).1 in
  let '((d2, k2), (removed, _)) := unregister_repo "id-r" false (db0, k') in
  create_record env0 "fea" (repo_of_row row0) "fea" None (d2, k2) = ((d2, k2), Err (WtDatabase (Query ForeignKeyViolation))) ∧
  path_exists "/r/.worktree/id-w" k2 = true.
Proof.
  assert (create_checkout env0 "fea" (repo_of_row row0) "fea" disk0 = ((create_checkout env0 "fea" (repo_of_row row0) "fea" disk0).1, Ok tt)) as E
    by (vm_compute; reflexivity).
  pose proof (creation_orphaned_by_unregister env0 "fea" "id-r" "fea" None row0 db0 disk0 _ db0_ok db0_row (db0_no_worktrees _)
    (λ id w H, False_ind _ (eq_ind None (λ o, match o with None => True | Some _ => False end) I _ (eq_trans (eq_sym (db0_no_worktrees id)) H))) E) as H.
  cbn zeta. destruct (unregister_repo "id-r" false _) as [[d2 k2] [removed n]]. destruct H as (_ & H1 & H2 & _). split; [exact H1|exact H2].
Defined.

(** ** Branches *)

Definition st0 : DaemonDb * Disk := (db0, disk0).
Definition world0 : GitState := ([main_branch; feature_x], []).

Lemma refs_clean : Forall clean_ref (refs "/r" world0.1).
Proof. repeat constructor; vm_compute; try reflexivity; intros [=]. Qed.

Lemma branches_are_listed_witness :
  (list_branches "id-r" true st0 world0).2 = Ok [mkBranchInfo "bare" "beef" "start" true true false; mkBranchInfo "feature/x" "c0ffee" "add x" false false false].
Proof.
  destruct (list_branches "id-r" true st0 world0) as [w' [bs|e]] eqn:E; [|vm_compute in E; discriminate E].
  destruct (branches_are_listed "id-r" "/r" true st0 world0 w' bs (clean_lines _ refs_clean)) as [-> _]; [vm_compute; reflexivity|exact E|].
  vm_compute. reflexivity.
Defined.

Lemma get_branch_by_name_witness : (get_branch "id-r" "bare" st0 world0).2 = Ok (branch_of false main_branch).
Proof.
  destruct (get_branch "id-r" "bare" st0 world0) as [w' r] eqn:E. cbn.
  apply (get_branch_by_name "id-r" "bare" "/r" st0 world0 w' r); try exact E; try (vm_compute; reflexivity).
  - exact refs_clean.
  - change (NoDup ["refs/heads/bare"; "refs/heads/feature/x"]). apply (bool_decide_eq_true _). reflexivity.
  - intros b Hb. change (b ∈ [main_branch; feature_x]) in Hb. unfold below. rewrite !elem_of_cons, elem_of_nil in Hb. by destruct Hb as [->|[->|[]]].
  - eexists. vm_compute. reflexivity.
  - left.
Defined.

Lemma missing_branch_answered_by_child_witness :
  ∃ b, b ∈ refs "/r" world0.1 ∧ ¬ named "feature" b ∧ below "feature" b ∧ (get_branch "id-r" "feature" st0 world0).2 = Ok (branch_of false b).
Proof.
  destruct (get_branch "id-r" "feature" st0 world0) as [w' r] eqn:E. cbn.
  apply (missing_branch_answered_by_child "id-r" "feature" "/r" feature_x st0 world0 w' r); try exact E; try (vm_compute; reflexivity).
  - exact refs_clean.
  - intros b Hb. change (b ∈ [main_branch; feature_x]) in Hb. unfold named. rewrite !elem_of_cons, elem_of_nil in Hb. by destruct Hb as [->|[->|[]]].
  - right. left.
  - eexists. vm_compute. reflexivity.
Defined.

Lemma gitignore_is_idempotent_witness :
  let k' := (ensure_gitignore None (repo_of_row row0) (mkDisk {["/r"]} {["/r/.gitignore" := "target"]})).1 in
  dk_files k' !! "/r/.gitignore" = Some ("target" +:+ lf +:+ ".worktree" +:+ lf) ∧ ensure_gitignore None (repo_of_row row0) k' = (k', Ok tt).
Proof.
  cbn zeta. split; [vm_compute; reflexivity|].
  apply (gitignore_is_idempotent (repo_of_row row0) (mkDisk {["/r"]} {["/r/.gitignore" := "target"]}));
    [vm_compute; reflexivity|reflexivity|vm_compute|vm_compute; reflexivity..].
  repeat split; discriminate.
Defined.

(** A session that was started for the worktree. *)
Definition calls0 : list RepoCall :=
  [register0; CallCreateBegin env0 "fea" "id-r" "fea" EmptyString; CallCreateEnd 0; CallSessions 8 (WCreateSession "s" "m" "/r/.worktree/id-w")].

Lemma worktrees_count_no_session_witness :
  ∃ w, w ∈ svc_list_worktrees "id-r" (rs_db (repo_run calls0 (repo_start disk0)), disk0) ∧ wd_session_count w = 0%Z.
Proof.
  exists (mkWorktreeDetail "id-w" "fea" "/r/.worktree/id-w" "fea" "id-r" "" false 0 7 7).
  assert (mkWorktreeDetail "id-w" "fea" "/r/.worktree/id-w" "fea" "id-r" "" false 0 7 7 ∈
    svc_list_worktrees "id-r" (rs_db (repo_run calls0 (repo_start disk0)), disk0)) as H by (vm_compute; constructor).
  split; [exact H|]. exact (worktrees_count_no_session calls0 disk0 disk0 "id-r" _ H).
Defined.
