(* ===== verification/CommandIndex.v ===== *)
(** What the command service offers for completion: commands, agents, files.

    Models the discovery of crates/betcode-core/src/commands/ (discovery.rs,
    plugins.rs), cc_discovery.rs and the reload of service_executor.rs, and
    crates/betcode-daemon/src/completion/ (file_index.rs, agent_lister.rs).
    What is on the disk is an argument, with directories in the order in which
    they are listed; regular expressions, JSON and the case of letters are the
    libraries'. *)
From stdpp Require Import gmap strings list pretty.
From Stdlib Require Import ZArith Lia.
From S2P Require Import Prelude Protocol Json Ndjson Commands SessionStore Fingerprint Utf8 RepoStore Worktrees.

(** The order of the values of a hash map. *)
Class HashOrder := {
  hash_values : ∀ {A : Type}, gmap string A → list A;
  hash_values_perm A (m : gmap string A) : hash_values m ≡ₚ (map_to_list m).*2
}.

(** * Discovery *)

Record FileTree := mkFileTree {
  ft_list : string → option (list string);  (** the names in a directory, those that are text *)
  ft_is_dir : string → bool;
  ft_exists : string → bool;
  ft_read : string → option string
}.

(** The last dot of a name that has one after its first character. *)
Definition split_extension (name : string) : string * option string :=
  match reverse (split_on (byte 46) name) with
  | ext :: stem :: before =>
      let stem' := join "." (reverse (stem :: before)) in
      if decide (name = ".." ∨ stem' = EmptyString) then (name, None) else (stem', Some ext)
  | _ => (name, None)
  end.

Definition collect_md_stems (fs : FileTree) (dir : string) : list string :=
  omap (λ name, let '(stem, ext) := split_extension name in if decide (ext = Some "md") then Some stem else None)
    (default [] (ft_list fs dir)).

Definition cc_names : list (string * string) :=
  [("help", "Show help information"); ("clear", "Clear conversation history"); ("compact", "Compact conversation context");
   ("exit", "Exit Claude Code"); ("config", "View or modify configuration"); ("model", "Switch AI model");
   ("permissions", "Manage tool permissions"); ("status", "Show session status"); ("context", "Manage context files");
   ("resume", "Resume a previous conversation"); ("memory", "Manage persistent memory"); ("doctor", "Diagnose configuration issues");
   ("cost", "Show token usage and costs"); ("mcp", "Manage MCP servers"); ("hooks", "Manage hooks"); ("plugins", "Manage plugins");
   ("fast", "Toggle fast mode"); ("vim", "Toggle vim keybindings")].

Definition hardcoded_cc_commands (version : string) : list CommandEntry :=
  (λ '(name, desc), command_entry_new name desc CatClaudeCode ModePassthrough "claude-code") <$> cc_names.

Definition discover_user_commands (fs : FileTree) (dir : string) : list CommandEntry :=
  (λ stem, command_entry_new stem ("User command: " +:+ stem) CatClaudeCode ModePassthrough "user") <$>
    collect_md_stems fs (path_join (path_join dir ".claude") "commands").

Definition discover_agents (fs : FileTree) (dir : string) : list string := collect_md_stems fs (path_join (path_join dir ".claude") "agents").

(** [retain] with a set of what was seen. *)
Fixpoint dedup_names (seen : gset string) (es : list CommandEntry) : list CommandEntry :=
  match es with
  | [] => []
  | e :: es' => if decide (ce_name e ∈ seen) then dedup_names seen es' else e :: dedup_names ({[ce_name e]} ∪ seen) es'
  end.

(** [captures] are the names the regular expression finds, in order. *)
Fixpoint parse_help_names (seen : gset string) (captures : list string) (hardcoded : list CommandEntry) : list CommandEntry * list CommandEntry :=
  match captures with
  | [] => ([], [])
  | name :: rest =>
      if decide (name ∈ seen) then parse_help_names seen rest hardcoded
      else
        let '(known, unknown) := parse_help_names ({[name]} ∪ seen) rest hardcoded in
        match head (filter (λ c, ce_name c = name) hardcoded) with
        | Some existing => (existing :: known, unknown)
        | None => (known, command_entry_new name ("Discovered command: " +:+ name) CatClaudeCode ModePassthrough "claude-code" :: unknown)
        end
  end.

Definition parse_help_output (captures : list string) (hardcoded : list CommandEntry) : list CommandEntry * list CommandEntry :=
  parse_help_names ∅ captures hardcoded.

Definition discover_all_cc_commands (fs : FileTree) (dir : string) (help : option (list string)) : list CommandEntry * list string :=
  let hardcoded := hardcoded_cc_commands "unknown" in
  let unknown := match help with Some captures => (parse_help_output captures hardcoded).2 | None => [] end in
  let warnings := (λ c, "Unknown command from help: " +:+ ce_name c) <$> unknown in
  (dedup_names ∅ (hardcoded ++ unknown ++ discover_user_commands fs dir), warnings).

(** ** Plugins *)

Section Plugins.
Context {JT : JsonText}.

Definition plugin_name_from_id (id : string) : string := default id (head (split_on (byte 64) id)).

(** The object under a key of the JSON in a file. *)
Definition read_object (fs : FileTree) (path key : string) : list (string * Json) :=
  match ft_read fs path with
  | None => []
  | Some content =>
      match json_parse content with
      | None => []
      | Some json => match Json.get key json with Some v => default [] (as_object v) | None => [] end
      end
  end.

Definition read_enabled_plugins (fs : FileTree) (claude_dir : string) : list string :=
  (filter (λ kv, as_bool kv.2 = Some true) (read_object fs (path_join claude_dir "settings.json") "enabledPlugins")).*1.

Definition install_path (versions : Json) : option string :=
  match as_array versions with
  | Some (first :: _) => match Json.get "installPath" first with Some v => as_str v | None => None end
  | _ => None
  end.

Definition read_installed_plugins (fs : FileTree) (claude_dir : string) : list (string * string) :=
  omap (λ '(id, versions), (λ path, (id, path)) <$> install_path versions)
    (read_object fs (path_join claude_dir "plugins/installed_plugins.json") "plugins").

Definition plugin_entry (id name desc : string) (category : CommandCategory) : CommandEntry :=
  let plugin := plugin_name_from_id id in
  let full := plugin +:+ ":" +:+ name in
  with_display_name full (with_group plugin (command_entry_new full (desc +:+ name) category ModePassthrough id)).

Definition plugin_skills (fs : FileTree) (id path : string) : list CommandEntry :=
  let dir := path_join path "skills" in
  if ft_is_dir fs dir then
    (λ name, plugin_entry id name "Skill: " CatSkill) <$>
      filter (λ name, ft_is_dir fs (path_join dir name) = true ∧ ft_exists fs (path_join (path_join dir name) "SKILL.md") = true)
        (default [] (ft_list fs dir))
  else [].

Definition plugin_commands (fs : FileTree) (id path : string) : list CommandEntry :=
  let dir := path_join path "commands" in
  if ft_is_dir fs dir then (λ stem, plugin_entry id stem "Plugin command: " CatPlugin) <$> collect_md_stems fs dir else [].

Definition discover_plugin_entries (fs : FileTree) (claude_dir : string) : list CommandEntry :=
  let enabled := read_enabled_plugins fs claude_dir in
  if decide (enabled = []) then []
  else concat ((λ '(id, path), plugin_skills fs id path ++ plugin_commands fs id path) <$>
                 filter (λ '(id, _), id ∈ enabled) (read_installed_plugins fs claude_dir)).

(** ** Reloading *)

Definition execute_reload_remote (fs : FileTree) (cwd session_id : string) (r : CommandRegistry) : CommandRegistry * string :=
  let r1 := clear_source "user" (clear_source "claude-code" r) in
  let '(commands, warnings) := discover_all_cc_commands fs cwd None in
  let r2 := foldl (λ r c, registry_add c r) r1 commands in
  let plugins := discover_plugin_entries fs (path_join cwd ".claude") in
  (update_session_plugin_entries session_id plugins r2,
   "Reloaded " +:+ pretty (length commands) +:+ " commands, " +:+ pretty (length plugins) +:+ " plugin entries" +:+
   match warnings with [] => EmptyString | _ => " (" +:+ pretty (length warnings) +:+ " warnings)" end).

End Plugins.

(** * Agents (agent_lister.rs) *)

Inductive AgentKind := ClaudeInternal | DaemonOrchestrated | TeamMember.
Inductive AgentStatus := AgentIdle | AgentWorking | AgentDone | AgentFailed.

Record AgentInfo := mkAgentInfo {
  ai_name : string;
  ai_kind : AgentKind;
  ai_status : AgentStatus;
  ai_session_id : option string
}.

Definition AgentLister : Type := gmap string AgentInfo.

Definition agent_update (info : AgentInfo) (l : AgentLister) : AgentLister := <[ai_name info := info]> l.
Definition agent_remove (name : string) (l : AgentLister) : AgentLister := delete name l.

Definition agent_search {UC : UnicodeCase} {HO : HashOrder} (query : string) (max_results : nat) (l : AgentLister) : list AgentInfo :=
  take max_results (filter (λ a, query = EmptyString ∨ contains (to_lowercase query) (to_lowercase (ai_name a)) = true) (hash_values l)).

(** * Files (file_index.rs) *)

Inductive PathKind := KFile | KDirectory | KSymlink.

#[export] Instance PathKind_eq_dec : EqDecision PathKind.
Proof. solve_decision. Defined.

Record IndexedPath := mkIndexed {
  ip_path : string;
  ip_kind : PathKind
}.

Record FileIndex := mkFileIndex {
  fi_entries : list IndexedPath;
  fi_root : string;
  fi_shared : option (list IndexedPath)  (** what the watcher keeps *)
}.

Definition empty_index : FileIndex := mkFileIndex [] EmptyString None.

Definition index_search {UC : UnicodeCase} (query : string) (max_results : nat) (i : FileIndex) : list IndexedPath :=
  take max_results (filter (λ e, contains (to_lowercase query) (to_lowercase (ip_path e)) = true) (fi_entries i)).

(** ** From git *)

(** The components of a path, as the standard library has them. *)
Definition path_components (p : string) : list string :=
  let names := filter (λ c, c ≠ EmptyString ∧ c ≠ ".") (split_on (byte 47) p) in
  if starts_with "/" p then "/" :: names
  else if decide (head (split_on (byte 47) p) = Some ".") then "." :: names
  else names.

Definition ancestors (p : string) : list string :=
  let parent := take (length (path_components p) - 1) (path_components p) in
  (λ i, foldl path_join EmptyString (take (S i) parent)) <$> seq 0 (length parent).

Definition add_dir (max : nat) (st : list IndexedPath * gset string) (dir : string) : list IndexedPath * gset string :=
  let '(entries, seen) := st in
  if decide (dir ∈ seen) then st
  else (if decide (length entries < max) then entries ++ [mkIndexed dir KDirectory] else entries, {[dir]} ∪ seen).

Definition add_line (classify : string → PathKind) (max : nat) (st : list IndexedPath * gset string) (raw : string)
  : list IndexedPath * gset string :=
  let line := trim raw in
  if decide (line = EmptyString) then st
  else
    let '(entries, seen) := foldl (add_dir max) st (ancestors line) in
    (if decide (length entries < max) then entries ++ [mkIndexed line (classify line)] else entries, seen).

(** The loop stops when the index is full. *)
Fixpoint git_entries (classify : string → PathKind) (max : nat) (st : list IndexedPath * gset string) (lines : list string)
  : list IndexedPath * gset string :=
  match lines with
  | [] => st
  | l :: ls => if decide (max ≤ length st.1) then st else git_entries classify max (add_line classify max st l) ls
  end.

(** [tracked] is what git prints, [None] when it fails; [untracked] is [None]
    only when git cannot be started. *)
Definition build_from_git (classify : string → PathKind) (max : nat) (tracked untracked : option string) : option (list IndexedPath) :=
  match tracked, untracked with
  | Some t, Some u => Some (git_entries classify max ([], ∅) (str_lines t ++ str_lines u)).1
  | _, _ => None
  end.

(** ** From the disk *)

Inductive WalkEntry :=
| WalkFile (name : string)
| WalkLink (name : string)
| WalkDir (name : string) (entries : option (list WalkEntry))  (** [None] when it cannot be read *)
| WalkError (name : string).                                   (** no metadata *)

Definition relative (dir name : string) : string := if decide (dir = EmptyString) then name else dir +:+ "/" +:+ name.

(** Directories are walked before the entries that follow them; an error ends
    the walk. *)
Fixpoint walk_entry (max : nat) (dir : string) (e : WalkEntry) (acc : list IndexedPath) {struct e} : option (list IndexedPath) :=
  match e with
  | WalkFile name => Some (acc ++ [mkIndexed (relative dir name) KFile])
  | WalkLink name => Some (acc ++ [mkIndexed (relative dir name) KSymlink])
  | WalkError _ => None
  | WalkDir name entries =>
      let acc' := acc ++ [mkIndexed (relative dir name) KDirectory] in
      match entries with
      | None => None
      | Some es =>
          (fix go (es : list WalkEntry) (acc : list IndexedPath) : option (list IndexedPath) :=
             match es with
             | [] => Some acc
             | e :: es' => if decide (max ≤ length acc) then Some acc
                           else match walk_entry max (relative dir name) e acc with Some acc' => go es' acc' | None => None end
             end) es acc'
      end
  end.

Fixpoint walk_entries (max : nat) (dir : string) (es : list WalkEntry) (acc : list IndexedPath) : option (list IndexedPath) :=
  match es with
  | [] => Some acc
  | e :: es' => if decide (max ≤ length acc) then Some acc
                else match walk_entry max dir e acc with Some acc' => walk_entries max dir es' acc' | None => None end
  end.

Definition build_from_walkdir (max : nat) (root : option (list WalkEntry)) : option (list IndexedPath) :=
  match root with Some es => walk_entries max EmptyString es [] | None => None end.

(** [None] when both ways fail. *)
Definition build_index (classify : string → PathKind) (root : string) (max : nat) (tracked untracked : option string)
    (listing : option (list WalkEntry)) : option FileIndex :=
  match build_from_git classify max tracked untracked with
  | Some es => Some (mkFileIndex es root None)
  | None => (λ es, mkFileIndex es root None) <$> build_from_walkdir max listing
  end.

(** ** Watching *)

(** Paths relative to the root; those outside it are left out. *)
Inductive WatchEvent :=
| WatchCreate (paths : list string)
| WatchRemove (paths : list string)
| WatchRename (old new : string)
| WatchOther.

Definition start_watching (i : FileIndex) : option FileIndex :=
  if decide (fi_root i = EmptyString) then None else Some (mkFileIndex (fi_entries i) (fi_root i) (Some (fi_entries i))).

Fixpoint rename_first (classify : string → PathKind) (old new : string) (es : list IndexedPath) : list IndexedPath :=
  match es with
  | [] => []
  | e :: es' => if decide (ip_path e = old) then mkIndexed new (classify new) :: es' else e :: rename_first classify old new es'
  end.

Definition watch_entries (classify : string → PathKind) (ev : WatchEvent) (es : list IndexedPath) : list IndexedPath :=
  match ev with
  | WatchCreate paths => foldl (λ es p, if decide (p ∈ ip_path <$> es) then es else es ++ [mkIndexed p (classify p)]) es paths
  | WatchRemove paths => foldl (λ es p, filter (λ e, ip_path e ≠ p) es) es paths
  | WatchRename old new => rename_first classify old new es
  | WatchOther => es
  end.

Definition watch (classify : string → PathKind) (ev : WatchEvent) (i : FileIndex) : FileIndex :=
  mkFileIndex (fi_entries i) (fi_root i) (watch_entries classify ev <$> fi_shared i).

(** What the indexes of the command service hold.

    The file index is bounded and has every file unless it is full; reloading
    the commands twice is reloading them once; what the watcher sees is not
    found. *)

(** * The file index from git *)

Section Git.
Variable classify : string → PathKind.
Variable max : nat.

Definition index_state : Type := list IndexedPath * gset string.

Record index_ok (st : index_state) : Prop := {
  io_bound : length st.1 ≤ max;
  io_dirs : length st.1 < max → ∀ d, d ∈ st.2 → mkIndexed d KDirectory ∈ st.1
}.

(** What the index had is still there. *)
Definition grows (st st' : index_state) : Prop := st.1 ⊆ st'.1 ∧ st.2 ⊆ st'.2 ∧ length st.1 ≤ length st'.1.

Lemma grows_refl (st : index_state) : grows st st.
Proof. by split_and!. Qed.

Lemma grows_trans (st1 st2 st3 : index_state) : grows st1 st2 → grows st2 st3 → grows st1 st3.
Proof. intros (? & ? & ?) (? & ? & ?). split_and!; [by etrans|set_solver|lia]. Qed.

Lemma grows_push (es : list IndexedPath) (e : IndexedPath) (seen seen' : gset string) : seen ⊆ seen' → grows (es, seen) (es ++ [e], seen').
Proof. intros Hs. split_and!; cbn; [|done|rewrite length_app; lia]. intros x Hx. apply elem_of_app. by left. Qed.

Lemma add_dir_ok (st : index_state) (d : string) : index_ok st → index_ok (add_dir max st d) ∧ grows st (add_dir max st d) ∧ d ∈ (add_dir max st d).2.
Proof.
  destruct st as [es seen]. intros [H1 H2]. cbn in *. case_decide as Hd; [split_and!; [by split|apply grows_refl|done]|]. case_decide as Hl; cbn.
  - split_and!; [|apply grows_push; set_solver|set_solver].
    split; cbn; rewrite length_app; cbn; [lia|]. intros Hlt d' [->%elem_of_singleton|Hd']%elem_of_union; apply elem_of_app;
      [right; by apply list_elem_of_singleton|left; by apply H2].
  - split_and!; [split; cbn; [done|lia]|split_and!; cbn; [done|set_solver|lia]|set_solver].
Qed.

Lemma add_dirs_ok (ds : list string) (st : index_state) : index_ok st →
  index_ok (foldl (add_dir max) st ds) ∧ grows st (foldl (add_dir max) st ds) ∧ ∀ d, d ∈ ds → d ∈ (foldl (add_dir max) st ds).2.
Proof.
  revert st. induction ds as [|d ds IH]; intros st Hst.
  { split_and!; [done|apply grows_refl|]. intros d Hd. by apply not_elem_of_nil in Hd. }
  cbn [foldl]. destruct (add_dir_ok st d Hst) as (H1 & H2 & H3). destruct (IH _ H1) as (K1 & K2 & K3). split_and!; [done|by eapply grows_trans|].
  intros d' [->|Hd']%elem_of_cons; [|by apply K3]. destruct K2 as (_ & K2 & _). set_solver.
Qed.

(** A line is in an index, with its directories. *)
Definition indexed (st : index_state) (raw : string) : Prop :=
  trim raw ≠ EmptyString → mkIndexed (trim raw) (classify (trim raw)) ∈ st.1 ∧ ∀ d, d ∈ ancestors (trim raw) → mkIndexed d KDirectory ∈ st.1.

Lemma add_line_ok (st : index_state) (raw : string) : index_ok st →
  index_ok (add_line classify max st raw) ∧ grows st (add_line classify max st raw) ∧
  (length (add_line classify max st raw).1 < max → indexed (add_line classify max st raw) raw).
Proof.
  intros Hst. unfold add_line, indexed. cbn zeta. case_decide as He; [split_and!; [done|apply grows_refl|done]|].
  destruct (add_dirs_ok (ancestors (trim raw)) st Hst) as (H1 & H2 & H3). destruct (foldl (add_dir max) st (ancestors (trim raw))) as [es seen].
  destruct H1 as [B1 B2]. destruct H2 as (G1 & G2 & G3). cbn in *. case_decide as Hl; cbn.
  - rewrite length_app. cbn. split_and!; cbn.
    + split; cbn; rewrite length_app; cbn; [lia|]. intros Hlt d Hd. apply elem_of_app. left. by apply B2.
    + apply (grows_trans st (es, seen)); [by split_and!|by apply grows_push].
    + intros Hlt _. split; [apply elem_of_app; right; by apply list_elem_of_singleton|]. intros d Hd. apply elem_of_app. left. by apply B2, H3.
  - split_and!; [by split|by split_and!|lia].
Qed.

Lemma indexed_grows (st st' : index_state) (raw : string) : grows st st' → indexed st raw → indexed st' raw.
Proof. intros (G & _) H Hr. destruct (H Hr) as [H1 H2]. split; [by apply G|]. intros d Hd. by apply G, H2. Qed.

Lemma git_entries_ok (lines : list string) (st : index_state) : index_ok st →
  index_ok (git_entries classify max st lines) ∧ grows st (git_entries classify max st lines) ∧
  (length (git_entries classify max st lines).1 < max → ∀ raw, raw ∈ lines → indexed (git_entries classify max st lines) raw).
Proof.
  revert st. induction lines as [|l ls IH]; intros st Hst.
  { split_and!; [done|apply grows_refl|]. intros _ raw Hr. by apply not_elem_of_nil in Hr. }
  cbn [git_entries]. case_decide as Hf; [split_and!; [done|apply grows_refl|lia]|].
  destruct (add_line_ok st l Hst) as (H1 & H2 & H3). destruct (IH _ H1) as (K1 & K2 & K3).
  split_and!; [done|by eapply grows_trans|]. intros Hlt raw [->|Hr]%elem_of_cons; [|by apply K3].
  eapply indexed_grows; [done|]. apply H3. destruct K2 as (_ & _ & ?). lia.
Qed.

End Git.

(** The index built from what git lists has at most as many entries as
    allowed, and when it is not full it has every file that was listed and
    every directory on the way to it. *)
Theorem git_index_complete (classify : string → PathKind) (max : nat) (tracked untracked : string) (es : list IndexedPath) :
  build_from_git classify max (Some tracked) (Some untracked) = Some es →
  length es ≤ max ∧
  (length es < max → ∀ raw, raw ∈ str_lines tracked ++ str_lines untracked → trim raw ≠ EmptyString →
    mkIndexed (trim raw) (classify (trim raw)) ∈ es ∧ ∀ d, d ∈ ancestors (trim raw) → mkIndexed d KDirectory ∈ es).
Proof.
  cbn. intros [= <-]. destruct (git_entries_ok classify max (str_lines tracked ++ str_lines untracked) ([], ∅)) as ([H1 _] & _ & H2).
  { split; cbn; [lia|set_solver]. }
  split; [done|]. intros Hlt raw Hr. by apply H2.
Qed.

(** * The file index from the disk *)

Lemma walk_entry_bound (max : nat) : ∀ (e : WalkEntry) (dir : string) (acc acc' : list IndexedPath),
  length acc < max → walk_entry max dir e acc = Some acc' → length acc' ≤ max.
Proof.
  fix IH 1. intros [name|name|name entries|name] dir acc acc' Hlen H; simpl in H; simplify_eq; [rewrite length_app; simpl; lia..|].
  destruct entries as [es|]; [|done]. revert H.
  assert (length (acc ++ [mkIndexed (relative dir name) KDirectory]) ≤ max) as Hacc by (rewrite length_app; simpl; lia).
  revert Hacc. generalize (acc ++ [mkIndexed (relative dir name) KDirectory]). clear acc Hlen. revert es.
  fix IHes 1. intros [|e es] acc Hacc H; [by simplify_eq|]. case_decide as Hf; [by simplify_eq|].
  destruct (walk_entry max (relative dir name) e acc) as [acc1|] eqn:E; [|done].
  refine (IHes es acc1 _ H). refine (IH e _ acc acc1 _ E). lia.
Qed.

Lemma walk_bound (max : nat) (root : option (list WalkEntry)) (es : list IndexedPath) :
  build_from_walkdir max root = Some es → length es ≤ max.
Proof.
  destruct root as [ws|]; [|done]. cbn. assert (length (@nil IndexedPath) ≤ max) as H by (cbn; lia). revert H. generalize (@nil IndexedPath).
  induction ws as [|w ws IH]; intros acc Hacc H; cbn in H; [by simplify_eq|]. case_decide; [by simplify_eq|].
  destruct (walk_entry max EmptyString w acc) as [acc1|] eqn:E; [|done]. eapply IH; [|exact H]. eapply walk_entry_bound; [|exact E]. lia.
Qed.

(** * Watching *)

(** Whatever files come and go while the index is watched, a search finds
    what the index had when it was built. *)
Lemma watched_changes_not_found {UC : UnicodeCase} (classify : string → PathKind) (evs : list WatchEvent) (i : FileIndex) (query : string) (n : nat) :
  index_search query n (foldl (λ i ev, watch classify ev i) i evs) = index_search query n i.
Proof. revert i. induction evs as [|ev evs IH]; intros i; [done|]. cbn. by rewrite IH. Qed.

(** * Reloading commands *)

Lemma dedup_sources (P : CommandEntry → Prop) (seen : gset string) (es : list CommandEntry) : Forall P es → Forall P (dedup_names seen es).
Proof. intros H. revert seen. induction H as [|e es He _ IH]; intros seen; cbn; [done|]. case_decide; [done|]. by constructor. Qed.

Definition reloaded_source (e : CommandEntry) : Prop := ce_source e = "claude-code" ∨ ce_source e = "user".

Lemma discovered_sources (fs : FileTree) (cwd : string) : Forall reloaded_source (discover_all_cc_commands fs cwd None).1.
Proof.
  unfold discover_all_cc_commands. cbn [fst]. apply dedup_sources. rewrite !Forall_app. split_and!; [|done|].
  - unfold hardcoded_cc_commands. rewrite Forall_fmap, Forall_forall. intros [n d] _. by left.
  - unfold discover_user_commands. rewrite Forall_fmap, Forall_forall. intros stem _. by right.
Qed.

Lemma add_all_base (cs : list CommandEntry) (r : CommandRegistry) :
  foldl (λ r c, registry_add c r) r cs = mkCommandRegistry (base_entries r ++ cs) (session_layers r).
Proof.
  revert r. induction cs as [|c cs IH]; intros r; cbn; [rewrite app_nil_r; by destruct r|]. rewrite IH. cbn. by rewrite <- app_assoc.
Qed.

Definition kept_source (e : CommandEntry) : Prop := ce_source e ≠ "user" ∧ ce_source e ≠ "claude-code".

Lemma cleared_base (r : CommandRegistry) : clear_source "user" (clear_source "claude-code" r) = mkCommandRegistry (filter kept_source (base_entries r)) (session_layers r).
Proof. unfold clear_source. cbn. by rewrite list_filter_filter. Qed.

Lemma reloaded_not_kept (cs : list CommandEntry) : Forall reloaded_source cs → filter kept_source cs = [].
Proof.
  induction 1 as [|c cs Hc _ IH]; [done|]. rewrite filter_cons, decide_False; [done|]. unfold kept_source. destruct Hc; tauto.
Qed.

Lemma plugins_not_mcp {JT : JsonText} (fs : FileTree) (dir : string) : Forall (λ e, ce_category e ≠ CatMcp) (discover_plugin_entries fs dir).
Proof.
  unfold discover_plugin_entries. case_decide; [done|]. apply Forall_concat, Forall_fmap, Forall_forall. intros [id path] _. cbn [compose].
  apply Forall_app. unfold plugin_skills, plugin_commands. cbn zeta. split; case_match; try done; apply Forall_fmap, Forall_forall; by intros ? _.
Qed.

Lemma no_mcp (es : list CommandEntry) : Forall (λ e, ce_category e ≠ CatMcp) es → filter (λ e, ce_category e = CatMcp) es = [].
Proof. induction 1 as [|e es He _ IH]; [done|]. by rewrite filter_cons, decide_False. Qed.

(** Reloading keeps the commands that are not rediscovered and the tools of
    the session, and a second reload of the same disk changes nothing. *)
Theorem reload_is_idempotent {JT : JsonText} (fs : FileTree) (cwd session : string) (r : CommandRegistry) :
  let r' := (execute_reload_remote fs cwd session r).1 in
  execute_reload_remote fs cwd session r' = (r', (execute_reload_remote fs cwd session r).2) ∧
  base_entries r' = filter kept_source (base_entries r) ++ (discover_all_cc_commands fs cwd None).1 ∧
  (∀ other, other ≠ session → session_layers r' !! other = session_layers r !! other).
Proof.
  pose proof (discovered_sources fs cwd) as Hsrc. pose proof (plugins_not_mcp fs (path_join cwd ".claude")) as Hps.
  unfold execute_reload_remote. destruct (discover_all_cc_commands fs cwd None) as [cs ws]. cbn [fst] in *.
  generalize dependent (discover_plugin_entries fs (path_join cwd ".claude")). intros ps Hps.
  cbn zeta. cbn [fst snd]. rewrite !cleared_base, !add_all_base. unfold update_session_plugin_entries. cbn [base_entries session_layers].
  split_and!; [|done|intros other Hne; by rewrite lookup_insert_ne].
  rewrite lookup_insert_eq, insert_insert_eq. change (default [] (Some ?l)) with l.
  rewrite !filter_app, (reloaded_not_kept cs Hsrc), (no_mcp ps Hps), !app_nil_r. rewrite !list_filter_filter_l by tauto. done.
Qed.

Lemma git_index_complete_witness :
  ∃ es, build_from_git (λ _, KFile) 10 (Some "src/a.rs") (Some "") = Some es ∧
    mkIndexed "src/a.rs" KFile ∈ es ∧ mkIndexed "src" KDirectory ∈ es.
Proof.
  eexists. split; [vm_compute; reflexivity|].
  match goal with |- mkIndexed _ _ ∈ ?es ∧ _ => destruct (git_index_complete (λ _, KFile) 10 "src/a.rs" "" es) as [_ H] end; [vm_compute; reflexivity|].
  destruct (H ltac:(vm_compute; lia) "src/a.rs" ltac:(vm_compute; constructor) ltac:(vm_compute; discriminate)) as [H1 H2].
  split; [exact H1|]. apply H2. vm_compute. constructor.
Defined.
