(* ===== verification/CommandService.v ===== *)
(** The daemon's command service.

    Models crates/betcode-daemon/src/server/command_svc.rs,
    commands/service_executor.rs and plugin/ (client.rs, manager.rs and
    config.rs) on [CommandIndex].  A service command is a task of its own: it waits for the
    lock of the executor, which is granted in the order of the requests, works,
    and sends its output to a client that reads when it likes; the reading of a
    process's output goes through a channel of its own.  What a process prints
    and what is on the disk are arguments. *)
From stdpp Require Import gmap strings list pretty.
From Stdlib Require Import ZArith Lia.
From S2P Require Import Prelude Protocol Json Utf8 Commands SessionStore RepoStore Worktrees CommandIndex.

(** * Plugins *)

Inductive PluginStatus := PluginHealthy | PluginDegraded | PluginUnavailable.

#[export] Instance PluginStatus_eq_dec : EqDecision PluginStatus.
Proof. solve_decision. Defined.

Record PluginHealth := mkPluginHealth {
  ph_failures : Z;
  ph_degraded : Z;
  ph_unavailable : Z
}.

Definition health_new (degraded unavailable : Z) : PluginHealth := mkPluginHealth 0 degraded unavailable.

Definition health_status (h : PluginHealth) : PluginStatus :=
  if (ph_unavailable h <=? ph_failures h)%Z then PluginUnavailable
  else if (ph_degraded h <=? ph_failures h)%Z then PluginDegraded
  else PluginHealthy.

Definition record_failure (h : PluginHealth) : PluginHealth := mkPluginHealth (wrap_u32 (ph_failures h + 1)) (ph_degraded h) (ph_unavailable h).
Definition record_success (h : PluginHealth) : PluginHealth := mkPluginHealth 0 (ph_degraded h) (ph_unavailable h).

Record PluginClient := mkPluginClient {
  pc_name : string;
  pc_socket_path : string;
  pc_health : PluginHealth;
  pc_timeout_secs : Z;
  pc_enabled : bool
}.

Definition PluginManager : Type := gmap string PluginClient.

Definition add_plugin (name socket_path : string) (timeout : Z) (m : PluginManager) : PluginManager :=
  <[name := mkPluginClient name socket_path (health_new 3 10) timeout true]> m.

Definition remove_plugin (name : string) (m : PluginManager) : PluginManager := delete name m.

Definition set_enabled (b : bool) (c : PluginClient) : PluginClient :=
  mkPluginClient (pc_name c) (pc_socket_path c) (pc_health c) (pc_timeout_secs c) b.

Definition enable_plugin (name : string) (b : bool) (m : PluginManager) : PluginManager * result string unit :=
  match m !! name with
  | Some c => (<[name := set_enabled b c]> m, Ok tt)
  | None => (m, Err ("plugin '" +:+ name +:+ "' not found"))
  end.

Record PluginInfo := mkPluginInfo {
  pi_name : string;
  pi_status : string;
  pi_enabled : bool;
  pi_socket_path : string;
  pi_command_count : Z;
  pi_healthy : bool
}.

Definition plugin_status_to_string (s : PluginStatus) : string :=
  match s with PluginHealthy => "healthy" | PluginDegraded => "degraded" | PluginUnavailable => "unavailable" end.

Definition plugin_client_to_proto (c : PluginClient) : PluginInfo :=
  let status := health_status (pc_health c) in
  mkPluginInfo (pc_name c) (plugin_status_to_string status) (pc_enabled c) (pc_socket_path c) 0 (bool_decide (status = PluginHealthy)).

Definition plugin_summary_to_proto (c : PluginClient) : PluginInfo :=
  let status := health_status (pc_health c) in
  mkPluginInfo (pc_name c) (plugin_status_to_string status) (pc_enabled c) EmptyString 0 (bool_decide (status = PluginHealthy)).

Definition list_plugins {HO : HashOrder} (m : PluginManager) : list PluginInfo := plugin_summary_to_proto <$> hash_values m.

Definition get_plugin_status (name : string) (m : PluginManager) : result Status PluginInfo :=
  match m !! name with
  | Some c => Ok (plugin_client_to_proto c)
  | None => Err (mkStatus CodeNotFound ("plugin '" +:+ name +:+ "' not found"))
  end.

Definition svc_add_plugin (name socket_path : string) (m : PluginManager) : PluginManager * result Status PluginInfo :=
  if decide (name = EmptyString) then (m, Err (mkStatus InvalidArgument "plugin name must not be empty"))
  else if decide (socket_path = EmptyString) then (m, Err (mkStatus InvalidArgument "socket_path must not be empty"))
  else
    let m' := add_plugin name socket_path 30 m in
    (m', match m' !! name with
         | Some c => Ok (plugin_client_to_proto c)
         | None => Err (mkStatus Internal "failed to retrieve newly added plugin")
         end).

Definition svc_remove_plugin (name : string) (m : PluginManager) : PluginManager * bool :=
  (remove_plugin name m, bool_decide (is_Some (m !! name))).

Definition svc_enable_plugin (name : string) (b : bool) (m : PluginManager) : PluginManager * result Status PluginInfo :=
  match enable_plugin name b m with
  | (m', Err e) => (m', Err (mkStatus CodeNotFound e))
  | (m', Ok _) =>
      (m', match m' !! name with
           | Some c => Ok (plugin_client_to_proto c)
           | None => Err (mkStatus Internal ("plugin disappeared after " +:+ (if b then "enable" else "disable")))
           end)
  end.

(** ** The file of plugins (config.rs)

    The daemon never reads it: the manager above starts without plugins. *)

Record PluginDeclaration := mkPluginDeclaration {
  pd_name : string;
  pd_socket : string;
  pd_enabled : bool;
  pd_timeout_secs : Z
}.

Definition PluginConfig : Type := list PluginDeclaration.

(** TOML: writing fails where an integer has no place in it. *)
Class PluginToml := {
  plugins_to_toml : PluginConfig → option string;
  plugins_from_toml : string → option PluginConfig
}.

(** [content] is what the file has, when it can be read. *)
Definition plugin_config_load {PT : PluginToml} (content : option string) : option PluginConfig :=
  let text := default EmptyString content in
  if decide (trim text = EmptyString) then Some [] else plugins_from_toml text.

(** The new content of the file, and whether the call succeeded. *)
Definition plugin_config_save {PT : PluginToml} (writable : bool) (c : PluginConfig) (content : option string) : option string * bool :=
  match plugins_to_toml c with
  | Some t => if writable then (Some t, true) else (content, false)
  | None => (content, false)
  end.

Definition config_add_plugin (name socket : string) (c : PluginConfig) : PluginConfig :=
  c ++ [mkPluginDeclaration name socket true 30].

Definition config_remove_plugin (name : string) (c : PluginConfig) : PluginConfig := filter (λ p, pd_name p ≠ name) c.

Definition declare_enabled (b : bool) (p : PluginDeclaration) : PluginDeclaration :=
  mkPluginDeclaration (pd_name p) (pd_socket p) b (pd_timeout_secs p).

(** The first declaration of the name. *)
Fixpoint config_enable_plugin (name : string) (b : bool) (c : PluginConfig) : PluginConfig :=
  match c with
  | [] => []
  | p :: c' => if decide (pd_name p = name) then declare_enabled b p :: c' else p :: config_enable_plugin name b c'
  end.

(** * Queries *)

Definition effective_max (max_results : nat) : nat := if decide (max_results = 0) then 20 else max_results.

Definition list_path {UC : UnicodeCase} (query : string) (max_results : nat) (i : FileIndex) : list IndexedPath :=
  index_search query (effective_max max_results) i.

Definition list_agents {UC : UnicodeCase} {HO : HashOrder} (query : string) (max_results : nat) (l : AgentLister) : list AgentInfo :=
  agent_search query (effective_max max_results) l.

(** * Service commands *)

Inductive Output := StdoutLine (s : string) | StderrLine (s : string) | ExitCode (code : Z) | OutError (s : string).

(** What running a shell command meets. *)
Inductive BashRun :=
| BashSpawnError (e : string)
| BashProc (out err : list string) (exit : result string Z).

Inductive Phase :=
| Waiting                                                        (** for the executor *)
| Reading (out err : list string) (exit : result string Z)       (** what the process has yet to print *)
| Forwarding (failure : option string)
| Sending (rest : list Output) (shutdown : bool)
| Finished.

Record Task := mkTask {
  t_command : string;
  t_args : list string;
  t_session : string;
  t_bash : BashRun;
  t_phase : Phase;
  t_channel : list Output;    (** from the reading of the process, at most 64 *)
  t_stream : list Output;     (** to the client, at most 64 *)
  t_received : list Output;
  t_gone : bool               (** the client has dropped the stream *)
}.

Definition CHANNEL : nat := 64.

(** The lock of the executor: who holds it, who waits, and who of them to
    write. *)
Record ExecutorLock := mkLock {
  el_holders : list (nat * bool);
  el_queue : list (nat * bool)
}.

Record CommandState := mkCommandState {
  cs_registry : CommandRegistry;
  cs_files : FileIndex;
  cs_agents : AgentLister;
  cs_cwd : string;
  cs_shutdown : bool;
  cs_lock : ExecutorLock;
  cs_tasks : gmap nat Task
}.

(** The machine when a task gets the executor. *)
Record CommandEnv := mkCommandEnv {
  cv_tree : FileTree;
  cv_canonicalize : string → result string string;
  cv_index : option FileIndex   (** building an index of the directory *)
}.

Definition with_phase (p : Phase) (t : Task) : Task :=
  mkTask (t_command t) (t_args t) (t_session t) (t_bash t) p (t_channel t) (t_stream t) (t_received t) (t_gone t).
Definition with_channel (c : list Output) (t : Task) : Task :=
  mkTask (t_command t) (t_args t) (t_session t) (t_bash t) (t_phase t) c (t_stream t) (t_received t) (t_gone t).
Definition with_stream (c : list Output) (t : Task) : Task :=
  mkTask (t_command t) (t_args t) (t_session t) (t_bash t) (t_phase t) (t_channel t) c (t_received t) (t_gone t).

Definition set_tasks (ts : gmap nat Task) (s : CommandState) : CommandState :=
  mkCommandState (cs_registry s) (cs_files s) (cs_agents s) (cs_cwd s) (cs_shutdown s) (cs_lock s) ts.
Definition set_lock (l : ExecutorLock) (s : CommandState) : CommandState :=
  mkCommandState (cs_registry s) (cs_files s) (cs_agents s) (cs_cwd s) (cs_shutdown s) l (cs_tasks s).
Definition set_cwd (c : string) (s : CommandState) : CommandState :=
  mkCommandState (cs_registry s) (cs_files s) (cs_agents s) c (cs_shutdown s) (cs_lock s) (cs_tasks s).

Definition update_task (id : nat) (t : Task) (s : CommandState) : CommandState := set_tasks (<[id := t]> (cs_tasks s)) s.

(** ** The executor *)

(** [None]: the directory stays. *)
Definition execute_cd (env : CommandEnv) (path cwd : string) : result string string :=
  let target := if starts_with "/" path then path else path_join cwd path in
  match cv_canonicalize env target with
  | Err _ => Err ("Failed to resolve path: " +:+ target)
  | Ok resolved => if ft_is_dir (cv_tree env) resolved then Ok resolved else Err ("Not a directory: " +:+ resolved)
  end.

Definition output_of (r : result string string) : Output := match r with Ok s => StdoutLine s | Err e => OutError e end.

(** How a command uses the executor: [None] for not at all. *)
Definition lock_mode (command : string) (args : list string) : option bool :=
  if decide (command = "cd") then Some true
  else if decide (command = "pwd" ∨ command = "reload-remote") then Some false
  else if decide (command = "bash") then (if decide (default EmptyString (head args) = EmptyString) then None else Some false)
  else None.

Definition first_phase (command : string) (args : list string) : Phase :=
  match lock_mode command args with
  | Some _ => Waiting
  | None =>
      if decide (command = "bash") then Sending [OutError "No command provided"] false
      else if decide (command = "exit-daemon") then Sending [StdoutLine "Daemon shutting down..."] true
      else Sending [OutError ("Unknown service command: " +:+ command)] false
  end.

Definition start_task (id : nat) (command : string) (args : list string) (session : string) (run : BashRun) (s : CommandState) : CommandState :=
  match cs_tasks s !! id with
  | Some _ => s
  | None =>
      let s1 := update_task id (mkTask command args session run (first_phase command args) [] [] [] false) s in
      match lock_mode command args with
      | Some w => set_lock (mkLock (el_holders (cs_lock s1)) (el_queue (cs_lock s1) ++ [(id, w)])) s1
      | None => s1
      end
  end.

Definition reload_agents (names : list string) : AgentLister :=
  foldl (λ l name, agent_update (mkAgentInfo name ClaudeInternal AgentIdle None) l) ∅ names.

Section Steps.
Context {JT : JsonText}.

Definition reload_message (cmd_msg : string) (agents files : nat) : string :=
  cmd_msg +:+ ", " +:+ pretty agents +:+ " agents, " +:+ pretty files +:+ " files".

Definition run_reload (env : CommandEnv) (session : string) (s : CommandState) : CommandState * Output :=
  let '(reg, cmd_msg) := execute_reload_remote (cv_tree env) (cs_cwd s) session (cs_registry s) in
  let agents := discover_agents (cv_tree env) (cs_cwd s) in
  let '(files, count) := match cv_index env with Some i => (i, length (fi_entries i)) | None => (cs_files s, 0) end in
  (mkCommandState reg files (reload_agents agents) (cs_cwd s) (cs_shutdown s) (cs_lock s) (cs_tasks s),
   StdoutLine (reload_message cmd_msg (length agents) count)).

(** What a task does with the executor, up to where it waits again; the
    boolean says that it keeps the executor. *)
Definition with_executor (env : CommandEnv) (t : Task) (s : CommandState) : CommandState * Task * bool :=
  if decide (t_command t = "pwd") then (s, with_phase (Sending [StdoutLine (cs_cwd s)] false) t, false)
  else if decide (t_command t = "cd") then
    match execute_cd env (default "~" (head (t_args t))) (cs_cwd s) with
    | Ok cwd => (set_cwd cwd s, with_phase (Sending [StdoutLine cwd] false) t, false)
    | Err e => (s, with_phase (Sending [OutError e] false) t, false)
    end
  else if decide (t_command t = "bash") then
    match t_bash t with
    | BashSpawnError e => (s, with_phase (Forwarding (Some e)) t, false)
    | BashProc out err exit => (s, with_phase (Reading out err exit) t, true)
    end
  else let '(s', o) := run_reload env (t_session t) s in (s', with_phase (Sending [o] false) t, false).

Definition compatible (w : bool) (holders : list (nat * bool)) : bool :=
  if w then bool_decide (holders = []) else forallb (λ h, negb h.2) holders.

(** The first in the queue gets the executor when those who hold it allow. *)
Definition grant (env : CommandEnv) (id : nat) (s : CommandState) : CommandState :=
  match el_queue (cs_lock s), cs_tasks s !! id with
  | (id', w) :: rest, Some t =>
      if decide (id' = id) then
        if compatible w (el_holders (cs_lock s)) then
          let '(s1, t1, keeps) := with_executor env t (set_lock (mkLock (el_holders (cs_lock s)) rest) s) in
          let holders := if keeps then (id, w) :: el_holders (cs_lock s) else el_holders (cs_lock s) in
          update_task id t1 (set_lock (mkLock holders rest) s1)
        else s
      else s
  | _, _ => s
  end.

Definition release_lock (id : nat) (l : ExecutorLock) : ExecutorLock := mkLock (filter (λ h, h.1 ≠ id) (el_holders l)) (el_queue l).

(** ** Steps *)

Inductive CommandOp :=
| OpStart (id : nat) (command : string) (args : list string) (session : string) (run : BashRun)
| OpGrant (id : nat) (env : CommandEnv)
| OpStdout (id : nat)      (** a line of the process is read *)
| OpStderr (id : nat)
| OpExit (id : nat)        (** the process has ended *)
| OpForward (id : nat)
| OpSend (id : nat)
| OpReceive (id : nat)     (** by the client *)
| OpGone (id : nat).

(** The steps of a task on its own; [true] when it gives the executor back.
    Sending to a full channel waits. *)
Definition task_step (op : CommandOp) (t : Task) : option (Task * bool) :=
  match op, t_phase t with
  | OpStdout _, Reading (l :: out) err exit =>
      if decide (length (t_channel t) < CHANNEL)
      then Some (with_phase (Reading out err exit) (with_channel (t_channel t ++ [StdoutLine l]) t), false) else None
  | OpStderr _, Reading out (l :: err) exit =>
      if decide (length (t_channel t) < CHANNEL)
      then Some (with_phase (Reading out err exit) (with_channel (t_channel t ++ [StderrLine l]) t), false) else None
  | OpExit _, Reading [] [] (Ok code) =>
      if decide (length (t_channel t) < CHANNEL)
      then Some (with_phase (Forwarding None) (with_channel (t_channel t ++ [ExitCode code]) t), true) else None
  | OpExit _, Reading [] [] (Err e) => Some (with_phase (Forwarding (Some e)) t, true)
  | OpForward _, Forwarding failure =>
      match t_channel t with
      | o :: rest =>
          if t_gone t then Some (with_phase Finished t, false)
          else if decide (length (t_stream t) < CHANNEL) then Some (with_stream (t_stream t ++ [o]) (with_channel rest t), false)
          else None
      | [] => Some (with_phase (Sending (match failure with Some e => [OutError e] | None => [] end) false) t, false)
      end
  | OpSend _, Sending (o :: rest) sd =>
      if t_gone t then Some (with_phase (Sending rest sd) t, false)
      else if decide (length (t_stream t) < CHANNEL) then Some (with_phase (Sending rest sd) (with_stream (t_stream t ++ [o]) t), false)
      else None
  | OpSend _, Sending [] false => Some (with_phase Finished t, false)
  | OpReceive _, _ =>
      match t_stream t with
      | o :: rest => Some (mkTask (t_command t) (t_args t) (t_session t) (t_bash t) (t_phase t) (t_channel t) rest (t_received t ++ [o]) (t_gone t), false)
      | [] => None
      end
  | OpGone _, _ => Some (mkTask (t_command t) (t_args t) (t_session t) (t_bash t) (t_phase t) (t_channel t) [] (t_received t) true, false)
  | _, _ => None
  end.

Definition op_task (op : CommandOp) : nat :=
  match op with
  | OpStart id _ _ _ _ | OpGrant id _ | OpStdout id | OpStderr id | OpExit id | OpForward id | OpSend id | OpReceive id | OpGone id => id
  end.

(** The end of [exit-daemon]. *)
Definition shuts_down (op : CommandOp) (t : Task) : bool :=
  match op, t_phase t with OpSend _, Sending [] true => true | _, _ => false end.

Definition command_step (op : CommandOp) (s : CommandState) : CommandState :=
  match op with
  | OpStart id command args session run => start_task id command args session run s
  | OpGrant id env => grant env id s
  | _ =>
      let id := op_task op in
      match cs_tasks s !! id with
      | None => s
      | Some t =>
          if shuts_down op t then
            mkCommandState (cs_registry s) (cs_files s) (cs_agents s) (cs_cwd s) true (cs_lock s) (<[id := with_phase Finished t]> (cs_tasks s))
          else match task_step op t with
          | None => s
          | Some (t', releases) =>
              let s1 := update_task id t' s in
              if releases then set_lock (release_lock id (cs_lock s1)) s1 else s1
          end
      end
  end.

Definition command_run (ops : list CommandOp) (s : CommandState) : CommandState := foldl (λ s op, command_step op s) s ops.

End Steps.

Definition command_start (cwd : string) (r : CommandRegistry) (i : FileIndex) (l : AgentLister) : CommandState :=
  mkCommandState r i l cwd false (mkLock [] []) ∅.
