(* ===== verification/CommandCorrect.v ===== *)
(** What the command service does with the output of commands.

    The invariant of the executor's lock, the shell commands whose output
    arrives, and those that stop the service; the file of plugins. *)
From stdpp Require Import gmap strings list.
From Stdlib Require Import ZArith Lia.
From S2P Require Import Prelude Protocol Json Utf8 Commands SessionStore RepoStore Worktrees CommandIndex CommandService.

#[local] Arguments CHANNEL : simpl never.
#[local] Arguments with_executor : simpl never.

(** * The file of plugins *)

Section PluginFile.
Implicit Types (c : PluginConfig) (p : PluginDeclaration) (n name : string).

Definition names_of c : list string := pd_name <$> c.

Lemma names_of_enable name b c : names_of (config_enable_plugin name b c) = names_of c.
Proof. unfold names_of. induction c as [|p c IH]; [done|]. cbn [config_enable_plugin]. case_decide; rewrite !fmap_cons; [done|]. by f_equal. Qed.

Lemma elem_of_enable name b c p :
  NoDup (names_of c) →
  p ∈ config_enable_plugin name b c ↔ (∃ p', p' ∈ c ∧ p = if decide (pd_name p' = name) then declare_enabled b p' else p').
Proof.
  unfold names_of. induction c as [|q c IH]; [set_solver|]. rewrite fmap_cons. cbn [config_enable_plugin]. intros [Hn Hd]%NoDup_cons. specialize (IH Hd). case_decide as Hq.
  - rewrite elem_of_cons. split.
    + intros [->|Hp]; [exists q; rewrite decide_True by done; set_solver|]. exists p. split; [set_solver|].
      rewrite decide_False; [done|]. intros Hpn. apply Hn, list_elem_of_fmap. exists p. by rewrite Hq, Hpn.
    + intros (p' & [->|Hp']%elem_of_cons & ->); [rewrite decide_True by done; auto|]. right.
      rewrite decide_False; [done|]. intros Hpn. apply Hn, list_elem_of_fmap. exists p'. by rewrite Hq, Hpn.
  - rewrite elem_of_cons, IH. split.
    + intros [->|(p' & Hp' & ->)]; [exists q; rewrite decide_False by done; set_solver|exists p'; set_solver].
    + intros (p' & [->|Hp']%elem_of_cons & ->); [rewrite decide_False by done; auto|right; eauto].
Qed.

(** Names stay unique under removing and enabling, and under adding a name
    that is new. *)
Lemma plugin_names_unique name socket b c :
  NoDup (names_of c) →
  NoDup (names_of (config_remove_plugin name c)) ∧ NoDup (names_of (config_enable_plugin name b c)) ∧
  (name ∉ names_of c → NoDup (names_of (config_add_plugin name socket c))).
Proof.
  intros Hd. split_and!.
  - apply (sublist_NoDup _ _ Hd). unfold names_of. apply fmap_sublist, sublist_filter.
  - by rewrite names_of_enable.
  - intros Hn. unfold names_of, config_add_plugin in *. rewrite fmap_app. simpl. apply NoDup_app. split_and!; [done| |apply NoDup_singleton].
    intros x Hx ->%list_elem_of_singleton. done.
Qed.

(** What is saved is what is loaded, and a save that fails leaves the file. *)
Lemma saved_plugins_load_back {PT : PluginToml} (w : bool) c (content content' : option string) (ok : bool)
  (Hback : ∀ c t, plugins_to_toml c = Some t → plugins_from_toml t = Some c)
  (Hsome : ∀ c t, plugins_to_toml c = Some t → trim t = EmptyString → c = []) :
  plugin_config_save w c content = (content', ok) →
  if ok then plugin_config_load content' = Some c else content' = content.
Proof.
  unfold plugin_config_save, plugin_config_load. destruct (plugins_to_toml c) as [t|] eqn:Et; [|by intros [= <- <-]].
  destruct w; intros [= <- <-]; [|done]. simpl. case_decide as Ht; [by rewrite (Hsome _ _ Et Ht)|eauto].
Qed.

(** A name that is added twice is declared twice: disabling it leaves the
    second declaration enabled, where the manager has one plugin. *)
Lemma second_declaration_stays_enabled name s s' c :
  mkPluginDeclaration name s' true 30 ∈ config_enable_plugin name false (config_add_plugin name s' (config_add_plugin name s c)) ∧
  (∀ m : gmap string PluginClient, pc_enabled <$> (enable_plugin name false (add_plugin name s' 30 (add_plugin name s 30 m))).1 !! name = Some false).
Proof.
  split.
  - unfold config_add_plugin. induction c as [|p c IH]; simpl; [rewrite decide_True by done; set_solver|].
    case_decide; [rewrite elem_of_cons, !elem_of_app; set_solver|set_solver].
  - intros m. unfold enable_plugin, add_plugin, PluginManager. rewrite lookup_insert_eq. simpl. by rewrite lookup_insert_eq.
Qed.
End PluginFile.

Section Lock.
Context {JT : JsonText}.

(** * Who waits and who holds *)

Definition untouched (t : Task) : Prop := t_stream t = [] ∧ t_received t = [].

Record lock_ok (s : CommandState) : Prop := {
  lo_distinct : NoDup (el_queue (cs_lock s)).*1;
  lo_waiting : ∀ id w, (id, w) ∈ el_queue (cs_lock s) →
    ∃ t, cs_tasks s !! id = Some t ∧ t_phase t = Waiting ∧ lock_mode (t_command t) (t_args t) = Some w;
  lo_reading : ∀ id t out err exit, cs_tasks s !! id = Some t → t_phase t = Reading out err exit →
    (id, false) ∈ el_holders (cs_lock s) ∧ untouched t;
  lo_waits : ∀ id t, cs_tasks s !! id = Some t → t_phase t = Waiting → untouched t ∧ t_channel t = []
}.

Lemma start_lock_ok (cwd : string) (r : CommandRegistry) (i : FileIndex) (l : AgentLister) : lock_ok (command_start cwd r i l).
Proof.
  split; cbn; try (intros *; by rewrite lookup_empty); [constructor|].
  intros id w H. by apply not_elem_of_nil in H.
Qed.

(** A task with the executor does not touch the tasks or the lock. *)
Lemma with_executor_frame (env : CommandEnv) (t : Task) (s s1 : CommandState) (t1 : Task) (keeps : bool) :
  with_executor env t s = (s1, t1, keeps) →
  cs_tasks s1 = cs_tasks s ∧ cs_lock s1 = cs_lock s ∧ t_stream t1 = t_stream t ∧ t_received t1 = t_received t ∧
  t_phase t1 ≠ Waiting ∧ (∀ out err exit, t_phase t1 = Reading out err exit → keeps = true ∧ t_command t = "bash").
Proof.
  unfold with_executor, run_reload. intros H. repeat case_match; simplify_eq/=; by split_and!.
Qed.

Lemma bash_reads (args : list string) (w : bool) : lock_mode "bash" args = Some w → w = false.
Proof. unfold lock_mode. repeat case_decide; try done; [by destruct H0|congruence]. Qed.

Lemma task_step_frame (op : CommandOp) (t t' : Task) (releases : bool) :
  task_step op t = Some (t', releases) →
  t_phase t' ≠ Waiting ∨ t_phase t' = t_phase t ∧ releases = false.
Proof. unfold task_step. intros H. repeat case_match; simplify_eq/=; auto. Qed.

Lemma task_step_reading (op : CommandOp) (t t' : Task) (releases : bool) (out err : list string) (exit : result string Z) :
  task_step op t = Some (t', releases) → t_phase t' = Reading out err exit →
  releases = false ∧ (∃ out0 err0, t_phase t = Reading out0 err0 exit) ∧ (untouched t → untouched t').
Proof.
  unfold task_step, untouched. intros H Hp. repeat case_match; simplify_eq/=; try congruence; (split_and!; [done|by eauto|]);
    intros [? ?]; congruence || done.
Qed.

Lemma task_step_waiting (op : CommandOp) (t t' : Task) (releases : bool) :
  task_step op t = Some (t', releases) → t_phase t' = Waiting →
  releases = false ∧ t_phase t = Waiting ∧ t_command t' = t_command t ∧ t_args t' = t_args t ∧ t_channel t' = t_channel t ∧
  (untouched t → untouched t').
Proof.
  unfold task_step, untouched. intros H Hp. repeat case_match; simplify_eq/=; try congruence; split_and!; try done;
    intros [? ?]; congruence || done.
Qed.

Lemma task_step_leaves (op : CommandOp) (t t' : Task) (releases : bool) :
  task_step op t = Some (t', releases) → t_phase t = Waiting → t_phase t' = Waiting.
Proof. unfold task_step. intros H Hp. rewrite Hp in H. repeat case_match; by simplify_eq/=. Qed.

Lemma start_task_ok (id : nat) (command : string) (args : list string) (session : string) (run : BashRun) (s : CommandState) :
  lock_ok s → lock_ok (start_task id command args session run s).
Proof.
  intros [H1 H2 H3 H4]. unfold start_task. destruct (cs_tasks s !! id) eqn:Et; [done|]. cbn zeta.
  assert (id ∉ (el_queue (cs_lock s)).*1) as Hq.
  { intros ([i w] & -> & Hi)%list_elem_of_fmap. destruct (H2 i w Hi) as (t & Ht & _). cbn in Et. congruence. }
  set (t0 := mkTask command args session run (first_phase command args) [] [] [] false).
  assert (∀ i t out err exit, (<[id := t0]> (cs_tasks s)) !! i = Some t → t_phase t = Reading out err exit →
    (i, false) ∈ el_holders (cs_lock s) ∧ untouched t) as Hr.
  { intros i t out err exit [[<- <-]|[_ Ht]]%lookup_insert_Some; [|by eapply H3]. cbn. unfold first_phase. by repeat case_match. }
  assert (∀ i t, (<[id := t0]> (cs_tasks s)) !! i = Some t → t_phase t = Waiting → untouched t ∧ t_channel t = []) as Hw.
  { intros i t [[<- <-]|[_ Ht]]%lookup_insert_Some; [done|by eapply H4]. }
  assert (∀ i w, (i, w) ∈ el_queue (cs_lock s) →
    ∃ t, (<[id := t0]> (cs_tasks s)) !! i = Some t ∧ t_phase t = Waiting ∧ lock_mode (t_command t) (t_args t) = Some w) as Hold.
  { intros i w Hi. destruct (H2 i w Hi) as (t & Ht & ?). exists t. split; [|done]. rewrite lookup_insert_ne; [done|congruence]. }
  destruct (lock_mode command args) as [w|] eqn:Em; split; cbn; try done.
  - rewrite fmap_app. apply NoDup_app. split_and!; [done| |apply NoDup_singleton]. intros i Hi ->%list_elem_of_singleton. done.
  - intros i w' [Hi|[= -> ->]%list_elem_of_singleton]%elem_of_app; [by apply Hold|].
    exists t0. split; [by rewrite lookup_insert_eq|]. cbn. unfold first_phase. by rewrite Em.
Qed.

Lemma grant_ok (env : CommandEnv) (id : nat) (s : CommandState) : lock_ok s → lock_ok (grant env id s).
Proof.
  intros Hs. pose proof Hs as [H1 H2 H3 H4]. unfold grant. destruct (el_queue (cs_lock s)) as [|[id' w] rest] eqn:Eq; [done|].
  destruct (cs_tasks s !! id) as [t|] eqn:Et; [|done]. case_decide as Hid; [subst id'|done].
  destruct (compatible w (el_holders (cs_lock s))); [|done].
  destruct (with_executor env t _) as [[s1 t1] keeps] eqn:Ew. apply with_executor_frame in Ew as (F1 & F2 & F3 & F4 & F5 & F6). cbn in F1, F2.
  destruct (H2 id w) as (t' & Ht' & Hwait & Hmode); [apply list_elem_of_here|]. simplify_eq.
  destruct (H4 id t Et Hwait) as [Hun Hch]. inversion H1 as [|? ? Hnin Hnd]; subst.
  assert (∀ h, h ∈ el_holders (cs_lock s) → h ∈ (if keeps then (id, w) :: el_holders (cs_lock s) else el_holders (cs_lock s))) as Hk
    by (intros h Hh; destruct keeps; [by apply list_elem_of_further|done]).
  split; cbn; [done|..]; rewrite ?F1.
  - intros i w' Hi. destruct (H2 i w') as (ti & Hti & ?); [by apply list_elem_of_further|]. exists ti. split; [|done].
    rewrite lookup_insert_ne; [done|]. intros <-. apply Hnin. apply list_elem_of_fmap. by exists (id, w').
  - intros i ti out err exit [[<- <-]|[_ Hti]]%lookup_insert_Some Hp.
    + destruct (F6 _ _ _ Hp) as [-> Hb]. rewrite Hb in Hmode. apply bash_reads in Hmode as ->. split; [apply list_elem_of_here|].
      unfold untouched in *. by rewrite F3, F4.
    + destruct (H3 _ _ _ _ _ Hti Hp). by auto.
  - intros i ti [[<- <-]|[_ Hti]]%lookup_insert_Some Hp; [done|by eapply H4].
Qed.

Lemma task_op_ok (op : CommandOp) (id : nat) (t t' : Task) (releases : bool) (s : CommandState) :
  lock_ok s → cs_tasks s !! id = Some t → task_step op t = Some (t', releases) →
  lock_ok (if releases then set_lock (release_lock id (cs_lock (update_task id t' s))) (update_task id t' s) else update_task id t' s).
Proof.
  intros [H1 H2 H3 H4] Ht Hstep.
  assert (∀ i w, (i, w) ∈ el_queue (cs_lock s) →
    ∃ ti, (<[id := t']> (cs_tasks s)) !! i = Some ti ∧ t_phase ti = Waiting ∧ lock_mode (t_command ti) (t_args ti) = Some w) as Hq.
  { intros i w Hi. destruct (H2 i w Hi) as (ti & Hti & Hp & Hm). destruct (decide (i = id)) as [->|]; [|exists ti; by rewrite lookup_insert_ne].
    simplify_eq. exists t'. rewrite lookup_insert_eq. pose proof (task_step_leaves _ _ _ _ Hstep Hp) as Hp'.
    destruct (task_step_waiting _ _ _ _ Hstep Hp') as (_ & _ & Hc & Ha & _). by rewrite Hc, Ha. }
  assert (∀ i ti, (<[id := t']> (cs_tasks s)) !! i = Some ti → t_phase ti = Waiting → untouched ti ∧ t_channel ti = []) as Hw.
  { intros i ti [[<- <-]|[_ Hti]]%lookup_insert_Some Hp; [|by eapply H4].
    destruct (task_step_waiting _ _ _ _ Hstep Hp) as (_ & Hp0 & _ & _ & -> & Hu). destruct (H4 _ _ Ht Hp0). by auto. }
  assert (∀ i ti out err exit, (<[id := t']> (cs_tasks s)) !! i = Some ti → t_phase ti = Reading out err exit →
    (i, false) ∈ el_holders (cs_lock s) ∧ untouched ti ∧ (i = id → releases = false)) as Hr.
  { intros i ti out err exit [[<- <-]|[Hne Hti]]%lookup_insert_Some Hp.
    - destruct (task_step_reading _ _ _ _ _ _ _ Hstep Hp) as (Hrel & (o & e & Hp0) & Hu). destruct (H3 _ _ _ _ _ Ht Hp0). by auto.
    - destruct (H3 _ _ _ _ _ Hti Hp). split_and!; [done..|]. by intros ->. }
  destruct releases; split; cbn; try done.
  - intros i ti out err exit Hti Hp. destruct (Hr i ti out err exit Hti Hp) as (Hh & Hu & Hid). split; [|done].
    apply list_elem_of_filter. split; [|done]. cbn. intros ->. by specialize (Hid eq_refl).
  - intros i ti out err exit Hti Hp. by destruct (Hr i ti out err exit Hti Hp) as (Hh & Hu & _).
Qed.

Lemma command_step_ok (op : CommandOp) (s : CommandState) : lock_ok s → lock_ok (command_step op s).
Proof.
  intros Hs. assert (∀ o, (∀ i c a se r, o ≠ OpStart i c a se r) → (∀ i e, o ≠ OpGrant i e) → lock_ok (match cs_tasks s !! op_task o with
    | None => s
    | Some t => if shuts_down o t then
        mkCommandState (cs_registry s) (cs_files s) (cs_agents s) (cs_cwd s) true (cs_lock s) (<[op_task o := with_phase Finished t]> (cs_tasks s))
      else match task_step o t with None => s | Some (t', releases) =>
        if releases then set_lock (release_lock (op_task o) (cs_lock (update_task (op_task o) t' s))) (update_task (op_task o) t' s) else update_task (op_task o) t' s end
    end)) as H.
  { intros o _ _. destruct (cs_tasks s !! op_task o) as [t|] eqn:Et; [|done]. destruct (shuts_down o t) eqn:Esd.
    - destruct Hs as [H1 H2 H3 H4]. unfold shuts_down in Esd. assert (t_phase t = Sending [] true) as Hp by (repeat case_match; by simplify_eq).
      split; cbn; [done|..].
      + intros i w Hi. destruct (H2 i w Hi) as (ti & Hti & Hw & Hm). exists ti. split; [|done]. rewrite lookup_insert_ne; [done|congruence].
      + intros i ti out err exit [[<- <-]|[_ Hti]]%lookup_insert_Some Hq; [done|by eapply H3].
      + intros i ti [[<- <-]|[_ Hti]]%lookup_insert_Some Hq; [done|by eapply H4].
    - destruct (task_step o t) as [[t' rel]|] eqn:Est; [|done]. by eapply task_op_ok. }
  destruct op; [by apply start_task_ok|by apply grant_ok|..]; by apply H.
Qed.

Lemma run_lock_ok (ops : list CommandOp) (s : CommandState) : lock_ok s → lock_ok (command_run ops s).
Proof. unfold command_run. revert s. induction ops as [|op ops IH]; intros s Hs; [done|]. apply IH. by apply command_step_ok. Qed.

(** * Output that is not read *)

(** A shell command whose output, with the exit code, does not fit the
    channel. *)
Definition overflows (t : Task) : Prop :=
  ∃ out err code, t_phase t = Reading out err (Ok code) ∧ CHANNEL ≤ length (t_channel t) + length out + length err.

Lemma overflows_step (op : CommandOp) (t t' : Task) (releases : bool) :
  overflows t → task_step op t = Some (t', releases) → overflows t' ∧ releases = false.
Proof.
  intros (out & err & code & Hp & Hlen) H. unfold task_step in H. rewrite Hp in H.
  repeat case_match; simplify_eq/=; try lia; (split; [|done]); unfold overflows; cbn.
  all: try (do 3 eexists; split; [reflexivity|]; rewrite ?length_app; cbn [length]; lia).
  all: do 3 eexists; split; [eassumption|]; lia.
Qed.

Definition stuck (id : nat) (s : CommandState) : Prop := ∃ t, cs_tasks s !! id = Some t ∧ overflows t.

Lemma overflows_reading (t : Task) : overflows t → t_phase t ≠ Waiting ∧ ∀ op, shuts_down op t = false.
Proof. intros (out & err & code & Hp & _). split; [congruence|]. intros op. unfold shuts_down. rewrite Hp. by destruct op. Qed.

Lemma stuck_step (id : nat) (op : CommandOp) (s : CommandState) : lock_ok s → stuck id s → stuck id (command_step op s).
Proof.
  intros Hok (t & Ht & Ho). pose proof (overflows_reading t Ho) as [Hnw Hsd].
  assert (∀ o, stuck id (match cs_tasks s !! op_task o with
    | None => s
    | Some t => if shuts_down o t then
        mkCommandState (cs_registry s) (cs_files s) (cs_agents s) (cs_cwd s) true (cs_lock s) (<[op_task o := with_phase Finished t]> (cs_tasks s))
      else match task_step o t with None => s | Some (t', releases) =>
        if releases then set_lock (release_lock (op_task o) (cs_lock (update_task (op_task o) t' s))) (update_task (op_task o) t' s) else update_task (op_task o) t' s end
    end)) as H.
  { intros o. destruct (decide (op_task o = id)) as [->|Hne].
    - rewrite Ht, Hsd. destruct (task_step o t) as [[t' rel]|] eqn:Est; [|by exists t].
      destruct (overflows_step _ _ _ _ Ho Est) as [Ho' ->]. exists t'. split; [by apply lookup_insert_eq|done].
    - exists t. split; [|done]. destruct (cs_tasks s !! op_task o) as [t2|]; [|done]. destruct (shuts_down o t2); [cbn; by rewrite lookup_insert_ne|].
      destruct (task_step o t2) as [[t' [|]]|]; cbn; by rewrite ?lookup_insert_ne. }
  destruct op as [i c a se r|i env|i|i|i|i|i|i|i]; [| |by apply H..].
  - exists t. split; [|done]. cbn. unfold start_task. destruct (cs_tasks s !! i) eqn:Ei; [done|]. cbn zeta.
    destruct (lock_mode c a); cbn; (rewrite lookup_insert_ne; [done|congruence]).
  - exists t. split; [|done]. cbn. unfold grant. destruct (el_queue (cs_lock s)) as [|[i' w] rest] eqn:Eq; [done|].
    destruct (cs_tasks s !! i) as [ti|] eqn:Ei; [|done]. case_decide as Hi; [subst i'|done]. destruct (compatible _ _); [|done].
    destruct (with_executor env ti _) as [[s1 t1] keeps] eqn:Ew. apply with_executor_frame in Ew as (F1 & _). cbn. rewrite F1. cbn.
    rewrite lookup_insert_ne; [done|]. intros ->. destruct (lo_waiting s Hok id w) as (t' & Ht' & Hw & _); [rewrite Eq; apply list_elem_of_here|]. congruence.
Qed.

Lemma stuck_run (id : nat) (ops : list CommandOp) (s : CommandState) : lock_ok s → stuck id s → stuck id (command_run ops s).
Proof.
  unfold command_run. revert s. induction ops as [|op ops IH]; intros s Hs Hst; [done|]. apply IH; [by apply command_step_ok|by apply stuck_step].
Qed.

(** A shell command that prints 64 lines or more: its client never gets a
    line of it nor the end, whatever happens afterwards, and the executor is
    held for ever. *)
Theorem long_output_never_arrives (cwd : string) (r : CommandRegistry) (i : FileIndex) (l : AgentLister) (before after : list CommandOp)
    (id : nat) (t : Task) (out err : list string) (code : Z) :
  cs_tasks (command_run before (command_start cwd r i l)) !! id = Some t → t_phase t = Reading out err (Ok code) →
  64 ≤ length (t_channel t) + length out + length err →
  ∃ t', cs_tasks (command_run after (command_run before (command_start cwd r i l))) !! id = Some t' ∧
    t_received t' = [] ∧ t_phase t' ≠ Finished ∧
    (id, false) ∈ el_holders (cs_lock (command_run after (command_run before (command_start cwd r i l)))).
Proof.
  intros Ht Hp Hlen. pose proof (run_lock_ok before _ (start_lock_ok cwd r i l)) as Hok.
  destruct (stuck_run id after _ Hok) as (t' & Ht' & (o & e & c & Hp' & _)); [by exists t; split; [|do 3 eexists]|].
  destruct (lo_reading _ (run_lock_ok after _ Hok) id t' o e (Ok c) Ht' Hp') as [Hh [_ Hrec]].
  exists t'. split_and!; [done..| |done]. congruence.
Qed.

(** ** Commands that wait behind it *)

(** A command that changes the directory waits, and [xs] after it. *)
Definition queued (c : nat) (xs : list nat) (s : CommandState) : Prop :=
  ∃ pre post, el_queue (cs_lock s) = pre ++ (c, true) :: post ∧ ∀ x, x ∈ xs → x ∈ post.*1.

Lemma queued_step (id c : nat) (xs : list nat) (op : CommandOp) (s : CommandState) :
  lock_ok s → stuck id s → queued c xs s → queued c xs (command_step op s).
Proof.
  intros Hok (t & Ht & o & e & code & Hp & _) (pre & post & Hq & Hxs).
  destruct (lo_reading s Hok id t o e (Ok code) Ht Hp) as [Hh _].
  assert (∀ s', el_queue (cs_lock s') = el_queue (cs_lock s) → queued c xs s') as Hsame by (intros s' E; exists pre, post; by rewrite E).
  assert (∀ o, el_queue (cs_lock (match cs_tasks s !! op_task o with
    | None => s
    | Some t => if shuts_down o t then
        mkCommandState (cs_registry s) (cs_files s) (cs_agents s) (cs_cwd s) true (cs_lock s) (<[op_task o := with_phase Finished t]> (cs_tasks s))
      else match task_step o t with None => s | Some (t', releases) =>
        if releases then set_lock (release_lock (op_task o) (cs_lock (update_task (op_task o) t' s))) (update_task (op_task o) t' s) else update_task (op_task o) t' s end
    end)) = el_queue (cs_lock s)) as H.
  { intros o'. repeat case_match; done. }
  destruct op as [i cm a se r|i env|i|i|i|i|i|i|i]; [| |by apply Hsame, H..].
  - cbn. unfold start_task. destruct (cs_tasks s !! i) eqn:Ei; [by apply Hsame|]. cbn zeta. destruct (lock_mode cm a) as [w|]; [|by apply Hsame].
    exists pre, (post ++ [(i, w)]). cbn. rewrite Hq, <- app_assoc. split; [done|]. intros x Hx. rewrite fmap_app. apply elem_of_app. by auto.
  - cbn. unfold grant. rewrite Hq. destruct (cs_tasks s !! i) as [ti|] eqn:Ei; [|by destruct pre as [|[? ?] ?]; apply Hsame].
    destruct pre as [|[i' w] pre]; cbn.
    + case_decide; [|by apply Hsame]. rewrite bool_decide_eq_false_2; [by apply Hsame|]. intros Hn. rewrite Hn in Hh. by apply not_elem_of_nil in Hh.
    + case_decide; [|by apply Hsame]. destruct (compatible w _); [|by apply Hsame].
      destruct (with_executor env ti _) as [[s1 t1] keeps]. exists pre, post. by cbn.
Qed.

Lemma queued_run (id c : nat) (xs : list nat) (ops : list CommandOp) (s : CommandState) :
  lock_ok s → stuck id s → queued c xs s → queued c xs (command_run ops s).
Proof.
  unfold command_run. revert s. induction ops as [|op ops IH]; intros s Hs Hst Hq; [done|].
  apply IH; [by apply command_step_ok|by apply stuck_step|by eapply queued_step].
Qed.

Lemma start_queues (id : nat) (command : string) (args : list string) (session : string) (run : BashRun) (w : bool) (s : CommandState) :
  cs_tasks s !! id = None → lock_mode command args = Some w →
  el_queue (cs_lock (start_task id command args session run s)) = el_queue (cs_lock s) ++ [(id, w)].
Proof. intros Hid Hw. unfold start_task. by rewrite Hid, Hw. Qed.

(** C9: While such a command holds the executor, changing the directory waits for
    ever, and so does every command that uses the executor (cd, pwd,
    reload-remote, and bash with something to run) and is started after that:
    none of their clients gets anything.  Commands that do not use it
    (exit-daemon, bash with nothing to run, unknown ones) are not meant. *)
Theorem long_output_stops_the_service (cwd : string) (r : CommandRegistry) (i : FileIndex) (l : AgentLister) (before between after : list CommandOp)
    (id c x : nat) (t : Task) (out err : list string) (code : Z) (session1 session2 : string) (args1 args2 : list string)
    (run1 run2 : BashRun) (command : string) (w : bool) :
  let s := command_run before (command_start cwd r i l) in
  let s1 := command_run between (command_step (OpStart c "cd" args1 session1 run1) s) in
  let s2 := command_run after (command_step (OpStart x command args2 session2 run2) s1) in
  cs_tasks s !! id = Some t → t_phase t = Reading out err (Ok code) → 64 ≤ length (t_channel t) + length out + length err →
  cs_tasks s !! c = None → cs_tasks s1 !! x = None → lock_mode command args2 = Some w →
  ∀ y, y ∈ [c; x] → ∃ ty, cs_tasks s2 !! y = Some ty ∧ t_phase ty = Waiting ∧ t_received ty = [].
Proof.
  intros s s1 s2 Ht Hp Hlen Hc Hx Hw. pose proof (run_lock_ok before _ (start_lock_ok cwd r i l)) as Hok.
  assert (stuck id s) as Hst by (exists t; split; [done|by do 3 eexists]).
  assert (queued c [] (command_step (OpStart c "cd" args1 session1 run1) s)) as Hq0.
  { exists (el_queue (cs_lock s)), []. split; [by apply start_queues|]. intros y Hy. by apply not_elem_of_nil in Hy. }
  assert (lock_ok s1) as Hok1 by (by apply run_lock_ok, command_step_ok).
  assert (stuck id s1) as Hst1 by (apply stuck_run; [by apply command_step_ok|by apply stuck_step]).
  assert (queued c [] s1) as (pre & post & Hq1 & _) by (eapply queued_run; [by apply command_step_ok|by apply stuck_step|done]).
  assert (queued c [x] (command_step (OpStart x command args2 session2 run2) s1)) as Hq2.
  { exists pre, (post ++ [(x, w)]). cbn. rewrite (start_queues x command args2 session2 run2 w s1 Hx Hw), Hq1, <- app_assoc. split; [done|].
    intros y ->%list_elem_of_singleton. rewrite fmap_app. apply elem_of_app. right. by apply list_elem_of_singleton. }
  assert (lock_ok s2) as Hok2 by (by apply run_lock_ok, command_step_ok).
  assert (queued c [x] s2) as (pre2 & post2 & Hq3 & Hxs) by (eapply queued_run; [by apply command_step_ok|by apply (stuck_step id)|done]).
  assert (∀ y, y ∈ [c; x] → ∃ v, (y, v) ∈ el_queue (cs_lock s2)) as Hin.
  { intros y [->|Hy]%elem_of_cons; rewrite Hq3.
    - exists true. apply elem_of_app. right. apply list_elem_of_here.
    - apply list_elem_of_singleton in Hy as ->. specialize (Hxs x). rewrite list_elem_of_singleton in Hxs. specialize (Hxs eq_refl).
      apply list_elem_of_fmap in Hxs as ([y v] & -> & Hy). exists v. apply elem_of_app. right. by apply list_elem_of_further. }
  intros y [v Hv]%Hin. destruct (lo_waiting s2 Hok2 y v Hv) as (ty & Hty & Hph & _). exists ty. split_and!; [done..|].
  by destruct (lo_waits s2 Hok2 y ty Hty Hph) as [[_ ?] _].
Qed.

End Lock.


(** * Output that arrives *)

Definition stdout_lines : list Output → list string := omap (λ o, match o with StdoutLine s => Some s | _ => None end).
Definition stderr_lines : list Output → list string := omap (λ o, match o with StderrLine s => Some s | _ => None end).

(** The client stays. *)
Definition stays (op : CommandOp) : Prop := match op with OpGone _ => False | _ => True end.

(** The steps of one task; those that must wait do nothing. *)
Definition task_run (ops : list CommandOp) (t : Task) : Task :=
  foldl (λ t op, match task_step op t with Some (t', _) => t' | None => t end) t ops.

(** What the task has yet to do. *)
Definition remaining (t : Task) : nat :=
  2 * length (t_channel t) + length (t_stream t) +
  match t_phase t with
  | Waiting => 9
  | Reading out err _ => 8 + 3 * (length out + length err)
  | Forwarding _ => 5
  | Sending rest _ => 1 + 2 * length rest
  | Finished => 0
  end.

Definition printed (t : Task) : list Output := t_received t ++ t_stream t ++ t_channel t.

Definition complete_output (out err : list string) (code : Z) (os : list Output) : Prop :=
  stdout_lines os = out ∧ stderr_lines os = err ∧ ∃ before, os = before ++ [ExitCode code].

Definition delivering (out err : list string) (code : Z) (t : Task) : Prop :=
  t_gone t = false ∧
  match t_phase t with
  | Reading o e x => x = Ok code ∧ stdout_lines (printed t) ++ o = out ∧ stderr_lines (printed t) ++ e = err ∧
      length (t_channel t) + length o + length e < CHANNEL ∧ untouched t
  | Forwarding f => f = None ∧ complete_output out err code (printed t)
  | Sending rest sd => rest = [] ∧ sd = false ∧ t_channel t = [] ∧ complete_output out err code (printed t)
  | Finished => t_channel t = [] ∧ complete_output out err code (printed t)
  | Waiting => False
  end.

Lemma lines_app (l1 l2 : list Output) :
  stdout_lines (l1 ++ l2) = stdout_lines l1 ++ stdout_lines l2 ∧ stderr_lines (l1 ++ l2) = stderr_lines l1 ++ stderr_lines l2.
Proof. unfold stdout_lines, stderr_lines. by rewrite !omap_app. Qed.

Lemma delivering_step (out err : list string) (code : Z) (op : CommandOp) (t t' : Task) (releases : bool) :
  stays op → delivering out err code t → task_step op t = Some (t', releases) → delivering out err code t' ∧ remaining t' < remaining t.
Proof.
  intros Hst [Hg Hd] H. unfold task_step in H. unfold delivering, remaining, printed, untouched in *. destruct (t_phase t) as [|o e x|f|rest sd|] eqn:Hp; [done|..].
  - destruct Hd as (-> & Ho & He & Hlen & Hs & Hr). rewrite Hs, Hr in *. cbn [app length] in *.
    destruct op; try done; repeat case_match; simplify_eq/=; rewrite ?Hs, ?Hr in *; try done; cbn [app];
      rewrite ?(proj1 (lines_app _ _)), ?(proj2 (lines_app _ _)), ?length_app; cbn [length stdout_lines stderr_lines omap list_omap]; (split; [|lia]).
    + split_and!; try done; rewrite ?app_nil_r; cbn; try lia; rewrite <- ?app_assoc; done.
    + split_and!; try done; rewrite ?app_nil_r; cbn; try lia; rewrite <- ?app_assoc; done.
    + split_and!; try done. unfold complete_output. rewrite (proj1 (lines_app _ _)), (proj2 (lines_app _ _)). cbn. rewrite !app_nil_r. split_and!; [done..|by eexists].
  - destruct Hd as (-> & Hc). destruct op; try done; repeat case_match; simplify_eq/=; rewrite ?app_nil_r in *; try congruence.
    + match goal with E : t_channel t = [] |- _ => rewrite !E, app_nil_r end. cbn. split; [|lia]. split_and!; try done.
    + rewrite length_app. cbn. split; [|lia]. split_and!; try done; [congruence|]. rewrite <- ?app_assoc; done.
    + rewrite ?Hp. split; [|lia]. split_and!; try done. rewrite <- ?app_assoc; done.
  - destruct Hd as (-> & -> & Hch & Hc). destruct op; try done; repeat case_match; simplify_eq/=; rewrite ?Hch, ?Hp in *; cbn in *.
    + split; [|lia]. by split_and!.
    + split; [|lia]. split_and!; try done. rewrite <- ?app_assoc; done.
  - destruct Hd as (Hch & Hc). destruct op; try done; repeat case_match; simplify_eq/=; rewrite ?Hch, ?Hp in *; cbn in *.
    split; [|lia]. split_and!; try done. rewrite <- ?app_assoc; done.
Qed.

Lemma delivering_run (out err : list string) (code : Z) (ops : list CommandOp) (t : Task) :
  Forall stays ops → delivering out err code t → delivering out err code (task_run ops t).
Proof.
  intros Hops. unfold task_run. revert t. induction Hops as [|op ops Hop _ IH]; intros t Ht; [done|]. cbn. apply IH.
  destruct (task_step op t) as [[t' rel]|] eqn:E; [|done]. by eapply delivering_step.
Qed.

Lemma delivering_enabled (out err : list string) (code : Z) (t : Task) :
  delivering out err code t → (t_phase t = Finished ∧ t_stream t = []) ∨ ∃ op, stays op ∧ is_Some (task_step op t).
Proof.
  intros [Hg Hd]. destruct (t_stream t) as [|o st] eqn:Es; [|right; exists (OpReceive 0); split; [done|]; unfold task_step; rewrite Es; by destruct (t_phase t)].
  destruct (t_phase t) as [|[|x o] [|y e] z|f|rest sd|] eqn:Hp; [done|..|by left].
  - destruct Hd as (-> & _ & _ & Hlen & _). right. exists (OpExit 0). split; [done|]. unfold task_step. rewrite Hp. cbn in Hlen. by rewrite decide_True by lia.
  - destruct Hd as (-> & _ & _ & Hlen & _). right. exists (OpStderr 0). split; [done|]. unfold task_step. rewrite Hp. cbn in Hlen. by rewrite decide_True by lia.
  - destruct Hd as (-> & _ & _ & Hlen & _). right. exists (OpStdout 0). split; [done|]. unfold task_step. rewrite Hp. cbn in Hlen. by rewrite decide_True by lia.
  - destruct Hd as (-> & _ & _ & Hlen & _). right. exists (OpStdout 0). split; [done|]. unfold task_step. rewrite Hp. cbn in Hlen. by rewrite decide_True by lia.
  - right. exists (OpForward 0). split; [done|]. unfold task_step. rewrite Hp, Hg, Es. destruct (t_channel t); [done|].
    rewrite decide_True; [done|]. unfold CHANNEL. cbn. lia.
  - destruct Hd as (-> & -> & _). right. exists (OpSend 0). split; [done|]. unfold task_step. by rewrite Hp.
Qed.

(** A shell command that prints fewer than 64 lines: whatever the order of
    its steps, one of them can be taken until it is finished and its output
    read, each brings it nearer to that, and then a client that stays has
    every line, in order, and the exit code last. *)
Theorem short_output_arrives (t : Task) (out err : list string) (code : Z) (ops : list CommandOp) :
  t_phase t = Reading out err (Ok code) → t_channel t = [] → untouched t → t_gone t = false → length out + length err < 64 → Forall stays ops →
  let t' := task_run ops t in
  ((t_phase t' = Finished ∧ t_stream t' = []) ∨ ∃ op, stays op ∧ is_Some (task_step op t')) ∧
  (∀ op t2 rel, stays op → task_step op t' = Some (t2, rel) → remaining t2 < remaining t') ∧
  (t_phase t' = Finished → t_stream t' = [] → complete_output out err code (t_received t')).
Proof.
  intros Hp Hch [Hs Hr] Hg Hlen Hops.
  assert (delivering out err code t) as Hd.
  { split; [done|]. unfold printed. rewrite Hp, Hs, Hr, Hch. cbn. split_and!; try done. }
  apply (delivering_run out err code ops) in Hd; [|done]. cbn zeta. split_and!.
  - by eapply delivering_enabled.
  - intros op t2 rel Hop Hstep. by eapply delivering_step.
  - intros Hf Hst. destruct Hd as [_ Hd]. rewrite Hf in Hd. destruct Hd as [Hc Hd]. unfold printed in Hd. by rewrite Hst, Hc, !app_nil_r in Hd.
Qed.

(** * At concrete inputs *)

#[local] Instance no_json : JsonText := {| json_parse _ := None; json_strings _ := "[]" |}.

Definition env0 : CommandEnv := mkCommandEnv (mkFileTree (λ _, None) (λ _, true) (λ _, false) (λ _, None)) Ok None.
Definition many_lines : list string := replicate 70 "line".

Definition long_ops : list CommandOp :=
  [OpStart 1 "bash" ["seq 70"] "s" (BashProc many_lines [] (Ok 0%Z)); OpGrant 1 env0].

Definition fresh_state : CommandState := command_start "/w" registry_new empty_index ∅.
Definition long_task : Task := mkTask "bash" ["seq 70"] "s" (BashProc many_lines [] (Ok 0%Z)) (Reading many_lines [] (Ok 0%Z)) [] [] [] false.

Lemma long_output_never_arrives_witness :
  ∃ t', cs_tasks (command_run (replicate 100 (OpStdout 1) ++ [OpExit 1; OpForward 1; OpReceive 1]) (command_run long_ops fresh_state)) !! 1 = Some t' ∧
    t_received t' = [].
Proof.
  destruct (long_output_never_arrives "/w" registry_new empty_index ∅ long_ops (replicate 100 (OpStdout 1) ++ [OpExit 1; OpForward 1; OpReceive 1])
    1 long_task many_lines [] 0%Z) as (t' & H1 & H2 & _); [vm_compute; reflexivity|reflexivity|vm_compute; lia|].
  exists t'. split; [exact H1|exact H2].
Defined.

Lemma long_output_stops_the_service_witness :
  ∃ ty, cs_tasks (command_run [OpGrant 2 env0; OpGrant 3 env0; OpSend 3; OpReceive 3]
    (command_step (OpStart 3 "pwd" [] "s" (BashSpawnError "")) (command_run [OpGrant 2 env0]
      (command_step (OpStart 2 "cd" ["/"] "s" (BashSpawnError "")) (command_run long_ops fresh_state))))) !! 3 = Some ty ∧
    t_phase ty = Waiting ∧ t_received ty = [].
Proof.
  apply (long_output_stops_the_service "/w" registry_new empty_index ∅ long_ops [OpGrant 2 env0] [OpGrant 2 env0; OpGrant 3 env0; OpSend 3; OpReceive 3]
    1 2 3 long_task many_lines [] 0%Z "s" "s" ["/"] [] (BashSpawnError "") (BashSpawnError "") "pwd" false);
    [vm_compute; reflexivity|reflexivity|vm_compute; lia|vm_compute; reflexivity..|].
  right. left.
Defined.

Definition short_task : Task := mkTask "bash" ["echo"] "s" (BashProc ["a"] ["b"] (Ok 3%Z)) (Reading ["a"] ["b"] (Ok 3%Z)) [] [] [] false.
Definition short_ops : list CommandOp :=
  [OpStderr 0; OpStdout 0; OpExit 0; OpForward 0; OpForward 0; OpForward 0; OpForward 0; OpSend 0; OpReceive 0; OpReceive 0; OpReceive 0].

Lemma short_output_arrives_witness : complete_output ["a"] ["b"] 3 (t_received (task_run short_ops short_task)).
Proof.
  destruct (short_output_arrives short_task ["a"] ["b"] 3 short_ops) as (_ & _ & H);
    [reflexivity|reflexivity|split; reflexivity|reflexivity|vm_compute; lia|repeat constructor|].
  apply H; vm_compute; reflexivity.
Defined.
