(* ===== verification/JsonFile.v ===== *)
(** Reading structs from JSON values as serde's derived code does, and integers
    from texts.

    A struct may be given as an object or, in the order of its fields, as an
    array.  Objects have no repeated keys. *)
From stdpp Require Import strings list countable.
From Stdlib Require Import ZArith Lia SpecFloat.
From S2P Require Import Prelude Json.

Definition uint (bits : Z) (v : Json) : option Z := z ← as_u64 v; if (z <? 2 ^ bits)%Z then Some z else None.

Lemma uint_int (bits z : Z) : (0 ≤ z < 2 ^ bits)%Z → uint bits (JInt z) = Some z.
Proof.
  intros Hz. unfold uint, as_u64. rewrite (proj2 (Z.leb_le 0 z)) by lia. cbn [mbind option_bind]. by rewrite (proj2 (Z.ltb_lt _ _)) by lia.
Qed.

(** Looks up literal keys. *)
Ltac eval_keys := cbn -[uint]; repeat first [rewrite decide_True by done | rewrite decide_False by done]; cbn -[uint].

(** A field of a struct that was given as an object or, in the order of the
    fields, as an array. *)
Definition struct_field (i : nat) (k : string) (v : Json) : option Json :=
  match v with JObj entries => assoc k entries | JArr l => l !! i | _ => None end.

Definition struct_shape (n : nat) (v : Json) : bool :=
  match v with JObj _ => true | JArr l => bool_decide (length l ≤ n) | _ => false end.

(** [Option]: absent and null are the same in an object; in an array the
    element must be there. *)
Definition optional {A : Type} (read : Json → option A) (v : Json) (f : option Json) : option (option A) :=
  match f with
  | Some JNull => Some None
  | Some w => Some <$> read w
  | None => match v with JArr _ => None | _ => Some None end
  end.

Definition required {A : Type} (read : Json → option A) (f : option Json) : option A := f ≫= read.

Definition string_list (v : Json) : option (list string) := as_array v ≫= mapM as_str.

(** [#[serde(default)]] *)
Definition defaulted {A : Type} (read : Json → option A) (d : A) (f : option Json) : option A :=
  match f with Some w => read w | None => Some d end.

(** A field of type [Option] with a default. *)
Definition nullable {A : Type} (read : Json → option A) (v : Json) : option (option A) :=
  match v with JNull => Some None | _ => Some <$> read v end.

(** * Integers *)

(** [str::parse] for an unsigned integer. *)
Fixpoint digits (acc : Z) (s : string) : option Z :=
  match s with
  | EmptyString => Some acc
  | String c s' =>
      let n := Z.of_nat (Ascii.nat_of_ascii c) in
      if ((48 <=? n) && (n <=? 57))%Z then digits (10 * acc + (n - 48)) s' else None
  end.

Definition parse_uint (bits : Z) (s : string) : option Z :=
  let t := match s with String c s' => if decide (c = Ascii.ascii_of_nat 43) then s' else s | EmptyString => s end in
  if decide (t = EmptyString) then None
  else z ← digits 0 t; if (z <? 2 ^ bits)%Z then Some z else None.

(** [str::parse] for an [i64]. *)
Definition parse_i64 (s : string) : option Z :=
  let '(t, neg) := match s with
    | String c s' => if decide (c = Ascii.ascii_of_nat 43) then (s', false) else if decide (c = Ascii.ascii_of_nat 45) then (s', true) else (s, false)
    | EmptyString => (s, false)
    end in
  if decide (t = EmptyString) then None
  else z ← digits 0 t;
    let z' := if neg then (- z)%Z else z in
    if ((- 2 ^ 63 <=? z') && (z' <? 2 ^ 63))%Z then Some z' else None.

Definition wrap_i64 (z : Z) : Z := ((z + 2 ^ 63) mod 2 ^ 64 - 2 ^ 63)%Z.

(** JSON files: a value that is written is the value that is read.

    [JsonPretty] is serde_json's printer with the law that the parser reads
    back what it printed; [coded_text] and [coded_pretty] are a printer and a
    parser that satisfy it. *)

(** Values that survive: the entries in the order of their keys, each key
    once, integers of 64 bits, no number with a fraction. *)
Fixpoint keys_sorted (l : list string) : bool :=
  match l with
  | k :: (k' :: _) as rest => String.ltb k k' && keys_sorted rest
  | _ => true
  end.

Fixpoint plain (v : Json) : bool :=
  match v with
  | JNull | JBool _ | JStr _ => true
  | JInt z => (- 2 ^ 63 <=? z)%Z && (z <? 2 ^ 64)%Z
  | JFloat _ => false
  | JArr l => forallb plain l
  | JObj entries => keys_sorted (map fst entries) && forallb (λ e, plain e.2) entries
  end.

Class JsonPretty {JT : JsonText} := {
  (** [serde_json::to_string_pretty] *)
  json_pretty : Json → string;
  parse_pretty : ∀ v, plain v = true → json_parse (json_pretty v) = Some v
}.

(** * A concrete printer

    A value is a tree with labels, and trees are countable. *)

#[export] Instance spec_float_eq_dec : EqDecision spec_float.
Proof. solve_decision. Defined.

#[export] Instance spec_float_countable : Countable spec_float.
Proof.
  refine (inj_countable'
    (λ f, match f with
          | S754_zero s => inl (inl s) | S754_infinity s => inl (inr s) | S754_nan => inr (inl tt)
          | S754_finite s m e => inr (inr (s, m, e)) end : (bool + bool) + (() + (bool * positive * Z)))
    (λ x, match x with
          | inl (inl s) => S754_zero s | inl (inr s) => S754_infinity s | inr (inl _) => S754_nan
          | inr (inr (s, m, e)) => S754_finite s m e end) _).
  by intros [].
Defined.

Inductive Label := LNull | LBool (b : bool) | LInt (z : Z) | LFloat (f : spec_float) | LStr (s : string) | LArr | LObj (keys : list string).

#[export] Instance Label_eq_dec : EqDecision Label.
Proof. solve_decision. Defined.

#[export] Instance Label_countable : Countable Label.
Proof.
  refine (inj_countable'
    (λ l, match l with
          | LNull => inl (inl tt) | LArr => inl (inr tt) | LBool b => inr (inl (inl b)) | LInt z => inr (inl (inr z))
          | LFloat f => inr (inr (inl f)) | LStr s => inr (inr (inr (inl s))) | LObj k => inr (inr (inr (inr k))) end
     : (() + ()) + ((bool + Z) + (spec_float + (string + list string))))
    (λ x, match x with
          | inl (inl _) => LNull | inl (inr _) => LArr | inr (inl (inl b)) => LBool b | inr (inl (inr z)) => LInt z
          | inr (inr (inl f)) => LFloat f | inr (inr (inr (inl s))) => LStr s | inr (inr (inr (inr k))) => LObj k end) _).
  by intros [].
Defined.

Fixpoint to_tree (v : Json) : gen_tree Label :=
  match v with
  | JNull => GenLeaf LNull
  | JBool b => GenLeaf (LBool b)
  | JInt z => GenLeaf (LInt z)
  | JFloat f => GenLeaf (LFloat f)
  | JStr s => GenLeaf (LStr s)
  | JArr l => GenNode 0 (GenLeaf LArr :: map to_tree l)
  | JObj entries => GenNode 0 (GenLeaf (LObj (map fst entries)) :: map (λ e, to_tree e.2) entries)
  end.

Fixpoint of_tree (t : gen_tree Label) : Json :=
  match t with
  | GenLeaf LNull => JNull
  | GenLeaf (LBool b) => JBool b
  | GenLeaf (LInt z) => JInt z
  | GenLeaf (LFloat f) => JFloat f
  | GenLeaf (LStr s) => JStr s
  | GenNode _ (GenLeaf (LObj keys) :: rest) => JObj (zip keys (map of_tree rest))
  | GenNode _ (_ :: rest) => JArr (map of_tree rest)
  | _ => JNull
  end.

(** Induction that goes through lists and entries. *)
Fixpoint json_rect' (P : Json → Prop) (H0 : P JNull) (H1 : ∀ b, P (JBool b)) (H2 : ∀ z, P (JInt z)) (H3 : ∀ f, P (JFloat f))
    (H4 : ∀ s, P (JStr s)) (H5 : ∀ l, Forall P l → P (JArr l)) (H6 : ∀ es, Forall (λ e, P e.2) es → P (JObj es)) (v : Json) : P v :=
  match v with
  | JNull => H0 | JBool b => H1 b | JInt z => H2 z | JFloat f => H3 f | JStr s => H4 s
  | JArr l => H5 l ((fix go (l : list Json) : Forall P l := match l with [] => Forall_nil_2 P | x :: l' => Forall_cons_2 P x l' (json_rect' P H0 H1 H2 H3 H4 H5 H6 x) (go l') end) l)
  | JObj es => H6 es ((fix go (es : list (string * Json)) : Forall (λ e, P e.2) es := match es with
                        | [] => Forall_nil_2 (λ e, P e.2)
                        | e :: es' => Forall_cons_2 (λ e, P e.2) e es' (json_rect' P H0 H1 H2 H3 H4 H5 H6 e.2) (go es') end) es)
  end.

Lemma of_to_tree (v : Json) : of_tree (to_tree v) = v.
Proof.
  induction v as [| | | | |l IH|es IH] using json_rect'; try done; cbn.
  - f_equal. induction IH; cbn; by f_equal.
  - f_equal. induction IH as [|[k v] es Hv _ IHes]; [done|]. cbn in *. by rewrite Hv, IHes.
Qed.

#[export] Instance Json_eq_dec : EqDecision Json.
Proof.
  refine (λ v w, cast_if (decide (to_tree v = to_tree w))); [|congruence].
  abstract (rewrite <- (of_to_tree v), <- (of_to_tree w); congruence).
Defined.

#[export] Instance Json_countable : Countable Json := inj_countable' to_tree of_tree of_to_tree.

Definition coded_text : JsonText := {| json_parse s := decode (of_bits s); json_strings l := join "," l |}.
Definition coded_pretty : JsonPretty (JT := coded_text).
Proof. refine {| json_pretty v := bits_of (encode v) |}. intros v _. cbn. by rewrite of_bits_of, decode_encode. Defined.
