(* ===== verification/Settings.v ===== *)
(** Settings: the layers of the configuration, and what the daemon reports.

    Models crates/betcode-core/src/config.rs and the daemon's services on its
    own state: config_svc.rs, version_svc.rs and health.rs, and health.rs of the
    relay.  Files are read as JSON values without repeated keys; environment
    variables and files are arguments.  The version library is the class [Semver]. *)
From stdpp Require Import gmap strings list pretty.
From Stdlib Require Import ZArith Lia.
From S2P Require Import Prelude Protocol Json JsonFile Worktrees.

(** * The configuration (config.rs) *)

Record DaemonConfig := mkDaemonConfig {
  dc_max_subprocesses : Z;
  dc_socket_path : option string;
  dc_port : Z;
  dc_database_path : option string;
  dc_log_level : string;
  dc_max_payload_bytes : Z
}.

Record SessionConfig := mkSessionConfig {
  sc_default_model : string;
  sc_auto_compact : bool;
  sc_auto_compact_threshold : Z;
  sc_max_messages_per_session : Z
}.

Record PermissionConfig := mkPermissionConfig {
  pc_connected_timeout_secs : Z;
  pc_disconnected_timeout_secs : Z;
  pc_enable_auto_approve : bool;
  pc_auto_approve_directories : list string;
  pc_activity_refresh_enabled : bool
}.

Record Config := mkConfig {
  cf_daemon : DaemonConfig;
  cf_sessions : SessionConfig;
  cf_permissions : PermissionConfig;
  cf_feature_flags : gmap string bool
}.

Definition default_daemon : DaemonConfig := mkDaemonConfig 5 None 50051 None "info" (10 * 1024 * 1024).
Definition default_sessions : SessionConfig := mkSessionConfig "claude-sonnet-4-20250514" true 180000 10000.
Definition default_permissions : PermissionConfig := mkPermissionConfig 60 (7 * 24 * 60 * 60) false [] true.
Definition default_config : Config := mkConfig default_daemon default_sessions default_permissions ∅.

(** ** Files *)

Definition read_daemon (v : Json) : option DaemonConfig :=
  if struct_shape 6 v then
    max ← required (uint 32) (struct_field 0 "max_subprocesses" v);
    socket ← optional as_str v (struct_field 1 "socket_path" v);
    port ← required (uint 16) (struct_field 2 "port" v);
    database ← optional as_str v (struct_field 3 "database_path" v);
    level ← required as_str (struct_field 4 "log_level" v);
    payload ← required (uint 64) (struct_field 5 "max_payload_bytes" v);
    Some (mkDaemonConfig max socket port database level payload)
  else None.

Definition read_sessions (v : Json) : option SessionConfig :=
  if struct_shape 4 v then
    model ← required as_str (struct_field 0 "default_model" v);
    auto ← required as_bool (struct_field 1 "auto_compact" v);
    threshold ← required (uint 32) (struct_field 2 "auto_compact_threshold" v);
    max ← required (uint 32) (struct_field 3 "max_messages_per_session" v);
    Some (mkSessionConfig model auto threshold max)
  else None.

Definition read_permissions (v : Json) : option PermissionConfig :=
  if struct_shape 5 v then
    connected ← required (uint 64) (struct_field 0 "connected_timeout_secs" v);
    disconnected ← required (uint 64) (struct_field 1 "disconnected_timeout_secs" v);
    approve ← required as_bool (struct_field 2 "enable_auto_approve" v);
    dirs ← required string_list (struct_field 3 "auto_approve_directories" v);
    refresh ← required as_bool (struct_field 4 "activity_refresh_enabled" v);
    Some (mkPermissionConfig connected disconnected approve dirs refresh)
  else None.

Definition read_flags (v : Json) : option (gmap string bool) :=
  es ← as_object v; list_to_map <$> mapM (λ kv, (λ b, (kv.1, b)) <$> as_bool kv.2) es.

Definition read_config (v : Json) : option Config :=
  if struct_shape 4 v then
    daemon ← defaulted read_daemon default_daemon (struct_field 0 "daemon" v);
    sessions ← defaulted read_sessions default_sessions (struct_field 1 "sessions" v);
    permissions ← defaulted read_permissions default_permissions (struct_field 2 "permissions" v);
    flags ← defaulted read_flags ∅ (struct_field 3 "feature_flags" v);
    Some (mkConfig daemon sessions permissions flags)
  else None.

(** What is at the path of a settings file. *)
Inductive SettingsFile :=
| NoFile
| Unreadable (e : string)
| Content (text : string).

Definition load_config_file {JT : JsonText} (path : string) (f : SettingsFile) : result string Config :=
  match f with
  | NoFile => Err ("Failed to read config file " +:+ path)
  | Unreadable e => Err ("Failed to read config file " +:+ path +:+ ": " +:+ e)
  | Content text =>
      match json_parse text ≫= read_config with
      | Some c => Ok c
      | None => Err ("Failed to parse config file " +:+ path)
      end
  end.

(** ** Layers *)

Definition merge_config (base overlay : Config) : Config :=
  let b := cf_daemon base in
  let o := cf_daemon overlay in
  mkConfig
    (mkDaemonConfig (dc_max_subprocesses o)
       (match dc_socket_path o with Some p => Some p | None => dc_socket_path b end) (dc_port o)
       (match dc_database_path o with Some p => Some p | None => dc_database_path b end) (dc_log_level o) (dc_max_payload_bytes o))
    (cf_sessions overlay) (cf_permissions overlay) (cf_feature_flags overlay ∪ cf_feature_flags base).

Definition apply_env_overrides (env : string → option string) (c : Config) : Config :=
  let d := cf_daemon c in
  let s := cf_sessions c in
  mkConfig
    (mkDaemonConfig (default (dc_max_subprocesses d) (env "BETCODE_MAX_SUBPROCESSES" ≫= parse_uint 32)) (dc_socket_path d)
       (default (dc_port d) (env "BETCODE_PORT" ≫= parse_uint 16)) (dc_database_path d)
       (default (dc_log_level d) (env "BETCODE_LOG_LEVEL")) (dc_max_payload_bytes d))
    (mkSessionConfig (default (sc_default_model s) (env "BETCODE_DEFAULT_MODEL")) (sc_auto_compact s) (sc_auto_compact_threshold s)
       (sc_max_messages_per_session s))
    (cf_permissions c) (cf_feature_flags c).

(** A layer that is not there changes nothing. *)
Definition load_layer {JT : JsonText} (path : option (string * SettingsFile)) (c : Config) : result string Config :=
  match path with
  | None | Some (_, NoFile) => Ok c
  | Some (p, f) => match load_config_file p f with Ok o => Ok (merge_config c o) | Err e => Err e end
  end.

(** The global file, when there is a place for it, and the project's, when
    there is a project. *)
Definition load_config {JT : JsonText} (global project : option (string * SettingsFile)) (env : string → option string) : result string Config :=
  match load_layer global default_config with
  | Err e => Err e
  | Ok c => match load_layer project c with Err e => Err e | Ok c' => Ok (apply_env_overrides env c') end
  end.

(** On Linux. *)
Definition betcode_user_path (env : string → option string) (filename : string) : option string :=
  (λ base, path_join (path_join base "betcode") filename) <$>
    match env "XDG_CONFIG_HOME" with Some x => Some x | None => (λ h, path_join h ".config") <$> env "HOME" end.

(** * The daemon's settings (config_svc.rs) *)

(** What is reported of a server that listens at a port or not. *)
Definition build_settings (max_processes : Z) (tcp_port : option Z) : Config :=
  mkConfig (mkDaemonConfig (wrap_u32 max_processes) (Some EmptyString) (default 0%Z tcp_port) (Some EmptyString) "info" 0)
    (mkSessionConfig "claude-sonnet-4-6" true 80 0) (mkPermissionConfig 300 60 false [] true) ∅.

Definition update_settings : result Status Config := Err (mkStatus Unimplemented "UpdateSettings not yet implemented").

(** * Versions (version_svc.rs) *)

Definition MIN_CLIENT_VERSION : string := "0.1.0".
Definition KNOWN_MODELS : list string :=
  ["claude-sonnet-4-6"; "claude-opus-4-6"; "claude-sonnet-4-5-20250929"; "claude-opus-4-5-20251101"; "claude-haiku-4-5-20251001"].

(** [semver]: reading a version, and its order. *)
Class Semver := {
  Version : Type;
  version_parse : string → option Version;
  version_le : Version → Version → bool
}.

Record CapabilitySet := mkCapabilities {
  cap_streaming : bool;
  cap_compression : bool;
  cap_max_message_size : Z;
  cap_models : list string;
  cap_subagents : bool;
  cap_worktrees : bool;
  cap_flags : gmap string bool
}.

Record NegotiateResponse := mkNegotiate {
  ng_accepted : bool;
  ng_rejection_reason : string;
  ng_granted : list string;
  ng_warnings : list string;
  ng_capabilities : CapabilitySet
}.

Definition version_satisfies_min {SV : Semver} (version min_version : string) : bool :=
  match version_parse version, version_parse min_version with
  | Some v, Some m => version_le m v
  | _, _ => false
  end.

Definition is_feature_supported (feature : string) : bool :=
  bool_decide (feature ∈ ["streaming"; "worktrees"; "plugins"; "session_grants"; "e2e_encryption"]).

Definition build_capability_set (flags : gmap string bool) : CapabilitySet :=
  mkCapabilities true false (10 * 1024 * 1024) KNOWN_MODELS (default false (flags !! "subagents")) true flags.

Definition negotiate_capabilities {SV : Semver} (flags : gmap string bool) (client_version : string) (requested : list string) : NegotiateResponse :=
  let granted := filter (λ f, is_feature_supported f = true) requested in
  let unsupported := (λ f, "Unsupported feature: " +:+ f) <$> filter (λ f, is_feature_supported f = false) requested in
  let '(accepted, reason, warning) :=
    if decide (client_version = EmptyString) then (true, EmptyString, ["Client version not specified; cannot verify compatibility"])
    else if version_satisfies_min client_version MIN_CLIENT_VERSION then (true, EmptyString, [])
    else (false, "Client version " +:+ client_version +:+ " is below minimum required version " +:+ MIN_CLIENT_VERSION, []) in
  mkNegotiate accepted reason granted (unsupported ++ warning) (build_capability_set flags).

(** The detected version of the agent is kept, also when there is none. *)
Definition claude_version (detected : option string) (cache : option (option string)) : option (option string) * option string :=
  match cache with
  | Some v => (cache, v)
  | None => (Some detected, detected)
  end.

(** What the version call of the agent gives: [None] when it fails. *)
Definition detected_version (stdout : option string) : option string :=
  match stdout with Some out => if decide (out = EmptyString) then None else Some out | None => None end.

(** * Health (health.rs) *)

Inductive ServingStatus := Serving | NotServing | ServiceUnknown.

#[export] Instance ServingStatus_eq_dec : EqDecision ServingStatus.
Proof. solve_decision. Defined.

Record ComponentHealth := mkComponentHealth {
  ch_name : string;
  ch_status : ServingStatus;
  ch_message : string
}.

Definition db_probe (ok : bool) : ServingStatus := if ok then Serving else NotServing.

Definition check_db_health (ok : bool) : ComponentHealth :=
  mkComponentHealth "database" (db_probe ok) (if ok then "SQLite database operational" else "Database query failed").

Definition check_subprocess_health (active capacity : nat) : ComponentHealth :=
  mkComponentHealth "subprocess_pool" Serving (pretty active +:+ "/" +:+ pretty capacity +:+ " subprocess slots in use").

Definition health_check (service : string) (ok : bool) : ServingStatus :=
  if decide (service = EmptyString ∨ service = "betcode.v1.AgentService") then db_probe ok else ServiceUnknown.

(** A watcher gets every probe, changed or not. *)
Definition health_watch (service : string) (probes : list bool) : list ServingStatus := health_check service <$> probes.

Record HealthDetails := mkHealthDetails {
  hd_overall : ServingStatus;
  hd_components : list ComponentHealth;
  hd_degraded : bool;
  hd_reason : string
}.

Definition get_health_details (ok : bool) (active capacity : nat) : HealthDetails :=
  let components := [check_db_health ok; check_subprocess_health active capacity] in
  let overall := if decide (Forall (λ c, ch_status c = Serving) components) then Serving else NotServing in
  let bad := filter (λ c, ch_status c ≠ Serving) components in
  let degraded := bool_decide (bad ≠ []) in
  mkHealthDetails overall components degraded
    (if degraded then join "; " ((λ c, ch_name c +:+ ": " +:+ ch_message c) <$> bad) else EmptyString).

(** The relay's own service (health.rs of its server): that it answers is the
    answer, and there is nothing to watch. *)
Definition relay_health_check : result Status ServingStatus := Ok Serving.
Definition relay_health_watch : result Status ServingStatus :=
  Err (mkStatus Unimplemented "Health.Watch is not supported on the relay").

(** * What the layers give *)

Lemma load_inv {JT : JsonText} (global project : option (string * SettingsFile)) (env : string → option string) (c : Config) :
  load_config global project env = Ok c →
  ∃ g p, load_layer global default_config = Ok g ∧ load_layer project g = Ok p ∧ c = apply_env_overrides env p.
Proof.
  unfold load_config. destruct (load_layer global default_config) as [g|e] eqn:Eg; [|done].
  destruct (load_layer project g) as [p|e] eqn:Ep; [|done]. intros [= <-]. by exists g, p.
Qed.

Lemma layer_content {JT : JsonText} (path text : string) (overlay c c' : Config) :
  json_parse text ≫= read_config = Some overlay → load_layer (Some (path, Content text)) c = Ok c' → c' = merge_config c overlay.
Proof. intros H. cbn. rewrite H. by intros [= <-]. Qed.

(** The environment wins over the files, the project's flags and paths over
    the global ones, and what neither file has is as built in. *)
Theorem settings_layers {JT : JsonText} (gp pp gt pt : string) (g p c : Config) (env : string → option string) :
  json_parse gt ≫= read_config = Some g → json_parse pt ≫= read_config = Some p →
  load_config (Some (gp, Content gt)) (Some (pp, Content pt)) env = Ok c →
  (∀ t n, env "BETCODE_PORT" = Some t → parse_uint 16 t = Some n → dc_port (cf_daemon c) = n) ∧
  (∀ t n, env "BETCODE_MAX_SUBPROCESSES" = Some t → parse_uint 32 t = Some n → dc_max_subprocesses (cf_daemon c) = n) ∧
  (∀ t, env "BETCODE_LOG_LEVEL" = Some t → dc_log_level (cf_daemon c) = t) ∧
  (∀ t, env "BETCODE_DEFAULT_MODEL" = Some t → sc_default_model (cf_sessions c) = t) ∧
  (∀ k, cf_feature_flags c !! k = match cf_feature_flags p !! k with Some b => Some b | None => cf_feature_flags g !! k end) ∧
  dc_socket_path (cf_daemon c) = match dc_socket_path (cf_daemon p) with Some s => Some s | None => dc_socket_path (cf_daemon g) end ∧
  dc_database_path (cf_daemon c) = match dc_database_path (cf_daemon p) with Some s => Some s | None => dc_database_path (cf_daemon g) end.
Proof.
  intros Hg Hp (g' & p' & Hl1 & Hl2 & ->)%load_inv. apply (layer_content _ _ g) in Hl1; [|done]. apply (layer_content _ _ p) in Hl2; [|done]. subst.
  split_and!; cbn.
  - intros t n -> Hn. cbn. by rewrite Hn.
  - intros t n -> Hn. cbn. by rewrite Hn.
  - by intros t ->.
  - by intros t ->.
  - intros k. rewrite !lookup_union, lookup_empty. by destruct (cf_feature_flags p !! k), (cf_feature_flags g !! k).
  - destruct (dc_socket_path (cf_daemon p)), (dc_socket_path (cf_daemon g)); done.
  - destruct (dc_database_path (cf_daemon p)), (dc_database_path (cf_daemon g)); done.
Qed.

(** A project file that does not speak of sessions or permissions puts back
    the built-in ones, whatever the global file says. *)
Theorem absent_section_resets {JT : JsonText} (gp pp gt pt : string) (entries : list (string * Json)) (c : Config) (env : string → option string) :
  json_parse pt = Some (JObj entries) → assoc "sessions" entries = None → assoc "permissions" entries = None → env "BETCODE_DEFAULT_MODEL" = None →
  load_config (Some (gp, Content gt)) (Some (pp, Content pt)) env = Ok c →
  cf_sessions c = default_sessions ∧ cf_permissions c = default_permissions.
Proof.
  intros Hparse Hs Hp Henv (g & p & _ & Hl & ->)%load_inv.
  destruct (json_parse pt ≫= read_config) as [o|] eqn:Eo; [|by rewrite Hparse in Eo; cbn [load_layer load_config_file] in Hl; rewrite Hparse, Eo in Hl].
  pose proof (layer_content _ _ _ _ _ Eo Hl) as ->. rewrite Hparse in Eo. cbn [mbind option_bind] in Eo.
  unfold read_config in Eo. cbn [struct_shape struct_field] in Eo. rewrite Hs, Hp in Eo. cbn [defaulted] in Eo.
  destruct (defaulted read_daemon _ _) as [dd|]; [|done]. cbn in Eo. destruct (defaulted read_flags _ _) as [ff|]; [|done]. cbn in Eo. simplify_eq.
  cbn. rewrite Henv. done.
Qed.

(** A client is accepted exactly when it does not say its version or has at
    least the required one; of the features it asks for it is granted the
    supported ones, in its order. *)
Lemma negotiation {SV : Semver} (flags : gmap string bool) (version : string) (requested : list string) :
  let r := negotiate_capabilities flags version requested in
  (ng_accepted r = true ↔ version = EmptyString ∨ version_satisfies_min version MIN_CLIENT_VERSION = true) ∧
  ng_granted r = filter (λ f, is_feature_supported f = true) requested.
Proof.
  unfold negotiate_capabilities. case_decide; cbn; [tauto|]. destruct (version_satisfies_min version MIN_CLIENT_VERSION); cbn; [tauto|].
  split; [|done]. split; [done|]. intros [?|?]; done.
Qed.

(** * At concrete inputs *)

Definition toy_files (text : string) : option Json :=
  if decide (text = "global") then
    Some (JObj [("sessions", JObj [("default_model", JStr "mine"); ("auto_compact", JBool false); ("auto_compact_threshold", JInt 1); ("max_messages_per_session", JInt 2)]);
                ("feature_flags", JObj [("a", JBool true); ("b", JBool false)])])
  else if decide (text = "project") then Some (JObj [("feature_flags", JObj [("b", JBool true)])])
  else None.

#[local] Instance toy_json : JsonText := {| json_parse := toy_files; json_strings _ := "[]" |}.

Definition port_env (k : string) : option string := if decide (k = "BETCODE_PORT") then Some "+8080" else None.

Lemma settings_layers_witness :
  ∃ c, load_config (Some ("g", Content "global")) (Some ("p", Content "project")) port_env = Ok c ∧
    dc_port (cf_daemon c) = 8080%Z ∧ cf_feature_flags c !! "b" = Some true ∧ cf_feature_flags c !! "a" = Some true.
Proof.
  destruct (json_parse "global" ≫= read_config) as [g|] eqn:Eg; [|vm_compute in Eg; discriminate Eg].
  destruct (json_parse "project" ≫= read_config) as [p|] eqn:Ep; [|vm_compute in Ep; discriminate Ep].
  destruct (load_config (Some ("g", Content "global")) (Some ("p", Content "project")) port_env) as [c|e] eqn:Ec; [|vm_compute in Ec; discriminate Ec].
  destruct (settings_layers "g" "p" "global" "project" g p c port_env Eg Ep Ec) as (H1 & _ & _ & _ & H5 & _).
  exists c. split; [reflexivity|]. split; [apply (H1 "+8080"); reflexivity|].
  rewrite !H5. vm_compute in Eg, Ep. injection Eg as <-. injection Ep as <-. split; reflexivity.
Defined.

Lemma absent_section_resets_witness :
  ∃ c, load_config (Some ("g", Content "global")) (Some ("p", Content "project")) port_env = Ok c ∧ cf_sessions c = default_sessions.
Proof.
  destruct (load_config (Some ("g", Content "global")) (Some ("p", Content "project")) port_env) as [c|e] eqn:Ec; [|vm_compute in Ec; discriminate Ec].
  destruct (absent_section_resets "g" "p" "global" "project" [("feature_flags", JObj [("b", JBool true)])] c port_env) as [H _];
    [reflexivity|reflexivity|reflexivity|reflexivity|exact Ec|].
  exists c. split; [reflexivity|exact H].
Defined.
