(* ===== verification/GitLab.v ===== *)
(** GitLab: requests to its REST interface, and their answers as messages of
    the protocol.

    Models crates/betcode-daemon/src/gitlab/ (types.rs, client.rs) and
    server/ gitlab_convert.rs and gitlab_svc.rs.  Sending a request is the
    class [GitLabApi], the numbers of the enumerations are [GitLabCodes]. *)
From stdpp Require Import strings list pretty.
From Stdlib Require Import ZArith Lia.
From S2P Require Import Prelude Protocol Json JsonFile Utf8.

(** * What GitLab answers (types.rs) *)

Record GlMergeRequest := mkGlMergeRequest {
  gm_id : Z;
  gm_iid : Z;
  gm_title : string;
  gm_description : option string;
  gm_state : string;
  gm_source_branch : string;
  gm_target_branch : string;
  gm_author : string;
  gm_labels : list string;
  gm_created_at : string;
  gm_updated_at : string;
  gm_web_url : string;
  gm_draft : bool;
  gm_merge_status : option string;
  gm_assignee : option string;
  gm_assignees : list string;
  gm_reviewers : list string;
  gm_milestone : option string
}.

Record GlPipeline := mkGlPipeline {
  gp_id : Z;
  gp_status : string;
  gp_ref_name : string;
  gp_sha : string;
  gp_source : option string;
  gp_created_at : string;
  gp_updated_at : string;
  gp_web_url : string
}.

Record GlIssue := mkGlIssue {
  gi_id : Z;
  gi_iid : Z;
  gi_title : string;
  gi_description : option string;
  gi_state : string;
  gi_author : string;
  gi_labels : list string;
  gi_created_at : string;
  gi_updated_at : string;
  gi_web_url : string;
  gi_confidential : bool;
  gi_assignee : option string;
  gi_assignees : list string;
  gi_milestone : option string
}.

(** A user is kept as its name, a milestone as its title. *)
Definition read_user (v : Json) : option string := if struct_shape 1 v then required as_str (struct_field 0 "username" v) else None.
Definition read_milestone (v : Json) : option string := if struct_shape 1 v then required as_str (struct_field 0 "title" v) else None.
Definition read_users (v : Json) : option (list string) := as_array v ≫= mapM read_user.

Definition read_merge_request (v : Json) : option GlMergeRequest :=
  if struct_shape 18 v then
    id ← required (uint 64) (struct_field 0 "id" v);
    iid ← required (uint 64) (struct_field 1 "iid" v);
    title ← required as_str (struct_field 2 "title" v);
    description ← defaulted (nullable as_str) None (struct_field 3 "description" v);
    state ← required as_str (struct_field 4 "state" v);
    source ← required as_str (struct_field 5 "source_branch" v);
    target ← required as_str (struct_field 6 "target_branch" v);
    author ← required read_user (struct_field 7 "author" v);
    labels ← defaulted string_list [] (struct_field 8 "labels" v);
    created ← required as_str (struct_field 9 "created_at" v);
    updated ← required as_str (struct_field 10 "updated_at" v);
    url ← required as_str (struct_field 11 "web_url" v);
    draft ← defaulted as_bool false (struct_field 12 "draft" v);
    merge ← defaulted (nullable as_str) None (struct_field 13 "merge_status" v);
    assignee ← defaulted (nullable read_user) None (struct_field 14 "assignee" v);
    assignees ← defaulted read_users [] (struct_field 15 "assignees" v);
    reviewers ← defaulted read_users [] (struct_field 16 "reviewers" v);
    milestone ← defaulted (nullable read_milestone) None (struct_field 17 "milestone" v);
    Some (mkGlMergeRequest id iid title description state source target author labels created updated url draft merge assignee
            assignees reviewers milestone)
  else None.

Definition read_pipeline (v : Json) : option GlPipeline :=
  if struct_shape 8 v then
    id ← required (uint 64) (struct_field 0 "id" v);
    status ← required as_str (struct_field 1 "status" v);
    ref_name ← required as_str (struct_field 2 "ref" v);
    sha ← required as_str (struct_field 3 "sha" v);
    source ← defaulted (nullable as_str) None (struct_field 4 "source" v);
    created ← required as_str (struct_field 5 "created_at" v);
    updated ← required as_str (struct_field 6 "updated_at" v);
    url ← required as_str (struct_field 7 "web_url" v);
    Some (mkGlPipeline id status ref_name sha source created updated url)
  else None.

Definition read_issue (v : Json) : option GlIssue :=
  if struct_shape 14 v then
    id ← required (uint 64) (struct_field 0 "id" v);
    iid ← required (uint 64) (struct_field 1 "iid" v);
    title ← required as_str (struct_field 2 "title" v);
    description ← defaulted (nullable as_str) None (struct_field 3 "description" v);
    state ← required as_str (struct_field 4 "state" v);
    author ← required read_user (struct_field 5 "author" v);
    labels ← defaulted string_list [] (struct_field 6 "labels" v);
    created ← required as_str (struct_field 7 "created_at" v);
    updated ← required as_str (struct_field 8 "updated_at" v);
    url ← required as_str (struct_field 9 "web_url" v);
    confidential ← defaulted as_bool false (struct_field 10 "confidential" v);
    assignee ← defaulted (nullable read_user) None (struct_field 11 "assignee" v);
    assignees ← defaulted read_users [] (struct_field 12 "assignees" v);
    milestone ← defaulted (nullable read_milestone) None (struct_field 13 "milestone" v);
    Some (mkGlIssue id iid title description state author labels created updated url confidential assignee assignees milestone)
  else None.

(** * Timestamps (gitlab_convert.rs) *)

Definition is_leap (y : Z) : bool := ((Z.rem y 4 =? 0) && negb (Z.rem y 100 =? 0) || (Z.rem y 400 =? 0))%Z.

Definition month_days (year : Z) : list Z := [31; if is_leap year then 29 else 28; 31; 30; 31; 30; 31; 31; 30; 31; 30; 31]%Z.

(** The bound of the second loop is [(month - 1) as usize]. *)
Definition days_since_epoch (year month day : Z) : Z :=
  let years := foldl (λ d y, wrap_i64 (d + if is_leap y then 366 else 365)) 0%Z (seqZ 1970 (year - 1970)) in
  let months := foldl (λ d m, wrap_i64 (d + default 30%Z (month_days year !! Z.to_nat m))) years (seqZ 0 (wrap_u64 (month - 1))) in
  wrap_i64 (months + wrap_i64 (day - 1)).

Definition first_part (c : Ascii.ascii) (s : string) : string := default EmptyString (head (split_on c s)).

(** [trim_end_matches] of a character *)
Fixpoint trim_end_matches (c : Ascii.ascii) (s : string) : string :=
  match s with
  | EmptyString => EmptyString
  | String a s' =>
      let t := trim_end_matches c s' in
      if decide (t = EmptyString ∧ a = c) then EmptyString else String a t
  end.

(** What is before and after the first of a character. *)
Fixpoint split_at_char (c : Ascii.ascii) (s : string) : option (string * string) :=
  match s with
  | EmptyString => None
  | String a s' => if decide (a = c) then Some (EmptyString, s') else (λ p, (String a p.1, p.2)) <$> split_at_char c s'
  end.

Definition three_numbers (c : Ascii.ascii) (s : string) : option (Z * Z * Z) :=
  match split_on c s with
  | x :: y :: z :: _ => a ← parse_i64 x; b ← parse_i64 y; d ← parse_i64 z; Some (a, b, d)
  | _ => None
  end.

Definition time_text (time_rest : string) : string :=
  first_part (byte 46) (first_part (byte 45) (first_part (byte 43) (trim_end_matches (byte 90) time_rest))).

Definition parse_rfc3339_seconds (s : string) : option Z :=
  '(date_part, time_rest) ← split_at_char (byte 84) (trim s);
  '(year, month, day) ← three_numbers (byte 45) date_part;
  '(hour, minute, sec) ← three_numbers (byte 58) (time_text time_rest);
  Some (wrap_i64 (wrap_i64 (wrap_i64 (days_since_epoch year month day * 86400 + hour * 3600) + minute * 60) + sec)).

(** * Enumerations *)

Inductive MergeRequestState := MrUnspecified | MrOpened | MrClosed | MrMerged | MrLocked.
Inductive PipelineStatus :=
| PlUnspecified | PlCreated | PlWaitingForResource | PlPreparing | PlPending | PlRunning | PlSuccess | PlFailed | PlCanceled
| PlSkipped | PlManual | PlScheduled.
Inductive IssueState := IsUnspecified | IsOpened | IsClosed.
Inductive MergeStatus := MsUnspecified | MsCanBeMerged | MsCannotBeMerged | MsChecking | MsUnchecked.

Class GitLabCodes := {
  mr_i32 : MergeRequestState → Z;
  mr_try_from : Z → option MergeRequestState;
  mr_codes s : mr_try_from (mr_i32 s) = Some s;
  pl_i32 : PipelineStatus → Z;
  pl_try_from : Z → option PipelineStatus;
  pl_codes s : pl_try_from (pl_i32 s) = Some s;
  is_i32 : IssueState → Z;
  is_try_from : Z → option IssueState;
  is_codes s : is_try_from (is_i32 s) = Some s;
  ms_i32 : MergeStatus → Z;
  ms_try_from : Z → option MergeStatus;
  ms_codes s : ms_try_from (ms_i32 s) = Some s
}.

Definition mr_state_to_str (s : MergeRequestState) : option string :=
  match s with
  | MrUnspecified => None | MrOpened => Some "opened" | MrClosed => Some "closed" | MrMerged => Some "merged" | MrLocked => Some "locked"
  end.

Definition pipeline_status_to_str (s : PipelineStatus) : option string :=
  match s with
  | PlUnspecified => None | PlCreated => Some "created" | PlWaitingForResource => Some "waiting_for_resource"
  | PlPreparing => Some "preparing" | PlPending => Some "pending" | PlRunning => Some "running" | PlSuccess => Some "success"
  | PlFailed => Some "failed" | PlCanceled => Some "canceled" | PlSkipped => Some "skipped" | PlManual => Some "manual"
  | PlScheduled => Some "scheduled"
  end.

Definition issue_state_to_str (s : IssueState) : option string :=
  match s with IsUnspecified => None | IsOpened => Some "opened" | IsClosed => Some "closed" end.

Section Convert.
Context {GC : GitLabCodes}.

Definition str_to_mr_state (s : string) : Z :=
  mr_i32 (if decide (s = "opened") then MrOpened else if decide (s = "closed") then MrClosed
          else if decide (s = "merged") then MrMerged else if decide (s = "locked") then MrLocked else MrUnspecified).

Definition str_to_pipeline_status (s : string) : Z :=
  pl_i32 (if decide (s = "created") then PlCreated else if decide (s = "waiting_for_resource") then PlWaitingForResource
          else if decide (s = "preparing") then PlPreparing else if decide (s = "pending") then PlPending
          else if decide (s = "running") then PlRunning else if decide (s = "success") then PlSuccess
          else if decide (s = "failed") then PlFailed else if decide (s = "canceled") then PlCanceled
          else if decide (s = "skipped") then PlSkipped else if decide (s = "manual") then PlManual
          else if decide (s = "scheduled") then PlScheduled else PlUnspecified).

Definition str_to_merge_status (s : string) : Z :=
  ms_i32 (if decide (s = "can_be_merged") then MsCanBeMerged else if decide (s = "cannot_be_merged") then MsCannotBeMerged
          else if decide (s = "checking") then MsChecking else if decide (s = "unchecked") then MsUnchecked else MsUnspecified).

Definition str_to_issue_state (s : string) : Z :=
  is_i32 (if decide (s = "opened") then IsOpened else if decide (s = "closed") then IsClosed else IsUnspecified).

(** * Messages *)

Record MergeRequestInfo := mkMrInfo {
  mi_id : Z;
  mi_iid : Z;
  mi_title : string;
  mi_description : string;
  mi_state : Z;
  mi_source_branch : string;
  mi_target_branch : string;
  mi_author : string;
  mi_labels : list string;
  mi_created_at : option Z;
  mi_updated_at : option Z;
  mi_web_url : string;
  mi_draft : bool;
  mi_merge_status : Z;
  mi_assignee : string;
  mi_assignees : list string;
  mi_reviewers : list string;
  mi_milestone : string
}.

Record PipelineInfo := mkPipelineInfo {
  pi_id : Z;
  pi_status : Z;
  pi_ref_name : string;
  pi_sha : string;
  pi_source : string;
  pi_created_at : option Z;
  pi_updated_at : option Z;
  pi_web_url : string
}.

Record IssueInfo := mkIssueInfo {
  ii_id : Z;
  ii_iid : Z;
  ii_title : string;
  ii_description : string;
  ii_state : Z;
  ii_author : string;
  ii_labels : list string;
  ii_created_at : option Z;
  ii_updated_at : option Z;
  ii_web_url : string;
  ii_confidential : bool;
  ii_assignee : string;
  ii_assignees : list string;
  ii_milestone : string
}.

Definition to_mr_info (m : GlMergeRequest) : MergeRequestInfo :=
  mkMrInfo (gm_id m) (gm_iid m) (gm_title m) (default EmptyString (gm_description m)) (str_to_mr_state (gm_state m))
    (gm_source_branch m) (gm_target_branch m) (gm_author m) (gm_labels m) (parse_rfc3339_seconds (gm_created_at m))
    (parse_rfc3339_seconds (gm_updated_at m)) (gm_web_url m) (gm_draft m)
    (match gm_merge_status m with Some s => str_to_merge_status s | None => 0%Z end) (default EmptyString (gm_assignee m)) (gm_assignees m)
    (gm_reviewers m) (default EmptyString (gm_milestone m)).

Definition to_pipeline_info (p : GlPipeline) : PipelineInfo :=
  mkPipelineInfo (gp_id p) (str_to_pipeline_status (gp_status p)) (gp_ref_name p) (gp_sha p) (default EmptyString (gp_source p))
    (parse_rfc3339_seconds (gp_created_at p)) (parse_rfc3339_seconds (gp_updated_at p)) (gp_web_url p).

Definition to_issue_info (i : GlIssue) : IssueInfo :=
  mkIssueInfo (gi_id i) (gi_iid i) (gi_title i) (default EmptyString (gi_description i)) (str_to_issue_state (gi_state i)) (gi_author i)
    (gi_labels i) (parse_rfc3339_seconds (gi_created_at i)) (parse_rfc3339_seconds (gi_updated_at i)) (gi_web_url i) (gi_confidential i)
    (default EmptyString (gi_assignee i)) (gi_assignees i) (default EmptyString (gi_milestone i)).

End Convert.

(** * The client (client.rs) *)

Inductive HttpFailure := RequestFailed (e : string) | DecodeFailed (e : string).

Inductive HttpAnswer :=
| NoAnswer (e : string)
| Answered (status : Z) (body : result string Json).

Inductive GitLabError :=
| GlHttp (f : HttpFailure)
| GlApi (status : Z) (m : string)
| GlConfig (m : string).

Class GitLabApi := {
  http_get : string → HttpAnswer;              (** with the token of the client *)
  http_failure_text : HttpFailure → string;
  canonical_reason : Z → option string;
  header_value_ok : string → bool;
  decode_failure : Json → string
}.

Definition gitlab_error_text {GA : GitLabApi} (e : GitLabError) : string :=
  match e with
  | GlHttp f => "HTTP request failed: " +:+ http_failure_text f
  | GlApi status m => "GitLab API error (" +:+ pretty status +:+ "): " +:+ m
  | GlConfig m => "Configuration error: " +:+ m
  end.

Definition to_status {GA : GitLabApi} (e : GitLabError) : Status :=
  match e with
  | GlApi status _ =>
      mkStatus (if decide (status = 401)%Z then Unauthenticated else if decide (status = 403)%Z then PermissionDenied
                else if decide (status = 404)%Z then CodeNotFound else Internal) (gitlab_error_text e)
  | GlConfig _ => mkStatus FailedPrecondition (gitlab_error_text e)
  | GlHttp _ => mkStatus Unavailable (gitlab_error_text e)
  end.

Definition slash : Ascii.ascii := byte 47.

(** The client keeps its address; [build] is what building the HTTP client
    answers. *)
Definition gitlab_client_new {GA : GitLabApi} (base_url token : string) (build : result HttpFailure unit) : result GitLabError string :=
  if decide (base_url = EmptyString) then Err (GlConfig "base_url is empty")
  else if decide (token = EmptyString) then Err (GlConfig "token is empty")
  else if negb (header_value_ok ("Bearer " +:+ token)) then Err (GlConfig "Invalid token format")
  else match build with Err f => Err (GlHttp f) | Ok _ => Ok (trim_end_matches slash base_url) end.

Definition api_url (base path : string) : string := base +:+ "/api/v4" +:+ path.

Fixpoint encode_project (project : string) : string :=
  match project with
  | EmptyString => EmptyString
  | String c s => (if decide (c = slash) then "%2F" else String c EmptyString) +:+ encode_project s
  end.

Definition check_status {GA : GitLabApi} (status : Z) : result GitLabError unit :=
  if ((200 <=? status) && (status <? 300))%Z then Ok tt else Err (GlApi status (default "Unknown" (canonical_reason status))).

(** A request, whose answer is read as [read] says. *)
Definition get_json {GA : GitLabApi} {A : Type} (read : Json → option A) (url : string) : result GitLabError A :=
  match http_get url with
  | NoAnswer e => Err (GlHttp (RequestFailed e))
  | Answered status body =>
      match check_status status with
      | Err e => Err e
      | Ok _ =>
          match body with
          | Err e => Err (GlHttp (DecodeFailed e))
          | Ok v => match read v with Some x => Ok x | None => Err (GlHttp (DecodeFailed (decode_failure v))) end
          end
      end
  end.

Definition list_url (base project resource filter_key : string) (filter_value : option string) (per_page page : Z) : string :=
  let url := api_url base ("/projects/" +:+ encode_project project +:+ "/" +:+ resource) +:+
    "?per_page=" +:+ pretty per_page +:+ "&page=" +:+ pretty page in
  match filter_value with Some v => url +:+ "&" +:+ filter_key +:+ "=" +:+ v | None => url end.

Definition list_paginated {GA : GitLabApi} {A : Type} (read : Json → option A) (base project resource filter_key : string)
    (filter_value : option string) (per_page page : Z) : result GitLabError (list A) :=
  get_json (λ v, as_array v ≫= mapM read) (list_url base project resource filter_key filter_value per_page page).

Definition get_one {GA : GitLabApi} {A : Type} (read : Json → option A) (base project resource_path : string) : result GitLabError A :=
  get_json read (api_url base ("/projects/" +:+ encode_project project +:+ "/" +:+ resource_path)).

Definition client_list_merge_requests {GA : GitLabApi} (base project : string) (state : option string) (per_page page : Z)
  : result GitLabError (list GlMergeRequest) :=
  list_paginated read_merge_request base project "merge_requests" "state" state per_page page.
Definition client_get_merge_request {GA : GitLabApi} (base project : string) (iid : Z) : result GitLabError GlMergeRequest :=
  get_one read_merge_request base project ("merge_requests/" +:+ pretty iid).
Definition client_list_pipelines {GA : GitLabApi} (base project : string) (status : option string) (per_page page : Z)
  : result GitLabError (list GlPipeline) :=
  list_paginated read_pipeline base project "pipelines" "status" status per_page page.
Definition client_get_pipeline {GA : GitLabApi} (base project : string) (pipeline_id : Z) : result GitLabError GlPipeline :=
  get_one read_pipeline base project ("pipelines/" +:+ pretty pipeline_id).
Definition client_list_issues {GA : GitLabApi} (base project : string) (state : option string) (per_page page : Z)
  : result GitLabError (list GlIssue) :=
  list_paginated read_issue base project "issues" "state" state per_page page.
Definition client_get_issue {GA : GitLabApi} (base project : string) (iid : Z) : result GitLabError GlIssue :=
  get_one read_issue base project ("issues/" +:+ pretty iid).

(** * The service (gitlab_svc.rs) *)

Definition paginate (limit offset : Z) : Z * Z :=
  let per_page := if decide (limit = 0)%Z then 20%Z else limit in
  (per_page, if decide (offset = 0)%Z then 1%Z else wrap_u32 (offset `quot` per_page + 1)).

Section Service.
Context {GC : GitLabCodes} {GA : GitLabApi}.

(** A page of converted rows, with their number. *)
Definition page_response {A B : Type} (convert : A → B) (r : result GitLabError (list A)) : result Status (list B * Z) :=
  match r with
  | Err e => Err (to_status e)
  | Ok l => Ok (convert <$> l, wrap_u32 (Z.of_nat (length (convert <$> l))))
  end.

Definition one_response {A B : Type} (convert : A → B) (r : result GitLabError A) : result Status B :=
  match r with Err e => Err (to_status e) | Ok x => Ok (convert x) end.

Definition svc_list_merge_requests (base project : string) (state_filter limit offset : Z) : result Status (list MergeRequestInfo * Z) :=
  let state := mr_state_to_str (default MrUnspecified (mr_try_from state_filter)) in
  let '(per_page, page) := paginate limit offset in
  page_response to_mr_info (client_list_merge_requests base project state per_page page).

Definition svc_get_merge_request (base project : string) (iid : Z) : result Status MergeRequestInfo :=
  one_response to_mr_info (client_get_merge_request base project iid).

Definition svc_list_pipelines (base project : string) (status_filter limit offset : Z) : result Status (list PipelineInfo * Z) :=
  let status := pipeline_status_to_str (default PlUnspecified (pl_try_from status_filter)) in
  let '(per_page, page) := paginate limit offset in
  page_response to_pipeline_info (client_list_pipelines base project status per_page page).

Definition svc_get_pipeline (base project : string) (pipeline_id : Z) : result Status PipelineInfo :=
  one_response to_pipeline_info (client_get_pipeline base project pipeline_id).

Definition svc_list_issues (base project : string) (state_filter limit offset : Z) : result Status (list IssueInfo * Z) :=
  let state := issue_state_to_str (default IsUnspecified (is_try_from state_filter)) in
  let '(per_page, page) := paginate limit offset in
  page_response to_issue_info (client_list_issues base project state per_page page).

Definition svc_get_issue (base project : string) (iid : Z) : result Status IssueInfo :=
  one_response to_issue_info (client_get_issue base project iid).

End Service.
