(* ===== verification/GitLabCorrect.v ===== *)
(** What the GitLab service makes of GitLab's answers: timestamps, pages,
    states and errors. *)
From stdpp Require Import sets strings list pretty.
From Stdlib Require Import ZArith Lia.
From S2P Require Import Prelude Protocol Json JsonFile Utf8 GitLab.

Ltac div_lia := Z.to_euclidean_division_equations; lia.

(** * Days *)

(** The number of days from the first of January 1970 in the Gregorian
    calendar, by eras of 400 years that begin in March. *)
Definition civil_days (y m d : Z) : Z :=
  let y' := if (m <=? 2)%Z then (y - 1)%Z else y in
  let era := (y' / 400)%Z in
  let yoe := (y' - era * 400)%Z in
  let doy := ((153 * (if (m <=? 2)%Z then m + 9 else m - 3) + 2) / 5 + d - 1)%Z in
  (era * 146097 + (yoe * 365 + yoe / 4 - yoe / 100 + doy) - 719468)%Z.

Lemma wrap_i64_small (z : Z) : (- 2 ^ 63 ≤ z < 2 ^ 63)%Z → wrap_i64 z = z.
Proof. intros H. unfold wrap_i64. rewrite Z.mod_small; lia. Qed.

Lemma wrap_i64_add (a b : Z) : wrap_i64 (wrap_i64 a + b) = wrap_i64 (a + b).
Proof.
  unfold wrap_i64. replace ((a + 2 ^ 63) mod 2 ^ 64 - 2 ^ 63 + b + 2 ^ 63)%Z with ((a + 2 ^ 63) mod 2 ^ 64 + b)%Z by lia.
  rewrite Zplus_mod_idemp_l. f_equal. f_equal. lia.
Qed.

Definition leap_days (y : Z) : Z := (y / 4 - y / 100 + y / 400)%Z.

Lemma leap_days_step (y : Z) : (1 ≤ y)%Z → leap_days y = (leap_days (y - 1) + if is_leap y then 1 else 0)%Z.
Proof.
  intros Hy. unfold leap_days, is_leap. rewrite !Z.rem_mod_nonneg by lia.
  destruct (Z.eqb_spec (y mod 4) 0), (Z.eqb_spec (y mod 100) 0), (Z.eqb_spec (y mod 400) 0); cbn; div_lia.
Qed.

Lemma leap_days_bound (y : Z) : (0 ≤ y)%Z → (0 ≤ leap_days y ≤ y)%Z.
Proof. intros Hy. unfold leap_days. div_lia. Qed.

Lemma years_loop (n : nat) : (Z.of_nat n < 2 ^ 40)%Z →
  foldl (λ d y, wrap_i64 (d + if is_leap y then 366 else 365)) 0%Z (seqZ 1970 (Z.of_nat n)) =
  (365 * Z.of_nat n + leap_days (1969 + Z.of_nat n) - leap_days 1969)%Z.
Proof.
  induction n as [|n IH]; intros Hn; [reflexivity|].
  rewrite Nat2Z.inj_succ, <- Z.add_1_r, seqZ_app by lia. rewrite foldl_app, IH by lia.
  assert (seqZ (1970 + Z.of_nat n) 1 = [1970 + Z.of_nat n]%Z) as -> by reflexivity. cbn [foldl].
  pose proof (leap_days_step (1970 + Z.of_nat n)) as Hl. pose proof (leap_days_bound (1969 + Z.of_nat n)) as Hb.
  replace (1970 + Z.of_nat n - 1)%Z with (1969 + Z.of_nat n)%Z in Hl by lia.
  replace (1969 + (Z.of_nat n + 1))%Z with (1970 + Z.of_nat n)%Z by lia. rewrite Hl by lia.
  assert (leap_days 1969 = 477)%Z as -> by reflexivity.
  rewrite wrap_i64_small; destruct (is_leap _); lia.
Qed.

Lemma era_days (y : Z) : (0 ≤ y)%Z →
  (y / 400 * 146097 + ((y - y / 400 * 400) * 365 + (y - y / 400 * 400) / 4 - (y - y / 400 * 400) / 100) = 365 * y + leap_days y)%Z.
Proof.
  intros Hy. unfold leap_days. set (e := (y / 400)%Z).
  assert ((y - e * 400) / 4 = y / 4 - e * 100)%Z as -> by (unfold e; div_lia).
  assert ((y - e * 400) / 100 = y / 100 - e * 4)%Z as -> by (unfold e; div_lia). lia.
Qed.

Lemma civil_year (y m d : Z) : (1 ≤ y)%Z →
  civil_days y m d = (let y' := if m <=? 2 then y - 1 else y in
    365 * y' + leap_days y' + (153 * (if m <=? 2 then m + 9 else m - 3) + 2) / 5 + d - 719469)%Z.
Proof.
  intros Hy. unfold civil_days. cbn zeta. set (y' := if (m <=? 2)%Z then (y - 1)%Z else y).
  assert (0 ≤ y')%Z as Hy' by (unfold y'; destruct (Z.leb_spec m 2); lia). pose proof (era_days y' Hy'). lia.
Qed.

(** The days of the first months of a table. *)
Definition days_before (l : list Z) (n : nat) : Z := foldl Z.add 0%Z (take n l).

Lemma months_loop (l : list Z) (base : Z) (n : nat) :
  (0 ≤ base < 2 ^ 62)%Z → n ≤ length l → length l = 12 → Forall (λ d, 28 ≤ d ≤ 31)%Z l →
  foldl (λ d m, wrap_i64 (d + default 30%Z (l !! Z.to_nat m))) base (seqZ 0 (Z.of_nat n)) = (base + days_before l n)%Z ∧
  (0 ≤ days_before l n ≤ 31 * Z.of_nat n)%Z.
Proof.
  intros Hb Hn Hlen Hl. induction n as [|n IH]; [unfold days_before; rewrite take_0; change (seqZ 0 (Z.of_nat 0)) with (@nil Z); simpl; lia|].
  destruct IH as [IH Hbd]; [lia|]. rewrite Nat2Z.inj_succ, <- Z.add_1_r, seqZ_app by lia. rewrite foldl_app, IH.
  assert (seqZ (0 + Z.of_nat n) 1 = [Z.of_nat n]%Z) as -> by (rewrite Z.add_0_l; reflexivity). cbn [foldl]. rewrite Nat2Z.id.
  destruct (lookup_lt_is_Some_2 l n) as [d Hd]; [lia|]. rewrite Hd. 
  pose proof (Forall_lookup_1 _ _ _ _ Hl Hd) as Hr. unfold days_before in *. rewrite (take_S_r _ _ _ Hd), foldl_snoc.
  simpl default. rewrite wrap_i64_small by lia. lia.
Qed.

Lemma month_table (b : bool) (m : Z) : (1 ≤ m ≤ 12)%Z →
  days_before [31; if b then 29 else 28; 31; 30; 31; 30; 31; 31; 30; 31; 30; 31]%Z (Z.to_nat (m - 1)) =
  ((153 * (if m <=? 2 then m + 9 else m - 3) + 2) / 5 + (if m <=? 2 then -306 else if b then 60 else 59))%Z.
Proof.
  intros Hm. assert (m = 1 ∨ m = 2 ∨ m = 3 ∨ m = 4 ∨ m = 5 ∨ m = 6 ∨ m = 7 ∨ m = 8 ∨ m = 9 ∨ m = 10 ∨ m = 11 ∨ m = 12)%Z as Hc by lia.
  destruct b; repeat (destruct Hc as [->|Hc]; [reflexivity|]); subst m; reflexivity.
Qed.

(** The loops over years and months count the days of the calendar. *)
Lemma days_correct (y m d : Z) : (1970 ≤ y < 2 ^ 40)%Z → (1 ≤ m ≤ 12)%Z → (1 ≤ d ≤ 31)%Z → days_since_epoch y m d = civil_days y m d.
Proof.
  intros Hy Hm Hd. rewrite civil_year by lia. unfold days_since_epoch. replace (y - 1970)%Z with (Z.of_nat (Z.to_nat (y - 1970))) by lia.
  rewrite years_loop by lia. rewrite Z2Nat.id by lia. replace (1969 + (y - 1970))%Z with (y - 1)%Z by lia.
  assert (leap_days 1969 = 477)%Z as -> by reflexivity.
  pose proof (leap_days_step y ltac:(lia)) as Hl. pose proof (leap_days_bound (y - 1) ltac:(lia)) as Hb. rewrite (wrap_i64_small (d - 1)) by lia.
  assert (wrap_u64 (m - 1) = Z.of_nat (Z.to_nat (m - 1))) as -> by (unfold wrap_u64; rewrite Z.mod_small; lia).
  destruct (months_loop (month_days y) (365 * (y - 1970) + leap_days (y - 1) - 477) (Z.to_nat (m - 1))) as [-> Hbd]; cbn zeta.
  - assert (477 ≤ leap_days (y - 1))%Z; [|lia]. clear -Hy. unfold leap_days. div_lia.
  - cbn. lia.
  - done.
  - unfold month_days. repeat constructor; destruct (is_leap y); lia.
  - unfold month_days in *. rewrite month_table in * by lia. destruct (Z.leb_spec m 2), (is_leap y); rewrite wrap_i64_small; div_lia.
Qed.

(** * Texts *)

Fixpoint str_all (p : Ascii.ascii → bool) (s : string) : bool :=
  match s with EmptyString => true | String a s' => p a && str_all p s' end.

Definition digit (a : Ascii.ascii) : bool := let n := Ascii.nat_of_ascii a in (48 <=? n) && (n <=? 57).
Definition printable (a : Ascii.ascii) : bool := let n := Ascii.nat_of_ascii a in (33 <=? n) && (n <=? 126).

Lemma str_all_app (p : Ascii.ascii → bool) (s t : string) : str_all p (s +:+ t) = str_all p s && str_all p t.
Proof. induction s as [|a s IH]; [done|]. rewrite string_app_cons. cbn. by rewrite IH, andb_assoc. Qed.

Lemma str_all_mono (p q : Ascii.ascii → bool) (s : string) : (∀ a, p a = true → q a = true) → str_all p s = true → str_all q s = true.
Proof. intros H. induction s as [|a s IH]; [done|]. cbn. intros [Ha Hs]%andb_prop. by rewrite (H _ Ha), IH. Qed.

Lemma all_no_char (p : Ascii.ascii → bool) (c : Ascii.ascii) (s : string) : p c = false → str_all p s = true → no_char c s.
Proof.
  intros Hc. induction s as [|a s IH]; [done|]. cbn. intros [Ha Hs]%andb_prop. split; [|by apply IH]. intros ->. congruence.
Qed.

Lemma digit_printable (a : Ascii.ascii) : digit a = true → printable a = true.
Proof. unfold digit, printable. intros [?%Nat.leb_le ?%Nat.leb_le]%andb_prop. rewrite !(proj2 (Nat.leb_le _ _)) by lia. done. Qed.

Lemma printable_not_white (a : Ascii.ascii) :
  negb (printable a) || (negb (is_whitespace (String a EmptyString)) && negb (is_cont a)) = true.
Proof. destruct a as [[] [] [] [] [] [] [] []]; vm_compute; reflexivity. Qed.

Lemma printable_chars (s : string) : str_all printable s = true → Forall (λ c, is_whitespace c = false) (chars s) ∧ is_text s = true.
Proof.
  induction s as [|a s IH]; [done|]. cbn. intros [Ha Hs]%andb_prop. destruct (IH Hs) as [IHf ->].
  pose proof (printable_not_white a) as Hw. rewrite Ha in Hw. cbn [negb orb] in Hw. apply andb_prop in Hw as [Hw Hc].
  split; [constructor; [by apply negb_true_iff|done]|done].
Qed.

Lemma drop_while_none {A : Type} (p : A → bool) (l : list A) : Forall (λ x, p x = false) l → drop_while p l = l.
Proof. destruct l as [|x l]; [done|]. intros [Hx _]%Forall_cons. simpl. by rewrite Hx. Qed.

Lemma trim_printable (s : string) : str_all printable s = true → trim s = s.
Proof.
  intros [Hf _]%printable_chars. unfold trim. rewrite (drop_while_none _ (chars s)) by done. rewrite drop_while_none by (by apply Forall_reverse).
  by rewrite reverse_involutive, text_of_chars.
Qed.

(** ** The pieces of a timestamp *)

Lemma split_at_no_char (c : Ascii.ascii) (s t : string) : no_char c s → split_at_char c (s +:+ String c t) = Some (s, t).
Proof.
  induction s as [|a s IH]; intros H; [change (EmptyString +:+ String c t) with (String c t); cbn [split_at_char]; by rewrite decide_True|]. destruct H as [Ha H].
  rewrite string_app_cons. cbn [split_at_char]. rewrite decide_False by done. by rewrite IH.
Qed.

Lemma first_part_no_char (c : Ascii.ascii) (s : string) : no_char c s → first_part c s = s.
Proof. intros H. unfold first_part. by rewrite split_on_no_char. Qed.

Lemma first_part_app (c : Ascii.ascii) (s t : string) : no_char c s → first_part c (s +:+ String c t) = s.
Proof. intros H. unfold first_part. by rewrite split_on_app_sep. Qed.

Lemma trim_end_none (c : Ascii.ascii) (s : string) : no_char c s → trim_end_matches c s = s.
Proof.
  induction s as [|a s IH]; [done|]. intros [Ha H]. cbn [trim_end_matches]. rewrite IH by done. by rewrite decide_False by tauto.
Qed.

Lemma trim_end_app (c : Ascii.ascii) (s t : string) : no_char c s →
  trim_end_matches c (s +:+ t) = if decide (trim_end_matches c t = EmptyString) then s else s +:+ trim_end_matches c t.
Proof.
  induction s as [|a s IH]; intros H; [change (EmptyString +:+ t) with t; case_decide as E; [done|reflexivity]|].
  destruct H as [Ha H]. rewrite string_app_cons. cbn [trim_end_matches].
  rewrite IH by done. case_decide as E; rewrite decide_False by tauto; done.
Qed.

Definition clock_char (a : Ascii.ascii) : bool := digit a || bool_decide (a = byte 58).

(** A fraction of a second, and a zone. *)
Definition is_fraction (f : string) : Prop := f = EmptyString ∨ ∃ t, f = String (byte 46) t ∧ str_all digit t = true.
Definition is_zone (z : string) : Prop :=
  z = EmptyString ∨ z = "Z" ∨ ∃ sign t, z = String sign t ∧ sign ∈ [byte 43; byte 45] ∧ str_all clock_char t = true.

Lemma time_text_clock (body frac zone : string) :
  str_all clock_char body = true → is_fraction frac → is_zone zone → time_text (body +:+ frac +:+ zone) = body.
Proof.
  intros Hb Hf Hz. unfold time_text.
  assert (∀ c, clock_char c = false → no_char c body) as Hnb by (intros c Hc; by apply (all_no_char clock_char)).
  assert (∀ c, clock_char c = false → c ≠ byte 46 → no_char c (body +:+ frac)) as Hnf.
  { intros c Hc Hn. destruct Hf as [->|(t & -> & Ht)]; [rewrite string_app_nil_r; by apply Hnb|]. apply (all_no_char (λ a, clock_char a || bool_decide (a = byte 46))).
    - rewrite Hc. by rewrite bool_decide_eq_false_2.
    - rewrite str_all_app. rewrite (str_all_mono clock_char _ body); [|by intros a ->|done]. cbn. eapply str_all_mono; [|exact Ht].
      intros a Ha. unfold clock_char. by rewrite Ha. }
  assert (first_part (byte 46) (body +:+ frac) = body) as Hdot.
  { destruct Hf as [->|(t & -> & Ht)]; [rewrite string_app_nil_r; by apply first_part_no_char, Hnb|by apply first_part_app, Hnb]. }
  assert (∀ t, trim_end_matches (byte 90) (body +:+ frac +:+ t) = if decide (trim_end_matches (byte 90) t = EmptyString) then body +:+ frac
    else (body +:+ frac) +:+ trim_end_matches (byte 90) t) as Hte.
  { intros t. rewrite string_app_assoc. apply trim_end_app. by apply Hnf. }
  rewrite Hte. destruct Hz as [->|[->|(sign & t & -> & Hs & Ht)]].
  - cbn. rewrite (first_part_no_char (byte 43)) by (by apply Hnf). rewrite (first_part_no_char (byte 45)) by (by apply Hnf). done.
  - cbn. rewrite (first_part_no_char (byte 43)) by (by apply Hnf). rewrite (first_part_no_char (byte 45)) by (by apply Hnf). done.
  - assert (trim_end_matches (byte 90) (String sign t) = String sign t) as ->.
    { apply trim_end_none. split; [|by apply (all_no_char clock_char)]. intros ->. clear -Hs; set_solver. }
    rewrite decide_False by done. assert (sign = byte 43 ∨ sign = byte 45) as [->| ->] by set_solver.
    + rewrite (first_part_app (byte 43)) by (by apply Hnf). rewrite (first_part_no_char (byte 45)) by (by apply Hnf). done.
    + rewrite (first_part_no_char (byte 43)); [by rewrite (first_part_app (byte 45)) by (by apply Hnf)|].
      apply no_char_both; [by apply Hnf|]. split; [done|]. by apply (all_no_char clock_char).
Qed.

Definition number_text (t : string) (z : Z) : Prop := str_all digit t = true ∧ parse_i64 t = Some z.

(** The sum of a timestamp needs no more than 64 bits. *)
Lemma civil_bound (y m d : Z) : (1970 ≤ y < 2 ^ 32)%Z → (1 ≤ m ≤ 12)%Z → (1 ≤ d ≤ 31)%Z → (-1000 ≤ civil_days y m d < 2 ^ 42)%Z.
Proof.
  intros Hy Hm Hd. rewrite civil_year by lia. cbn zeta. pose proof (leap_days_bound y ltac:(lia)). pose proof (leap_days_bound (y - 1) ltac:(lia)).
  assert (477 ≤ leap_days (y - 1))%Z by (unfold leap_days; div_lia). pose proof (leap_days_step y ltac:(lia)) as Hl.
  destruct (Z.leb_spec m 2), (is_leap y); div_lia.
Qed.

Lemma seconds_sum (days h mi s : Z) : (-1000 ≤ days < 2 ^ 42)%Z → (0 ≤ h ≤ 23)%Z → (0 ≤ mi ≤ 59)%Z → (0 ≤ s ≤ 60)%Z →
  wrap_i64 (wrap_i64 (wrap_i64 (days * 86400 + h * 3600) + mi * 60) + s) = (days * 86400 + h * 3600 + mi * 60 + s)%Z.
Proof. intros. rewrite wrap_i64_add, <- Z.add_assoc, wrap_i64_add, wrap_i64_small; lia. Qed.

Lemma three_numbers_text (c : Ascii.ascii) (x y z : string) (a b d : Z) :
  digit c = false → number_text x a → number_text y b → number_text z d →
  three_numbers c (x +:+ String c (y +:+ String c z)) = Some (a, b, d).
Proof.
  intros Hc [Hx Ha] [Hy Hb] [Hz Hd]. unfold three_numbers. rewrite split_on_app_sep by (by apply (all_no_char digit)).
  rewrite split_on_app_sep by (by apply (all_no_char digit)). rewrite split_on_no_char by (by apply (all_no_char digit)). by rewrite Ha, Hb, Hd.
Qed.

(** A timestamp is read as the seconds from 1970 to its date and time of day
    in the Gregorian calendar, with any fraction; the zone it has is ignored,
    so that a time with an offset is off by it. *)
Theorem timestamps_ignore_zone (ys ms ds hs mis ss frac zone : string) (y m d h mi s : Z) :
  number_text ys y → number_text ms m → number_text ds d → number_text hs h → number_text mis mi → number_text ss s →
  is_fraction frac → is_zone zone →
  (1970 ≤ y < 2 ^ 32)%Z → (1 ≤ m ≤ 12)%Z → (1 ≤ d ≤ 31)%Z → (0 ≤ h ≤ 23)%Z → (0 ≤ mi ≤ 59)%Z → (0 ≤ s ≤ 60)%Z →
  parse_rfc3339_seconds ((ys +:+ String (byte 45) (ms +:+ String (byte 45) ds)) +:+ String (byte 84)
    ((hs +:+ String (byte 58) (mis +:+ String (byte 58) ss)) +:+ frac +:+ zone)) =
  Some (civil_days y m d * 86400 + h * 3600 + mi * 60 + s)%Z.
Proof.
  intros Hys Hms Hds Hhs Hmis Hss Hf Hz Hy Hm Hd Hh Hmi Hs. unfold parse_rfc3339_seconds.
  assert (∀ t z, number_text t z → str_all digit t = true) as Hdig by (intros t z [H _]; exact H).
  assert (∀ t z, number_text t z → str_all clock_char t = true) as Hclk.
  { intros t z H. eapply str_all_mono; [|by eapply Hdig]. intros a Ha. unfold clock_char. by rewrite Ha. }
  rewrite trim_printable.
  - rewrite split_at_no_char.
    2: { repeat first [apply no_char_both|split]; try done; by apply (all_no_char digit); [|by eapply Hdig]. }
    cbn [mbind option_bind]. rewrite (three_numbers_text _ _ _ _ y m d) by done. cbn [mbind option_bind].
    rewrite time_text_clock; [|by rewrite ?str_all_app; cbn; rewrite !str_all_app; cbn; rewrite (Hclk _ _ Hhs), (Hclk _ _ Hmis), (Hclk _ _ Hss)|done|done].
    rewrite (three_numbers_text _ _ _ _ h mi s) by done. cbn [mbind option_bind]. rewrite days_correct by lia.
    f_equal. apply seconds_sum; try done. by apply civil_bound.
  - assert (∀ t z, number_text t z → str_all printable t = true) as Hp.
    { intros t z H. eapply str_all_mono; [apply digit_printable|]. by eapply Hdig. }
    assert (str_all printable frac = true) as Hpf.
    { destruct Hf as [->|(t & -> & Ht)]; [done|]. cbn. eapply str_all_mono; [apply digit_printable|done]. }
    assert (str_all printable zone = true) as Hpz.
    { destruct Hz as [->|[->|(sign & t & -> & Hsg & Ht)]]; [done|done|]. cbn [str_all].
      assert (sign = byte 43 ∨ sign = byte 45) as Hsign by set_solver. apply andb_true_intro. split; [by destruct Hsign as [->| ->]|].
      eapply str_all_mono; [|exact Ht]. intros a [Ha|Ha%bool_decide_eq_true]%orb_prop; [by apply digit_printable|by subst]. }
    repeat (rewrite ?str_all_app; cbn [str_all]).
    rewrite (Hp _ _ Hys), (Hp _ _ Hms), (Hp _ _ Hds), (Hp _ _ Hhs), (Hp _ _ Hmis), (Hp _ _ Hss), Hpf, Hpz. reflexivity.
Qed.

Lemma timestamps_ignore_zone_witness :
  parse_rfc3339_seconds "2026-02-28T23:59:07.250+05:30" = Some (civil_days 2026 2 28 * 86400 + 23 * 3600 + 59 * 60 + 7)%Z ∧
  civil_days 2026 2 28 = 20512%Z.
Proof.
  split; [|reflexivity].
  apply (timestamps_ignore_zone "2026" "02" "28" "23" "59" "07" ".250" "+05:30"); try (split; reflexivity); try lia.
  - right. exists "250". split; reflexivity.
  - right. right. exists (byte 43), "05:30". split; [reflexivity|]. split; [left|reflexivity].
Defined.

(** * Pages, states and paths *)

Section Service.
Context {GC : GitLabCodes} {GA : GitLabApi}.

(** GitLab answers with at most 100 rows of a page. *)
Definition page_of (rows : list Json) (per_page page : Z) : list Json :=
  take (Z.to_nat (Z.min per_page 100)) (drop (Z.to_nat (Z.min per_page 100 * (page - 1))) rows).

Lemma mapM_take_drop {A B : Type} (f : A → option B) (l : list A) (k : list B) (n m : nat) :
  mapM f l = Some k → mapM f (take n (drop m l)) = Some (take n (drop m k)).
Proof.
  intros H%mapM_Some. apply mapM_Some. by apply Forall2_take, Forall2_drop.
Qed.

(** A list of issues begins at the page that has the offset, not at the
    offset, and pages are counted in requested rows while GitLab sends at most
    100 of them: what is asked for from a larger page on is skipped. *)
Theorem pages_start_at_multiples (base project : string) (state limit offset : Z) (rows : list Json) (issues : list GlIssue) :
  let per := if decide (limit = 0)%Z then 20%Z else limit in
  (0 ≤ limit < 2 ^ 32)%Z → (0 ≤ offset < 2 ^ 31)%Z → mapM read_issue rows = Some issues →
  http_get (list_url base project "issues" "state" (issue_state_to_str (default IsUnspecified (is_try_from state))) per (offset / per + 1)) =
    Answered 200 (Ok (JArr (page_of rows per (offset / per + 1)))) →
  (svc_list_issues base project state limit offset =
     let page := to_issue_info <$> take (Z.to_nat (Z.min per 100)) (drop (Z.to_nat (Z.min per 100 * (offset / per))) issues) in
     Ok (page, Z.of_nat (length page))) ∧
  (per ≤ 100 → (per * (offset / per) = offset ↔ (per | offset)))%Z ∧ (100 < per → offset = per → Z.min per 100 * (offset / per) < offset)%Z.
Proof.
  cbn zeta. set (per := if decide (limit = 0)%Z then 20%Z else limit). intros Hl Ho Hrows Hget.
  assert (0 < per)%Z as Hper by (unfold per; case_decide; lia).
  assert (paginate limit offset = (per, offset / per + 1))%Z as Hp.
  { unfold paginate. fold per. f_equal. case_decide as H0; [subst; by rewrite Z.div_0_l by lia|].
    rewrite Z.quot_div_nonneg by lia. unfold wrap_u32. apply Z.mod_small.
    assert (0 ≤ offset / per ≤ offset)%Z by (split; [apply Z.div_pos; lia|apply Z.div_le_upper_bound; nia]). lia. }
  split_and!.
  - unfold svc_list_issues. rewrite Hp. unfold client_list_issues, list_paginated, get_json. rewrite Hget.
    assert (check_status 200 = Ok tt) as -> by reflexivity. cbn [as_array mbind option_bind].
    unfold page_of. replace (offset / per + 1 - 1)%Z with (offset / per)%Z by lia. rewrite (mapM_take_drop _ _ issues) by done.
    cbn [page_response]. do 2 f_equal. unfold wrap_u32. rewrite Z.mod_small; [done|]. rewrite length_fmap, length_take. lia.
  - intros _. split; [intros <-; by exists (offset / per)%Z; lia|]. intros [k ->]. rewrite Z.div_mul by lia. lia.
  - intros Hbig ->. rewrite Z.div_same by lia. lia.
Qed.

(** A project that holds a question mark ends the path of the request. *)
Lemma question_mark_cuts_path (base p q resource filter_key : string) (filter_value : option string) (per_page page : Z) :
  no_char (byte 63) base → no_char (byte 63) p → no_char slash p →
  ∃ query, split_at_char (byte 63) (list_url base (p +:+ String (byte 63) q) resource filter_key filter_value per_page page) =
           Some (base +:+ "/api/v4/projects/" +:+ p, query).
Proof.
  intros Hb Hp Hs. assert (encode_project (p +:+ String (byte 63) q) = p +:+ String (byte 63) (encode_project q)) as He.
  { clear Hp. induction p as [|a p IH]; [done|]. destruct Hs as [Ha Hs]. rewrite string_app_cons. cbn [encode_project].
    rewrite decide_False, IH by done. done. }
  assert (∀ rest, ∃ query, split_at_char (byte 63) (base +:+ "/api/v4" +:+ "/projects/" +:+ p +:+ String (byte 63) rest) =
    Some (base +:+ "/api/v4/projects/" +:+ p, query)) as Hq.
  { intros rest. exists rest. change ("/api/v4" +:+ "/projects/" +:+ p +:+ String (byte 63) rest) with ("/api/v4/projects/" +:+ p +:+ String (byte 63) rest).
    rewrite !string_app_assoc. rewrite <- (string_app_assoc base). apply split_at_no_char. apply no_char_both; [done|].
    apply no_char_both; [|done]. repeat split; discriminate. }
  unfold list_url, api_url. rewrite He. destruct filter_value as [v|]; rewrite <- !string_app_assoc, (string_app_cons (byte 63)); apply Hq.
Qed.

(** What the service sends for a state is read back as that state. *)
Lemma states_round_trip :
  (∀ x s, mr_state_to_str x = Some s → str_to_mr_state s = mr_i32 x) ∧
  (∀ x s, pipeline_status_to_str x = Some s → str_to_pipeline_status s = pl_i32 x) ∧
  (∀ x s, issue_state_to_str x = Some s → str_to_issue_state s = is_i32 x).
Proof. split_and!; intros [] s; try done; intros [= <-]; reflexivity. Qed.

End Service.

(** A month 0 makes the loop over the months run to the end of the 64 bits. *)
Lemma month_zero_counts_on : length (seqZ 0 (wrap_u64 (0 - 1))) = Z.to_nat (2 ^ 64 - 1).
Proof. rewrite length_seqZ. reflexivity. Qed.

(** * At concrete inputs *)

Definition code_of {A : Type} `{EqDecision A} (l : list A) (x : A) : Z := default 0%Z (Z.of_nat <$> (fst <$> list_find (.= x) l)).
Definition of_code {A : Type} (l : list A) (z : Z) : option A := if (z <? 0)%Z then None else l !! Z.to_nat z.

#[local] Instance mr_eq_dec : EqDecision MergeRequestState. Proof. solve_decision. Defined.
#[local] Instance pl_eq_dec : EqDecision PipelineStatus. Proof. solve_decision. Defined.
#[local] Instance is_eq_dec : EqDecision IssueState. Proof. solve_decision. Defined.
#[local] Instance ms_eq_dec : EqDecision MergeStatus. Proof. solve_decision. Defined.

Definition mr_list : list MergeRequestState := [MrUnspecified; MrOpened; MrClosed; MrMerged; MrLocked].
Definition pl_list : list PipelineStatus :=
  [PlUnspecified; PlCreated; PlWaitingForResource; PlPreparing; PlPending; PlRunning; PlSuccess; PlFailed; PlCanceled; PlSkipped; PlManual; PlScheduled].
Definition is_list : list IssueState := [IsUnspecified; IsOpened; IsClosed].
Definition ms_list : list MergeStatus := [MsUnspecified; MsCanBeMerged; MsCannotBeMerged; MsChecking; MsUnchecked].

#[local] Instance toy_codes : GitLabCodes.
Proof.
  refine {| mr_i32 := code_of mr_list; mr_try_from := of_code mr_list; pl_i32 := code_of pl_list; pl_try_from := of_code pl_list;
            is_i32 := code_of is_list; is_try_from := of_code is_list; ms_i32 := code_of ms_list; ms_try_from := of_code ms_list |};
    intros []; reflexivity.
Defined.

Definition toy_issue (n : Z) (title : string) : Json :=
  JObj [("author", JObj [("username", JStr "ann")]); ("created_at", JStr "2026-01-01T00:00:00Z"); ("id", JInt n); ("iid", JInt n);
        ("state", JStr "opened"); ("title", JStr title); ("updated_at", JStr "2026-01-01T00:00:00Z"); ("web_url", JStr "u")].

Definition toy_rows : list Json := [toy_issue 1 "a"; toy_issue 2 "b"; toy_issue 3 "c"].

(** A server with three issues, asked for its second page of two. *)
#[local] Instance toy_gitlab : GitLabApi := {|
  http_get url :=
    if decide (url = "https://gitlab.example/api/v4/projects/group%2Fproject/issues?per_page=2&page=2&state=opened")
    then Answered 200 (Ok (JArr (page_of toy_rows 2 2))) else Answered 404 (Err "not found");
  http_failure_text f := match f with RequestFailed e | DecodeFailed e => e end;
  canonical_reason _ := Some "Not Found";
  header_value_ok _ := true;
  decode_failure _ := "unexpected"
|}.

Lemma pages_start_at_multiples_witness :
  ∃ page, svc_list_issues "https://gitlab.example" "group/project" 1 2 3 = Ok (page, 1%Z) ∧ ii_iid <$> page = [3%Z] ∧ ¬ (2 | 3)%Z.
Proof.
  destruct (mapM read_issue toy_rows) as [issues|] eqn:E; [|vm_compute in E; discriminate E].
  destruct (pages_start_at_multiples "https://gitlab.example" "group/project" 1 2 3 toy_rows issues) as (H & _ & _);
    [lia|lia|exact E|vm_compute; reflexivity|].
  rewrite H. vm_compute in E. injection E as <-. eexists. split_and!; [reflexivity|reflexivity|intros [k Hk]; lia].
Defined.
