(* ===== verification/ClientCalls.v ===== *)
(** The calls of the client, and what the daemon's services answer.

    Models the calls of crates/betcode-cli/src/connection.rs that send one
    request: a [Call] is a request with the type of its response, a client's
    method builds one and performs it.  [daemon_answer] is the daemon with the
    services of [AgentService], [RepoService], [GitLab], [CommandService] and
    [SubagentService]. *)
From stdpp Require Import gmap strings list pretty.
From Stdlib Require Import ZArith Lia SpecFloat.
From S2P Require Import Prelude Protocol Json Utf8 Completion Commands Fingerprint SessionStore RepoStore Worktrees RepoService.
From S2P Require Import Multiplexer EventBridge Encodings SessionRelay AgentService ClientConnection.
From S2P Require Import Scheduler OrchestrationStore SubagentManager SubagentService CommandIndex CommandService GitLab.

(** * Requests *)

Record SubagentInfo := mkSubagentInfo {
  si_id : string;
  si_parent_session_id : string;
  si_name : string;
  si_prompt : string;
  si_model : string;
  si_working_directory : string;
  si_status : SubagentStatus;
  si_result_summary : string
}.

(** A request and the type of its response; a stream is given by its number. *)
Inductive Call : Type → Type :=
| CallListSessions (working_directory worktree_id : string) (limit offset : nat) : Call (list SessionSummary * Z)
| CallCancelTurn (session_id : string) : Call bool
| CallRenameSession (session_id name : string) : Call unit
| CallDeleteSession (session_id : string) : Call bool
| CallCompactSession (session_id : string) : Call CompactResponse
| CallCreateWorktree (name repo_id branch setup_script : string) : Call WorktreeDetail
| CallRemoveWorktree (id : string) : Call bool
| CallListWorktrees (repo_id : string) : Call (list WorktreeDetail)
| CallGetWorktree (id : string) : Call WorktreeDetail
| CallRegisterRepo (req : RegisterRepoRequest) : Call GitRepoDetail
| CallUnregisterRepo (id : string) (remove_worktrees : bool) : Call (bool * Z)
| CallListRepos (limit offset : nat) : Call (list GitRepoDetail * Z)
| CallGetRepo (id : string) : Call GitRepoDetail
| CallUpdateRepo (req : UpdateRepoRequest) : Call GitRepoDetail
| CallScanRepos (scan_path : string) (max_depth : nat) : Call (list GitRepoDetail * Z)
| CallListMergeRequests (project : string) (state_filter limit offset : Z) : Call (list MergeRequestInfo * Z)
| CallGetMergeRequest (project : string) (iid : Z) : Call MergeRequestInfo
| CallListPipelines (project : string) (status_filter limit offset : Z) : Call (list PipelineInfo * Z)
| CallGetPipeline (project : string) (pipeline_id : Z) : Call PipelineInfo
| CallListIssues (project : string) (state_filter limit offset : Z) : Call (list IssueInfo * Z)
| CallGetIssue (project : string) (iid : Z) : Call IssueInfo
| CallGetCommandRegistry (session_id : string) : Call (list CommandEntry)
| CallListAgents (query : string) (max_results : nat) : Call (list AgentInfo)
| CallListPath (query : string) (max_results : nat) : Call (list IndexedPath)
| CallExecuteServiceCommand (command : string) (args : list string) (session_id : string) : Call nat
| CallListPlugins : Call (list PluginInfo)
| CallGetPluginStatus (name : string) : Call PluginInfo
| CallAddPlugin (name socket_path : string) : Call PluginInfo
| CallRemovePlugin (name : string) : Call bool
| CallEnablePlugin (name : string) : Call PluginInfo
| CallDisablePlugin (name : string) : Call PluginInfo
| CallSpawnSubagent (req : SpawnSubagentRequest) : Call string
| CallListSubagents (parent_session_id status_filter : string) : Call (list SubagentInfo)
| CallCancelSubagent (subagent_id : string) : Call (bool * string)
| CallWatchSubagent (subagent_id : string) : Call nat.

(** The method a request goes to. *)
Definition call_method {R : Type} (q : Call R) : Method :=
  match q with
  | CallListSessions _ _ _ _ => METHOD_LIST_SESSIONS
  | CallCancelTurn _ => METHOD_CANCEL_TURN
  | CallRenameSession _ _ => METHOD_RENAME_SESSION
  | CallDeleteSession _ => METHOD_DELETE_SESSION
  | CallCompactSession _ => METHOD_COMPACT_SESSION
  | CallCreateWorktree _ _ _ _ => METHOD_CREATE_WORKTREE
  | CallRemoveWorktree _ => METHOD_REMOVE_WORKTREE
  | CallListWorktrees _ => METHOD_LIST_WORKTREES
  | CallGetWorktree _ => METHOD_GET_WORKTREE
  | CallRegisterRepo _ => METHOD_REGISTER_REPO
  | CallUnregisterRepo _ _ => METHOD_UNREGISTER_REPO
  | CallListRepos _ _ => METHOD_LIST_REPOS
  | CallGetRepo _ => METHOD_GET_REPO
  | CallUpdateRepo _ => METHOD_UPDATE_REPO
  | CallScanRepos _ _ => METHOD_SCAN_REPOS
  | CallListMergeRequests _ _ _ _ => METHOD_LIST_MERGE_REQUESTS
  | CallGetMergeRequest _ _ => METHOD_GET_MERGE_REQUEST
  | CallListPipelines _ _ _ _ => METHOD_LIST_PIPELINES
  | CallGetPipeline _ _ => METHOD_GET_PIPELINE
  | CallListIssues _ _ _ _ => METHOD_LIST_ISSUES
  | CallGetIssue _ _ => METHOD_GET_ISSUE
  | CallGetCommandRegistry _ => METHOD_GET_COMMAND_REGISTRY
  | CallListAgents _ _ => METHOD_LIST_AGENTS
  | CallListPath _ _ => METHOD_LIST_PATH
  | CallExecuteServiceCommand _ _ _ => METHOD_EXECUTE_SERVICE_COMMAND
  | CallListPlugins => METHOD_LIST_PLUGINS
  | CallGetPluginStatus _ => METHOD_GET_PLUGIN_STATUS
  | CallAddPlugin _ _ => METHOD_ADD_PLUGIN
  | CallRemovePlugin _ => METHOD_REMOVE_PLUGIN
  | CallEnablePlugin _ => METHOD_ENABLE_PLUGIN
  | CallDisablePlugin _ => METHOD_DISABLE_PLUGIN
  | CallSpawnSubagent _ => METHOD_SPAWN_SUBAGENT
  | CallListSubagents _ _ => METHOD_LIST_SUBAGENTS
  | CallCancelSubagent _ => METHOD_CANCEL_SUBAGENT
  | CallWatchSubagent _ => METHOD_WATCH_SUBAGENT
  end.

(** Whether the response is a stream. *)
Definition call_streams {R : Type} (q : Call R) : bool :=
  match q with CallExecuteServiceCommand _ _ _ | CallWatchSubagent _ => true | _ => false end.

(** * The client *)

Notation Headers := (gmap string string).

(** Who answers the calls: the daemon, or a relay. *)
Class Answering := {
  an_state : Type;
  an_answer : ∀ R : Type, Headers → Call R → an_state → an_state * result Status R;
  an_header_ok : string → bool;         (** what the HTTP library takes as a header *)
  an_status_text : Status → string
}.

Section Client.
Context {AN : Answering} (c : DaemonConnection) (st : an_state).

Definition perform {R : Type} (q : Call R) : an_state * result ConnectionError R :=
  if cn_client c then
    let meta := apply_relay_meta an_header_ok (cg_auth_token (cn_config c)) (cg_machine_id (cn_config c)) ∅ in
    match an_answer R meta q st with
    | (st', Ok r) => (st', Ok r)
    | (st', Err s) => (st', Err (RpcCallFailed (an_status_text s)))
    end
  else (st, Err NotConnected).

(** ** Sessions *)

Definition list_sessions (working_directory : option string) : an_state * result ConnectionError (list SessionSummary * Z) :=
  perform (CallListSessions (default EmptyString working_directory) EmptyString 50 0).
Definition list_sessions_filtered (working_directory worktree_id : option string) (limit offset : nat)
  : an_state * result ConnectionError (list SessionSummary * Z) :=
  perform (CallListSessions (default EmptyString working_directory) (default EmptyString worktree_id) limit offset).
Definition cancel_turn (session_id : string) : an_state * result ConnectionError bool := perform (CallCancelTurn session_id).
Definition rename_session (session_id name : string) : an_state * result ConnectionError unit := perform (CallRenameSession session_id name).
Definition delete_session (session_id : string) : an_state * result ConnectionError bool := perform (CallDeleteSession session_id).
Definition compact_session (session_id : string) : an_state * result ConnectionError CompactResponse := perform (CallCompactSession session_id).

(** ** Worktrees and repositories *)

Definition create_worktree (name repo_id branch : string) (setup_script : option string) : an_state * result ConnectionError WorktreeDetail :=
  perform (CallCreateWorktree name repo_id branch (default EmptyString setup_script)).
Definition remove_worktree (id : string) : an_state * result ConnectionError bool := perform (CallRemoveWorktree id).
Definition list_worktrees (repo_id : option string) : an_state * result ConnectionError (list WorktreeDetail) :=
  perform (CallListWorktrees (default EmptyString repo_id)).
Definition get_worktree (id : string) : an_state * result ConnectionError WorktreeDetail := perform (CallGetWorktree id).

Definition register_repo (repo_path name : string) (worktree_mode : Z) (local_subfolder custom_path setup_script : string)
    (auto_gitignore : bool) : an_state * result ConnectionError GitRepoDetail :=
  perform (CallRegisterRepo (mkRegister repo_path name worktree_mode local_subfolder custom_path setup_script auto_gitignore)).
Definition unregister_repo (id : string) (remove_worktrees : bool) : an_state * result ConnectionError (bool * Z) :=
  perform (CallUnregisterRepo id remove_worktrees).
Definition list_repos (limit offset : nat) : an_state * result ConnectionError (list GitRepoDetail * Z) := perform (CallListRepos limit offset).
Definition get_repo (id : string) : an_state * result ConnectionError GitRepoDetail := perform (CallGetRepo id).
Definition update_repo (id : string) (name : option string) (worktree_mode : option Z) (local_subfolder custom_path setup_script : option string)
    (auto_gitignore : option bool) : an_state * result ConnectionError GitRepoDetail :=
  perform (CallUpdateRepo (mkUpdateRepo id name worktree_mode local_subfolder custom_path setup_script auto_gitignore)).
Definition scan_repos (scan_path : string) (max_depth : nat) : an_state * result ConnectionError (list GitRepoDetail * Z) :=
  perform (CallScanRepos scan_path max_depth).

(** ** GitLab *)

Definition list_merge_requests (project : string) (state_filter limit : Z) : an_state * result ConnectionError (list MergeRequestInfo * Z) :=
  perform (CallListMergeRequests project state_filter limit 0).
Definition get_merge_request (project : string) (iid : Z) : an_state * result ConnectionError MergeRequestInfo :=
  perform (CallGetMergeRequest project iid).
Definition list_pipelines (project : string) (status_filter limit : Z) : an_state * result ConnectionError (list PipelineInfo * Z) :=
  perform (CallListPipelines project status_filter limit 0).
Definition get_pipeline (project : string) (pipeline_id : Z) : an_state * result ConnectionError PipelineInfo :=
  perform (CallGetPipeline project pipeline_id).
Definition list_issues (project : string) (state_filter limit : Z) : an_state * result ConnectionError (list IssueInfo * Z) :=
  perform (CallListIssues project state_filter limit 0).
Definition get_issue (project : string) (iid : Z) : an_state * result ConnectionError IssueInfo := perform (CallGetIssue project iid).

(** ** Commands and plugins *)

Definition get_command_registry (session_id : string) : an_state * result ConnectionError (list CommandEntry) :=
  perform (CallGetCommandRegistry session_id).
Definition list_agents (query : string) (max_results : nat) : an_state * result ConnectionError (list AgentInfo) :=
  perform (CallListAgents query max_results).
Definition list_path (query : string) (max_results : nat) : an_state * result ConnectionError (list IndexedPath) :=
  perform (CallListPath query max_results).
Definition execute_service_command (command : string) (args : list string) (session_id : string) : an_state * result ConnectionError nat :=
  perform (CallExecuteServiceCommand command args session_id).
Definition list_plugins : an_state * result ConnectionError (list PluginInfo) := perform CallListPlugins.
Definition get_plugin_status (name : string) : an_state * result ConnectionError PluginInfo := perform (CallGetPluginStatus name).
Definition add_plugin (name socket_path : string) : an_state * result ConnectionError PluginInfo := perform (CallAddPlugin name socket_path).
Definition remove_plugin (name : string) : an_state * result ConnectionError bool := perform (CallRemovePlugin name).
Definition enable_plugin (name : string) : an_state * result ConnectionError PluginInfo := perform (CallEnablePlugin name).
Definition disable_plugin (name : string) : an_state * result ConnectionError PluginInfo := perform (CallDisablePlugin name).

(** ** Subagents *)

Definition spawn_subagent (parent_session_id prompt : string) (model : option string) (max_turns : Z) : an_state * result ConnectionError string :=
  perform (CallSpawnSubagent (mkSpawnRequest parent_session_id prompt (default EmptyString model) EmptyString [] max_turns false)).
Definition list_subagents (parent_session_id : option string) : an_state * result ConnectionError (list SubagentInfo) :=
  perform (CallListSubagents (default EmptyString parent_session_id) EmptyString).
Definition cancel_subagent (subagent_id : string) : an_state * result ConnectionError (bool * string) := perform (CallCancelSubagent subagent_id).
Definition watch_subagent (subagent_id : string) : an_state * result ConnectionError nat := perform (CallWatchSubagent subagent_id).

End Client.

(** * The daemon *)

Record Daemon := mkDaemon {
  dm_service : Service;
  dm_disk : Disk;
  dm_manager : Manager;
  dm_commands : CommandState;
  dm_plugins : PluginManager
}.

(** What the world answers during a call. *)
Record DaemonEnv := mkDaemonEnv {
  de_env : Env;
  de_worktree : WorktreeEnv;
  de_uuids : nat → string;
  de_clock : nat → Z;
  de_listing : option (list DirEntry);
  de_spawn : SpawnEnv;
  de_gitlab : string;             (** the address of the GitLab client *)
  de_task : nat;                  (** the number of the next service command *)
  de_run : BashRun
}.

Section Daemon.
Context {JT : JsonText} {ST : SqlText} {SO : SqlOrder}.
Context {MC : WorktreeModeCodes} {UA : UnicodeAlphanumeric} {UC : UnicodeCase} {HO : HashOrder} {GT : GitTools} {GC : GitLabCodes} {GA : GitLabApi}.
Context (env : DaemonEnv).

(** The agent service and the repositories share the database. *)
Definition daemon_store (s : Daemon) : DaemonDb * Disk := (r_db (sv_relay (dm_service s)), dm_disk s).
Definition with_service (v : Service) (s : Daemon) : Daemon := mkDaemon v (dm_disk s) (dm_manager s) (dm_commands s) (dm_plugins s).
Definition with_store (st : DaemonDb * Disk) (s : Daemon) : Daemon :=
  mkDaemon (set_relay (set_relay_db st.1 (sv_relay (dm_service s))) (dm_service s)) st.2 (dm_manager s) (dm_commands s) (dm_plugins s).
Definition with_manager (m : Manager) (s : Daemon) : Daemon := mkDaemon (dm_service s) (dm_disk s) m (dm_commands s) (dm_plugins s).
Definition with_commands (c : CommandState) (s : Daemon) : Daemon := mkDaemon (dm_service s) (dm_disk s) (dm_manager s) c (dm_plugins s).
Definition with_plugins (p : PluginManager) (s : Daemon) : Daemon := mkDaemon (dm_service s) (dm_disk s) (dm_manager s) (dm_commands s) p.

(** The rows of subagents as messages. *)
Definition subagent_info (row : SubagentRow) : SubagentInfo :=
  mkSubagentInfo (sa_id row) (sa_parent_session_id row) EmptyString (sa_prompt row) (default EmptyString (sa_model row))
    (default EmptyString (sa_working_directory row)) (status_str_to_proto (sa_status row)) (default EmptyString (sa_result_summary row)).

Definition on_service {A : Type} (s : Daemon) (x : Service * A) : Daemon * A := (with_service x.1 s, x.2).
Definition on_store {A : Type} (s : Daemon) (x : (DaemonDb * Disk) * A) : Daemon * A := (with_store x.1 s, x.2).
Definition on_manager {A : Type} (s : Daemon) (x : Manager * A) : Daemon * A := (with_manager x.1 s, x.2).
Definition on_plugins {A : Type} (s : Daemon) (x : PluginManager * A) : Daemon * A := (with_plugins x.1 s, x.2).
Definition infallible {A S : Type} (x : S * A) : S * result Status A := (x.1, Ok x.2).

Definition daemon_answer (R : Type) (q : Call R) (s : Daemon) : Daemon * result Status R :=
  let sv := dm_service s in
  let st := daemon_store s in
  match q in Call R return Daemon * result Status R with
  | CallListSessions wd _ limit offset => (s, Ok (svc_list_sessions wd limit offset sv))
  | CallCancelTurn sid => on_service s (infallible (svc_cancel_turn (de_env env) sid sv))
  | CallRenameSession sid name => on_service s (svc_rename_session (de_env env) sid name sv)
  | CallDeleteSession sid => on_service s (svc_delete_session (de_env env) sid sv)
  | CallCompactSession sid => on_service s (infallible (svc_compact_session (de_env env) sid sv))
  | CallCreateWorktree name repo branch script => on_store s (svc_create_worktree (de_worktree env) name repo branch script st)
  | CallRemoveWorktree id => on_store s (svc_remove_worktree id st)
  | CallListWorktrees repo => (s, Ok (svc_list_worktrees repo st))
  | CallGetWorktree id => (s, svc_get_worktree id st)
  | CallRegisterRepo req => on_store s (RepoService.register_repo (de_uuids env 0) (e_now (de_env env)) req st)
  | CallUnregisterRepo id wts => on_store s (infallible (RepoService.unregister_repo id wts st))
  | CallListRepos limit offset => (s, Ok (RepoService.list_repos limit offset st.1))
  | CallGetRepo id => (s, RepoService.get_repo id st.1)
  | CallUpdateRepo req => let '(d, r) := RepoService.update_repo (e_now (de_env env)) req st.1 in on_store s ((d, st.2), r)
  | CallScanRepos path depth => on_store s (RepoService.scan_repos (de_uuids env) (de_clock env) path depth (de_listing env) st)
  | CallListMergeRequests p f l o => (s, svc_list_merge_requests (de_gitlab env) p f l o)
  | CallGetMergeRequest p i => (s, svc_get_merge_request (de_gitlab env) p i)
  | CallListPipelines p f l o => (s, svc_list_pipelines (de_gitlab env) p f l o)
  | CallGetPipeline p i => (s, svc_get_pipeline (de_gitlab env) p i)
  | CallListIssues p f l o => (s, svc_list_issues (de_gitlab env) p f l o)
  | CallGetIssue p i => (s, svc_get_issue (de_gitlab env) p i)
  | CallGetCommandRegistry sid => (s, Ok (get_for_session sid (cs_registry (dm_commands s))))
  | CallListAgents query n => (s, Ok (CommandService.list_agents query n (cs_agents (dm_commands s))))
  | CallListPath query n => (s, Ok (CommandService.list_path query n (cs_files (dm_commands s))))
  | CallExecuteServiceCommand command args sid =>
      (with_commands (command_step (OpStart (de_task env) command args sid (de_run env)) (dm_commands s)) s, Ok (de_task env))
  | CallListPlugins => (s, Ok (CommandService.list_plugins (dm_plugins s)))
  | CallGetPluginStatus name => (s, CommandService.get_plugin_status name (dm_plugins s))
  | CallAddPlugin name path => on_plugins s (svc_add_plugin name path (dm_plugins s))
  | CallRemovePlugin name => on_plugins s (infallible (svc_remove_plugin name (dm_plugins s)))
  | CallEnablePlugin name => on_plugins s (svc_enable_plugin name true (dm_plugins s))
  | CallDisablePlugin name => on_plugins s (svc_enable_plugin name false (dm_plugins s))
  | CallSpawnSubagent req => on_manager s (SubagentService.spawn_subagent (de_spawn env) (de_uuids env 0) req (dm_manager s))
  | CallListSubagents parent filter =>
      (s, match SubagentService.list_subagents parent filter (dm_manager s) with Ok rows => Ok (subagent_info <$> rows) | Err e => Err e end)
  | CallCancelSubagent id => on_manager s (SubagentService.cancel_subagent id (dm_manager s))
  | CallWatchSubagent id => on_manager s (SubagentService.watch_subagent id (dm_manager s))
  end.

End Daemon.
