(* ===== verification/TunnelReconnect.v ===== *)
(** The daemon's connection to the relay, from one attempt to the next.

    Models crates/betcode-daemon/src/tunnel/ (config.rs, client.rs, error.rs):
    the reconnection delays with their floating-point arithmetic, the stages of
    a connection, the loop over its frames and the loop over connections.
    What the network answers, and when a shutdown is asked for, are arguments;
    the task of a frame is [TunnelHandler]'s. *)
From stdpp Require Import gmap strings list.
From Stdlib Require Import ZArith Lia SpecFloat.
From S2P Require Import Prelude Protocol Json.

(** * Floating point *)

#[export] Instance spec_float_eq_dec : EqDecision spec_float.
Proof. solve_decision. Defined.

Definition f64_mul : spec_float → spec_float → spec_float := SFmul 53 1024.
Definition f64_one : spec_float := f64_of_Z 1.

(** [f64::powi], as the compiler's run-time library has it. *)
Fixpoint powi_loop (fuel : nat) (a r : spec_float) (b : Z) : spec_float :=
  match fuel with
  | O => r
  | S n =>
      let r' := if Z.odd b then f64_mul r a else r in
      let b' := Z.quot b 2 in
      if decide (b' = 0)%Z then r' else powi_loop n (f64_mul a a) r' b'
  end.

Definition powi (a : spec_float) (b : Z) : spec_float :=
  let r := powi_loop 32 a f64_one b in
  if (b <? 0)%Z then SFdiv 53 1024 f64_one r else r.

(** [f64::min]: a number rather than none. *)
Definition f64_min (x y : spec_float) : spec_float :=
  match x, y with
  | S754_nan, _ => y
  | _, S754_nan => x
  | _, _ => if SFltb y x then y else x
  end.

(** [as u64]: towards zero, within the range. *)
Definition f64_as_u64 (x : spec_float) : Z :=
  match x with
  | S754_infinity false => 2 ^ 64 - 1
  | S754_finite false m e => Z.min (2 ^ 64 - 1) (Z.shiftl (Zpos m) e)
  | _ => 0
  end%Z.

(** * The policy (config.rs) *)

(** Delays in milliseconds. *)
Record ReconnectPolicy := mkPolicy {
  rp_initial_delay : Z;
  rp_max_delay : Z;
  rp_multiplier : spec_float;
  rp_max_attempts : option Z
}.

Definition default_policy : ReconnectPolicy := mkPolicy 1000 60000 (f64_of_Z 2) None.

Definition as_i32 (z : Z) : Z := ((z + 2 ^ 31) mod 2 ^ 32 - 2 ^ 31)%Z.

Definition delay_for_attempt (p : ReconnectPolicy) (attempt : Z) : Z :=
  let delay := f64_mul (f64_of_Z (rp_initial_delay p)) (powi (rp_multiplier p) (as_i32 attempt)) in
  f64_as_u64 (f64_min delay (f64_of_Z (rp_max_delay p))).

Definition should_retry (p : ReconnectPolicy) (attempt : Z) : bool :=
  match rp_max_attempts p with Some max => (attempt <? max)%Z | None => true end.

(** * A connection (client.rs) *)

Inductive TunnelClientError :=
| TcConnection (m : string)
| TcAuth (m : string)
| TcRegistration (m : string)
| TcStream (m : string).

(** What the loop over a connection meets. *)
Inductive LoopEvent :=
| LoopFrame (f : TunnelFrame)
| LoopStreamError (e : string)
| LoopStreamEnd
| LoopTick (open : bool)   (** time for a heartbeat, the channel still open or not *)
| LoopShutdown.

Inductive LoopAction := SpawnTask (f : TunnelFrame) | SendPing.

(** [None]: still in the loop. *)
Fixpoint tunnel_loop (evs : list LoopEvent) : list LoopAction * option (result TunnelClientError unit) :=
  match evs with
  | [] => ([], None)
  | LoopFrame f :: evs' => let '(acts, r) := tunnel_loop evs' in (SpawnTask f :: acts, r)
  | LoopStreamError e :: _ => ([], Some (Err (TcStream e)))
  | LoopStreamEnd :: _ => ([], Some (Err (TcConnection "Stream ended by relay")))
  | LoopTick true :: evs' => let '(acts, r) := tunnel_loop evs' in (SendPing :: acts, r)
  | LoopTick false :: _ => ([], Some (Err (TcConnection "Outbound channel closed during heartbeat")))
  | LoopShutdown :: _ => ([], Some (Ok tt))
  end.

(** The answers on the way to an open tunnel: the endpoint with its TLS
    settings, the connection, the token, the registration, the tunnel. *)
Record ConnectEnv := mkConnectEnv {
  ce_endpoint : result TunnelClientError unit;
  ce_connect : result string unit;
  ce_login : result Status string;
  ce_register : result Status bool;
  ce_token_is_header : string → bool;
  ce_open : result Status unit;
  ce_status_text : Status → string;
  ce_events : list LoopEvent
}.

Definition authenticate (env : ConnectEnv) : result TunnelClientError string :=
  match ce_login env with Ok t => Ok t | Err e => Err (TcAuth (ce_status_text env e)) end.

Definition register_machine (env : ConnectEnv) (token : string) : result TunnelClientError unit :=
  if negb (ce_token_is_header env token) then Err (TcAuth "Invalid token format")
  else match ce_register env with
  | Err e => Err (TcRegistration (ce_status_text env e))
  | Ok false => Err (TcRegistration "Registration rejected")
  | Ok true => Ok tt
  end.

(** The initial frame always fits the new channel. *)
Definition connect_and_run (env : ConnectEnv) : list LoopAction * option (result TunnelClientError unit) :=
  match ce_endpoint env with
  | Err e => ([], Some (Err e))
  | Ok _ =>
      match ce_connect env with
      | Err e => ([], Some (Err (TcConnection e)))
      | Ok _ =>
          match authenticate env with
          | Err e => ([], Some (Err e))
          | Ok token =>
              match register_machine env token with
              | Err e => ([], Some (Err e))
              | Ok _ =>
                  match ce_open env with
                  | Err e => ([], Some (Err (TcConnection (ce_status_text env e))))
                  | Ok _ => tunnel_loop (ce_events env)
                  end
              end
          end
      end
  end.

(** * The loop over connections *)

Record Attempt := mkAttempt {
  at_shutdown : bool;          (** asked for before it *)
  at_env : ConnectEnv;
  at_uptime_ms : Z;            (** how long it took *)
  at_shutdown_waiting : bool   (** asked for during the delay after it *)
}.

Inductive RunEnd :=
| ShuttingDown
| ClosedCleanly
| MaxAttempts
| Connected                 (** still in a connection *)
| BeforeAttempt (attempt : Z).

(** The delays it waited, and where it is. *)
Fixpoint run_client (p : ReconnectPolicy) (attempt : Z) (cs : list Attempt) : list Z * RunEnd :=
  match cs with
  | [] => ([], BeforeAttempt attempt)
  | c :: cs' =>
      if at_shutdown c then ([], ShuttingDown)
      else match (connect_and_run (at_env c)).2 with
      | None => ([], Connected)
      | Some (Ok _) => ([], ClosedCleanly)
      | Some (Err _) =>
          let attempt' := if (60000 <? at_uptime_ms c)%Z then 0%Z else attempt in
          if negb (should_retry p attempt') then ([], MaxAttempts)
          else
            let delay := delay_for_attempt p attempt' in
            if at_shutdown_waiting c then ([delay], ShuttingDown)
            else let '(ds, e) := run_client p (Z.min (2 ^ 32 - 1) (attempt' + 1)) cs' in (delay :: ds, e)
      end
  end.

(** * The delays of the default policy *)

(** A power of two, or infinity. *)
Definition pow2 (n : Z) : spec_float := if (n <? 1024)%Z then S754_finite false (2 ^ 52) (n - 52) else S754_infinity false.

Definition step_ok (k : nat) : bool :=
  forallb (λ n, bool_decide (f64_mul (pow2 (Z.of_nat n)) (pow2 (2 ^ Z.of_nat k)) = pow2 (Z.of_nat n + 2 ^ Z.of_nat k))) (seq 0 (2 ^ k)).

(** Computed for every exponent that occurs. *)
Lemma steps_ok : forallb step_ok (seq 0 10) = true.
Proof. vm_compute. reflexivity. Qed.

Lemma squares_ok :
  forallb (λ k, bool_decide (f64_mul (pow2 (2 ^ Z.of_nat k)) (pow2 (2 ^ Z.of_nat k)) = pow2 (2 ^ Z.of_nat (S k)))) (seq 0 10) = true.
Proof. vm_compute. reflexivity. Qed.

Lemma delays_ok :
  forallb (λ n, bool_decide (f64_as_u64 (f64_min (f64_mul (f64_of_Z 1000) (pow2 (Z.of_nat n))) (f64_of_Z 60000)) =
                             Z.min (1000 * 2 ^ Z.of_nat n) 60000)) (seq 0 1024) = true.
Proof. vm_compute. reflexivity. Qed.

Lemma forallb_seq (P : nat → bool) (n k : nat) : forallb P (seq 0 n) = true → k < n → P k = true.
Proof. intros H Hk. eapply forallb_forall in H; [exact H|]. apply in_seq. lia. Qed.

Lemma pow2_big (n : Z) : (1024 ≤ n)%Z → pow2 n = S754_infinity false.
Proof. intros H. unfold pow2. destruct (Z.ltb_spec n 1024); [lia|done]. Qed.

Lemma pow2_times_infinity (n : Z) : f64_mul (pow2 n) (S754_infinity false) = S754_infinity false.
Proof. unfold pow2. by destruct (n <? 1024)%Z. Qed.

Lemma two_power_big (k : nat) : 10 ≤ k → (1024 ≤ 2 ^ Z.of_nat k)%Z.
Proof. intros H. change 1024%Z with (2 ^ 10)%Z. apply Z.pow_le_mono_r; lia. Qed.

Lemma pow2_mul (k : nat) (n : Z) : (0 ≤ n < 2 ^ Z.of_nat k)%Z → f64_mul (pow2 n) (pow2 (2 ^ Z.of_nat k)) = pow2 (n + 2 ^ Z.of_nat k).
Proof.
  intros Hn. destruct (decide (k < 10)) as [Hk|Hk].
  - pose proof (forallb_seq _ _ _ steps_ok Hk) as H. unfold step_ok in H.
    apply (forallb_seq _ _ (Z.to_nat n)) in H; [|].
    + apply bool_decide_eq_true in H. by rewrite Z2Nat.id in H by lia.
    + apply Nat2Z.inj_lt. rewrite Z2Nat.id, Nat2Z.inj_pow by lia. lia.
  - pose proof (two_power_big k ltac:(lia)). rewrite (pow2_big (2 ^ _)), (pow2_big (n + _)) by lia. apply pow2_times_infinity.
Qed.

Lemma pow2_square (k : nat) : f64_mul (pow2 (2 ^ Z.of_nat k)) (pow2 (2 ^ Z.of_nat k)) = pow2 (2 ^ Z.of_nat (S k)).
Proof.
  destruct (decide (k < 10)) as [Hk|Hk].
  - pose proof (forallb_seq _ _ _ squares_ok Hk) as H. by apply bool_decide_eq_true in H.
  - pose proof (two_power_big k ltac:(lia)). pose proof (two_power_big (S k) ltac:(lia)). by rewrite !pow2_big by lia.
Qed.

Lemma powi_loop_pow2 (fuel k : nat) (n b : Z) :
  (0 ≤ n < 2 ^ Z.of_nat k)%Z → (0 ≤ b < 2 ^ Z.of_nat fuel)%Z →
  powi_loop fuel (pow2 (2 ^ Z.of_nat k)) (pow2 n) b = pow2 (n + b * 2 ^ Z.of_nat k).
Proof.
  revert k n b. induction fuel as [|fuel IH]; intros k n b Hn Hb.
  { change (2 ^ Z.of_nat 0)%Z with 1%Z in Hb. assert (b = 0)%Z as -> by lia. cbn. f_equal. lia. }
  cbn [powi_loop]. rewrite Z.quot_div_nonneg by lia.
  assert (2 ^ Z.of_nat (S k) = 2 * 2 ^ Z.of_nat k)%Z as Hk by (rewrite Nat2Z.inj_succ, Z.pow_succ_r; lia).
  assert (2 ^ Z.of_nat (S fuel) = 2 * 2 ^ Z.of_nat fuel)%Z as Hf by (rewrite Nat2Z.inj_succ, Z.pow_succ_r; lia).
  set (n' := if Z.odd b then (n + 2 ^ Z.of_nat k)%Z else n).
  assert ((if Z.odd b then f64_mul (pow2 n) (pow2 (2 ^ Z.of_nat k)) else pow2 n) = pow2 n') as -> by (unfold n'; destruct (Z.odd b); [by apply pow2_mul|done]).
  assert (b = 2 * (b / 2) + (if Z.odd b then 1 else 0))%Z as Hodd by (pose proof (Z.div2_odd b) as E; rewrite Z.div2_div in E; destruct (Z.odd b); cbn in E; lia).
  assert (0 ≤ n' < 2 ^ Z.of_nat (S k))%Z as Hn' by (unfold n'; destruct (Z.odd b); lia).
  case_decide as H0.
  - rewrite H0 in Hodd. f_equal. unfold n'. destruct (Z.odd b); lia.
  - rewrite pow2_square, IH; [|done|split; [apply Z.div_pos; lia|apply Z.div_lt_upper_bound; lia]].
    f_equal. rewrite Hk. unfold n'. destruct (Z.odd b); lia.
Qed.

(** The delays double from one second up to one minute, also where the
    floating-point power overflows. *)
Lemma default_delays (attempt : Z) : (0 ≤ attempt < 2 ^ 31)%Z → delay_for_attempt default_policy attempt = Z.min (1000 * 2 ^ attempt) 60000.
Proof.
  intros Ha. unfold delay_for_attempt. cbn [rp_initial_delay rp_max_delay rp_multiplier default_policy].
  assert (as_i32 attempt = attempt) as -> by (unfold as_i32; rewrite Z.mod_small; lia).
  unfold powi. destruct (Z.ltb_spec attempt 0); [lia|].
  change (f64_of_Z 2) with (pow2 (2 ^ Z.of_nat 0)). change f64_one with (pow2 0). rewrite powi_loop_pow2; [|cbn; lia|split; [lia|]].
  2: { eapply Z.lt_le_trans; [apply Ha|]. apply Z.pow_le_mono_r; lia. }
  rewrite Z.add_0_l. change (2 ^ Z.of_nat 0)%Z with 1%Z. rewrite Z.mul_1_r. destruct (decide (attempt < 1024)%Z) as [Hs|Hs].
  - pose proof (forallb_seq _ _ (Z.to_nat attempt) delays_ok ltac:(lia)) as Hd. apply bool_decide_eq_true in Hd. by rewrite Z2Nat.id in Hd by lia.
  - rewrite pow2_big by lia. vm_compute (f64_as_u64 _). assert (2 ^ 6 ≤ 2 ^ attempt)%Z by (apply Z.pow_le_mono_r; lia). lia.
Qed.

(** * Reconnecting *)

(** Only a shutdown ends a connection without an error. *)
Lemma closed_by_shutdown (env : ConnectEnv) : (connect_and_run env).2 = Some (Ok tt) → LoopShutdown ∈ ce_events env.
Proof.
  unfold connect_and_run. intros H. repeat case_match; simplify_eq/=. revert H. generalize (ce_events env). clear.
  induction l as [|ev evs IH]; [done|]. cbn. destruct ev as [f|e| |[]|]; try done; intros H.
  - destruct (tunnel_loop evs) as [acts r]. apply list_elem_of_further. by apply IH.
  - destruct (tunnel_loop evs) as [acts r]. apply list_elem_of_further. by apply IH.
  - apply list_elem_of_here.
Qed.

Definition fails (uptime_ok : bool) (c : Attempt) : Prop :=
  at_shutdown c = false ∧ at_shutdown_waiting c = false ∧ (∃ e, (connect_and_run (at_env c)).2 = Some (Err e)) ∧
  (uptime_ok = false → (at_uptime_ms c ≤ 60000)%Z).

(** The delay after each of a sequence of failures that come soon. *)
Definition backoff (first : nat) (n : nat) : list Z := (λ i, Z.min (1000 * 2 ^ Z.of_nat i) 60000) <$> seq first n.

Lemma failures_back_off (cs : list Attempt) (first : nat) :
  Forall (fails false) cs → (Z.of_nat first + Z.of_nat (length cs) < 2 ^ 31)%Z →
  run_client default_policy (Z.of_nat first) cs = (backoff first (length cs), BeforeAttempt (Z.of_nat (first + length cs))).
Proof.
  intros H. revert first. induction H as [|c cs (H1 & H2 & [e He] & Hup) _ IH]; intros first Hlen; cbn [length] in *.
  { cbn. by rewrite Nat.add_0_r. }
  cbn [run_client]. rewrite H1, He, H2. destruct (Z.ltb_spec 60000 (at_uptime_ms c)); [specialize (Hup eq_refl); lia|]. cbn [negb should_retry default_policy rp_max_attempts].
  assert (Z.min (2 ^ 32 - 1) (Z.of_nat first + 1) = Z.of_nat (S first))%Z as -> by lia.
  rewrite IH by lia. rewrite default_delays by lia. unfold backoff. cbn [seq fmap list_fmap]. f_equal. f_equal. lia.
Qed.

Lemma delays_bounded (cs : list Attempt) (attempt : Z) :
  Forall (fails true) cs → (0 ≤ attempt)%Z → (attempt + Z.of_nat (length cs) < 2 ^ 31)%Z →
  Forall (λ d, 1000 ≤ d ≤ 60000)%Z (run_client default_policy attempt cs).1 ∧ length (run_client default_policy attempt cs).1 = length cs ∧
  ∃ a, (run_client default_policy attempt cs).2 = BeforeAttempt a.
Proof.
  intros H. revert attempt. induction H as [|c cs (H1 & H2 & [e He] & _) _ IH]; intros attempt Ha Hlen; cbn [length] in *.
  { cbn. split_and!; [done|done|by eexists]. }
  cbn [run_client]. rewrite H1, He, H2. cbn [negb should_retry default_policy rp_max_attempts].
  set (a := if (60000 <? at_uptime_ms c)%Z then 0%Z else attempt). assert (0 ≤ a ≤ attempt)%Z as Hab by (unfold a; case_match; lia).
  assert (Z.min (2 ^ 32 - 1) (a + 1) = a + 1)%Z as -> by lia.
  destruct (IH (a + 1)%Z) as (I1 & I2 & I3); [lia|lia|]. destruct (run_client default_policy (a + 1) cs) as [ds r]. cbn [fst snd] in *.
  split_and!; [|cbn; lia|done]. constructor; [|done]. rewrite default_delays by lia.
  assert (1 ≤ 2 ^ a)%Z by (pose proof (Z.pow_pos_nonneg 2 a); lia). lia.
Qed.

(** C34: However often the connection fails, for whatever reason and after however
    long, the daemon tries again, with delays between a second and a minute;
    failures that come soon double the delay up to that. *)
Theorem reconnects_for_ever (cs : list Attempt) :
  Forall (fails true) cs → (Z.of_nat (length cs) < 2 ^ 31)%Z →
  (Forall (λ d, 1000 ≤ d ≤ 60000)%Z (run_client default_policy 0 cs).1 ∧ length (run_client default_policy 0 cs).1 = length cs ∧
   ∃ a, (run_client default_policy 0 cs).2 = BeforeAttempt a) ∧
  (Forall (fails false) cs → (run_client default_policy 0 cs).1 = backoff 0 (length cs)).
Proof.
  intros H Hlen. split; [by apply delays_bounded|]. intros Hf. change 0%Z with (Z.of_nat 0) at 1. by rewrite (failures_back_off cs 0 Hf).
Qed.

(** With a bound on the attempts, it gives up after that many delays when no
    connection lasts. *)
Lemma gives_up (p : ReconnectPolicy) (max attempt : nat) (cs : list Attempt) (c : Attempt) :
  rp_max_attempts p = Some (Z.of_nat max) → Forall (fails false) (cs ++ [c]) → attempt + length cs = max → (Z.of_nat max < 2 ^ 32)%Z →
  (run_client p (Z.of_nat attempt) (cs ++ [c])).2 = MaxAttempts.
Proof.
  intros Hp H. revert attempt. induction cs as [|c' cs IH]; intros attempt Hlen Hmax; inversion H as [|? ? (H1 & H2 & [e He] & Hup) H']; subst; cbn [app run_client].
  - rewrite H1, He. destruct (Z.ltb_spec 60000 (at_uptime_ms c)); [specialize (Hup eq_refl); lia|]. unfold should_retry. rewrite Hp. cbn in *.
    destruct (Z.ltb_spec (Z.of_nat attempt) (Z.of_nat (attempt + 0))); [lia|done].
  - rewrite H1, He, H2. destruct (Z.ltb_spec 60000 (at_uptime_ms c')); [specialize (Hup eq_refl); lia|]. unfold should_retry at 1. rewrite Hp. cbn [length] in *.
    destruct (Z.ltb_spec (Z.of_nat attempt) (Z.of_nat (attempt + S (length cs)))); [|lia]. cbn [negb].
    assert (Z.min (2 ^ 32 - 1) (Z.of_nat attempt + 1) = Z.of_nat (S attempt))%Z as -> by lia.
    specialize (IH H' (S attempt)). destruct (run_client p (Z.of_nat (S attempt)) (cs ++ [c])) as [ds r]. cbn. apply IH; lia.
Qed.

Definition refused : Attempt :=
  mkAttempt false (mkConnectEnv (Ok tt) (Ok tt) (Err (mkStatus Unauthenticated "Invalid credentials")) (Ok true) (λ _, true) (Ok tt) message []) 5 false.

Lemma default_delays_witness : delay_for_attempt default_policy 1500 = 60000%Z.
Proof. rewrite (default_delays 1500); [|lia]. vm_compute. reflexivity. Defined.

Lemma reconnects_for_ever_witness :
  (run_client default_policy 0 (replicate 8 refused)).1 = [1000; 2000; 4000; 8000; 16000; 32000; 60000; 60000]%Z.
Proof.
  destruct (reconnects_for_ever (replicate 8 refused)) as [_ H].
  - apply Forall_replicate. split; [reflexivity|]. split; [reflexivity|]. split; [by eexists|discriminate].
  - reflexivity.
  - rewrite H; [vm_compute; reflexivity|]. apply Forall_replicate. split; [reflexivity|]. split; [reflexivity|]. split; [by eexists|]. intros _. vm_compute. discriminate.
Defined.
