(* ===== verification/Certificates.v ===== *)
(** Client certificates of the daemon and the TLS of the relay.

    Models crates/betcode-crypto/src/certs.rs,
    crates/betcode-daemon/src/tunnel/cert_rotation.rs, the client identity of
    tunnel/client.rs, crates/betcode-cli/src/daemon_cmd.rs,
    crates/betcode-setup/src/cert_provisioning.rs,
    crates/betcode-relay/src/tls/ and the choice of the TLS mode in the relay's
    main.rs.  Keys are generated by the class [CertLib]; an operation on a file
    fails when the environment says so. *)
From stdpp Require Import gmap strings list pretty.
From Stdlib Require Import ZArith Lia.
From S2P Require Import Prelude Protocol Utf8 Json JsonFile Worktrees.
From S2P Require Import RelayAuth RelayTunnel TunnelReconnect.

(** * Certificates *)

(** What the code relies on of X.509: a certificate is accepted for the
    authority that signed it and no other, and has one key. *)
Class CertLib := {
  KeyPair : Type;
  ca_pem : string → KeyPair → string;                       (** organisation, key *)
  client_pem : string → KeyPair → string → KeyPair → string;  (** authority, common name, key *)
  server_pem : string → KeyPair → list string → KeyPair → string;
  key_pem : KeyPair → string;
  verifies : string → string → bool;                        (** certificate, authority *)
  key_matches : string → string → bool;
  cert_info : string → option (string * string);            (** common name and serial number *)
  verifies_own org k m key : verifies (client_pem org k m key) (ca_pem org k) = true;
  verifies_only org k m key org' k' : verifies (client_pem org k m key) (ca_pem org' k') = true → k = k';
  key_matches_own org k m key : key_matches (client_pem org k m key) (key_pem key) = true;
  key_matches_only org k m key key' : key_matches (client_pem org k m key) (key_pem key') = true → key = key';
  cert_info_cn org k m key : fst <$> cert_info (client_pem org k m key) = Some m
}.

Definition default_validity_days : Z := 365.
Definition certs_subdir : string := ".betcode/certs".
Definition metadata_filename : string := "cert-metadata.json".

Record CertMetadata := mkCertMetadata {
  cm_machine_id : string;
  cm_generated_at : Z;
  cm_validity_days : Z
}.

#[export] Instance CertMetadata_eq_dec : EqDecision CertMetadata.
Proof. solve_decision. Defined.

Definition u64_max : Z := (2 ^ 64 - 1)%Z.

Definition expires_at (m : CertMetadata) : Z := wrap_u64 (cm_generated_at m + wrap_u64 (cm_validity_days m * 86400)).

Definition expires_within_days (now days : Z) (m : CertMetadata) : bool :=
  (expires_at m <=? Z.min u64_max (now + wrap_u64 (days * 86400)))%Z.

(** The value that the struct is printed as. *)
Definition metadata_json (m : CertMetadata) : Json :=
  JObj [("generated_at_secs", JInt (cm_generated_at m)); ("machine_id", JStr (cm_machine_id m)); ("validity_days", JInt (cm_validity_days m))].

Definition read_metadata_json (v : Json) : option CertMetadata :=
  if struct_shape 3 v then
    machine ← required as_str (struct_field 0 "machine_id" v);
    generated ← required (uint 64) (struct_field 1 "generated_at_secs" v);
    days ← required (uint 64) (struct_field 2 "validity_days" v);
    Some (mkCertMetadata machine generated days)
  else None.

(** * Files

    Errors with a context are written as the context and the cause. *)

Record CertDisk := mkCertDisk {
  cd_dirs : gset string;
  cd_files : gmap string string;
  cd_private : gset string          (** readable by the owner only *)
}.

Definition set_cert_files (f : gmap string string) (d : CertDisk) : CertDisk := mkCertDisk (cd_dirs d) f (cd_private d).

Inductive FileOp := MakeDir | WriteCert | WriteKey | WriteCa | ChmodKey | WriteMeta.

(** Which operations fail, with the error and, for a write, what it leaves of
    the file: [None] when it was not opened. *)
Definition Failures := FileOp → option (string * option string).

Definition no_failures : Failures := λ _, None.

(** What reading an absent file gives. *)
Definition not_found : string := "No such file or directory (os error 2)".

Section Files.
Context (fails : Failures).

Definition write_file (op : FileOp) (prefix path content : string) (d : CertDisk) : CertDisk * result string unit :=
  match fails op with
  | None => (set_cert_files (<[path := content]> (cd_files d)) d, Ok tt)
  | Some (e, None) => (d, Err (prefix +:+ e))
  | Some (e, Some rest) => (set_cert_files (<[path := rest]> (cd_files d)) d, Err (prefix +:+ e))
  end.

Definition restrict_key_permissions (path : string) (d : CertDisk) : CertDisk * result string unit :=
  match fails ChmodKey with
  | None => (mkCertDisk (cd_dirs d) (cd_files d) ({[path]} ∪ cd_private d), Ok tt)
  | Some (e, _) => (d, Err ("Failed to set permissions on " +:+ path +:+ ": " +:+ e))
  end.

Definition create_dir (path : string) (d : CertDisk) : CertDisk * result string unit :=
  match fails MakeDir with
  | None => (mkCertDisk ({[path]} ∪ cd_dirs d) (cd_files d) (cd_private d), Ok tt)
  | Some (e, _) => (d, Err ("Failed to create certs directory: " +:+ path +:+ ": " +:+ e))
  end.

End Files.

(** The next step, unless one failed. *)
Definition and_then {A : Type} (x : CertDisk * result string unit) (f : CertDisk → CertDisk * result string A) : CertDisk * result string A :=
  match x with (d, Ok _) => f d | (d, Err e) => (d, Err e) end.

Definition path_there (p : string) (d : CertDisk) : bool := bool_decide (p ∈ cd_dirs d) || bool_decide (is_Some (cd_files d !! p)).

Section Certificates.
Context {CL : CertLib} {JT : JsonText} {JP : JsonPretty}.

Definition read_cert_metadata (dir : string) (d : CertDisk) : option CertMetadata :=
  text ← cd_files d !! path_join dir metadata_filename; v ← json_parse text; read_metadata_json v.

Definition write_cert_metadata (fails : Failures) (dir : string) (m : CertMetadata) (d : CertDisk) : CertDisk * result string unit :=
  let path := path_join dir metadata_filename in
  write_file fails WriteMeta ("Failed to write " +:+ path +:+ ": ") path (json_pretty (metadata_json m)) d.

(** ** Generation (certs.rs) *)

Record CaBundle := mkCaBundle { ca_org : string; ca_key : KeyPair; ca_cert_pem : string }.
Record ClientCertBundle := mkClientBundle { cb_cert : string; cb_key : string; cb_ca : string }.

Definition cert_error (e : string) : string := "Certificate generation error: " +:+ e.

Definition generate_ca (org : string) (key : result string KeyPair) : result string CaBundle :=
  match key with Ok k => Ok (mkCaBundle org k (ca_pem org k)) | Err e => Err (cert_error e) end.

Definition generate_client_cert (ca : CaBundle) (machine : string) (key : result string KeyPair) : result string ClientCertBundle :=
  match key with
  | Ok k => Ok (mkClientBundle (client_pem (ca_org ca) (ca_key ca) machine k) (key_pem k) (ca_cert_pem ca))
  | Err e => Err (cert_error e)
  end.

(** ** What is generated where *)

Definition client_cert_path (dir : string) : string := path_join dir "client.pem".
Definition client_key_path (dir : string) : string := path_join dir "client-key.pem".
Definition ca_cert_path (dir : string) : string := path_join dir "ca.pem".

(** What the key generator, the file system and the clock answer. *)
Record CertEnv := mkCertEnv {
  ce_ca_key : result string KeyPair;
  ce_client_key : result string KeyPair;
  ce_fails : Failures;
  ce_now : Z
}.

Definition cert_now (env : CertEnv) (machine : string) : CertMetadata := mkCertMetadata machine (ce_now env) default_validity_days.

Definition new_bundle (env : CertEnv) (machine : string) : result string ClientCertBundle :=
  match generate_ca "BetCode" (ce_ca_key env) with
  | Err e => Err ("CA generation failed: " +:+ e)
  | Ok ca =>
      match generate_client_cert ca machine (ce_client_key env) with
      | Err e => Err ("Client cert generation failed: " +:+ e)
      | Ok b => Ok b
      end
  end.

(** ** Rotation (cert_rotation.rs) *)

Definition rotate_cert_in_dir (env : CertEnv) (dir machine : string) (d : CertDisk) : CertDisk * result string unit :=
  match new_bundle env machine with
  | Err e => (d, Err e)
  | Ok b =>
      let fails := ce_fails env in
      and_then (write_file fails WriteCert "Failed to write client cert: " (client_cert_path dir) (cb_cert b) d) (λ d,
      and_then (write_file fails WriteKey "Failed to write client key: " (client_key_path dir) (cb_key b) d) (λ d,
      and_then (write_file fails WriteCa "Failed to write CA cert: " (ca_cert_path dir) (cb_ca b) d) (λ d,
      and_then (restrict_key_permissions fails (client_key_path dir) d) (λ d,
      write_cert_metadata fails dir (cert_now env machine) d))))
  end.

Inductive RotationResult := Rotated (machine : string) | NotNeeded | RotationFailed (e : string) | NoMetadata.

Definition renewal_threshold_days : Z := 30.

Definition check_and_rotate (env : CertEnv) (dir : string) (d : CertDisk) : CertDisk * RotationResult :=
  match read_cert_metadata dir d with
  | None => (d, NoMetadata)
  | Some m =>
      if expires_within_days (ce_now env) renewal_threshold_days m then
        match rotate_cert_in_dir env dir (cm_machine_id m) d with
        | (d', Ok _) => (d', Rotated (cm_machine_id m))
        | (d', Err e) => (d', RotationFailed e)
        end
      else (d, NotNeeded)
  end.

Definition force_rotate (env : CertEnv) (dir fallback : string) (d : CertDisk) : CertDisk * RotationResult :=
  let machine := default fallback (cm_machine_id <$> read_cert_metadata dir d) in
  match rotate_cert_in_dir env dir machine d with
  | (d', Ok _) => (d', Rotated machine)
  | (d', Err e) => (d', RotationFailed e)
  end.

Definition default_certs_dir (home : option string) : option string := (λ h, path_join h certs_subdir) <$> home.

(** The daemon's monitor: its ticks after the first, which it skips. *)
Inductive MonitorEvent := MonitorTick (env : CertEnv) | MonitorShutdown.

Fixpoint monitor_loop (dir : string) (evs : list MonitorEvent) (d : CertDisk) : CertDisk * list RotationResult :=
  match evs with
  | MonitorTick env :: rest =>
      let '(d1, r) := check_and_rotate env dir d in
      let '(d2, rs) := monitor_loop dir rest d1 in (d2, r :: rs)
  | _ => (d, [])
  end.

Definition spawn_cert_monitor (home : option string) (evs : list MonitorEvent) (d : CertDisk) : CertDisk * list RotationResult :=
  match default_certs_dir home with
  | None => (d, [])
  | Some dir => if path_there dir d then monitor_loop dir evs d else (d, [])
  end.

(** ** The command (daemon_cmd.rs) *)

Definition run_rotate_cert (env : CertEnv) (home dir_override machine_override : option string) (d : CertDisk)
  : CertDisk * result string unit :=
  match (match dir_override with Some p => Some p | None => default_certs_dir home end) with
  | None => (d, Err "Cannot determine home directory")
  | Some dir =>
      if negb (path_there dir d) then
        (d, Err ("Certificate directory " +:+ dir +:+ " does not exist. Run `betcode-setup daemon` first."))
      else
        match (match machine_override with Some m => Some m | None => cm_machine_id <$> read_cert_metadata dir d end) with
        | None => (d, Err "No machine ID found. Provide --machine-id or run `betcode-setup daemon` first.")
        | Some machine =>
            match new_bundle env machine with
            | Err e => (d, Err e)
            | Ok b =>
                let fails := ce_fails env in
                and_then (write_file fails WriteCert "Failed to write client certificate: " (client_cert_path dir) (cb_cert b) d) (λ d,
                and_then (write_file fails WriteKey "Failed to write client key: " (client_key_path dir) (cb_key b) d) (λ d,
                and_then (write_file fails WriteCa "Failed to write CA certificate: " (ca_cert_path dir) (cb_ca b) d) (λ d,
                and_then (restrict_key_permissions fails (client_key_path dir) d) (λ d,
                write_cert_metadata fails dir (cert_now env machine) d))))
            end
        end
  end.

(** ** Set-up (cert_provisioning.rs) *)

Definition provision_client_cert (env : CertEnv) (dir machine : string) (d : CertDisk) : CertDisk * result string unit :=
  let fails := ce_fails env in
  and_then (create_dir fails dir d) (λ d,
  match new_bundle env machine with
  | Err e => (d, Err e)
  | Ok b =>
      and_then (write_file fails WriteCert ("Failed to write client certificate: " +:+ client_cert_path dir +:+ ": ") (client_cert_path dir) (cb_cert b) d) (λ d,
      and_then (write_file fails WriteKey ("Failed to write client key: " +:+ client_key_path dir +:+ ": ") (client_key_path dir) (cb_key b) d) (λ d,
      and_then (write_file fails WriteCa ("Failed to write CA certificate: " +:+ ca_cert_path dir +:+ ": ") (ca_cert_path dir) (cb_ca b) d) (λ d,
      and_then (write_file fails WriteMeta ("Failed to write cert metadata: " +:+ path_join dir metadata_filename +:+ ": ")
        (path_join dir metadata_filename) (json_pretty (metadata_json (cert_now env machine))) d) (λ d,
      restrict_key_permissions fails (client_key_path dir) d))))
  end).

Definition certs_exist (dir : string) (d : CertDisk) : bool :=
  path_there (client_cert_path dir) d && path_there (client_key_path dir) d && path_there (ca_cert_path dir) d.

(** betcode-setup daemon: certificates that exist are kept unless the user
    says otherwise. *)
Definition provision_mtls_certs (env : CertEnv) (home : option string) (machine : string) (overwrite : bool) (d : CertDisk)
  : CertDisk * result string unit :=
  match default_certs_dir home with
  | None => (d, Err "Cannot determine home directory")
  | Some dir => if certs_exist dir d && negb overwrite then (d, Ok tt) else provision_client_cert env dir machine d
  end.

(** ** The identity of the daemon (client.rs) *)

Definition discover_client_certs (home : option string) (d : CertDisk) : option (string * string) :=
  h ← home;
  let dir := path_join (path_join h ".betcode") "certs" in
  if path_there (client_cert_path dir) d && path_there (client_key_path dir) d
  then Some (client_cert_path dir, client_key_path dir) else None.

Definition read_pem (what path : string) (d : CertDisk) : result TunnelClientError string :=
  match cd_files d !! path with
  | Some t => Ok t
  | None => Err (TcConnection ("Failed to read client " +:+ what +:+ " " +:+ path +:+ ": " +:+ not_found +:+ ". Run `betcode-setup daemon` to provision certificates."))
  end.

Definition apply_client_identity (cert key home : option string) (d : CertDisk) : result TunnelClientError (option (string * string)) :=
  match (match cert, key with Some c, Some k => Some (c, k) | _, _ => discover_client_certs home d end) with
  | None => Ok None
  | Some (c, k) => let? cert_text := read_pem "cert" c d in let? key_text := read_pem "key" k d in Ok (Some (cert_text, key_text))
  end.

(** * The relay's TLS (tls/, main.rs) *)

Inductive TlsMode := TlsDisabled | DevSelfSigned (dir : string) | TlsCustom (cert key : string).

Record RelayTlsArgs := mkRelayTlsArgs {
  ra_dev_tls : bool;
  ra_tls_cert : option string;
  ra_tls_key : option string;
  ra_mtls_ca_cert : option string
}.

Record ServerTls := mkServerTls {
  st_identity : string * string;
  st_client_ca : option string       (** client certificates are optional *)
}.

Definition tls_mode (home : option string) (args : RelayTlsArgs) : result string TlsMode :=
  if ra_dev_tls args then
    match home with
    | None => Err "Cannot determine home directory"
    | Some h => Ok (DevSelfSigned (path_join (path_join h ".betcode") "certs"))
    end
  else match ra_tls_cert args, ra_tls_key args with
       | Some c, Some k => Ok (TlsCustom c k)
       | _, _ => Ok TlsDisabled
       end.

Definition write_dev_certs (fails : Failures) (dir ca cert key : string) (d : CertDisk) : CertDisk * result string unit :=
  and_then (match fails MakeDir with
            | Some (e, _) => (d, Err ("Failed to create cert dir: " +:+ e))
            | None => create_dir no_failures dir d
            end) (λ d,
  and_then (write_file fails WriteCa "Failed to write CA cert: " (ca_cert_path dir) ca d) (λ d,
  and_then (write_file fails WriteCert "Failed to write server cert: " (path_join dir "server.pem") cert d) (λ d,
  write_file fails WriteKey "Failed to write server key: " (path_join dir "server-key.pem") key d))).

Definition dev_names : list string := ["localhost"; "127.0.0.1"; "0.0.0.0"].

Definition to_server_tls_config (env : CertEnv) (mode : TlsMode) (d : CertDisk) : CertDisk * result string (option ServerTls) :=
  match mode with
  | TlsDisabled => (d, Ok None)
  | DevSelfSigned dir =>
      match generate_ca "BetCode Dev" (ce_ca_key env), ce_client_key env with
      | Ok ca, Ok k =>
          let cert := server_pem (ca_org ca) (ca_key ca) dev_names k in
          and_then (write_dev_certs (ce_fails env) dir (ca_cert_pem ca) cert (key_pem k) d) (λ d, (d, Ok (Some (mkServerTls (cert, key_pem k) None))))
      | Err e, _ => (d, Err ("Certificate generation error: " +:+ e))
      | _, Err e => (d, Err ("Certificate generation error: " +:+ cert_error e))
      end
  | TlsCustom cert key =>
      match cd_files d !! cert with
      | None => (d, Err ("File read error: Failed to read cert " +:+ cert +:+ ": " +:+ not_found))
      | Some c =>
          match cd_files d !! key with
          | None => (d, Err ("File read error: Failed to read key " +:+ key +:+ ": " +:+ not_found))
          | Some k => (d, Ok (Some (mkServerTls (c, k) None)))
          end
      end
  end.

Definition apply_mtls (tls : ServerTls) (client_ca : string) : ServerTls := mkServerTls (st_identity tls) (Some client_ca).

(** The start of the relay: its TLS, and whether tunnels need a certificate. *)
Definition relay_tls (env : CertEnv) (home : option string) (args : RelayTlsArgs) (d : CertDisk)
  : CertDisk * result string (option ServerTls * bool) :=
  let mtls_enabled := bool_decide (is_Some (ra_mtls_ca_cert args)) in
  match tls_mode home args with
  | Err e => (d, Err e)
  | Ok mode =>
      match to_server_tls_config env mode d with
      | (d', Err e) => (d', Err e)
      | (d', Ok tls) =>
          match ra_mtls_ca_cert args, tls with
          | Some path, Some t =>
              match cd_files d' !! path with
              | None => (d', Err ("Failed to read mTLS CA cert " +:+ path +:+ ": " +:+ not_found))
              | Some ca => (d', Ok (Some (apply_mtls t ca), mtls_enabled))
              end
          | _, _ => (d', Ok (tls, mtls_enabled))
          end
      end
  end.

(** ** The start of the relay (main.rs) *)

Record RelayOptions := mkRelayOptions {
  ro_addr : string;
  ro_db_path : option string;
  ro_jwt_secret : string;
  ro_access_ttl : Z;
  ro_refresh_ttl : Z;
  ro_refresh_grace_period : Z;
  ro_request_timeout : Z;
  ro_tls : RelayTlsArgs;
  ro_buffer_ttl : Z;
  ro_buffer_cap : nat
}.

(** The options of a service that is started with an address, a certificate
    and its key; what has a variable is read from the environment. *)
Definition relay_options (addr tls_cert tls_key : option string) (vars : string → option string) : option RelayOptions :=
  secret ← vars "BETCODE_JWT_SECRET";
  Some (mkRelayOptions (default "0.0.0.0:443" addr) (vars "BETCODE_DB_PATH") secret 3600 604800 30 30
          (mkRelayTlsArgs false tls_cert tls_key None) 86400 1000).

Record RelayServer := mkRelayServer {
  rv_addr : string;
  rv_db_path : string;
  rv_auth : AuthServiceImpl;
  rv_buffer : BufferManager;
  rv_request_timeout : Z;
  rv_tls : option ServerTls;
  rv_mtls : bool
}.

Definition jwt_secret_error_text (e : JwtSecretError) : string :=
  match e with
  | InsecureDefault => "JWT secret is the insecure default 'dev-secret-change-me'. Set BETCODE_JWT_SECRET or --jwt-secret"
  | TooShort len => "JWT secret must be at least " +:+ pretty MIN_SECRET_LENGTH +:+ " bytes, got " +:+ pretty len
  end.

Definition relay_db_path (home : option string) (o : RelayOptions) : result string string :=
  match ro_db_path o, home with
  | Some p, _ => Ok p
  | None, Some h => Ok (path_join (path_join h ".betcode") "relay.db")
  | None, None => Err "Cannot determine home directory"
  end.

(** Up to the server that is served; opening the database succeeds. *)
Definition relay_main (env : CertEnv) (home : option string) (o : RelayOptions) (d : CertDisk) : CertDisk * result string RelayServer :=
  match validate_jwt_secret (ro_jwt_secret o), relay_db_path home o with
  | Err e, _ => (d, Err (jwt_secret_error_text e))
  | _, Err e => (d, Err e)
  | Ok _, Ok db =>
      match relay_tls env home (ro_tls o) d with
      | (d', Err e) => (d', Err e)
      | (d', Ok (tls, mtls)) =>
          (d', Ok (mkRelayServer (ro_addr o) db (mkAuth (mkJwt (ro_access_ttl o) (ro_refresh_ttl o)) (ro_refresh_grace_period o))
                     (mkBufferManager (ro_buffer_ttl o) (ro_buffer_cap o)) (ro_request_timeout o) tls mtls))
      end
  end.

(** A handshake, from the relay's side: [None] when it fails, else the
    certificate the client has shown.  It is asked for one only when there is
    an authority to check it against. *)
Definition handshake (tls : option ServerTls) (identity : option (string * string)) : option (option string) :=
  match tls ≫= st_client_ca, identity with
  | Some ca, Some (cert, key) => if verifies cert ca && key_matches cert key then Some (Some cert) else None
  | _, _ => Some None
  end.

Definition extract_peer_cert_info (shown : option string) : option (string * string) := shown ≫= cert_info.

End Certificates.
