(* ===== verification/CertificatesCorrect.v ===== *)
(** Certificates: the monitor keeps them from expiring, and what rotation and
    the relay's options make of them. *)
From stdpp Require Import gmap strings list pretty.
From Stdlib Require Import ZArith Lia.
From S2P Require Import Prelude Protocol Utf8 Json JsonFile Worktrees.
From S2P Require Import RelayStore RelayTunnel TunnelReconnect Certificates.

(** * Paths *)

Lemma prefix_app_inj (p q r : string) : p +:+ q = p +:+ r → q = r.
Proof. induction p as [|c p IH]; [done|]. rewrite !string_app_cons. intros [= H]. by apply IH. Qed.

Lemma path_join_inj (p q r : string) : starts_with "/" q = false → starts_with "/" r = false → path_join p q = path_join p r → q = r.
Proof.
  intros Hq Hr. unfold path_join. rewrite Hq, Hr. destruct (_ || _); intros H; apply prefix_app_inj in H; [done|].
  by apply prefix_app_inj in H.
Qed.

Lemma path_join_ne (p q r : string) : starts_with "/" q = false → starts_with "/" r = false → q ≠ r → path_join p q ≠ path_join p r.
Proof. intros Hq Hr Hne H. by apply Hne, (path_join_inj p). Qed.

Ltac other_file := by apply path_join_ne.

Section Correct.
Context {CL : CertLib} {JT : JsonText} {JP : JsonPretty}.

(** * Metadata *)

Definition clock_ok (now : Z) : Prop := (0 ≤ now < 2 ^ 63)%Z.

Lemma metadata_reads_back (env : CertEnv) (machine : string) : clock_ok (ce_now env) →
  json_parse (json_pretty (metadata_json (cert_now env machine))) = Some (metadata_json (cert_now env machine)) ∧
  read_metadata_json (metadata_json (cert_now env machine)) = Some (cert_now env machine).
Proof.
  intros Hn. unfold clock_ok in Hn. split.
  - apply parse_pretty. cbn. rewrite !andb_true_iff, Z.leb_le, Z.ltb_lt. repeat split; lia.
  - unfold read_metadata_json. eval_keys. by rewrite !uint_int by (unfold default_validity_days; lia).
Qed.

(** * What the operations do with the files *)

Lemma file_write_ok (fails : Failures) (op : FileOp) (e path content : string) (d d' : CertDisk) :
  write_file fails op e path content d = (d', Ok tt) → fails op = None ∧ d' = set_cert_files (<[path := content]> (cd_files d)) d.
Proof. unfold write_file. destruct (fails op) as [[? []]|]; [done..|]. by intros [= <-]. Qed.

(** A write changes its file at most. *)
Lemma write_other (fails : Failures) (op : FileOp) (e path content p : string) (d : CertDisk) : p ≠ path →
  cd_files (write_file fails op e path content d).1 !! p = cd_files d !! p.
Proof. intros Hp. unfold write_file. destruct (fails op) as [[? []]|]; cbn; by rewrite ?lookup_insert_ne. Qed.

Lemma restrict_files (fails : Failures) (path : string) (d : CertDisk) : cd_files (restrict_key_permissions fails path d).1 = cd_files d.
Proof. unfold restrict_key_permissions. by destruct (fails ChmodKey) as [[]|]. Qed.

(** What a directory holds after new certificates were written. *)
Record bundle_in (dir machine : string) (ka kc : KeyPair) (now : Z) (d : CertDisk) : Prop := {
  bi_cert : cd_files d !! client_cert_path dir = Some (client_pem "BetCode" ka machine kc);
  bi_key : cd_files d !! client_key_path dir = Some (key_pem kc);
  bi_ca : cd_files d !! ca_cert_path dir = Some (ca_pem "BetCode" ka);
  bi_metadata : read_cert_metadata dir d = Some (mkCertMetadata machine now default_validity_days);
  bi_private : client_key_path dir ∈ cd_private d
}.

Lemma new_bundle_ok (env : CertEnv) (machine : string) (b : ClientCertBundle) : new_bundle env machine = Ok b →
  ∃ ka kc, ce_ca_key env = Ok ka ∧ ce_client_key env = Ok kc ∧
    b = mkClientBundle (client_pem "BetCode" ka machine kc) (key_pem kc) (ca_pem "BetCode" ka).
Proof.
  unfold new_bundle, generate_ca. destruct (ce_ca_key env) as [ka|]; [|done]. unfold generate_client_cert.
  destruct (ce_client_key env) as [kc|]; [|done]. intros [= <-]. by exists ka, kc.
Qed.

Lemma and_then_ok {A : Type} (x : CertDisk * result string unit) (f : CertDisk → CertDisk * result string A) (d' : CertDisk) (r : A) :
  and_then x f = (d', Ok r) → ∃ d, x = (d, Ok tt) ∧ f d = (d', Ok r).
Proof. unfold and_then. destruct x as [d [[]|]]; [|done]. eauto. Qed.

Lemma restrict_ok (fails : Failures) (path : string) (d d' : CertDisk) :
  restrict_key_permissions fails path d = (d', Ok tt) → d' = mkCertDisk (cd_dirs d) (cd_files d) ({[path]} ∪ cd_private d).
Proof. unfold restrict_key_permissions. destruct (fails ChmodKey) as [[]|]; [done|]. by intros [= <-]. Qed.

Ltac lookup_files := cbn; repeat first [rewrite lookup_insert_eq | rewrite lookup_insert_ne by other_file]; reflexivity.

Lemma rotate_writes_all (env : CertEnv) (dir machine : string) (d d' : CertDisk) : clock_ok (ce_now env) →
  rotate_cert_in_dir env dir machine d = (d', Ok tt) →
  ∃ ka kc, ce_ca_key env = Ok ka ∧ ce_client_key env = Ok kc ∧ bundle_in dir machine ka kc (ce_now env) d'.
Proof.
  intros Hn. unfold rotate_cert_in_dir. destruct (new_bundle env machine) as [b|] eqn:Hb; [|done].
  apply new_bundle_ok in Hb as (ka & kc & Hka & Hkc & ->). cbn [cb_cert cb_key cb_ca].
  intros (d1 & [_ ->]%file_write_ok & (d2 & [_ ->]%file_write_ok & (d3 & [_ ->]%file_write_ok & (d4 & ->%restrict_ok & H)%and_then_ok)%and_then_ok)%and_then_ok)%and_then_ok.
  apply file_write_ok in H as [_ ->]. exists ka, kc. split; [done|]. split; [done|].
  split; [lookup_files|lookup_files|lookup_files| |cbn; set_solver].
  unfold read_cert_metadata. cbn. rewrite lookup_insert_eq. cbn.
  destruct (metadata_reads_back env machine Hn) as [-> H2]. exact H2.
Qed.

Lemma provision_writes_all (env : CertEnv) (dir machine : string) (d d' : CertDisk) : clock_ok (ce_now env) →
  provision_client_cert env dir machine d = (d', Ok tt) →
  ∃ ka kc, ce_ca_key env = Ok ka ∧ ce_client_key env = Ok kc ∧ bundle_in dir machine ka kc (ce_now env) d'.
Proof.
  intros Hn. unfold provision_client_cert. intros (d0 & _ & H)%and_then_ok.
  destruct (new_bundle env machine) as [b|] eqn:Hb; [|done].
  apply new_bundle_ok in Hb as (ka & kc & Hka & Hkc & ->). cbn [cb_cert cb_key cb_ca] in H.
  apply and_then_ok in H as (d1 & [_ ->]%file_write_ok & (d2 & [_ ->]%file_write_ok & (d3 & [_ ->]%file_write_ok & (d4 & [_ ->]%file_write_ok & ->%restrict_ok)%and_then_ok)%and_then_ok)%and_then_ok).
  exists ka, kc. split; [done|]. split; [done|].
  split; [lookup_files|lookup_files|lookup_files| |cbn; set_solver].
  unfold read_cert_metadata. cbn. rewrite lookup_insert_eq. cbn.
  destruct (metadata_reads_back env machine Hn) as [-> H2]. exact H2.
Qed.

(** * The monitor *)

Lemma and_then_inv {A : Type} (P : CertDisk → Prop) (x : CertDisk * result string unit) (f : CertDisk → CertDisk * result string A) :
  P x.1 → (∀ d, P d → P (f d).1) → P (and_then x f).1.
Proof. unfold and_then. destruct x as [d [u|e]]; cbn; auto. Qed.

(** A write of the metadata that is cut off leaves a text that does not parse:
    a part of an object is no JSON value. *)
Definition monitor_env (env : CertEnv) : Prop :=
  clock_ok (ce_now env) ∧ ∀ e t, ce_fails env WriteMeta = Some (e, Some t) → json_parse t = None.

Definition cuts_metadata (env : CertEnv) : Prop := ∃ e t, ce_fails env WriteMeta = Some (e, Some t).

Definition succeeds (env : CertEnv) : Prop :=
  (∃ k, ce_ca_key env = Ok k) ∧ (∃ k, ce_client_key env = Ok k) ∧ ∀ op, ce_fails env op = None.

Lemma same_metadata (dir : string) (d d' : CertDisk) :
  cd_files d' !! path_join dir metadata_filename = cd_files d !! path_join dir metadata_filename → read_cert_metadata dir d' = read_cert_metadata dir d.
Proof. unfold read_cert_metadata. by intros ->. Qed.

Lemma rotate_metadata (env : CertEnv) (dir machine : string) (d : CertDisk) : monitor_env env →
  let d' := (rotate_cert_in_dir env dir machine d).1 in
  read_cert_metadata dir d' = read_cert_metadata dir d ∨ read_cert_metadata dir d' = Some (cert_now env machine) ∨
  cuts_metadata env ∧ read_cert_metadata dir d' = None.
Proof.
  intros [Hn Hi] d'. subst d'. unfold rotate_cert_in_dir. destruct (new_bundle env machine) as [b|]; [|by left].
  pose (P d' := read_cert_metadata dir d' = read_cert_metadata dir d ∨ read_cert_metadata dir d' = Some (cert_now env machine) ∨
    cuts_metadata env ∧ read_cert_metadata dir d' = None).
  assert (∀ d1 op e path content, path ≠ path_join dir metadata_filename → P d1 → P (write_file (ce_fails env) op e path content d1).1) as Hw.
  { intros d1 op e path content Hp H1. unfold P in *. rewrite (same_metadata dir d1); [done|]. apply write_other. congruence. }
  apply (and_then_inv P); [apply Hw; [other_file|by left]|intros d1 H1].
  apply (and_then_inv P); [apply Hw; [other_file|done]|intros d2 H2].
  apply (and_then_inv P); [apply Hw; [other_file|done]|intros d3 H3].
  apply (and_then_inv P); [unfold P in *; by rewrite (same_metadata dir d3) by (by rewrite restrict_files)|intros d4 H4].
  unfold write_cert_metadata, write_file. destruct (ce_fails env WriteMeta) as [[e [t|]]|] eqn:Ef; [|done|]; right.
  - right. split; [by exists e, t|]. unfold read_cert_metadata. cbn. rewrite lookup_insert_eq. cbn. by rewrite (Hi e t).
  - left. unfold read_cert_metadata. cbn. rewrite lookup_insert_eq. cbn. destruct (metadata_reads_back env machine Hn) as [-> H]. exact H.
Qed.

Lemma check_keeps_machine (env : CertEnv) (dir : string) (d : CertDisk) (m : CertMetadata) :
  monitor_env env → read_cert_metadata dir d = Some m →
  (∃ m', read_cert_metadata dir (check_and_rotate env dir d).1 = Some m' ∧ cm_machine_id m' = cm_machine_id m) ∨
  cuts_metadata env ∧ read_cert_metadata dir (check_and_rotate env dir d).1 = None.
Proof.
  intros Hi Hm. unfold check_and_rotate. rewrite Hm. destruct (expires_within_days _ _ m); [|left; by exists m].
  destruct (rotate_metadata env dir (cm_machine_id m) d Hi) as [H|[H|H]]; destruct (rotate_cert_in_dir _ _ _ d) as [d' []]; cbn in *;
    [left; rewrite H; eauto..|by right|by right].
Qed.

(** Without metadata nothing is ever renewed. *)
Lemma monitor_without_metadata (dir : string) (evs : list CertEnv) (d : CertDisk) : read_cert_metadata dir d = None →
  monitor_loop dir (MonitorTick <$> evs) d = (d, replicate (length evs) NoMetadata).
Proof. intros Hd. induction evs as [|env evs IH]; [done|]. cbn. unfold check_and_rotate. rewrite Hd. by rewrite IH. Qed.

Lemma monitor_keeps_machine (dir : string) (evs : list CertEnv) (d : CertDisk) (m : CertMetadata) :
  Forall monitor_env evs → read_cert_metadata dir d = Some m →
  let d' := (monitor_loop dir (MonitorTick <$> evs) d).1 in
  (∃ m', read_cert_metadata dir d' = Some m' ∧ cm_machine_id m' = cm_machine_id m) ∨ Exists cuts_metadata evs ∧ read_cert_metadata dir d' = None.
Proof.
  intros Hevs. revert d m. induction Hevs as [|env evs Hi _ IH]; intros d m Hm; [left; by exists m|]. cbn.
  destruct (check_keeps_machine env dir d m Hi Hm) as [(m1 & H1 & E1)|[Hc H1]]; destruct (check_and_rotate env dir d) as [d1 r]; cbn in H1.
  - specialize (IH d1 m1 H1). cbn zeta in IH. destruct (monitor_loop dir _ d1) as [d2 rs]. destruct IH as [(m2 & H2 & E2)|[Hc H2]].
    + left. exists m2. split; [done|congruence].
    + right. split; [by apply Exists_cons_tl|done].
  - rewrite (monitor_without_metadata dir evs d1 H1). right. split; [by apply Exists_cons_hd|done].
Qed.

Lemma monitor_snoc (dir : string) (evs : list CertEnv) (env : CertEnv) (d : CertDisk) :
  (monitor_loop dir (MonitorTick <$> evs ++ [env]) d).1 = (check_and_rotate env dir (monitor_loop dir (MonitorTick <$> evs) d).1).1.
Proof.
  revert d. induction evs as [|e evs IH]; intros d; cbn.
  - by destruct (check_and_rotate env dir d).
  - destruct (check_and_rotate e dir d) as [d1 r]. specialize (IH d1). destruct (monitor_loop dir (MonitorTick <$> evs ++ [env]) d1).
    by destruct (monitor_loop dir (MonitorTick <$> evs) d1).
Qed.

Lemma rotate_succeeds (env : CertEnv) (dir machine : string) (d : CertDisk) : succeeds env →
  ∃ d', rotate_cert_in_dir env dir machine d = (d', Ok tt).
Proof.
  intros ([ka Hka] & [kc Hkc] & Hf). unfold rotate_cert_in_dir, new_bundle, generate_ca. rewrite Hka. unfold generate_client_cert. rewrite Hkc.
  unfold write_cert_metadata, write_file, restrict_key_permissions. repeat (rewrite !Hf; cbn). by eexists.
Qed.

(** C33: Whatever failed before, a check that works leaves a certificate of the
    same machine that does not expire, by its metadata, in the thirty days
    that follow it; unless one of the failures cut off the writing of the
    metadata, after which the file is unreadable, and this check and every
    later one leave the certificate as it is. *)
Theorem monitored_certificate_lasts (dir : string) (evs : list CertEnv) (env : CertEnv) (d : CertDisk) (m0 : CertMetadata) :
  Forall monitor_env evs → clock_ok (ce_now env) → succeeds env → read_cert_metadata dir d = Some m0 →
  (∃ m, read_cert_metadata dir (monitor_loop dir (MonitorTick <$> evs ++ [env]) d).1 = Some m ∧ cm_machine_id m = cm_machine_id m0 ∧
    ∀ t, (ce_now env ≤ t ≤ ce_now env + 30 * 86400)%Z → expires_within_days t 0 m = false) ∨
  (Exists cuts_metadata evs ∧
    let d1 := (monitor_loop dir (MonitorTick <$> evs) d).1 in
    ∀ later, monitor_loop dir (MonitorTick <$> env :: later) d1 = (d1, replicate (S (length later)) NoMetadata)).
Proof.
  intros Hevs Hn Hs Hm0. rewrite monitor_snoc.
  destruct (monitor_keeps_machine dir evs d m0 Hevs Hm0) as [(m1 & H1 & E1)|[Hc H1]];
    [left|right; split; [done|]; intros d1 later; by apply (monitor_without_metadata dir (env :: later))].
  set (d1 := (monitor_loop dir (MonitorTick <$> evs) d).1) in *. unfold check_and_rotate. rewrite H1. unfold clock_ok in Hn.
  destruct (expires_within_days (ce_now env) renewal_threshold_days m1) eqn:He.
  - destruct (rotate_succeeds env dir (cm_machine_id m1) d1 Hs) as [d2 Hd2]. rewrite Hd2.
    destruct (rotate_writes_all env dir (cm_machine_id m1) d1 d2 Hn Hd2) as (ka & kc & _ & _ & Hb). eexists. split; [apply Hb|]. split; [done|].
    intros t Ht. unfold expires_within_days, expires_at, wrap_u64, u64_max, default_validity_days. cbn [cm_generated_at cm_validity_days].
    apply Z.leb_gt. rewrite (Z.mod_small (365 * 86400)), (Z.mod_small (0 * 86400)) by lia. rewrite (Z.mod_small (_ + _)) by lia. lia.
  - exists m1. split; [done|]. split; [done|]. intros t Ht. revert He. unfold expires_within_days, renewal_threshold_days, u64_max, wrap_u64.
    rewrite !Z.leb_gt. rewrite (Z.mod_small (30 * 86400)), (Z.mod_small (0 * 86400)) by lia. lia.
Qed.

(** A check that failed before the metadata was written is made again by the
    next. *)
Lemma failed_rotation_is_retried (e1 e2 : CertEnv) (dir : string) (d d1 : CertDisk) (m : CertMetadata) (why : string) :
  ce_fails e1 WriteMeta = None → read_cert_metadata dir d = Some m → check_and_rotate e1 dir d = (d1, RotationFailed why) →
  (ce_now e1 ≤ ce_now e2)%Z → succeeds e2 → (check_and_rotate e2 dir d1).2 = Rotated (cm_machine_id m).
Proof.
  intros Hw Hm Hc Hn Hs. unfold check_and_rotate in Hc. rewrite Hm in Hc. destruct (expires_within_days (ce_now e1) _ m) eqn:He; [|done].
  destruct (rotate_cert_in_dir e1 dir (cm_machine_id m) d) as [d' [u|e]] eqn:Hr; [done|]. injection Hc as -> _.
  assert (read_cert_metadata dir d1 = Some m) as Hm1.
  { rewrite <- Hm. revert Hr. unfold rotate_cert_in_dir. destruct (new_bundle e1 _) as [b|]; [|by intros [= <- _]].
    pose (P d' := read_cert_metadata dir d' = read_cert_metadata dir d).
    assert (∀ d1 op e path content, path ≠ path_join dir metadata_filename → P d1 → P (write_file (ce_fails e1) op e path content d1).1) as Hk.
    { intros d2 op e' path content Hp H1. unfold P in *. rewrite (same_metadata dir d2); [done|]. apply write_other. congruence. }
    pose proof (Hk d WriteCert "Failed to write client cert: " (client_cert_path dir) (cb_cert b)) as H1. destruct (write_file _ WriteCert _ _ _ d) as [da [[]|]]; cbn;
      [|intros [= <- _]; by apply H1; [other_file|]]. specialize (H1 ltac:(other_file) eq_refl).
    pose proof (Hk da WriteKey "Failed to write client key: " (client_key_path dir) (cb_key b) ltac:(other_file) H1) as H2.
    destruct (write_file _ WriteKey _ _ _ da) as [db [[]|]]; cbn; [|intros [= <- _]; exact H2].
    pose proof (Hk db WriteCa "Failed to write CA cert: " (ca_cert_path dir) (cb_ca b) ltac:(other_file) H2) as H3.
    destruct (write_file _ WriteCa _ _ _ db) as [dc [[]|]]; cbn; [|intros [= <- _]; exact H3].
    pose proof (restrict_files (ce_fails e1) (client_key_path dir) dc) as H4. destruct (restrict_key_permissions _ _ dc) as [dd [[]|]]; cbn.
    - unfold write_cert_metadata, write_file. by rewrite Hw.
    - intros [= <- _]. cbn in H4. unfold P in H3. rewrite <- H3. apply same_metadata. by rewrite H4. }
  unfold check_and_rotate. rewrite Hm1.
  assert (expires_within_days (ce_now e2) renewal_threshold_days m = true) as ->
    by (revert He; unfold expires_within_days; rewrite !Z.leb_le; lia).
  by destruct (rotate_succeeds e2 dir (cm_machine_id m) d1 Hs) as [d2 ->].
Qed.

(** * What the relay accepts *)

(** Where the set-up writes is where the daemon looks. *)
Lemma certs_dir_found (h : string) : path_join (path_join h ".betcode") "certs" = path_join h certs_subdir.
Proof.
  assert (∀ p q, starts_with "/" q = false → path_join p q = if bool_decide (p = EmptyString) || ends_with_slash p then p +:+ q else p +:+ "/" +:+ q) as Hj
    by (intros p q Hq; unfold path_join; by rewrite Hq).
  assert (∀ p, ends_with_slash (p +:+ ".betcode") = false) as Hs.
  { intros p. assert (String.length (p +:+ ".betcode") = String.length p + 8) as Hl by (induction p as [|c p IH]; [done|rewrite string_app_cons; cbn; by rewrite IH]).
    assert (String.get (String.length p + 7) (p +:+ ".betcode") = Some (byte 101)) as Hg by (induction p as [|c p IH]; [done|rewrite string_app_cons; apply IH; by injection Hl]).
    unfold ends_with_slash. rewrite Hl. by replace (String.length p + 8 - 1) with (String.length p + 7) by lia; rewrite Hg. }
  assert (∀ p, bool_decide (p +:+ ".betcode" = EmptyString) = false) as He.
  { intros p. apply bool_decide_eq_false. by destruct p. }
  rewrite (Hj h ".betcode"), (Hj h certs_subdir) by done. destruct (_ || _) eqn:E; rewrite Hj by done.
  - rewrite Hs, He. cbn [orb]. by rewrite <- string_app_assoc.
  - rewrite (string_app_assoc h "/" ".betcode"), Hs, He. cbn [orb]. by rewrite <- !string_app_assoc.
Qed.

Definition certs_dir_of (h : string) : string := path_join (path_join h ".betcode") "certs".

Lemma identity_of_bundle (h machine : string) (ka kc : KeyPair) (now : Z) (d : CertDisk) :
  bundle_in (certs_dir_of h) machine ka kc now d →
  apply_client_identity None None (Some h) d = Ok (Some (client_pem "BetCode" ka machine kc, key_pem kc)).
Proof.
  intros [H1 H2 _ _ _]. unfold apply_client_identity, discover_client_certs. cbn [mbind option_bind]. fold (certs_dir_of h).
  unfold path_there. rewrite H1, H2. rewrite !(bool_decide_eq_true_2 (is_Some (Some _))) by eauto. rewrite !orb_true_r. cbn.
  unfold read_pem. by rewrite H1, H2.
Qed.

Lemma handshake_own (org m : string) (k key : KeyPair) (server : string * string) :
  handshake (Some (mkServerTls server (Some (ca_pem org k)))) (Some (client_pem org k m key, key_pem key)) = Some (Some (client_pem org k m key)).
Proof. unfold handshake. cbn. by rewrite verifies_own, key_matches_own. Qed.

Lemma handshake_other (org org' m : string) (k k' key : KeyPair) (server : string * string) : k ≠ k' →
  handshake (Some (mkServerTls server (Some (ca_pem org' k')))) (Some (client_pem org k m key, key_pem key)) = None.
Proof.
  intros Hne. unfold handshake. cbn. destruct (verifies _ _) eqn:Hv; [|done]. by apply verifies_only in Hv.
Qed.

(** C28: A rotation locks the daemon out: a relay that trusts the authority of the
    set-up accepts the daemon before it, for its own machine only, and fails
    its handshake after it. *)
Theorem rotated_certificate_is_refused (setup rotate : CertEnv) (h machine : string) (d d1 d2 : CertDisk) (server : string * string) (ca : string)
    (frame : option TunnelFrame) (user : string) (db : RelayDatabase) :
  clock_ok (ce_now setup) → clock_ok (ce_now rotate) → ce_ca_key setup ≠ ce_ca_key rotate →
  provision_client_cert setup (certs_dir_of h) machine d = (d1, Ok tt) → cd_files d1 !! ca_cert_path (certs_dir_of h) = Some ca →
  check_and_rotate rotate (certs_dir_of h) d1 = (d2, Rotated machine) →
  let tls := Some (mkServerTls server (Some ca)) in
  (∃ id shown serial, apply_client_identity None None (Some h) d1 = Ok id ∧ handshake tls id = Some shown ∧
    extract_peer_cert_info shown = Some (machine, serial) ∧
    (∀ m, admit_tunnel true (extract_peer_cert_info shown) user frame db = Ok m → m = machine)) ∧
  (∃ id, apply_client_identity None None (Some h) d2 = Ok id ∧ handshake tls id = None).
Proof.
  intros Hn1 Hn2 Hne Hp Hca Hr. destruct (provision_writes_all _ _ _ _ _ Hn1 Hp) as (ka & kc & Hka & _ & Hb1).
  pose proof (bi_ca _ _ _ _ _ _ Hb1) as Hca'. rewrite Hca in Hca'. injection Hca' as ->. cbn zeta. split.
  - pose proof (cert_info_cn "BetCode" ka machine kc) as Hcn. destruct (cert_info _) as [[cn serial]|] eqn:Hi; [|done]. injection Hcn as ->.
    exists (Some (client_pem "BetCode" ka machine kc, key_pem kc)), (Some (client_pem "BetCode" ka machine kc)), serial.
    split; [by eapply identity_of_bundle|]. split; [apply handshake_own|]. split; [done|].
    cbn [extract_peer_cert_info mbind option_bind]. rewrite Hi. intros m. unfold admit_tunnel, check_peer_cert.
    destruct (is_certificate_revoked serial db); [done|]. cbn. case_decide; [done|]. case_decide as Hm; [|done]. cbn.
    destruct (verify_machine_ownership _ _ _); [|done]. by intros [= <-].
  - assert (rotate_cert_in_dir rotate (certs_dir_of h) machine d1 = (d2, Ok tt)) as Hrot.
    { unfold check_and_rotate in Hr. rewrite (bi_metadata _ _ _ _ _ _ Hb1) in Hr. cbn [cm_machine_id] in Hr.
      destruct (expires_within_days _ _ _); [|done]. destruct (rotate_cert_in_dir _ _ _ d1) as [d' [[]|]]; [|done]. by injection Hr as ->. }
    destruct (rotate_writes_all _ _ _ _ _ Hn2 Hrot) as (ka' & kc' & Hka' & _ & Hb2).
    eexists. split; [by eapply identity_of_bundle|]. apply handshake_other. congruence.
Qed.

(** Mutual TLS without TLS lets no daemon in. *)
Theorem mtls_without_tls_refuses_all (env : CertEnv) (home : option string) (args : RelayTlsArgs) (d d' : CertDisk)
    (tls : option ServerTls) (mtls : bool) :
  is_Some (ra_mtls_ca_cert args) → ra_dev_tls args = false → ra_tls_cert args = None →
  relay_tls env home args d = (d', Ok (tls, mtls)) →
  ∀ id shown user frame db, handshake tls id = Some shown →
    admit_tunnel mtls (extract_peer_cert_info shown) user frame db =
    Err (mkStatus Unauthenticated "Client certificate required for tunnel connections").
Proof.
  intros [ca Hca] Hdev Hcert. unfold relay_tls, tls_mode. rewrite Hca, Hdev, Hcert. cbn. intros [= <- <- <-] id shown user frame db.
  unfold handshake. cbn. intros [= <-]. reflexivity.
Qed.

(** Development TLS on the machine of the daemon replaces the authority that
    the relay was told to trust. *)
Lemma dev_tls_replaces_authority (setup relay : CertEnv) (h machine : string) (args : RelayTlsArgs) (d d1 d2 : CertDisk)
    (tls : option ServerTls) (mtls : bool) :
  clock_ok (ce_now setup) → ce_ca_key setup ≠ ce_ca_key relay → ra_dev_tls args = true →
  ra_mtls_ca_cert args = Some (ca_cert_path (certs_dir_of h)) →
  provision_client_cert setup (certs_dir_of h) machine d = (d1, Ok tt) → relay_tls relay (Some h) args d1 = (d2, Ok (tls, mtls)) →
  ∃ id, apply_client_identity None None (Some h) d1 = Ok id ∧ handshake tls id = None.
Proof.
  intros Hn Hne Hdev Hca Hp Hr. destruct (provision_writes_all _ _ _ _ _ Hn Hp) as (ka & kc & Hka & _ & Hb). eexists. split; [by eapply identity_of_bundle|].
  unfold relay_tls, tls_mode in Hr. rewrite Hdev, Hca in Hr. fold (certs_dir_of h) in Hr. unfold to_server_tls_config, generate_ca in Hr.
  destruct (ce_ca_key relay) as [ka'|] eqn:Hka'; [|done]. destruct (ce_client_key relay) as [kc'|]; [|done]. cbn [ca_org ca_key ca_cert_pem] in Hr.
  destruct (and_then _ _) as [d3 [t|]] eqn:Hw; [|done]. apply and_then_ok in Hw as (d4 & Hw & [= <- <-]). unfold write_dev_certs in Hw.
  apply and_then_ok in Hw as (d5 & _ & (d6 & [_ ->]%file_write_ok & (d7 & [_ ->]%file_write_ok & [_ ->]%file_write_ok)%and_then_ok)%and_then_ok).
  cbn [cd_files set_cert_files] in Hr. rewrite !lookup_insert_ne in Hr by other_file. rewrite lookup_insert_eq in Hr. injection Hr as _ <- _.
  apply handshake_other. congruence.
Qed.

End Correct.

(** * At concrete inputs *)

#[local] Existing Instance coded_text.
#[local] Existing Instance coded_pretty.

Definition cert_fields (t : string) : option (string * nat * string * nat) := decode (of_bits t).

#[local] Instance numbered_keys : CertLib.
Proof.
  refine {| KeyPair := nat; ca_pem org k := bits_of (encode (org, k)); client_pem org k m key := bits_of (encode (org, k, m, key));
            server_pem org k names key := bits_of (encode (org, k, names, key)); key_pem k := bits_of (encode k);
            verifies c a := match cert_fields c, (decode (of_bits a) : option (string * nat)) with
                            | Some (org, k, _, _), Some (org', k') => bool_decide (org = org') && bool_decide (k = k') | _, _ => false end;
            key_matches c k := match cert_fields c, (decode (of_bits k) : option nat) with Some (_, _, _, key), Some key' => bool_decide (key = key') | _, _ => false end;
            cert_info c := (λ '(_, _, m, key), (m, pretty key)) <$> cert_fields c |}; intros org k m key; unfold cert_fields; rewrite ?of_bits_of, ?decode_encode.
  - by rewrite !bool_decide_eq_true_2.
  - intros org' k'. rewrite of_bits_of, decode_encode. by intros [_ H%bool_decide_eq_true]%andb_true_iff.
  - by rewrite bool_decide_eq_true_2.
  - intros key'. rewrite of_bits_of, decode_encode. apply bool_decide_eq_true.
  - done.
Defined.

Definition set_up : CertEnv := mkCertEnv (Ok 1) (Ok 2) no_failures 1000.
Definition next_year : CertEnv := mkCertEnv (Ok 3) (Ok 4) no_failures (1000 + 340 * 86400)%Z.
(** A disk that is full when the key is written. *)
Definition full_disk : CertEnv :=
  mkCertEnv (Ok 5) (Ok 6) (λ op, match op with WriteKey => Some ("No space left on device", Some EmptyString) | _ => None end) (1000 + 336 * 86400)%Z.

Definition no_files : CertDisk := mkCertDisk ∅ ∅ ∅.
Definition provisioned : CertDisk := (provision_client_cert set_up (certs_dir_of "/h") "m" no_files).1.

Lemma provisioned_ok : provision_client_cert set_up (certs_dir_of "/h") "m" no_files = (provisioned, Ok tt).
Proof. vm_compute. reflexivity. Qed.

Lemma provisioned_metadata : read_cert_metadata (certs_dir_of "/h") provisioned = Some (mkCertMetadata "m" 1000 365).
Proof. vm_compute. reflexivity. Qed.

(** A disk that is full when the metadata is written. *)
Definition cut_disk : CertEnv :=
  mkCertEnv (Ok 5) (Ok 6) (λ op, match op with WriteMeta => Some ("No space left on device", Some "{") | _ => None end) (1000 + 336 * 86400)%Z.

Lemma monitored_certificate_lasts_witness :
  ∃ m, read_cert_metadata (certs_dir_of "/h") (monitor_loop (certs_dir_of "/h") (MonitorTick <$> [full_disk; next_year]) provisioned).1 = Some m ∧
    expires_within_days (1000 + 365 * 86400) 0 m = false.
Proof.
  destruct (monitored_certificate_lasts (certs_dir_of "/h") [full_disk] next_year provisioned (mkCertMetadata "m" 1000 365)) as [(m & Hm & _ & Ht)|[Hc _]].
  - repeat constructor; cbn; try lia. done.
  - split; cbn; lia.
  - split_and!; [by eexists|by eexists|done].
  - exact provisioned_metadata.
  - exists m. split; [exact Hm|]. apply Ht. cbn. lia.
  - exfalso. apply Exists_cons in Hc as [(e & t & [=])|Hc%Exists_nil]. done.
Defined.

(** A write of the metadata that is cut off ends the renewals. *)
Lemma cut_metadata_ends_renewals :
  (monitor_loop (certs_dir_of "/h") (MonitorTick <$> [cut_disk; next_year; next_year]) provisioned).2 =
    [RotationFailed ("Failed to write " +:+ path_join (certs_dir_of "/h") metadata_filename +:+ ": No space left on device"); NoMetadata; NoMetadata].
Proof. vm_compute. reflexivity. Qed.

Lemma rotated_certificate_is_refused_witness :
  let d2 := (check_and_rotate next_year (certs_dir_of "/h") provisioned).1 in
  ∃ ca id, cd_files provisioned !! ca_cert_path (certs_dir_of "/h") = Some ca ∧ apply_client_identity None None (Some "/h") d2 = Ok id ∧
    handshake (Some (mkServerTls ("cert", "key") (Some ca))) id = None.
Proof.
  intros d2. destruct (cd_files provisioned !! ca_cert_path (certs_dir_of "/h")) as [ca|] eqn:Hca; [|vm_compute in Hca; discriminate Hca].
  destruct (rotated_certificate_is_refused set_up next_year "/h" "m" no_files provisioned d2 ("cert", "key") ca None "u" empty_db) as [_ (id & H1 & H2)].
  - split; cbn; lia.
  - split; cbn; lia.
  - discriminate.
  - exact provisioned_ok.
  - exact Hca.
  - unfold d2. vm_compute. reflexivity.
  - exists ca, id. split; [reflexivity|]. split; [exact H1|exact H2].
Defined.

Lemma mtls_without_tls_refuses_all_witness :
  ∃ tls mtls, (relay_tls set_up None (mkRelayTlsArgs false None None (Some "/ca.pem")) no_files).2 = Ok (tls, mtls) ∧
    admit_tunnel mtls (extract_peer_cert_info None) "u" None empty_db =
    Err (mkStatus Unauthenticated "Client certificate required for tunnel connections").
Proof.
  exists None, true. split; [reflexivity|].
  eapply (mtls_without_tls_refuses_all set_up None (mkRelayTlsArgs false None None (Some "/ca.pem")) no_files no_files None true) with (id := None);
    [by eexists|reflexivity|reflexivity|reflexivity|reflexivity].
Defined.
