(* ===== verification/DaemonMain.v ===== *)
(** The start of the daemon: its options, and which services clients reach.

    Models crates/betcode-daemon/src/: main.rs, server/config.rs, the
    construction of the server and of its router in server/mod.rs, and
    [TunnelConfig::new] of tunnel/config.rs.  Starting the socket, logging and
    signals are left out. *)
From stdpp Require Import gmap strings list.
From Stdlib Require Import ZArith Lia SpecFloat.
From S2P Require Import Prelude Protocol Json Utf8 Completion Commands Fingerprint SessionStore RepoStore Worktrees RepoService.
From S2P Require Import Multiplexer SessionRelay EventBridge Encodings AgentService ClientConnection.
From S2P Require Import Scheduler OrchestrationStore SubagentManager SubagentService CommandIndex CommandService GitLab ClientCalls.
From S2P Require Import JsonFile TunnelHandler TunnelReconnect.

(** * The server's configuration (server/config.rs) *)

Record ServerConfig := mkServerConfig {
  sv_tcp_addr : option string;
  sv_unix_socket : option string;
  sv_max_sessions : nat;
  sv_max_clients_per_session : nat;
  sv_max_processes : nat;
  sv_heartbeat_timeout_secs : Z;
  sv_stdin_channel_size : nat;
  sv_stdout_channel_size : nat;
  sv_keepalive_interval_secs : Z;
  sv_keepalive_timeout_secs : Z
}.

Definition default_server_config : ServerConfig := mkServerConfig (Some "127.0.0.1:50051") None 10 5 5 30 32 256 30 10.

Definition server_tcp (addr : string) : ServerConfig := mkServerConfig (Some addr) None 10 5 5 30 32 256 30 10.
Definition server_unix (path : string) : ServerConfig := mkServerConfig None (Some path) 10 5 5 30 32 256 30 10.

Definition with_max_sessions (n : nat) (c : ServerConfig) : ServerConfig :=
  mkServerConfig (sv_tcp_addr c) (sv_unix_socket c) n (sv_max_clients_per_session c) (sv_max_processes c) (sv_heartbeat_timeout_secs c)
    (sv_stdin_channel_size c) (sv_stdout_channel_size c) (sv_keepalive_interval_secs c) (sv_keepalive_timeout_secs c).
Definition with_max_clients_per_session (n : nat) (c : ServerConfig) : ServerConfig :=
  mkServerConfig (sv_tcp_addr c) (sv_unix_socket c) (sv_max_sessions c) n (sv_max_processes c) (sv_heartbeat_timeout_secs c)
    (sv_stdin_channel_size c) (sv_stdout_channel_size c) (sv_keepalive_interval_secs c) (sv_keepalive_timeout_secs c).
Definition with_max_processes (n : nat) (c : ServerConfig) : ServerConfig :=
  mkServerConfig (sv_tcp_addr c) (sv_unix_socket c) (sv_max_sessions c) (sv_max_clients_per_session c) n (sv_heartbeat_timeout_secs c)
    (sv_stdin_channel_size c) (sv_stdout_channel_size c) (sv_keepalive_interval_secs c) (sv_keepalive_timeout_secs c).

(** * The tunnel's configuration (tunnel/config.rs) *)

Record TunnelConfig := mkTunnelConfig {
  tc_relay_url : string;
  tc_machine_id : string;
  tc_machine_name : string;
  tc_username : string;
  tc_password : string;
  tc_reconnect : ReconnectPolicy;
  tc_heartbeat_secs : Z;
  tc_ca_cert_path : option string;
  tc_identity_key_path : option string;
  tc_client_cert_path : option string;
  tc_client_key_path : option string
}.

Definition tunnel_config_new (url machine name user password : string) : TunnelConfig :=
  mkTunnelConfig url machine name user password default_policy 30 None None None None.

(** * The options (main.rs) *)

Record DaemonArgs := mkDaemonArgs {
  da_addr : string;
  da_db_path : option string;
  da_max_processes : nat;
  da_max_sessions : nat;
  da_relay_url : option string;
  da_machine_id : option string;
  da_machine_name : string;
  da_relay_username : option string;
  da_relay_password : option string;
  da_relay_custom_ca_cert : option string;
  da_client_cert : option string;
  da_client_key : option string;
  da_worktree_dir : option string;
  da_claude_bin : string;
  da_permission_strategy : string;
  da_terminate_timeout : Z
}.

(** The options of a daemon that is started without any, as under systemd:
    from the environment, else their defaults; [None] when one is refused. *)
Definition number_option (v : option string) (d : Z) : option Z := match v with Some s => parse_uint 64 s | None => Some d end.

Definition args_of_env (env : string → option string) : option DaemonArgs :=
  processes ← number_option (env "BETCODE_MAX_PROCESSES") 5;
  sessions ← number_option (env "BETCODE_MAX_SESSIONS") 10;
  timeout ← number_option (env "BETCODE_TERMINATE_TIMEOUT") 5;
  let strategy := default "prompt-tool-stdio" (env "BETCODE_PERMISSION_STRATEGY") in
  if decide (strategy ∈ ["prompt-tool-stdio"; "skip-permissions"]) then
    Some (mkDaemonArgs (default "127.0.0.1:50051" (env "BETCODE_ADDR")) (env "BETCODE_DB_PATH") (Z.to_nat processes) (Z.to_nat sessions)
      (env "BETCODE_RELAY_URL") (env "BETCODE_MACHINE_ID") (default "betcode-daemon" (env "BETCODE_MACHINE_NAME")) (env "BETCODE_RELAY_USERNAME")
      (env "BETCODE_RELAY_PASSWORD") (env "BETCODE_RELAY_CUSTOM_CA_CERT") (env "BETCODE_CLIENT_CERT") (env "BETCODE_CLIENT_KEY")
      (env "BETCODE_WORKTREE_DIR") (default "claude" (env "BETCODE_CLAUDE_BIN")) strategy timeout)
  else None.

Definition parse_strategy (s : string) : PermissionStrategy := if decide (s = "skip-permissions") then SkipPermissions else PromptToolStdio.

Definition in_home (home : option string) (name : string) : result string string :=
  match home with Some h => Ok (path_join (path_join h ".betcode") name) | None => Err "Cannot determine home directory" end.

Definition default_db_path (home : option string) : result string string := in_home home "daemon.db".
Definition default_worktree_dir (home : option string) : result string string := in_home home "worktrees".

Definition or_default (given : option string) (d : result string string) : result string string :=
  match given with Some p => Ok p | None => d end.

Definition main_server_config (args : DaemonArgs) : ServerConfig :=
  with_max_processes (da_max_processes args) (with_max_sessions (da_max_sessions args) (server_tcp (da_addr args))).

(** Without an identifier of its own the machine gets a new one at each start. *)
Definition main_tunnel_config (uuid : string) (args : DaemonArgs) : option TunnelConfig :=
  (λ url,
     let c := tunnel_config_new url (default uuid (da_machine_id args)) (da_machine_name args) (default EmptyString (da_relay_username args))
                (default EmptyString (da_relay_password args)) in
     mkTunnelConfig (tc_relay_url c) (tc_machine_id c) (tc_machine_name c) (tc_username c) (tc_password c) (tc_reconnect c) (tc_heartbeat_secs c)
       (da_relay_custom_ca_cert args) (tc_identity_key_path c) (da_client_cert args) (da_client_key args)) <$> da_relay_url args.

(** [gitlab_service_impl_from_env]: a failure is logged only. *)
Definition gitlab_from_env {GA : GitLabApi} (url token : option string) (build : result HttpFailure unit) : option string :=
  u ← url; if decide (u = EmptyString) then None else
  t ← token; if decide (t = EmptyString) then None else
  match gitlab_client_new u t build with Ok base => Some base | Err _ => None end.

(** * Which services are served *)

Inductive GrpcService := SvcAgent | SvcCommand | SvcConfig | SvcGitRepo | SvcGitLab | SvcSubagent | SvcVersion | SvcWorktree.

#[export] Instance GrpcService_eq_dec : EqDecision GrpcService.
Proof. solve_decision. Defined.

Definition service_of (m : Method) : GrpcService :=
  match m with
  | METHOD_GET_COMMAND_REGISTRY | METHOD_LIST_AGENTS | METHOD_LIST_PATH | METHOD_EXECUTE_SERVICE_COMMAND | METHOD_LIST_PLUGINS
  | METHOD_GET_PLUGIN_STATUS | METHOD_ADD_PLUGIN | METHOD_REMOVE_PLUGIN | METHOD_ENABLE_PLUGIN | METHOD_DISABLE_PLUGIN => SvcCommand
  | METHOD_LIST_MERGE_REQUESTS | METHOD_GET_MERGE_REQUEST | METHOD_LIST_PIPELINES | METHOD_GET_PIPELINE | METHOD_LIST_ISSUES
  | METHOD_GET_ISSUE => SvcGitLab
  | METHOD_CREATE_WORKTREE | METHOD_REMOVE_WORKTREE | METHOD_LIST_WORKTREES | METHOD_GET_WORKTREE => SvcWorktree
  | METHOD_REGISTER_REPO | METHOD_UNREGISTER_REPO | METHOD_LIST_REPOS | METHOD_GET_REPO | METHOD_UPDATE_REPO | METHOD_SCAN_REPOS
  | METHOD_LIST_BRANCHES | METHOD_CREATE_BRANCH | METHOD_DELETE_BRANCH | METHOD_GET_BRANCH => SvcGitRepo
  | METHOD_GET_SETTINGS | METHOD_UPDATE_SETTINGS | METHOD_LIST_MCP_SERVERS | METHOD_GET_PERMISSIONS => SvcConfig
  | METHOD_GET_VERSION | METHOD_NEGOTIATE_CAPABILITIES => SvcVersion
  | METHOD_SPAWN_SUBAGENT | METHOD_WATCH_SUBAGENT | METHOD_SEND_TO_SUBAGENT | METHOD_CANCEL_SUBAGENT | METHOD_LIST_SUBAGENTS
  | METHOD_CREATE_ORCHESTRATION | METHOD_WATCH_ORCHESTRATION | METHOD_REVOKE_AUTO_APPROVE => SvcSubagent
  | _ => SvcAgent
  end.

(** The services of the local socket ([build_grpc_router]). *)
Definition local_router : list GrpcService := [SvcAgent; SvcCommand; SvcConfig; SvcGitRepo; SvcSubagent; SvcVersion; SvcWorktree].

Definition served_locally (m : Method) : bool := bool_decide (service_of m ∈ local_router).

(** The services of the tunnel, as main.rs sets them. *)
Definition tunnel_services (gitlab : option string) (s : ServiceName) : bool :=
  match s with
  | CommandSvc | RepoSvc | WorktreeSvc | ConfigSvc | VersionSvc => true
  | GitLabSvc => bool_decide (is_Some gitlab)
  | SubagentSvc => false
  end.

(** * The components ([GrpcServer::new]) *)

(** What is found on the machine at the start. *)
Record DaemonWorld := mkDaemonWorld {
  dw_home : option string;
  dw_cwd : string;
  dw_files : FileTree;
  dw_disk : Disk;
  dw_index : option FileIndex;      (** [None] when building it failed *)
  dw_db : string → DaemonDb;        (** the databases by their paths *)
  dw_orchestration : OrchestrationDb
}.

Definition started_commands {JT : JsonText} (w : DaemonWorld) : CommandState :=
  let registry := foldl (λ r c, registry_add c r) registry_new (discover_all_cc_commands (dw_files w) (dw_cwd w) None).1 in
  let agents := foldl (λ l name, agent_update (mkAgentInfo name ClaudeInternal AgentIdle None) l) ∅ (discover_agents (dw_files w) (dw_cwd w)) in
  command_start (dw_cwd w) registry (default empty_index (dw_index w)) agents.

(** The server's configuration is kept for the settings service; of it only
    the number of processes reaches a component. *)
Definition grpc_server_new {JT : JsonText} (config : ServerConfig) (max_processes : nat) (db : DaemonDb) (w : DaemonWorld) : Daemon :=
  mkDaemon (mkService (relay_new max_processes default_mux_config db) ∅) (dw_disk w)
    (manager_new (pool_new (sv_max_processes config)) (dw_orchestration w)) (started_commands w) ∅.

(** The daemon and the directory of its worktrees. *)
Definition daemon_main {JT : JsonText} (args : DaemonArgs) (w : DaemonWorld) : result string (Daemon * string) :=
  let? path := or_default (da_db_path args) (default_db_path (dw_home w)) in
  let? worktrees := or_default (da_worktree_dir args) (default_worktree_dir (dw_home w)) in
  Ok (grpc_server_new (main_server_config args) (da_max_processes args) (dw_db w path) w, worktrees).

(** A call on the local socket. *)
Definition local_answer {JT : JsonText} {ST : SqlText} {SO : SqlOrder} {MC : WorktreeModeCodes} {UA : UnicodeAlphanumeric} {UC : UnicodeCase}
    {HO : HashOrder} {GT : GitTools} {GC : GitLabCodes} {GA : GitLabApi} (env : DaemonEnv) (R : Type) (q : Call R) (s : Daemon)
  : Daemon * result Status R :=
  if served_locally (call_method q) then daemon_answer env R q s else (s, Err (mkStatus Unimplemented EmptyString)).

(** Options that are parsed and have no effect. *)
Lemma unused_options {JT : JsonText} (args : DaemonArgs) (sessions : nat) (strategy : string) (w : DaemonWorld) :
  daemon_main (mkDaemonArgs (da_addr args) (da_db_path args) (da_max_processes args) sessions (da_relay_url args) (da_machine_id args)
      (da_machine_name args) (da_relay_username args) (da_relay_password args) (da_relay_custom_ca_cert args) (da_client_cert args) (da_client_key args)
      (da_worktree_dir args) (da_claude_bin args) strategy (da_terminate_timeout args)) w = daemon_main args w.
Proof. reflexivity. Qed.
