(* ===== verification/ClientCommands.v ===== *)
(** The commands of the client that make one call and print its response.

    Models crates/betcode-cli/src/: session_cmd.rs, repo_cmd.rs,
    worktree_cmd.rs, subagent_cmd.rs, gitlab_cmd.rs and gitlab_fmt.rs, on
    [ClientCalls].  A command gives what it printed and how it ended; writing
    to the standard output succeeds.  Arguments are taken as the parser of the
    command line gives them, with its defaults. *)
From stdpp Require Import gmap strings list pretty.
From Stdlib Require Import ZArith Lia SpecFloat.
From S2P Require Import Prelude Protocol Json Utf8 Fingerprint Worktrees RepoService AgentService ClientConnection.
From S2P Require Import SubagentManager SubagentService GitLab ClientCalls.

(** * Output *)

Inductive CliError := CliConnection (e : ConnectionError) | CliText (s : string).

Inductive CliEnd := CliDone | CliFailed (e : CliError) | CliPanicked.

Class CliTexts := {
  fixed4 : spec_float → string;              (** a number with four decimals *)
  merge_status_debug : MergeStatus → string
}.

Definition line (s : string) : string := s +:+ lf.

(** [{:<n}] and [{:>n}]: padding counts characters. *)
Definition spaces (n : nat) : string := repeat_char (byte 32) n.
Definition pad_right (n : nat) (s : string) : string := s +:+ spaces (n - length (chars s)).
Definition pad_left (n : nat) (s : string) : string := spaces (n - length (chars s)) +:+ s.

Fixpoint concat_text (l : list string) : string := match l with [] => EmptyString | s :: l' => s +:+ concat_text l' end.

(** gitlab_fmt.rs: by characters, with an ellipsis. *)
Definition truncate (s : string) (max : nat) : string :=
  if decide (length (chars s) ≤ max) then s else text_of (take (max - 1) (chars s)) +:+ "…".

(** subagent_cmd.rs: by bytes; [None] is a panic. *)
Definition truncate_bytes (s : string) (max : nat) : option string :=
  if decide (String.length s ≤ max) then Some s else (λ t, t +:+ "...") <$> slice_to (max - 3) s.

Definition yes_no (b : bool) : string := if b then "yes" else "no".
Definition when (b : bool) (s : string) : string := if b then s else EmptyString.
Definition not_empty (s : string) : bool := negb (bool_decide (s = EmptyString)).

Section Commands.
Context {AN : Answering} {CT : CliTexts} {MC : WorktreeModeCodes} {GC : GitLabCodes}.
Context (c : DaemonConnection) (st : an_state).

(** What a command that has made its call prints of the response. *)
Definition after {R : Type} (x : an_state * result ConnectionError R) (print : R → string * CliEnd) : an_state * (string * CliEnd) :=
  match x with
  | (st', Ok r) => (st', print r)
  | (st', Err e) => (st', (EmptyString, CliFailed (CliConnection e)))
  end.

Definition after_text {R : Type} (x : an_state * result ConnectionError R) (print : R → string) : an_state * (string * CliEnd) :=
  after x (λ r, (print r, CliDone)).

(** * Sessions (session_cmd.rs) *)

Inductive SessionAction :=
| SessionList (working_dir worktree : option string) (limit offset : nat)
| SessionRename (id name : string)
| SessionDelete (id : string)
| SessionCompact (id : string)
| SessionCancel (id : string).

Definition display_name (s : SessionSummary) : string := if decide (sum_name s = EmptyString) then sum_model s else sum_name s.

Definition session_line (s : SessionSummary) : string :=
  line (pad_right 36 (sum_id s) +:+ "  " +:+ pad_right 20 (truncate (display_name s) 20) +:+ "  " +:+ pad_right 10 (truncate (sum_status s) 10) +:+
        "  " +:+ pad_left 4 (pretty (sum_message_count s)) +:+ "  " +:+ pad_left 8 (fixed4 (sum_total_cost_usd s)) +:+ "  " +:+
        truncate (sum_last_message_preview s) 40).

Definition saturating_u32 (z : Z) : Z := Z.min (2 ^ 32 - 1) z.

Definition session_list_text (offset : nat) (resp : list SessionSummary * Z) : string :=
  match resp.1 with
  | [] => line "No sessions found."
  | sessions =>
      line (pad_right 36 "ID" +:+ "  " +:+ pad_right 20 "NAME" +:+ "  " +:+ pad_right 10 "STATUS" +:+ "  " +:+ pad_left 4 "MSGS" +:+ "  " +:+
            pad_left 8 "COST" +:+ "  PREVIEW") +:+
      concat_text (session_line <$> sessions) +:+
      line (lf +:+ "Showing " +:+ pretty (saturating_u32 (Z.of_nat offset + 1)) +:+ "-" +:+
            pretty (saturating_u32 (Z.of_nat offset + saturating_u32 (Z.of_nat (length sessions)))) +:+ " of " +:+ pretty resp.2 +:+ " session(s)")
  end.

Definition quote : string := String (byte 34) EmptyString.

Definition run_session (action : SessionAction) : an_state * (string * CliEnd) :=
  match action with
  | SessionList wd wt limit offset => after_text (list_sessions_filtered c st wd wt limit offset) (session_list_text offset)
  | SessionRename id name =>
      after_text (rename_session c st id name) (λ _, line ("Session " +:+ id +:+ " renamed to " +:+ quote +:+ name +:+ quote +:+ "."))
  | SessionDelete id =>
      after_text (delete_session c st id)
        (λ deleted, line ("Session " +:+ id +:+ (if deleted : bool then " deleted." else " not found.")))
  | SessionCompact id =>
      after_text (compact_session c st id)
        (λ r, line ("Session " +:+ id +:+ " compacted.") +:+ line ("  Messages before: " +:+ pretty (messages_before r)) +:+
              line ("  Messages after:  " +:+ pretty (messages_after r)) +:+ line ("  Tokens saved:    " +:+ pretty (tokens_saved r)))
  | SessionCancel id =>
      after_text (cancel_turn c st id)
        (λ was_active, line (if was_active : bool then "Turn cancelled for session " +:+ id +:+ "." else "No active turn in session " +:+ id +:+ "."))
  end.

(** * Repositories (repo_cmd.rs) *)

Inductive RepoAction :=
| RepoRegister (path : string) (name : option string) (mode local_subfolder custom_path setup_script : string) (no_auto_gitignore : bool)
| RepoUnregister (id : string) (remove_worktrees : bool)
| RepoList (limit offset : nat)
| RepoGet (id : string)
| RepoUpdate (id : string) (name mode local_subfolder custom_path setup_script : option string) (auto_gitignore no_auto_gitignore : bool)
| RepoScan (path : string) (max_depth : nat).

Definition parse_worktree_mode (s : string) : result string Z :=
  if decide (s = "global") then Ok (mode_i32 ProtoGlobal)
  else if decide (s = "local") then Ok (mode_i32 ProtoLocal)
  else if decide (s = "custom") then Ok (mode_i32 ProtoCustom)
  else Err ("Invalid mode '" +:+ s +:+ "': must be 'global', 'local', or 'custom'").

Definition mode_text (mode : Z) : string :=
  match mode_try_from mode with
  | Some ProtoGlobal | Some ProtoUnspecified => "global"
  | Some ProtoLocal => "local"
  | Some ProtoCustom => "custom"
  | None => "unknown"
  end.

Definition write_repo (r : GitRepoDetail) : string :=
  line ("  ID:             " +:+ grd_id r) +:+ line ("  Name:           " +:+ grd_name r) +:+ line ("  Path:           " +:+ grd_repo_path r) +:+
  line ("  Worktree mode:  " +:+ mode_text (grd_worktree_mode r)) +:+
  when (not_empty (grd_local_subfolder r)) (line ("  Local subfolder: " +:+ grd_local_subfolder r)) +:+
  when (not_empty (grd_custom_path r)) (line ("  Custom path:    " +:+ grd_custom_path r)) +:+
  when (not_empty (grd_setup_script r)) (line ("  Setup script:   " +:+ grd_setup_script r)) +:+
  line ("  Auto gitignore: " +:+ yes_no (grd_auto_gitignore r)) +:+ line ("  Worktrees:      " +:+ pretty (grd_worktree_count r)) +:+
  line ("  Created:        " +:+ pretty (grd_created_at r) +:+ " (unix)") +:+ line ("  Last active:    " +:+ pretty (grd_last_active r) +:+ " (unix)").

Definition repo_columns (r : GitRepoDetail) : string :=
  pad_right 36 (grd_id r) +:+ "  " +:+ pad_right 20 (truncate (grd_name r) 20) +:+ "  " +:+ pad_right 8 (mode_text (grd_worktree_mode r)) +:+ "  ".

Definition repo_header : string := pad_right 36 "ID" +:+ "  " +:+ pad_right 20 "NAME" +:+ "  " +:+ pad_right 8 "MODE" +:+ "  ".

Definition repo_list_text (resp : list GitRepoDetail * Z) : string :=
  match resp.1 with
  | [] => line "No repositories found."
  | repos =>
      line (repo_header +:+ pad_right 6 "WTs") +:+
      concat_text ((λ r, line (repo_columns r +:+ pad_right 6 (pretty (grd_worktree_count r)))) <$> repos) +:+
      line (if decide (0 < resp.2 ∧ resp.2 ≠ Z.of_nat (length repos))%Z
            then lf +:+ "Showing " +:+ pretty (Z.of_nat (length repos)) +:+ " of " +:+ pretty resp.2 +:+ " repository(ies)"
            else lf +:+ pretty (Z.of_nat (length repos)) +:+ " repository(ies)")
  end.

Definition repo_scan_text (resp : list GitRepoDetail * Z) : string :=
  match resp.1 with
  | [] => line "No repositories found."
  | repos =>
      line (repo_header +:+ "PATH") +:+ concat_text ((λ r, line (repo_columns r +:+ grd_repo_path r)) <$> repos) +:+
      line (lf +:+ pretty (Z.of_nat (length repos)) +:+ " repository(ies) found")
  end.

Definition run_repo (action : RepoAction) : an_state * (string * CliEnd) :=
  match action with
  | RepoRegister path name mode local custom script no_ignore =>
      match parse_worktree_mode mode with
      | Err e => (st, (EmptyString, CliFailed (CliText e)))
      | Ok m =>
          after_text (register_repo c st path (default EmptyString name) m local custom script (negb no_ignore))
            (λ r, line "Registered repository:" +:+ write_repo r)
      end
  | RepoUnregister id wts =>
      after_text (unregister_repo c st id wts)
        (λ r, if r.1 : bool
              then line ("Repository " +:+ id +:+ " unregistered.") +:+ when (0 <? r.2)%Z (line ("  Worktrees removed: " +:+ pretty (r.2 : Z)))
              else line ("Repository " +:+ id +:+ " not found."))
  | RepoList limit offset => after_text (list_repos c st limit offset) repo_list_text
  | RepoGet id => after_text (get_repo c st id) write_repo
  | RepoUpdate id name mode local custom script ignore no_ignore =>
      let call m :=
        after_text (update_repo c st id name m local custom script (if ignore then Some true else if no_ignore then Some false else None))
          (λ r, line "Updated repository:" +:+ write_repo r) in
      match mode with
      | None => call None
      | Some text =>
          match parse_worktree_mode text with
          | Err e => (st, (EmptyString, CliFailed (CliText e)))
          | Ok m => call (Some m)
          end
      end
  | RepoScan path depth => after_text (scan_repos c st path depth) repo_scan_text
  end.

(** * Worktrees (worktree_cmd.rs) *)

Inductive WorktreeAction :=
| WorktreeCreate (name repo branch : string) (setup : option string)
| WorktreeList (repo : option string)
| WorktreeGet (id : string)
| WorktreeRemove (id : string).

Definition write_worktree (w : WorktreeDetail) : string :=
  line ("  ID:       " +:+ wd_id w) +:+ line ("  Name:     " +:+ wd_name w) +:+ line ("  Branch:   " +:+ wd_branch w) +:+
  line ("  Path:     " +:+ wd_path w) +:+ line ("  Repo ID:  " +:+ wd_repo_id w) +:+
  when (not_empty (wd_setup_script w)) (line ("  Setup:    " +:+ wd_setup_script w)) +:+ line ("  On disk:  " +:+ yes_no (wd_exists_on_disk w)) +:+
  line ("  Sessions: " +:+ pretty (wd_session_count w)) +:+ line ("  Created:  " +:+ pretty (wd_created_at w) +:+ " (unix)") +:+
  line ("  Active:   " +:+ pretty (wd_last_active w) +:+ " (unix)").

Definition worktree_line (w : WorktreeDetail) : string :=
  line (pad_right 36 (wd_id w) +:+ "  " +:+ pad_right 16 (truncate (wd_name w) 16) +:+ "  " +:+ pad_right 16 (truncate (wd_branch w) 16) +:+ "  " +:+
        pad_right 6 (yes_no (wd_exists_on_disk w)) +:+ "  " +:+ pad_right 5 (pretty (wd_session_count w))).

Definition worktree_list_text (worktrees : list WorktreeDetail) : string :=
  match worktrees with
  | [] => line "No worktrees found."
  | _ =>
      line (pad_right 36 "ID" +:+ "  " +:+ pad_right 16 "NAME" +:+ "  " +:+ pad_right 16 "BRANCH" +:+ "  " +:+ pad_right 6 "DISK" +:+ "  " +:+
            pad_right 5 "SESS") +:+
      concat_text (worktree_line <$> worktrees) +:+ line (lf +:+ pretty (Z.of_nat (length worktrees)) +:+ " worktree(s)")
  end.

Definition run_worktree (action : WorktreeAction) : an_state * (string * CliEnd) :=
  match action with
  | WorktreeCreate name repo branch setup =>
      after_text (create_worktree c st name repo branch setup) (λ w, line "Created worktree:" +:+ write_worktree w)
  | WorktreeList repo => after_text (list_worktrees c st repo) worktree_list_text
  | WorktreeGet id => after_text (get_worktree c st id) write_worktree
  | WorktreeRemove id =>
      after_text (remove_worktree c st id) (λ removed, line ("Worktree " +:+ id +:+ (if removed : bool then " removed." else " not found.")))
  end.

(** * Subagents (subagent_cmd.rs) *)

(** The events of a stream, which may end with an error. *)
Inductive SubagentAction :=
| SubagentSpawn (session prompt : string) (model : option string) (max_turns : option Z)
| SubagentList (session : option string)
| SubagentCancel (id : string)
| SubagentWatch (id : string) (events : list (result Status SubagentEventKind)).

Definition format_status (s : SubagentStatus) : string :=
  match s with
  | StatusPending => "pending" | StatusRunning => "running" | StatusCompleted => "completed" | StatusFailed => "failed"
  | StatusCancelled => "cancelled" | StatusUnspecified => "unknown"
  end.

Definition write_event (e : SubagentEventKind) : string :=
  match e with
  | Started session model => line ("[started] session=" +:+ session +:+ " model=" +:+ model)
  | SubagentManager.Output text complete => text +:+ when complete (line EmptyString)
  | ToolUse _ name description => line ("[tool] " +:+ name +:+ " - " +:+ description)
  | PermissionRequest id name description => line ("[permission] " +:+ name +:+ " - " +:+ description +:+ " (id: " +:+ id +:+ ")")
  | SubagentCompleted code summary => line ("[completed] exit_code=" +:+ pretty code +:+ " summary=" +:+ summary)
  | SubagentFailed code error => line ("[failed] exit_code=" +:+ pretty code +:+ " error=" +:+ error)
  | SubagentCancelled reason => line ("[cancelled] reason=" +:+ reason)
  end.

Fixpoint write_events (events : list (result Status SubagentEventKind)) : string * CliEnd :=
  match events with
  | [] => (line "Stream ended.", CliDone)
  | Ok e :: rest => let '(out, r) := write_events rest in (write_event e +:+ out, r)
  | Err s :: _ => (EmptyString, CliFailed (CliText ("Stream error: " +:+ an_status_text s)))
  end.

(** The lines until one panics. *)
Fixpoint subagent_lines (l : list SubagentInfo) : string * bool :=
  match l with
  | [] => (EmptyString, true)
  | s :: rest =>
      match truncate_bytes (si_name s) 16 with
      | None => (EmptyString, false)
      | Some name =>
          let '(out, ok) := subagent_lines rest in
          (line (pad_right 36 (si_id s) +:+ "  " +:+ pad_right 16 name +:+ "  " +:+ pad_right 12 (format_status (si_status s)) +:+ "  " +:+ si_model s) +:+ out, ok)
      end
  end.

Definition subagent_list_text (subagents : list SubagentInfo) : string * CliEnd :=
  match subagents with
  | [] => (line "No subagents found.", CliDone)
  | _ =>
      let header := line (pad_right 36 "ID" +:+ "  " +:+ pad_right 16 "NAME" +:+ "  " +:+ pad_right 12 "STATUS" +:+ "  MODEL") in
      match subagent_lines subagents with
      | (out, false) => (header +:+ out, CliPanicked)
      | (out, true) => (header +:+ out +:+ line (lf +:+ pretty (Z.of_nat (length subagents)) +:+ " subagent(s)"), CliDone)
      end
  end.

Definition run_subagent (action : SubagentAction) : an_state * (string * CliEnd) :=
  match action with
  | SubagentSpawn session prompt model max_turns =>
      after_text (spawn_subagent c st session prompt model (default 0%Z max_turns))
        (λ id, line "Spawned subagent:" +:+ line ("  Subagent ID: " +:+ id) +:+ line "  Session ID:  ")
  | SubagentList session => after (list_subagents c st session) subagent_list_text
  | SubagentCancel id =>
      after_text (cancel_subagent c st id)
        (λ r, if r.1 : bool then line ("Subagent " +:+ id +:+ " cancelled.") +:+ line ("  Final status: " +:+ r.2)
              else line ("Subagent " +:+ id +:+ " could not be cancelled (may have already finished)."))
  | SubagentWatch id events =>
      let '(st', (out, e)) := after (watch_subagent c st id) (λ _, write_events events) in
      (st', (line ("Watching subagent " +:+ id +:+ "...") +:+ out, e))
  end.

(** * GitLab (gitlab_cmd.rs, gitlab_fmt.rs) *)

Definition parse_mr_state (s : option string) : Z :=
  mr_i32 (match s with
          | Some t => if decide (t = "opened") then MrOpened else if decide (t = "closed") then MrClosed
                      else if decide (t = "merged") then MrMerged else if decide (t = "locked") then MrLocked else MrUnspecified
          | None => MrUnspecified
          end).

Definition parse_pipeline_status (s : option string) : Z :=
  pl_i32 (match s with
          | Some t => if decide (t = "running") then PlRunning else if decide (t = "success") then PlSuccess
                      else if decide (t = "failed") then PlFailed else if decide (t = "canceled") then PlCanceled
                      else if decide (t = "pending") then PlPending else PlUnspecified
          | None => PlUnspecified
          end).

Definition parse_issue_state (s : option string) : Z :=
  is_i32 (match s with
          | Some t => if decide (t = "opened") then IsOpened else if decide (t = "closed") then IsClosed else IsUnspecified
          | None => IsUnspecified
          end).

Definition mr_state_text (state : Z) : string := default "unknown" (mr_try_from state ≫= mr_state_to_str).

Definition pipeline_status_text (status : Z) : string :=
  match pl_try_from status with
  | Some PlWaitingForResource => "waiting"
  | s => default "unknown" (s ≫= pipeline_status_to_str)
  end.

Definition issue_state_text (state : Z) : string := default "unknown" (is_try_from state ≫= issue_state_to_str).

Definition write_mr_detail (m : MergeRequestInfo) : string :=
  line ("  MR:       !" +:+ pretty (mi_iid m)) +:+ line ("  Title:    " +:+ mi_title m) +:+ line ("  State:    " +:+ mr_state_text (mi_state m)) +:+
  line ("  Author:   " +:+ mi_author m) +:+ line ("  Source:   " +:+ mi_source_branch m) +:+ line ("  Target:   " +:+ mi_target_branch m) +:+
  when (mi_draft m) (line "  Draft:    yes") +:+
  match ms_try_from (mi_merge_status m) with
  | Some MsUnspecified | None => EmptyString
  | Some s => line ("  Merge:    " +:+ merge_status_debug s)
  end +:+
  when (not_empty (mi_assignee m)) (line ("  Assignee: " +:+ mi_assignee m)) +:+
  when (negb (bool_decide (mi_reviewers m = []))) (line ("  Review:   " +:+ join ", " (mi_reviewers m))) +:+
  when (negb (bool_decide (mi_labels m = []))) (line ("  Labels:   " +:+ join ", " (mi_labels m))) +:+
  when (not_empty (mi_milestone m)) (line ("  Mile:     " +:+ mi_milestone m)) +:+ line ("  URL:      " +:+ mi_web_url m).

Definition write_pipeline_detail (p : PipelineInfo) : string :=
  line ("  ID:       " +:+ pretty (pi_id p)) +:+ line ("  Status:   " +:+ pipeline_status_text (pi_status p)) +:+ line ("  Ref:      " +:+ pi_ref_name p) +:+
  line ("  SHA:      " +:+ pi_sha p) +:+ when (not_empty (pi_source p)) (line ("  Source:   " +:+ pi_source p)) +:+ line ("  URL:      " +:+ pi_web_url p).

Definition write_issue_detail (i : IssueInfo) : string :=
  line ("  Issue:    #" +:+ pretty (ii_iid i)) +:+ line ("  Title:    " +:+ ii_title i) +:+ line ("  State:    " +:+ issue_state_text (ii_state i)) +:+
  line ("  Author:   " +:+ ii_author i) +:+ when (ii_confidential i) (line "  Confid:   yes") +:+
  when (not_empty (ii_assignee i)) (line ("  Assignee: " +:+ ii_assignee i)) +:+
  when (negb (bool_decide (ii_labels i = []))) (line ("  Labels:   " +:+ join ", " (ii_labels i))) +:+
  when (not_empty (ii_milestone i)) (line ("  Mile:     " +:+ ii_milestone i)) +:+ line ("  URL:      " +:+ ii_web_url i).

Inductive GitLabAction :=
| MrList (project : string) (state : option string) (limit : Z)
| MrGet (project : string) (iid : Z)
| PipelineList (project : string) (status : option string) (limit : Z)
| PipelineGet (project : string) (id : Z)
| IssueList (project : string) (state : option string) (limit : Z)
| IssueGet (project : string) (iid : Z).

(** A table, or a text when it has no rows. *)
Definition table {A : Type} (none header unit : string) (row : A → string) (l : list A) : string :=
  match l with
  | [] => line none
  | _ => line header +:+ concat_text ((λ x, line (row x)) <$> l) +:+ line (lf +:+ pretty (Z.of_nat (length l)) +:+ " " +:+ unit)
  end.

Definition columns (l : list (nat * string)) : string := join " " ((λ x, pad_right x.1 x.2) <$> l).

Definition mr_row (m : MergeRequestInfo) : string :=
  columns [(6, "!" +:+ pretty (mi_iid m)); (50, truncate (mi_title m) 50); (10, mr_state_text (mi_state m)); (8, truncate (mi_author m) 8)].
Definition pipeline_row (p : PipelineInfo) : string :=
  columns [(10, pretty (pi_id p)); (12, pipeline_status_text (pi_status p)); (20, truncate (pi_ref_name p) 20); (10, truncate (pi_sha p) 10)].
Definition issue_row (i : IssueInfo) : string :=
  columns [(6, "#" +:+ pretty (ii_iid i)); (50, truncate (ii_title i) 50); (10, issue_state_text (ii_state i)); (8, truncate (ii_author i) 8)].

(** The daemon's responses always have the one that was asked for. *)
Definition run_gitlab (action : GitLabAction) : an_state * (string * CliEnd) :=
  match action with
  | MrList project state limit =>
      after_text (list_merge_requests c st project (parse_mr_state state) limit)
        (λ r, table "No merge requests found." (columns [(6, "IID"); (50, "TITLE"); (10, "STATE"); (8, "AUTHOR")]) "merge request(s)" mr_row r.1)
  | MrGet project iid => after_text (get_merge_request c st project iid) write_mr_detail
  | PipelineList project status limit =>
      after_text (list_pipelines c st project (parse_pipeline_status status) limit)
        (λ r, table "No pipelines found." (columns [(10, "ID"); (12, "STATUS"); (20, "REF"); (10, "SHA")]) "pipeline(s)" pipeline_row r.1)
  | PipelineGet project id => after_text (get_pipeline c st project id) write_pipeline_detail
  | IssueList project state limit =>
      after_text (list_issues c st project (parse_issue_state state) limit)
        (λ r, table "No issues found." (columns [(6, "IID"); (50, "TITLE"); (10, "STATE"); (8, "AUTHOR")]) "issue(s)" issue_row r.1)
  | IssueGet project iid => after_text (get_issue c st project iid) write_issue_detail
  end.

End Commands.
