(* ===== verification/ClientCorrect.v ===== *)
(** The client's commands on the daemon, and through a relay: what is typed is
    what is stored and printed, and every call reaches its machine. *)
From stdpp Require Import gmap strings list pretty fin_maps.
From Stdlib Require Import ZArith Lia SpecFloat.
From S2P Require Import Prelude Protocol Json Utf8 Completion Commands Fingerprint SessionStore RepoStore Worktrees RepoService.
From S2P Require Import Multiplexer EventBridge Encodings SessionRelay AgentService ClientConnection.
From S2P Require Import Json CryptoSession AgentProtocol TunnelHandler RelayStore RelayAuth RelayTunnel RelayProxy.
From S2P Require Import Scheduler OrchestrationStore SubagentManager SubagentService CommandIndex CommandService GitLab ClientCalls DaemonMain ClientCommands.

(** * On the daemon itself *)

Section Local.
Context {JT : JsonText} {ST : SqlText} {SO : SqlOrder}.
Context {MC : WorktreeModeCodes} {UA : UnicodeAlphanumeric} {UC : UnicodeCase} {HO : HashOrder} {GT : GitTools} {GC : GitLabCodes} {GA : GitLabApi}.
Context {CT : CliTexts} (text : Status → string).

(** The daemon answers; it does not look at the headers of a relay. *)
Definition local_daemon (env : DaemonEnv) : Answering := {|
  an_state := Daemon;
  an_answer R _ q s := local_answer env R q s;
  an_header_ok _ := true;
  an_status_text := text
|}.

Definition local_repo (env : DaemonEnv) (c : DaemonConnection) (s : Daemon) (action : RepoAction) : Daemon * (string * CliEnd) :=
  run_repo (AN := local_daemon env) c s action.

Lemma perform_local (env : DaemonEnv) (c : DaemonConnection) (s : Daemon) (R : Type) (q : Call R) :
  cn_client c = true → served_locally (call_method q) = true →
  perform (AN := local_daemon env) c s q =
  match daemon_answer env R q s with (s', Ok r) => (s', Ok r) | (s', Err e) => (s', Err (RpcCallFailed (text e))) end.
Proof. intros H Hq. unfold perform, local_daemon, local_answer. cbn. by rewrite H, Hq. Qed.

Lemma parse_mode_ok (mode : string) (m : Z) : parse_worktree_mode mode = Ok m →
  mode ∈ worktree_modes ∧ worktree_mode_to_str m = Ok mode ∧ worktree_mode_to_proto mode = m ∧ mode_text m = mode.
Proof.
  unfold parse_worktree_mode, worktree_modes, worktree_mode_to_str, worktree_mode_to_proto, mode_text.
  repeat case_decide; subst; intros [= <-]; rewrite mode_codes; (split; [|done]); rewrite ?list_elem_of_In; simpl; tauto.
Qed.

Lemma no_worktrees_of_new (d : DaemonDb) (id : string) : repos_ok d → db_repos d !! id = None →
  worktrees_of_repo id d = [].
Proof.
  intros Hd Hid. unfold worktrees_of_repo.
  destruct (filter (λ w, wt_repo_id w = id) (worktree_rows d)) as [|w l] eqn:E; [done|]. exfalso.
  assert (w ∈ filter (λ w, wt_repo_id w = id) (worktree_rows d)) as [Hw Hin]%list_elem_of_filter by (rewrite E; left).
  unfold worktree_rows in Hin. apply list_elem_of_fmap in Hin as ([k w'] & -> & Hk%elem_of_map_to_list). cbn in *.
  destruct (ro_worktree_keys d Hd k w' Hk) as [_ [r Hr]]. congruence.
Qed.

(** C20: A repository that a user registers is stored and shown as typed: with the
    path, the mode and the flag that were given, and the same text again when
    it is asked for. *)
Theorem registered_repo_is_read_back (env1 env2 : DaemonEnv) (c : DaemonConnection) (s s' : Daemon) (path mode local custom script out : string)
    (name : option string) (no_ignore : bool) :
  let id := de_uuids env1 0 in
  cn_client c = true → repos_ok (daemon_store s).1 →
  local_repo env1 c s (RepoRegister path name mode local custom script no_ignore) = (s', (out, CliDone)) →
  ∃ r, out = line "Registered repository:" +:+ write_repo r ∧
    local_repo env2 c s' (RepoGet id) = (s', (write_repo r, CliDone)) ∧
    grd_id r = id ∧ grd_repo_path r = path ∧ mode_text (grd_worktree_mode r) = mode ∧ grd_auto_gitignore r = negb no_ignore ∧
    (∀ n, name = Some n → n ≠ EmptyString → grd_name r = n) ∧ grd_worktree_count r = 0%Z.
Proof.
  cbn zeta. intros Hc Hd. unfold local_repo at 1. cbn [run_repo]. destruct (parse_worktree_mode mode) as [m|e] eqn:Hm; [|done].
  apply parse_mode_ok in Hm as (Hin & Hstr & Hproto & Htext).
  unfold after_text, after, register_repo. rewrite perform_local by done. cbn [daemon_answer].
  destruct (daemon_store s) as [d k] eqn:Est. cbn [fst] in Hd. unfold RepoService.register_repo. cbn [rr_repo_path rr_name rr_worktree_mode].
  case_decide; [done|]. destruct (negb (is_dir path k)); [done|]. destruct (negb (Worktrees.path_exists _ k)); [done|]. rewrite Hstr.
  unfold create_git_repo. cbn [rp_worktree_mode]. rewrite decide_False by tauto.
  destruct (db_repos d !! de_uuids env1 0) eqn:Hid; [done|]. destruct (get_git_repo_by_path path d); [done|].
  unfold get_git_repo. cbn [db_repos set_repos]. rewrite lookup_insert_eq. unfold on_store. cbn [fst snd].
  intros [= <- <-]. eexists. split; [reflexivity|]. split_and!.
  - unfold local_repo. cbn [run_repo]. unfold after_text, after, get_repo. rewrite perform_local by done. cbn [daemon_answer].
    unfold daemon_store at 1. cbn [with_store dm_service sv_relay set_relay r_db set_relay_db fst snd dm_disk]. unfold RepoService.get_repo, get_git_repo.
    cbn [db_repos set_repos]. rewrite lookup_insert_eq. cbn [gr_id].
    assert (count_worktrees_for_repo (de_uuids env1 0) (set_repos (<[de_uuids env1 0 := mkGitRepo (de_uuids env1 0)
      (if decide (default EmptyString name = EmptyString) then path_name path else default EmptyString name) path mode
      (default ".worktree" (non_empty local)) (non_empty custom) (non_empty script) (negb no_ignore) (e_now (de_env env1)) (e_now (de_env env1))]>
      (db_repos d)) d) = 0%Z) as ->; [|done].
    unfold count_worktrees_for_repo. change (worktrees_of_repo ?i (set_repos _ d)) with (worktrees_of_repo i d). by rewrite no_worktrees_of_new.
  - done.
  - done.
  - cbn. by rewrite Hproto.
  - done.
  - intros n -> Hn. cbn. by rewrite decide_False.
  - done.
Qed.

(** The row that an update asks for. *)
Definition updated_row (now : Z) (row : GitRepoRow) (name mode local custom script : option string) (ignore no_ignore : bool) : GitRepoRow :=
  mkGitRepo (gr_id row) (default (gr_name row) name) (gr_repo_path row) (default (gr_worktree_mode row) mode)
    (default (gr_local_subfolder row) local) (match custom with Some t => non_empty t | None => gr_custom_path row end)
    (match script with Some t => non_empty t | None => gr_setup_script row end)
    (if ignore then true else if no_ignore then false else gr_auto_gitignore row) (gr_created_at row) now.

(** What the table and the service do with the row. *)
Lemma update_partial_row (now : Z) (id : string) (row : GitRepoRow) (d : DaemonDb) (name mode local custom script : option string)
    (ignore no_ignore : bool) :
  repos_ok d → db_repos d !! id = Some row → (∀ t, mode = Some t → t ∈ worktree_modes) →
  let row' := updated_row now row name mode local custom script ignore no_ignore in
  update_git_repo_partial now id name mode local (non_empty <$> custom) (non_empty <$> script)
    (if ignore then Some true else if no_ignore then Some false else None) d = (set_repos (<[id := row']> (db_repos d)) d, Ok row').
Proof.
  intros Hd Hrow Hin. destruct (ro_repo_keys d Hd id row Hrow) as [Hid Hmode]. cbn zeta.
  unfold update_git_repo_partial, get_git_repo. rewrite Hrow. unfold update_git_repo_row. rewrite Hrow. cbn [rp_worktree_mode].
  assert (default (gr_worktree_mode row) mode ∈ worktree_modes) as Hok by (destruct mode as [t|]; [by apply Hin|done]).
  rewrite decide_False by tauto. cbn [db_repos set_repos]. rewrite lookup_insert_eq. unfold updated_row.
  by destruct custom, script, ignore, no_ignore.
Qed.

Lemma update_repo_row (now : Z) (id : string) (row : GitRepoRow) (d : DaemonDb) (name local custom script : option string)
    (mode : option (Z * string)) (ignore no_ignore : bool) :
  repos_ok d → db_repos d !! id = Some row → (∀ m t, mode = Some (m, t) → worktree_mode_to_str m = Ok t ∧ t ∈ worktree_modes) →
  let row' := updated_row now row name (snd <$> mode) local custom script ignore no_ignore in
  let d' := set_repos (<[id := row']> (db_repos d)) d in
  RepoService.update_repo now (mkUpdateRepo id name (fst <$> mode) local custom script
    (if ignore then Some true else if no_ignore then Some false else None)) d = (d', Ok (to_detail row' (count_worktrees_for_repo id d))).
Proof.
  intros Hd Hrow Hmode. destruct (ro_repo_keys d Hd id row Hrow) as [Hid _]. cbn zeta.
  unfold RepoService.update_repo. cbn [ur_worktree_mode ur_id ur_name ur_local_subfolder ur_custom_path ur_setup_script ur_auto_gitignore].
  destruct mode as [[m t]|]; cbn [fmap option_fmap option_map fst snd].
  - destruct (Hmode m t eq_refl) as [-> Hin]. rewrite (update_partial_row now id row) by naive_solver. cbn [updated_row gr_id]. by rewrite Hid.
  - rewrite (update_partial_row now id row) by done. cbn [updated_row gr_id]. by rewrite Hid.
Qed.

(** Updating a repository changes the settings that were given, and the time
    it was active, and nothing else; a mode that is none is refused before
    anything is sent. *)
Theorem update_changes_what_is_given (env : DaemonEnv) (c : DaemonConnection) (s : Daemon) (id : string) (row : GitRepoRow)
    (name mode local custom script : option string) (ignore no_ignore : bool) :
  let '(d, k) := daemon_store s in
  let row' := updated_row (e_now (de_env env)) row name mode local custom script ignore no_ignore in
  let d' := set_repos (<[id := row']> (db_repos d)) d in
  let updated := (with_store (d', k) s, (line "Updated repository:" +:+ write_repo (to_detail row' (count_worktrees_for_repo id d)), CliDone)) in
  cn_client c = true → repos_ok d → db_repos d !! id = Some row →
  local_repo env c s (RepoUpdate id name mode local custom script ignore no_ignore) =
    match parse_worktree_mode <$> mode with
    | Some (Err e) => (s, (EmptyString, CliFailed (CliText e)))
    | _ => updated
    end.
Proof.
  destruct (daemon_store s) as [d k] eqn:Est. cbn zeta. intros Hc Hd Hrow.
  assert (∀ m : option (Z * string), (∀ n t, m = Some (n, t) → worktree_mode_to_str n = Ok t ∧ t ∈ worktree_modes) →
    let row' := updated_row (e_now (de_env env)) row name (snd <$> m) local custom script ignore no_ignore in
    after_text (AN := local_daemon env) (update_repo (AN := local_daemon env) c s id name (fst <$> m) local custom script
      (if ignore then Some true else if no_ignore then Some false else None)) (λ r, line "Updated repository:" +:+ write_repo r) =
    (with_store (set_repos (<[id := row']> (db_repos d)) d, k) s,
     (line "Updated repository:" +:+ write_repo (to_detail row' (count_worktrees_for_repo id d)), CliDone))) as Hcall.
  { intros m Hm. cbn zeta. unfold after_text, after, update_repo. rewrite perform_local by done. cbn [daemon_answer]. rewrite Est. cbn [fst snd].
    by rewrite (update_repo_row _ id row). }
  unfold local_repo. cbn [run_repo]. destruct mode as [t|]; [|by apply (Hcall None)]. cbn [fmap option_fmap option_map].
  destruct (parse_worktree_mode t) as [m|e] eqn:Hm; [|done]. apply parse_mode_ok in Hm as (Hin & Hstr & _).
  apply (Hcall (Some (m, t))). by intros ? ? [= <- <-].
Qed.

(** ** What the commands promise and do not do *)

(** The daemon does not look at the worktree of a list of sessions. *)
Lemma worktree_filter_ignored (env : DaemonEnv) (c : DaemonConnection) (s : Daemon) (wd w : option string) (limit offset : nat) :
  run_session (AN := local_daemon env) c s (SessionList wd w limit offset) =
  run_session (AN := local_daemon env) c s (SessionList wd None limit offset).
Proof. cbn [run_session]. unfold after_text, after, list_sessions_filtered, perform. by destruct (cn_client c). Qed.

(** Listing the subagents of all sessions, which is what the command does
    without a session, is always refused. *)
Lemma all_subagents_refused (env : DaemonEnv) (c : DaemonConnection) (s : Daemon) : cn_client c = true →
  run_subagent (AN := local_daemon env) c s (SubagentList None) =
  (s, (EmptyString, CliFailed (CliConnection (RpcCallFailed (text (invalid "parent_session_id must not be empty")))))).
Proof. intros Hc. cbn [run_subagent]. unfold after, list_subagents. by rewrite perform_local. Qed.

(** A filter that the client does not know is no filter, also for statuses it
    shows. *)
Lemma unknown_status_lists_all {AN : Answering} (c : DaemonConnection) (st : an_state) (project : string) (limit : Z) :
  run_gitlab c st (PipelineList project (Some "skipped") limit) = run_gitlab c st (PipelineList project None limit) ∧
  pipeline_status_text (pl_i32 PlSkipped) = "skipped".
Proof. split; [done|]. unfold pipeline_status_text. by rewrite pl_codes. Qed.

(** The daemon's own socket has no GitLab service. *)
Theorem gitlab_is_remote_only (env : DaemonEnv) (c : DaemonConnection) (s : Daemon) (action : GitLabAction) : cn_client c = true →
  run_gitlab (AN := local_daemon env) c s action =
  (s, (EmptyString, CliFailed (CliConnection (RpcCallFailed (text (mkStatus Unimplemented EmptyString)))))).
Proof.
  intros Hc. destruct action; cbn [run_gitlab];
    unfold after_text, after, list_merge_requests, get_merge_request, list_pipelines, get_pipeline, list_issues, get_issue, perform; by rewrite Hc.
Qed.

(** The total of a list of sessions is the number of the rows it shows, so a
    list with an offset ends beyond it. *)
Theorem shown_range_exceeds_total (env : DaemonEnv) (c : DaemonConnection) (s : Daemon) (wd w : option string) (limit offset : nat) (sum : SessionSummary)
    (rest : list SessionSummary) :
  cn_client c = true → (Z.of_nat (limit + 50) < 2 ^ 31)%Z → (0 < Z.of_nat offset < 2 ^ 31)%Z →
  (svc_list_sessions (default EmptyString wd) limit offset (dm_service s)).1 = sum :: rest →
  let n := Z.of_nat (S (length rest)) in
  ∃ header, run_session (AN := local_daemon env) c s (SessionList wd w limit offset) =
    (s, (header +:+ concat_text (session_line <$> sum :: rest) +:+
         line (lf +:+ "Showing " +:+ pretty (Z.of_nat offset + 1)%Z +:+ "-" +:+ pretty (Z.of_nat offset + n)%Z +:+ " of " +:+ pretty n +:+ " session(s)"),
     CliDone)) ∧ (n < Z.of_nat offset + n)%Z.
Proof.
  cbn zeta. intros Hc Hl Ho Hpage. cbn [run_session]. unfold after_text, after, list_sessions_filtered. rewrite perform_local by done. cbn [daemon_answer].
  destruct (svc_list_sessions _ _ _ _) as [page total] eqn:Esvc. cbn [fst] in Hpage. subst page.
  assert (length (sum :: rest) ≤ limit + 50 ∧ total = wrap_u32 (Z.of_nat (length (sum :: rest)))) as [Hlen ->].
  { revert Esvc. unfold svc_list_sessions. cbn zeta. intros [= Hp <-]. rewrite Hp. split; [|done]. rewrite <- Hp, length_fmap.
    unfold SessionStore.list_sessions. rewrite length_take. destruct (decide (limit = 0)); lia. }
  eexists. unfold session_list_text. cbn [fst snd]. cbn [length] in *. split; [|lia].
  unfold wrap_u32, saturating_u32. rewrite Z.mod_small by lia. rewrite !Z.min_r by lia. reflexivity.
Qed.

End Local.


(** * Through a relay *)

Section Remote.
Context {JL : JwtLib} {MJ : MetadataJson} {SO : SqlOrder}.
Context (now : Z) (bm : BufferManager) (uuid : string) (buf : list Z).

(** What the relay's server makes of a call: the interceptor, the proxy that
    has the method, and the tunnel of the machine.  [None] waits for room. *)
Definition relay_receive (method : Method) (headers : Headers) (r : Relay) : option (Relay * result Status (nat * nat)) :=
  match jwt_interceptor now (headers !! "authorization") with
  | Err e => Some (r, Err e)
  | Ok claims =>
      match snd <$> List.find (λ p, bool_decide (p.1 = method)) proxies with
      | Some AsUnary => forward_unary_begin now bm uuid (Some claims) (headers !! "x-machine-id") (method_name method) buf r
      | Some (AsStream _) => forward_stream_begin now uuid (Some claims) (headers !! "x-machine-id") (method_name method) buf r
      | None => Some (r, Err (mkStatus Unimplemented EmptyString))
      end
  end.

Definition client_headers (valid : string → bool) (token machine : option string) : Headers := apply_relay_meta valid token machine ∅.

Lemma client_headers_authorization (valid : string → bool) (token machine : option string) :
  client_headers valid token machine !! "authorization" =
  match token with Some t => if valid ("Bearer " +:+ t) then Some ("Bearer " +:+ t) else None | None => None end.
Proof.
  unfold client_headers, apply_relay_meta. destruct machine as [m|], token as [t|]; simpl;
    repeat match goal with |- context [if valid ?x then _ else _] => destruct (valid x) end; simplify_map_eq; done.
Qed.

Lemma client_headers_machine (valid : string → bool) (token machine : option string) :
  client_headers valid token machine !! "x-machine-id" = match machine with Some m => if valid m then Some m else None | None => None end.
Proof.
  unfold client_headers, apply_relay_meta. destruct machine as [m|], token as [t|]; simpl;
    repeat match goal with |- context [if valid ?x then _ else _] => destruct (valid x) end; simplify_map_eq; done.
Qed.

(** Every call of the client has a proxy, of the kind of its response. *)
Lemma calls_are_proxied (R : Type) (q : Call R) :
  ∃ k, snd <$> List.find (λ p, bool_decide (p.1 = call_method q)) proxies = Some k ∧ (call_streams q = true ↔ k ≠ AsUnary).
Proof. destruct q; eexists; (split; [vm_compute; reflexivity|done]). Qed.

(** A connection gets the frame of a request that is handed to it. *)
Definition handed_over (c : nat) (f : TunnelFrame) (r r' : Relay) : Prop :=
  ∃ cn cn', conns r !! c = Some cn ∧ conns r' !! c = Some cn' ∧ queue (frame_tx cn') = queue (frame_tx cn) ++ [f] ∧ rx_alive (frame_tx cn) = true.

Lemma send_frame_hands_over (c : nat) (f : TunnelFrame) (g : TunnelConnection → TunnelConnection) (r0 r r' : Relay) :
  send_frame c f r = Some (r', true) → conns r = alter g c (conns r0) → (∀ cn, frame_tx (g cn) = frame_tx cn) → handed_over c f r0 r'.
Proof.
  intros Hs Hr Hg. revert Hs. unfold send_frame. destruct (conns r !! c) as [cn|] eqn:Ec; [|done]. rewrite Hr, lookup_alter_eq in Ec.
  destruct (conns r0 !! c) as [cn0|] eqn:E0; [|done]. cbn in Ec. injection Ec as <-. rewrite Hg. unfold chan_send.
  destruct (rx_alive (frame_tx cn0)) eqn:Ea; [|done]. case_decide; [|done]. intros [= <-]. unfold handed_over. rewrite E0.
  do 2 eexists. split_and!; [done|cbn; rewrite Hr, !lookup_alter_eq, E0; reflexivity|done|done].
Qed.

(** C7: A call of a client reaches a machine exactly as configured: whatever the
    relay hands over goes to the connection registered for the configured
    machine, as the request of that call, and the token is a valid access
    token of that machine's owner. *)
Theorem client_call_reaches_own_machine (valid : string → bool) (token machine : option string) (R : Type) (q : Call R)
    (r r' : Relay) (c w : nat) :
  relay_receive (call_method q) (client_headers valid token machine) r = Some (r', Ok (c, w)) →
  ∃ t m claims row, token = Some t ∧ machine = Some m ∧ jwt_decode now t = Ok claims ∧ is_access claims = true ∧
    get_machine m (db r) = Ok row ∧ m_owner_id row = sub claims ∧ get_conn m r = Some c ∧
    handed_over c (build_request_frame now uuid (method_name (call_method q)) buf ∅) r r'.
Proof.
  unfold relay_receive. rewrite client_headers_authorization, client_headers_machine. destruct token as [t|]; [|done].
  destruct (valid ("Bearer " +:+ t)); [|done]. unfold jwt_interceptor. cbn [mbind option_bind].
  rewrite (proj2 (strip_prefix_spec "Bearer " ("Bearer " +:+ t) t) eq_refl).
  unfold validate. destruct (jwt_decode now t) as [claims|] eqn:Hd; [|done]. destruct (is_access claims) eqn:Ha; [|done].
  destruct machine as [m|].
  2:{ by destruct (calls_are_proxied R q) as (k & -> & _); destruct k. }
  destruct (valid m); [|by destruct (calls_are_proxied R q) as (k & -> & _); destruct k].
  destruct (calls_are_proxied R q) as (k & -> & _). intros Hf. exists t, m, claims.
  assert (∃ row, get_machine m (db r) = Ok row ∧ m_owner_id row = sub claims ∧ authorize (Some claims) (Some m) (db r) = Ok m) as (row & Hrow & Hown & Hauth).
  { assert (∃ e, authorize (Some claims) (Some m) (db r) = e ∧ ∀ s, e ≠ Err s) as (e & He & Hne).
    { eexists; split; [done|]. intros s Hs. destruct k; unfold forward_unary_begin, forward_stream_begin in Hf; by rewrite Hs in Hf. }
    unfold authorize, extract_claims, extract_machine_id, verify_machine_ownership in *. cbn in *.
    destruct (get_machine m (db r)) as [row|[]]; [|subst e; by destruct (Hne _ eq_refl)..].
    cbn in *. case_decide; [|subst e; by destruct (Hne _ eq_refl)]. by exists row. }
  exists row. repeat (split; [done|]).
  destruct k; unfold forward_unary_begin, forward_stream_begin, forward_begin, setup_stream_forward in Hf; rewrite Hauth in Hf;
    destruct (get_conn m r) as [c'|]; try done.
  - unfold register_pending, new_waiter in Hf. cbn beta iota zeta in Hf. destruct (send_frame _ _ _) as [[r2 []]|] eqn:Hs; [|done..].
    injection Hf as <- <- _. split; [done|]. by eapply send_frame_hands_over; [exact Hs|reflexivity|].
  - by destruct (buffer_request _ _ _ _ _ _ _ _) as [? []].
  - unfold register_stream_pending, new_waiter in Hf. cbn beta iota zeta in Hf. destruct (send_frame _ _ _) as [[r2 []]|] eqn:Hs; [|done..].
    injection Hf as <- <- _. split; [done|]. by eapply send_frame_hands_over; [exact Hs|reflexivity|].
Qed.

(** A token that is no header value makes every call unauthenticated. *)
Lemma no_header_token_refused (valid : string → bool) (t : string) (machine : option string) (R : Type) (q : Call R) (r : Relay) :
  valid ("Bearer " +:+ t) = false →
  relay_receive (call_method q) (client_headers valid (Some t) machine) r = Some (r, Err (mkStatus Unauthenticated "Missing authorization header")).
Proof. intros Hv. unfold relay_receive. by rewrite client_headers_authorization, Hv. Qed.

End Remote.

(** * Subagents through a relay *)

Section Subagents.
Context {DT : DebugText} {JT : JsonText} {JW : JsonWrite} {PC : ProstCodec} {ST : SqlText} {HI : HashIter} {SO : SqlOrder}.
Context {PR : Primitives} {SH : Sha256} {AP : AgentProtocol} {LS : LocalServices} (clock : Z → Timestamp).

(** The daemon does not give its subagent service to its tunnel: every call of
    subagents that a relay hands over is answered with the same error, without
    any effect, and that is what the client gets. *)
Theorem subagents_are_local_only (env : TunnelEnv) (R : Type) (q : Call R) (gitlab : option string) (now : Z) (rid : string) (buf : list Z) (h : Handler) :
  service_of (call_method q) = SvcSubagent → th_available h = tunnel_services gitlab →
  let refusal := error_response (now_of env) rid TunnelInternal "SubagentService not available in tunnel handler" in
  handle_frame clock env (build_request_frame now rid (method_name (call_method q)) buf ∅) h =
    (if call_streams q then (send_out refusal h, []) else (h, [refusal])) ∧
  ∀ (M : Type) (PM : ProtoMessage M), decode_response (M := M) refusal = Err (mkStatus Internal "Daemon error: SubagentService not available in tunnel handler").
Proof.
  intros Hq Hav. cbn zeta. split; [|done].
  destruct q; try (exfalso; discriminate Hq); cbn [call_method call_streams];
    unfold handle_frame, handle_request, build_request_frame; cbn [frame_type payload request_id sp_method sp_encrypted];
    rewrite decide_False by (vm_compute; discriminate); unfold decrypt_payload; cbn [ep_nonce ep_ciphertext]; rewrite decide_True by done;
    rewrite parse_method_name;
    unfold dispatch_subagent_rpc, dispatch_service, handle_watch_subagent, open_service_stream; rewrite Hav; reflexivity.
Qed.

End Subagents.
