(* ===== verification/Setup.v ===== *)
(** The set-up of the daemon, of the servers and of the client.

    Models crates/betcode-setup/src/: cmd.rs, prompt.rs, escalate.rs, config.rs,
    daemon/ (mod.rs, systemd.rs, templates.rs), and in its second part relay/,
    releases/, cli/, os.rs and main.rs.  The command line was parsed.
    A set-up runs on a [Host]: its files, the modes it gave them and the
    commands that were run.  What a command does is the class [Programs]; what
    a user answers at a prompt is in [Answers].  A path stands for itself: the
    texts the program uses for one file are the same.  An error with a context
    is written as the context and the cause. *)
From stdpp Require Import gmap strings list pretty.
From Stdlib Require Import ZArith Lia.
From S2P Require Import Prelude Protocol Json Commands Fingerprint Utf8 Worktrees CommandIndex JsonFile TunnelReconnect Certificates.

(** * The machine *)

(** What a command can reach besides the machine, such as a relay. *)
Class Outside := { outside : Type }.

Record Host {OS : Outside} := mkHost {
  ho_disk : CertDisk;
  ho_modes : gmap string Z;
  ho_ran : list (list string);      (** the commands, in order *)
  ho_outside : outside
}.
Arguments mkHost {OS} _ _ _ _.

Definition host_files `{OS : Outside} (h : Host) : gmap string string := cd_files (ho_disk h).
Definition with_disk `{OS : Outside} (d : CertDisk) (h : Host) : Host := mkHost d (ho_modes h) (ho_ran h) (ho_outside h).
Definition with_files `{OS : Outside} (f : gmap string string) (h : Host) : Host := with_disk (set_cert_files f (ho_disk h)) h.
Definition there `{OS : Outside} (p : string) (h : Host) : bool := path_there p (ho_disk h).

(** What a finished command leaves: whether it succeeded, how its status is
    displayed, the status itself unless a signal ended it, and what it wrote. *)
Record Output := mkOutput {
  out_ok : bool;
  out_status : string;
  out_code : option Z;
  out_stdout : string;
  out_stderr : string
}.

Class Programs `{OS : Outside} := {
  (** variables of the environment, the command line *)
  pr_exec : list (string * string) → list string → Host → Host * result string Output;
  (** why a file or directory cannot be written, and what is left of the file *)
  pr_write_error : string → Host → option (string * option string);
  pr_chmod_error : string → Host → option string;
  pr_canonicalize : string → Host → result string string;
  pr_writable : string → Host → bool;
  pr_bind : string → Host → option string
}.

(** ** Steps *)

(** A step fails, or hands over to a run under sudo and ends the process. *)
Inductive Stop := Failed (e : string) | Exited (code : Z).

Definition Setup `{OS : Outside} (A : Type) : Type := Host → Host * result Stop A.

#[export] Instance setup_ret `{OS : Outside} : MRet Setup := λ A a h, (h, Ok a).
#[export] Instance setup_bind `{OS : Outside} : MBind Setup := λ A B f m h,
  match m h with
  | (h', Ok a) => f a h'
  | (h', Err s) => (h', Err s)
  end.

Definition stop `{OS : Outside} {A : Type} (s : Stop) : Setup A := λ h, (h, Err s).
Definition fail `{OS : Outside} {A : Type} (e : string) : Setup A := stop (Failed e).
Definition get_host `{OS : Outside} : Setup Host := λ h, (h, Ok h).
Definition of_result `{OS : Outside} {A : Type} (r : result string A) : Setup A := match r with Ok a => mret a | Err e => fail e end.
Definition with_context (context e : string) : string := if decide (context = EmptyString) then e else context +:+ ": " +:+ e.
Definition skip `{OS : Outside} : Setup unit := mret ().

(** A step of Certificates.v. *)
Definition on_disk `{OS : Outside} {A : Type} (f : CertDisk → CertDisk * result string A) : Setup A := λ h,
  match f (ho_disk h) with
  | (d, Ok a) => (with_disk d h, Ok a)
  | (d, Err e) => (with_disk d h, Err (Failed e))
  end.

Section Machine.
Context `{PG : Programs} {CL : CertLib}.

Definition write_text (context path content : string) : Setup unit := λ h,
  match pr_write_error path h with
  | None => (with_files (<[path := content]> (host_files h)) h, Ok tt)
  | Some (e, None) => (h, Err (Failed (with_context context e)))
  | Some (e, Some rest) => (with_files (<[path := rest]> (host_files h)) h, Err (Failed (with_context context e)))
  end.

(** [OpenOptions::append], which creates the file. *)
Definition append_text (path content : string) : Setup unit := λ h,
  let old := default EmptyString (host_files h !! path) in
  match pr_write_error path h with
  | None => (with_files (<[path := old +:+ content]> (host_files h)) h, Ok tt)
  | Some (e, None) => (h, Err (Failed (with_context ("failed to open " +:+ path +:+ " for appending") e)))
  | Some (e, Some rest) => (with_files (<[path := rest]> (host_files h)) h, Err (Failed (with_context ("failed to write to " +:+ path) e)))
  end.

Definition read_text (context path : string) : Setup string := λ h,
  match host_files h !! path with
  | Some t => (h, Ok t)
  | None => (h, Err (Failed (with_context context not_found)))
  end.

Definition make_dir (path : string) : Setup unit := λ h,
  match pr_write_error path h with
  | None =>
      let d := ho_disk h in
      (with_disk (mkCertDisk (list_to_set (parents (chars path) EmptyString) ∪ cd_dirs d) (cd_files d) (cd_private d)) h, Ok tt)
  | Some (e, _) => (h, Err (Failed (with_context ("failed to create " +:+ path) e)))
  end.

(** [fs::set_permissions] *)
Definition set_mode (context path : string) (mode : Z) : Setup unit := λ h,
  match pr_chmod_error path h with
  | Some e => (h, Err (Failed (with_context context e)))
  | None =>
      if there path h then (mkHost (ho_disk h) (<[path := mode]> (ho_modes h)) (ho_ran h) (ho_outside h), Ok tt)
      else (h, Err (Failed (with_context context not_found)))
  end.

(** [fs::copy], which also copies the mode. *)
Definition copy_file (src dest : string) : Setup unit :=
  let context := "failed to copy " +:+ src +:+ " to " +:+ dest in
  text ← read_text context src;
  _ ← write_text context dest text;
  h ← get_host;
  match ho_modes h !! src with Some m => set_mode context dest m | None => skip end.

Definition exec (env : list (string * string)) (argv : list string) : Setup (result string Output) := λ h,
  let '(h', r) := pr_exec env argv (mkHost (ho_disk h) (ho_modes h) (ho_ran h ++ [argv]) (ho_outside h)) in (h', Ok r).

(** * Commands (cmd.rs) *)

Definition run_cmd (description : string) (argv : list string) : Setup unit :=
  r ← exec [] argv;
  match r with
  | Err e => fail (with_context ("failed to execute: " +:+ join " " argv) e)
  | Ok o => if out_ok o then skip else fail (description +:+ " failed (exit " +:+ out_status o +:+ "): " +:+ out_stderr o)
  end.

(** Whether a command succeeds. *)
Definition succeeds_cmd (argv : list string) : Setup bool :=
  r ← exec [] argv; mret (match r with Ok o => out_ok o | Err _ => false end).

Definition run_cmd_output (argv : list string) : Setup (result string string) :=
  r ← exec [] argv; mret (match r with Ok o => Ok (trim (out_stdout o)) | Err e => Err (with_context ("failed to execute: " +:+ join " " argv) e) end).

Definition command_exists (program : string) : Setup bool := succeeds_cmd ["which"; program].

Definition should_skip_port_check (is_update service_is_active : bool) : bool := is_update && service_is_active.

(** [Path::parent] *)
Definition parent (p : string) : option string :=
  match path_components p with
  | [] | ["/"] => None
  | cs => Some (foldl path_join EmptyString (take (length cs - 1) cs))
  end.

Definition create_setup_directories (db_path user : string) : Setup unit :=
  let db_dir := default "/var/lib/betcode" (parent db_path) in
  _ ← make_dir db_dir;
  _ ← make_dir "/etc/betcode";
  _ ← run_cmd "setting ownership on data directory" ["chown"; "-R"; user +:+ ":" +:+ user; db_dir];
  run_cmd "setting ownership on /etc/betcode" ["chown"; "root:" +:+ user; "/etc/betcode"].

Definition write_env_if_fresh (path content : string) (is_update : bool) : Setup bool :=
  h ← get_host;
  if is_update && there path h then mret false
  else (_ ← write_text "failed to write environment file" path content; mret true).

Definition ensure_system_user : Setup unit :=
  known ← command_exists "id";
  exists_ ← (if known : bool then succeeds_cmd ["id"; "betcode"] else mret false);
  if exists_ : bool then skip
  else run_cmd "creating system user 'betcode'" ["useradd"; "--system"; "--shell"; "/usr/sbin/nologin"; "betcode"].

(** * The invocation *)

Inductive DeploymentMode := Systemd | Docker.

(** What the user answers, when asked. *)
Record Answers := mkAnswers {
  as_linger : result string bool;
  as_enable : result string bool;
  as_overwrite : result string bool;
  as_sudo : result string bool;
  as_domain : result string string;
  as_auto_secret : result string bool;
  as_secret : result string string;
  as_db_path : result string string;
  as_mode : result string DeploymentMode;
  as_relay_url : result string string;
  as_username : result string string;
  as_password : result string string;
  as_login : result string bool;
  as_machine_name : result string string
}.

Record SetupEnv := mkSetupEnv {
  se_non_interactive : bool;
  se_answers : Answers;
  se_root : bool;
  se_argv : result string (list string);     (** the program and its arguments *)
  se_home : option string;
  se_path : list string;
  se_shell : option string;
  se_user : option string;
  se_xdg_bin : option string;
  se_password : option string;               (** BETCODE_PASSWORD *)
  se_uuid : string;
  se_random : list nat;
  se_certs : CertEnv
}.

(** ** Prompts (prompt.rs) *)

Definition ask {A : Type} (env : SetupEnv) (unasked : Setup A) (answer : result string A) : Setup A :=
  if se_non_interactive env then unasked else of_result answer.

Definition secret_charset : string := "ABCDEFGHIJKLMNOPQRSTUVWXYZabcdefghijklmnopqrstuvwxyz0123456789".

Fixpoint pick (random : list nat) (len : nat) : string :=
  match len with
  | 0 => EmptyString
  | S n => match String.get (default 0 (head random) `mod` String.length secret_charset) secret_charset with
           | Some c => String c (pick (tail random) n)
           | None => EmptyString
           end
  end.

Definition generate_secret (env : SetupEnv) (len : nat) : string := pick (se_random env) len.

Definition prompt_domain (env : SetupEnv) (d : string) : Setup string := ask env (mret d) (as_domain (se_answers env)).
Definition prompt_db_path (env : SetupEnv) (d : string) : Setup string := ask env (mret d) (as_db_path (se_answers env)).
Definition prompt_deployment_mode (env : SetupEnv) : Setup DeploymentMode := ask env (mret Docker) (as_mode (se_answers env)).
Definition prompt_relay_url (env : SetupEnv) (d : string) : Setup string := ask env (mret d) (as_relay_url (se_answers env)).
Definition prompt_machine_name (env : SetupEnv) (d : string) : Setup string := ask env (mret d) (as_machine_name (se_answers env)).
Definition prompt_auth_action (env : SetupEnv) : Setup bool := ask env (mret true) (as_login (se_answers env)).
Definition prompt_username (env : SetupEnv) : Setup string :=
  ask env (fail "--username is required in non-interactive mode") (as_username (se_answers env)).
Definition prompt_password (env : SetupEnv) : Setup string :=
  ask env (match se_password env with Some p => mret p | None => fail "BETCODE_PASSWORD env var is required in non-interactive mode" end)
    (as_password (se_answers env)).

Definition prompt_jwt_secret (env : SetupEnv) : Setup string :=
  if se_non_interactive env then mret (generate_secret env 48)
  else (auto ← of_result (as_auto_secret (se_answers env));
        if auto : bool then mret (generate_secret env 48)
        else (secret ← of_result (as_secret (se_answers env));
              if String.length secret <? 32 then fail "JWT secret must be at least 32 characters" else mret secret)).

(** ** Privileges (escalate.rs) *)

Definition escalate_if_needed (env : SetupEnv) : Setup unit :=
  if se_root env then skip
  else if se_non_interactive env then
    fail "systemd setup requires root privileges. Re-run with sudo or use --mode docker for unprivileged file generation."
  else
    (confirmed ← of_result (as_sudo (se_answers env));
     if negb confirmed then
       fail "root privileges declined. Use --mode docker for unprivileged file generation, or re-run manually with sudo."
     else
       (argv ← of_result (se_argv env);
        r ← exec [] ("sudo" :: argv);
        match r with
        | Err e => fail e
        | Ok o => stop (Exited (default 1%Z (out_code o)))
        end)).

(** * The daemon (daemon/) *)

Inductive DaemonMode := ModeSystem | ModeUser.

(** An address: the IP as it is displayed, and the port. *)
Record SockAddr := mkSockAddr { sa_ip : string; sa_port : Z }.
Definition addr_text (a : SockAddr) : string := sa_ip a +:+ ":" +:+ pretty (sa_port a).

Record DaemonSetupConfig := mkDaemonSetup {
  ds_mode : DaemonMode;
  ds_user : string;
  ds_addr : SockAddr;
  ds_db_path : string;
  ds_max_processes : Z;
  ds_max_sessions : Z;
  ds_relay_url : option string;
  ds_machine_id : string;
  ds_machine_name : string;
  ds_relay_username : option string;
  ds_relay_password : option string;
  ds_relay_custom_ca_cert : option string;
  ds_worktree_dir : option string;
  ds_claude_bin : option string;
  ds_daemon_binary_path : option string;
  ds_enable_linger : bool;
  ds_enable_service : bool
}.

(** ** Files (templates.rs) *)

Definition unlines (l : list string) : string := join lf l +:+ lf.

Definition daemon_unit_system (c : DaemonSetupConfig) : string :=
  let user := ds_user c in
  unlines ["[Unit]"; "Description=BetCode Daemon"; "After=network-online.target"; "Wants=network-online.target"; ""; "[Service]";
    "Type=notify"; "User=" +:+ user; "Group=" +:+ user; "EnvironmentFile=/etc/betcode/daemon.env"; "ExecStart=/usr/local/bin/betcode-daemon";
    "Restart=on-failure"; "RestartSec=5"; ""; "# Hardening"; "NoNewPrivileges=true"; "ProtectSystem=strict"; "ProtectHome=tmpfs";
    "BindReadOnlyPaths=/home/" +:+ user +:+ "/.claude"; "BindReadOnlyPaths=/home/" +:+ user +:+ "/.local/bin";
    "ReadWritePaths=/var/lib/betcode"; "ReadOnlyPaths=/etc/betcode"; "PrivateTmp=true"; ""; "[Install]"; "WantedBy=multi-user.target"].

Definition daemon_unit_user (binary : string) : string :=
  unlines ["[Unit]"; "Description=BetCode Daemon"; "After=default.target"; ""; "[Service]"; "Type=notify";
    "EnvironmentFile=%h/.config/betcode/daemon.env"; "ExecStart=" +:+ binary; "Restart=on-failure"; "RestartSec=5"; ""; "[Install]";
    "WantedBy=default.target"].

(** A setting that is written when it is set. *)
Definition setting (name : string) (v : option string) : list (string * string) :=
  match v with Some x => [(name, x)] | None => [] end.

Definition daemon_settings (c : DaemonSetupConfig) : list (string * string) :=
  [("BETCODE_ADDR", addr_text (ds_addr c)); ("BETCODE_DB_PATH", ds_db_path c); ("BETCODE_MAX_PROCESSES", pretty (ds_max_processes c));
   ("BETCODE_MAX_SESSIONS", pretty (ds_max_sessions c)); ("BETCODE_MACHINE_NAME", ds_machine_name c); ("BETCODE_LOG_JSON", "true")] ++
  setting "BETCODE_RELAY_URL" (ds_relay_url c) ++ [("BETCODE_MACHINE_ID", ds_machine_id c)] ++
  setting "BETCODE_RELAY_USERNAME" (ds_relay_username c) ++ setting "BETCODE_RELAY_PASSWORD" (ds_relay_password c) ++
  setting "BETCODE_RELAY_CUSTOM_CA_CERT" (ds_relay_custom_ca_cert c) ++ setting "BETCODE_WORKTREE_DIR" (ds_worktree_dir c) ++
  setting "BETCODE_CLAUDE_BIN" (ds_claude_bin c).

Definition daemon_env_file (c : DaemonSetupConfig) : string :=
  unlines ((λ s, s.1 +:+ "=" +:+ s.2) <$> daemon_settings c).

(** ** Deployment (systemd.rs) *)

Definition SYSTEM_UNIT_PATH : string := "/etc/systemd/system/betcode-daemon.service".
Definition SYSTEM_ENV_PATH : string := "/etc/betcode/daemon.env".

Definition no_home : string := "cannot determine home directory".
Definition user_unit_path (env : SetupEnv) : result string string :=
  match se_home env with Some h => Ok (path_join h ".config/systemd/user/betcode-daemon.service") | None => Err no_home end.
Definition user_env_path (env : SetupEnv) : result string string :=
  match se_home env with Some h => Ok (path_join h ".config/betcode/daemon.env") | None => Err no_home end.

Definition is_daemon_active_system : Setup bool := succeeds_cmd ["systemctl"; "is-active"; "--quiet"; "betcode-daemon"].
Definition is_daemon_active_user : Setup bool := succeeds_cmd ["systemctl"; "--user"; "is-active"; "--quiet"; "betcode-daemon"].

Definition is_dir_in_path (env : SetupEnv) (dir : string) : bool :=
  bool_decide (path_components dir ∈ path_components <$> se_path env).

Definition is_same_file (a b : string) : Setup bool := λ h,
  (h, Ok match pr_canonicalize a h, pr_canonicalize b h with Ok x, Ok y => bool_decide (x = y) | _, _ => false end).

(** [SHELL], else the last field of the user's line of the user database. *)
Definition detect_shell (env : SetupEnv) : Setup (option string) :=
  match se_shell env with
  | Some (String _ _ as s) => mret (Some s)
  | _ =>
      match se_user env with
      | None => mret None
      | Some user =>
          r ← exec [] ["getent"; "passwd"; user];
          mret (match r with
                | Ok o => if out_ok o then shell ← last (split_on (byte 58) (trim (out_stdout o))); if decide (shell = EmptyString) then None else Some shell
                          else None
                | Err _ => None
                end)
      end
  end.

Definition ends_with (suf s : string) : bool := bool_decide (is_Some (strip_suffix suf s)).

Definition shell_config_for_shell (shell : option string) (home : string) : string :=
  path_join home (match shell with
                  | Some s => if ends_with "/bash" s then ".bashrc" else if ends_with "/zsh" s then ".zshrc" else ".profile"
                  | None => ".profile"
                  end).

Definition SHELL_CONFIG_MARKER : string := "# Added by betcode-setup".

Definition path_snippet (dir : string) : string :=
  lf +:+ SHELL_CONFIG_MARKER +:+ lf +:+ "export PATH=" +:+ String (byte 34) (dir +:+ ":$PATH" +:+ String (byte 34) lf).

Definition append_path_to_shell_config (shell_config dir : string) : Setup unit :=
  h ← get_host;
  content ← (if there shell_config h then read_text "failed to read shell config file" shell_config else mret EmptyString);
  if contains SHELL_CONFIG_MARKER content then skip
  else append_text shell_config (path_snippet dir).

Definition ensure_path_in_shell_config (env : SetupEnv) (dir : string) : Setup unit :=
  if is_dir_in_path env dir then skip
  else match se_home env with
       | None => fail no_home
       | Some home => shell ← detect_shell env; append_path_to_shell_config (shell_config_for_shell shell home) dir
       end.

Definition user_bin_dir (env : SetupEnv) : result string string :=
  match (match se_xdg_bin env with Some x => if starts_with "/" x then Some x else None | None => None end) with
  | Some x => Ok x
  | None => match se_home env with Some h => Ok (path_join h ".local/bin") | None => Err no_home end
  end.

Definition choose_user_binary_destination (env : SetupEnv) : Setup string :=
  h ← get_host;
  if is_dir_in_path env "/usr/local/bin" && pr_writable "/usr/local/bin" h then mret "/usr/local/bin/betcode-daemon"
  else (dir ← of_result (user_bin_dir env);
        _ ← make_dir dir;
        mret (path_join dir "betcode-daemon")).

Definition resolve_source_binary (c : DaemonSetupConfig) : Setup (option string) :=
  match ds_daemon_binary_path c with
  | Some p => mret (Some p)
  | None =>
      r ← exec [] ["which"; "betcode-daemon"];
      match r with
      | Err e => fail (with_context "failed to run `which betcode-daemon`" e)
      | Ok o => mret (if out_ok o then Some (trim (out_stdout o)) else None)
      end
  end.

Definition executable : Z := 493.      (* 0o755 *)

Definition install_user_daemon_binary (env : SetupEnv) (c : DaemonSetupConfig) : Setup string :=
  dest ← choose_user_binary_destination env;
  source ← resolve_source_binary c;
  _ ← match source with
      | Some src =>
          same ← is_same_file src dest;
          if same : bool then skip
          else (_ ← copy_file src dest; set_mode "failed to set permissions on daemon binary" dest executable)
      | None =>
          h ← get_host;
          if there dest h then skip
          else fail ("betcode-daemon not found on PATH and no existing installation at " +:+ dest +:+
                     ". Provide --daemon-binary with the absolute path to the binary.")
      end;
  _ ← match parent dest with
      | Some dir => if decide (path_components dir = path_components "/usr/local/bin") then skip else ensure_path_in_shell_config env dir
      | None => skip
      end;
  mret dest.

Definition ensure_user_exists (c : DaemonSetupConfig) : Setup unit :=
  if decide (ds_user c = "betcode") then ensure_system_user
  else (exists_ ← succeeds_cmd ["id"; ds_user c];
        if exists_ : bool then skip
        else fail ("system user '" +:+ ds_user c +:+ "' does not exist — create it first or use the default 'betcode' user")).

Definition write_env_file (c : DaemonSetupConfig) (is_update : bool) (path : string) (is_system : bool) : Setup unit :=
  written ← write_env_if_fresh path (daemon_env_file c) is_update;
  if negb written then skip
  else if is_system then
    (_ ← set_mode "failed to set permissions on daemon.env" path 416;     (* 0o640 *)
     run_cmd "setting ownership on daemon.env" ["chown"; "root:" +:+ ds_user c; path])
  else set_mode "failed to set permissions on daemon.env" path 384.        (* 0o600 *)

Definition write_system_unit (c : DaemonSetupConfig) : Setup unit :=
  _ ← write_text "failed to write systemd unit" SYSTEM_UNIT_PATH (daemon_unit_system c);
  run_cmd "reloading systemd daemon" ["systemctl"; "daemon-reload"].

Definition write_user_unit (env : SetupEnv) (binary : string) : Setup unit :=
  path ← of_result (user_unit_path env);
  _ ← write_text "failed to write user systemd unit" path (daemon_unit_user binary);
  run_cmd "reloading user systemd daemon" ["systemctl"; "--user"; "daemon-reload"].

(** A binary that is given is copied to its place; else one must be there. *)
Definition install_binary (what option_name dest : string) (src : option string) : Setup unit :=
  match src with
  | None =>
      h ← get_host;
      if there dest h then skip else fail (what +:+ " binary not found at " +:+ dest +:+ " and " +:+ option_name +:+ " not provided")
  | Some src => _ ← copy_file src dest; set_mode ("failed to set permissions on " +:+ what +:+ " binary") dest executable
  end.

Definition install_daemon_binary (c : DaemonSetupConfig) : Setup unit :=
  install_binary "daemon" "--daemon-binary" "/usr/local/bin/betcode-daemon" (ds_daemon_binary_path c).

(** Whether the service runs afterwards is only warned about. *)
Definition enable_and_start_system (is_update : bool) : Setup unit :=
  _ ← (if is_update then run_cmd "restarting betcode-daemon" ["systemctl"; "restart"; "betcode-daemon"]
       else run_cmd "enabling and starting betcode-daemon" ["systemctl"; "enable"; "--now"; "betcode-daemon"]);
  _ ← succeeds_cmd ["systemctl"; "is-active"; "betcode-daemon"];
  skip.

Definition enable_and_start_user (is_update : bool) : Setup unit :=
  _ ← (if is_update then run_cmd "restarting betcode-daemon (user)" ["systemctl"; "--user"; "restart"; "betcode-daemon"]
       else run_cmd "enabling and starting betcode-daemon (user)" ["systemctl"; "--user"; "enable"; "--now"; "betcode-daemon"]);
  _ ← succeeds_cmd ["systemctl"; "--user"; "is-active"; "betcode-daemon"];
  skip.

Definition create_user_directories (env : SetupEnv) : Setup unit :=
  match se_home env with
  | None => fail no_home
  | Some home =>
      _ ← make_dir (path_join home ".config/systemd/user");
      _ ← make_dir (path_join home ".config/betcode");
      make_dir (path_join home ".local/share/betcode")
  end.

Definition enable_linger : Setup unit := run_cmd "enabling lingering for current user" ["loginctl"; "enable-linger"].

Definition deploy_system (c : DaemonSetupConfig) (is_update : bool) : Setup unit :=
  _ ← ensure_user_exists c;
  _ ← create_setup_directories (ds_db_path c) (ds_user c);
  _ ← write_env_file c is_update SYSTEM_ENV_PATH true;
  _ ← write_system_unit c;
  active ← (if is_update then is_daemon_active_system else mret false);
  _ ← (if active : bool then run_cmd "stopping betcode-daemon" ["systemctl"; "stop"; "betcode-daemon"] else skip);
  _ ← install_daemon_binary c;
  if ds_enable_service c then enable_and_start_system is_update else skip.

Definition deploy_user (env : SetupEnv) (c : DaemonSetupConfig) (is_update : bool) : Setup unit :=
  _ ← create_user_directories env;
  path ← of_result (user_env_path env);
  _ ← write_env_file c is_update path false;
  active ← (if is_update then is_daemon_active_user else mret false);
  _ ← (if active : bool then run_cmd "stopping betcode-daemon (user)" ["systemctl"; "--user"; "stop"; "betcode-daemon"] else skip);
  binary ← install_user_daemon_binary env c;
  _ ← write_user_unit env binary;
  _ ← (if ds_enable_service c then enable_and_start_user is_update else skip);
  if ds_enable_linger c then enable_linger else skip.

(** ** The command (daemon/mod.rs) *)

Definition parse_daemon_env_machine_id (content : string) : option string :=
  head (omap (λ l, v ← strip_prefix "BETCODE_MACHINE_ID=" l; if decide (v = EmptyString) then None else Some v) (str_lines content)).

Definition load_existing_machine_id (env : SetupEnv) (is_update : bool) (mode : DaemonMode) : Setup (option string) := λ h,
  (h, Ok (if negb is_update then None
          else match (match mode with ModeSystem => Ok SYSTEM_ENV_PATH | ModeUser => user_env_path env end) with
               | Ok path => host_files h !! path ≫= parse_daemon_env_machine_id
               | Err _ => None
               end)).

Record DaemonSetupArgs := mkDaemonSetupArgs {
  dsa_mode : DaemonMode;
  dsa_user : string;
  dsa_addr : SockAddr;
  dsa_db_path : option string;
  dsa_max_processes : Z;
  dsa_max_sessions : Z;
  dsa_relay_url : option string;
  dsa_machine_id : option string;
  dsa_machine_name : string;
  dsa_relay_username : option string;
  dsa_relay_password : option string;
  dsa_relay_custom_ca_cert : option string;
  dsa_worktree_dir : option string;
  dsa_daemon_binary : option string
}.

Definition default_daemon_db_path (env : SetupEnv) (mode : DaemonMode) : result string string :=
  match mode with
  | ModeSystem => Ok "/var/lib/betcode/daemon.db"
  | ModeUser => match se_home env with Some h => Ok (path_join h ".local/share/betcode/daemon.db") | None => Err no_home end
  end.

Definition prompt_linger (env : SetupEnv) : Setup bool := ask env (mret false) (as_linger (se_answers env)).
Definition prompt_enable_service (env : SetupEnv) : Setup bool := ask env (mret true) (as_enable (se_answers env)).

(** A binary that is named must be there. *)
Definition canonical_binary (what : string) (p : option string) : Setup (option string) := λ h,
  match p with
  | None => (h, Ok None)
  | Some p => match pr_canonicalize p h with
              | Ok q => (h, Ok (Some q))
              | Err e => (h, Err (Failed (with_context (what +:+ " binary not found: " +:+ p) e)))
              end
  end.

Definition port_in_use (port : Z) (e : string) : string :=
  "port " +:+ pretty port +:+ " is already in use (" +:+ e +:+ "). Stop the service occupying it before running setup.".

(** The check of the port, unless the service that is updated holds it. *)
Definition check_port (is_update : bool) (is_active : Setup bool) (addr : string) (port : Z) : Setup unit :=
  active ← is_active;
  if should_skip_port_check is_update active then skip
  else (h ← get_host; match pr_bind addr h with None => skip | Some e => fail (port_in_use port e) end).

Definition validate_systemd_prereqs (addr : SockAddr) (is_update : bool) (mode : DaemonMode) : Setup unit :=
  found ← command_exists "systemctl";
  if negb found then fail "systemctl not found — daemon setup requires a systemd-based system"
  else check_port is_update (match mode with ModeSystem => is_daemon_active_system | ModeUser => is_daemon_active_user end)
         (addr_text addr) (sa_port addr).

Context {JT : JsonText} {JP : JsonPretty}.

(** The certificates: whether those that exist are replaced is asked. *)
Definition provision_step (env : SetupEnv) (machine_id : string) : Setup unit :=
  h ← get_host;
  overwrite ← (match default_certs_dir (se_home env) with
               | Some dir => if certs_exist dir (ho_disk h) then ask env (mret false) (as_overwrite (se_answers env)) else mret false
               | None => mret false
               end);
  on_disk (provision_mtls_certs (se_certs env) (se_home env) machine_id overwrite).

Definition daemon_is_update (env : SetupEnv) (mode : DaemonMode) : Setup bool := λ h,
  (h, Ok (match mode with
          | ModeSystem => there SYSTEM_UNIT_PATH h
          | ModeUser => match user_unit_path env with Ok p => there p h | Err _ => false end
          end)).

Definition setup_daemon (env : SetupEnv) (args : DaemonSetupArgs) : Setup unit :=
  let mode := dsa_mode args in
  is_update ← daemon_is_update env mode;
  db_path ← of_result (match dsa_db_path args with Some p => Ok p | None => default_daemon_db_path env mode end);
  binary ← canonical_binary "daemon" (dsa_daemon_binary args);
  linger ← match mode with ModeUser => prompt_linger env | ModeSystem => mret false end;
  enable ← (if is_update : bool then mret true else prompt_enable_service env);
  existing ← match dsa_machine_id args with Some m => mret (Some m) | None => load_existing_machine_id env is_update mode end;
  let c := mkDaemonSetup mode (dsa_user args) (dsa_addr args) db_path (dsa_max_processes args) (dsa_max_sessions args) (dsa_relay_url args)
             (default (se_uuid env) existing) (dsa_machine_name args) (dsa_relay_username args) (dsa_relay_password args)
             (dsa_relay_custom_ca_cert args) (dsa_worktree_dir args) None binary linger enable in
  _ ← match ds_relay_url c with Some _ => provision_step env (ds_machine_id c) | None => skip end;
  match mode with
  | ModeSystem =>
      _ ← escalate_if_needed env;
      _ ← validate_systemd_prereqs (ds_addr c) is_update ModeSystem;
      deploy_system c is_update
  | ModeUser =>
      _ ← validate_systemd_prereqs (ds_addr c) is_update ModeUser;
      deploy_user env c is_update
  end.

End Machine.

(** The set-up of the relay, of the download server and of the client.

    Models crates/betcode-setup/src/: relay/, releases/, cli/, os.rs and main.rs,
    on the host of Setup.v.  The command line was parsed. *)

(** * The relay (relay/, config.rs) *)

Record RelaySetupConfig := mkRelaySetup {
  rs_domain : string;
  rs_jwt_secret : string;
  rs_db_path : string;
  rs_mode : DeploymentMode;
  rs_binary : option string;
  rs_addr : SockAddr
}.

(** ** Files (templates.rs) *)

Definition dquote : string := String (byte 34) EmptyString.
Definition backslash : string := String (byte 92) EmptyString.
Definition quoted (s : string) : string := dquote +:+ s +:+ dquote.

Definition live_dir : string := "/etc/letsencrypt/live/".

Definition relay_unit (c : RelaySetupConfig) : string :=
  let cap_lines := if (sa_port (rs_addr c) <? 1024)%Z
                   then ["AmbientCapabilities=CAP_NET_BIND_SERVICE"; "CapabilityBoundingSet=CAP_NET_BIND_SERVICE"]
                   else [EmptyString] in
  unlines (["[Unit]"; "Description=BetCode Relay Server"; "After=network-online.target"; "Wants=network-online.target"; ""; "[Service]";
    "Type=simple"; "User=betcode"; "Group=betcode"; "EnvironmentFile=/etc/betcode/relay.env";
    "ExecStart=/usr/local/bin/betcode-relay " +:+ backslash;
    "  --tls-cert " +:+ live_dir +:+ rs_domain c +:+ "/fullchain.pem " +:+ backslash;
    "  --tls-key " +:+ live_dir +:+ rs_domain c +:+ "/privkey.pem " +:+ backslash;
    "  --addr " +:+ addr_text (rs_addr c);
    "Restart=on-failure"; "RestartSec=5"; ""; "# Hardening"; "NoNewPrivileges=true"; "ProtectSystem=strict"; "ProtectHome=true";
    "ReadWritePaths=/var/lib/betcode"; "ReadOnlyPaths=/etc/betcode /etc/letsencrypt"; "PrivateTmp=true"] ++
    cap_lines ++ [""; "[Install]"; "WantedBy=multi-user.target"]).

Definition relay_env_file (c : RelaySetupConfig) : string :=
  unlines ["BETCODE_JWT_SECRET=" +:+ rs_jwt_secret c; "BETCODE_DB_PATH=" +:+ rs_db_path c].

Definition certbot_pre_hook : string := unlines ["#!/bin/sh"; "systemctl stop betcode-relay"].
Definition certbot_post_hook : string := unlines ["#!/bin/sh"; "systemctl start betcode-relay"].

Definition dockerfile : string :=
  unlines ["FROM rust:1-bookworm AS builder"; "WORKDIR /src"; "COPY . .";
    "RUN cargo build --release --bin betcode-relay && strip target/release/betcode-relay"; ""; "FROM debian:bookworm-slim";
    "RUN apt-get update " +:+ backslash; "    && apt-get install -y --no-install-recommends ca-certificates " +:+ backslash;
    "    && rm -rf /var/lib/apt/lists/* " +:+ backslash; "    && useradd -r -s /usr/sbin/nologin betcode";
    "COPY --from=builder /src/target/release/betcode-relay /usr/local/bin/"; "USER betcode"; "EXPOSE 443";
    "ENTRYPOINT [" +:+ quoted "betcode-relay" +:+ "]"].

Definition docker_compose (c : RelaySetupConfig) : string :=
  let domain := rs_domain c in
  let port := pretty (sa_port (rs_addr c)) in
  unlines ["services:"; "  certbot-init:"; "    image: certbot/certbot:latest"; "    volumes:"; "      - certs:/etc/letsencrypt";
    "      - certbot-www:/var/www/certbot";
    "    command: certonly --standalone -d " +:+ domain +:+ " --agree-tos --non-interactive --email admin@" +:+ domain;
    "    profiles:"; "      - init"; ""; "  relay:"; "    build: ."; "    restart: unless-stopped"; "    ports:";
    "      - " +:+ quoted (port +:+ ":" +:+ port); "    env_file:"; "      - .env"; "    volumes:"; "      - data:/var/lib/betcode";
    "      - certs:/etc/letsencrypt:ro"; "    command:"; "      - --tls-cert"; "      - " +:+ live_dir +:+ domain +:+ "/fullchain.pem";
    "      - --tls-key"; "      - " +:+ live_dir +:+ domain +:+ "/privkey.pem"; "    depends_on:"; "      certbot-init:";
    "        condition: service_completed_successfully"; "        required: false"; ""; "volumes:"; "  data:"; "  certs:"; "  certbot-www:"].

Definition env_example (c : RelaySetupConfig) : string := unlines ["# BetCode Relay environment"] +:+ relay_env_file c.

(** ** What an installation says (relay/mod.rs) *)

Definition parse_domain_from_unit (content : string) : option string :=
  head (omap (λ l, '(_, after) ← split_once live_dir l; '(domain, _) ← split_once "/" after; Some domain) (str_lines content)).

(** The last line of each kind counts. *)
Definition parse_relay_env_file (content : string) : option string * option string :=
  foldl (λ acc l,
    match strip_prefix "BETCODE_JWT_SECRET=" l with
    | Some v => (Some v, acc.2)
    | None => match strip_prefix "BETCODE_DB_PATH=" l with Some v => (acc.1, Some v) | None => acc end
    end) (None, None) (str_lines content).

Definition RELAY_UNIT_PATH : string := "/etc/systemd/system/betcode-relay.service".
Definition RELAY_ENV_PATH : string := "/etc/betcode/relay.env".

Record ExistingConfig := mkExisting {
  ex_domain : option string;
  ex_jwt_secret : option string;
  ex_db_path : option string
}.

Definition load_existing_config `{OS : Outside} (h : Host) : ExistingConfig :=
  let '(jwt, db) := default (None, None) (parse_relay_env_file <$> host_files h !! RELAY_ENV_PATH) in
  mkExisting (host_files h !! RELAY_UNIT_PATH ≫= parse_domain_from_unit) jwt db.

Definition relay_path : string := "/usr/local/bin/betcode-relay".

Definition validate_relay `{OS : Outside} (c : RelaySetupConfig) (h : Host) : result string unit :=
  if decide (rs_domain c = EmptyString) then Err "domain must not be empty"
  else if String.length (rs_jwt_secret c) <? 32 then
    Err ("JWT secret must be at least 32 characters (got " +:+ pretty (String.length (rs_jwt_secret c)) +:+ ")")
  else match rs_mode c, rs_binary c with
       | Systemd, None => if there relay_path h then Ok tt else Err ("relay binary not found at " +:+ relay_path +:+ " and --relay-binary not provided")
       | _, _ => Ok tt
       end.

Section Servers.
Context `{PG : Programs} {CL : CertLib}.

(** ** Prerequisites (relay/validate.rs) *)

Definition is_betcode_relay_active : Setup bool := succeeds_cmd ["systemctl"; "is-active"; "--quiet"; "betcode-relay"].

Definition check_systemd_prereqs (addr : SockAddr) (is_update : bool) : Setup unit :=
  found ← command_exists "systemctl";
  if negb found then fail "systemctl not found — systemd mode requires a systemd-based system"
  else check_port is_update is_betcode_relay_active (addr_text addr) (sa_port addr).

Definition compose_works (program : string) : Setup bool :=
  found ← command_exists program;
  if found : bool then succeeds_cmd [program; "compose"; "version"] else mret false.

Definition detect_compose_command : Setup (list string) :=
  docker ← compose_works "docker";
  if docker : bool then mret ["docker"; "compose"]
  else (standalone ← command_exists "docker-compose";
        if standalone : bool then mret ["docker-compose"]
        else (podman ← compose_works "podman";
              if podman : bool then mret ["podman"; "compose"]
              else fail "no container compose command found. Install Docker (with compose plugin) or Podman (with podman-compose).")).

(** ** Deployment (relay/systemd.rs) *)

Definition write_relay_env_file (c : RelaySetupConfig) (is_update : bool) : Setup unit :=
  written ← write_env_if_fresh RELAY_ENV_PATH (relay_env_file c) is_update;
  if negb written then skip
  else (_ ← set_mode "failed to set permissions on relay.env" RELAY_ENV_PATH 416;
        run_cmd "setting ownership on relay.env" ["chown"; "root:betcode"; RELAY_ENV_PATH]).

Definition write_relay_unit (c : RelaySetupConfig) : Setup unit :=
  _ ← write_text "failed to write systemd unit" RELAY_UNIT_PATH (relay_unit c);
  run_cmd "reloading systemd daemon" ["systemctl"; "daemon-reload"].

Definition install_relay_binary (c : RelaySetupConfig) : Setup unit := install_binary "relay" "--relay-binary" relay_path (rs_binary c).

Definition cert_path (c : RelaySetupConfig) : string := live_dir +:+ rs_domain c +:+ "/fullchain.pem".
Definition should_skip_certbot (is_update : bool) (path : string) (h : Host) : bool := is_update && there path h.

(** A command of a package that is installed when it is missing. *)
Definition ensure_package (program package description : string) : Setup unit :=
  found ← command_exists program;
  if found : bool then skip else run_cmd description ["apt-get"; "install"; "-y"; package].

Definition grant_read (dir : string) : Setup unit :=
  h ← get_host;
  if there dir h then
    (_ ← run_cmd ("setting ACL on " +:+ dir) ["setfacl"; "-R"; "-m"; "u:betcode:rX"; dir];
     run_cmd ("setting default ACL on " +:+ dir) ["setfacl"; "-R"; "-m"; "d:u:betcode:rX"; dir])
  else skip.

Fixpoint each {A : Type} (f : A → Setup unit) (l : list A) : Setup unit :=
  match l with [] => skip | x :: l' => _ ← f x; each f l' end.

Definition hooks_dir : string := "/etc/letsencrypt/renewal-hooks".

Definition setup_certbot (c : RelaySetupConfig) (is_update : bool) : Setup unit :=
  h ← get_host;
  if should_skip_certbot is_update (cert_path c) h then skip
  else
    _ ← ensure_package "certbot" "certbot" "installing certbot";
    _ ← run_cmd ("obtaining TLS certificate for " +:+ rs_domain c)
          ["certbot"; "certonly"; "--standalone"; "-d"; rs_domain c; "--agree-tos"; "--non-interactive"; "--register-unsafely-without-email"];
    _ ← ensure_package "setfacl" "acl" "installing acl package";
    _ ← each grant_read ["/etc/letsencrypt/live"; "/etc/letsencrypt/archive"; live_dir +:+ rs_domain c; "/etc/letsencrypt/archive/" +:+ rs_domain c];
    _ ← make_dir (hooks_dir +:+ "/pre");
    _ ← make_dir (hooks_dir +:+ "/post");
    _ ← write_text "failed to write certbot pre-hook" (hooks_dir +:+ "/pre/betcode-relay.sh") certbot_pre_hook;
    _ ← write_text "failed to write certbot post-hook" (hooks_dir +:+ "/post/betcode-relay.sh") certbot_post_hook;
    _ ← set_mode EmptyString (hooks_dir +:+ "/pre/betcode-relay.sh") executable;
    set_mode EmptyString (hooks_dir +:+ "/post/betcode-relay.sh") executable.

Definition start_command_args (is_update : bool) : string * list string :=
  if is_update then ("restarting betcode-relay", ["restart"; "betcode-relay"])
  else ("enabling and starting betcode-relay", ["enable"; "--now"; "betcode-relay"]).

Definition enable_and_start_relay (is_update : bool) : Setup unit :=
  let '(description, args) := start_command_args is_update in
  _ ← run_cmd description ("systemctl" :: args);
  _ ← succeeds_cmd ["systemctl"; "is-active"; "betcode-relay"];
  skip.

Definition deploy_relay (c : RelaySetupConfig) (is_update : bool) : Setup unit :=
  _ ← ensure_system_user;
  _ ← create_setup_directories (rs_db_path c) "betcode";
  _ ← write_relay_env_file c is_update;
  _ ← write_relay_unit c;
  active ← (if is_update then is_betcode_relay_active else mret false);
  _ ← (if active : bool then run_cmd "stopping betcode-relay" ["systemctl"; "stop"; "betcode-relay"] else skip);
  _ ← install_relay_binary c;
  _ ← setup_certbot c is_update;
  enable_and_start_relay is_update.

(** ** Docker (relay/docker.rs) *)

Definition rename_file (context src dest : string) : Setup unit := λ h,
  match pr_write_error dest h, host_files h !! src with
  | Some (e, _), _ => (h, Err (Failed (with_context context e)))
  | None, Some t => (with_files (<[dest := t]> (delete src (host_files h))) h, Ok tt)
  | None, None => (h, Err (Failed (with_context context not_found)))
  end.

Definition write_with_backup (filename content : string) : Setup unit :=
  h ← get_host;
  _ ← (if there filename h then rename_file ("failed to backup " +:+ filename) filename (filename +:+ ".bak") else skip);
  write_text ("failed to write " +:+ filename) filename content.

Definition generate_docker (c : RelaySetupConfig) : Setup unit :=
  _ ← write_with_backup "Dockerfile" dockerfile;
  _ ← write_with_backup "docker-compose.yml" (docker_compose c);
  write_with_backup ".env.example" (env_example c).

(** ** The command *)

Record RelayArgs := mkRelayArgs {
  rla_domain : option string;
  rla_jwt_secret : option string;
  rla_db_path : option string;
  rla_mode : option DeploymentMode;
  rla_binary : option string;
  rla_addr : SockAddr
}.

Definition default_relay_addr : SockAddr := mkSockAddr "0.0.0.0" 443.

(** What is given, else what is installed, else what is asked for. *)
Definition given_or {A : Type} (given existing : option A) (asked : Setup A) : Setup A :=
  match given with
  | Some a => mret a
  | None => match existing with Some a => mret a | None => asked end
  end.

Definition setup_relay (env : SetupEnv) (args : RelayArgs) : Setup unit :=
  h ← get_host;
  let is_update := there RELAY_UNIT_PATH h in
  let existing := if is_update then load_existing_config h else mkExisting None None None in
  domain ← given_or (rla_domain args) (ex_domain existing) (prompt_domain env "localhost");
  secret ← given_or (rla_jwt_secret args) (ex_jwt_secret existing) (prompt_jwt_secret env);
  db_path ← given_or (rla_db_path args) (ex_db_path existing) (prompt_db_path env "/var/lib/betcode/relay.db");
  mode ← given_or (rla_mode args) (if is_update then Some Systemd else None) (prompt_deployment_mode env);
  binary ← canonical_binary "relay" (rla_binary args);
  let c := mkRelaySetup domain secret db_path mode binary (rla_addr args) in
  h ← get_host;
  _ ← of_result (validate_relay c h);
  match mode with
  | Systemd =>
      _ ← escalate_if_needed env;
      _ ← check_systemd_prereqs (rs_addr c) is_update;
      deploy_relay c is_update
  | Docker =>
      _ ← detect_compose_command;
      generate_docker c
  end.

(** * The download server (releases/) *)

Definition RELEASES_UNIT_PATH : string := "/etc/systemd/system/betcode-releases.service".

Definition releases_unit (domain repo : string) (localhost_only : bool) : string :=
  unlines ["[Unit]"; "Description=BetCode Release Download Server"; "After=network-online.target"; "Wants=network-online.target"; "";
    "[Service]"; "Type=simple"; "User=betcode"; "Group=betcode"; "ExecStart=/usr/local/bin/betcode-releases " +:+ backslash;
    "  --addr " +:+ (if localhost_only then "127.0.0.1:8090" else "0.0.0.0:8090") +:+ " " +:+ backslash;
    "  --repo " +:+ repo +:+ " " +:+ backslash; "  --base-url " +:+ domain;
    "Restart=on-failure"; "RestartSec=5"; ""; "NoNewPrivileges=true"; "ProtectSystem=strict"; "ProtectHome=true"; "PrivateTmp=true"; "";
    "[Install]"; "WantedBy=multi-user.target"].

Definition caddyfile_site (domain : string) (acme_email : option string) : string :=
  let email_block := match acme_email with
                     | None => EmptyString
                     | Some email => unlines [EmptyString; "    tls {"; "        email " +:+ email; "    }"]
                     end in
  unlines [domain +:+ " {"; "    encode gzip" +:+ email_block; ""; "    reverse_proxy localhost:8090"; ""; "    log {";
    "        output file /var/log/caddy/betcode-releases.log"; "    }"; "}"].

Definition is_releases_active : Setup bool := succeeds_cmd ["systemctl"; "is-active"; "--quiet"; "betcode-releases"].

Definition check_prereqs (is_update : bool) : Setup unit :=
  found ← command_exists "systemctl";
  if negb found then fail "systemctl not found — releases setup requires a systemd-based system"
  else check_port is_update is_releases_active "0.0.0.0:8090" 8090.

Definition deploy_releases (binary : option string) (domain repo : string) (is_update use_caddy : bool) : Setup unit :=
  _ ← ensure_system_user;
  active ← (if is_update then is_releases_active else mret false);
  _ ← (if active : bool then run_cmd "stopping betcode-releases" ["systemctl"; "stop"; "betcode-releases"] else skip);
  _ ← install_binary "releases" "--releases-binary" "/usr/local/bin/betcode-releases" binary;
  _ ← write_text "failed to write releases systemd unit" RELEASES_UNIT_PATH (releases_unit domain repo use_caddy);
  _ ← run_cmd "reloading systemd daemon" ["systemctl"; "daemon-reload"];
  if is_update then run_cmd "restarting betcode-releases" ["systemctl"; "restart"; "betcode-releases"]
  else run_cmd "enabling and starting betcode-releases" ["systemctl"; "enable"; "--now"; "betcode-releases"].

(** ** Caddy (caddy.rs) *)

Definition MAIN_CADDYFILE : string := "/etc/caddy/Caddyfile".
Definition import_line : string := "import /etc/caddy/conf.d/*".

(** The key goes to a second process through a pipe; nothing waits for it. *)
Definition install_caddy : Setup unit :=
  found ← command_exists "caddy";
  if found : bool then skip
  else
    _ ← run_cmd "installing prerequisites"
          ["apt-get"; "install"; "-y"; "debian-keyring"; "debian-archive-keyring"; "apt-transport-https"; "curl"];
    key ← exec [] ["curl"; "-1sLf"; "https://dl.cloudsmith.io/public/caddy/stable/gpg.key"];
    _ ← match key with
        | Err e => fail (with_context "failed to download caddy GPG key" e)
        | Ok o => if out_ok o then skip else fail "failed to download caddy GPG key"
        end;
    dearmor ← exec [] ["gpg"; "--dearmor"; "-o"; "/usr/share/keyrings/caddy-stable-archive-keyring.gpg"];
    _ ← match dearmor with Err e => fail (with_context "failed to spawn gpg" e) | Ok _ => skip end;
    _ ← write_text "failed to write caddy apt source" "/etc/apt/sources.list.d/caddy-stable.list"
          (unlines ["deb [signed-by=/usr/share/keyrings/caddy-stable-archive-keyring.gpg] https://dl.cloudsmith.io/public/caddy/stable/deb/debian any-version main"]);
    _ ← run_cmd "updating apt" ["apt-get"; "update"];
    run_cmd "installing caddy" ["apt-get"; "install"; "-y"; "caddy"].

Definition with_import (content : string) : string :=
  content +:+ (if negb (ends_with lf content) && negb (bool_decide (content = EmptyString)) then lf else EmptyString) +:+ import_line +:+ lf.

Definition write_main_caddyfile : Setup unit :=
  h ← get_host;
  content ← (if there MAIN_CADDYFILE h then read_text "failed to read Caddyfile" MAIN_CADDYFILE else mret EmptyString);
  if contains import_line content then skip
  else write_text "failed to write Caddyfile" MAIN_CADDYFILE (with_import content).

Definition create_log_dir : Setup unit :=
  let log_file := "/var/log/caddy/betcode-releases.log" in
  _ ← make_dir "/var/log/caddy";
  _ ← set_mode "failed to set permissions on log dir" "/var/log/caddy" executable;
  h ← get_host;
  _ ← (if there log_file h then skip else write_text ("failed to create " +:+ log_file) log_file EmptyString);
  run_cmd "setting ownership on caddy log dir" ["chown"; "-R"; "caddy:caddy"; "/var/log/caddy"].

Definition reload_caddy : Setup unit :=
  _ ← run_cmd "validating caddy config" ["caddy"; "validate"; "--config"; MAIN_CADDYFILE];
  run_cmd "reloading caddy" ["systemctl"; "reload-or-restart"; "caddy"].

Definition setup_caddy (domain : string) (acme_email : option string) : Setup unit :=
  _ ← install_caddy;
  _ ← make_dir "/etc/caddy/conf.d";
  _ ← write_main_caddyfile;
  _ ← write_text "failed to write caddy site config" "/etc/caddy/conf.d/betcode-releases.caddy" (caddyfile_site domain acme_email);
  _ ← create_log_dir;
  reload_caddy.

Record ReleasesArgs := mkReleasesArgs {
  rea_domain : option string;
  rea_binary : option string;
  rea_github_repo : string;
  rea_no_caddy : bool;
  rea_acme_email : option string
}.

Definition setup_releases (env : SetupEnv) (args : ReleasesArgs) : Setup unit :=
  h ← get_host;
  let is_update := there RELEASES_UNIT_PATH h in
  domain ← given_or (rea_domain args) None (prompt_domain env "get.betcode.dev");
  binary ← canonical_binary "releases" (rea_binary args);
  _ ← escalate_if_needed env;
  _ ← check_prereqs is_update;
  let use_caddy := negb (rea_no_caddy args) in
  _ ← deploy_releases binary domain (rea_github_repo args) is_update use_caddy;
  if use_caddy then setup_caddy domain (rea_acme_email args) else skip.

(** * The client (cli/) *)

Record WizardArgs := mkWizardArgs {
  wa_relay : option string;
  wa_cli_binary : option string;
  wa_username : option string;
  wa_machine_name : option string;
  wa_register : bool;
  wa_login : bool
}.

Definition find_betcode_binary (explicit : option string) : Setup string :=
  match explicit with
  | Some p => λ h, match pr_canonicalize p h with
                   | Ok q => (h, Ok q)
                   | Err e => (h, Err (Failed (with_context ("betcode binary not found: " +:+ p) e)))
                   end
  | None =>
      found ← command_exists "betcode";
      if found : bool then mret "betcode" else fail "betcode CLI not found on PATH. Install it first, or use --cli-binary <path>"
  end.

Definition run_betcode_auth (betcode relay_url action username password : string) : Setup unit :=
  r ← exec [("BETCODE_PASSWORD", password)] [betcode; "--relay"; relay_url; "auth"; action; "-u"; username];
  match r with
  | Err e => fail (with_context ("failed to run betcode auth " +:+ action) e)
  | Ok o => if out_ok o then skip else fail ("auth " +:+ action +:+ " failed: " +:+ out_stdout o +:+ out_stderr o)
  end.

Definition machine_id_of_output (stdout : string) : option string :=
  head (omap (λ l, trim <$> strip_prefix "ID:" (trim l)) (str_lines stdout)).

Definition run_betcode_machine_register (betcode relay_url name : string) : Setup string :=
  r ← exec [] [betcode; "--relay"; relay_url; "machine"; "register"; "--name"; name];
  match r with
  | Err e => fail (with_context "failed to run betcode machine register" e)
  | Ok o =>
      if negb (out_ok o) then fail ("machine register failed: " +:+ out_stdout o +:+ out_stderr o)
      else match machine_id_of_output (out_stdout o) with
           | Some id => mret id
           | None => fail ("could not parse machine ID from output:" +:+ lf +:+ out_stdout o)
           end
  end.

Definition run_betcode_machine_switch (betcode machine_id : string) : Setup unit :=
  r ← exec [] [betcode; "machine"; "switch"; machine_id];
  match r with
  | Err e => fail (with_context "failed to run betcode machine switch" e)
  | Ok o => if out_ok o then skip else fail ("machine switch failed: " +:+ out_stderr o)
  end.

Definition run_wizard (env : SetupEnv) (betcode : string) (args : WizardArgs) : Setup unit :=
  relay_url ← given_or (wa_relay args) None (prompt_relay_url env "https://relay.example.com:443");
  username ← given_or (wa_username args) None (prompt_username env);
  password ← prompt_password env;
  is_login ← (if wa_login args then mret true else if wa_register args then mret false else prompt_auth_action env);
  _ ← run_betcode_auth betcode relay_url (if is_login : bool then "login" else "register") username password;
  machine_name ← match wa_machine_name args with
                 | Some n => mret n
                 | None => hostname ← run_cmd_output ["hostname"];
                           prompt_machine_name env (match hostname with Ok n => n | Err _ => "my-machine" end)
                 end;
  machine_id ← run_betcode_machine_register betcode relay_url machine_name;
  run_betcode_machine_switch betcode machine_id.

Definition setup_cli (env : SetupEnv) (args : WizardArgs) : Setup unit :=
  betcode ← find_betcode_binary (wa_cli_binary args);
  run_wizard env betcode args.

(** * The system (os.rs) and the start (main.rs) *)

(** [trim_matches] of a double quote. *)
Fixpoint drop_quotes (s : string) : string :=
  match s with String c s' => if decide (c = byte 34) then drop_quotes s' else s | EmptyString => s end.
Definition reverse_text (s : string) : string := String.string_of_list_ascii (rev (String.list_ascii_of_string s)).
Definition trim_quotes (s : string) : string := reverse_text (drop_quotes (reverse_text (drop_quotes s))).

Definition parse_os_release (content : string) : gmap string string :=
  foldl (λ m l,
    let l := trim l in
    if bool_decide (l = EmptyString) || starts_with "#" l then m
    else match split_once "=" l with Some (k, v) => <[k := trim_quotes v]> m | None => m end) ∅ (str_lines content).

Definition ensure_ubuntu : Setup unit :=
  content ← read_text "failed to read /etc/os-release" "/etc/os-release";
  let id := default "unknown" (parse_os_release content !! "ID") in
  if decide (id = "ubuntu") then skip
  else fail ("betcode-setup currently only supports Ubuntu (detected OS: " +:+ id +:+ "). Contributions for other distributions are welcome!").

Inductive SetupCommand :=
| SetupRelay (args : RelayArgs)
| SetupDaemon (args : DaemonSetupArgs)
| SetupCli (args : WizardArgs)
| SetupReleases (args : ReleasesArgs).

Definition setup_main {JT : JsonText} {JP : JsonPretty} (env : SetupEnv) (command : SetupCommand) : Setup unit :=
  match command with
  | SetupRelay args => _ ← ensure_ubuntu; setup_relay env args
  | SetupDaemon args => setup_daemon env args
  | SetupCli args => setup_cli env args
  | SetupReleases args => _ ← ensure_ubuntu; setup_releases env args
  end.

End Servers.
