(* ===== verification/ClientConfig.v ===== *)
(** The client's configuration, log-in and machines, and its start.

    Models crates/betcode-cli/src/: config.rs, relay.rs, auth_cmd.rs,
    machine_cmd.rs and main.rs, and the file of
    crates/betcode-crypto/src/fingerprint_store.rs.  A command prints and ends ([CliEnd]); what a
    relay answers is behind the class [Relays]; writing to the standard output
    succeeds.  [ensure_valid_token] is cut where it waits: sending the refresh,
    and storing what came back. *)
From stdpp Require Import gmap strings list pretty.
From Stdlib Require Import ZArith Lia.
From S2P Require Import Prelude Protocol Json JsonFile Utf8 Worktrees CryptoSession Fingerprint RelayProxy ClientConnection ClientCalls ClientCommands.

(** * The configuration (config.rs) *)

Record AuthConfig := mkAuthConfig {
  au_user_id : string;
  au_username : string;
  au_access_token : string;
  au_refresh_token : string
}.

Record CliConfig := mkCliConfig {
  cc_relay_url : option string;
  cc_active_machine : option string;
  cc_auth : option AuthConfig;
  cc_ca_cert : option string
}.

#[export] Instance AuthConfig_eq_dec : EqDecision AuthConfig.
Proof. solve_decision. Defined.
#[export] Instance CliConfig_eq_dec : EqDecision CliConfig.
Proof. solve_decision. Defined.

Definition default_cli_config : CliConfig := mkCliConfig None None None None.
Definition set_auth (a : option AuthConfig) (c : CliConfig) : CliConfig := mkCliConfig (cc_relay_url c) (cc_active_machine c) a (cc_ca_cert c).
Definition set_active_machine (m : option string) (c : CliConfig) : CliConfig := mkCliConfig (cc_relay_url c) m (cc_auth c) (cc_ca_cert c).

Definition clear_auth (c : CliConfig) : CliConfig := set_auth None c.
Definition is_relay_mode (c : CliConfig) : bool :=
  bool_decide (is_Some (cc_relay_url c)) && bool_decide (is_Some (cc_auth c)) && bool_decide (is_Some (cc_active_machine c)).

(** ** The file *)

Definition auth_json (a : AuthConfig) : Json :=
  JObj [("access_token", JStr (au_access_token a)); ("refresh_token", JStr (au_refresh_token a)); ("user_id", JStr (au_user_id a));
        ("username", JStr (au_username a))].

(** An entry that is skipped when there is nothing. *)
Definition entry {A : Type} (key : string) (render : A → Json) (x : option A) : list (string * Json) :=
  match x with Some a => [(key, render a)] | None => [] end.

Definition cli_config_json (c : CliConfig) : Json :=
  JObj (entry "active_machine" JStr (cc_active_machine c) ++ entry "auth" auth_json (cc_auth c) ++
        entry "relay_custom_ca_cert" JStr (cc_ca_cert c) ++ entry "relay_url" JStr (cc_relay_url c)).

Definition read_auth_config (v : Json) : option AuthConfig :=
  if struct_shape 4 v then
    user ← required as_str (struct_field 0 "user_id" v);
    name ← required as_str (struct_field 1 "username" v);
    access ← required as_str (struct_field 2 "access_token" v);
    refresh ← required as_str (struct_field 3 "refresh_token" v);
    Some (mkAuthConfig user name access refresh)
  else None.

(** The authority has an alias; a field given under both names is an error. *)
Definition ca_field (v : Json) : option (option Json) :=
  match v with
  | JObj entries =>
      match assoc "relay_custom_ca_cert" entries, assoc "relay_ca_cert" entries with
      | Some _, Some _ => None
      | Some w, None | None, Some w => Some (Some w)
      | None, None => Some None
      end
  | _ => Some (struct_field 3 "relay_custom_ca_cert" v)
  end.

Definition read_cli_config (v : Json) : option CliConfig :=
  if struct_shape 4 v then
    url ← optional as_str v (struct_field 0 "relay_url" v);
    machine ← optional as_str v (struct_field 1 "active_machine" v);
    auth ← optional read_auth_config v (struct_field 2 "auth" v);
    field ← ca_field v;
    ca ← optional as_str v field;
    Some (mkCliConfig url machine auth ca)
  else None.

Definition config_dir (home : option string) : option string := (λ h, path_join h ".betcode") <$> home.
Definition config_path (home : option string) : option string := (λ d, path_join d "config.json") <$> config_dir home.

(** The machine the client runs on, and what fails there. *)
Record CliEnv := mkCliEnv {
  ve_home : option string;
  ve_cwd : string;
  ve_uuid : string;
  ve_mkdir : option string;
  ve_write : option (string * option string)   (** the error, and what is left of the file *)
}.

(** * Relays *)

Inductive AuthRequest :=
| RqRegister (username password email : string)
| RqLogin (username password : string)
| RqRefresh (token : string)
| RqRevoke (token : string).

Record AuthResponse := mkAuthResponse {
  ar_user_id : string;
  ar_access_token : string;
  ar_refresh_token : string
}.

Inductive MachineCall : Type → Type :=
| McRegister (id name : string) : MachineCall (option MachineInfo)
| McList (limit offset : nat) : MachineCall (list MachineInfo)
| McGet (id : string) : MachineCall (option MachineInfo).

Class Relays := {
  rl_state : Type;
  rl_uri_error : string → option string;                          (** what the library makes of an address *)
  rl_tls_error : option string → option string;                   (** and of an authority *)
  rl_connect_error : string → option string → rl_state → option string;
  rl_auth : string → AuthRequest → rl_state → rl_state * result Status AuthResponse;
  rl_machine : ∀ R : Type, string → string → MachineCall R → rl_state → rl_state * result Status R;
  rl_header_ok : string → bool;
  rl_status_text : Status → string
}.

Section Client.
Context {JT : JsonText} {JP : JsonPretty} {RL : Relays}.

Record CliWorld := mkCliWorld {
  cw_files : gmap string string;
  cw_relays : rl_state
}.

Definition set_files (f : gmap string string) (w : CliWorld) : CliWorld := mkCliWorld f (cw_relays w).
Definition set_relays (s : rl_state) (w : CliWorld) : CliWorld := mkCliWorld (cw_files w) s.

Definition load_config (home : option string) (w : CliWorld) : CliConfig :=
  default default_cli_config (p ← config_path home; text ← cw_files w !! p; v ← json_parse text; read_cli_config v).

Definition save_config (env : CliEnv) (c : CliConfig) (w : CliWorld) : CliWorld * result string unit :=
  match config_dir (ve_home env) with
  | None => (w, Err "Cannot determine home directory")
  | Some dir =>
      match ve_mkdir env with
      | Some e => (w, Err e)
      | None =>
          let path := path_join dir "config.json" in
          match ve_write env with
          | None => (set_files (<[path := json_pretty (cli_config_json c)]> (cw_files w)) w, Ok tt)
          | Some (e, rest) => (match rest with Some t => set_files (<[path := t]> (cw_files w)) w | None => w end, Err e)
          end
      end
  end.

(** ** Channels (relay.rs) *)

Definition relay_channel (url : string) (ca : option string) (w : CliWorld) : result string unit :=
  match rl_uri_error url with
  | Some e => Err e
  | None =>
      let connect ca_text := match rl_connect_error url ca_text (cw_relays w) with
                             | Some e => Err ("Failed to connect to relay: " +:+ e)
                             | None => Ok tt
                             end in
      if starts_with "https://" url then
        let? ca_text := match ca with
                        | None => Ok None
                        | Some path =>
                            match cw_files w !! path with
                            | Some t => Ok (Some t)
                            | None => Err ("Failed to read CA cert " +:+ path +:+ ": No such file or directory (os error 2)")
                            end
                        end in
        match rl_tls_error ca_text with
        | Some e => Err ("TLS config error: " +:+ e)
        | None => connect ca_text
        end
      else connect None
  end.

(** A call of the authentication service at the configured address. *)
Definition auth_call (prefix : string) (url : string) (req : AuthRequest) (w : CliWorld) : CliWorld * result string AuthResponse :=
  match rl_auth url req (cw_relays w) with
  | (s, Ok r) => (set_relays s w, Ok r)
  | (s, Err e) => (set_relays s w, Err (prefix +:+ message e))
  end.

(** * Log-in (auth_cmd.rs) *)

(** The refresh, up to the response. *)
Definition refresh_send (c : CliConfig) (w : CliWorld) : CliWorld * result string AuthResponse :=
  match cc_relay_url c with
  | None => (w, Err "No relay URL configured")
  | Some url =>
      match cc_auth c with
      | None => (w, Err "Not logged in")
      | Some auth =>
          match relay_channel url (cc_ca_cert c) w with
          | Err e => (w, Err ("Cannot reach relay: " +:+ e))
          | Ok _ => auth_call "Token refresh failed (re-login required): " url (RqRefresh (au_refresh_token auth)) w
          end
      end
  end.

(** What is kept of it; only after the response was stored is it saved. *)
Definition refreshed (r : AuthResponse) (c : CliConfig) : CliConfig :=
  set_auth ((λ a, mkAuthConfig (au_user_id a) (au_username a) (ar_access_token r) (ar_refresh_token r)) <$> cc_auth c) c.

Definition ensure_valid_token (env : CliEnv) (c : CliConfig) (w : CliWorld) : CliConfig * CliWorld * result string unit :=
  match refresh_send c w with
  | (w', Err e) => (c, w', Err e)
  | (w', Ok r) => let c' := refreshed r c in let '(w'', saved) := save_config env c' w' in (c', w'', saved)
  end.

Inductive AuthAction :=
| AuthRegister (username password email : string)
| AuthLogin (username password : string)
| AuthLogout
| AuthStatus.

Definition finish_auth (env : CliEnv) (c : CliConfig) (username : string) (r : AuthResponse) (label : string) (w : CliWorld)
  : CliConfig * CliWorld * (string * CliEnd) :=
  let c' := set_auth (Some (mkAuthConfig (ar_user_id r) username (ar_access_token r) (ar_refresh_token r))) c in
  match save_config env c' w with
  | (w', Ok _) => (c', w', (line (label +:+ " as " +:+ username), CliDone))
  | (w', Err e) => (c', w', (EmptyString, CliFailed (CliText e)))
  end.

Definition register_or_login (env : CliEnv) (c : CliConfig) (prefix label username : string) (req : AuthRequest) (w : CliWorld)
  : CliConfig * CliWorld * (string * CliEnd) :=
  let failed w e := (c, w, (EmptyString, CliFailed (CliText e))) in
  match cc_relay_url c with
  | None => failed w "No relay URL configured. Use --relay <url>"
  | Some url =>
      match relay_channel url (cc_ca_cert c) w with
      | Err e => failed w e
      | Ok _ =>
          match auth_call prefix url req w with
          | (w', Err e) => failed w' e
          | (w', Ok r) => finish_auth env c username r label w'
          end
      end
  end.

(** The revocation may fail in every way; the log-in is forgotten all the
    same. *)
Definition logout (env : CliEnv) (c : CliConfig) (w : CliWorld) : CliConfig * CliWorld * (string * CliEnd) :=
  let w1 := match cc_auth c, cc_relay_url c with
            | Some auth, Some url =>
                match relay_channel url (cc_ca_cert c) w with
                | Ok _ => set_relays (rl_auth url (RqRevoke (au_refresh_token auth)) (cw_relays w)).1 w
                | Err _ => w
                end
            | _, _ => w
            end in
  let c' := clear_auth c in
  match save_config env c' w1 with
  | (w2, Ok _) => (c', w2, (line "Logged out", CliDone))
  | (w2, Err e) => (c', w2, (EmptyString, CliFailed (CliText e)))
  end.

Definition auth_status (env : CliEnv) (c : CliConfig) (w : CliWorld) : CliConfig * CliWorld * (string * CliEnd) :=
  match cc_auth c with
  | None => (c, w, (line "Not logged in", CliDone))
  | Some auth =>
      let out := line ("Logged in as: " +:+ au_username auth) +:+ line ("User ID: " +:+ au_user_id auth) in
      match cc_relay_url c with
      | None => (c, w, (out, CliDone))
      | Some url =>
          let out' := out +:+ line ("Relay: " +:+ url) in
          match ensure_valid_token env c w with
          | (c', w', Ok _) => (c', w', (out' +:+ line "Token: valid (refreshed)", CliDone))
          | (c', w', Err e) => (c', w', (out' +:+ line ("Token: invalid (" +:+ e +:+ ")"), CliDone))
          end
      end
  end.

Definition run_auth (env : CliEnv) (action : AuthAction) (c : CliConfig) (w : CliWorld) : CliConfig * CliWorld * (string * CliEnd) :=
  match action with
  | AuthRegister u p e => register_or_login env c "Registration failed: " "Registered and logged in" u (RqRegister u p e) w
  | AuthLogin u p => register_or_login env c "Login failed: " "Logged in" u (RqLogin u p) w
  | AuthLogout => logout env c w
  | AuthStatus => auth_status env c w
  end.

(** * Machines (machine_cmd.rs) *)

Inductive MachineAction := MachineRegister (id : option string) (name : string) | MachineList | MachineSwitch (id : string) | MachineShow.

Definition machine_status_text (s : MachineStatus) : string :=
  match s with MachineOnline => "online" | MachineOfflineStatus => "offline" | MachineUnspecified => "unknown" end.

(** A call with the token of the log-in; [inl] is an error before it was sent. *)
Definition machine_call {R : Type} (c : CliConfig) (q : MachineCall R) (w : CliWorld) : string + (CliWorld * result Status R) :=
  match cc_relay_url c with
  | None => inl "No relay URL configured. Use --relay <url>"
  | Some url =>
      match relay_channel url (cc_ca_cert c) w with
      | Err e => inl e
      | Ok _ =>
          match cc_auth c with
          | None => inl "Not logged in. Run: betcode auth login"
          | Some auth =>
              let header := "Bearer " +:+ au_access_token auth in
              if rl_header_ok header then
                let '(s, r) := rl_machine R url header q (cw_relays w) in inr (set_relays s w, r)
              else inl "Invalid token format"
          end
      end
  end.

Definition machine_columns (marker id name status : string) : string :=
  pad_right 3 marker +:+ " " +:+ pad_right 36 id +:+ " " +:+ pad_right 20 name +:+ " " +:+ pad_right 8 status.

Definition machine_list_text (c : CliConfig) (machines : list MachineInfo) : string :=
  match machines with
  | [] => line "No machines registered"
  | _ =>
      line (machine_columns EmptyString "ID" "NAME" "STATUS") +:+
      concat_text ((λ m, line (machine_columns (if decide (mi_machine_id m = default EmptyString (cc_active_machine c)) then " *" else "  ")
                                 (mi_machine_id m) (mi_name m) (machine_status_text (mi_status m)))) <$> machines)
  end.

Definition run_machine (env : CliEnv) (action : MachineAction) (c0 : CliConfig) (w0 : CliWorld) : CliConfig * CliWorld * (string * CliEnd) :=
  match ensure_valid_token env c0 w0 with
  | (c, w, Err e) => (c, w, (EmptyString, CliFailed (CliText e)))
  | (c, w, Ok _) =>
      let failed w out e := (c, w, (out, CliFailed (CliText e))) in
      match action with
      | MachineRegister id name =>
          match machine_call c (McRegister (default (ve_uuid env) id) name) w with
          | inl e => failed w EmptyString e
          | inr (w', Err s) => failed w' EmptyString (rl_status_text s)
          | inr (w', Ok None) => (c, w', (EmptyString, CliDone))
          | inr (w', Ok (Some m)) =>
              (c, w', (line "Machine registered:" +:+ line ("  ID:   " +:+ mi_machine_id m) +:+ line ("  Name: " +:+ mi_name m) +:+
                       line (lf +:+ "To use this machine, run:") +:+ line ("  betcode machine switch " +:+ mi_machine_id m), CliDone))
          end
      | MachineList =>
          match machine_call c (McList 50 0) w with
          | inl e => failed w EmptyString e
          | inr (w', Err s) => failed w' EmptyString (rl_status_text s)
          | inr (w', Ok machines) => (c, w', (machine_list_text c machines, CliDone))
          end
      | MachineSwitch id =>
          match machine_call c (McGet id) w with
          | inl e => failed w EmptyString e
          | inr (w', Err s) => failed w' EmptyString ("Machine '" +:+ id +:+ "' not found: " +:+ message s +:+ ". Run `betcode machine list` to see available machines.")
          | inr (w', Ok None) => failed w' EmptyString ("Machine '" +:+ id +:+ "' not found on relay")
          | inr (w', Ok (Some m)) =>
              let c' := set_active_machine (Some (mi_machine_id m)) c in
              match save_config env c' w' with
              | (w'', Ok _) => (c', w'', (line ("Active machine: " +:+ mi_machine_id m +:+ " (" +:+ mi_name m +:+ ")"), CliDone))
              | (w'', Err e) => (c', w'', (EmptyString, CliFailed (CliText e)))
              end
          end
      | MachineShow =>
          match cc_active_machine c with
          | None => (c, w, (line "No active machine (using local daemon)", CliDone))
          | Some id =>
              let out := line ("Active machine: " +:+ id) in
              if bool_decide (is_Some (cc_relay_url c)) && bool_decide (is_Some (cc_auth c)) then
                match machine_call c (McGet id) w with
                | inl e => failed w out e
                | inr (w', Err s) => (c, w', (out +:+ line ("Could not query machine: " +:+ message s), CliDone))
                | inr (w', Ok None) => (c, w', (out, CliDone))
                | inr (w', Ok (Some m)) =>
                    (c, w', (out +:+ line ("Name: " +:+ mi_name m) +:+ line ("Status: " +:+ machine_status_text (mi_status m)), CliDone))
                end
              else (c, w, (out, CliDone))
          end
      end
  end.

(** * The start (main.rs) *)

(** The command on the daemon's certificate is [run_rotate_cert] of
    Certificates.v. *)
Inductive CliCommand :=
| CmdAuth (action : AuthAction)
| CmdMachine (action : MachineAction)
| CmdDaemon (certs_dir machine_id : option string)
| CmdOther.

Record CliArgs := mkCliArgs {
  ca_relay : option string;
  ca_machine : option string;
  ca_custom_ca : option string;
  ca_daemon_addr : string;
  ca_command : CliCommand
}.

(** The flags take the place of the file's values. *)
Definition with_flags (args : CliArgs) (c : CliConfig) : CliConfig :=
  mkCliConfig (match ca_relay args with Some u => Some u | None => cc_relay_url c end)
    (match ca_machine args with Some m => Some m | None => cc_active_machine c end) (cc_auth c)
    (match ca_custom_ca args with Some p => Some p | None => cc_ca_cert c end).

(** Where the connection goes. *)
Record ConnectTo := mkConnectTo {
  ct_addr : string;
  ct_config : ConnectionConfig;
  ct_ca_cert : option string
}.

Inductive Started :=
| Ended (out : string) (e : CliEnd)
| RotatesCert (certs_dir machine_id : option string)
| ConnectsTo (warnings : string) (t : ConnectTo).

Definition connect_to (args : CliArgs) (c : CliConfig) : ConnectTo :=
  if is_relay_mode c then
    mkConnectTo (default EmptyString (cc_relay_url c)) (mkConnectionConfig (au_access_token <$> cc_auth c) (cc_active_machine c)) (cc_ca_cert c)
  else mkConnectTo (ca_daemon_addr args) (mkConnectionConfig None None) None.

(** With a relay, the token is refreshed first; a refresh that fails is only a
    warning. *)
Definition prepare_relay (env : CliEnv) (c : CliConfig) (w : CliWorld) : CliConfig * CliWorld * string * result string unit :=
  match cc_relay_url c with
  | None => (c, w, EmptyString, Ok tt)
  | Some url =>
      let '(c', w', warning) :=
        match cc_auth c with
        | None => (c, w, EmptyString)
        | Some _ =>
            match ensure_valid_token env c w with
            | (c', w', Ok _) => (c', w', EmptyString)
            | (c', w', Err e) => (c', w', line ("Warning: token refresh failed: " +:+ e))
            end
        end in
      (c', w', warning,
       if bool_decide (cc_auth c' = None) then
         Err ("Relay URL set but not logged in. Run: betcode --relay " +:+ url +:+ " auth login -u <user> -p <pass>")
       else if bool_decide (cc_active_machine c' = None) then
         Err ("Relay URL set but no active machine. Run: betcode --relay " +:+ url +:+ " machine list")
       else Ok tt)
  end.

Definition cli_main (env : CliEnv) (args : CliArgs) (w : CliWorld) : CliWorld * Started :=
  let c := with_flags args (load_config (ve_home env) w) in
  match ca_command args with
  | CmdAuth a => let '(_, w', (out, e)) := run_auth env a c w in (w', Ended out e)
  | CmdMachine a => let '(_, w', (out, e)) := run_machine env a c w in (w', Ended out e)
  | CmdDaemon dir machine => (w, RotatesCert dir machine)
  | CmdOther =>
      match prepare_relay env c w with
      | (c', w', warning, Err e) => (w', Ended warning (CliFailed (CliText e)))
      | (c', w', warning, Ok _) => (w', ConnectsTo warning (connect_to args c'))
      end
  end.

End Client.

(** [--continue]: the newest session of the directory. *)
Definition continue_session {AN : Answering} (continue : bool) (session working_dir : option string) (cwd : string) (c : DaemonConnection)
    (st : an_state) : an_state * result CliError (option string) :=
  if continue && bool_decide (session = None) then
    let wd := default cwd working_dir in
    match list_sessions c st (Some wd) with
    | (st', Err e) => (st', Err (CliConnection e))
    | (st', Ok ([], _)) => (st', Err (CliText ("No sessions found in " +:+ wd +:+ ". Start a new session first.")))
    | (st', Ok (latest :: _, _)) => (st', Ok (Some (AgentService.sum_id latest)))
    end
  else (st, Ok session).

(** * The file of known daemons (fingerprint_store.rs) *)

Section Store.
Context {JT : JsonText} {JP : JsonPretty}.

Definition as_i64 (v : Json) : option Z :=
  match v with JInt z => if ((- 2 ^ 63 <=? z) && (z <? 2 ^ 63))%Z then Some z else None | _ => None end.

Definition known_daemon_json (d : KnownDaemon) : Json :=
  JObj [("fingerprint", JStr (kd_fingerprint d)); ("first_seen", JInt (first_seen d)); ("last_seen", JInt (last_seen d));
        ("machine_id", JStr (kd_machine_id d)); ("verified", JBool (verified d))].

Definition read_known_daemon (v : Json) : option KnownDaemon :=
  if struct_shape 5 v then
    machine ← required as_str (struct_field 0 "machine_id" v);
    fp ← required as_str (struct_field 1 "fingerprint" v);
    first ← required as_i64 (struct_field 2 "first_seen" v);
    seen ← required as_i64 (struct_field 3 "last_seen" v);
    ok ← required as_bool (struct_field 4 "verified" v);
    Some (mkKnown machine fp first seen ok)
  else None.

(** The map is printed in the order of its keys. *)
Definition store_entries (st : FingerprintStore) : list (string * Json) :=
  foldr (λ e o, obj_insert e.1 (known_daemon_json e.2) o) [] (map_to_list st).

Definition store_json (st : FingerprintStore) : Json := JObj [("daemons", JObj (store_entries st))].

Definition read_daemons (v : Json) : option FingerprintStore :=
  entries ← as_object v;
  daemons ← mapM (λ e, d ← read_known_daemon e.2; Some (e.1, d)) entries;
  Some (foldl (λ m e, <[e.1 := e.2]> m) ∅ daemons).

Definition read_store (v : Json) : option FingerprintStore :=
  if struct_shape 1 v then required read_daemons (struct_field 0 "daemons" v) else None.

(** What the parser says of a text it refuses is an argument. *)
Definition load_store (why : string → string) (path : string) (files : gmap string string) : result CryptoError FingerprintStore :=
  match files !! path with
  | None => Ok ∅
  | Some text => match json_parse text ≫= read_store with
                 | Some st => Ok st
                 | None => Err (SerializationError ("Failed to parse fingerprint store: " +:+ why text))
                 end
  end.

Definition save_store (env : CliEnv) (path : string) (st : FingerprintStore) (files : gmap string string) : gmap string string * result CryptoError unit :=
  match ve_mkdir env with
  | Some e => (files, Err (IoError e))
  | None =>
      match ve_write env with
      | None => (<[path := json_pretty (store_json st)]> files, Ok tt)
      | Some (e, rest) => (match rest with Some t => <[path := t]> files | None => files end, Err (IoError e))
      end
  end.

(** The connection of a client starts with the file's daemons, and with none
    when the file cannot be read. *)
Definition opened_store (why : string → string) (path : string) (files : gmap string string) : FingerprintStore :=
  match load_store why path files with Ok st => st | Err _ => ∅ end.

Definition connection_open (why : string → string) (path : string) (files : gmap string string) (cfg : ConnectionConfig) (id : option IdentityKeyPair)
  : DaemonConnection := connection_new cfg id (opened_store why path files).

(** What the connection remembers is saved after each change; an error is only
    warned about. *)
Definition keep_store (env : CliEnv) (path : string) (c : DaemonConnection) (files : gmap string string) : gmap string string :=
  (save_store env path (cn_store c) files).1.

End Store.
