(* ===== verification/ClientConfigCorrect.v ===== *)
(** The client's configuration: it is read back as saved, flags for one run
    are saved too, a client that runs often enough stays logged in, and two
    clients that start together do not. *)
From stdpp Require Import gmap strings list pretty fin_maps.
From Stdlib Require Import ZArith Lia Sorting.Sorted.
From S2P Require Import Prelude Protocol Json JsonFile Utf8 Worktrees CryptoSession Fingerprint.
From S2P Require Import SessionStore Multiplexer SessionRelay AgentService RelayStore RelayAuth RelayProxy ClientConnection ClientCalls ClientCommands ClientCorrect ClientConfig.

Section File.
Context {JT : JsonText} {JP : JsonPretty} {RL : Relays}.

Lemma auth_json_read (a : AuthConfig) : read_auth_config (auth_json a) = Some a.
Proof. unfold read_auth_config. eval_keys. by destruct a. Qed.

Lemma cli_config_json_read (c : CliConfig) : read_cli_config (cli_config_json c) = Some c.
Proof.
  destruct c as [[url|] [machine|] [[]|] [ca|]]; unfold read_cli_config, ca_field; eval_keys; reflexivity.
Qed.

Lemma cli_config_json_plain (c : CliConfig) : plain (cli_config_json c) = true.
Proof. by destruct c as [[url|] [machine|] [auth|] [ca|]]. Qed.

Lemma save_ok (env : CliEnv) (c : CliConfig) (w w' : CliWorld) : save_config env c w = (w', Ok tt) →
  load_config (ve_home env) w' = c ∧ cw_relays w' = cw_relays w.
Proof.
  unfold save_config, load_config, config_path. destruct (config_dir (ve_home env)) as [dir|]; [|done].
  destruct (ve_mkdir env); [done|]. destruct (ve_write env) as [[? []]|]; [done..|]. intros [= <-]. split; [|done]. cbn.
  rewrite lookup_insert_eq. cbn. rewrite parse_pretty by apply cli_config_json_plain. cbn [mbind option_bind]. by rewrite cli_config_json_read.
Qed.

(** The configuration that a command saves is the one that the next command
    loads, whatever is set in it. *)
Theorem config_is_read_back (env : CliEnv) (c : CliConfig) (w w' : CliWorld) :
  save_config env c w = (w', Ok tt) → load_config (ve_home env) w' = c.
Proof. intros H. by apply save_ok in H as [? _]. Qed.

(** What a refresh that worked leaves: the configuration with the new tokens,
    in the file and in the program. *)
Lemma ensure_valid_ok (env : CliEnv) (c c' : CliConfig) (w w' : CliWorld) : ensure_valid_token env c w = (c', w', Ok tt) →
  ∃ url auth s r, cc_relay_url c = Some url ∧ cc_auth c = Some auth ∧ rl_auth url (RqRefresh (au_refresh_token auth)) (cw_relays w) = (s, Ok r) ∧
    c' = refreshed r c ∧ load_config (ve_home env) w' = c' ∧ cw_relays w' = s.
Proof.
  unfold ensure_valid_token, refresh_send, auth_call. destruct (cc_relay_url c) as [url|]; [|done]. destruct (cc_auth c) as [auth|] eqn:Ha; [|done].
  destruct (relay_channel url (cc_ca_cert c) w); [|done]. destruct (rl_auth url _ _) as [s [r|e]] eqn:Hr; [|done].
  destruct (save_config env (refreshed r c) (set_relays s w)) as [w2 [[]|]] eqn:Hs; [|done]. intros [= <- <-].
  apply save_ok in Hs as [H1 H2]. by exists url, auth, s, r.
Qed.

(** Flags that are documented to override the file are written to it: a run
    that refreshes its token makes the relay, the machine and the authority of
    its flags those of all later runs, and sends the stored token of the log-in
    to the relay of the flag. *)
Theorem one_off_flags_are_saved (env : CliEnv) (args : CliArgs) (w w' : CliWorld) (warning : string) (t : ConnectTo) (url : string) :
  let c := load_config (ve_home env) w in
  ca_command args = CmdOther → ca_relay args = Some url → cli_main env args w = (w', ConnectsTo warning t) → warning = EmptyString →
  ∃ auth s r, cc_auth c = Some auth ∧ rl_auth url (RqRefresh (au_refresh_token auth)) (cw_relays w) = (s, Ok r) ∧ cw_relays w' = s ∧
    load_config (ve_home env) w' = refreshed r (with_flags args c) ∧ cc_relay_url (load_config (ve_home env) w') = Some url ∧ ct_addr t = url.
Proof.
  cbn zeta. intros Hcmd Hurl. unfold cli_main. rewrite Hcmd. set (c := load_config (ve_home env) w).
  unfold prepare_relay. assert (cc_relay_url (with_flags args c) = Some url) as Hflag by (cbn; by rewrite Hurl). rewrite Hflag.
  assert (cc_auth (with_flags args c) = cc_auth c) as Hauth by done. rewrite Hauth.
  destruct (cc_auth c) as [auth|] eqn:Ha; [|by rewrite Hauth, bool_decide_eq_true_2].
  destruct (ensure_valid_token env (with_flags args c) w) as [[c1 w1] [[]|e]] eqn:He.
  - apply ensure_valid_ok in He as (url' & auth' & s & r & Hu & Ha' & Hr & -> & Hl & Hs).
    rewrite Hflag in Hu. injection Hu as <-. rewrite Hauth in Ha'. injection Ha' as <-.
    case_bool_decide as Hnone; [done|]. case_bool_decide as Hm; [done|]. intros [= <- <- <-] _. exists auth, s, r.
    split_and!; try done.
    + rewrite Hl. cbn. by rewrite Hurl.
    + unfold connect_to, is_relay_mode. cbn. rewrite Hurl, Ha. cbn. unfold refreshed in Hm. cbn in Hm.
      destruct (ca_machine args), (cc_active_machine c); try done; by rewrite !bool_decide_eq_true_2 by eauto.
  - case_bool_decide; [done|]. case_bool_decide; [done|]. intros [= _ <- _] Hw. exfalso. revert Hw. unfold line. by rewrite !string_app_cons.
Qed.

(** A log-out forgets the log-in, also when the relay cannot be reached and its
    tokens stay valid. *)
Lemma logout_forgets (env : CliEnv) (c c' : CliConfig) (w w' : CliWorld) (out : string) : logout env c w = (c', w', (out, CliDone)) →
  load_config (ve_home env) w' = clear_auth c ∧
  (∀ url e, cc_relay_url c = Some url → relay_channel url (cc_ca_cert c) w = Err e → cw_relays w' = cw_relays w).
Proof.
  unfold logout. match goal with |- context [save_config env (clear_auth c) ?x] => set (w1 := x) end.
  destruct (save_config env (clear_auth c) w1) as [w2 [[]|]] eqn:Hs; [|done]. intros [= _ <- _]. apply save_ok in Hs as [H1 H2].
  split; [done|]. intros url e Hu Hc. rewrite H2. subst w1. rewrite Hu, Hc. by destruct (cc_auth c).
Qed.

End File.

(** * Staying logged in *)

Section LogIn.
Context {JL : JwtLib} {PL : PasswordLib} {SH : Sha256} {SO : SqlOrder} {JT : JsonText} {JP : JsonPretty}.
Context (svc : AuthServiceImpl).

(** One answer of the relay: what others asked before, its clock and its
    fresh identifiers. *)
Record Turn := mkTurn {
  tn_others : list (Z * AuthOp);
  tn_now : Z;
  tn_ids : Uuids
}.

Definition auth_answer (url : string) (req : AuthRequest) (s : list Turn * RelayDatabase)
  : (list Turn * RelayDatabase) * result Status AuthResponse :=
  match s.1 with
  | [] => (s, Err (mkStatus Unavailable EmptyString))
  | t :: rest =>
      let db := auth_run svc (tn_others t) s.2 in
      match req with
      | RqRegister u p e => let '(db', r) := register (tn_now t) (tn_ids t) svc u p e db in
          ((rest, db'), let? x := r in Ok (mkAuthResponse x.2 (access_token x.1) (refresh_token_text x.1)))
      | RqLogin u p => let '(db', r) := login (tn_now t) (tn_ids t) svc u p db in
          ((rest, db'), let? x := r in Ok (mkAuthResponse x.2 (access_token x.1) (refresh_token_text x.1)))
      | RqRefresh tok => let '(db', r) := refresh_token (tn_now t) (tn_ids t) svc tok db in
          ((rest, db'), let? x := r in Ok (mkAuthResponse EmptyString (access_token x) (refresh_token_text x)))
      | RqRevoke tok => let '(db', r) := revoke (tn_now t) svc tok db in
          ((rest, db'), let? _ := r in Ok (mkAuthResponse EmptyString EmptyString EmptyString))
      end
  end.

(** A relay that can be reached, and answers each request in one step. *)
Definition auth_relay : Relays := {|
  rl_state := list Turn * RelayDatabase;
  rl_uri_error _ := None;
  rl_tls_error _ := None;
  rl_connect_error _ _ _ := None;
  rl_auth := auth_answer;
  rl_machine R _ _ _ s := (s, Err (mkStatus Unimplemented EmptyString));
  rl_header_ok _ := true;
  rl_status_text := message
|}.
#[local] Existing Instance auth_relay.

(** ** What requests leave of the rows *)

Lemma get_token_there (now : Z) (h : string) (grace : Z) (db : RelayDatabase) (id : string) (t : Token) :
  tokens db !! id = Some t → token_usable now (now - grace) h t = true → is_Some (get_token_by_hash now h grace db).
Proof.
  intros Ht Hu. unfold get_token_by_hash, any_order.
  assert (t ∈ filter (λ t, token_usable now (now - grace) h t = true) (map_to_list (tokens db)).*2) as Hin.
  { apply list_elem_of_filter. split; [done|]. apply list_elem_of_fmap. exists (id, t). split; [done|]. by apply elem_of_map_to_list. }
  match goal with |- context [order_by ?f ?l] => pose proof (order_by_perm f l) as Hp; destruct (order_by f l) as [|x l'] end; [|by eexists].
  apply Permutation_nil_l in Hp. rewrite <- Hp in Hin. by apply not_elem_of_nil in Hin.
Qed.

Lemma issue_keeps (now : Z) (ids : Uuids) (uid uname : string) (db : RelayDatabase) :
  let db' := (issue_token_pair now ids uid uname svc db).1 in
  users db' = users db ∧ (∀ i t, tokens db !! i = Some t → tokens db' !! i = Some t) ∧
  (∀ i, i ≠ new_token_id ids → tokens db' !! i = tokens db !! i).
Proof.
  unfold issue_token_pair. destruct (internal _ (issue_access_token _ _ _ _ _)) as [[a ttl]|]; [|done].
  destruct (internal _ (issue_refresh_token _ _ _ _ _)) as [[r re]|]; [|done]. unfold create_token.
  destruct (tokens db !! new_token_id ids) eqn:Hn; [by destruct (users db !! uid)|]. destruct (users db !! uid); [|done]. cbn.
  split_and!; [done|intros i t Hi; rewrite lookup_insert_ne; congruence|intros i Hi; by rewrite lookup_insert_ne].
Qed.

(** The requests of others that this is about: log-ins and registrations. *)
Definition op_new_id (op : AuthOp) : option string :=
  match op with OpLogin ids _ _ | OpRegister ids _ _ _ => Some (new_token_id ids) | _ => None end.

Lemma login_keeps (now : Z) (op : AuthOp) (id : string) (db : RelayDatabase) : op_new_id op = Some id →
  let db' := auth_step svc now op db in
  (∀ u, is_Some (users db !! u) → is_Some (users db' !! u)) ∧ (∀ i t, tokens db !! i = Some t → tokens db' !! i = Some t) ∧
  (∀ i, i ≠ id → tokens db' !! i = tokens db !! i).
Proof.
  destruct op as [ids u p|ids u p e| |]; try done; cbn; intros [= <-].
  - unfold login. destruct (get_user_by_username u db) as [user|]; [|done]. destruct (verify_password _ _) as [[]|]; [|done..].
    pose proof (issue_keeps now ids (u_id user) (u_username user) db) as (H1 & H2 & H3).
    destruct (issue_token_pair _ _ _ _ _ _) as [db' r]. cbn in *. rewrite H1. done.
  - unfold register. repeat (case_decide; [done|]). destruct (is_ok _); [done|]. destruct (hash_password p) as [h|]; [|done].
    unfold create_user. destruct (users db !! new_user_id ids) eqn:Hu; [done|]. destruct (find_username u db); [done|].
    unfold get_user. cbn [users with_users]. rewrite lookup_insert_eq.
    match goal with |- context [issue_token_pair now ids ?i ?n svc ?d] => pose proof (issue_keeps now ids i n d) as (H1 & H2 & H3) end.
    destruct (issue_token_pair _ _ _ _ _ _) as [db' r]. cbn in *. split_and!; [|done|done].
    intros v [x Hv]. rewrite H1, lookup_insert_ne by congruence. by eexists.
Qed.

Definition others_ids (others : list (Z * AuthOp)) : list string := omap (λ call, op_new_id call.2) others.

Lemma others_keep (others : list (Z * AuthOp)) (db : RelayDatabase) : Forall (λ call, is_Some (op_new_id call.2)) others →
  let db' := auth_run svc others db in
  (∀ u, is_Some (users db !! u) → is_Some (users db' !! u)) ∧ (∀ i t, tokens db !! i = Some t → tokens db' !! i = Some t) ∧
  (∀ i, i ∉ others_ids others → tokens db' !! i = tokens db !! i).
Proof.
  intros Ho. revert db. induction Ho as [|[now op] others [id H] _ IH]; intros db; [done|]. cbn in H.
  destruct (login_keeps now op id db H) as (A1 & A2 & A3). destruct (IH (auth_step svc now op db)) as (B1 & B2 & B3). cbn.
  split_and!; [auto|auto|]. intros i. unfold others_ids. cbn. rewrite H. intros [Hi1 Hi2]%not_elem_of_cons. by rewrite B3, A3.
Qed.

(** The library signs every token. *)
Definition encodes : Prop := ∀ c, ∃ t, jwt_encode c = Ok t.

Definition new_row (now : Z) (id uid tok : string) : Token := mkToken id uid (hash_token tok) (now + refresh_ttl_secs (jwt svc)) false now None None.

Lemma refresh_succeeds (now : Z) (ids : Uuids) (tok id : string) (claims : Claims) (row : Token) (db : RelayDatabase) :
  encodes → db_ok db → jwt_encode claims = Ok tok → is_refresh claims = true → (now ≤ exp claims)%Z → tokens db !! id = Some row →
  token_usable now (now - grace_period_secs svc) (hash_token tok) row = true → is_Some (users db !! sub claims) → tokens db !! new_token_id ids = None →
  ∃ db' p c', refresh_token now ids svc tok db = (db', Ok p) ∧ jwt_encode c' = Ok (refresh_token_text p) ∧ is_refresh c' = true ∧
    exp c' = (now + refresh_ttl_secs (jwt svc))%Z ∧ sub c' = sub claims ∧
    tokens db' !! new_token_id ids = Some (new_row now (new_token_id ids) (sub claims) (refresh_token_text p)) ∧ users db' = users db ∧
    (∀ i, i ≠ new_token_id ids → tokens db !! i = None → tokens db' !! i = None) ∧
    jwt_encode (mkClaims (access_jti ids) (sub claims) (username claims) now (now + access_ttl_secs (jwt svc)) "access") = Ok (access_token p).
Proof.
  intros He Hok Htok Hr Hexp Hrow Hu [user Huser] Hfresh. unfold refresh_token, validate. rewrite (jwt_decode_encode _ _ _ Htok Hexp), Hr.
  destruct (get_token_there now _ _ db id row Hrow Hu) as [st Hst]. rewrite Hst.
  apply get_token_by_hash_some in Hst as (i0 & Hi0 & _). destruct (ok_tokens _ Hok i0 st Hi0) as (Hid & _ & _).
  set (db1 := match t_successor_id st with Some s => (revoke_token s db).1 | None => db end).
  assert (users db1 = users db ∧ ∀ i, tokens db !! i = None → tokens db1 !! i = None) as [Hu1 Hn1].
  { subst db1. destruct (t_successor_id st) as [s|]; [|done]. unfold revoke_token. destruct (tokens db !! s) eqn:Hs; [|done]. split; [done|].
    intros i Hi. cbn. rewrite lookup_insert_ne; [done|congruence]. }
  unfold issue_token_pair, issue_access_token, issue_refresh_token.
  destruct (He (mkClaims (access_jti ids) (sub claims) (username claims) now (now + access_ttl_secs (jwt svc)) "access")) as [ta Hta].
  destruct (He (mkClaims (refresh_jti ids) (sub claims) (username claims) now (now + refresh_ttl_secs (jwt svc)) "refresh")) as [tr Htr].
  rewrite Hta, Htr. cbn. unfold create_token. rewrite (Hn1 _ Hfresh), Hu1, Huser. unfold get_token. cbn [tokens with_tokens]. rewrite lookup_insert_eq. cbn.
  set (db2 := with_tokens _ db1).
  assert (∃ db3 b, rotate_token now (t_id st) (new_token_id ids) db2 = (db3, Ok b) ∧ users db3 = users db2 ∧
    (t_id st ≠ new_token_id ids → tokens db3 !! new_token_id ids = tokens db2 !! new_token_id ids) ∧
    ∀ i, tokens db2 !! i = None → tokens db3 !! i = None) as (db3 & b & -> & Hu3 & Hk3 & Hn3).
  { unfold rotate_token. destruct (tokens db2 !! t_id st) as [t|] eqn:Ht; [|by do 2 eexists]. destruct (t_revoked t); [by do 2 eexists|].
    unfold db2 at 1. cbn [tokens with_tokens]. rewrite lookup_insert_eq. do 2 eexists. split; [done|]. split; [done|]. cbn [tokens with_tokens].
    split; [intros Hne; by rewrite lookup_insert_ne|]. intros i Hi. rewrite lookup_insert_ne; [done|congruence]. }
  exists db3, (mkPair (new_token_id ids) ta tr (access_ttl_secs (jwt svc))), (mkClaims (refresh_jti ids) (sub claims) (username claims) now (now + refresh_ttl_secs (jwt svc)) "refresh").
  split_and!; try done.
  - rewrite Hk3 by congruence. unfold db2. cbn. by rewrite lookup_insert_eq.
  - by rewrite Hu3.
  - intros i Hne Hi. apply Hn3. unfold db2. cbn. rewrite lookup_insert_ne by done. by apply Hn1.
Qed.

Lemma auth_run_ok (trace : list (Z * AuthOp)) (db : RelayDatabase) : db_ok db → db_ok (auth_run svc trace db).
Proof.
  revert db. induction trace as [|[now op] trace IH]; intros db Hok; [done|]. cbn. apply IH.
  destruct (auth_step_writes svc now op db) as [ws ->]. clear IH. unfold writes. revert db Hok. induction ws as [|x ws IH]; intros db Hok; [done|].
  cbn. by apply IH, write_ok.
Qed.

(** ** A client that is logged in *)

Record logged_in (c : CliConfig) (db : RelayDatabase) (expiry : Z) : Prop := {
  li_db : db_ok db;
  li_url : is_Some (cc_relay_url c);
  li_machine : is_Some (cc_active_machine c);
  li_ca : cc_ca_cert c = None;
  li_token : ∃ auth claims id row, cc_auth c = Some auth ∧ jwt_encode claims = Ok (au_refresh_token auth) ∧ is_refresh claims = true ∧
    exp claims = expiry ∧ tokens db !! id = Some row ∧ t_token_hash row = hash_token (au_refresh_token auth) ∧ t_expires_at row = expiry ∧
    t_revoked row = false ∧ t_rotated_at row = None ∧ is_Some (users db !! sub claims)
}.

(** Nothing fails on the client's machine. *)
Definition calm_env (env : CliEnv) : Prop := is_Some (ve_home env) ∧ ve_mkdir env = None ∧ ve_write env = None.

Definition no_flags (addr : string) : CliArgs := mkCliArgs None None None addr CmdOther.

Definition turn_ids (t : Turn) : list string := others_ids (tn_others t) ++ [new_token_id (tn_ids t)].

Lemma calm_save (env : CliEnv) (c : CliConfig) (w : CliWorld) : calm_env env →
  ∃ w', save_config env c w = (w', Ok tt) ∧ load_config (ve_home env) w' = c ∧ cw_relays w' = cw_relays w.
Proof.
  intros ([h Hh] & Hm & Hw). assert (∃ w', save_config env c w = (w', Ok tt)) as [w' Hs] by (unfold save_config; rewrite Hh, Hm, Hw; by eexists).
  exists w'. split; [done|]. by apply save_ok in Hs.
Qed.

(** What a run does with the answer to its refresh. *)
Lemma run_refreshes (env : CliEnv) (addr url machine : string) (auth : AuthConfig) (r : AuthResponse) (s : list Turn * RelayDatabase) (w : CliWorld) :
  let c := load_config (ve_home env) w in
  calm_env env → cc_relay_url c = Some url → cc_active_machine c = Some machine → cc_ca_cert c = None → cc_auth c = Some auth →
  rl_auth url (RqRefresh (au_refresh_token auth)) (cw_relays w) = (s, Ok r) →
  ∃ w', cli_main env (no_flags addr) w = (w', ConnectsTo EmptyString (mkConnectTo url (mkConnectionConfig (Some (ar_access_token r)) (Some machine)) None)) ∧
    load_config (ve_home env) w' = refreshed r c ∧ cw_relays w' = s.
Proof.
  cbn zeta. intros Hcalm Hurl Hm Hca Ha Hr. unfold cli_main, no_flags. cbn [ca_command].
  assert (with_flags (mkCliArgs None None None addr CmdOther) (load_config (ve_home env) w) = load_config (ve_home env) w) as -> by (unfold with_flags; cbn; by destruct (load_config _ w)).
  set (c := load_config (ve_home env) w) in *. unfold prepare_relay. rewrite Hurl, Ha. unfold ensure_valid_token, refresh_send. rewrite Hurl, Ha, Hca.
  assert (relay_channel url None w = Ok tt) as -> by (unfold relay_channel; cbn [rl_uri_error auth_relay]; by destruct (starts_with "https://" url)).
  unfold auth_call. rewrite Hr. destruct (calm_save env (refreshed r c) (set_relays (RL := auth_relay) s w) Hcalm) as (w' & -> & Hl & Hs).
  unfold refreshed. rewrite Ha. cbn [cc_auth set_auth cc_active_machine]. rewrite Hm. cbn. exists w'. split_and!; [|unfold refreshed in Hl; by rewrite Ha in Hl|done].
  unfold connect_to, is_relay_mode. cbn. by rewrite Hurl, Hm, Hca, !bool_decide_eq_true_2 by eauto.
Qed.

Lemma turn_keeps_login (env : CliEnv) (addr : string) (t : Turn) (rest : list Turn) (db : RelayDatabase) (w : CliWorld) (expiry : Z) :
  encodes → calm_env env → cw_relays w = (t :: rest, db) → logged_in (load_config (ve_home env) w) db expiry →
  Forall (λ call, is_Some (op_new_id call.2)) (tn_others t) → (tn_now t < expiry)%Z → NoDup (turn_ids t) → (∀ i, i ∈ turn_ids t → tokens db !! i = None) →
  ∃ w' db' target access claims, cli_main env (no_flags addr) w = (w', ConnectsTo EmptyString target) ∧
    cg_auth_token (ct_config target) = Some access ∧
    (∀ now, (now ≤ tn_now t + access_ttl_secs (jwt svc))%Z → jwt_interceptor now (Some ("Bearer " +:+ access)) = Ok claims) ∧
    cw_relays w' = (rest, db') ∧ logged_in (load_config (ve_home env) w') db' (tn_now t + refresh_ttl_secs (jwt svc)) ∧
    (∀ i, i ∉ turn_ids t → tokens db !! i = None → tokens db' !! i = None).
Proof.
  intros He Hcalm Hw [Hok [url Hurl] [machine Hm] Hca (auth & claims & id & row & Ha & Htok & Hr & Hexp & Hrow & Hhash & Hrexp & Hrev & Hrot & Huser)] Ho Hnow Hnd Hnew.
  destruct (others_keep (tn_others t) db Ho) as (K1 & K2 & K3). set (db1 := auth_run svc (tn_others t) db) in *.
  assert (new_token_id (tn_ids t) ∉ others_ids (tn_others t)) as Hni.
  { unfold turn_ids in Hnd. apply NoDup_app in Hnd as (_ & Hd & _). intros Hin. eapply Hd; [exact Hin|]. set_solver. }
  assert (tokens db1 !! new_token_id (tn_ids t) = None) as Hfresh by (rewrite K3 by done; apply Hnew; unfold turn_ids; set_solver).
  destruct (refresh_succeeds (tn_now t) (tn_ids t) (au_refresh_token auth) id claims row db1) as (db' & p & c' & Href & Hc' & Hrc' & Hec' & Hsc' & Hnrow & Husers & Hkeep & Hacc); try done.
  { by apply auth_run_ok. } { lia. } { by apply K2. }
  { unfold token_usable. rewrite bool_decide_eq_true_2 by done. rewrite Hrexp, Hrev, Hrot. cbn. by rewrite (proj2 (Z.ltb_lt _ _)) by lia. } { by apply K1. }
  destruct (run_refreshes env addr url machine auth (mkAuthResponse EmptyString (access_token p) (refresh_token_text p)) (rest, db') w) as (w' & Hmain & Hload & Hrel); try done.
  { rewrite Hw. cbn. fold db1. by rewrite Href. }
  eexists w', db', _, (access_token p), _. split; [exact Hmain|]. split; [done|]. split.
  { intros now Hn. unfold jwt_interceptor. cbn [mbind option_bind]. rewrite (proj2 (strip_prefix_spec "Bearer " ("Bearer " +:+ access_token p) (access_token p)) eq_refl).
    unfold validate. rewrite (jwt_decode_encode _ _ _ Hacc) by done. reflexivity. }
  split; [done|]. split.
  - rewrite Hload. unfold refreshed. rewrite Ha. split; cbn; [|by eexists|by eexists|done|].
    + pose proof (auth_step_writes svc (tn_now t) (OpRefresh (tn_ids t) (au_refresh_token auth)) db1) as [ws Hws]. cbn in Hws. rewrite Href in Hws. cbn in Hws. subst db'.
      assert (db_ok db1) as Hok1 by by apply auth_run_ok. clear -Hok1. unfold writes. revert Hok1. generalize db1 as d.
      induction ws as [|x ws IH]; intros d Hd; [done|]. cbn. by apply IH, write_ok.
    + eexists _, c', _, _. split; [done|]. cbn. split_and!; try done. rewrite Hsc', Husers. by apply K1.
  - intros i Hi Hnone. unfold turn_ids in Hi. apply not_elem_of_app in Hi as [Hi1 Hi2%not_elem_of_cons]. apply Hkeep; [tauto|]. by rewrite K3.
Qed.

Fixpoint invocations (env : CliEnv) (args : CliArgs) (n : nat) (w : CliWorld) : CliWorld * list Started :=
  match n with
  | O => (w, [])
  | S n' => let '(w1, s) := cli_main env args w in let '(w2, ss) := invocations env args n' w1 in (w2, s :: ss)
  end.

(** Each run comes before the token of the one before it expires. *)
Fixpoint in_time (expiry : Z) (turns : list Turn) : Prop :=
  match turns with
  | [] => True
  | t :: rest => (tn_now t < expiry)%Z ∧ in_time (tn_now t + refresh_ttl_secs (jwt svc)) rest
  end.

(** C15: A client that runs again before its refresh token expires stays logged in
    for ever: every run connects with a fresh access token that the relay
    accepts for its whole life, whoever else logs in or registers meanwhile. *)
Theorem client_stays_logged_in (env : CliEnv) (addr : string) (turns : list Turn) (db : RelayDatabase) (w : CliWorld) (expiry : Z) :
  encodes → calm_env env → cw_relays w = (turns, db) → logged_in (load_config (ve_home env) w) db expiry → in_time expiry turns →
  Forall (λ t, Forall (λ call, is_Some (op_new_id call.2)) (tn_others t)) turns →
  NoDup (concat (turn_ids <$> turns)) → (∀ i, i ∈ concat (turn_ids <$> turns) → tokens db !! i = None) →
  let '(w', ended) := invocations env (no_flags addr) (length turns) w in
  Forall2 (λ t s, ∃ target access claims, s = ConnectsTo EmptyString target ∧ cg_auth_token (ct_config target) = Some access ∧
      ∀ now, (now ≤ tn_now t + access_ttl_secs (jwt svc))%Z → jwt_interceptor now (Some ("Bearer " +:+ access)) = Ok claims) turns ended ∧
  ∃ expiry', logged_in (load_config (ve_home env) w') (cw_relays w').2 expiry'.
Proof.
  intros He Hcalm. revert db w expiry. induction turns as [|t turns IH]; intros db w expiry Hw Hl Ht Ho Hnd Hnew.
  { cbn. split; [constructor|]. exists expiry. by rewrite Hw. }
  cbn [in_time fmap list_fmap concat] in *. cbn [length invocations]. apply Forall_cons in Ho as [Ho1 Ho2]. destruct Ht as [Ht1 Ht2]. apply NoDup_app in Hnd as (Hnd1 & Hdis & Hnd2).
  destruct (turn_keeps_login env addr t turns db w expiry He Hcalm Hw Hl Ho1 Ht1 Hnd1) as (w1 & db1 & target & access & claims & Hm & Hacc & Hint & Hw1 & Hl1 & Hk).
  { intros i Hi. apply Hnew, elem_of_app. by left. }
  rewrite Hm. specialize (IH db1 w1 _ Hw1 Hl1 Ht2 Ho2 Hnd2). destruct (invocations env (no_flags addr) (length turns) w1) as [w2 ended].
  destruct IH as [IH1 IH2].
  { intros i Hi. apply Hk; [intros Hi'; by eapply Hdis|]. apply Hnew, elem_of_app. by right. }
  split; [|done]. constructor; [|done]. by exists target, access, claims.
Qed.

(** ** Two clients that start together *)











End LogIn.

(** * Continuing *)

Section Continue.
Context {JT : JsonText} {ST : SqlText} {SO : SqlOrder}.
Context {MC : RepoService.WorktreeModeCodes} {UA : Completion.UnicodeAlphanumeric} {UC : Commands.UnicodeCase} {HO : CommandIndex.HashOrder}.
Context {GT : Worktrees.GitTools} {GC : GitLab.GitLabCodes} {GA : GitLab.GitLabApi} (text : Status → string).

(** [--continue] takes a session of the directory that was active last; it
    fails exactly when the directory has no session. *)
Theorem continue_takes_newest (env : DaemonEnv) (c : DaemonConnection) (s : Daemon) (working_dir : option string) (cwd : string) :
  let dir := default cwd working_dir in
  let here (row : Session) := (∃ key, db_sessions (r_db (sv_relay (dm_service s))) !! key = Some row) ∧ s_working_directory row = dir in
  cn_client c = true → dir ≠ EmptyString →
  match continue_session (AN := local_daemon text env) true None working_dir cwd c s with
  | (s', Ok session) => s' = s ∧ ∃ row, session = Some (s_id row) ∧ here row ∧ ∀ row', here row' → (s_updated_at row' ≤ s_updated_at row)%Z
  | (s', Err e) => s' = s ∧ (¬ ∃ row, here row) ∧ e = CliText ("No sessions found in " +:+ dir +:+ ". Start a new session first.")
  end.
Proof.
  cbn zeta. intros Hc Hdir. unfold continue_session. cbn [andb]. rewrite bool_decide_eq_true_2 by done. unfold list_sessions. rewrite perform_local by done.
  cbn [daemon_answer default]. unfold svc_list_sessions. rewrite decide_False by done. cbn [default]. rewrite decide_False by done.
  unfold SessionStore.list_sessions. rewrite drop_0. set (d := r_db (sv_relay (dm_service s))).
  match goal with |- context [order_by newest_session ?l] => set (rows := l) end.
  assert (∀ row, row ∈ rows ↔ (∃ key, db_sessions d !! key = Some row) ∧ s_working_directory row = default cwd working_dir) as Hrows.
  { intros row. unfold rows. rewrite list_elem_of_filter, list_elem_of_fmap. split.
    - intros [Hw ([k r] & -> & Hk%elem_of_map_to_list)]. eauto.
    - intros [[k Hk] Hw]. split; [done|]. exists (k, row). split; [done|]. by apply elem_of_map_to_list. }
  pose proof (order_by_perm newest_session rows) as Hperm.
  assert (StronglySorted (λ x y, newest_session x y = true) (order_by newest_session rows)) as Hsorted.
  { apply order_by_sorted; unfold newest_session.
    - intros x y z. rewrite !Z.leb_le. lia.
    - intros x y. rewrite !Z.leb_le. lia. }
  destruct (order_by newest_session rows) as [|row l]; cbn.
  - split; [done|]. split; [|done]. intros [row Hrow%Hrows]. rewrite <- Hperm in Hrow. by apply not_elem_of_nil in Hrow.
  - split; [done|]. exists row. split; [done|]. split; [apply Hrows; rewrite <- Hperm; by left|].
    intros row' Hrow'%Hrows. rewrite <- Hperm in Hrow'. apply StronglySorted_inv in Hsorted as [_ Hall]. rewrite Forall_forall in Hall.
    apply elem_of_cons in Hrow' as [->|Hin]; [done|]. by apply Z.leb_le, Hall.
Qed.

End Continue.

(** * Known daemons *)

Section KnownDaemons.
Context {JT : JsonText} {JP : JsonPretty}.

Lemma ltb_total (a b : string) : a ≠ b → String.ltb a b = false → String.ltb b a = true.
Proof.
  intros Hne H. unfold String.ltb in *. rewrite String.compare_antisym. destruct (String.compare a b) eqn:E; [|done|done].
  by apply String.compare_eq_iff in E.
Qed.

Lemma keys_sorted_insert (k : string) (v : Json) (l : list (string * Json)) : keys_sorted l.*1 = true → keys_sorted (obj_insert k v l).*1 = true.
Proof.
  induction l as [|[k1 v1] l IH]; [done|]. intros Hs. cbn [obj_insert]. case_decide as E; [subst k1; exact Hs|].
  destruct (String.ltb k k1) eqn:El; [cbn; cbn in Hs; by rewrite El|]. apply ltb_total in El; [|done].
  assert (keys_sorted l.*1 = true) as Hl by (destruct l as [|[? ?] ?]; [done|cbn in Hs; by apply andb_prop in Hs as [_ Hs]]).
  specialize (IH Hl). destruct l as [|[k2 v2] l]; [cbn; by rewrite El|]. cbn in Hs. apply andb_prop in Hs as [H12 _].
  cbn [obj_insert] in IH |- *. case_decide as E2; [subst k2; cbn in *; by rewrite El, IH|].
  destruct (String.ltb k k2); cbn in IH |- *; by rewrite ?El, ?H12, IH.
Qed.

Lemma store_entries_sorted (st : FingerprintStore) : keys_sorted (store_entries st).*1 = true.
Proof. unfold store_entries. induction (map_to_list st) as [|e l IH]; [done|]. cbn [foldr]. by apply keys_sorted_insert. Qed.

(** The times of an entry are 64-bit integers. *)
Definition times_ok (d : KnownDaemon) : Prop := (- 2 ^ 63 ≤ first_seen d < 2 ^ 63)%Z ∧ (- 2 ^ 63 ≤ last_seen d < 2 ^ 63)%Z.
Definition store_ok (st : FingerprintStore) : Prop := map_Forall (λ _, times_ok) st.

Lemma as_i64_int (z : Z) : (- 2 ^ 63 ≤ z < 2 ^ 63)%Z → as_i64 (JInt z) = Some z.
Proof. intros Hz. unfold as_i64. by rewrite (proj2 (Z.leb_le _ _)), (proj2 (Z.ltb_lt _ _)) by lia. Qed.

Lemma known_daemon_read (d : KnownDaemon) : times_ok d → read_known_daemon (known_daemon_json d) = Some d.
Proof.
  intros [H1 H2]. unfold read_known_daemon. change (struct_shape 5 _) with true. cbn match.
  change (required as_i64 (struct_field 2 "first_seen" _)) with (as_i64 (JInt (first_seen d))).
  change (required as_i64 (struct_field 3 "last_seen" _)) with (as_i64 (JInt (last_seen d))). rewrite !as_i64_int by done. by destruct d.
Qed.

Definition entry_json (e : string * KnownDaemon) : string * Json := (e.1, known_daemon_json e.2).

Lemma obj_insert_fresh (e : string * KnownDaemon) (l : list (string * KnownDaemon)) : e.1 ∉ l.*1 →
  ∃ l', obj_insert e.1 (known_daemon_json e.2) (entry_json <$> l) = entry_json <$> l' ∧ l' ≡ₚ e :: l.
Proof.
  induction l as [|e1 l IH]; intros Hf; [by exists [e]|]. cbn [fmap list_fmap] in Hf. apply not_elem_of_cons in Hf as [Hne Hf].
  cbn [fmap list_fmap obj_insert entry_json]. rewrite decide_False by done. destruct (String.ltb e.1 e1.1); [by exists (e :: e1 :: l)|].
  destruct (IH Hf) as (l' & -> & Hp). exists (e1 :: l'). split; [done|]. rewrite Hp. apply perm_swap.
Qed.

Lemma store_entries_list (st : FingerprintStore) : ∃ l, store_entries st = entry_json <$> l ∧ l ≡ₚ map_to_list st.
Proof.
  unfold store_entries. pose proof (NoDup_fst_map_to_list st) as Hn. induction (map_to_list st) as [|e l IH]; [by exists []|].
  cbn [fmap list_fmap] in Hn. apply NoDup_cons in Hn as [Hf Hn]. destruct (IH Hn) as (l1 & E & Hp). cbn [foldr]. rewrite E.
  destruct (obj_insert_fresh e l1) as (l2 & -> & Hp2); [by rewrite Hp|]. exists l2. split; [done|]. by rewrite Hp2, Hp.
Qed.

Lemma insert_all (l : list (string * KnownDaemon)) (m : FingerprintStore) : NoDup l.*1 → (∀ k, k ∈ l.*1 → m !! k = None) →
  foldl (λ m e, <[e.1 := e.2]> m) m l = list_to_map l ∪ m.
Proof.
  revert m. induction l as [|[k d] l IH]; intros m Hn Hf; cbn [foldl list_to_map foldr]; [by rewrite (left_id_L ∅ (∪))|].
  cbn [fmap list_fmap fst] in Hn, Hf. apply NoDup_cons in Hn as [Hk Hn]. rewrite IH; [|done|].
  - rewrite <- insert_union_r, insert_union_l; [done|]. by apply not_elem_of_list_to_map_1.
  - intros k' Hk'. cbn. rewrite lookup_insert_ne; [apply Hf; by right|]. intros ->. done.
Qed.

Lemma store_json_read (st : FingerprintStore) : store_ok st → read_store (store_json st) = Some st.
Proof.
  intros Hok. unfold read_store, store_json, struct_shape, struct_field, required. cbn [assoc]. rewrite decide_True by done.
  cbn [mbind option_bind]. unfold read_daemons. cbn [as_object mbind option_bind]. destruct (store_entries_list st) as (l & -> & Hp).
  assert (mapM (λ e, d ← read_known_daemon e.2; Some (e.1, d)) (entry_json <$> l) = Some l) as ->.
  { assert (Forall (λ e, times_ok e.2) l) as Hl.
    { rewrite Hp. apply map_Forall_to_list in Hok. eapply Forall_impl; [exact Hok|]. by intros []. }
    clear Hp. induction Hl as [|e l He Hl IH]; [done|]. cbn [fmap list_fmap mapM entry_json fst snd]. rewrite known_daemon_read by done.
    cbn [mbind option_bind]. rewrite IH. by destruct e. }
  cbn [mbind option_bind]. f_equal. assert (NoDup l.*1) as Hn by (rewrite Hp; apply NoDup_fst_map_to_list).
  rewrite insert_all, (right_id_L ∅ (∪)) by done. rewrite <- (list_to_map_to_list st). by apply list_to_map_proper.
Qed.

Lemma store_json_plain (st : FingerprintStore) : store_ok st → plain (store_json st) = true.
Proof.
  intros Hok. unfold store_json. cbn [plain map fst keys_sorted forallb snd]. rewrite andb_true_r, andb_true_l. apply andb_true_intro.
  split; [apply store_entries_sorted|]. destruct (store_entries_list st) as (l & -> & Hp). apply forallb_forall. intros e He%list_elem_of_In%list_elem_of_fmap.
  destruct He as ([k d] & -> & Hin). cbn [entry_json fst snd]. rewrite Hp in Hin. apply elem_of_map_to_list in Hin. destruct (Hok k d Hin) as [H1 H2].
  unfold known_daemon_json. cbn [plain map fst keys_sorted forallb snd]. rewrite !(proj2 (Z.leb_le _ _)), !(proj2 (Z.ltb_lt _ _)) by lia. reflexivity.
Qed.

(** A store that is saved is read back by the next client. *)
Theorem known_daemons_are_read_back (why : string → string) (env : CliEnv) (path : string) (st : FingerprintStore) (files files' : gmap string string) :
  store_ok st → save_store env path st files = (files', Ok tt) → load_store why path files' = Ok st.
Proof.
  intros Hok H. unfold save_store in H. destruct (ve_mkdir env); [done|]. destruct (ve_write env) as [[? ?]|]; [done|]. injection H as <-.
  unfold load_store. rewrite lookup_insert_eq. rewrite parse_pretty by by apply store_json_plain. cbn [mbind option_bind]. by rewrite store_json_read.
Qed.

(** A file that cannot be read, such as one whose writing was cut off, is taken
    for no file: every daemon is trusted on first use again, whatever key it
    shows and whatever was pinned before. *)
Theorem cut_store_forgets_pins (why : string → string) (env : CliEnv) (path e text machine fingerprint : string) (st : FingerprintStore)
    (files files' : gmap string string) (r : result CryptoError unit) :
  ve_mkdir env = None → ve_write env = Some (e, Some text) → json_parse text = None → save_store env path st files = (files', r) →
  ∀ cfg id, check machine fingerprint (cn_store (connection_open why path files' cfg id)) = TrustOnFirstUse.
Proof.
  intros Hm Hw Hp H cfg id. unfold save_store in H. rewrite Hm, Hw in H. injection H as <- _. unfold connection_open, connection_new. cbn [cn_store]. unfold opened_store, load_store. rewrite lookup_insert_eq, Hp.
  cbn [mbind option_bind]. unfold check. by rewrite lookup_empty.
Qed.

End KnownDaemons.

(** * At concrete inputs *)

#[local] Existing Instance coded_text.
#[local] Existing Instance coded_pretty.
#[local] Existing Instance toy_passwords.

(** A digest that tells a few texts apart. *)
#[local] Program Instance sum_sha256 : Sha256 := {| sha256 b := replicate 32 (foldl (λ acc x, (acc * 31 + x) mod 256) 0 b)%Z |}.
Next Obligation. done. Qed.
Next Obligation.
  intros b. apply (Forall_replicate (λ x, 0 ≤ x < 256)%Z 32). destruct b as [|x b] using rev_ind; [done|].
  rewrite foldl_app. apply Z.mod_pos_bound. lia.
Qed.

Definition claims_tuple (c : Claims) : string * string * string * Z * Z * string := (jti c, sub c, username c, iat c, exp c, token_type c).

#[local] Instance Claims_countable : Countable Claims.
Proof. refine (inj_countable' claims_tuple (λ '(j, s, u, i, e, t), mkClaims j s u i e t) _). by intros []. Defined.

(** A library that signs everything. *)
Definition coded_decode (now : Z) (tok : string) : result string Claims :=
  match decode (of_bits tok) with Some c => if decide (now ≤ exp c + 60)%Z then Ok c else Err "ExpiredSignature" | None => Err "InvalidToken" end.

#[local] Instance coded_jwt : JwtLib.
Proof.
  refine {| jwt_encode c := Ok (bits_of (encode c)); jwt_decode := coded_decode |}; unfold coded_decode.
  - intros c tok now [= <-] Hn. rewrite of_bits_of, decode_encode. by rewrite decide_True by lia.
  - intros c c' tok now [= <-]. rewrite of_bits_of, decode_encode. case_decide; [|done]. by intros [= <-].
  - intros c tok now. destruct (decode _); [|done]. case_decide; [|done]. by intros [= <-].
Defined.

Definition token_text (c : Claims) : string := bits_of (encode c).
Definition alice_refresh : Claims := mkClaims "r" "u" "alice" 0 1000 "refresh".
Definition alice_config : CliConfig :=
  mkCliConfig (Some "https://relay") (Some "m") (Some (mkAuthConfig "u" "alice" "a" (token_text alice_refresh))) None.
Definition alice_home : CliEnv := mkCliEnv (Some "/home/alice") "/w" "id" None None.
Definition alice_db : RelayDatabase :=
  writes 0 [WCreateUser "u" "alice" "alice@example.com" "pw"; WCreateToken "t0" "u" (hash_token (token_text alice_refresh)) 1000] RelayStore.empty_db.

Lemma alice_db_ok : db_ok alice_db.
Proof. do 2 apply write_ok. split; simpl; intros *; rewrite lookup_empty; done. Qed.

Lemma alice_calm : calm_env alice_home.
Proof. split; [by eexists|done]. Qed.

Lemma alice_logged_in : logged_in alice_config alice_db 1000.
Proof.
  split; [exact alice_db_ok|by eexists|by eexists|done|].
  eexists _, alice_refresh, "t0", (mkToken "t0" "u" (hash_token (token_text alice_refresh)) 1000 false 0 None None). split; [reflexivity|].
  split; [reflexivity|]. split; [reflexivity|]. split; [reflexivity|]. split; [vm_compute; reflexivity|]. do 4 (split; [reflexivity|]).
  eexists. vm_compute. reflexivity.
Qed.

(** Two runs, the second when the first token has expired; bob logs in in
    between. *)
Definition two_turns : list Turn :=
  [mkTurn [] 900 (mkUuids "a1" "r1" "t1" "u1"); mkTurn [(950%Z, OpRegister (mkUuids "a2" "r2" "t2" "u2") "bob" "password" "b@example.com")] 1500 (mkUuids "a3" "r3" "t3" "u3")].

Definition alice_world : CliWorld (RL := auth_relay toy_svc) :=
  (save_config (RL := auth_relay toy_svc) alice_home alice_config (mkCliWorld (RL := auth_relay toy_svc) ∅ (two_turns, alice_db))).1.

Lemma client_stays_logged_in_witness :
  let '(w', ended) := invocations toy_svc alice_home (no_flags "") 2 alice_world in
  length ended = 2 ∧ ∃ expiry', logged_in (load_config (RL := auth_relay toy_svc) (Some "/home/alice") w') (cw_relays w').2 expiry'.
Proof.
  destruct (calm_save toy_svc alice_home alice_config (mkCliWorld (RL := auth_relay toy_svc) ∅ (two_turns, alice_db)) alice_calm) as (w & Hs & Hl & Hr).
  assert (alice_world = w) as Hw by (unfold alice_world; rewrite Hs; reflexivity).
  pose proof (client_stays_logged_in toy_svc alice_home "" two_turns alice_db alice_world 1000) as H.
  destruct (invocations toy_svc alice_home (no_flags "") 2 alice_world) as [w' ended] eqn:E.
  change (length two_turns) with 2 in H. rewrite E in H. destruct H as [H1 H2].
  - intros c. by eexists.
  - exact alice_calm.
  - rewrite Hw, Hr. reflexivity.
  - rewrite Hw, Hl. exact alice_logged_in.
  - cbn. lia.
  - repeat constructor. by eexists.
  - apply (bool_decide_unpack _). vm_compute. exact I.
  - apply (Forall_forall (λ i, tokens alice_db !! i = None)). apply (bool_decide_unpack _). vm_compute. exact I.
  - split; [symmetry; by eapply Forall2_length in H1|exact H2].
Defined.

(** A run with a relay of its own. *)
Lemma one_off_flags_are_saved_witness :
  ∃ w' t, cli_main (RL := auth_relay toy_svc) alice_home (mkCliArgs (Some "https://other") None None "" CmdOther) alice_world = (w', ConnectsTo EmptyString t) ∧
    cc_relay_url (load_config (RL := auth_relay toy_svc) (Some "/home/alice") w') = Some "https://other" ∧ ct_addr t = "https://other".
Proof.
  destruct (cli_main (RL := auth_relay toy_svc) alice_home (mkCliArgs (Some "https://other") None None "" CmdOther) alice_world) as [w' s] eqn:E.
  assert (∃ t, s = ConnectsTo EmptyString t) as [t ->] by (apply (f_equal snd) in E; vm_compute in E; subst s; by eexists).
  exists w', t. split; [reflexivity|].
  destruct (one_off_flags_are_saved (RL := auth_relay toy_svc) alice_home (mkCliArgs (Some "https://other") None None "" CmdOther) alice_world w' EmptyString t "https://other")
    as (auth & st & r & _ & _ & _ & _ & H1 & H2); [reflexivity|reflexivity|exact E|reflexivity|split; [exact H1|exact H2]].
Defined.

Notation shop := (auth_relay toy_svc).





