(* ===== verification/ClientWitnesses.v ===== *)
(** The client's commands at concrete inputs: a daemon with a repository on
    disk, and a relay with a machine of its own user. *)
From stdpp Require Import gmap strings list pretty fin_maps.
From Stdlib Require Import ZArith Lia SpecFloat.
From S2P Require Import Prelude Protocol Json Utf8 Completion Commands Fingerprint SessionStore RepoStore Worktrees RepoService.
From S2P Require Import Multiplexer EventBridge Encodings SessionRelay EventCodec AgentService ClientConnection.
From S2P Require Import Json CryptoSession AgentProtocol TunnelHandler TunnelCorrect RelayStore RelayAuth RelayTunnel RelayTunnelCorrect RelayProxy.
From S2P Require Import Scheduler OrchestrationStore SubagentManager SubagentService CommandIndex CommandService CommandCorrect GitLab GitLabCorrect.
From S2P Require Import RepoWitnesses ClientCalls DaemonMain ClientCommands ClientCorrect ClientConfig ClientConfigCorrect.

#[local] Existing Instance AgentService.demo_json.
#[local] Existing Instance RepoWitnesses.small_git.
#[local] Existing Instance RepoWitnesses.small_codes.
#[local] Existing Instance RepoWitnesses.small_alphanumeric.
#[local] Existing Instance GitLabCorrect.toy_codes.
#[local] Existing Instance GitLabCorrect.toy_gitlab.
#[local] Instance plain_case : UnicodeCase := {| to_lowercase s := s |}.
#[local] Instance map_order : HashOrder := {| hash_values A m := (map_to_list m).*2; hash_values_perm A m := reflexivity _ |}.
#[local] Instance plain_texts : CliTexts := {| fixed4 _ := "0.0000"; merge_status_debug _ := "CanBeMerged" |}.

(** * A daemon with a directory to register *)

Definition small_daemon (d : DaemonDb) (k : Disk) : Daemon :=
  mkDaemon (mkService (SessionRelay.relay_new 2 default_mux_config d) ∅) k (manager_new (pool_new 3) (mkOrchestrationDb ∅ ∅ ∅ ∅))
    CommandCorrect.fresh_state ∅.

Definition small_env (uuid : string) : DaemonEnv :=
  mkDaemonEnv (AgentService.demo_env uuid) RepoWitnesses.env0 (λ _, uuid) (λ _, 9%Z) None
    (mkSpawnEnv 100 "/w" (λ _, true) None "/tmp" (Ok None)) "https://gitlab.example" 1 (BashProc [] [] (Ok 0%Z)).

Definition client (c : ConnectionConfig) : DaemonConnection := mkConnection c true Connected None [] None ∅.
Definition local_client : DaemonConnection := client (mkConnectionConfig None None).

Definition text_of_status (e : Status) : string := message e.

Definition registered_daemon : Daemon :=
  (local_repo text_of_status (small_env "id-r") local_client (small_daemon SessionStore.empty_db RepoWitnesses.disk0) (RepoRegister "/r" (Some "app") "local" "" "" "" true)).1.

Lemma empty_db_repos_ok : repos_ok SessionStore.empty_db.
Proof. exact (RepoRuns.run_repos_ok [] RepoWitnesses.disk0). Qed.

Lemma registered_repo_is_read_back_witness :
  ∃ r, local_repo text_of_status (small_env "again") local_client registered_daemon (RepoGet "id-r") = (registered_daemon, (write_repo r, CliDone)) ∧
    grd_repo_path r = "/r" ∧ mode_text (grd_worktree_mode r) = "local" ∧ grd_auto_gitignore r = false ∧ grd_name r = "app".
Proof.
  assert (∃ out, local_repo text_of_status (small_env "id-r") local_client (small_daemon SessionStore.empty_db RepoWitnesses.disk0)
    (RepoRegister "/r" (Some "app") "local" "" "" "" true) = (registered_daemon, (out, CliDone))) as [out E]
    by (eexists; vm_compute; reflexivity).
  destruct (registered_repo_is_read_back text_of_status (small_env "id-r") (small_env "again") local_client
    (small_daemon SessionStore.empty_db RepoWitnesses.disk0) _ _ _ _ _ _ _ _ _ eq_refl empty_db_repos_ok E) as (r & _ & Hget & _ & Hp & Hm & Hg & Hn & _).
  exists r. split_and!; [exact Hget|exact Hp|exact Hm|exact Hg|by apply Hn].
Defined.

Definition app_row : GitRepoRow := mkGitRepo "id-r" "app" "/r" "local" ".worktree" None None false 100 100.

Lemma registered_store : daemon_store registered_daemon = (set_repos {[ "id-r" := app_row ]} SessionStore.empty_db, RepoWitnesses.disk0).
Proof. vm_compute. reflexivity. Qed.

Lemma registered_repos_ok : repos_ok (set_repos {[ "id-r" := app_row ]} SessionStore.empty_db).
Proof.
  assert (set_repos {[ "id-r" := app_row ]} SessionStore.empty_db =
    RepoRuns.rs_db (RepoRuns.repo_run [RepoRuns.CallRegister "id-r" 100 (mkRegister "/r" "app" 2 "" "" "" false)] (RepoRuns.repo_start RepoWitnesses.disk0))) as ->
    by (vm_compute; reflexivity). apply RepoRuns.run_repos_ok.
Qed.

(** Only the name is given, then a mode that is none. *)
Lemma update_changes_what_is_given_witness :
  let row' := mkGitRepo "id-r" "tool" "/r" "local" ".worktree" None None false 100 100 in
  local_repo text_of_status (small_env "x") local_client registered_daemon (RepoUpdate "id-r" (Some "tool") None None None None false false) =
    (with_store (set_repos {[ "id-r" := row' ]} SessionStore.empty_db, RepoWitnesses.disk0) registered_daemon,
     (line "Updated repository:" +:+ write_repo (to_detail row' 0), CliDone)) ∧
  ∃ e, local_repo text_of_status (small_env "x") local_client registered_daemon (RepoUpdate "id-r" None (Some "moon") None None None false false) =
    (registered_daemon, (EmptyString, CliFailed (CliText e))).
Proof.
  pose proof (update_changes_what_is_given text_of_status (small_env "x") local_client registered_daemon "id-r" app_row) as H.
  rewrite registered_store in H. cbn zeta in H. split.
  - rewrite (H (Some "tool") None None None None false false); [|reflexivity|exact registered_repos_ok|vm_compute; reflexivity]. vm_compute. reflexivity.
  - rewrite (H None (Some "moon") None None None false false); [|reflexivity|exact registered_repos_ok|vm_compute; reflexivity].
    eexists. vm_compute. reflexivity.
Defined.

(** * Sessions *)

(** Three sessions, listed from the second on. *)
Definition three_sessions : DaemonDb :=
  foldl (λ d id, (SessionStore.create_session 5 id "m" "/w" d).1) SessionStore.empty_db ["s1"; "s2"; "s3"].

Lemma shown_range_exceeds_total_witness :
  ∃ text, (run_session (AN := local_daemon text_of_status (small_env "x")) local_client (small_daemon three_sessions RepoWitnesses.disk0) (SessionList None None 50 1)).2 =
    (text +:+ line (lf +:+ "Showing 2-3 of 2 session(s)"), CliDone).
Proof.
  destruct (svc_list_sessions EmptyString 50 1 (dm_service (small_daemon three_sessions RepoWitnesses.disk0))).1 as [|sum rest] eqn:E;
    [vm_compute in E; discriminate E|].
  assert (length rest = 1) as Hlen by (apply (f_equal length) in E; vm_compute in E; injection E as E; by rewrite E).
  destruct (shown_range_exceeds_total text_of_status (small_env "x") local_client (small_daemon three_sessions RepoWitnesses.disk0) None None 50 1 sum rest)
    as (header & H & _); [reflexivity|lia|lia|exact E|].
  rewrite H, Hlen. exists (header +:+ concat_text (session_line <$> sum :: rest)). cbn [snd]. by rewrite string_app_assoc.
Defined.

(** [betcode --continue] in their directory, and in another. *)
Lemma continue_takes_newest_witness :
  ∃ id, (continue_session (AN := local_daemon text_of_status (small_env "x")) true None (Some "/w") "/" local_client (small_daemon three_sessions RepoWitnesses.disk0)).2 = Ok (Some id) ∧
    (continue_session (AN := local_daemon text_of_status (small_env "x")) true None None "/" local_client (small_daemon three_sessions RepoWitnesses.disk0)).2 =
      Err (CliText "No sessions found in /. Start a new session first.").
Proof.
  pose proof (continue_takes_newest text_of_status (small_env "x") local_client (small_daemon three_sessions RepoWitnesses.disk0) (Some "/w") "/" eq_refl) as H1.
  pose proof (continue_takes_newest text_of_status (small_env "x") local_client (small_daemon three_sessions RepoWitnesses.disk0) None "/" eq_refl) as H2.
  destruct (continue_session _ _ (Some "/w") _ _ _) as [s1 [session|e1]] eqn:E1; [|apply (f_equal (λ x, is_ok x.2)) in E1; vm_compute in E1; discriminate E1].
  destruct (continue_session _ _ None _ _ _) as [s2 [session'|e2]] eqn:E2; [apply (f_equal (λ x, is_ok x.2)) in E2; vm_compute in E2; discriminate E2|].
  destruct (H1 ltac:(discriminate)) as (_ & row & -> & _). destruct (H2 ltac:(discriminate)) as (_ & _ & ->).
  exists (s_id row). split; reflexivity.
Defined.

(** * A relay *)

#[local] Existing Instance RelayTunnelCorrect.toy_json.
#[local] Instance remote_jwt : JwtLib := toy_jwt toy_known.

(** The machine of alice is connected, with room for one frame. *)
Definition small_relay : RelayTunnel.Relay := (register_conn "m" "u" (mkChan [] 1 true) demo_relay).1.

Lemma client_call_reaches_own_machine_witness :
  ∃ r' c w, relay_receive 15 demo_bm "q" [7%Z] (call_method (CallGetRepo "id-r")) (client_headers (λ _, true) (Some "a3") (Some "m")) small_relay =
    Some (r', Ok (c, w)) ∧ handed_over c (build_request_frame 15 "q" "GitRepoService/GetRepo" [7%Z] ∅) small_relay r'.
Proof.
  destruct (relay_receive 15 demo_bm "q" [7%Z] (call_method (CallGetRepo "id-r")) (client_headers (λ _, true) (Some "a3") (Some "m")) small_relay)
    as [[r' [[c w]|e]]|] eqn:E; [|vm_compute in E; discriminate E..].
  exists r', c, w. split; [reflexivity|].
  destruct (client_call_reaches_own_machine 15 demo_bm "q" [7%Z] (λ _, true) (Some "a3") (Some "m") _ (CallGetRepo "id-r") small_relay r' c w E)
    as (t & m & claims & row & _ & _ & _ & _ & _ & _ & _ & H). exact H.
Defined.

(** * Services that are not where a client looks *)

Lemma gitlab_is_remote_only_witness :
  (run_gitlab (AN := local_daemon text_of_status (small_env "x")) local_client (small_daemon SessionStore.empty_db RepoWitnesses.disk0) (IssueGet "group/project" 3)).2 =
  (EmptyString, CliFailed (CliConnection (RpcCallFailed EmptyString))).
Proof.
  rewrite (gitlab_is_remote_only text_of_status (small_env "x") local_client (small_daemon SessionStore.empty_db RepoWitnesses.disk0) (IssueGet "group/project" 3) eq_refl).
  reflexivity.
Defined.

#[local] Existing Instance toy_primitives.
#[local] Existing Instance toy_sha256.

(** A daemon whose tunnel has the services of its start. *)
Definition tunnel_of_main : Handler := handler_new demo_started (Some (generate (replicate 32 7%Z))) (tunnel_services None) tt.

Lemma subagents_are_local_only_witness :
  (handle_frame demo_clock (demo_tunnel_env "u") (build_request_frame 0 "r" "SubagentService/ListSubagents" [] ∅) tunnel_of_main).2 =
  [mkFrame "r" FtError 100 (Some (ErrorPayload TunnelInternal "SubagentService not available in tunnel handler"))].
Proof.
  destruct (subagents_are_local_only demo_clock (demo_tunnel_env "u") _ (CallListSubagents "" "") None 0 "r" [] tunnel_of_main eq_refl eq_refl) as [H _].
  apply (f_equal snd) in H. exact H.
Defined.
