(* ===== verification/Notifications.v ===== *)
(** Devices that are notified, and the messages sent to them.

    Models crates/betcode-relay/src/storage/queries_notifications.rs and
    notifications/ (service.rs, fcm.rs).  The table is keyed by the device
    token, which is unique.  The numbers of the platforms are the class
    [PlatformCodes]; the HTTP call is an argument. *)
From stdpp Require Import gmap strings list fin_maps pretty.
From Stdlib Require Import ZArith Lia.
From S2P Require Import Prelude Protocol Json RelayAuth.

(** * The table *)

Record DeviceToken := mkDevice {
  dt_id : string;
  dt_user_id : string;
  dt_device_token : string;
  dt_platform : string;
  dt_created_at : Z
}.

Notation DeviceTable := (gmap string DeviceToken).

Definition platforms : list string := ["android"; "ios"].

(** A known token keeps its id; a new one needs an id of its own. *)
Definition upsert_device_token (now : Z) (id user_id token platform : string) (t : DeviceTable) : DeviceTable * result DatabaseError unit :=
  if decide (platform ∉ platforms) then (t, Err (Query (CheckViolation "platform")))
  else match t !! token with
  | Some d => (<[token := mkDevice (dt_id d) user_id token platform now]> t, Ok tt)
  | None =>
      if decide (id ∈ dt_id <$> (map_to_list t).*2) then (t, Err (Query (UniqueViolation "device_tokens.id")))
      else (<[token := mkDevice id user_id token platform now]> t, Ok tt)
  end.

Definition delete_device_token (token : string) (t : DeviceTable) : DeviceTable * bool := (delete token t, bool_decide (is_Some (t !! token))).

Definition newest_device (d e : DeviceToken) : bool := (dt_created_at e <=? dt_created_at d)%Z.

Definition get_device_tokens_for_user {SO : SqlOrder} (user_id : string) (t : DeviceTable) : list DeviceToken :=
  order_by newest_device (filter (λ d, dt_user_id d = user_id) (map_to_list t).*2).

Definition get_device_token (token : string) (t : DeviceTable) : option DeviceToken := t !! token.

(** Rows are stored under their token, with ids of their own. *)
Record devices_ok (t : DeviceTable) : Prop := {
  do_keys : ∀ k d, t !! k = Some d → dt_device_token d = k ∧ dt_platform d ∈ platforms;
  do_ids : ∀ k1 k2 d1 d2, t !! k1 = Some d1 → t !! k2 = Some d2 → dt_id d1 = dt_id d2 → k1 = k2
}.

(** * The service *)

Inductive DevicePlatform := PlatformUnspecified | PlatformAndroid | PlatformIos.

Class PlatformCodes := {
  platform_i32 : DevicePlatform → Z;
  platform_try_from : Z → option DevicePlatform;
  platform_codes p : platform_try_from (platform_i32 p) = Some p
}.

Definition platform_to_str {PC : PlatformCodes} (platform : Z) : result Status string :=
  match platform_try_from platform with
  | Some PlatformAndroid => Ok "android"
  | Some PlatformIos => Ok "ios"
  | Some PlatformUnspecified | None => Err (mkStatus InvalidArgument "Platform must be ANDROID or IOS")
  end.

Section Service.
Context {PC : PlatformCodes} {ST : SqlText}.

(** [caller] are the claims of the request, which are not looked at. *)
Definition register_device (now : Z) (uuid : string) (caller : Claims) (user_id token : string) (platform : Z) (t : DeviceTable)
  : DeviceTable * result Status bool :=
  if decide (token = EmptyString) then (t, Err (mkStatus InvalidArgument "device_token is required"))
  else if decide (user_id = EmptyString) then (t, Err (mkStatus InvalidArgument "user_id is required"))
  else match platform_to_str platform with
  | Err e => (t, Err e)
  | Ok p =>
      match upsert_device_token now uuid user_id token p t with
      | (t', Ok _) => (t', Ok true)
      | (t', Err e) => (t', Err (mkStatus Internal ("Failed to register device token: " +:+ database_error_text e)))
      end
  end.

(** [None] is a panic: the message of the log cuts the token at its eighth
    byte, after the row is gone. *)
Definition unregister_device (caller : Claims) (token : string) (t : DeviceTable) : DeviceTable * option (result Status bool) :=
  if decide (token = EmptyString) then (t, Some (Err (mkStatus InvalidArgument "device_token is required")))
  else
    let '(t', removed) := delete_device_token token t in
    (t', if removed then match slice_to (Nat.min (String.length token) 8) token with Some _ => Some (Ok true) | None => None end
         else Some (Ok false)).

End Service.

(** * Messages (fcm.rs) *)

Record FcmClient := mkFcmClient {
  fcm_project_id : string;
  fcm_private_key : string;
  fcm_access_token : option string
}.

Definition fcm_api_url (c : FcmClient) : string := "https://fcm.googleapis.com/v1/projects/" +:+ fcm_project_id c +:+ "/messages:send".

Definition auth_header (c : FcmClient) : string := "Bearer " +:+ default (fcm_private_key c) (fcm_access_token c).

Definition build_message (token title body : string) (data : option (list (string * string))) : Json :=
  json_object [("message", json_object
    ([("token", JStr token); ("notification", json_object [("title", JStr title); ("body", JStr body)])] ++
     match data with Some kvs => [("data", json_object ((λ kv, (kv.1, JStr kv.2)) <$> kvs))] | None => [] end))].

Inductive NotificationError := FcmRequest (e : string) | FcmApi (status : Z) (body : string).

(** The answer to the POST: an error, or a status and a body. *)
Definition send_outcome (answer : result string (Z * string)) : result NotificationError unit :=
  match answer with
  | Err e => Err (FcmRequest e)
  | Ok (status, body) => if ((200 <=? status) && (status <=? 299))%Z then Ok tt else Err (FcmApi status body)
  end.

(** * What the service promises *)

Lemma upsert_ok (now : Z) (id user_id token platform : string) (t : DeviceTable) :
  devices_ok t → devices_ok (upsert_device_token now id user_id token platform t).1.
Proof.
  intros [H1 H2]. unfold upsert_device_token. case_decide as Hp; [done|].
  assert (platform ∈ platforms) as Hp' by (destruct (decide (platform ∈ platforms)); tauto). clear Hp.
  destruct (t !! token) as [d|] eqn:Et; [|case_decide as Hid; [done|]]; split; cbn.
  - intros k e [[<- <-]|[_ He]]%lookup_insert_Some; [done|by apply H1].
  - intros k1 k2 d1 d2 [[<- <-]|[N1 E1]]%lookup_insert_Some [[<- <-]|[N2 E2]]%lookup_insert_Some Heq; cbn in Heq; by eauto.
  - intros k e [[<- <-]|[_ He]]%lookup_insert_Some; [done|by apply H1].
  - assert (∀ k e, t !! k = Some e → dt_id e ≠ id) as Hn.
    { intros k e He <-. apply Hid. apply list_elem_of_fmap. exists e. split; [done|]. apply list_elem_of_fmap. exists (k, e).
      split; [done|]. by apply elem_of_map_to_list. }
    intros k1 k2 d1 d2 [[<- <-]|[N1 E1]]%lookup_insert_Some [[<- <-]|[N2 E2]]%lookup_insert_Some Heq; cbn in Heq; [done| | |by eauto].
    + by destruct (Hn k2 d2 E2).
    + by destruct (Hn k1 d1 E1).
Qed.

Section Promises.
Context {PC : PlatformCodes} {ST : SqlText} {SO : SqlOrder}.

(** Whoever knows the token of a device can take it away from its user, by
    registering it for another one or by unregistering it: the claims of the
    caller are not compared with the user of the row. *)
Theorem devices_are_not_owned (now : Z) (uuid user other token : string) (platform : Z) (caller : Claims) (p : string) (t : DeviceTable) (d : DeviceToken) :
  t !! token = Some d → dt_user_id d = user → other ≠ user → other ≠ EmptyString → token ≠ EmptyString → platform_to_str platform = Ok p →
  devices_ok t →
  let t1 := (register_device now uuid caller other token platform t).1 in
  let t2 := (unregister_device caller token t).1 in
  (register_device now uuid caller other token platform t).2 = Ok true ∧
  token ∉ dt_device_token <$> get_device_tokens_for_user user t1 ∧ token ∈ dt_device_token <$> get_device_tokens_for_user other t1 ∧
  token ∉ dt_device_token <$> get_device_tokens_for_user user t2.
Proof.
  intros Ht Hu Hne Ho Htok Hp Hok.
  assert (p ∈ platforms) as Hin by (revert Hp; unfold platform_to_str; destruct (platform_try_from platform) as [[]|]; intros [= <-]; [left|right; left]).
  assert (∀ (t' : DeviceTable) u k, devices_ok t' → k ∈ dt_device_token <$> get_device_tokens_for_user u t' ↔ ∃ e, t' !! k = Some e ∧ dt_user_id e = u) as Hmem.
  { intros t' u k Hok'. unfold get_device_tokens_for_user. rewrite list_elem_of_fmap. split.
    - intros (e & -> & He). rewrite order_by_perm in He. apply list_elem_of_filter in He as [Hue ([k' e'] & -> & He%elem_of_map_to_list)%list_elem_of_fmap].
      cbn in *. destruct (do_keys t' Hok' k' e' He) as [-> _]. by exists e'.
    - intros (e & He & Hue). exists e. destruct (do_keys t' Hok' k e He) as [<- _]. split; [done|]. rewrite order_by_perm. apply list_elem_of_filter.
      split; [done|]. apply list_elem_of_fmap. exists (dt_device_token e, e). split; [done|]. by apply elem_of_map_to_list. }
  assert (register_device now uuid caller other token platform t = (<[token := mkDevice (dt_id d) other token p now]> t, Ok true)) as Hr.
  { unfold register_device. rewrite !decide_False, Hp by done. unfold upsert_device_token. rewrite decide_False by tauto. by rewrite Ht. }
  assert (devices_ok (<[token := mkDevice (dt_id d) other token p now]> t)) as Hok1.
  { pose proof (upsert_ok now uuid other token p t Hok) as H. unfold upsert_device_token in H. rewrite decide_False in H by tauto. by rewrite Ht in H. }
  assert ((unregister_device caller token t).1 = delete token t) as Hd by (unfold unregister_device; by rewrite decide_False).
  assert (devices_ok (delete token t)) as Hok2.
  { destruct Hok as [H1 H2]. split; [intros k e [_ He]%lookup_delete_Some; by apply H1|].
    intros k1 k2 d1 d2 [_ E1]%lookup_delete_Some [_ E2]%lookup_delete_Some. by eauto. }
  cbn zeta. rewrite Hr, Hd. cbn [fst snd]. split_and!; [done|..]; rewrite Hmem by done.
  - intros (e & He & Hue). rewrite lookup_insert_eq in He. injection He as <-. by cbn in Hue.
  - eexists. by rewrite lookup_insert_eq.
  - intros (e & He & _). by rewrite lookup_delete_eq in He.
Qed.

(** Unregistering a device whose token is cut inside a character panics after
    the row is gone. *)
Lemma unregister_panics (caller : Claims) (token : string) (t : DeviceTable) :
  is_Some (t !! token) → 8 ≤ String.length token → is_char_boundary 8 token = false →
  unregister_device caller token t = (delete token t, None).
Proof.
  intros Ht Hl Hb. unfold unregister_device, delete_device_token. rewrite decide_False by (intros ->; cbn in Hl; lia).
  rewrite bool_decide_eq_true_2 by done. rewrite Nat.min_r by done. unfold slice_to. by rewrite Hb.
Qed.

End Promises.

#[local] Instance toy_platforms : PlatformCodes.
Proof.
  refine {| platform_i32 p := match p with PlatformUnspecified => 0 | PlatformAndroid => 1 | PlatformIos => 2 end%Z;
            platform_try_from z := if decide (z = 0)%Z then Some PlatformUnspecified else if decide (z = 1)%Z then Some PlatformAndroid
                                   else if decide (z = 2)%Z then Some PlatformIos else None |}.
  by intros [].
Defined.
#[local] Instance toy_sql_text : SqlText := {| sql_failure_text _ := "constraint failed" |}.

Definition phone : DeviceToken := mkDevice "1" "alice" "token-of-alice" "ios" 1.
Definition mallory : Claims := mkClaims "j" "mallory" "mallory" 0 10 "access".

Lemma devices_are_not_owned_witness :
  (register_device 5 "2" mallory "mallory" "token-of-alice" 1 {["token-of-alice" := phone]}).2 = Ok true ∧
  "token-of-alice" ∉ dt_device_token <$> get_device_tokens_for_user "alice" (register_device 5 "2" mallory "mallory" "token-of-alice" 1 {["token-of-alice" := phone]}).1.
Proof.
  destruct (devices_are_not_owned 5 "2" "alice" "mallory" "token-of-alice" 1 mallory "android" {["token-of-alice" := phone]} phone) as (H1 & H2 & _);
    [apply lookup_singleton_eq|reflexivity|discriminate|discriminate|discriminate|reflexivity| |].
  - split.
    + intros k d [<- <-]%lookup_singleton_Some. split; [reflexivity|right; left].
    + intros k1 k2 d1 d2 [<- _]%lookup_singleton_Some [<- _]%lookup_singleton_Some _. reflexivity.
  - split; [exact H1|exact H2].
Defined.
