(* ===== verification/SetupCorrect.v ===== *)
(** Set-ups are read back: by an update, by the daemon that is started with
    their files, and by the client they set up. *)
From stdpp Require Import gmap strings list pretty.
From Stdlib Require Import ZArith Lia.
From S2P Require Import Prelude Protocol Utf8 Commands Fingerprint Json JsonFile Worktrees CommandIndex TunnelReconnect Certificates.
From S2P Require Import RelayAuth CertificatesCorrect GitLabCorrect DaemonMain Setup.

(** * Lines *)

Definition line_text (s : string) : Prop := no_char (byte 10) s ∧ no_char (byte 13) s.

Lemma line_text_app (s t : string) : line_text s → line_text t → line_text (s +:+ t).
Proof. intros [H1 H2] [H3 H4]. split; apply no_char_both; done. Qed.

Lemma strip_cr_none (s : string) : no_char (byte 13) s → strip_cr s = s.
Proof.
  intros H. unfold strip_cr. destruct (strip_suffix _ s) as [p|] eqn:E; [|done]. apply strip_suffix_spec in E. subst s.
  exfalso. induction p as [|a p IH]; destruct H as [H0 H]; [done|by apply IH].
Qed.

Lemma lines_unlines (l : list string) : l ≠ [] → Forall line_text l → str_lines (unlines l) = l.
Proof.
  intros Hne Hl. unfold unlines, str_lines, lf. change (Ascii.ascii_of_nat 10) with (byte 10).
  assert (split_on (byte 10) (join (String (byte 10) EmptyString) l +:+ String (byte 10) EmptyString) = l ++ [EmptyString]) as ->.
  { induction Hl as [|w l [Hw _] Hl IH]; [done|]. destruct l as [|v l]; [by apply split_on_app_sep|].
    rewrite join_cons, <- string_app_assoc by done. change (String (byte 10) EmptyString +:+ ?x) with (String (byte 10) x).
    change (String (byte 10) ?x +:+ ?y) with (String (byte 10) (x +:+ y)). rewrite split_on_app_sep by done. by rewrite IH. }
  rewrite last_snoc, length_app, Nat.add_sub, take_app_length.
  apply list_eq. intros i. rewrite list_lookup_fmap. destruct (l !! i) as [w|] eqn:E; [|done]. cbn. rewrite Forall_lookup in Hl.
  f_equal. by apply strip_cr_none, (Hl i).
Qed.

(** A decidable form, for the texts that are written out. *)
Fixpoint line_textb (s : string) : bool :=
  match s with EmptyString => true | String a s' => negb (bool_decide (a = byte 10)) && negb (bool_decide (a = byte 13)) && line_textb s' end.

Lemma line_textb_ok (s : string) : line_textb s = true → line_text s.
Proof.
  induction s as [|a s IH]; [done|]. cbn. intros [[H1 H2]%andb_prop H]%andb_prop. apply negb_true_iff, bool_decide_eq_false in H1, H2.
  destruct (IH H). by split.
Qed.

Ltac line_text_tac :=
  repeat first [ assumption | apply line_textb_ok; vm_compute; reflexivity | apply line_text_app ].

(** ** Settings *)

Definition name_text (s : string) : Prop := no_char (byte 61) s.

Lemma strip_setting (k k' v : string) : name_text k → name_text k' →
  strip_prefix (k' +:+ "=") (k +:+ "=" +:+ v) = if decide (k = k') then Some v else None.
Proof.
  revert k'. induction k as [|a k IH]; intros [|b k'] Hk Hk'.
  - rewrite decide_True by done. by apply strip_prefix_spec.
  - rewrite decide_False by done. rewrite string_app_cons. cbn [strip_prefix].
    change (EmptyString +:+ "=" +:+ v) with (String (byte 61) v). cbn. destruct Hk' as [Hb _]. by rewrite decide_False.
  - rewrite decide_False by done. rewrite string_app_cons. change (EmptyString +:+ "=") with (String (byte 61) EmptyString). cbn [strip_prefix].
    destruct Hk as [Ha _]. rewrite decide_False by congruence. done.
  - destruct Hk as [Ha Hk], Hk' as [Hb Hk']. rewrite !string_app_cons. cbn [strip_prefix]. destruct (decide (b = a)) as [->|Hne].
    + rewrite IH by done. destruct (decide (k = k')) as [->|]; [by rewrite decide_True|rewrite decide_False by congruence; done].
    + rewrite decide_False by congruence. done.
Qed.

Definition setting_line (s : string * string) : string := s.1 +:+ "=" +:+ s.2.

Definition value_of (k : string) (l : list (string * string)) : option string := snd <$> List.find (λ s, bool_decide (s.1 = k)) l.

Lemma first_setting (k : string) (l : list (string * string)) (v : string) :
  name_text k → Forall (λ s, name_text s.1) l → value_of k l = Some v → v ≠ EmptyString →
  head (omap (λ t, x ← strip_prefix (k +:+ "=") t; if decide (x = EmptyString) then None else Some x) (setting_line <$> l)) = Some v.
Proof.
  intros Hk Hl Hv Hne. induction Hl as [|[k' w] l Hk' Hl IH]; [done|]. cbn in Hv |- *. unfold setting_line. cbn [fst snd].
  rewrite strip_setting by done. unfold value_of in Hv, IH. cbn in Hv.
  destruct (decide (k' = k)) as [->|E].
  - rewrite bool_decide_eq_true_2 in Hv by done. cbn in Hv. injection Hv as ->. cbn. by rewrite decide_False.
  - rewrite bool_decide_eq_false_2 in Hv by done. cbn. by apply IH.
Qed.

Lemma Forall_setting (P : string * string → Prop) (k : string) (v : option string) : (∀ x, P (k, x)) → Forall P (setting k v).
Proof. intros H. destruct v; [by repeat constructor|constructor]. Qed.

Ltac each_setting tac := unfold daemon_settings; repeat first [ apply Forall_app_2 | apply Forall_cons_2 | apply Forall_nil_2 | apply Forall_setting; intros ? ]; tac.

Lemma daemon_settings_names (c : DaemonSetupConfig) : Forall (λ s, name_text s.1) (daemon_settings c).
Proof. each_setting ltac:(cbn; repeat split; done). Qed.

Lemma daemon_names_lines (c : DaemonSetupConfig) : Forall (λ s, line_text s.1) (daemon_settings c).
Proof. each_setting ltac:(apply line_textb_ok; vm_compute; reflexivity). Qed.

Lemma setting_lines (l : list (string * string)) : Forall (λ s, line_text s.1) l → Forall (λ s, line_text s.2) l → Forall line_text (setting_line <$> l).
Proof.
  intros H1 H2. apply Forall_fmap. rewrite Forall_forall in H1, H2 |- *. intros s Hs. unfold compose, setting_line.
  apply line_text_app; [by apply H1|]. apply line_text_app; [by apply line_textb_ok; vm_compute|by apply H2].
Qed.

(** The identifier of a machine is read back from its environment file. *)
Lemma machine_id_read_back (c : DaemonSetupConfig) : Forall (λ s, line_text s.2) (daemon_settings c) → ds_machine_id c ≠ EmptyString →
  parse_daemon_env_machine_id (daemon_env_file c) = Some (ds_machine_id c).
Proof.
  intros Hl Hne. unfold parse_daemon_env_machine_id, daemon_env_file. change (λ s, s.1 +:+ "=" +:+ s.2) with setting_line.
  rewrite lines_unlines by (done || by apply setting_lines, Hl; apply daemon_names_lines).
  apply (first_setting "BETCODE_MACHINE_ID"); [by vm_compute; repeat split|apply daemon_settings_names| |done].
  unfold value_of, daemon_settings, setting. by destruct (ds_relay_url c).
Qed.

(** * The relay *)

Lemma split_once_here (sep s : string) : split_once sep (sep +:+ s) = Some (EmptyString, s).
Proof.
  assert (strip_prefix sep (sep +:+ s) = Some s) as Hp by by apply strip_prefix_spec.
  destruct (sep +:+ s) eqn:E; unfold split_once; fold split_once; by rewrite Hp.
Qed.

Lemma split_once_char (c : Ascii.ascii) (s t : string) : no_char c s → split_once (String c EmptyString) (s +:+ String c t) = Some (s, t).
Proof.
  induction s as [|a s IH]; intros H; [exact (split_once_here (String c EmptyString) t)|]. destruct H as [Ha H].
  rewrite string_app_cons. cbn. rewrite decide_False by congruence. by rewrite IH.
Qed.

Lemma split_once_skip (sep s a b : string) (c : Ascii.ascii) : strip_prefix sep (String c s) = None → split_once sep s = Some (a, b) →
  split_once sep (String c s) = Some (String c a, b).
Proof. intros Hp Hs. cbn [split_once]. rewrite Hp, Hs. done. Qed.

Lemma domain_line (domain : string) : no_char (byte 47) domain →
  ('(_, after) ← split_once live_dir ("  --tls-cert " +:+ live_dir +:+ domain +:+ "/fullchain.pem " +:+ backslash);
   '(d, _) ← split_once "/" after; Some d) = Some domain.
Proof.
  intros Hd. set (rest := domain +:+ _).
  assert (split_once live_dir ("  --tls-cert " +:+ live_dir +:+ rest) = Some ("  --tls-cert ", rest)) as ->.
  { do 13 (rewrite string_app_cons; apply split_once_skip; [by cbn|]). apply (split_once_here live_dir). }
  cbn [mbind option_bind]. unfold rest. change (domain +:+ "/fullchain.pem " +:+ backslash) with (domain +:+ String (byte 47) ("fullchain.pem " +:+ backslash)).
  by rewrite split_once_char.
Qed.

Definition relay_lines (c : RelaySetupConfig) : Prop :=
  line_text (rs_domain c) ∧ line_text (rs_jwt_secret c) ∧ line_text (rs_db_path c) ∧ line_text (addr_text (rs_addr c)).

Lemma head_omap_none {A B : Type} (f : A → option B) (x : A) (l : list A) : f x = None → head (omap f (x :: l)) = head (omap f l).
Proof. intros H. cbn. by rewrite H. Qed.

Lemma head_omap_some {A B : Type} (f : A → option B) (x : A) (b : B) (l : list A) : f x = Some b → head (omap f (x :: l)) = Some b.
Proof. intros H. cbn. by rewrite H. Qed.

Ltac each_line := repeat first [ apply Forall_app_2 | apply Forall_cons_2 | apply Forall_nil_2 ].

Lemma domain_read_back (c : RelaySetupConfig) : relay_lines c → no_char (byte 47) (rs_domain c) →
  parse_domain_from_unit (relay_unit c) = Some (rs_domain c).
Proof.
  intros (H1 & _ & _ & H4) Hd. unfold parse_domain_from_unit, relay_unit. rewrite lines_unlines; [|done|].
  - cbn [app]. do 11 (rewrite head_omap_none; [|vm_compute; reflexivity]). apply head_omap_some, domain_line, Hd.
  - apply Forall_app_2; [each_line; line_text_tac|]. apply Forall_app_2; [|each_line; line_text_tac]. destruct (_ <? _)%Z; each_line; line_text_tac.
Qed.

Lemma relay_env_read_back (c : RelaySetupConfig) : relay_lines c → parse_relay_env_file (relay_env_file c) = (Some (rs_jwt_secret c), Some (rs_db_path c)).
Proof.
  intros (_ & H2 & H3 & _). unfold parse_relay_env_file, relay_env_file. rewrite lines_unlines; [|done|each_line; line_text_tac].
  reflexivity.
Qed.

(** * Steps *)

Create HintDb setup.

Section Steps.
Context `{PG : Programs} {CL : CertLib}.

(** A step leaves a file alone. *)
Definition unchanged {A : Type} (p : string) (m : Setup A) : Prop := ∀ h, host_files (m h).1 !! p = host_files h !! p.

(** The commands leave it alone. *)
Definition commands_keep (p : string) : Prop := ∀ env argv h, host_files (pr_exec env argv h).1 !! p = host_files h !! p.

Lemma bind_ok {A B : Type} (m : Setup A) (f : A → Setup B) (h h' : Host) (b : B) :
  (m ≫= f) h = (h', Ok b) → ∃ a h1, m h = (h1, Ok a) ∧ f a h1 = (h', Ok b).
Proof. unfold mbind, setup_bind. destruct (m h) as [h1 [a|s]]; [eauto|done]. Qed.

Lemma unchanged_ok {A : Type} (p : string) (m : Setup A) (h h' : Host) (r : result Stop A) :
  unchanged p m → m h = (h', r) → host_files h' !! p = host_files h !! p.
Proof. intros H E. specialize (H h). by rewrite E in H. Qed.

Lemma unchanged_ret {A : Type} (p : string) (a : A) : unchanged p (mret a).
Proof. done. Qed.

Lemma unchanged_skip (p : string) : unchanged p skip.
Proof. done. Qed.

Lemma unchanged_stop {A : Type} (p : string) (s : Stop) : unchanged p (stop (A := A) s).
Proof. done. Qed.

Lemma unchanged_fail {A : Type} (p e : string) : unchanged p (fail (A := A) e).
Proof. done. Qed.

Lemma unchanged_get (p : string) : unchanged p get_host.
Proof. done. Qed.

Lemma unchanged_result {A : Type} (p : string) (r : result string A) : unchanged p (of_result r).
Proof. by destruct r. Qed.

Lemma unchanged_bind {A B : Type} (p : string) (m : Setup A) (f : A → Setup B) :
  unchanged p m → (∀ a, unchanged p (f a)) → unchanged p (m ≫= f).
Proof.
  intros Hm Hf h. specialize (Hm h). unfold mbind, setup_bind. destruct (m h) as [h1 [a|s]]; [|done]. by rewrite (Hf a h1).
Qed.

Lemma unchanged_if {A : Type} (p : string) (b : bool) (m m' : Setup A) : unchanged p m → unchanged p m' → unchanged p (if b then m else m').
Proof. by destruct b. Qed.

Lemma unchanged_write (p context path content : string) : path ≠ p → unchanged p (write_text context path content).
Proof.
  intros Hne h. unfold write_text. destruct (pr_write_error path h) as [[e [rest|]]|]; try done; cbn; by rewrite lookup_insert_ne.
Qed.

Lemma unchanged_append (p path content : string) : path ≠ p → unchanged p (append_text path content).
Proof.
  intros Hne h. unfold append_text. destruct (pr_write_error path h) as [[e [rest|]]|]; try done; cbn; by rewrite lookup_insert_ne.
Qed.

Lemma unchanged_read (p context path : string) : unchanged p (read_text context path).
Proof. intros h. unfold read_text. by destruct (_ !! path). Qed.

Lemma unchanged_mkdir (p path : string) : unchanged p (make_dir path).
Proof. intros h. unfold make_dir. by destruct (pr_write_error path h) as [[]|]. Qed.

Lemma unchanged_mode (p context path : string) (mode : Z) : unchanged p (set_mode context path mode).
Proof. intros h. unfold set_mode. destruct (pr_chmod_error path h); [done|]. by destruct (there path h). Qed.

Lemma unchanged_exec (p : string) (env : list (string * string)) (argv : list string) : commands_keep p → unchanged p (exec env argv).
Proof. intros Hk h. unfold exec. specialize (Hk env argv (mkHost (ho_disk h) (ho_modes h) (ho_ran h ++ [argv]) (ho_outside h))). by destruct (pr_exec _ _ _). Qed.

Lemma unchanged_canonical (p what : string) (q : option string) : unchanged p (canonical_binary what q).
Proof. intros h. unfold canonical_binary. destruct q as [q|]; [|done]. by destruct (pr_canonicalize q h). Qed.

End Steps.

#[export] Hint Resolve unchanged_ret unchanged_skip unchanged_stop unchanged_fail unchanged_get unchanged_result unchanged_bind unchanged_if
  unchanged_write unchanged_append unchanged_read unchanged_mkdir unchanged_mode unchanged_exec unchanged_canonical : setup.

Ltac keeps_file := repeat first
  [ done | assumption | match goal with |- ∀ _, unchanged _ _ => intros ? end
  | apply unchanged_bind | apply unchanged_if | apply unchanged_exec | apply unchanged_write; [by vm_compute|] | apply unchanged_mkdir | apply unchanged_mode
  | apply unchanged_read | apply unchanged_result | apply unchanged_canonical | apply unchanged_fail | apply unchanged_ret | case_match ].

Section StepsKept.
Context `{PG : Programs} {CL : CertLib} (p : string) (Hk : commands_keep p).

Lemma unchanged_run_cmd (description : string) (argv : list string) : unchanged p (run_cmd description argv).
Proof. unfold run_cmd. keeps_file. Qed.

Lemma unchanged_succeeds (argv : list string) : unchanged p (succeeds_cmd argv).
Proof. unfold succeeds_cmd. keeps_file. Qed.

Lemma unchanged_copy (src dest : string) : dest ≠ p → unchanged p (copy_file src dest).
Proof. intros Hne. unfold copy_file. apply unchanged_bind; [apply unchanged_read|intros t]. apply unchanged_bind; [by apply unchanged_write|]. keeps_file. Qed.

Lemma unchanged_install (what option_name dest : string) (src : option string) : dest ≠ p → unchanged p (install_binary what option_name dest src).
Proof.
  intros Hne. unfold install_binary. destruct src; [|keeps_file]. apply unchanged_bind; [by apply unchanged_copy|]. keeps_file.
Qed.

Lemma unchanged_each {A : Type} (f : A → Setup unit) (l : list A) : (∀ x, unchanged p (f x)) → unchanged p (each f l).
Proof. intros Hf. induction l as [|x l IH]; [done|]. cbn. apply unchanged_bind; [by apply Hf|done]. Qed.

End StepsKept.

Ltac keeps := repeat first
  [ done | assumption | match goal with |- ∀ _, unchanged _ _ => intros ? end
  | apply unchanged_run_cmd; assumption | apply unchanged_succeeds; assumption | apply unchanged_copy; vm_compute; discriminate | apply unchanged_install; vm_compute; discriminate
  | apply unchanged_each | apply unchanged_bind | apply unchanged_if | apply unchanged_exec; assumption | apply unchanged_write; vm_compute; discriminate
  | apply unchanged_mkdir | apply unchanged_mode | apply unchanged_read | apply unchanged_result | apply unchanged_canonical | apply unchanged_fail
  | apply unchanged_ret | case_match ].

(** The next step of a set-up that succeeds, and what is left of it. *)
Ltac next_step H := let a := fresh "a" in let h := fresh "h" in let E := fresh "E" in apply bind_ok in H as (a & h & E & H).

Section Relay.
Context `{PG : Programs} {CL : CertLib}.

Lemma unchanged_system_user (p : string) : commands_keep p → unchanged p ensure_system_user.
Proof. intros Hk. unfold ensure_system_user, command_exists. keeps. Qed.

Lemma unchanged_directories (p db_path user : string) : commands_keep p → unchanged p (create_setup_directories db_path user).
Proof. intros Hk. unfold create_setup_directories. keeps. Qed.

Lemma unchanged_escalate (p : string) (env : SetupEnv) : commands_keep p → unchanged p (escalate_if_needed env).
Proof. intros Hk. unfold escalate_if_needed. keeps. Qed.

Lemma unchanged_prereqs (p : string) (addr : SockAddr) (is_update : bool) : commands_keep p → unchanged p (check_systemd_prereqs addr is_update).
Proof. intros Hk. unfold check_systemd_prereqs, check_port, is_betcode_relay_active, command_exists. keeps. Qed.

Lemma unchanged_certbot (p : string) (c : RelaySetupConfig) (is_update : bool) :
  commands_keep p → p ∈ [RELAY_UNIT_PATH; RELAY_ENV_PATH] → unchanged p (setup_certbot c is_update).
Proof.
  intros Hk Hp. unfold setup_certbot, ensure_package, grant_read, command_exists. rewrite !elem_of_cons, elem_of_nil in Hp. destruct Hp as [-> | [-> | []]]; keeps.
Qed.

(** After its files, a deployment writes neither of them again. *)
Lemma unchanged_started (p : string) (c : RelaySetupConfig) (is_update : bool) :
  commands_keep p → p ∈ [RELAY_UNIT_PATH; RELAY_ENV_PATH] →
  unchanged p (active ← (if is_update then is_betcode_relay_active else mret false);
    _ ← (if active : bool then run_cmd "stopping betcode-relay" ["systemctl"; "stop"; "betcode-relay"] else skip);
    _ ← install_relay_binary c; _ ← setup_certbot c is_update; enable_and_start_relay is_update).
Proof.
  intros Hk Hp. unfold is_betcode_relay_active, install_relay_binary, enable_and_start_relay, start_command_args.
  apply unchanged_bind; [keeps|intros active]. apply unchanged_bind; [keeps|intros _].
  apply unchanged_bind; [rewrite !elem_of_cons, elem_of_nil in Hp; destruct Hp as [-> | [-> | []]]; keeps|intros _].
  apply unchanged_bind; [by apply unchanged_certbot|intros _]. keeps.
Qed.

Lemma deploy_relay_update (c : RelaySetupConfig) (h h' : Host) (env : string) :
  commands_keep RELAY_UNIT_PATH → commands_keep RELAY_ENV_PATH → host_files h !! RELAY_ENV_PATH = Some env →
  deploy_relay c true h = (h', Ok tt) →
  host_files h' !! RELAY_ENV_PATH = Some env ∧ host_files h' !! RELAY_UNIT_PATH = Some (relay_unit c).
Proof.
  intros Hu He Henv H. unfold deploy_relay in H. next_step H. next_step H. next_step H. next_step H.
  assert (host_files h1 !! RELAY_ENV_PATH = Some env) as Henv1.
  { rewrite (unchanged_ok RELAY_ENV_PATH _ _ _ _ (unchanged_directories _ _ _ He) E0), (unchanged_ok RELAY_ENV_PATH _ _ _ _ (unchanged_system_user _ He) E). done. }
  assert (h2 = h1) as ->.
  { unfold write_relay_env_file, write_env_if_fresh in E1. unfold mbind, setup_bind, get_host, there, path_there in E1.
    unfold host_files in Henv1. rewrite Henv1, (bool_decide_eq_true_2 (is_Some (Some env))), orb_true_r in E1 by by eexists. cbn in E1. by injection E1. }
  assert (host_files h3 !! RELAY_ENV_PATH = Some env ∧ host_files h3 !! RELAY_UNIT_PATH = Some (relay_unit c)) as [H3e H3u].
  { unfold write_relay_unit in E2. next_step E2. rewrite (unchanged_ok _ _ _ _ _ (unchanged_run_cmd _ He _ _) E2), (unchanged_ok _ _ _ _ _ (unchanged_run_cmd _ Hu _ _) E2).
    unfold write_text in E3. destruct (pr_write_error RELAY_UNIT_PATH h1) as [[e [rest|]]|]; try discriminate E3. injection E3 as <- _. cbn.
    split; [by rewrite lookup_insert_ne|apply lookup_insert_eq]. }
  rewrite (unchanged_ok RELAY_ENV_PATH _ _ _ _ (unchanged_started _ c true He ltac:(set_solver)) H),
    (unchanged_ok RELAY_UNIT_PATH _ _ _ _ (unchanged_started _ c true Hu ltac:(set_solver)) H). done.
Qed.

(** C27: An update without options keeps what the installation was given, its
    domain, secret and database; but the address is not read back: the unit
    gets the one of the option's default. *)
Theorem relay_update_resets_address (env : SetupEnv) (c : RelaySetupConfig) (binary : option string) (addr : SockAddr) (h h' : Host) :
  relay_lines c → no_char (byte 47) (rs_domain c) → commands_keep RELAY_UNIT_PATH → commands_keep RELAY_ENV_PATH →
  host_files h !! RELAY_UNIT_PATH = Some (relay_unit c) → host_files h !! RELAY_ENV_PATH = Some (relay_env_file c) →
  setup_relay env (mkRelayArgs None None None None binary addr) h = (h', Ok tt) →
  host_files h' !! RELAY_ENV_PATH = Some (relay_env_file c) ∧
  host_files h' !! RELAY_UNIT_PATH = Some (relay_unit (mkRelaySetup (rs_domain c) (rs_jwt_secret c) (rs_db_path c) Systemd (rs_binary c) addr)).
Proof.
  intros Hl Hd Ku Ke Hu He H. unfold setup_relay in H. apply bind_ok in H as (g & h0 & [= <- <-] & H).
  assert (there RELAY_UNIT_PATH h = true) as Ht.
  { unfold there, path_there. apply orb_true_iff. right. apply bool_decide_eq_true. unfold host_files in Hu. by rewrite Hu. }
  rewrite Ht in H. unfold load_existing_config in H. rewrite Hu, He in H. cbn [fmap option_fmap option_map default mbind option_bind] in H.
  rewrite domain_read_back, relay_env_read_back in H by done. cbn [ex_domain ex_jwt_secret ex_db_path given_or rla_domain rla_jwt_secret rla_db_path rla_mode rla_addr rla_binary] in H.
  do 4 (apply bind_ok in H as (? & ? & [= <- <-] & H)). next_step H. apply bind_ok in H as (? & ? & [= <- <-] & H).
  next_step H. next_step H. next_step H.
  assert (∀ p, commands_keep p → host_files h3 !! p = host_files h !! p) as Hsame.
  { intros p Hp. rewrite (unchanged_ok p _ _ _ _ (unchanged_prereqs _ _ _ Hp) E2).
    rewrite (unchanged_ok p _ _ _ _ (unchanged_escalate _ _ Hp) E1).
    rewrite (unchanged_ok p _ _ _ _ (unchanged_result _ _) E0). by rewrite (unchanged_ok p _ _ _ _ (unchanged_canonical _ _ _) E). }
  rewrite <- (Hsame _ Ke) in He. destruct (deploy_relay_update _ _ _ _ Ku Ke He H) as [? ?]. done.
Qed.

End Relay.

(** * The daemon *)

(** ** Numbers *)

Lemma digits_pretty_char (acc : Z) (n : N) (s : string) : (n < 10)%N → digits acc (String (pretty_N_char n) s) = digits (10 * acc + Z.of_N n) s.
Proof.
  intros Hn. assert (n ∈ [0; 1; 2; 3; 4; 5; 6; 7; 8; 9]%N) as Hin by (rewrite !elem_of_cons; lia). revert Hin. clear Hn.
  rewrite !elem_of_cons, elem_of_nil. intros H. destruct_or?; subst; done.
Qed.

Lemma digits_pretty_go (n : N) (s : string) : digits 0 (pretty_N_go n s) = digits (Z.of_N n) s.
Proof.
  revert s. induction n as [n IH] using (well_founded_induction N.lt_wf_0). intros s. destruct (decide (0 < n)%N) as [Hn|Hn].
  - rewrite pretty_N_go_step by done. rewrite IH by (apply N.div_lt; lia). rewrite digits_pretty_char by (apply N.mod_lt; lia).
    f_equal. pose proof (N.div_mod n 10). lia.
  - replace n with 0%N by lia. by rewrite pretty_N_go_0.
Qed.

Lemma digits_pretty (n : N) : digits 0 (pretty n) = Some (Z.of_N n).
Proof. unfold pretty, pretty_N. case_decide; [by subst|]. apply digits_pretty_go. Qed.

Lemma pretty_go_plus (n : N) (a : Ascii.ascii) (t : string) :
  a ≠ Ascii.ascii_of_nat 43 → ∃ b u, pretty_N_go n (String a t) = String b u ∧ b ≠ Ascii.ascii_of_nat 43.
Proof.
  revert a t. induction n as [n IH] using (well_founded_induction N.lt_wf_0). intros a t Ha. destruct (decide (0 < n)%N) as [Hn|Hn].
  - rewrite pretty_N_go_step by done. apply IH; [apply N.div_lt; lia|]. unfold pretty_N_char. by repeat case_match.
  - replace n with 0%N by lia. rewrite pretty_N_go_0. by exists a, t.
Qed.

(** A number is read back from how it is displayed. *)
Lemma parse_pretty_uint (z : Z) : (0 ≤ z < 2 ^ 64)%Z → parse_uint 64 (pretty z) = Some z.
Proof.
  intros Hz. assert (pretty z = pretty (Z.to_N z)) as -> by (destruct z; [done|done|lia]).
  assert (∃ b u, pretty (Z.to_N z) = String b u ∧ b ≠ Ascii.ascii_of_nat 43) as (b & u & E & Hb).
  { unfold pretty, pretty_N. case_decide; [by eexists _, _|]. rewrite pretty_N_go_step by lia. apply pretty_go_plus.
    unfold pretty_N_char. by repeat case_match. }
  pose proof (digits_pretty (Z.to_N z)) as Hd. unfold parse_uint. rewrite E in Hd |- *. cbn zeta. rewrite (decide_False (P := b = _)) by done.
  rewrite decide_False by done. rewrite Hd. cbn. rewrite Z2N.id by lia. by rewrite (proj2 (Z.ltb_lt _ _)) by lia.
Qed.

(** ** What systemd makes of the file *)

(** What is read of a value: of a backslash and the character after it the
    character, and nothing of a value that ends within such a pair. *)
Fixpoint unescape (s : string) : option string :=
  match s with
  | EmptyString => Some EmptyString
  | String a s' =>
      if decide (a = byte 92) then match s' with String b s'' => String b <$> unescape s'' | EmptyString => None end
      else String a <$> unescape s'
  end.
Definition as_read (s : string) : string := default s (unescape s).

(** Values of visible characters but quotes, and those that are read as they
    are written. *)
Definition unquoted_char (a : Ascii.ascii) : bool := printable a && negb (bool_decide (a = byte 34)) && negb (bool_decide (a = byte 39)).
Definition unquoted (s : string) : Prop := str_all unquoted_char s = true ∧ is_Some (unescape s).
Definition no_backslash (s : string) : Prop := no_char (byte 92) s.

Definition unquoted_setting (s : string * string) : Prop := name_text s.1 ∧ str_all unquoted_char s.1 = true ∧ unquoted s.2.

(** The environment of a service from the text of its file: of assignments
    of such values, each in a line and of its own name, what is read of
    them. *)
Class EnvironmentFiles := {
  env_of : string → string → option string;
  env_of_lines : ∀ l k, l ≠ [] → Forall unquoted_setting l → NoDup l.*1 → env_of (unlines (setting_line <$> l)) k = as_read <$> value_of k l
}.

Lemma unescape_none (s : string) : no_backslash s → unescape s = Some s.
Proof. induction s as [|a s IH]; [done|]. intros [Ha Hs]. cbn. by rewrite decide_False, IH. Qed.

Lemma as_read_none (s : string) : no_backslash s → as_read s = s.
Proof. intros H. unfold as_read. by rewrite unescape_none. Qed.

Lemma unescape_length (s t : string) : unescape s = Some t → String.length t ≤ String.length s ∧ (t = s → no_backslash s).
Proof.
  revert t. induction s as [s IH] using (induction_ltof1 _ String.length). unfold ltof in IH.
  destruct s as [|a s]; [by intros t [= <-]|]. cbn [unescape]. intros t H. case_decide as Ha.
  - destruct s as [|b s]; [done|]. destruct (unescape s) as [u|] eqn:E; [|done]. injection H as <-.
    apply IH in E as [E _]; [|cbn; lia]. cbn. split; [lia|]. intros [= _ ->]. cbn in E. lia.
  - destruct (unescape s) as [u|] eqn:E; [|done]. injection H as <-. apply IH in E as [E1 E2]; [|cbn; lia].
    cbn. split; [lia|]. intros [= ->]. split; [done|by apply E2].
Qed.

(** A value with a backslash is read as another one. *)
Lemma as_read_same (s : string) : unquoted s → as_read s = s → no_backslash s.
Proof. intros [_ [t Ht]]. unfold as_read. rewrite Ht. by apply unescape_length. Qed.

Lemma unquoted_plain (s : string) : str_all unquoted_char s = true → no_backslash s → unquoted s.
Proof. intros H Hb. split; [done|]. rewrite unescape_none by done. by eexists. Qed.

Definition setting_names : list string :=
  ["BETCODE_ADDR"; "BETCODE_DB_PATH"; "BETCODE_MAX_PROCESSES"; "BETCODE_MAX_SESSIONS"; "BETCODE_MACHINE_NAME"; "BETCODE_LOG_JSON"; "BETCODE_RELAY_URL";
   "BETCODE_MACHINE_ID"; "BETCODE_RELAY_USERNAME"; "BETCODE_RELAY_PASSWORD"; "BETCODE_RELAY_CUSTOM_CA_CERT"; "BETCODE_WORKTREE_DIR"; "BETCODE_CLAUDE_BIN"].

Lemma setting_sublist (k : string) (v : option string) (l l' : list string) :
  l `sublist_of` l' → (setting k v).*1 ++ l `sublist_of` k :: l'.
Proof. intros H. destruct v; cbn; [by apply sublist_skip|by apply sublist_cons]. Qed.

Lemma settings_distinct (c : DaemonSetupConfig) : NoDup (daemon_settings c).*1.
Proof.
  apply (sublist_NoDup _ setting_names); [apply (bool_decide_unpack (NoDup setting_names)); vm_compute; exact I|].
  unfold daemon_settings, setting_names. rewrite !fmap_app. cbn [fmap list_fmap fst app].
  repeat first [apply sublist_skip | apply setting_sublist | apply sublist_nil].
  rewrite <- (app_nil_r (setting "BETCODE_CLAUDE_BIN" _).*1). apply setting_sublist, sublist_nil_l.
Qed.

Lemma value_of_cons (k k' v : string) (l : list (string * string)) :
  value_of k ((k', v) :: l) = if decide (k' = k) then Some v else value_of k l.
Proof. unfold value_of. cbn. by case_decide; [rewrite bool_decide_eq_true_2|rewrite bool_decide_eq_false_2]. Qed.

Lemma value_of_app (k : string) (l l' : list (string * string)) :
  value_of k (l ++ l') = match value_of k l with Some v => Some v | None => value_of k l' end.
Proof. induction l as [|[k' v] l IH]; [done|]. cbn [app]. rewrite !value_of_cons. by case_decide. Qed.

Lemma value_of_setting (k k' : string) (v : option string) : value_of k (setting k' v) = if decide (k' = k) then v else None.
Proof. destruct v; cbn [setting]; [rewrite value_of_cons|]; by case_decide. Qed.

Lemma value_of_nil (k : string) : value_of k [] = None.
Proof. done. Qed.

Ltac lookup_setting :=
  unfold daemon_settings; rewrite ?value_of_app, ?value_of_cons, ?value_of_setting, ?value_of_nil;
  repeat (case_decide; try discriminate); repeat match goal with |- context [match ?v with Some _ => _ | None => _ end] => destruct v end; try done.

(** The options of the daemon that a configuration stands for. *)
Definition options_of (c : DaemonSetupConfig) : DaemonArgs :=
  mkDaemonArgs (addr_text (ds_addr c)) (Some (ds_db_path c)) (Z.to_nat (ds_max_processes c)) (Z.to_nat (ds_max_sessions c)) (ds_relay_url c)
    (Some (ds_machine_id c)) (ds_machine_name c) (ds_relay_username c) (ds_relay_password c) (ds_relay_custom_ca_cert c) None None (ds_worktree_dir c)
    (default "claude" (ds_claude_bin c)) "prompt-tool-stdio" 5.

(** Options as they are read. *)
Definition options_read (o : DaemonArgs) : DaemonArgs :=
  mkDaemonArgs (as_read (da_addr o)) (as_read <$> da_db_path o) (da_max_processes o) (da_max_sessions o) (as_read <$> da_relay_url o)
    (as_read <$> da_machine_id o) (as_read (da_machine_name o)) (as_read <$> da_relay_username o) (as_read <$> da_relay_password o)
    (as_read <$> da_relay_custom_ca_cert o) (da_client_cert o) (da_client_key o) (as_read <$> da_worktree_dir o) (as_read (da_claude_bin o))
    (da_permission_strategy o) (da_terminate_timeout o).

(** The values of a configuration are such values, and its numbers in range. *)
Definition unquoted_config (c : DaemonSetupConfig) : Prop :=
  Forall (λ s, unquoted s.2) (daemon_settings c) ∧ (0 ≤ ds_max_processes c < 2 ^ 64)%Z ∧ (0 ≤ ds_max_sessions c < 2 ^ 64)%Z.
Definition without_backslash (c : DaemonSetupConfig) : Prop := Forall (λ s, no_backslash s.2) (daemon_settings c).

Lemma unquoted_settings (c : DaemonSetupConfig) : unquoted_config c → Forall unquoted_setting (daemon_settings c).
Proof.
  intros [H _]. assert (Forall (λ s, str_all unquoted_char s.1 = true) (daemon_settings c)) as H1 by each_setting ltac:(vm_compute; reflexivity).
  pose proof (daemon_settings_names c) as H0. rewrite !Forall_forall in *. intros s Hs. split; [by apply H0|]. split; [by apply H1|by apply H].
Qed.

Lemma digits_no_backslash (acc v : Z) (s : string) : digits acc s = Some v → no_backslash s.
Proof.
  revert acc. induction s as [|a s IH]; intros acc; [done|]. cbn. intros H. split; [by intros ->|].
  destruct (_ && _); [by eapply IH|done].
Qed.

Lemma pretty_no_backslash (z : Z) : (0 ≤ z)%Z → no_backslash (pretty z).
Proof. intros Hz. assert (pretty z = pretty (Z.to_N z)) as -> by (destruct z; [done|done|lia]). eapply digits_no_backslash, digits_pretty. Qed.

Lemma options_read_back {EF : EnvironmentFiles} (c : DaemonSetupConfig) : unquoted_config c →
  args_of_env (env_of (daemon_env_file c)) = Some (options_read (options_of c)).
Proof.
  intros Hc. pose proof (unquoted_settings c Hc) as Hp. destruct Hc as (_ & Hn & Hs). unfold daemon_env_file. change (λ s, s.1 +:+ "=" +:+ s.2) with setting_line.
  unfold args_of_env. rewrite !env_of_lines by (done || apply settings_distinct).
  assert (value_of "BETCODE_MAX_PROCESSES" (daemon_settings c) = Some (pretty (ds_max_processes c))) as -> by lookup_setting.
  assert (value_of "BETCODE_MAX_SESSIONS" (daemon_settings c) = Some (pretty (ds_max_sessions c))) as -> by lookup_setting.
  assert (value_of "BETCODE_TERMINATE_TIMEOUT" (daemon_settings c) = None) as -> by lookup_setting.
  assert (value_of "BETCODE_PERMISSION_STRATEGY" (daemon_settings c) = None) as -> by lookup_setting.
  cbn [fmap option_fmap option_map]. rewrite !as_read_none by (apply pretty_no_backslash; lia).
  unfold number_option. rewrite !parse_pretty_uint by done. cbn [mbind option_bind default].
  rewrite decide_True by (apply elem_of_cons; by left). unfold options_read, options_of. f_equal. f_equal; lookup_setting. by destruct (ds_claude_bin c).
Qed.

Lemma settings_as_read (P : string → Prop) (c : DaemonSetupConfig) : Forall (λ s, P s.2) (daemon_settings c) →
  (∀ x, x ∈ [addr_text (ds_addr c); ds_db_path c; ds_machine_name c; ds_machine_id c] → P x) ∧
  ∀ v x, v ∈ [ds_relay_url c; ds_relay_username c; ds_relay_password c; ds_relay_custom_ca_cert c; ds_worktree_dir c; ds_claude_bin c] → v = Some x → P x.
Proof.
  unfold daemon_settings. rewrite !Forall_app, !Forall_cons. cbn [fst snd]. intros H.
  destruct H as ((H1 & H2 & _ & _ & H3 & _) & H4 & (H5 & _) & H6 & H7 & H8 & H9 & H10). split; [intros x Hx; set_unfold in Hx; by destruct_or! Hx; subst|].
  assert (∀ k v x, Forall (λ s, P s.2) (setting k v) → v = Some x → P x) as Hv by (intros k v x Hf ->; by apply Forall_cons in Hf as [Hf _]).
  intros v x Hx. set_unfold in Hx. destruct_or! Hx; subst; eauto.
Qed.

(** Exactly without a backslash the options are those of the
    configuration. *)
Lemma options_unchanged (c : DaemonSetupConfig) : unquoted_config c → options_read (options_of c) = options_of c ↔ without_backslash c.
Proof.
  intros (Hu & Hn & Hs). apply settings_as_read in Hu as [U1 U2]. split.
  - unfold options_read, options_of. cbn -[as_read]. intros [= E1 E2 E3 E4 E5 E6 E7 E8 E9 E10].
    assert (∀ k v, (∀ x, v = Some x → unquoted x) → as_read <$> v = v → Forall (λ s, no_backslash s.2) (setting k v)) as Hv.
    { intros k [x|] Hx E; [|constructor]. injection E as E. repeat constructor. apply as_read_same; [by apply Hx|done]. }
    unfold without_backslash, daemon_settings. rewrite !Forall_app, !Forall_cons. cbn [fst snd].
    split_and!; try apply Forall_nil_2; try (apply pretty_no_backslash; lia); try (apply as_read_same; [apply U1; set_solver|done]);
      try (apply Hv; [intros x; apply U2; set_solver|done]); [by vm_compute; repeat split|].
    destruct (ds_claude_bin c) as [x|] eqn:E; [|constructor]. repeat constructor. apply as_read_same; [|done]. eapply U2; [|done]. set_solver.
  - intros [N1 N2]%settings_as_read. assert (∀ v, (∀ x, v = Some x → no_backslash x) → as_read <$> v = v) as Hv.
    { intros [x|] Hx; [|done]. cbn. by rewrite as_read_none by by apply Hx. }
    unfold options_read, options_of. cbn -[as_read].
    rewrite (as_read_none (addr_text _)), (as_read_none (ds_db_path c)), (as_read_none (ds_machine_id c)), (as_read_none (ds_machine_name c)) by (apply N1; set_solver).
    rewrite (Hv (ds_relay_url c)), (Hv (ds_relay_username c)), (Hv (ds_relay_password c)), (Hv (ds_relay_custom_ca_cert c)), (Hv (ds_worktree_dir c))
      by (intros x; apply N2; set_solver). f_equal.
    destruct (ds_claude_bin c) as [x|] eqn:E; [|reflexivity]. apply as_read_none. eapply N2; [|done]. set_solver.
Qed.

(** The relay of an installation starts, with the address, the database and the
    certificate of its set-up: what the set-up accepts as a secret, the relay
    accepts too. *)
Lemma installed_relay_starts {OS : Outside} {CL : CertLib} {EF : EnvironmentFiles} (c : RelaySetupConfig) (env : CertEnv) (home : option string) (h : Host)
    (d : CertDisk) (cert key : string) :
  validate_relay c h = Ok tt → (∀ s, s ∈ [rs_jwt_secret c; rs_db_path c] → str_all unquoted_char s = true ∧ no_backslash s) →
  cd_files d !! cert_path c = Some cert → cd_files d !! (live_dir +:+ rs_domain c +:+ "/privkey.pem") = Some key →
  ∃ o, relay_options (Some (addr_text (rs_addr c))) (Some (cert_path c)) (Some (live_dir +:+ rs_domain c +:+ "/privkey.pem")) (env_of (relay_env_file c)) = Some o ∧
    ∃ s, relay_main env home o d = (d, Ok s) ∧ rv_addr s = addr_text (rs_addr c) ∧ rv_db_path s = rs_db_path c ∧ rv_tls s = Some (mkServerTls (cert, key) None).
Proof.
  intros Hv Hp Hc Hk. pose (l := [("BETCODE_JWT_SECRET", rs_jwt_secret c); ("BETCODE_DB_PATH", rs_db_path c)]).
  assert (∀ k, env_of (relay_env_file c) k = value_of k l) as He.
  { intros k. change (relay_env_file c) with (unlines (setting_line <$> l)). rewrite env_of_lines; [|done| |].
    - assert (as_read (rs_jwt_secret c) = rs_jwt_secret c ∧ as_read (rs_db_path c) = rs_db_path c) as [H1 H2] by (split; apply as_read_none, Hp; set_solver).
      subst l. rewrite !value_of_cons. case_decide; [cbn; by rewrite H1|]. case_decide; [cbn; by rewrite H2|done].
    - assert (unquoted (rs_jwt_secret c) ∧ unquoted (rs_db_path c)) as [H1 H2] by (split; apply unquoted_plain; apply Hp; set_solver).
      repeat constructor; done || apply H1 || apply H2.
    - apply (bool_decide_unpack (NoDup l.*1)). vm_compute. exact I. }
  assert (validate_jwt_secret (rs_jwt_secret c) = Ok tt) as Hj.
  { unfold validate_relay in Hv. case_decide as H1; [done|]. destruct (Nat.ltb_spec (String.length (rs_jwt_secret c)) 32) as [|Hl]; [done|].
    unfold validate_jwt_secret, MIN_SECRET_LENGTH. case_decide as H2; [rewrite H2 in Hl; cbn in Hl; lia|]. rewrite decide_False by lia. done. }
  unfold relay_options. rewrite !He. change (value_of "BETCODE_JWT_SECRET" l) with (Some (rs_jwt_secret c)).
  change (value_of "BETCODE_DB_PATH" l) with (Some (rs_db_path c)). cbn [mbind option_bind]. eexists. split; [reflexivity|]. unfold relay_main. cbn [ro_jwt_secret]. rewrite Hj.
  unfold relay_tls. cbn [ro_tls tls_mode ra_dev_tls ra_tls_cert ra_tls_key ra_mtls_ca_cert to_server_tls_config relay_db_path ro_db_path]. rewrite Hc, Hk.
  eexists. repeat split.
Qed.

(** ** Paths *)

Lemma app_inj_length (x y s t : string) : String.length s = String.length t → x +:+ s = y +:+ t → s = t.
Proof.
  intros Hl E. assert (String.length x = String.length y) as Hx.
  { apply (f_equal String.length) in E. rewrite !string_length_app in E. lia. }
  clear Hl. revert y Hx E. induction x as [|a x IH]; intros [|b y] Hx E; try discriminate Hx; [done|].
  rewrite !string_app_cons in E. injection E as _ E. injection Hx as Hx. by apply (IH y).
Qed.

Lemma join_suffix (d q : string) : starts_with "/" q = false → ∃ x, path_join d q = x +:+ q.
Proof. intros H. unfold path_join. rewrite H. case_match; [by exists d|]. exists (d +:+ "/"). by rewrite <- string_app_assoc. Qed.

(** The files that are kept, and those that are written after them, by the
    ends of their names. *)
Definition kept_file (p : string) : Prop := ∃ x s, p = x +:+ s ∧ s ∈ ["env"; "son"].
Definition late_file (p : string) : Prop := ∃ x s, p = x +:+ s ∧ s ∈ ["mon"; "hrc"; "ile"; "ice"].

Lemma late_is_other (p q : string) : kept_file p → late_file q → q ≠ p.
Proof.
  intros (x & s & -> & Hs) (y & t & -> & Ht) E.
  set_unfold in Hs. set_unfold in Ht. destruct_or?; subst; try done; apply app_inj_length in E; done.
Qed.

Lemma late_in (d q x s : string) : starts_with "/" q = false → q = x +:+ s → s ∈ ["mon"; "hrc"; "ile"; "ice"] → late_file (path_join d q).
Proof. intros H -> Hs. destruct (join_suffix d _ H) as [y ->]. exists (y +:+ x), s. by rewrite string_app_assoc. Qed.

Lemma kept_in (d q x s : string) : starts_with "/" q = false → q = x +:+ s → s ∈ ["env"; "son"] → kept_file (path_join d q).
Proof. intros H -> Hs. destruct (join_suffix d _ H) as [y ->]. exists (y +:+ x), s. by rewrite string_app_assoc. Qed.

Section Daemon.
Context `{PG : Programs} {CL : CertLib} {JT : JsonText} {JP : JsonPretty} {EF : EnvironmentFiles}.

Lemma destination_is_late (env : SetupEnv) (h h' : Host) (dest : string) : choose_user_binary_destination env h = (h', Ok dest) → late_file dest.
Proof.
  unfold choose_user_binary_destination. intros H. apply bind_ok in H as (g & h0 & [= <- <-] & H). destruct (_ && _).
  - injection H as _ <-. by eexists "/usr/local/bin/betcode-dae", "mon"; split; [|set_solver].
  - next_step H. next_step H. injection H as _ <-. eapply (late_in _ _ "betcode-dae" "mon"); [done|done|set_solver].
Qed.

Lemma shell_config_is_late (shell : option string) (home : string) : late_file (shell_config_for_shell shell home).
Proof.
  unfold shell_config_for_shell. destruct shell as [s|]; [destruct (ends_with "/bash" s); [|destruct (ends_with "/zsh" s)]|].
  - by apply (late_in _ _ ".bas" "hrc"); [| |set_solver].
  - by apply (late_in _ _ ".zs" "hrc"); [| |set_solver].
  - by apply (late_in _ _ ".prof" "ile"); [| |set_solver].
  - by apply (late_in _ _ ".prof" "ile"); [| |set_solver].
Qed.

Lemma unchanged_shell_path (env : SetupEnv) (dir p : string) : commands_keep p → kept_file p → unchanged p (ensure_path_in_shell_config env dir).
Proof.
  intros Hk Hp. unfold ensure_path_in_shell_config. destruct (is_dir_in_path env dir); [done|]. destruct (se_home env) as [home|]; [|done].
  apply unchanged_bind; [unfold detect_shell; keeps|intros shell]. unfold append_path_to_shell_config.
  apply unchanged_bind; [done|intros g]. apply unchanged_bind; [keeps|intros content]. destruct (contains _ content); [done|].
  apply unchanged_append, late_is_other; [done|apply shell_config_is_late].
Qed.

(** A step that is only taken with a result of the one before. *)
Lemma unchanged_bind_ok {A B : Type} (p : string) (m : Setup A) (f : A → Setup B) :
  unchanged p m → (∀ h h' a, m h = (h', Ok a) → unchanged p (f a)) → unchanged p (m ≫= f).
Proof.
  intros Hm Hf h. specialize (Hm h). unfold mbind, setup_bind. destruct (m h) as [h1 [a|s]] eqn:E; [|done]. by rewrite (Hf _ _ _ E h1).
Qed.

Lemma unchanged_user_binary (env : SetupEnv) (c : DaemonSetupConfig) (p : string) : commands_keep p → kept_file p →
  unchanged p (install_user_daemon_binary env c).
Proof.
  intros Hk Hp. unfold install_user_daemon_binary. apply unchanged_bind_ok; [unfold choose_user_binary_destination; keeps|].
  intros h h' dest E%destination_is_late. pose proof (late_is_other p dest Hp E) as Hne.
  apply unchanged_bind; [unfold resolve_source_binary; keeps|intros source]. apply unchanged_bind.
  { destruct source as [src|]; [|keeps]. apply unchanged_bind; [done|intros same]. destruct same; [done|].
    apply unchanged_bind; [by apply unchanged_copy|keeps]. }
  intros _. apply unchanged_bind; [|keeps]. destruct (parent dest); [|done]. case_decide; [done|]. by apply unchanged_shell_path.
Qed.

(** Once its environment file is written, the deployment leaves it alone. *)
Lemma unchanged_user_start (env : SetupEnv) (c : DaemonSetupConfig) (is_update : bool) (p : string) : commands_keep p → kept_file p →
  unchanged p (active ← (if is_update then is_daemon_active_user else mret false);
    _ ← (if active : bool then run_cmd "stopping betcode-daemon (user)" ["systemctl"; "--user"; "stop"; "betcode-daemon"] else skip);
    binary ← install_user_daemon_binary env c; _ ← write_user_unit env binary;
    _ ← (if ds_enable_service c then enable_and_start_user is_update else skip); if ds_enable_linger c then enable_linger else skip).
Proof.
  intros Hk Hp. apply unchanged_bind; [unfold is_daemon_active_user; keeps|intros active]. apply unchanged_bind; [keeps|intros _].
  apply unchanged_bind; [by apply unchanged_user_binary|intros binary]. apply unchanged_bind.
  - unfold write_user_unit, user_unit_path. apply unchanged_bind_ok; [keeps|]. intros h h' path E. destruct (se_home env) as [home|]; [|done].
    injection E as _ <-. apply unchanged_bind; [|keeps]. apply unchanged_write, late_is_other; [done|].
    by apply (late_in _ _ ".config/systemd/user/betcode-daemon.serv" "ice"); [| |set_solver].
  - intros _. unfold enable_and_start_user, enable_linger. keeps.
Qed.

Definition env_path (home : string) : string := path_join home ".config/betcode/daemon.env".
Definition certs_path (home : string) : string := path_join home certs_subdir.
Definition metadata_path (home : string) : string := path_join (certs_path home) metadata_filename.

Lemma env_kept (home : string) : kept_file (env_path home).
Proof. by apply (kept_in _ _ ".config/betcode/daemon." "env"); [| |set_solver]. Qed.

Lemma metadata_kept (home : string) : kept_file (metadata_path home).
Proof. by apply (kept_in _ _ "cert-metadata.j" "son"); [| |set_solver]. Qed.

Lemma env_not_metadata (home : string) : env_path home ≠ metadata_path home.
Proof.
  destruct (join_suffix home ".config/betcode/daemon.env" eq_refl) as [x Hx], (join_suffix (certs_path home) metadata_filename eq_refl) as [y Hy].
  unfold env_path, metadata_path. rewrite Hx, Hy. intros E. change ".config/betcode/daemon.env" with (".config/betcode/daemon." +:+ "env") in E.
  change metadata_filename with ("cert-metadata.j" +:+ "son") in E. rewrite !string_app_assoc in E. by apply app_inj_length in E.
Qed.

(** The configuration that options stand for, on a machine without one. *)
Definition config_of (env : SetupEnv) (home : string) (args : DaemonSetupArgs) (binary : option string) (linger enable : bool) : DaemonSetupConfig :=
  mkDaemonSetup ModeUser (dsa_user args) (dsa_addr args) (default (path_join home ".local/share/betcode/daemon.db") (dsa_db_path args))
    (dsa_max_processes args) (dsa_max_sessions args) (dsa_relay_url args) (default (se_uuid env) (dsa_machine_id args)) (dsa_machine_name args)
    (dsa_relay_username args) (dsa_relay_password args) (dsa_relay_custom_ca_cert args) (dsa_worktree_dir args) None binary linger enable.

Lemma deploy_user_fresh (env : SetupEnv) (c : DaemonSetupConfig) (home : string) (h h' : Host) :
  se_home env = Some home → commands_keep (env_path home) → commands_keep (metadata_path home) → deploy_user env c false h = (h', Ok tt) →
  host_files h' !! env_path home = Some (daemon_env_file c) ∧ host_files h' !! metadata_path home = host_files h !! metadata_path home.
Proof.
  intros Hh Ke Km H. unfold deploy_user in H. next_step H. next_step H. unfold user_env_path in E0. rewrite Hh in E0. injection E0 as <- <-. next_step H.
  fold (env_path home) in E0. pose proof (unchanged_ok _ _ _ _ _ (unchanged_user_start env c false _ Ke (env_kept home)) H) as He.
  pose proof (unchanged_ok _ _ _ _ _ (unchanged_user_start env c false _ Km (metadata_kept home)) H) as Hm.
  assert (∀ p, unchanged p (create_user_directories env)) as Hd by (intros p; unfold create_user_directories; rewrite Hh; keeps).
  unfold write_env_file in E0. next_step E0. unfold write_env_if_fresh in E1. apply bind_ok in E1 as (g & h3 & [= <- <-] & E1). cbn [andb] in E1.
  next_step E1. injection E1 as <- <-. cbn [negb] in E0.
  rewrite He, Hm, !(unchanged_ok _ _ _ _ _ (unchanged_mode _ _ _ _) E0). unfold write_text in E2.
  destruct (pr_write_error _ _) as [[e [rest|]]|]; try discriminate E2. injection E2 as <- _. cbn.
  rewrite lookup_insert_eq, lookup_insert_ne by apply env_not_metadata. split; [done|]. exact (unchanged_ok (metadata_path home) _ _ _ _ (Hd _) E).
Qed.

Lemma ask_quiet {A : Type} (env : SetupEnv) (m : Setup A) (r : result string A) (h h' : Host) (a : A) :
  (∀ h h' a, m h = (h', Ok a) → h' = h) → ask env m r h = (h', Ok a) → h' = h.
Proof. intros Hm. unfold ask. destruct (se_non_interactive env); [apply Hm|]. destruct r; intros [= -> ?]; done. Qed.

Lemma canonical_quiet (what : string) (p : option string) (h h' : Host) (q : option string) : canonical_binary what p h = (h', Ok q) → h' = h.
Proof. unfold canonical_binary. destruct p as [p|]; [destruct (pr_canonicalize p h)|]; intros [= -> ?]; done. Qed.

Lemma provision_fresh (env : SetupEnv) (home machine : string) (h h' : Host) :
  se_home env = Some home → clock_ok (ce_now (se_certs env)) → certs_exist (certs_path home) (ho_disk h) = false →
  provision_step env machine h = (h', Ok tt) →
  read_cert_metadata (certs_path home) (ho_disk h') = Some (mkCertMetadata machine (ce_now (se_certs env)) default_validity_days).
Proof.
  intros Hh Hclock Hnone H. unfold provision_step in H. apply bind_ok in H as (g & h0 & [= <- <-] & H). rewrite Hh in H.
  cbn [default_certs_dir fmap option_fmap option_map] in H. fold (certs_path home) in H. rewrite Hnone in H.
  apply bind_ok in H as (o & h1 & [= <- <-] & H). unfold on_disk, provision_mtls_certs in H. cbn [default_certs_dir fmap option_fmap option_map] in H.
  fold (certs_path home) in H. rewrite Hnone in H. cbn [andb] in H.
  destruct (provision_client_cert _ _ _ (ho_disk h)) as [d [[]|e]] eqn:E; [|done]. injection H as <-.
  apply provision_writes_all in E as (ka & kc & _ & _ & [_ _ _ Hm _]); done.
Qed.

Lemma unchanged_daemon_prereqs (p : string) (addr : SockAddr) (is_update : bool) (mode : DaemonMode) : commands_keep p →
  unchanged p (validate_systemd_prereqs addr is_update mode).
Proof. intros Hk. unfold validate_systemd_prereqs, check_port, is_daemon_active_system, is_daemon_active_user, command_exists. keeps. Qed.

(** C16: The daemon of a new installation in user mode starts with what was
    asked for, when its values have no quotes and no blanks: systemd reads the
    file the set-up has written, the options are those values, of which a
    backslash is lost unless it follows another, so that exactly the values
    without one are read as they are; and the identifier is the one that the
    new certificate names.  The programs that the set-up runs leave these
    files alone. *)
Theorem installed_daemon_starts_as_set_up (env : SetupEnv) (args : DaemonSetupArgs) (home : string) (h h' : Host) :
  se_home env = Some home → dsa_mode args = ModeUser → there (path_join home ".config/systemd/user/betcode-daemon.service") h = false →
  clock_ok (ce_now (se_certs env)) → commands_keep (env_path home) → commands_keep (metadata_path home) →
  unquoted_config (config_of env home args None false false) → setup_daemon env args h = (h', Ok tt) →
  let c := config_of env home args None false false in
  ∃ text o, host_files h' !! env_path home = Some text ∧ args_of_env (env_of text) = Some o ∧
    o = options_read (options_of c) ∧ (o = options_of c ↔ without_backslash c) ∧
    (is_Some (dsa_relay_url args) → certs_exist (certs_path home) (ho_disk h) = false →
     ∃ m, read_cert_metadata (certs_path home) (ho_disk h') = Some m ∧ cm_machine_id m = ds_machine_id c ∧
       ∀ uuid, ∃ t, main_tunnel_config uuid o = Some t ∧ tc_machine_id t = as_read (cm_machine_id m)).
Proof.
  intros Hh Hmode Hfresh Hclock Ke Km Hplain H c. unfold setup_daemon in H. rewrite Hmode in H. next_step H.
  unfold daemon_is_update, user_unit_path in E. rewrite Hh, Hfresh in E. injection E as <- <-.
  next_step H. next_step H. next_step H. next_step H. next_step H. next_step H. next_step H. cbn [ds_relay_url ds_machine_id ds_addr] in *.
  assert (h0 = h ∧ a = default (path_join home ".local/share/betcode/daemon.db") (dsa_db_path args)) as [-> ->].
  { unfold default_daemon_db_path in E. rewrite Hh in E. destruct (dsa_db_path args); injection E as <- <-; split; reflexivity. }
  apply canonical_quiet in E0 as ->. apply ask_quiet in E1 as ->; [|by intros ??? [=]]. apply ask_quiet in E2 as ->; [|by intros ??? [=]].
  assert (h4 = h ∧ a3 = dsa_machine_id args) as [-> ->] by (destruct (dsa_machine_id args); injection E3 as <- <-; split; reflexivity).
  fold (config_of env home args a0 a1 a2) in H. apply (deploy_user_fresh _ _ _ _ _ Hh Ke Km) in H as [Henv Hmeta].
  exists (daemon_env_file c), (options_read (options_of c)). split; [exact Henv|]. split; [by apply options_read_back|]. split; [done|].
  split; [by apply options_unchanged|]. intros [url Hurl] Hnone. rewrite Hurl in E4. destruct a4.
  apply (provision_fresh _ _ _ _ _ Hh Hclock Hnone) in E4.
  rewrite (unchanged_ok _ _ _ _ _ (unchanged_daemon_prereqs _ _ _ _ Km) E5) in Hmeta.
  eexists. split; [rewrite (same_metadata _ (ho_disk h5)); [exact E4|exact Hmeta]|]. split; [done|]. intros uuid. eexists.
  unfold main_tunnel_config. change (da_relay_url (options_read (options_of c))) with (as_read <$> dsa_relay_url args). rewrite Hurl. split; reflexivity.
Qed.

End Daemon.
