(* ===== verification/SetupClient.v ===== *)
(** The set-up of the client, run on the client itself.

    The wizard of crates/betcode-setup/src/cli/wizard.rs starts the programs of
    crates/betcode-cli and reads what they print; both ends are models of code,
    and the command lines between them are those that clap derives from the
    declarations of main.rs, auth_cmd.rs and machine_cmd.rs. *)
From stdpp Require Import gmap strings list pretty.
From Stdlib Require Import ZArith Lia.
From S2P Require Import Prelude Protocol Utf8 Commands Fingerprint Json JsonFile Worktrees Certificates RelayProxy ClientConnection ClientCalls ClientCommands CertificatesCorrect.
From S2P Require Import GitLabCorrect DaemonMain Setup SetupCorrect ClientConfig ClientConfigCorrect.

(** * The command lines *)

(** A value on a command line does not begin with a dash. *)
Definition operand (s : string) : bool := negb (starts_with "-" s).

Definition variable (k : string) (vars : list (string * string)) : option string := snd <$> List.find (λ v, bool_decide (v.1 = k)) vars.

(** The command lines of the wizard, as the client takes them. *)
Definition cli_command (vars : list (string * string)) (argv : list string) : option CliCommand :=
  match argv with
  | ["auth"; "login"; "-u"; u] => p ← variable "BETCODE_PASSWORD" vars; if operand u then Some (CmdAuth (AuthLogin u p)) else None
  | ["auth"; "register"; "-u"; u] => p ← variable "BETCODE_PASSWORD" vars; if operand u then Some (CmdAuth (AuthRegister u p EmptyString)) else None
  | ["machine"; "register"; "--name"; n] => if operand n then Some (CmdMachine (MachineRegister None n)) else None
  | ["machine"; "switch"; id] => if operand id then Some (CmdMachine (MachineSwitch id)) else None
  | _ => None
  end.

Definition cli_args (vars : list (string * string)) (argv : list string) : option CliArgs :=
  let '(relay, rest) := match argv with
                        | "--relay" :: url :: rest => if operand url then (Some url, rest) else (None, argv)
                        | _ => (None, argv)
                        end in
  mkCliArgs relay None None "http://127.0.0.1:50051" <$> cli_command vars rest.

(** What a run that ended leaves for the one that started it. *)
Definition error_text (e : CliError) : string := match e with CliText s => s | CliConnection _ => EmptyString end.

Definition output_of (s : Started) : Output :=
  match s with
  | Ended out CliDone => mkOutput true "exit status: 0" (Some 0%Z) out EmptyString
  | Ended out (CliFailed e) => mkOutput false "exit status: 1" (Some 1%Z) out ("Error: " +:+ error_text e)
  | Ended out CliPanicked => mkOutput false "exit status: 101" (Some 101%Z) out EmptyString
  | _ => mkOutput true "exit status: 0" (Some 0%Z) EmptyString EmptyString
  end.

Section Wizard.
Context {JT : JsonText} {JP : JsonPretty} {RL : Relays}.

(** Outside of the machine there is a relay. *)
#[local] Instance relay_outside : Outside := {| outside := rl_state |}.

Context {PG : Programs} {CL : CertLib}.

Definition cli_world (h : Host) : CliWorld := mkCliWorld (host_files h) (ho_outside h).

Definition with_world (w : CliWorld) (h : Host) : Host := mkHost (set_cert_files (cw_files w) (ho_disk h)) (ho_modes h) (ho_ran h) (cw_relays w).

Lemma world_of_with (w : CliWorld) (h : Host) : cli_world (with_world w h) = w.
Proof. by destruct w. Qed.

(** The program at a path is the client, which finds its home. *)
Definition runs_client (betcode : string) (venv : CliEnv) : Prop := ∀ vars argv args h, cli_args vars argv = Some args →
  let '(w, ended) := cli_main venv args (cli_world h) in pr_exec vars (betcode :: argv) h = (with_world w h, Ok (output_of ended)).

(** * Reading its output *)

Lemma str_lines_app (s t : string) : no_char (byte 10) s → str_lines (s +:+ lf +:+ t) = strip_cr s :: str_lines t.
Proof.
  intros Hs. unfold str_lines, lf. change (Ascii.ascii_of_nat 10) with (byte 10).
  change (s +:+ String (byte 10) EmptyString +:+ t) with (s +:+ String (byte 10) t). rewrite split_on_app_sep by done.
  pose proof (split_on_nonempty (byte 10) t) as Hne. destruct (split_on (byte 10) t) as [|p ps] eqn:E; [done|].
  change (last (s :: p :: ps)) with (last (p :: ps)). destruct (last (p :: ps)) as [[|]|] eqn:El; [|done..].
  cbn [length]. rewrite !Nat.sub_succ, !Nat.sub_0_r. done.
Qed.

(** A word that is trimmed is the word. *)
Lemma trim_word (id : string) (before inner : list string) : str_all printable id = true → id ≠ EmptyString →
  drop_while is_whitespace (before ++ chars id) = inner ++ chars id →
  text_of (reverse (drop_while is_whitespace (reverse (drop_while is_whitespace (before ++ chars id))))) = text_of inner +:+ id.
Proof.
  intros [Hw _]%printable_chars Hne ->. rewrite reverse_app. destruct (reverse (chars id)) as [|c cs] eqn:E.
  { apply (f_equal reverse) in E. rewrite reverse_involutive in E. destruct Hne. by rewrite <- (text_of_chars id), E. }
  apply Forall_reverse in Hw. rewrite E in Hw. apply Forall_cons in Hw as [Hc _].
  change ((c :: cs) ++ reverse inner) with (c :: (cs ++ reverse inner)). cbn [drop_while]. rewrite Hc.
  change (c :: cs ++ reverse inner) with ((c :: cs) ++ reverse inner). rewrite <- E, <- reverse_app, reverse_involutive, text_of_app. by rewrite text_of_chars.
Qed.

Lemma trim_id_line (id : string) : str_all printable id = true → id ≠ EmptyString → trim ("  ID:   " +:+ id) = "ID:   " +:+ id.
Proof.
  intros Hp Hne. unfold trim. rewrite chars_app by (done || by apply printable_chars).
  change (chars "  ID:   ") with [" "; " "; "I"; "D"; ":"; " "; " "; " "]. by rewrite (trim_word id _ ["I"; "D"; ":"; " "; " "; " "]).
Qed.

Lemma trim_id (id : string) : str_all printable id = true → id ≠ EmptyString → trim ("   " +:+ id) = id.
Proof.
  intros Hp Hne. unfold trim. rewrite chars_app by (done || by apply printable_chars).
  change (chars "   ") with [" "; " "; " "]. rewrite (trim_word id _ []); [done|done|done|].
  destruct (printable_chars id Hp) as [Hw _]. cbn. destruct (chars id) as [|c cs]; [done|]. apply Forall_cons in Hw as [Hc _]. cbn. by rewrite Hc.
Qed.

(** The identifier that the client prints is the one the wizard reads. *)
Lemma machine_id_read (id rest : string) : str_all printable id = true → id ≠ EmptyString →
  machine_id_of_output (line "Machine registered:" +:+ line ("  ID:   " +:+ id) +:+ rest) = Some id.
Proof.
  intros Hp Hne. assert (no_char (byte 10) id ∧ no_char (byte 13) id) as [H10 H13] by (split; eapply (all_no_char printable); done).
  assert (line_text ("  ID:   " +:+ id)) as [L10 L13] by (apply line_text_app; [by apply line_textb_ok|done]).
  unfold machine_id_of_output, line. rewrite <- (string_app_assoc "Machine registered:"), <- (string_app_assoc ("  ID:   " +:+ id)).
  rewrite str_lines_app by by apply (line_textb_ok "Machine registered:"). rewrite str_lines_app, (strip_cr_none ("  ID:   " +:+ id)) by done.
  rewrite head_omap_none by by vm_compute. apply head_omap_some. rewrite trim_id_line by done.
  change ("ID:   " +:+ id) with ("ID:" +:+ "   " +:+ id). assert (strip_prefix "ID:" ("ID:" +:+ "   " +:+ id) = Some ("   " +:+ id)) as -> by by apply strip_prefix_spec.
  cbn [fmap option_fmap option_map]. by rewrite trim_id.
Qed.

(** * What the commands leave *)

Definition auth_request (login : bool) (user pw : string) : AuthRequest := if login then RqLogin user pw else RqRegister user pw EmptyString.
Definition auth_action (login : bool) (user pw : string) : AuthAction := if login then AuthLogin user pw else AuthRegister user pw EmptyString.
Definition log_in (user : string) (r : AuthResponse) : AuthConfig := mkAuthConfig (ar_user_id r) user (ar_access_token r) (ar_refresh_token r).

Lemma auth_leaves (env : CliEnv) (login : bool) (c c' : CliConfig) (w w' : CliWorld) (url user pw out : string) :
  cc_relay_url c = Some url → run_auth env (auth_action login user pw) c w = (c', w', (out, CliDone)) →
  ∃ r, rl_auth url (auth_request login user pw) (cw_relays w) = (cw_relays w', Ok r) ∧
    load_config (ve_home env) w' = set_auth (Some (log_in user r)) c.
Proof.
  intros Hu H. assert (∃ prefix label, register_or_login env c prefix label user (auth_request login user pw) w = (c', w', (out, CliDone))) as (prefix & label & H').
  { destruct login; eexists _, _; exact H. }
  clear H. unfold register_or_login in H'. rewrite Hu in H'. destruct (relay_channel _ _ _); [|discriminate H'].
  unfold auth_call in H'. destruct (rl_auth _ _ _) as [s [r|e]]; [|discriminate H']. unfold finish_auth in H'.
  destruct (save_config _ _ _) as [w2 [[]|e]] eqn:Es; [|discriminate H']. injection H' as _ <- _. apply save_ok in Es as [Es ->].
  by exists r.
Qed.

(** The machine that the relay answers to the question [q]. *)
Definition relay_answers (q : MachineCall (option MachineInfo)) (url : string) (m : MachineInfo) : Prop :=
  ∃ header s s', rl_machine _ url header q s = (s', Ok (Some m)).

Lemma machine_call_answer (c : CliConfig) {R : Type} (q : MachineCall R) (w w' : CliWorld) (r : result Status R) (url : string) (auth : AuthConfig) :
  cc_relay_url c = Some url → cc_auth c = Some auth → machine_call c q w = inr (w', r) →
  rl_machine _ url ("Bearer " +:+ au_access_token auth) q (cw_relays w) = (cw_relays w', r) ∧ cw_files w' = cw_files w.
Proof.
  intros Hu Ha. unfold machine_call. rewrite Hu, Ha. destruct (relay_channel _ _ _); [|done].
  destruct (rl_header_ok _); [|done]. by destruct (rl_machine _ _ _ _ _) as [s r'] eqn:E; intros [= <- ->].
Qed.

Lemma load_files (home : option string) (w w' : CliWorld) : cw_files w' = cw_files w → load_config home w' = load_config home w.
Proof. intros E. unfold load_config. by rewrite E. Qed.

(** A command on machines refreshes the log-in first. *)
Lemma token_renewed (env : CliEnv) (c c1 : CliConfig) (w w1 : CliWorld) (url user : string) (r : AuthResponse) :
  cc_relay_url c = Some url → cc_auth c = Some (log_in user r) → ensure_valid_token env c w = (c1, w1, Ok tt) →
  ∃ r', rl_auth url (RqRefresh (ar_refresh_token r)) (cw_relays w) = (cw_relays w1, Ok r') ∧ load_config (ve_home env) w1 = c1 ∧
    c1 = set_auth (Some (mkAuthConfig (ar_user_id r) user (ar_access_token r') (ar_refresh_token r'))) c.
Proof.
  intros Hu Ha (url' & auth & s & r' & Hu' & Ha' & Hr & -> & Hl & Hs)%ensure_valid_ok. rewrite Hu in Hu'. injection Hu' as <-.
  rewrite Ha in Ha'. injection Ha' as <-. exists r'. subst s. split; [exact Hr|]. split; [exact Hl|]. unfold refreshed. by rewrite Ha.
Qed.

(** The log-in of the user [id] with the tokens of an answer. *)
Definition renewed (id : string) (r : AuthResponse) : AuthResponse := mkAuthResponse id (ar_access_token r) (ar_refresh_token r).

(** A registration that prints an identifier prints the machine's, and keeps
    the log-in under its new tokens. *)
Lemma register_leaves (env : CliEnv) (c c' : CliConfig) (w w' : CliWorld) (name out id url user : string) (r : AuthResponse) :
  cc_relay_url c = Some url → cc_auth c = Some (log_in user r) →
  (∀ m, relay_answers (McRegister (ve_uuid env) name) url m → str_all printable (mi_machine_id m) = true ∧ mi_machine_id m ≠ EmptyString) →
  run_machine env (MachineRegister None name) c w = (c', w', (out, CliDone)) → machine_id_of_output out = Some id →
  ∃ r' s m, rl_auth url (RqRefresh (ar_refresh_token r)) (cw_relays w) = (s, Ok r') ∧
    rl_machine _ url ("Bearer " +:+ ar_access_token r') (McRegister (ve_uuid env) name) s = (cw_relays w', Ok (Some m)) ∧ mi_machine_id m = id ∧
    load_config (ve_home env) w' = set_auth (Some (log_in user (renewed (ar_user_id r) r'))) c.
Proof.
  intros Hu Ha Hm H Hid. unfold run_machine in H. destruct (ensure_valid_token env c w) as [[c1 w1] [[]|e]] eqn:Ev; [|discriminate H].
  apply (token_renewed _ _ _ _ _ url user r) in Ev as (r' & Hr & Hl & ->); [|done..]. cbn [default] in H.
  destruct (machine_call _ _ w1) as [e|[w2 [[m|]|e]]] eqn:Em; try discriminate H.
  - injection H as <- <- <-. eapply (machine_call_answer _ _ _ _ _ url) in Em as [Hq Hf]; [|exact Hu|reflexivity].
    destruct (Hm m) as [Hp Hne]; [by eexists _, _, _|]. rewrite machine_id_read in Hid by done. injection Hid as <-.
    exists r', (cw_relays w1), m. split; [exact Hr|]. split; [exact Hq|]. split; [done|]. by rewrite (load_files _ _ _ Hf), Hl.
  - injection H as _ _ <-. discriminate Hid.
Qed.

Lemma switch_leaves (env : CliEnv) (c c' : CliConfig) (w w' : CliWorld) (id out url user : string) (r : AuthResponse) :
  cc_relay_url c = Some url → cc_auth c = Some (log_in user r) → run_machine env (MachineSwitch id) c w = (c', w', (out, CliDone)) →
  ∃ r' s m, rl_auth url (RqRefresh (ar_refresh_token r)) (cw_relays w) = (s, Ok r') ∧
    rl_machine _ url ("Bearer " +:+ ar_access_token r') (McGet id) s = (cw_relays w', Ok (Some m)) ∧
    load_config (ve_home env) w' = set_active_machine (Some (mi_machine_id m)) (set_auth (Some (log_in user (renewed (ar_user_id r) r'))) c).
Proof.
  intros Hu Ha H. unfold run_machine in H. destruct (ensure_valid_token env c w) as [[c1 w1] [[]|e]] eqn:Ev; [|discriminate H].
  apply (token_renewed _ _ _ _ _ url user r) in Ev as (r' & Hr & Hl & ->); [|done..].
  destruct (machine_call _ _ w1) as [e|[w2 [[m|]|e]]] eqn:Em; try discriminate H.
  destruct (save_config _ _ w2) as [w3 [[]|e]] eqn:Es; [|discriminate H]. injection H as _ <- _. apply save_ok in Es as [Es ->].
  eapply (machine_call_answer _ _ _ _ _ url) in Em as [Hq _]; [|exact Hu|reflexivity].
  by exists r', (cw_relays w1), m.
Qed.

(** * The wizard *)

(** A command of the wizard is a run of the client. *)
Lemma client_step (betcode : string) (venv : CliEnv) (vars : list (string * string)) (argv : list string) (args : CliArgs) (h h' : Host) (r : result string Output) :
  runs_client betcode venv → cli_args vars argv = Some args → exec vars (betcode :: argv) h = (h', Ok r) →
  ∃ ended, cli_main venv args (cli_world h) = (cli_world h', ended) ∧ r = Ok (output_of ended).
Proof.
  intros Hr Ha H. unfold exec in H. set (h0 := mkHost _ _ _ _) in H. pose proof (Hr _ _ _ h0 Ha) as Hx.
  change (cli_world h0) with (cli_world h) in Hx. destruct (cli_main venv args (cli_world h)) as [w ended]. rewrite Hx in H.
  injection H as <- <-. exists ended. by rewrite world_of_with.
Qed.

Lemma output_done (out : string) (e : CliEnd) : out_ok (output_of (Ended out e)) = true → e = CliDone.
Proof. by destruct e. Qed.

(** What the wizard is given, on its command line or as an answer, and what
    its relay calls a machine. *)
Record wizard_given (env : SetupEnv) (venv : CliEnv) (args : WizardArgs) (login : bool) (url user pw name : string) : Prop := {
  wg_relay : ∀ h, given_or (wa_relay args) None (prompt_relay_url env "https://relay.example.com:443") h = (h, Ok url);
  wg_user : ∀ h, given_or (wa_username args) None (prompt_username env) h = (h, Ok user);
  wg_password : ∀ h, prompt_password env h = (h, Ok pw);
  wg_login : ∀ h, (if wa_login args then mret true else if wa_register args then mret false else prompt_auth_action env) h = (h, Ok login);
  wg_name : ∀ h, ∃ h', match wa_machine_name args with
                       | Some n => mret n
                       | None => hostname ← run_cmd_output ["hostname"];
                                 prompt_machine_name env (match hostname with Ok n => n | Err _ => "my-machine" end)
                       end h = (h', Ok name) ∧ cli_world h' = cli_world h;
  wg_operands : operand url = true ∧ operand user = true ∧ operand name = true;
  wg_ids : ∀ m, relay_answers (McRegister (ve_uuid venv) name) url m →
    str_all printable (mi_machine_id m) = true ∧ mi_machine_id m ≠ EmptyString ∧ operand (mi_machine_id m) = true
}.

(** The five calls of a set-up and the answers of the relay: the log-in
    [first], the machine that is registered with a renewed token, and the
    machine that is found under its identifier with the tokens of [last]. *)
Definition relay_exchange (url id name : string) (req : AuthRequest) (s s' : rl_state) (first last : AuthResponse) (m : MachineInfo) : Prop :=
  ∃ s1 second s2 registered s3 s4,
    rl_auth url req s = (s1, Ok first) ∧
    rl_auth url (RqRefresh (ar_refresh_token first)) s1 = (s2, Ok second) ∧
    rl_machine _ url ("Bearer " +:+ ar_access_token second) (McRegister id name) s2 = (s3, Ok (Some registered)) ∧
    rl_auth url (RqRefresh (ar_refresh_token second)) s3 = (s4, Ok last) ∧
    rl_machine _ url ("Bearer " +:+ ar_access_token last) (McGet (mi_machine_id registered)) s4 = (s', Ok (Some m)).

Lemma auth_args (login : bool) (vars : list (string * string)) (url user pw : string) : operand url = true → operand user = true →
  variable "BETCODE_PASSWORD" vars = Some pw →
  cli_args vars ["--relay"; url; "auth"; if login then "login" else "register"; "-u"; user] =
  Some (mkCliArgs (Some url) None None "http://127.0.0.1:50051" (CmdAuth (auth_action login user pw))).
Proof. intros Hu Hn Hp. unfold cli_args. rewrite Hu. destruct login; cbn; rewrite Hp; cbn; by rewrite Hn. Qed.

(** The steps of the wizard, for what the configuration says afterwards. *)
Section WizardSteps.
Context (betcode : string) (venv : CliEnv) (Hr : runs_client betcode venv).

Definition config_at (h : Host) : CliConfig := load_config (ve_home venv) (cli_world h).

(** The configuration is that of a user with the tokens of [r]. *)
Definition logged_in (url user : string) (r : AuthResponse) (h : Host) : Prop :=
  cc_relay_url (config_at h) = Some url ∧ cc_auth (config_at h) = Some (log_in user r).

Lemma auth_step (login : bool) (url user pw : string) (h h' : Host) : operand url = true → operand user = true →
  run_betcode_auth betcode url (if login then "login" else "register") user pw h = (h', Ok tt) →
  ∃ r, rl_auth url (auth_request login user pw) (ho_outside h) = (ho_outside h', Ok r) ∧ logged_in url user r h' ∧
    cc_ca_cert (config_at h') = cc_ca_cert (config_at h).
Proof.
  intros Ou On H. unfold run_betcode_auth in H. apply bind_ok in H as (r & h1 & Ex & H).
  pose proof (auth_args login [("BETCODE_PASSWORD", pw)] url user pw Ou On eq_refl) as Hargs.
  destruct (client_step _ _ _ _ _ _ _ _ Hr Hargs Ex) as (ended & Hmain & ->). unfold cli_main in Hmain. cbn [ca_command] in Hmain.
  destruct (run_auth _ _ _ _) as [[c' w'] [out e]] eqn:Er. injection Hmain as Hw <-. destruct (out_ok _) eqn:Ek; [|discriminate H].
  injection H as <-. apply output_done in Ek as ->. apply (auth_leaves _ _ _ _ _ _ url) in Er as (a & Hq & Hl); [|reflexivity].
  exists a. rewrite Hw in Hq, Hl. split; [exact Hq|]. unfold logged_in, config_at. rewrite Hl. split; [split|]; reflexivity.
Qed.

Lemma register_step (url user name id : string) (r : AuthResponse) (h h' : Host) : operand url = true → operand name = true → logged_in url user r h →
  (∀ m, relay_answers (McRegister (ve_uuid venv) name) url m → str_all printable (mi_machine_id m) = true ∧ mi_machine_id m ≠ EmptyString) →
  run_betcode_machine_register betcode url name h = (h', Ok id) →
  ∃ r' s m, rl_auth url (RqRefresh (ar_refresh_token r)) (ho_outside h) = (s, Ok r') ∧
    rl_machine _ url ("Bearer " +:+ ar_access_token r') (McRegister (ve_uuid venv) name) s = (ho_outside h', Ok (Some m)) ∧ mi_machine_id m = id ∧
    logged_in url user (renewed (ar_user_id r) r') h' ∧ cc_ca_cert (config_at h') = cc_ca_cert (config_at h).
Proof.
  intros Ou On [Hu Ha] Hm H. unfold run_betcode_machine_register in H. apply bind_ok in H as (o & h1 & Ex & H).
  assert (cli_args [] ["--relay"; url; "machine"; "register"; "--name"; name] =
    Some (mkCliArgs (Some url) None None "http://127.0.0.1:50051" (CmdMachine (MachineRegister None name)))) as Hargs.
  { unfold cli_args. rewrite Ou. cbn. by rewrite On. }
  destruct (client_step _ _ _ _ _ _ _ _ Hr Hargs Ex) as (ended & Hmain & ->). unfold cli_main in Hmain. cbn [ca_command] in Hmain.
  destruct (run_machine _ _ _ _) as [[c' w'] [out e]] eqn:Er. injection Hmain as Hw <-. destruct (out_ok _) eqn:Ek; [|discriminate H].
  cbn [negb] in H. apply output_done in Ek as ->. cbn [output_of out_stdout] in H. destruct (machine_id_of_output out) as [id'|] eqn:Ei; [|discriminate H].
  injection H as <- <-. apply (register_leaves _ _ _ _ _ _ _ id' url user r) in Er as (r' & s & m & Hq & Hreg & Hid & Hl); [|done..].
  rewrite Hw in Hreg, Hl. exists r', s, m. split; [exact Hq|]. split; [exact Hreg|]. split; [exact Hid|]. unfold logged_in, config_at. rewrite Hl.
  split; [split|]; reflexivity.
Qed.

Lemma switch_step (id url user : string) (r : AuthResponse) (h h' : Host) : operand id = true → logged_in url user r h →
  run_betcode_machine_switch betcode id h = (h', Ok tt) →
  ∃ r' s m, rl_auth url (RqRefresh (ar_refresh_token r)) (ho_outside h) = (s, Ok r') ∧
    rl_machine _ url ("Bearer " +:+ ar_access_token r') (McGet id) s = (ho_outside h', Ok (Some m)) ∧
    config_at h' = mkCliConfig (Some url) (Some (mi_machine_id m)) (Some (log_in user (renewed (ar_user_id r) r'))) (cc_ca_cert (config_at h)).
Proof.
  intros Oi [Hu Ha] H. unfold run_betcode_machine_switch in H. apply bind_ok in H as (o & h1 & Ex & H).
  assert (cli_args [] ["machine"; "switch"; id] = Some (mkCliArgs None None None "http://127.0.0.1:50051" (CmdMachine (MachineSwitch id)))) as Hargs.
  { unfold cli_args. cbn. by rewrite Oi. }
  destruct (client_step _ _ _ _ _ _ _ _ Hr Hargs Ex) as (ended & Hmain & ->). unfold cli_main in Hmain. cbn [ca_command] in Hmain.
  destruct (run_machine _ _ _ _) as [[c' w'] [out e]] eqn:Er. injection Hmain as Hw <-. destruct (out_ok _) eqn:Ek; [|discriminate H].
  injection H as <-. apply output_done in Ek as ->. apply (switch_leaves _ _ _ _ _ _ _ url user r) in Er as (r' & s & m & Hq & Hm & Hl); [|done..].
  rewrite Hw in Hm, Hl. exists r', s, m. split; [exact Hq|]. split; [exact Hm|]. unfold config_at at 1. rewrite Hl, <- Hu. reflexivity.
Qed.

End WizardSteps.

(** C17: A wizard that succeeds has made five calls of its relay, each with
    what the answer before it carried, and leaves a configuration that names
    this relay, holds the log-in of the user with the tokens of the last
    refresh, and has as its machine the one that the relay found under the
    identifier it had registered; an authority that was set stays.  The
    address, the names and the password are options or answers, none of the
    first begins with a dash, and the relay's identifiers are visible
    characters that do not begin with one. *)
Theorem wizard_sets_up_client (env : SetupEnv) (betcode : string) (venv : CliEnv) (args : WizardArgs) (login : bool) (url user pw name : string) (h h' : Host) :
  runs_client betcode venv → wizard_given env venv args login url user pw name → run_wizard env betcode args h = (h', Ok tt) →
  ∃ first last m, relay_exchange url (ve_uuid venv) name (auth_request login user pw) (ho_outside h) (ho_outside h') first last m ∧
    load_config (ve_home venv) (cli_world h') =
    mkCliConfig (Some url) (Some (mi_machine_id m)) (Some (mkAuthConfig (ar_user_id first) user (ar_access_token last) (ar_refresh_token last)))
      (cc_ca_cert (load_config (ve_home venv) (cli_world h))).
Proof.
  intros Hr [Gr Gu Gp Gl Gm (Ou & On & Om) Gid] H. unfold run_wizard in H. do 4 next_step H.
  rewrite Gr in E. injection E as <- <-. rewrite Gu in E0. injection E0 as <- <-. rewrite Gp in E1. injection E1 as <- <-. rewrite Gl in E2. injection E2 as <- <-.
  do 3 next_step H. destruct a. destruct (Gm h0) as (h0' & Gm' & Hw). rewrite Gm' in E0. injection E0 as <- <-.
  apply (auth_step _ _ Hr) in E as (first & Hq1 & Hin1 & Hc1); [|done..].
  assert (config_at venv h0' = config_at venv h0 ∧ ho_outside h0' = ho_outside h0) as [Hw1 Hw2].
  { split; [unfold config_at; by rewrite Hw|exact (f_equal cw_relays Hw)]. }
  unfold logged_in in Hin1. rewrite <- Hw1 in Hin1, Hc1. rewrite <- Hw2 in Hq1.
  eapply (register_step _ _ Hr) in E1 as (second & s2 & reg & Hq2 & Hq3 & <- & Hin2 & Hc2);
    [|exact Ou|exact Om|exact Hin1|by intros m Hm; destruct (Gid m Hm) as (? & ? & ?)].
  eapply (switch_step _ _ Hr) in H as (last & s4 & m & Hq4 & Hq5 & Hc); [|by apply Gid; eexists _, _, _|exact Hin2].
  exists first, last, m. split; [by eexists _, _, _, _, _, _|]. unfold config_at in *. by rewrite Hc, Hc2, Hc1.
Qed.

End Wizard.

(** * At concrete inputs *)

#[local] Existing Instance coded_text.
#[local] Existing Instance coded_pretty.
#[local] Existing Instance numbered_keys.

(** ** Systemd's reading of an environment file *)

Definition read_settings (text : string) : list (string * string) := omap (split_once "=") (str_lines text).

Lemma read_settings_lines (l : list (string * string)) : l ≠ [] → Forall unquoted_setting l → read_settings (unlines (setting_line <$> l)) = l.
Proof.
  intros Hne Hl. unfold read_settings. rewrite lines_unlines.
  - clear Hne. induction Hl as [|[k v] l (Hk & _ & _) _ IH]; [done|]. cbn. unfold setting_line at 1. cbn [fst snd].
    change ("=" +:+ v) with (String (byte 61) v). rewrite (split_once_char (byte 61)) by exact Hk. by f_equal.
  - by destruct l.
  - apply setting_lines; eapply Forall_impl; try exact Hl; intros s (_ & H1 & H2 & _); split; eapply (all_no_char unquoted_char); done.
Qed.

#[local] Program Instance first_assignment : EnvironmentFiles := {| env_of text k := as_read <$> value_of k (read_settings text) |}.
Next Obligation. intros l k Hne Hl _. cbn. by rewrite read_settings_lines. Qed.

(** ** Commands that succeed without an effect *)

#[local] Instance nothing_outside : Outside := {| outside := unit |}.

#[local] Instance idle_programs : Programs (OS := nothing_outside) :=
  {| pr_exec _ _ h := (h, Ok (mkOutput true "exit status: 0" (Some 0%Z) EmptyString EmptyString));
     pr_write_error _ _ := None; pr_chmod_error _ _ := None; pr_canonicalize p _ := Ok p; pr_writable _ _ := true; pr_bind _ _ := None |}.

Lemma idle_keeps (p : string) : commands_keep (PG := idle_programs) p.
Proof. done. Qed.

Definition no_answers : Answers :=
  let no {A} : result string A := Err "not a terminal" in mkAnswers no no no no no no no no no no no no no no.

Definition setup_env (root : bool) : SetupEnv :=
  mkSetupEnv true no_answers root (Ok ["betcode-setup"]) (Some "/home/a") ["/usr/local/bin"] (Some "/bin/bash") (Some "a") None (Some "pw") "m-1" [] set_up.

Definition daemon_args : DaemonSetupArgs :=
  mkDaemonSetupArgs ModeUser "betcode" (mkSockAddr "127.0.0.1" 50051) None 5 10 (Some "https://r:443") None "box" (Some "a") (Some "p\w") None None (Some "/tmp/betcode-daemon").

Definition idle_host (files : gmap string string) : Host (OS := nothing_outside) := mkHost (OS := nothing_outside) (mkCertDisk ∅ files ∅) ∅ [] tt.

Lemma installed_daemon_starts_as_set_up_witness :
  let h' := (setup_daemon (PG := idle_programs) (setup_env false) daemon_args (idle_host {["/tmp/betcode-daemon" := "ELF"]})).1 in
  ∃ text o, host_files h' !! "/home/a/.config/betcode/daemon.env" = Some text ∧ args_of_env (env_of text) = Some o ∧
    da_machine_id o = Some "m-1" ∧ da_relay_password o = Some "pw" ∧
    ∃ m, read_cert_metadata "/home/a/.betcode/certs" (ho_disk h') = Some m ∧ cm_machine_id m = "m-1".
Proof.
  destruct (setup_daemon (PG := idle_programs) (setup_env false) daemon_args (idle_host {["/tmp/betcode-daemon" := "ELF"]})) as [h' r] eqn:E.
  assert (r = Ok tt) as -> by (apply (f_equal snd) in E; vm_compute in E; by subst r).
  destruct (installed_daemon_starts_as_set_up (PG := idle_programs) (setup_env false) daemon_args "/home/a" (idle_host {["/tmp/betcode-daemon" := "ELF"]}) h')
    as (text & o & Ht & Ha & -> & _ & Hm).
  - reflexivity.
  - reflexivity.
  - vm_compute. reflexivity.
  - split; cbn; lia.
  - apply idle_keeps.
  - apply idle_keeps.
  - split; [|split; cbn; lia]. repeat (apply Forall_cons_2; [split; [vm_compute; reflexivity|eexists; vm_compute; reflexivity]|]). apply Forall_nil_2.
  - exact E.
  - exists text, (options_read (options_of (config_of (setup_env false) "/home/a" daemon_args None false false))).
    split; [exact Ht|]. split; [exact Ha|]. split; [reflexivity|]. split; [reflexivity|].
    destruct Hm as (m & Hm & Hid & _); [by eexists|vm_compute; reflexivity|]. exists m. split; [exact Hm|exact Hid].
Defined.

(** ** An update of a relay *)

Definition relay_config : RelaySetupConfig :=
  mkRelaySetup "r.example" "0123456789abcdef0123456789abcdef" "/var/lib/betcode/relay.db" Systemd None (mkSockAddr "10.0.0.1" 8443).

Definition relay_host : Host (OS := nothing_outside) :=
  idle_host {[RELAY_UNIT_PATH := relay_unit relay_config; RELAY_ENV_PATH := relay_env_file relay_config; relay_path := "ELF"; cert_path relay_config := "PEM"]}.

Lemma relay_update_resets_address_witness :
  let h' := (setup_relay (PG := idle_programs) (setup_env true) (mkRelayArgs None None None None None default_relay_addr) relay_host).1 in
  host_files h' !! RELAY_ENV_PATH = Some (relay_env_file relay_config) ∧
  host_files h' !! RELAY_UNIT_PATH =
    Some (relay_unit (mkRelaySetup "r.example" "0123456789abcdef0123456789abcdef" "/var/lib/betcode/relay.db" Systemd None (mkSockAddr "0.0.0.0" 443))).
Proof.
  destruct (setup_relay (PG := idle_programs) (setup_env true) (mkRelayArgs None None None None None default_relay_addr) relay_host) as [h' r] eqn:E.
  assert (r = Ok tt) as -> by (apply (f_equal snd) in E; vm_compute in E; by subst r).
  apply (relay_update_resets_address (PG := idle_programs) (setup_env true) relay_config None default_relay_addr relay_host h').
  - split_and!; apply line_textb_ok; vm_compute; reflexivity.
  - vm_compute. repeat split; discriminate.
  - apply idle_keeps.
  - apply idle_keeps.
  - vm_compute. reflexivity.
  - vm_compute. reflexivity.
  - exact E.
Defined.

(** ** A client and its relay *)

Definition box : MachineInfo := mkMachineInfo "m-1" "box" "u" MachineOnline 0 0 ∅.

(** A relay that knows one machine, and numbers its tokens. *)
#[local] Instance small_relay : Relays := {|
  rl_state := nat;
  rl_uri_error _ := None;
  rl_tls_error _ := None;
  rl_connect_error _ _ _ := None;
  rl_auth _ _ s := (S s, Ok (mkAuthResponse "u" ("access" +:+ pretty (S s)) ("refresh" +:+ pretty (S s))));
  rl_machine R _ _ q s := (s, match q in MachineCall R return result Status R with
                              | McRegister _ _ => Ok (Some box)
                              | McList _ _ => Ok [box]
                              | McGet _ => Ok (Some box)
                              end);
  rl_header_ok _ := true;
  rl_status_text := message
|}.

Definition client_home : CliEnv := mkCliEnv (Some "/home/a") "/w" "m-1" None None.

(** The one program that is installed is the client. *)
#[local] Instance only_client : Programs (OS := relay_outside (RL := small_relay)) :=
  {| pr_exec vars argv h :=
       match cli_args vars (tail argv) with
       | Some args => let '(w, ended) := cli_main client_home args (cli_world h) in (with_world w h, Ok (output_of ended))
       | None => (h, Err not_found)
       end;
     pr_write_error _ _ := None; pr_chmod_error _ _ := None; pr_canonicalize p _ := Ok p; pr_writable _ _ := true; pr_bind _ _ := None |}.

Definition wizard_args : WizardArgs := mkWizardArgs (Some "https://r:443") None (Some "a") (Some "box") false true.
Definition empty_host : Host (OS := relay_outside (RL := small_relay)) := mkHost (OS := relay_outside (RL := small_relay)) no_files ∅ [] 0.

Lemma wizard_sets_up_client_witness :
  let h' := (run_wizard (PG := only_client) (setup_env false) "betcode" wizard_args empty_host).1 in
  load_config (Some "/home/a") (cli_world h') =
  mkCliConfig (Some "https://r:443") (Some "m-1") (Some (mkAuthConfig "u" "a" "access3" "refresh3")) None.
Proof.
  destruct (run_wizard (PG := only_client) (setup_env false) "betcode" wizard_args empty_host) as [h' r] eqn:E.
  assert (r = Ok tt) as -> by (apply (f_equal snd) in E; vm_compute in E; by subst r).
  destruct (wizard_sets_up_client (PG := only_client) (setup_env false) "betcode" client_home wizard_args true "https://r:443" "a" "pw" "box" empty_host h')
    as (first & last & m & (s1 & second & s2 & reg & s3 & s4 & H1 & H2 & H3 & H4 & H5) & Hc).
  - intros vars argv args h Ha. cbn [tail pr_exec only_client]. rewrite Ha. by destruct (cli_main _ _ _).
  - split; try (intros h; first [reflexivity|eexists; split; reflexivity]); [repeat split|]. intros m (hd & s & s' & [= _ <-]).
    split; [reflexivity|]. split; [discriminate|reflexivity].
  - exact E.
  - cbn in H1, H2, H3, H4, H5. injection H1 as <- <-. injection H2 as <- <-. injection H3 as <- <-. injection H4 as <- <-. injection H5 as _ <-. exact Hc.
Defined.
