(* ===== verification/Releases.v ===== *)
(** The download server, crates/betcode-releases/src/: platform.rs,
    registry.rs, routes.rs and main.rs.

    A request is its method, its path and the two headers the handlers read;
    how a path is decoded is an argument, since the router does it.  A response
    is what a handler returns. *)
From stdpp Require Import gmap strings list pretty.
From Stdlib Require Import ZArith Lia.
From S2P Require Import Prelude Utf8 Commands Completion Worktrees Setup.

(** * Platforms (platform.rs) *)

Inductive Os := Linux | Darwin | Windows.
Inductive Arch := Amd64 | Arm64.

#[export] Instance Os_eq_dec : EqDecision Os.
Proof. solve_decision. Defined.
#[export] Instance Arch_eq_dec : EqDecision Arch.
Proof. solve_decision. Defined.

Record Platform := mkPlatform { pl_os : Os; pl_arch : Arch }.

#[export] Instance Platform_eq_dec : EqDecision Platform.
Proof. solve_decision. Defined.

Definition os_text (o : Os) : string := match o with Linux => "linux" | Darwin => "darwin" | Windows => "windows" end.
Definition arch_text (a : Arch) : string := match a with Amd64 => "amd64" | Arm64 => "arm64" end.
Definition platform_ext (p : Platform) : string := match pl_os p with Windows => "zip" | _ => "tar.gz" end.

(** [to_ascii_lowercase] *)
Fixpoint ascii_lowercase (s : string) : string :=
  match s with EmptyString => EmptyString | String c s' => String (ascii_lower c) (ascii_lowercase s') end.

Definition detect (user_agent : string) : option Platform :=
  let ua := ascii_lowercase user_agent in
  let os := if contains "windows" ua || contains "win64" ua || contains "win32" ua then Windows
            else if contains "mac" ua || contains "darwin" ua then Darwin
            else Linux in
  let arch := if contains "aarch64" ua || contains "arm64" ua then Arm64 else Amd64 in
  Some (mkPlatform os arch).

(** * Binaries (registry.rs) *)

Definition CLIENT_BINARIES : list string := ["betcode"; "betcode-daemon"].
Definition SERVER_BINARIES : list string := ["betcode-relay"; "betcode-setup"].

Definition is_valid_binary (name : string) : bool := bool_decide (name ∈ CLIENT_BINARIES) || bool_decide (name ∈ SERVER_BINARIES).

Definition is_available (binary : string) (p : Platform) : bool :=
  if bool_decide (binary ∈ CLIENT_BINARIES) then true
  else if bool_decide (binary ∈ SERVER_BINARIES) then bool_decide (pl_os p = Linux)
  else false.

Definition download_url (repo binary : string) (p : Platform) : string :=
  "https://github.com/" +:+ repo +:+ "/releases/latest/download/" +:+ binary +:+ "-" +:+ os_text (pl_os p) +:+ "-" +:+ arch_text (pl_arch p) +:+ "." +:+ platform_ext p.

Definition all_binaries : list string := CLIENT_BINARIES ++ SERVER_BINARIES.

(** * Pages (routes.rs) *)

Record ServerState := mkServerState { rs_repo : string; rs_base_url : string }.

Definition INSTALL_SH : string := unlines
  ["#!/bin/sh";
    "set -eu";
    EmptyString;
    join dquote ["REPO="; "REPO_PLACEHOLDER"; EmptyString];
    join dquote ["BASE_URL="; "BASE_URL_PLACEHOLDER"; EmptyString];
    join dquote ["BINARY="; "${1:-betcode}"; EmptyString];
    join dquote ["INSTALL_DIR="; "${BETCODE_INSTALL_DIR:-/usr/local/bin}"; EmptyString];
    EmptyString;
    "# Detect OS";
    join dquote ["OS="; "$(uname -s)"; EmptyString];
    join dquote ["case "; "$OS"; " in"];
    join dquote ["  Linux*)  OS_SUFFIX="; "linux"; " ;;"];
    join dquote ["  Darwin*) OS_SUFFIX="; "darwin"; " ;;"];
    join dquote ["  *)       echo "; "Error: unsupported OS: $OS"; " >&2; exit 1 ;;"];
    "esac";
    EmptyString;
    "# Detect arch";
    join dquote ["ARCH="; "$(uname -m)"; EmptyString];
    join dquote ["case "; "$ARCH"; " in"];
    join dquote ["  x86_64|amd64)   ARCH_SUFFIX="; "amd64"; " ;;"];
    join dquote ["  aarch64|arm64)   ARCH_SUFFIX="; "arm64"; " ;;"];
    join dquote ["  *)               echo "; "Error: unsupported architecture: $ARCH"; " >&2; exit 1 ;;"];
    "esac";
    EmptyString;
    "# Server-only binaries";
    join dquote ["case "; "$BINARY"; " in"];
    "  betcode-relay|betcode-setup)";
    join dquote ["    if [ "; "$OS_SUFFIX"; " != "; "linux"; " ]; then"];
    join dquote ["      echo "; "Error: $BINARY is only available on Linux"; " >&2; exit 1"];
    "    fi ;;";
    "esac";
    EmptyString;
    join dquote ["PLATFORM="; "${OS_SUFFIX}-${ARCH_SUFFIX}"; EmptyString];
    join dquote ["URL="; "https://github.com/${REPO}/releases/latest/download/${BINARY}-${PLATFORM}.tar.gz"; EmptyString];
    EmptyString;
    join dquote ["echo "; "Installing ${BINARY} (${PLATFORM})..."; EmptyString];
    EmptyString;
    join dquote ["TMP="; "$(mktemp -d)"; EmptyString];
    join dquote ["trap 'rm -rf "; "$TMP"; "' EXIT"];
    EmptyString;
    join dquote ["curl -fsSL "; "$URL"; " -o "; "${TMP}/${BINARY}.tar.gz"; EmptyString];
    join dquote ["tar xzf "; "${TMP}/${BINARY}.tar.gz"; " -C "; "$TMP"; EmptyString];
    EmptyString;
    join dquote ["if [ -w "; "$INSTALL_DIR"; " ]; then"];
    join dquote ["  mv "; "${TMP}/${BINARY}"; " "; "${INSTALL_DIR}/${BINARY}"; EmptyString];
    "else";
    join dquote ["  echo "; "Installing to ${INSTALL_DIR} (requires sudo)..."; EmptyString];
    join dquote ["  sudo mv "; "${TMP}/${BINARY}"; " "; "${INSTALL_DIR}/${BINARY}"; EmptyString];
    "fi";
    EmptyString;
    join dquote ["chmod +x "; "${INSTALL_DIR}/${BINARY}"; EmptyString];
    join dquote ["echo "; "Installed ${BINARY} to ${INSTALL_DIR}/${BINARY}"; EmptyString];
    join dquote [EmptyString; "${INSTALL_DIR}/${BINARY}"; " --version 2>/dev/null || true"]].

Definition INSTALL_PS1 : string := unlines
  ["#Requires -Version 5.1";
    "param(";
    join dquote ["    [string]$Binary = "; "betcode"; ","];
    join dquote ["    [string]$InstallDir = "; "$env:USERPROFILE\.betcode\bin"; EmptyString];
    ")";
    EmptyString;
    join dquote ["$ErrorActionPreference = "; "Stop"; EmptyString];
    join dquote ["$Repo = "; "REPO_PLACEHOLDER"; EmptyString];
    EmptyString;
    "# Only client binaries on Windows";
    join dquote ["if ($Binary -in @("; "betcode-relay"; ", "; "betcode-setup"; ")) {"];
    join dquote ["    Write-Error "; "$Binary is only available on Linux"; EmptyString];
    "    exit 1";
    "}";
    EmptyString;
    join dquote ["$Arch = "; "amd64"; EmptyString];
    join dquote ["$Platform = "; "windows-$Arch"; EmptyString];
    join dquote ["$Url = "; "https://github.com/$Repo/releases/latest/download/$Binary-$Platform.zip"; EmptyString];
    EmptyString;
    join dquote ["Write-Host "; "Installing $Binary ($Platform)..."; EmptyString];
    EmptyString;
    join dquote ["$TmpDir = Join-Path $env:TEMP "; "betcode-install-$(Get-Random)"; EmptyString];
    "New-Item -ItemType Directory -Path $TmpDir -Force | Out-Null";
    EmptyString;
    "try {";
    join dquote ["    $ZipPath = Join-Path $TmpDir "; "$Binary.zip"; EmptyString];
    "    Invoke-WebRequest -Uri $Url -OutFile $ZipPath -UseBasicParsing";
    "    Expand-Archive -Path $ZipPath -DestinationPath $TmpDir -Force";
    EmptyString;
    "    if (-not (Test-Path $InstallDir)) {";
    "        New-Item -ItemType Directory -Path $InstallDir -Force | Out-Null";
    "    }";
    EmptyString;
    join dquote ["    $ExePath = Join-Path $TmpDir "; "$Binary.exe"; EmptyString];
    join dquote ["    $Dest = Join-Path $InstallDir "; "$Binary.exe"; EmptyString];
    "    Move-Item -Path $ExePath -Destination $Dest -Force";
    EmptyString;
    "    # Add to PATH if not already there";
    join dquote ["    $UserPath = [Environment]::GetEnvironmentVariable("; "PATH"; ", "; "User"; ")"];
    join dquote ["    if ($UserPath -notlike "; "*$InstallDir*"; ") {"];
    join dquote ["        [Environment]::SetEnvironmentVariable("; "PATH"; ", "; "$UserPath;$InstallDir"; ", "; "User"; ")"];
    join dquote ["        Write-Host "; "Added $InstallDir to PATH (restart terminal to use)"; EmptyString];
    "    }";
    EmptyString;
    join dquote ["    Write-Host "; "Installed $Binary to $Dest"; EmptyString];
    "} finally {";
    "    Remove-Item -Path $TmpDir -Recurse -Force -ErrorAction SilentlyContinue";
    "}"].

(** [str::replace] of a text that is not empty: [skip] characters belong to
    the occurrence before. *)
Fixpoint replace_go (from to s : string) (skip : nat) : string :=
  match s with
  | EmptyString => EmptyString
  | String c s' =>
      match skip with
      | S k => replace_go from to s' k
      | 0 => if starts_with from s then to +:+ replace_go from to s' (String.length from - 1) else String c (replace_go from to s' 0)
      end
  end.
Definition str_replace (from to s : string) : string := replace_go from to s 0.

Definition install_script (s : ServerState) : string := str_replace "BASE_URL_PLACEHOLDER" (rs_base_url s) (str_replace "REPO_PLACEHOLDER" (rs_repo s) INSTALL_SH).

Definition platform_cell (repo bin : string) (os : Os) (arch : Arch) (label : string) : string :=
  let p := mkPlatform os arch in
  if is_available bin p then
    join dquote ["<a href="; "https://github.com/" +:+ repo +:+ "/releases/latest/download/" +:+ bin +:+ "-" +:+ os_text os +:+ "-" +:+ arch_text arch +:+ "." +:+ platform_ext p;
                 ">" +:+ label +:+ "</a>"]
  else "—".

Definition row_lines (repo bin : string) : list string :=
  ["<tr>";
    "  <td><code>" +:+ bin +:+ "</code></td>";
    join dquote ["  <td><a href="; "https://github.com/"] +:+ repo +:+ "/releases/latest/download/" +:+ bin +:+ join dquote ["-linux-amd64.tar.gz"; ">Linux x64</a></td>"];
    join dquote ["  <td><a href="; "https://github.com/"] +:+ repo +:+ "/releases/latest/download/" +:+ bin +:+ join dquote ["-linux-arm64.tar.gz"; ">Linux ARM64</a></td>"];
    "  <td>" +:+ platform_cell repo bin Darwin Amd64 "macOS x64" +:+ "</td>";
    "  <td>" +:+ platform_cell repo bin Darwin Arm64 "macOS ARM64" +:+ "</td>";
    "  <td>" +:+ platform_cell repo bin Windows Amd64 "Windows x64" +:+ "</td>";
    "</tr>"].
Definition table_row (repo bin : string) : string := join lf (row_lines repo bin).

Definition binary_table_rows (repo : string) : string := join EmptyString (table_row repo <$> all_binaries).

Definition landing_page (s : ServerState) : string := join lf
  ["<!DOCTYPE html>";
    join dquote ["<html lang="; "en"; ">"];
    "<head>";
    join dquote ["<meta charset="; "utf-8"; ">"];
    join dquote ["<meta name="; "viewport"; " content="; "width=device-width, initial-scale=1"; ">"];
    "<title>BetCode — Download</title>";
    "<style>";
    "  * { margin: 0; padding: 0; box-sizing: border-box; }";
    join dquote ["  body { font-family: -apple-system, BlinkMacSystemFont, "; "Segoe UI"; ", Roboto, sans-serif;"];
    "         color: #e0e0e0; background: #0d1117; line-height: 1.6; }";
    "  .container { max-width: 800px; margin: 0 auto; padding: 2rem 1rem; }";
    "  h1 { font-size: 2rem; margin-bottom: 0.5rem; color: #f0f0f0; }";
    "  h2 { font-size: 1.2rem; margin: 2rem 0 0.75rem; color: #c0c0c0; }";
    "  p { margin-bottom: 1rem; color: #a0a0a0; }";
    "  code { background: #161b22; padding: 0.15em 0.4em; border-radius: 4px; font-size: 0.9em; }";
    "  pre { background: #161b22; padding: 1rem; border-radius: 8px; overflow-x: auto;";
    "         margin-bottom: 1.5rem; border: 1px solid #30363d; }";
    "  pre code { background: none; padding: 0; }";
    "  table { width: 100%; border-collapse: collapse; margin-bottom: 1.5rem; }";
    "  th, td { padding: 0.5rem 0.75rem; text-align: left; border-bottom: 1px solid #21262d; }";
    "  th { color: #8b949e; font-weight: 600; font-size: 0.85em; text-transform: uppercase; }";
    "  a { color: #58a6ff; text-decoration: none; }";
    "  a:hover { text-decoration: underline; }";
    "  .hero { text-align: center; padding: 2rem 0; }";
    "  .hero p { font-size: 1.1rem; }";
    "  .install-box { background: #161b22; border: 1px solid #30363d; border-radius: 8px;";
    "                  padding: 1.5rem; margin: 1.5rem 0; }";
    "</style>";
    "</head>";
    "<body>";
    join dquote ["<div class="; "container"; ">"];
    join dquote ["  <div class="; "hero"; ">"];
    "    <h1>BetCode</h1>";
    "    <p>Install the CLI tools for your platform</p>";
    "  </div>";
    EmptyString;
    join dquote ["  <div class="; "install-box"; ">"];
    "    <h2>Quick Install</h2>";
    "    <p><strong>Linux / macOS:</strong></p>";
    "    <pre><code>curl -fsSL https://" +:+ rs_base_url s +:+ " | sh</code></pre>";
    "    <p><strong>Windows (PowerShell):</strong></p>";
    "    <pre><code>irm https://" +:+ rs_base_url s +:+ "/install.ps1 | iex</code></pre>";
    "  </div>";
    EmptyString;
    "  <h2>Manual Downloads</h2>";
    "  <table>";
    "    <thead>";
    "      <tr><th>Binary</th><th>Linux x64</th><th>Linux ARM64</th><th>macOS x64</th><th>macOS ARM64</th><th>Windows x64</th></tr>";
    "    </thead>";
    "    <tbody>";
    "      " +:+ binary_table_rows (rs_repo s);
    "    </tbody>";
    "  </table>";
    EmptyString;
    "  <h2>Install a Specific Binary</h2>";
    "  <pre><code># Install relay (Linux only)";
    "curl -fsSL https://" +:+ rs_base_url s +:+ " | sh -s betcode-relay";
    EmptyString;
    "# Install daemon";
    "curl -fsSL https://" +:+ rs_base_url s +:+ " | sh -s betcode-daemon</code></pre>";
    "</div>";
    "</body>";
    "</html>"].

(** * Requests *)

Record Request := mkRequest {
  rq_get : bool;                (** GET or HEAD *)
  rq_path : string;
  rq_accept : option string;
  rq_user_agent : option string
}.

Inductive Response :=
| Html (page : string)
| Script (content_type text : string)
| TemporaryRedirect (url : string)
| Refusal (status : nat) (text : string).

(** [HeaderValue::to_str]: visible characters, spaces and tabs. *)
Fixpoint header_text (s : string) : option string :=
  match s with
  | EmptyString => Some EmptyString
  | String c s' => let n := Ascii.nat_of_ascii c in
                   if ((32 <=? n) && (n <? 127)) || (n =? 9) then String c <$> header_text s' else None
  end.

Definition wants_html (r : Request) : bool :=
  match rq_accept r ≫= header_text with Some accept => contains "text/html" accept | None => false end.

Definition root (s : ServerState) (r : Request) : Response :=
  if wants_html r then Html (landing_page s) else Script "text/x-shellscript" (install_script s).

Definition install_sh (s : ServerState) : Response := Script "text/x-shellscript" (install_script s).
Definition install_ps1 (s : ServerState) : Response := Script "text/plain" (str_replace "REPO_PLACEHOLDER" (rs_repo s) INSTALL_PS1).

Definition binary_download (s : ServerState) (binary : string) (r : Request) : Response :=
  if negb (is_valid_binary binary) then Refusal 404 EmptyString
  else if wants_html r then Html (landing_page s)
  else
    let ua := default EmptyString (rq_user_agent r ≫= header_text) in
    match detect ua with
    | None => Refusal 400 "Could not detect platform"
    | Some p =>
        if negb (is_available binary p) then Refusal 404 (binary +:+ " is not available on " +:+ os_text (pl_os p) +:+ "-" +:+ arch_text (pl_arch p))
        else TemporaryRedirect (download_url (rs_repo s) binary p)
    end.

(** The router: one segment that is not empty names a binary. *)
Definition answer (decode : string → option string) (s : ServerState) (r : Request) : Response :=
  let handled h := if rq_get r then h else Refusal 405 EmptyString in
  if decide (rq_path r = "/") then handled (root s r)
  else if decide (rq_path r = "/install.sh") then handled (install_sh s)
  else if decide (rq_path r = "/install.ps1") then handled (install_ps1 s)
  else match rq_path r with
       | String c (String d seg) =>
           if decide (c = byte 47) then
             if bool_decide (d = byte 47) || contains "/" seg then Refusal 404 EmptyString
             else handled (match decode (String d seg) with Some b => binary_download s b r | None => Refusal 400 EmptyString end)
           else Refusal 404 EmptyString
       | _ => Refusal 404 EmptyString
       end.

(** ** The start (main.rs) *)

(** What is given, else the variable of the environment, else the default. *)
Record ReleasesOptions := mkReleasesOptions { ro_addr : string; ro_repo : string; ro_base_url : string }.

Definition releases_options (addr repo base_url : option string) (env : string → option string) : ReleasesOptions :=
  let pick given name d := match given with Some v => v | None => default d (env name) end in
  mkReleasesOptions (pick addr "LISTEN_ADDR" "0.0.0.0:8080") (pick repo "GITHUB_REPO" "sakost/betcode") (pick base_url "BASE_URL" "get.betcode.dev").

Definition releases_main (o : ReleasesOptions) : ServerState := mkServerState (ro_repo o) (ro_base_url o).

(** * What is served *)

Lemma starts_with_app (p s : string) : starts_with p (p +:+ s) = true.
Proof. by apply starts_with_spec; exists s. Qed.

Lemma contains_here (p s : string) : starts_with p s = true → contains p s = true.
Proof. intros H. destruct s; cbn [contains]; by rewrite H. Qed.

Lemma contains_right (p a b : string) : contains p b = true → contains p (a +:+ b) = true.
Proof. induction a as [|c a IH]; [done|]. intros H. rewrite string_app_cons. cbn [contains]. rewrite IH by done. apply orb_true_r. Qed.

Lemma contains_left (p a b : string) : contains p a = true → contains p (a +:+ b) = true.
Proof.
  induction a as [|c a IH]; intros H.
  - cbn [contains] in H. rewrite orb_false_r in H. apply starts_with_spec in H as [t H]. destruct p; [|done]. by apply contains_here.
  - cbn [contains] in H. apply orb_prop in H as [H|H].
    + apply starts_with_spec in H as [t ->]. apply contains_here. rewrite <- string_app_assoc. apply starts_with_app.
    + rewrite string_app_cons. cbn [contains]. rewrite IH by done. apply orb_true_r.
Qed.

Lemma contains_join (p sep x : string) (l : list string) : x ∈ l → contains p x = true → contains p (join sep l) = true.
Proof.
  intros Hx Hp. induction l as [|y l IH]; [by apply not_elem_of_nil in Hx|].
  destruct l as [|z l]; [assert (x = y) as -> by set_solver; done|]. rewrite join_cons by done.
  apply elem_of_cons in Hx as [<-|Hx]; [by apply contains_left|]. by apply contains_right, contains_right, IH.
Qed.

(** A link of the page. *)
Definition link (url : string) : string := "<a href=" +:+ quoted url +:+ ">".

Definition listed_platforms : list Platform :=
  [mkPlatform Linux Amd64; mkPlatform Linux Arm64; mkPlatform Darwin Amd64; mkPlatform Darwin Arm64; mkPlatform Windows Amd64].

Lemma contains_middle (p a b : string) : contains p (a +:+ p +:+ b) = true.
Proof. apply contains_right, contains_here, starts_with_app. Qed.

(** The cell of a platform is the (k+2)-nd line of the row. *)
Definition platform_label (p : Platform) : string :=
  match pl_os p, pl_arch p with
  | Linux, Amd64 => "Linux x64" | Linux, Arm64 => "Linux ARM64" | Darwin, Amd64 => "macOS x64" | Darwin, Arm64 => "macOS ARM64"
  | Windows, Amd64 => "Windows x64" | Windows, Arm64 => "Windows ARM64"
  end.

Definition linked_cell (repo bin : string) (p : Platform) : string :=
  "  <td>" +:+ link (download_url repo bin p) +:+ platform_label p +:+ "</a></td>".

Definition cell_line (p : Platform) : nat :=
  match pl_os p, pl_arch p with Linux, Amd64 => 2 | Linux, Arm64 => 3 | Darwin, Amd64 => 4 | Darwin, Arm64 => 5 | Windows, _ => 6 end.

Lemma row_cell (repo bin : string) (p : Platform) : p ∈ listed_platforms → is_available bin p = true →
  row_lines repo bin !! cell_line p = Some (linked_cell repo bin p).
Proof.
  unfold listed_platforms. rewrite !elem_of_cons, elem_of_nil.
  assert (∀ x y, x = y → Some (A := string) x = Some y) as Hs by congruence.
  intros [-> | [-> | [-> | [-> | [-> | []]]]]] Ha; unfold row_lines, platform_cell; cbn [cell_line pl_os pl_arch]; rewrite ?Ha; apply Hs;
    unfold linked_cell, link, download_url, quoted, dquote; cbn [pl_os pl_arch platform_label join]; rewrite <- !string_app_assoc.
  all: reflexivity.
Qed.

Lemma page_has_rows (s : ServerState) (p : string) : contains p (binary_table_rows (rs_repo s)) = true → contains p (landing_page s) = true.
Proof.
  intros H. unfold landing_page. eapply contains_join; [|apply (contains_right p "      "), H].
  apply (list_elem_of_lookup_2 _ 50). reflexivity.
Qed.

(** The links of the page and the redirects agree: a binary that is
    redirected to is linked, for the platforms of the table. *)
Theorem redirects_are_listed (s : ServerState) (binary url : string) (r : Request) :
  binary_download s binary r = TemporaryRedirect url →
  ∃ p, detect (default EmptyString (rq_user_agent r ≫= header_text)) = Some p ∧ is_available binary p = true ∧
    url = download_url (rs_repo s) binary p ∧ (p ∈ listed_platforms → contains (link url) (landing_page s) = true).
Proof.
  unfold binary_download. destruct (is_valid_binary binary) eqn:Hv; [|done]. cbn [negb]. destruct (wants_html r); [done|].
  destruct (detect _) as [p|] eqn:Ed; [|done]. destruct (is_available binary p) eqn:Ha; [|done]. cbn [negb]. intros [= <-].
  exists p. split_and!; [done..|]. intros Hp. apply page_has_rows. unfold binary_table_rows.
  apply (contains_join _ _ (table_row (rs_repo s) binary)).
  - apply list_elem_of_fmap_2. unfold all_binaries. apply elem_of_app. unfold is_valid_binary in Hv. apply orb_prop in Hv as [Hv%bool_decide_eq_true|Hv%bool_decide_eq_true]; auto.
  - unfold table_row. eapply contains_join; [eapply list_elem_of_lookup_2, row_cell; done|].
    unfold linked_cell. apply contains_middle.
Qed.

(** But Windows on ARM is not in the table, and is redirected all the same. *)
Lemma windows_arm_is_not_listed :
  let s := releases_main (releases_options None None None (λ _, None)) in
  binary_download s "betcode" (mkRequest true "/betcode" None (Some "Mozilla/5.0 (Windows NT 10.0; ARM64)")) =
    TemporaryRedirect "https://github.com/sakost/betcode/releases/latest/download/betcode-windows-arm64.zip" ∧
  contains "windows-arm64" (landing_page s) = false.
Proof. vm_compute. split; reflexivity. Qed.

(** The platform is always detected: the refusal of a request without one is
    unreachable, and what is refused is a server program elsewhere than on
    Linux. *)
Lemma refused_downloads (s : ServerState) (binary : string) (r : Request) (status : nat) (text : string) :
  binary_download s binary r = Refusal status text → status = 404 ∧
  (is_valid_binary binary = false ∨ ∃ p, detect (default EmptyString (rq_user_agent r ≫= header_text)) = Some p ∧ binary ∈ SERVER_BINARIES ∧ pl_os p ≠ Linux).
Proof.
  unfold binary_download. destruct (is_valid_binary binary) eqn:Hv; [|intros [= <- _]; by auto]. cbn [negb]. destruct (wants_html r); [done|].
  set (ua := default _ _). destruct (detect ua) as [p|] eqn:Ed; [|by unfold detect in Ed]. destruct (is_available binary p) eqn:Ha; [done|]. cbn [negb].
  intros [= <- _]. split; [done|]. right. exists p. split; [done|]. unfold is_available, is_valid_binary in *.
  destruct (bool_decide (binary ∈ CLIENT_BINARIES)); [done|]. cbn [orb] in Hv. rewrite Hv in Ha.
  split; [by apply bool_decide_eq_true in Hv|by apply bool_decide_eq_false in Ha].
Qed.

(** ** The scripts *)

Lemma replace_none (from to s : string) : from ≠ EmptyString → contains from s = false → str_replace from to s = s.
Proof.
  intros Hne. unfold str_replace. induction s as [|c s IH]; [done|]. cbn [contains]. intros [H1 H2]%orb_false_iff. cbn [replace_go]. rewrite H1. by rewrite IH.
Qed.

Lemma replace_skip (from to s t : string) : replace_go from to (s +:+ t) (String.length s) = replace_go from to t 0.
Proof. induction s as [|c s IH]; [by destruct t|]. exact IH. Qed.

(** A text with the placeholder once is the text around what takes its place. *)
Lemma replace_once (from to s before after : string) : from ≠ EmptyString → split_once from s = Some (before, after) → contains from after = false →
  str_replace from to s = before +:+ to +:+ after.
Proof.
  intros Hne. unfold str_replace. revert before. induction s as [|c s IH]; intros before Hs Ha.
  - cbn in Hs. destruct (strip_prefix from EmptyString) as [t|] eqn:E; [|done]. apply strip_prefix_spec in E. by destruct from.
  - cbn [split_once] in Hs. destruct (strip_prefix from (String c s)) as [t|] eqn:E.
    + injection Hs as <- ->. apply strip_prefix_spec in E. cbn [replace_go].
      assert (starts_with from (String c s) = true) as -> by (rewrite E; apply starts_with_app). destruct from as [|d from]; [done|].
      injection E as -> ->. cbn [String.length]. rewrite Nat.sub_succ, Nat.sub_0_r, replace_skip.
      change (EmptyString +:+ to +:+ after) with (to +:+ after). f_equal. by apply replace_none.
    + assert (starts_with from (String c s) = false) as Hsw.
      { destruct (starts_with from (String c s)) eqn:Es; [|done]. apply starts_with_spec in Es as [t Ht%strip_prefix_spec]. by rewrite Ht in E. }
      destruct (split_once from s) as [[b a]|]; [|done]. injection Hs as <- <-. cbn [replace_go]. rewrite Hsw, (IH b) by done. by rewrite string_app_cons.
Qed.

(** The script for Windows names the repository, and is otherwise as it was
    written. *)
Lemma install_ps1_names_repository (s : ServerState) : ∃ before after, INSTALL_PS1 = before +:+ "REPO_PLACEHOLDER" +:+ after ∧
  install_ps1 s = Script "text/plain" (before +:+ rs_repo s +:+ after).
Proof.
  destruct (split_once "REPO_PLACEHOLDER" INSTALL_PS1) as [[before after]|] eqn:E; [|by vm_compute in E].
  exists before, after. split; [by apply split_once_spec|]. unfold install_ps1. f_equal. apply replace_once; [done|exact E|].
  assert (option_map (λ x, contains "REPO_PLACEHOLDER" x.2) (split_once "REPO_PLACEHOLDER" INSTALL_PS1) = Some false) as H by (vm_compute; reflexivity).
  rewrite E in H. by injection H.
Qed.

Lemma redirects_are_listed_witness :
  contains (link "https://github.com/sakost/betcode/releases/latest/download/betcode-relay-linux-arm64.tar.gz")
    (landing_page (mkServerState "sakost/betcode" "get.betcode.dev")) = true.
Proof.
  destruct (redirects_are_listed (mkServerState "sakost/betcode" "get.betcode.dev") "betcode-relay" 
    "https://github.com/sakost/betcode/releases/latest/download/betcode-relay-linux-arm64.tar.gz"
    (mkRequest true "/betcode-relay" (Some "*/*") (Some "Wget/1.21 (Linux aarch64)"))) as (p & Hp & _ & _ & H); [vm_compute; reflexivity|].
  apply H. assert (p = mkPlatform Linux Arm64) as -> by (apply (f_equal (default (mkPlatform Linux Amd64))) in Hp; vm_compute in Hp; by destruct Hp).
  apply (bool_decide_unpack _). vm_compute. exact I.
Defined.
